(* ===== verification/_CoqProject ===== *)
-Q . S2P
Prelude.v
Ring.v
CString.v
Kalloc.v
Vm.v
VmTheory.v
VmAlloc.v
VmCopy.v
VmUser.v
VmWitness.v
Double.v
Spinlock.v
ProcState.v
Sched.v
SchedTheory.v
SchedClock.v
SchedCycle.v
SchedShare.v
SchedWitness.v
Bio.v
BioTheory.v
Log.v
LogTheory.v
LogCrash.v
Cache.v
BlockStore.v
Transaction.v
StoreWitness.v
Fs.v
FsBlocks.v
FsTree.v
FsContent.v
FsInode.v
FsFile.v
FsDir.v
FsWitness.v
Sleep.v
ConsoleDev.v
Kernel.v
Pipe.v
ProcWitness.v
Console.v
ConsoleTheory.v
ConsoleWitness.v
File.v
Proc.v
Syscall.v
SyscallTheory.v
Sysfile.v
Exec.v
Trap.v
Grep.v
Printf.v
Umalloc.v
UmallocTheory.v
Sh.v
ShTheory.v
ShRoundtrip.v
ProcTheory.v
ForkTheory.v
ForkWitness.v
Programs.v
ShRun.v
ProjShell.v
ShellWitness.v
Descriptors.v
Mkfs.v
MkfsTheory.v
MkfsImage.v
MkfsBoot.v
Ide.v
IdeTheory.v
Utils.v
UtilsTheory.v
Mp.v
Boot.v
Apic.v
UserWitness.v
