(* ===== verification/Prelude.v ===== *)
(** * A verification development for the OS_Project kernel (xv6-public)

    The program is a teaching kernel for x86, xv6, extended with a scheduler that
    combines a multi-level feedback queue with stride scheduling, with threads,
    with files of up to three levels of indirect blocks and with positioned reads
    and writes, together with its user programs, the program that builds its disk
    image (all under src/xv6-public) and a small shell for Linux
    (src/proj_shell/src/shell.c).  This library translates the C code into
    functions and proves what they do.

    ** How code becomes functions

    A C function that reads and writes state of type [S] is a function
    [S -> result S A] in the monad of this file; its outcomes are a value, a
    panic, a fault (a null pointer, an index behind an array), waiting for
    something that nothing in the sequential execution can provide, running out of
    fuel, and a switch to the scheduler, which passes the rest of the function
    on.  A struct is a record, a pointer to an element of an array an index, an
    integer a [Z] whose wrap-around is written out with [u8], [u32], [s32] and the
    like, a buffer a list of bytes.  Sections under a spin lock are single steps;
    sleep locks and sleeping are explicit.  Larger states contain the smaller
    ones, and [zoom] runs an operation of a part in the whole.

    Loops that are not structural take fuel.  Where a theorem says that an
    operation returns, it includes that the fuel of the definition is enough: the
    bounds are the length of what is scanned, copied or read ([io_fuel], the
    length of a path, of a line, of the free list), the number of digits of a
    32-bit number, the number of sectors, buffers or table entries, or, for the
    devices, the number of times their status is busy (330 rounds for the clock,
    which follows from the times of its data sheet).  Loops without an end (the
    shell, init, the scheduler) are given a number of rounds, and the theorems
    hold for every number.

    ** The parts, their files and what is proved

    - Locks and processes.  Spinlock.v models spinlock.c and the per-CPU state of
      proc.c; ProcState.v the process table; Double.v the [double] arithmetic of
      the pass values.  Sched.v models the scheduler of proc.c ([MLFQ_Scheduler],
      [findMinPass], [Stride_Scheduler], [cpu_share], [yield], [sched]) and the
      clock part of trap.c.  SchedTheory.v shows which process is picked: the
      first runnable one of the highest level after the cursor, the least pass
      value among the stride processes, never the last slot of the table;
      SchedClock.v that ticks are charged and that boosting lifts everybody;
      SchedCycle.v runs the scheduler and the timer interrupt against each other,
      as coroutines: a process that is alone sinks level by level and is lifted
      again in a cycle of 103 ticks; SchedShare.v what [set_cpu_share] grants,
      refuses and panics at, and that asking twice breaks the reserve.
      Sleep.v, Proc.v, ProcTheory.v and ForkTheory.v model the life of processes
      and threads (fork, exit, wait, thread_create, thread_exit, thread_join,
      kill, growproc, sleep, wakeup); fork copies what a process has, and
      thread_join returns the value of the thread, or that of another one.
    - Memory.  Kalloc.v models kalloc.c, a stack of pages threaded through the
      pages; Vm.v models vm.c on page tables in a byte memory; VmTheory.v,
      VmAlloc.v, VmCopy.v and VmUser.v show that growing, copying and freeing an
      address space give, copy and return exactly its pages and touch no others,
      and that copyout writes what it is given.
    - Disk, log and buffer cache.  Bio.v models bio.c, sleeplock.c and memide.c;
      BioTheory.v and Cache.v show that the cache is transparent.  Ide.v models
      ide.c over the ports of a controller, with its linked queue and the
      processes that sleep in [iderw]; IdeTheory.v shows that it serves requests
      in order.  Log.v models log.c;
      LogTheory.v, LogCrash.v and Transaction.v show that a transaction is on the
      disk as a whole or not at all wherever a crash cuts the sequence of disk
      writes, and that crashes during recovery do no harm.
    - File system.  BlockStore.v is the interface between fs.c and the log: a
      class with laws about what a transaction shows, discharged by Transaction.v.
      Fs.v models all of fs.c on it.  FsBlocks.v (the free map), FsTree.v (the
      block map with its levels of tables), FsContent.v, FsInode.v, FsFile.v
      (inodes, reading and writing) and FsDir.v (directories) show that blocks
      are allocated once, that what is written is read back and nothing else
      changes, and that directories are maps from names to inode numbers; also
      that filling a hole is not recorded, and that linking to [.] waits for
      itself.  File.v, Pipe.v, Descriptors.v and Sysfile.v model file.c, pipe.c
      and sysfile.c; Ring.v has the arithmetic of their counters.
    - System calls.  Syscall.v, SyscallTheory.v, Exec.v and Trap.v model syscall.c,
      sysproc.c, exec.c and trap.c; pointers from user programs are checked
      against the size of the process.  Kernel.v is the state of the whole kernel.
    - Console.  ConsoleDev.v and Console.v model console.c, kbd.c and uart.c;
      ConsoleTheory.v shows that typing and then reading gives the edited line.
    - User programs.  CString.v models string.c and the strings of ulib.c,
      Printf.v printf.c, Umalloc.v umalloc.c with the invariant of its free list
      in UmallocTheory.v, Grep.v grep.c with the correctness of the matcher,
      Utils.v and UtilsTheory.v the small programs and init.c.  Sh.v, ShTheory.v
      and ShRoundtrip.v are the parser of sh.c: it ends on every line, and parses
      what is written out to what it was written from.  Programs.v has programs
      as trees of system calls and shows that every schedule of their processes
      ends and shows the same, and who is left when a process has waited for its
      children; over it ShRun.v runs commands (every program of a line gets the
      descriptors the line asks for, whatever fails, and the shell takes one line
      after the other) and ProjShell.v models shell.c.
    - The image.  Mkfs.v models mkfs.c; MkfsTheory.v and MkfsImage.v show that it
      builds a file system with the files of the host; MkfsBoot.v composes it
      with recovery, [namei] and [readi]: a kernel that boots from the image
      opens every file by name and reads its bytes.
    - Start-up and interrupt hardware.  Boot.v models bootmain.c and shows that the
      boot loader puts every byte of every segment of the kernel in place.  Mp.v
      models mp.c: it finds the processors of the tables, and hangs on an entry it
      does not know.  Apic.v models lapic.c, ioapic.c and picirq.c: the routing of
      interrupts, the timer, and the clock, whose time is never a mixture of two.

    The files called ...Witness hold concrete states at which the theorems apply.

    ** Parameters

    What is not code of the repository is an argument: the machine-level part of
    a switch between processes, the ports of the disk controller
    ([ControllerSpec]: the polling protocol of the ATA standard, without errors;
    [PromptWrites]: the data of a write is taken right after the command), the
    interrupt controllers and the clock ([IoapicSpec], [LapicSpec]; [RtcSpec]: the
    times of the data sheet), the memory of the firmware, the device
    table ([Devsw]), the results of system calls as user programs see them ([env]
    of Programs.v, the context of Utils.v), the files of the host that runs mkfs,
    and the addresses the linker chooses.  Two simplifications are made in the
    translation: the small allocations of the parser of sh.c, whose results it
    does not check, succeed; and the context of a new process, which C places on
    its kernel stack, is a field of its record.

    ** Not modelled

    - main.c, which calls the initialisations of the parts once, in their order,
      and starts the other processors, whose code is assembly at a fixed address;
      bootasm.S, entry.S, entryother.S and initcode.S, which are assembly.
    - swtch.S, trapasm.S, usys.S: assembly.  A switch is an outcome of the step
      that makes it.
    - seginit, tvinit and idtinit, which load descriptor tables of the processor,
      and procdump and getcallerpcs, which print for debugging.
    - The test programs (usertests.c, forktest.c, stressfs.c, hugefiletest.c,
      pwritetest.c, threadtest.c, thread_fork_1.c, test_*.c), which call the
      modelled code. *)

From Stdlib Require Export ZArith Lia.
From coqutil Require Export Datatypes.RecordSettersUsingExistingGetters.
From stdpp Require Export prelude strings list numbers functions.
Set Default Proof Mode "Classic".

Open Scope Z_scope.

(** Record updates are written [{ r with field := v }] and reduce by [cbn]. *)
#[global] Arguments RecordSettersUsingExistingGetters.const {_} _ _ /.
#[global] Arguments RecordSettersUsingExistingGetters.set {_ _} _ {_} _ _ /.
#[global] Arguments RecordSettersUsingExistingGetters.tset {_ _} _ {_} _ /.

(** The setter of a field is found in an empty context: what the surrounding
    proof or section calls its variables does not matter. *)
Ltac clean_setter :=
  lazymatch goal with
  | |- @Setter ?R ?E ?g =>
      let h := lazymatch g with gafu_getter (mk_gafu ?h _) => h | _ => g end in
      change (@Setter R E h);
      repeat match goal with H : _ |- _ => clear H end;
      setter R h
  end.
#[global] Hint Extern 0 (Setter _) => clean_setter : typeclass_instances.

(** ** Outcomes of kernel code

    A C function of the kernel that reads and writes state of type [S] and
    returns an [A] is a Rocq function [S -> result S A].

    - [Ok a s]: it returned [a] and left the state [s];
    - [Panic msg]: it called [panic(msg)], which never returns;
    - [Fault]: it dereferenced a null pointer or indexed an array out of
      bounds, which C leaves undefined;
    - [Blocked]: it waits for a lock held by somebody else and nothing of the
      sequential execution under study can release it;
    - [NoFuel]: the bound given to an unbounded loop of the model was reached;
    - [Swtch s k]: it called [swtch] in state [s]; the rest of its execution is
      [k], applied to the state in which control comes back. *)
Inductive result (S A : Type) : Type :=
| Ok (a : A) (s : S)
| Panic (msg : string)
| Fault
| Blocked
| NoFuel
| Swtch (s : S) (k : S -> result S A).
Arguments Ok {_ _} _ _.
Arguments Panic {_ _} _.
Arguments Fault {_ _}.
Arguments Blocked {_ _}.
Arguments NoFuel {_ _}.
Arguments Swtch {_ _} _ _.

Definition M (S A : Type) : Type := S -> result S A.

Fixpoint bind_result {S A B} (r : result S A) (f : A -> M S B) : result S B :=
  match r with
  | Ok a s => f a s
  | Panic msg => Panic msg
  | Fault => Fault
  | Blocked => Blocked
  | NoFuel => NoFuel
  | Swtch s k => Swtch s (fun s' => bind_result (k s') f)
  end.

#[export] Instance M_ret {S} : MRet (M S) := fun A a s => Ok a s.
#[export] Instance M_bind {S} : MBind (M S) :=
  fun A B f m s => bind_result (m s) f.

Section Operations.
Context {S : Type}.

Definition get : M S S := fun s => Ok s s.
Definition gets {A} (f : S -> A) : M S A := fun s => Ok (f s) s.
Definition put (s : S) : M S unit := fun _ => Ok tt s.
Definition modify (f : S -> S) : M S unit := fun s => Ok tt (f s).
Definition panic {A} (msg : string) : M S A := fun _ => Panic msg.
Definition fault {A} : M S A := fun _ => Fault.
Definition blocked {A} : M S A := fun _ => Blocked.
Definition no_fuel {A} : M S A := fun _ => NoFuel.
Definition swtch : M S unit := fun s => Swtch s (fun s' => Ok tt s').

(** Dereferencing a possibly null pointer. *)
Definition deref {A} (o : option A) : M S A :=
  match o with Some a => mret a | None => fault end.

Definition when (b : bool) (m : M S unit) : M S unit :=
  if b then m else mret tt.

(** [for (x in l) body], where the body may [return] out of the loop. *)
Fixpoint for_loop {X A} (l : list X) (body : X -> M S (option A)) : M S (option A) :=
  match l with
  | [] => mret None
  | x :: l' =>
      r ← body x;
      match r with
      | Some a => mret (Some a)
      | None => for_loop l' body
      end
  end.

(** [for (x in l) body], run to its end. *)
Fixpoint for_each {X} (l : list X) (body : X -> M S unit) : M S unit :=
  match l with
  | [] => mret tt
  | x :: l' => body x;; for_each l' body
  end.
End Operations.

(** Running an operation of a component inside a larger state. *)
Section Zoom.
Context {S T : Type} (view : S -> T) (upd : T -> S -> S).

Fixpoint zoom_result {A} (r : result T A) (s : S) : result S A :=
  match r with
  | Ok a t => Ok a (upd t s)
  | Panic msg => Panic msg
  | Fault => Fault
  | Blocked => Blocked
  | NoFuel => NoFuel
  | Swtch t k => Swtch (upd t s) (fun s' => zoom_result (k (view s')) s')
  end.

Definition zoom {A} (m : M T A) : M S A := fun s => zoom_result (m (view s)) s.
End Zoom.

(** ** Machine integers

    [uint] values are integers in [0, 2^32), [int] values integers in
    [-2^31, 2^31); arithmetic wraps (the kernel is built without
    optimisations that exploit signed overflow being undefined). *)
Definition u32 (z : Z) : Z := z mod 2 ^ 32.
Definition s32 (z : Z) : Z := (z + 2 ^ 31) mod 2 ^ 32 - 2 ^ 31.
Definition u16 (z : Z) : Z := z mod 2 ^ 16.
Definition s16 (z : Z) : Z := (z + 2 ^ 15) mod 2 ^ 16 - 2 ^ 15.
Definition u8 (z : Z) : Z := z mod 2 ^ 8.

(** The characters of a string literal. *)
Definition chars (s : string) : list Z := (fun a => Z.of_nat (Ascii.nat_of_ascii a)) <$> String.list_ascii_of_string s.

(** C truth values. *)
Definition ctrue (z : Z) : bool := negb (z =? 0).
Definition cbool (b : bool) : Z := if b then 1 else 0.

Lemma u32_small z : 0 <= z < 2 ^ 32 -> u32 z = z.
Proof. apply Z.mod_small. Qed.
Lemma u32_range z : 0 <= u32 z < 2 ^ 32.
Proof. apply Z.mod_pos_bound. lia. Qed.
Lemma s32_small z : - 2 ^ 31 <= z < 2 ^ 31 -> s32 z = z.
Proof. intros H. unfold s32. rewrite Z.mod_small; lia. Qed.
Lemma s32_range z : - 2 ^ 31 <= s32 z < 2 ^ 31.
Proof. unfold s32. pose proof (Z.mod_pos_bound (z + 2 ^ 31) (2 ^ 32)). lia. Qed.
Lemma u32_u32 z : u32 (u32 z) = u32 z.
Proof. apply u32_small, u32_range. Qed.
Lemma u32_add_l a b : u32 (u32 a + b) = u32 (a + b).
Proof. unfold u32. apply Zplus_mod_idemp_l. Qed.
Lemma u32_add_r a b : u32 (a + u32 b) = u32 (a + b).
Proof. unfold u32. apply Zplus_mod_idemp_r. Qed.
Lemma u32_sub_l a b : u32 (u32 a - b) = u32 (a - b).
Proof. unfold u32. apply Zminus_mod_idemp_l. Qed.
Lemma u32_sub_r a b : u32 (a - u32 b) = u32 (a - b).
Proof. unfold u32. apply Zminus_mod_idemp_r. Qed.

(** A modulus that divides [2^32] does not see the wrap-around: indexing a
    ring buffer of [512] bytes with a [uint] counter is consistent. *)
Lemma u32_mod_divide z k n : 0 < n -> 2 ^ 32 = k * n -> u32 z mod n = z mod n.
Proof.
  intros Hn Hk. unfold u32. apply Z.mod_mod_divide. by exists k.
Qed.

(** ** Bytes and little-endian words *)
Definition is_byte (b : Z) : Prop := 0 <= b < 256.
#[export] Instance is_byte_dec b : Decision (is_byte b).
Proof. unfold is_byte. apply _. Defined.

Fixpoint le_bytes (n : nat) (z : Z) : list Z :=
  match n with
  | O => []
  | S n' => z mod 256 :: le_bytes n' (z / 256)
  end.

Fixpoint le_value (bs : list Z) : Z :=
  match bs with
  | [] => 0
  | b :: bs' => b + 256 * le_value bs'
  end.

Lemma length_le_bytes n z : length (le_bytes n z) = n.
Proof. revert z. induction n; intros; simpl; auto. Qed.

Lemma le_bytes_byte n z : Forall is_byte (le_bytes n z).
Proof.
  revert z. induction n as [|n IH]; intros z; simpl; constructor; auto.
  apply Z.mod_pos_bound. lia.
Qed.

Lemma le_value_bytes n z : le_value (le_bytes n z) = z mod 256 ^ Z.of_nat n.
Proof.
  revert z. induction n as [|n IH]; intros z; simpl le_bytes; simpl le_value.
  - by rewrite Z.mod_1_r.
  - rewrite IH, Nat2Z.inj_succ, Z.pow_succ_r by lia.
    rewrite Z.rem_mul_r by lia. lia.
Qed.

Lemma le_value_range bs :
  Forall is_byte bs -> 0 <= le_value bs < 256 ^ Z.of_nat (length bs).
Proof.
  induction 1 as [|b bs Hb Hbs IH]; simpl length; simpl le_value; [lia|].
  rewrite Nat2Z.inj_succ, Z.pow_succ_r by lia. unfold is_byte in Hb. lia.
Qed.

Lemma le_bytes_value bs :
  Forall is_byte bs -> le_bytes (length bs) (le_value bs) = bs.
Proof.
  induction 1 as [|b bs Hb Hbs IH]; simpl; [done|]. unfold is_byte in Hb.
  rewrite (Z.mul_comm 256), Z.mod_add, Z.div_add, Z.mod_small, Z.div_small by lia.
  by rewrite Z.add_0_l, IH.
Qed.

(** ** Reading and writing a range of an array *)
Section Slices.
Context {A : Type}.
Implicit Types l new : list A.

Definition slice (off n : nat) l : list A := take n (drop off l).
Definition splice (off : nat) new l : list A :=
  take off l ++ new ++ drop (off + length new) l.

Lemma length_slice off n l :
  (off + n <= length l)%nat -> length (slice off n l) = n.
Proof. intros. unfold slice. rewrite length_take, length_drop. lia. Qed.

Lemma length_splice off new l :
  (off + length new <= length l)%nat -> length (splice off new l) = length l.
Proof.
  intros. unfold splice. rewrite !length_app, length_take, length_drop. lia.
Qed.

Lemma lookup_splice_in off new l i :
  (off + length new <= length l)%nat -> (off <= i < off + length new)%nat ->
  splice off new l !! i = new !! (i - off)%nat.
Proof.
  intros Hl Hi. unfold splice.
  rewrite lookup_app_r; rewrite length_take_le by lia; [|lia].
  by rewrite lookup_app_l by lia.
Qed.

Lemma lookup_splice_out off new l i :
  (off + length new <= length l)%nat -> (i < off \/ off + length new <= i)%nat ->
  splice off new l !! i = l !! i.
Proof.
  intros Hl [Hi|Hi]; unfold splice.
  - rewrite lookup_app_l by (rewrite length_take_le; lia).
    by rewrite lookup_take_lt.
  - rewrite lookup_app_r; rewrite length_take_le by lia; [|lia].
    rewrite lookup_app_r by lia. rewrite lookup_drop. f_equal. lia.
Qed.

Lemma lookup_slice off n l i :
  (i < n)%nat -> slice off n l !! i = l !! (off + i)%nat.
Proof. intros. unfold slice. by rewrite lookup_take_lt, lookup_drop by lia. Qed.

Lemma slice_splice_same off new l n :
  (off + length new <= length l)%nat -> n = length new ->
  slice off n (splice off new l) = new.
Proof.
  intros Hl ->. unfold slice, splice.
  rewrite drop_app_length' by (rewrite length_take_le; lia).
  by rewrite take_app_length.
Qed.

Lemma slice_splice_disjoint off new l off' n :
  (off + length new <= length l)%nat ->
  (off' + n <= off \/ off + length new <= off')%nat ->
  slice off' n (splice off new l) = slice off' n l.
Proof.
  intros Hl Hd. apply list_eq. intros i.
  destruct (decide (i < n)%nat) as [Hi|Hi].
  - rewrite !lookup_slice by lia. apply lookup_splice_out; lia.
  - rewrite !lookup_ge_None_2; [done|..]; unfold slice; rewrite length_take; lia.
Qed.

Lemma splice_id off n l :
  (off + n <= length l)%nat -> splice off (slice off n l) l = l.
Proof.
  intros. unfold splice. rewrite length_slice by lia. unfold slice.
  rewrite <- (take_drop off l) at 4. f_equal.
  rewrite <- (take_drop n (drop off l)) at 2. by rewrite drop_drop.
Qed.

Lemma Forall_splice (P : A -> Prop) off new l :
  Forall P new -> Forall P l -> Forall P (splice off new l).
Proof.
  intros. unfold splice. repeat apply Forall_app_2;
    auto using Forall_take, Forall_drop.
Qed.

Lemma Forall_slice (P : A -> Prop) off n l : Forall P l -> Forall P (slice off n l).
Proof. intros. unfold slice. auto using Forall_take, Forall_drop. Qed.
End Slices.

Lemma alter_insert {A} (f : A -> A) (l : list A) i x :
  l !! i = Some x -> alter f i l = <[i := f x]> l.
Proof.
  intros H. apply list_eq. intros j. destruct (decide (i = j)) as [<-|Hne].
  - rewrite list_lookup_alter_eq, list_lookup_insert_eq, H; [done|].
    by apply lookup_lt_Some in H.
  - by rewrite list_lookup_alter_ne, list_lookup_insert_ne.
Qed.

(** A 16- or 32-bit word stored little-endian at byte offset [off]. *)
Definition get16 (d : list Z) (off : nat) : Z := le_value (slice off 2 d).
Definition get32 (d : list Z) (off : nat) : Z := le_value (slice off 4 d).
Definition put16 (d : list Z) (off : nat) (v : Z) : list Z := splice off (le_bytes 2 v) d.
Definition put32 (d : list Z) (off : nat) (v : Z) : list Z := splice off (le_bytes 4 v) d.

Lemma get32_put32_same d off v :
  (off + 4 <= length d)%nat -> get32 (put32 d off v) off = u32 v.
Proof.
  intros. unfold get32, put32. rewrite slice_splice_same by (simpl; lia).
  by rewrite le_value_bytes.
Qed.

Lemma get32_put32_other d off off' v :
  (off + 4 <= length d)%nat -> (off' + 4 <= off \/ off + 4 <= off')%nat ->
  get32 (put32 d off v) off' = get32 d off'.
Proof.
  intros. unfold get32, put32. f_equal. apply slice_splice_disjoint; simpl; lia.
Qed.

Lemma length_put32 d off v :
  (off + 4 <= length d)%nat -> length (put32 d off v) = length d.
Proof. intros. unfold put32. apply length_splice. simpl. lia. Qed.

(** ** Reasoning about outcomes *)
Create HintDb kernel.

Ltac msimpl :=
  cbv beta delta [mbind M_bind mret M_ret get gets put modify panic fault
                  blocked no_fuel swtch deref when];
  cbn [bind_result].
Tactic Notation "msimpl" "in" hyp(H) :=
  cbv beta delta [mbind M_bind mret M_ret get gets put modify panic fault
                  blocked no_fuel swtch deref when] in H;
  cbn [bind_result] in H.

Section Outcomes.
Context {S : Type}.

Lemma bind_ok {A B} (m : M S A) (f : A -> M S B) s a s' :
  m s = Ok a s' -> (m ≫= f) s = f a s'.
Proof. intros H. msimpl. by rewrite H. Qed.

Lemma bind_blocked {A B} (m : M S A) (f : A -> M S B) s : m s = Blocked -> (m ≫= f) s = Blocked.
Proof. intros E. unfold mbind, M_bind. by rewrite E. Qed.

Lemma bind_panic {A B} (m : M S A) (f : A -> M S B) s msg : m s = Panic msg -> (m ≫= f) s = Panic msg.
Proof. intros E. unfold mbind, M_bind. by rewrite E. Qed.

Lemma bind_swtch {A B} (m : M S A) (f : A -> M S B) s s' k :
  m s = Swtch s' k -> (m ≫= f) s = Swtch s' (fun t => bind_result (k t) f).
Proof. intros H. msimpl. by rewrite H. Qed.

Lemma bind_inv_ok {A B} (m : M S A) (f : A -> M S B) s b s'' :
  (m ≫= f) s = Ok b s'' -> exists a s', m s = Ok a s' /\ f a s' = Ok b s''.
Proof. msimpl. destruct (m s); simpl; intros; try discriminate. eauto. Qed.

(** A loop whose body does not return early and keeps [s] visits every
    element and returns [None] in state [s]. *)
Lemma for_loop_skip {X A} (l : list X) (body : X -> M S (option A)) s :
  (forall x, x ∈ l -> body x s = Ok None s) -> for_loop l body s = Ok None s.
Proof.
  induction l as [|x l IH]; intros H; simpl; [done|].
  rewrite (bind_ok _ _ _ _ _ (H x ltac:(left))).
  apply IH. intros y Hy. apply H. by right.
Qed.

(** ... and it returns what its body returns at the first element at which
    it does. *)
Lemma for_loop_first {X A} (l1 l2 : list X) x (body : X -> M S (option A)) s a s' :
  (forall y, y ∈ l1 -> body y s = Ok None s) -> body x s = Ok (Some a) s' ->
  for_loop (l1 ++ x :: l2) body s = Ok (Some a) s'.
Proof.
  induction l1 as [|y l IH]; intros H Hx; simpl.
  - by rewrite (bind_ok _ _ _ _ _ Hx).
  - rewrite (bind_ok _ _ _ _ _ (H y ltac:(left))).
    apply IH; [|done]. intros z Hz. apply H. by right.
Qed.

Lemma for_each_app {X} (l1 l2 : list X) (body : X -> M S unit) s s' :
  for_each l1 body s = Ok tt s' ->
  for_each (l1 ++ l2) body s = for_each l2 body s'.
Proof.
  revert s. induction l1 as [|x l IH]; intros s H; simpl in *.
  - msimpl in H. congruence.
  - apply bind_inv_ok in H as ([] & s1 & Hx & Hl).
    rewrite (bind_ok _ _ _ _ _ Hx). by apply IH.
Qed.
End Outcomes.

(** Case analysis on the boolean tests of the code. *)
Ltac zbool :=
  repeat match goal with
  | H : (_ =? _) = true |- _ => apply Z.eqb_eq in H
  | H : (_ =? _) = false |- _ => apply Z.eqb_neq in H
  | H : (_ <? _) = true |- _ => apply Z.ltb_lt in H
  | H : (_ <? _) = false |- _ => apply Z.ltb_ge in H
  | H : (_ <=? _) = true |- _ => apply Z.leb_le in H
  | H : (_ <=? _) = false |- _ => apply Z.leb_gt in H
  | H : andb _ _ = true |- _ => apply andb_prop in H as [? ?]
  | H : orb _ _ = false |- _ => apply orb_false_elim in H as [? ?]
  | H : negb _ = true |- _ => apply negb_true_iff in H
  | H : negb _ = false |- _ => apply negb_false_iff in H
  end.

Ltac case_bool :=
  match goal with
  | |- context [if ?b then _ else _] => destruct b eqn:?
  end.

(** [mstate tac] gives [tac] the state in which the next operation of the
    sequence in the goal runs. *)
Ltac mstate tac :=
  match goal with |- context [@mbind (M _) _ _ _ _ _ ?st] => tac st end.

(** ** A program logic for outcomes

    [safe E Q R r]: whenever control is switched away in a state [s], [Q s]
    holds, and if it comes back in a state related to [s] by [E] the rest is
    safe again; when the code returns [a] in state [s], [R a s] holds.  A panic
    or a fault is safe: what is stated is partial correctness against every
    environment that respects [E]. *)
Fixpoint safe {S A} (E : S -> S -> Prop) (Q : S -> Prop) (R : A -> S -> Prop)
    (r : result S A) : Prop :=
  match r with
  | Ok a s => R a s
  | Swtch s k => Q s /\ forall s', E s s' -> safe E Q R (k s')
  | _ => True
  end.

(** Code that never switches: the two first arguments of [safe] are void. *)
Definition no_env {S} : S -> S -> Prop := fun _ _ => False.
Definition never {S} : S -> Prop := fun _ => False.

Section Safe.
Context {S : Type} (E : S -> S -> Prop) (Q : S -> Prop).

Lemma safe_mono {A} (R R' : A -> S -> Prop) r :
  safe E Q R r -> (forall a s, R a s -> R' a s) -> safe E Q R' r.
Proof.
  intros H HR. induction r as [a s|msg| | | |s k IH]; cbn in *; auto.
  destruct H as [HQ H]. split; [done|]. intros s' Hs'. apply IH. auto.
Qed.

Lemma safe_bind_result {A B} (R : A -> S -> Prop) (R' : B -> S -> Prop) r f :
  safe E Q R r -> (forall a s, R a s -> safe E Q R' (f a s)) ->
  safe E Q R' (bind_result r f).
Proof.
  intros H HR. induction r as [a s|msg| | | |s k IH]; cbn in *; auto.
  destruct H as [HQ H]. split; [done|]. intros s' Hs'. apply IH. auto.
Qed.

Lemma safe_bind {A B} (R : A -> S -> Prop) (R' : B -> S -> Prop)
    (m : M S A) (f : A -> M S B) s :
  safe E Q R (m s) -> (forall a s', R a s' -> safe E Q R' (f a s')) ->
  safe E Q R' ((m ≫= f) s).
Proof. intros. by apply safe_bind_result with R. Qed.

Lemma safe_no_env {A} (R : A -> S -> Prop) r :
  safe no_env never R r -> safe E Q R r.
Proof. destruct r; cbn; auto. intros [[] _]. Qed.

(** A loop preserves what its body preserves. *)
Lemma safe_for_loop {X A} (I : S -> Prop) (l : list X) (body : X -> M S (option A))
    (R : option A -> S -> Prop) s :
  I s -> (forall s, I s -> R None s) ->
  (forall x s, I s -> safe E Q (fun r s => match r with None => I s | Some _ => R r s end)
                        (body x s)) ->
  safe E Q R (for_loop l body s).
Proof.
  intros HI HN Hb. revert s HI. induction l as [|x l IH]; intros s HI; cbn.
  { by apply HN. }
  eapply safe_bind; [by apply Hb|]. intros [a|] s' H; cbn; auto.
Qed.

Lemma safe_for_each {X} (I : S -> Prop) (l : list X) (body : X -> M S unit)
    (R : unit -> S -> Prop) s :
  I s -> (forall s, I s -> R tt s) ->
  (forall x s, I s -> safe E Q (fun _ => I) (body x s)) ->
  safe E Q R (for_each l body s).
Proof.
  intros HI HN Hb. revert s HI. induction l as [|x l IH]; intros s HI; cbn.
  { by apply HN. }
  eapply safe_bind; [by apply Hb|]. intros a s' H. by apply IH.
Qed.
End Safe.

Lemma safe_zoom {S T A} (view : S -> T) (upd : T -> S -> S) (m : M T A)
    (R : A -> T -> Prop) E Q s :
  safe no_env never R (m (view s)) ->
  safe E Q (fun a s' => exists t, R a t /\ s' = upd t s) (zoom view upd m s).
Proof. unfold zoom. destruct (m (view s)); cbn; eauto. intros [[] _]. Qed.

(** ** Prefixes *)
Lemma prefix_app_split {A} (p l1 l2 : list A) :
  p `prefix_of` l1 ++ l2 ->
  p `prefix_of` l1 \/ exists p', p = l1 ++ p' /\ p' `prefix_of` l2.
Proof.
  intros [q Hq]. destruct (decide (length p <= length l1)%nat) as [Hle|Hgt].
  - left. exists (drop (length p) l1).
    assert (take (length p) (l1 ++ l2) = p) as Hp by (rewrite Hq; apply take_app_length).
    rewrite take_app_le in Hp by done. by rewrite <- Hp at 1; rewrite take_drop.
  - right. exists (drop (length l1) p).
    assert (take (length l1) (p ++ q) = l1) as Hp by (rewrite <- Hq; apply take_app_length).
    rewrite take_app_le in Hp by lia. split; [by rewrite <- Hp at 1; rewrite take_drop|].
    exists q. rewrite <- (drop_app_le _ _ (length l1)) by lia. rewrite <- Hq.
    by rewrite drop_app_length.
Qed.
