(* ===== verification/Ring.v ===== *)
(** * Ring buffers with free-running counters

    The pipes and the console keep their bytes in an array indexed by 32-bit
    counters modulo its size; the counters are never reset and wrap around.  The
    size divides 2^32, so that this does not matter. *)

From S2P Require Import Prelude.
Open Scope Z_scope.

Section Ring.
Context (N : nat) (copies : Z) (N_pos : (0 < N)%nat) (N_divides : 2 ^ 32 = copies * Z.of_nat N).

(** The place of counter [z] in the array. *)
Definition slot (z : Z) : nat := Z.to_nat (z mod Z.of_nat N).

(** The [n] bytes from counter [r] on. *)
Definition ring (buf : list Z) (r : Z) (n : nat) : list Z :=
  (fun j => buf !!! slot (r + Z.of_nat j)) <$> seq 0 n.

Lemma slot_lt z : (slot z < N)%nat.
Proof. unfold slot. pose proof (Z.mod_pos_bound z (Z.of_nat N)). lia. Qed.

Lemma slot_u32 z : slot (u32 z) = slot z.
Proof. unfold slot. by rewrite (u32_mod_divide z copies (Z.of_nat N)) by lia. Qed.

Lemma slot_eq_u32 z z' : u32 z = u32 z' -> slot z = slot z'.
Proof. intros E. by rewrite <- (slot_u32 z), E, slot_u32. Qed.

(** Counters less than [N] apart have different places. *)
Lemma slot_apart r i j : (i < j)%nat -> (j - i < N)%nat -> slot (r + Z.of_nat i) <> slot (r + Z.of_nat j).
Proof.
  intros Hij Hlt E. unfold slot in E. set (n := Z.of_nat N) in *. assert (0 < n) by lia.
  pose proof (Z.div_mod (r + Z.of_nat i) n). pose proof (Z.mod_pos_bound (r + Z.of_nat i) n).
  pose proof (Z.div_mod (r + Z.of_nat j) n). pose proof (Z.mod_pos_bound (r + Z.of_nat j) n).
  assert (Z.of_nat j - Z.of_nat i = n * ((r + Z.of_nat j) / n - (r + Z.of_nat i) / n)) as Hq by lia.
  assert (0 < Z.of_nat j - Z.of_nat i < n) by lia.
  destruct (Z.lt_trichotomy ((r + Z.of_nat j) / n - (r + Z.of_nat i) / n) 0) as [?|[?|?]]; nia.
Qed.

Lemma length_ring buf r n : length (ring buf r n) = n.
Proof. unfold ring. by rewrite length_fmap, length_seq. Qed.

Lemma ring_ext buf buf' r r' n :
  (forall j, (j < n)%nat -> buf !!! slot (r + Z.of_nat j) = buf' !!! slot (r' + Z.of_nat j)) ->
  ring buf r n = ring buf' r' n.
Proof. intros H. apply list_fmap_ext. intros i j Hj. apply lookup_seq in Hj as [-> Hj]. apply H. lia. Qed.

(** A counter may be replaced by one that is the same at its width. *)
Lemma ring_eq_u32 buf r r' n : u32 r = u32 r' -> ring buf r n = ring buf r' n.
Proof. intros E. apply ring_ext. intros j _. f_equal. apply slot_eq_u32. by rewrite <- u32_add_l, E, u32_add_l. Qed.

Lemma ring_cons buf r n : ring buf r (S n) = buf !!! slot r :: ring buf (r + 1) n.
Proof.
  unfold ring. cbn [seq fmap list_fmap]. rewrite Z.add_0_r. f_equal.
  rewrite <- fmap_S_seq, <- list_fmap_compose. apply list_fmap_ext. intros i j _. cbn. do 2 f_equal. lia.
Qed.

Lemma ring_app buf r n m : ring buf r (n + m) = ring buf r n ++ ring buf (r + Z.of_nat n) m.
Proof.
  revert r. induction n as [|n IH]; intros r.
  - by rewrite Z.add_0_r.
  - change (S n + m)%nat with (S (n + m)). rewrite !ring_cons, IH.
    by replace (r + 1 + Z.of_nat n) with (r + Z.of_nat (S n)) by lia.
Qed.

Lemma ring_snoc buf r n : ring buf r (S n) = ring buf r n ++ [buf !!! slot (r + Z.of_nat n)].
Proof. replace (S n) with (n + 1)%nat by lia. rewrite ring_app. cbn. by rewrite Z.add_0_r. Qed.

(** Storing outside of a stretch does not change it. *)
Lemma ring_insert_other buf r n p c :
  (n <= p)%nat -> (p < N)%nat -> ring (<[slot (r + Z.of_nat p) := c]> buf) r n = ring buf r n.
Proof.
  intros Hn Hp. apply ring_ext. intros j Hj. apply list_lookup_total_insert_ne. symmetry. apply slot_apart; lia.
Qed.

(** Storing right behind a stretch that does not fill the array extends it. *)
Lemma ring_put buf r n c :
  length buf = N -> (n < N)%nat ->
  ring (<[slot (r + Z.of_nat n) := c]> buf) r (S n) = ring buf r n ++ [c].
Proof.
  intros Hl Hn. rewrite ring_snoc, ring_insert_other by lia. f_equal. f_equal.
  apply list_lookup_total_insert_eq. rewrite Hl. apply slot_lt.
Qed.
End Ring.
