(* ===== verification/CString.v ===== *)
(** * Memory and string routines

    Models string.c (the kernel's) and the string half of ulib.c (the user
    library's, in [Module Ulib]) over a byte-addressed memory.  A [char] is a
    byte in [0, 256); a pointer is an address, and ranges of memory do not wrap
    around the address space.  Loops that stop at a NUL byte take fuel; the
    theorems about them show that the length of the string is enough. *)

From S2P Require Import Prelude.
Open Scope Z_scope.

Definition mem : Type := Z -> Z.

(** [*(a + i)] for [i < n] *)
Definition bytes_at (m : mem) (a : Z) (n : nat) : list Z :=
  (fun i => m (a + Z.of_nat i)) <$> seq 0 n.

(** The memory [m] with [bs] stored at [a]. *)
Fixpoint store_bytes (m : mem) (a : Z) (bs : list Z) : mem :=
  match bs with
  | [] => m
  | b :: bs' => store_bytes (<[a := b]> m) (a + 1) bs'
  end.

(** ** x86.h *)
Fixpoint stosb (m : mem) (addr data : Z) (cnt : nat) : mem :=
  match cnt with
  | O => m
  | S n => stosb (<[addr := u8 data]> m) (addr + 1) data n
  end.
Fixpoint stosl (m : mem) (addr data : Z) (cnt : nat) : mem :=
  match cnt with
  | O => m
  | S n => stosl (store_bytes m addr (le_bytes 4 data)) (addr + 4) data n
  end.

(** ** string.c *)
Definition memset (m : mem) (dst c n : Z) : mem :=
  if (dst mod 4 =? 0) && (n mod 4 =? 0) then
    let c := Z.land c 255 in
    stosl m dst
      (u32 (Z.lor (Z.lor (Z.lor (Z.shiftl c 24) (Z.shiftl c 16)) (Z.shiftl c 8)) c))
      (Z.to_nat (n / 4))
  else stosb m dst c (Z.to_nat n).

Fixpoint memcmp (m : mem) (s1 s2 : Z) (n : nat) : Z :=
  match n with
  | O => 0
  | S n => if negb (m s1 =? m s2) then m s1 - m s2 else memcmp m (s1 + 1) (s2 + 1) n
  end.

(** [while(n-- > 0) *--d = *--s;] and [while(n-- > 0) *d++ = *s++;] *)
Fixpoint copy_down (m : mem) (d s : Z) (n : nat) : mem :=
  match n with
  | O => m
  | S n => copy_down (<[d - 1 := m (s - 1)]> m) (d - 1) (s - 1) n
  end.
Fixpoint copy_up (m : mem) (d s : Z) (n : nat) : mem :=
  match n with
  | O => m
  | S n => copy_up (<[d := m s]> m) (d + 1) (s + 1) n
  end.

Definition memmove (m : mem) (dst src n : Z) : mem :=
  if (src <? dst) && (dst <? src + n)
  then copy_down m (dst + n) (src + n) (Z.to_nat n)
  else copy_up m dst src (Z.to_nat n).

Definition memcpy (m : mem) (dst src n : Z) : mem := memmove m dst src n.

Fixpoint strncmp (m : mem) (p q : Z) (n : nat) : Z :=
  match n with
  | O => 0
  | S n' =>
      if ctrue (m p) && (m p =? m q) then strncmp m (p + 1) (q + 1) n'
      else m p - m q
  end.

(** [strncpy]: the copying loop, which returns the [s] and [n] at its end, and
    the padding loop. *)
Fixpoint strncpy_copy (m : mem) (s t : Z) (n : nat) : mem * Z * nat :=
  match n with
  | O => (m, s, O)
  | S n' =>
      let m' := <[s := m t]> m in
      if m' s =? 0 then (m', s + 1, n') else strncpy_copy m' (s + 1) (t + 1) n'
  end.
Definition strncpy (m : mem) (s t n : Z) : mem :=
  let '(m', s', n') := strncpy_copy m s t (Z.to_nat n) in
  stosb m' s' 0 n'.

(** [safestrcpy]: its loop, which decrements [n] before it tests it, and the
    NUL after it. *)
Fixpoint safestrcpy_loop (m : mem) (s t : Z) (n : nat) : mem :=
  match n with
  | O => <[s := 0]> m
  | S n' =>
      let m' := <[s := m t]> m in
      if m' s =? 0 then <[s + 1 := 0]> m' else safestrcpy_loop m' (s + 1) (t + 1) n'
  end.

Definition safestrcpy (m : mem) (s t n : Z) : mem :=
  if n <=? 0 then m else safestrcpy_loop m s t (Z.to_nat (n - 1)).

Fixpoint strlen_loop (m : mem) (s n : Z) (fuel : nat) : option Z :=
  match fuel with
  | O => None
  | S f => if ctrue (m (s + n)) then strlen_loop m s (n + 1) f else Some n
  end.
Definition strlen (m : mem) (s : Z) (fuel : nat) : option Z := strlen_loop m s 0 fuel.

(** The same on objects of their own, given by their bytes: what lies behind
    the last byte is read as NUL. *)
Fixpoint strncmp_list (p q : list Z) (n : nat) : Z :=
  match n with
  | O => 0
  | S n' =>
      let a := hd 0 p in
      let b := hd 0 q in
      if ctrue a && (a =? b) then strncmp_list (tl p) (tl q) n' else a - b
  end.
Fixpoint strncpy_list (t : list Z) (n : nat) : list Z :=
  match n with
  | O => []
  | S n' =>
      let a := hd 0 t in
      if a =? 0 then replicate n 0 else a :: strncpy_list (tl t) n'
  end.

(** ** ulib.c *)
Module Ulib.
Fixpoint strcpy (m : mem) (s t : Z) (fuel : nat) : option mem :=
  match fuel with
  | O => None
  | S f =>
      let m' := <[s := m t]> m in
      if m' s =? 0 then Some m' else strcpy m' (s + 1) (t + 1) f
  end.

Fixpoint strcmp (m : mem) (p q : Z) (fuel : nat) : option Z :=
  match fuel with
  | O => None
  | S f =>
      if ctrue (m p) && (m p =? m q) then strcmp m (p + 1) (q + 1) f
      else Some (m p - m q)
  end.

Definition strlen (m : mem) (s : Z) (fuel : nat) : option Z := strlen_loop m s 0 fuel.

Definition memset (m : mem) (dst c n : Z) : mem := stosb m dst c (Z.to_nat n).

(** [None]: out of fuel; [Some 0]: the null pointer. *)
Fixpoint strchr (m : mem) (s c : Z) (fuel : nat) : option Z :=
  match fuel with
  | O => None
  | S f =>
      if m s =? 0 then Some 0
      else if m s =? c then Some s
      else strchr m (s + 1) c f
  end.

(** [char] is signed: bytes above 127 are negative and not digits either way. *)
Fixpoint atoi_loop (m : mem) (s n : Z) (fuel : nat) : option Z :=
  match fuel with
  | O => None
  | S f =>
      if (48 <=? m s) && (m s <=? 57) then atoi_loop m (s + 1) (s32 (n * 10 + m s - 48)) f
      else Some n
  end.
Definition atoi (m : mem) (s : Z) (fuel : nat) : option Z := atoi_loop m s 0 fuel.

Definition memmove (m : mem) (vdst vsrc n : Z) : mem := copy_up m vdst vsrc (Z.to_nat n).
End Ulib.

(** ** What the routines do *)
Lemma upd_eq (m : mem) a b : <[a := b]> m a = b.
Proof. apply fn_lookup_insert. Qed.
Lemma upd_ne (m : mem) a b x : x <> a -> <[a := b]> m x = m x.
Proof. intros. by apply fn_lookup_insert_ne. Qed.

(** [x] is one of the [n] bytes at [a]. *)
Definition inside (a : Z) (n : nat) (x : Z) : bool := (a <=? x) && (x <? a + Z.of_nat n).

Lemma inside_true a n x : a <= x < a + Z.of_nat n -> inside a n x = true.
Proof. intros. apply andb_true_intro. lia. Qed.
Lemma inside_false a n x : ~ (a <= x < a + Z.of_nat n) -> inside a n x = false.
Proof. intros H. apply not_true_is_false. unfold inside. intros E. zbool. lia. Qed.

(** Case analysis on all the comparisons of the goal. *)
Ltac zcases :=
  repeat match goal with
  | |- context [?a <=? ?b] => destruct (Z.leb_spec a b)
  | |- context [?a <? ?b] => destruct (Z.ltb_spec a b)
  | |- context [?a =? ?b] => destruct (Z.eqb_spec a b)
  end; try lia; cbn [andb].

Lemma stosb_at m addr data cnt x :
  stosb m addr data cnt x = if inside addr cnt x then u8 data else m x.
Proof.
  revert m addr. induction cnt as [|n IH]; intros m addr; cbn [stosb].
  { by rewrite inside_false by lia. }
  rewrite IH. destruct (decide (x = addr)) as [->|Hne].
  - rewrite inside_false, inside_true, upd_eq by lia. done.
  - rewrite upd_ne by done. unfold inside. by zcases.
Qed.

Lemma store_bytes_at m a bs x :
  store_bytes m a bs x
  = if inside a (length bs) x then bs !!! Z.to_nat (x - a) else m x.
Proof.
  revert m a. induction bs as [|b bs IH]; intros m a; cbn [store_bytes length].
  { by rewrite inside_false by (cbn; lia). }
  rewrite IH. destruct (decide (x = a)) as [->|Hne].
  - rewrite inside_false, inside_true, upd_eq by lia. by rewrite Z.sub_diag.
  - rewrite upd_ne by done. destruct (decide (a + 1 <= x < a + 1 + Z.of_nat (length bs))).
    + rewrite !inside_true by lia. replace (Z.to_nat (x - a)) with (S (Z.to_nat (x - (a + 1)))) by lia.
      done.
    + rewrite !inside_false by lia. done.
Qed.

(** A word made of four copies of a byte. *)
Lemma repeated_byte c :
  0 <= c < 256 ->
  le_bytes 4 (u32 (Z.lor (Z.lor (Z.lor (Z.shiftl c 24) (Z.shiftl c 16)) (Z.shiftl c 8)) c))
  = [c; c; c; c].
Proof.
  intros Hc. assert (Forall (fun c => le_bytes 4
    (u32 (Z.lor (Z.lor (Z.lor (Z.shiftl c 24) (Z.shiftl c 16)) (Z.shiftl c 8)) c)) = [c; c; c; c])
    (Z.of_nat <$> seq 0 256)) as H.
  { apply (bool_decide_unpack _). vm_compute. exact I. }
  rewrite list.Forall_forall in H. apply H. apply list_elem_of_fmap. exists (Z.to_nat c).
  rewrite elem_of_seq. lia.
Qed.

Lemma stosl_at m addr c cnt x :
  0 <= c < 256 ->
  stosl m addr (u32 (Z.lor (Z.lor (Z.lor (Z.shiftl c 24) (Z.shiftl c 16)) (Z.shiftl c 8)) c)) cnt x
  = if inside addr (4 * cnt) x then c else m x.
Proof.
  intros Hc. revert m addr. induction cnt as [|n IH]; intros m addr; cbn [stosl].
  { by rewrite inside_false by lia. }
  rewrite IH, repeated_byte, store_bytes_at by done. cbn [length].
  destruct (decide (addr <= x < addr + 4)).
  - rewrite inside_false, !inside_true by lia.
    assert (Z.to_nat (x - addr) < 4)%nat as Hi by lia.
    destruct (Z.to_nat (x - addr)) as [|[|[|[|]]]]; try done. lia.
  - destruct (decide (addr + 4 <= x < addr + 4 + 4 * Z.of_nat n)).
    + by rewrite !inside_true by lia.
    + by rewrite !inside_false by lia.
Qed.

(** [memset] sets exactly the [n] bytes at [dst] to the low byte of [c],
    whichever of its two implementations (words or bytes) runs. *)
Theorem memset_sets m dst c n x :
  0 <= n ->
  memset m dst c n x = if (dst <=? x) && (x <? dst + n) then u8 c else m x.
Proof.
  intros Hn. unfold memset. destruct ((dst mod 4 =? 0) && (n mod 4 =? 0)) eqn:E.
  - zbool. assert (Z.land c 255 = u8 c) as Hc by (apply (Z.land_ones c 8); lia).
    cbv zeta. rewrite Hc, stosl_at by (apply Z.mod_pos_bound; lia).
    unfold inside. pose proof (Z.div_mod n 4 ltac:(lia)).
    rewrite Nat2Z.inj_mul, Z2Nat.id by (apply Z.div_pos; lia). by zcases.
  - rewrite stosb_at. unfold inside. by rewrite Z2Nat.id by lia.
Qed.

(** ** Moving memory *)
Lemma copy_down_at m d s n x :
  s <= d ->
  copy_down m d s n x
  = if (d - Z.of_nat n <=? x) && (x <? d) then m (s - d + x) else m x.
Proof.
  intros Hsd. revert m d s Hsd. induction n as [|n IH]; intros m d s Hsd; cbn [copy_down].
  { by zcases. }
  rewrite IH by lia. destruct (decide (x = d - 1)) as [->|Hne].
  - zcases. rewrite upd_eq. f_equal. lia.
  - zcases; rewrite upd_ne by lia; f_equal; lia.
Qed.

Lemma copy_up_at m d s n x :
  d <= s \/ s + Z.of_nat n <= d ->
  copy_up m d s n x
  = if (d <=? x) && (x <? d + Z.of_nat n) then m (s - d + x) else m x.
Proof.
  revert m d s. induction n as [|n IH]; intros m d s Hsd; cbn [copy_up].
  { by zcases. }
  rewrite IH by lia. destruct (decide (x = d)) as [->|Hne].
  - zcases. rewrite upd_eq. f_equal. lia.
  - zcases; rewrite upd_ne by lia; f_equal; lia.
Qed.

(** [memmove] moves the [n] bytes at [src] to [dst] and changes nothing
    else, however the two ranges overlap. *)
Theorem memmove_moves m dst src n x :
  0 <= n ->
  memmove m dst src n x
  = if (dst <=? x) && (x <? dst + n) then m (src + (x - dst)) else m x.
Proof.
  intros Hn. unfold memmove. destruct ((src <? dst) && (dst <? src + n)) eqn:E.
  - zbool. rewrite copy_down_at by lia. zcases; f_equal; lia.
  - apply andb_false_iff in E. rewrite copy_up_at by (destruct E; zbool; lia).
    rewrite Z2Nat.id by lia. zcases; f_equal; lia.
Qed.

(** The user library's [memmove] copies upwards only.  It agrees with the
    kernel's when the destination does not lie inside the source. *)
Lemma ulib_memmove m dst src n x :
  0 <= n -> dst <= src \/ src + n <= dst ->
  Ulib.memmove m dst src n x = memmove m dst src n x.
Proof.
  intros Hn Hd. unfold Ulib.memmove. rewrite copy_up_at by lia. unfold memmove.
  destruct ((src <? dst) && (dst <? src + n)) eqn:E; [zbool; lia|].
  rewrite copy_up_at by lia. done.
Qed.

(** Copying upwards into the source repeats its first [d - s] bytes. *)
Lemma copy_up_below m d s n x : x < d -> copy_up m d s n x = m x.
Proof.
  revert m d s. induction n as [|n IH]; intros m d s Hx; cbn [copy_up]; [done|].
  rewrite IH by lia. by rewrite upd_ne by lia.
Qed.
Lemma copy_up_repeats m d s n x :
  s < d -> d <= x < d + Z.of_nat n -> copy_up m d s n x = copy_up m d s n (s - d + x).
Proof.
  intros Hsd. revert m d s Hsd. induction n as [|n IH]; intros m d s Hsd Hx; [lia|]. cbn [copy_up].
  destruct (decide (x = d)) as [->|Hne].
  - rewrite !copy_up_below by lia. rewrite upd_eq, upd_ne by lia. f_equal. lia.
  - rewrite IH by lia. f_equal. lia.
Qed.

(** The user library's [memmove] does not preserve overlapping data.  When
    [dst] lies inside the source range, at distance [k] from [src], the byte
    [k] of the result is the first byte of the source; the kernel's [memmove]
    stores there the byte [k] of the source. *)
Theorem ulib_memmove_overlap m src k n :
  0 < k < n ->
  Ulib.memmove m (src + k) src n (src + k + k) = m src
  /\ memmove m (src + k) src n (src + k + k) = m (src + k).
Proof.
  intros Hk. split.
  - unfold Ulib.memmove. do 2 (rewrite copy_up_repeats by lia; ring_simplify (src - (src + k) + (src + k + k))).
    rewrite copy_up_below by lia. f_equal. lia.
  - unfold memmove. destruct (Z.ltb_spec src (src + k)), (Z.ltb_spec (src + k) (src + n)); try lia.
    cbn [andb]. rewrite copy_down_at by lia. zcases. f_equal. lia.
Qed.

(** ** Strings *)

(** The characters of the string at [p], up to its NUL byte and to [n]. *)
Fixpoint cstr (m : mem) (p : Z) (n : nat) : list Z :=
  match n with
  | O => []
  | S n' => if m p =? 0 then [] else m p :: cstr m (p + 1) n'
  end.

(** [strncmp] returns 0 exactly when the two strings agree up to their NUL
    bytes, as far as their first [n] characters; otherwise its sign tells which
    string has the smaller character where they first differ. *)
Theorem strncmp_compares m p q n :
  (strncmp m p q n = 0 <-> cstr m p n = cstr m q n)
  /\ (strncmp m p q n <> 0 -> exists i, (i < n)%nat /\
        cstr m p i = cstr m q i /\
        strncmp m p q n = m (p + Z.of_nat i) - m (q + Z.of_nat i)).
Proof.
  revert p q. induction n as [|n IH]; intros p q; cbn [strncmp cstr]; [naive_solver|].
  unfold ctrue. destruct (Z.eqb_spec (m p) 0) as [E|Hne]; cbn [negb andb].
  - split.
    + rewrite E. destruct (Z.eqb_spec (m q) 0); split; intros; try lia; done.
    + intros _. exists 0%nat. rewrite !Z.add_0_r. split_and!; [lia|done..].
  - destruct (Z.eqb_spec (m p) (m q)) as [E|Hd].
    + rewrite <- E. destruct (Z.eqb_spec (m p) 0); [lia|]. destruct (IH (p + 1) (q + 1)) as [IH1 IH2].
      split; [rewrite IH1; split; [congruence|by intros [= ?]]|]. intros (i & Hi & Hs & ->)%IH2. exists (S i).
      cbn [cstr]. rewrite <- E. destruct (Z.eqb_spec (m p) 0); [lia|]. rewrite Hs.
      split_and!; [lia|done|]. do 2 f_equal; lia.
    + split.
      * split; [lia|]. destruct (Z.eqb_spec (m q) 0); [done|]. intros [=]. lia.
      * intros _. exists 0%nat. rewrite !Z.add_0_r. split_and!; [lia|done..].
Qed.

Lemma length_cstr m p n : (length (cstr m p n) <= n)%nat.
Proof.
  revert p. induction n as [|n IH]; intros p; cbn [cstr]; [done|].
  destruct (m p =? 0); cbn; [lia|]. specialize (IH (p + 1)). lia.
Qed.

(** The string at [p] depends on its [n] bytes only. *)
Lemma cstr_ext m m' p n :
  (forall x, p <= x < p + Z.of_nat n -> m' x = m x) -> cstr m' p n = cstr m p n.
Proof.
  revert p. induction n as [|n IH]; intros p H; cbn [cstr]; [done|].
  rewrite H by lia. destruct (m p =? 0); [done|]. f_equal. apply IH. intros. apply H. lia.
Qed.

Lemma bytes_at_S m a n : bytes_at m a (S n) = m a :: bytes_at m (a + 1) n.
Proof.
  unfold bytes_at. cbn [seq fmap list_fmap]. rewrite Z.add_0_r. f_equal.
  rewrite <- seq_shift, <- list_fmap_compose. apply list_fmap_ext. intros i x _. cbn. f_equal. lia.
Qed.

Lemma strncmp_list_ok m p q n :
  strncmp_list (bytes_at m p n) (bytes_at m q n) n = strncmp m p q n.
Proof.
  revert p q. induction n as [|n IH]; intros p q; [done|]. rewrite !bytes_at_S. cbn.
  by rewrite IH.
Qed.

Definition disjoint_from (s : Z) (ns : nat) (t : Z) (nt : nat) : Prop :=
  s + Z.of_nat ns <= t \/ t + Z.of_nat nt <= s.

Lemma strncpy_pads m s t n x :
  disjoint_from s n t n ->
  (let '(m', s', n') := strncpy_copy m s t n in stosb m' s' 0 n') x
  = if inside s n x then nth (Z.to_nat (x - s)) (cstr m t n) 0 else m x.
Proof.
  revert m s t. induction n as [|n IH]; intros m s t Hd; cbn [strncpy_copy cstr].
  { cbn. by rewrite inside_false by lia. }
  unfold disjoint_from in Hd. rewrite upd_eq. destruct (Z.eqb_spec (m t) 0) as [E|Hne].
  - rewrite stosb_at, E. destruct (decide (x = s)) as [->|Hx].
    + rewrite inside_false, inside_true, upd_eq by lia. by destruct (Z.to_nat _).
    + rewrite upd_ne by done. unfold inside. zcases; try done. by destruct (Z.to_nat _).
  - rewrite IH by (unfold disjoint_from; lia).
    rewrite (cstr_ext m) by (intros; apply upd_ne; lia). destruct (decide (x = s)) as [->|Hx].
    + rewrite inside_false, inside_true, upd_eq, Z.sub_diag by lia. done.
    + rewrite upd_ne by done. unfold inside. zcases; try done.
      replace (Z.to_nat (x - s)) with (S (Z.to_nat (x - (s + 1)))) by lia. done.
Qed.

Lemma strncpy_list_ok m t n i :
  nth i (strncpy_list (bytes_at m t n) n) 0 = nth i (cstr m t n) 0.
Proof.
  revert t i. induction n as [|n IH]; intros t i; [done|]. rewrite bytes_at_S.
  cbn [strncpy_list cstr hd tl]. destruct (Z.eqb_spec (m t) 0) as [E|Hne].
  - rewrite nth_lookup. destruct (replicate (S n) 0 !! i) eqn:E'; [|by destruct i].
    apply lookup_replicate_1 in E' as [-> _]. by destruct i.
  - destruct i; [done|]. apply IH.
Qed.

(** [strncpy] fills exactly the [n] bytes at [s], with the characters of the
    string [t] (as many as fit) followed by zeros. *)
Theorem strncpy_copies m s t n x :
  0 <= n -> s + n <= t \/ t + n <= s ->
  strncpy m s t n x
  = if (s <=? x) && (x <? s + n) then nth (Z.to_nat (x - s)) (cstr m t (Z.to_nat n)) 0 else m x.
Proof.
  intros Hn Hd. pose proof (strncpy_pads m s t (Z.to_nat n) x) as H.
  unfold inside, disjoint_from in H. rewrite Z2Nat.id in H by lia. unfold strncpy.
  rewrite <- (H Hd). by destruct (strncpy_copy _ _ _ _) as [[? ?] ?].
Qed.

Lemma safestrcpy_loop_ok m s t n :
  disjoint_from s (S n) t n ->
  let m' := safestrcpy_loop m s t n in
  cstr m' s (S n) = cstr m t n
  /\ (forall x, ~ (s <= x < s + Z.of_nat (S n)) -> m' x = m x).
Proof.
  revert m s t. induction n as [|n IH]; intros m s t Hd; cbn [safestrcpy_loop].
  { cbn. rewrite upd_eq. split; [done|]. intros x Hx. apply upd_ne. lia. }
  unfold disjoint_from in Hd. rewrite upd_eq. destruct (Z.eqb_spec (m t) 0) as [E|Hne].
  - split.
    + cbn [cstr]. rewrite (upd_ne _ _ _ s), upd_eq, E by lia. done.
    + intros x Hx. rewrite !upd_ne by lia. done.
  - destruct (IH (<[s := m t]> m) (s + 1) (t + 1)) as [H1 H2]; [unfold disjoint_from; lia|].
    cbv zeta in *. split.
    + remember (S n) as k. cbn [cstr]. rewrite H2, upd_eq by lia.
      destruct (Z.eqb_spec (m t) 0); [lia|]. rewrite H1. subst k. cbn [cstr].
      destruct (Z.eqb_spec (m t) 0); [lia|]. f_equal. apply cstr_ext. intros. apply upd_ne. lia.
    + intros x Hx. rewrite H2 by lia. apply upd_ne. lia.
Qed.

Lemma cstr_nul m p n :
  (length (cstr m p n) < n)%nat -> m (p + Z.of_nat (length (cstr m p n))) = 0.
Proof.
  revert p. induction n as [|n IH]; intros p; cbn [cstr]; [lia|].
  destruct (Z.eqb_spec (m p) 0) as [E|Hne]; cbn [length].
  - intros _. by rewrite Z.add_0_r.
  - intros H. rewrite <- (IH (p + 1)) by lia. f_equal. lia.
Qed.

(** [safestrcpy] leaves at [s] the string [t] cut to [n - 1] characters,
    always with a NUL byte inside the [n] bytes at [s], and changes nothing
    outside them. *)
Theorem safestrcpy_terminates m s t n :
  0 < n -> s + n <= t \/ t + n <= s ->
  let m' := safestrcpy m s t n in
  let len := length (cstr m t (Z.to_nat (n - 1))) in
  cstr m' s (Z.to_nat n) = cstr m t (Z.to_nat (n - 1))
  /\ Z.of_nat len < n /\ m' (s + Z.of_nat len) = 0
  /\ (forall x, ~ (s <= x < s + n) -> m' x = m x).
Proof.
  intros Hn Hd m' len. pose proof (length_cstr m t (Z.to_nat (n - 1))) as Hl. fold len in Hl.
  destruct (safestrcpy_loop_ok m s t (Z.to_nat (n - 1))) as [H1 H2]; [unfold disjoint_from; lia|].
  assert (m' = safestrcpy_loop m s t (Z.to_nat (n - 1))) as E.
  { unfold m', safestrcpy. destruct (Z.leb_spec n 0); [lia|done]. }
  rewrite <- E in H1, H2. replace (S (Z.to_nat (n - 1))) with (Z.to_nat n) in H1, H2 by lia.
  split_and!; [done|lia| |intros x Hx; apply H2; lia].
  rewrite <- (cstr_nul m' s (Z.to_nat n)); rewrite H1; fold len; [done|lia].
Qed.

Lemma strlen_loop_ok m s n k fuel :
  (forall i, n <= i < n + Z.of_nat k -> m (s + i) <> 0) -> m (s + (n + Z.of_nat k)) = 0 ->
  (k < fuel)%nat -> strlen_loop m s n fuel = Some (n + Z.of_nat k).
Proof.
  revert n fuel. induction k as [|k IH]; intros n [|fuel] Hne Hz Hf; try lia; cbn [strlen_loop]; unfold ctrue.
  - rewrite Z.add_0_r in Hz |- *. by rewrite Hz.
  - destruct (Z.eqb_spec (m (s + n)) 0) as [E|_]; [by destruct (Hne n ltac:(lia))|]. cbn.
    rewrite IH; [f_equal; lia| |rewrite <- Hz; f_equal; lia|lia]. intros i Hi. apply Hne. lia.
Qed.

(** ** Numbers *)

(** The decimal value of digits. *)
Definition digits_value (ds : list Z) : Z := foldl (fun n d => n * 10 + (d - 48)) 0 ds.
Definition is_digit (c : Z) : Prop := 48 <= c <= 57.

Lemma digits_fold_ge ds n : Forall is_digit ds -> 0 <= n -> n <= foldl (fun n d => n * 10 + (d - 48)) n ds.
Proof.
  intros Hds. revert n. induction Hds as [|d ds Hd Hds IH]; intros n Hn; cbn; [lia|].
  unfold is_digit in Hd. specialize (IH (n * 10 + (d - 48))). lia.
Qed.

Lemma atoi_loop_ok m s ds n fuel :
  Forall is_digit ds -> (forall i d, ds !! i = Some d -> m (s + Z.of_nat i) = d) ->
  ~ is_digit (m (s + Z.of_nat (length ds))) -> 0 <= n ->
  foldl (fun n d => n * 10 + (d - 48)) n ds < 2 ^ 31 -> (length ds < fuel)%nat ->
  Ulib.atoi_loop m s n fuel = Some (foldl (fun n d => n * 10 + (d - 48)) n ds).
Proof.
  intros Hds. revert s n fuel. induction Hds as [|d ds Hd Hds IH]; intros s n [|fuel] Hm Hend Hn Hv Hf;
    cbn [length] in Hf; try lia; cbn [Ulib.atoi_loop foldl].
  - rewrite Z.add_0_r in Hend. unfold is_digit in Hend. zcases; done.
  - pose proof (Hm 0%nat d eq_refl) as H0. rewrite Z.add_0_r in H0. rewrite H0. unfold is_digit in Hd.
    zcases. cbn in Hv. pose proof (digits_fold_ge ds (n * 10 + (d - 48)) Hds ltac:(lia)).
    rewrite s32_small by lia. replace (n * 10 + d - 48) with (n * 10 + (d - 48)) by lia.
    apply IH; [| |lia|done|lia].
    + intros i e Hi. rewrite <- (Hm (S i) e Hi). f_equal. lia.
    + cbn [length] in Hend. by replace (s + 1 + Z.of_nat (length ds)) with (s + Z.of_nat (S (length ds))) by lia.
Qed.

(** [atoi] of a string that starts with decimal digits returns their value,
    as long as it fits an [int]; the number of digits is enough fuel. *)
Theorem atoi_reads m s ds :
  Forall is_digit ds -> (forall i d, ds !! i = Some d -> m (s + Z.of_nat i) = d) ->
  ~ is_digit (m (s + Z.of_nat (length ds))) -> digits_value ds < 2 ^ 31 ->
  Ulib.atoi m s (S (length ds)) = Some (digits_value ds).
Proof. intros. apply atoi_loop_ok; auto; lia. Qed.

(** ** Concrete memories *)
Definition hello : mem := fun x => nth (Z.to_nat x) [104; 101; 108; 108; 111; 0] 0.

Lemma memmove_moves_witness : memmove hello 2 0 4 5 = 108 /\ memmove hello 2 0 4 6 = 0.
Proof. rewrite !(memmove_moves hello 2 0 4) by lia. split; reflexivity. Defined.

Lemma safestrcpy_terminates_witness :
  cstr (safestrcpy hello 10 0 4) 10 4 = [104; 101; 108].
Proof. destruct (safestrcpy_terminates hello 10 0 4) as [E _]; [lia|lia|]. exact E. Defined.
