(* ===== verification/Kalloc.v ===== *)
(** * The page allocator

    Models memlayout.h and kalloc.c over the byte memory of CString.v.  A free
    page holds the address of the next free page in its first word, so the free
    list lives in the memory it manages.  The code between
    [acquire(&kmem.lock)] and its [release] is one step of the model.

    [end] and [data] are symbols of the linker script kernel.ld: the class
    [Linker] holds their values, and the addresses of the two functions that the
    code stores in memory. *)

From S2P Require Import Prelude CString.
Open Scope Z_scope.

(** ** memlayout.h and mmu.h *)
Definition PGSIZE : Z := 4096.
Definition EXTMEM : Z := 0x100000.
Definition PHYSTOP : Z := 0xE000000.
Definition DEVSPACE : Z := 0xFE000000.
Definition KERNBASE : Z := 0x80000000.
Definition KERNLINK : Z := KERNBASE + EXTMEM.
Definition V2P (a : Z) : Z := u32 (a - KERNBASE).
Definition P2V (a : Z) : Z := u32 (a + KERNBASE).
Definition PGROUNDUP (sz : Z) : Z := Z.land (u32 (sz + PGSIZE - 1)) (Z.lnot (PGSIZE - 1)).
Definition PGROUNDDOWN (a : Z) : Z := Z.land (u32 a) (Z.lnot (PGSIZE - 1)).

Class Linker := {
  kend : Z;                 (* first address after the kernel *)
  kdata : Z;                (* start of the kernel's writable data *)
  kforkret : Z;             (* the code of [forkret] and of [trapret] *)
  ktrapret : Z;
}.

(** Words of memory. *)
Definition load32 (m : mem) (a : Z) : Z := u32 (le_value (bytes_at m a 4)).
Definition store32 (m : mem) (a v : Z) : mem := store_bytes m a (le_bytes 4 v).

#[global] Arguments load32 : simpl never.
#[global] Arguments store32 : simpl never.

(** ** kalloc.c *)
Record kmem := mk_kmem {
  kmemory : mem;            (* all of physical memory, by kernel address *)
  use_lock : Z;
  freelist : Z;
}.

Section Kalloc.
Context `{Linker}.

Definition kfree (v : Z) : M kmem unit :=
  if ctrue (v mod PGSIZE) || (v <? kend) || (PHYSTOP <=? V2P v) then panic "kfree"
  else
    (* Fill with junk to catch dangling refs. *)
    modify (fun s => { s with kmemory ::= fun m => memset m v 1 PGSIZE });;
    (* r->next = kmem.freelist; kmem.freelist = r; *)
    modify (fun s => { s with kmemory ::= fun m => store32 m v (freelist s) });;
    modify (fun s => { s with freelist := v }).

Definition kalloc : M kmem Z :=
  s ← get;
  let r := freelist s in
  when (ctrue r) (modify (fun s => { s with freelist := load32 (kmemory s) r }));;
  mret r.

(** [for(; p + PGSIZE <= vend; p += PGSIZE) kfree(p);] *)
Fixpoint freerange_loop (p vend : Z) (fuel : nat) : M kmem unit :=
  match fuel with
  | O => no_fuel
  | S f =>
      if u32 (p + PGSIZE) <=? vend then kfree p;; freerange_loop (u32 (p + PGSIZE)) vend f
      else mret tt
  end.

(** The loop frees a page in every round but the last. *)
Definition freerange (vstart vend : Z) : M kmem unit :=
  let p := PGROUNDUP vstart in
  freerange_loop p vend (S (Z.to_nat (vend / PGSIZE - p / PGSIZE))).

Definition kinit1 (vstart vend : Z) : M kmem unit :=
  modify (fun s => { s with use_lock := 0 });;
  freerange vstart vend.
Definition kinit2 (vstart vend : Z) : M kmem unit :=
  freerange vstart vend;;
  modify (fun s => { s with use_lock := 1 }).
End Kalloc.

(** ** Words *)
Lemma bytes_at_ext (m m' : mem) a n :
  (forall x, a <= x < a + Z.of_nat n -> m x = m' x) -> bytes_at m a n = bytes_at m' a n.
Proof.
  intros Hm. apply list_fmap_ext. intros i x Hi. apply lookup_seq in Hi. apply Hm. lia.
Qed.

Lemma bytes_at_store m a bs : bytes_at (store_bytes m a bs) a (length bs) = bs.
Proof.
  apply list_eq_same_length with (length bs); [done|by unfold bytes_at; rewrite length_fmap, length_seq|].
  intros i x y Hi Hx Hy. unfold bytes_at in Hx. rewrite list_lookup_fmap, lookup_seq_lt in Hx by done.
  cbn in Hx. injection Hx as <-. rewrite store_bytes_at, inside_true by lia.
  replace (Z.to_nat (a + Z.of_nat i - a)) with i by lia. by apply list_lookup_total_correct.
Qed.

Lemma load32_store32 m a v : load32 (store32 m a v) a = u32 v.
Proof.
  unfold load32, store32. rewrite <- (length_le_bytes 4 v) at 1. rewrite bytes_at_store.
  rewrite le_value_bytes. apply u32_u32.
Qed.

Lemma load32_range m a : 0 <= load32 m a < 2 ^ 32.
Proof. apply u32_range. Qed.

Lemma store32_out m a v x : ~ (a <= x < a + 4) -> store32 m a v x = m x.
Proof. intros Hx. unfold store32. rewrite store_bytes_at, length_le_bytes, inside_false by lia. done. Qed.

Lemma load32_ext m m' a : (forall x, a <= x < a + 4 -> m x = m' x) -> load32 m a = load32 m' a.
Proof. intros Hx. unfold load32. do 2 f_equal. by apply bytes_at_ext. Qed.

Lemma load32_store32_other m a a' v :
  a' + 4 <= a \/ a + 4 <= a' -> load32 (store32 m a v) a' = load32 m a'.
Proof. intros Ha. apply load32_ext. intros x Hx. apply store32_out. lia. Qed.

(** ** Pages *)
Lemma land_page x : Z.land x (Z.lnot (PGSIZE - 1)) = x / PGSIZE * PGSIZE.
Proof.
  rewrite <- Z.ldiff_land. change (PGSIZE - 1) with (Z.ones 12).
  by rewrite Z.ldiff_ones_r, Z.shiftr_div_pow2, Z.shiftl_mul_pow2 by lia.
Qed.
Lemma PGROUNDDOWN_eq a : 0 <= a < 2 ^ 32 -> PGROUNDDOWN a = a / PGSIZE * PGSIZE.
Proof. intros Ha. unfold PGROUNDDOWN. by rewrite u32_small, land_page. Qed.
Lemma PGROUNDUP_eq a : 0 <= a <= 2 ^ 32 - PGSIZE -> PGROUNDUP a = (a + PGSIZE - 1) / PGSIZE * PGSIZE.
Proof. unfold PGROUNDUP, PGSIZE. intros Ha. rewrite u32_small by lia. apply land_page. Qed.

(** What kernel.ld guarantees: the kernel is linked behind the I/O space, its
    data is page aligned and it fits below the end of physical memory. *)
Class LinkerOk `{Linker} : Prop := {
  kdata_low : KERNLINK < kdata;
  kdata_page : kdata mod PGSIZE = 0;
  kdata_end : kdata <= kend;
  kend_high : kend < KERNBASE + PHYSTOP;
}.

(** The page of an address. *)
Definition page_of (a : Z) : Z := a / PGSIZE * PGSIZE.

Lemma page_of_in a p : p mod PGSIZE = 0 -> page_of a = p <-> p <= a < p + PGSIZE.
Proof.
  unfold page_of, PGSIZE. intros Hp. pose proof (Z.div_mod a 4096). pose proof (Z.mod_pos_bound a 4096).
  pose proof (Z.div_mod p 4096). split; [lia|]. intros Ha.
  assert (a / 4096 = p / 4096); [|lia]. symmetry. apply Z.div_unique with (a - p); lia.
Qed.

Section Pool.
Context `{LinkerOk}.

Definition valid_page (v : Z) : Prop :=
  v mod PGSIZE = 0 /\ kend <= v < KERNBASE + PHYSTOP.

Lemma valid_page_range v : valid_page v -> KERNLINK <= v < KERNBASE + PHYSTOP.
Proof. intros [_ Hv]. pose proof kdata_low. pose proof kdata_end. lia. Qed.

Lemma valid_page_nz v : valid_page v -> v <> 0.
Proof. intros Hv%valid_page_range. unfold KERNLINK, KERNBASE, EXTMEM in *. lia. Qed.

(** The list of the pages on a free list that starts at [a]. *)
Fixpoint chain (m : mem) (a : Z) (l : list Z) : Prop :=
  match l with
  | [] => a = 0
  | p :: l' => a = p /\ chain m (load32 m p) l'
  end.

Record pool_ok (s : kmem) (free : list Z) : Prop := {
  po_chain : chain (kmemory s) (freelist s) free;
  po_pages : Forall valid_page free;
  po_nodup : NoDup free;
}.

Lemma chain_ext m m' a l :
  chain m a l -> (forall p x, p ∈ l -> p <= x < p + 4 -> m' x = m x) -> chain m' a l.
Proof.
  revert a. induction l as [|p l IH]; intros a Hc Hm; [done|]. destruct Hc as [-> Hc]. split; [done|].
  rewrite (load32_ext m' m) by (intros; apply (Hm p); [left|done]).
  apply IH; [done|]. intros q x Hq. apply Hm. by right.
Qed.

(** Two different pages have no byte in common. *)
Lemma pages_apart p q x :
  p mod PGSIZE = 0 -> q mod PGSIZE = 0 -> p <> q -> p <= x < p + PGSIZE -> ~ (q <= x < q + PGSIZE).
Proof. intros Hp Hq Hne Hx%page_of_in Hx'%page_of_in; [congruence|done|done]. Qed.

(** Memory outside the free pages does not matter to the pool. *)
Lemma pool_frame s m' free :
  pool_ok s free -> (forall x, page_of x ∈ free -> m' x = kmemory s x) ->
  pool_ok { s with kmemory := m' } free.
Proof.
  intros [Hc Hp Hn] Hm. split; [|done|done]. cbn. eapply chain_ext; [done|].
  intros p x Hin Hx. apply Hm. replace (page_of x) with p; [done|]. symmetry.
  rewrite list.Forall_forall in Hp. apply page_of_in; [apply Hp, Hin|]. unfold PGSIZE. lia.
Qed.

Lemma kalloc_empty s : pool_ok s [] -> kalloc s = Ok 0 s.
Proof. intros [Hc _ _]. cbn in Hc. unfold kalloc. msimpl. by rewrite Hc. Qed.

Lemma kalloc_ok s p free :
  pool_ok s (p :: free) ->
  exists s', kalloc s = Ok p s' /\ pool_ok s' free /\ kmemory s' = kmemory s /\ use_lock s' = use_lock s.
Proof.
  intros [[Hf Hc] Hp Hn]. unfold kalloc. msimpl. rewrite Hf. rewrite list.Forall_cons in Hp.
  destruct Hp as [Hv Hp]. apply list.NoDup_cons in Hn as [_ Hn].
  assert (ctrue p = true) as -> by (apply negb_true_iff, Z.eqb_neq, valid_page_nz, Hv). msimpl.
  eexists. split; [reflexivity|]. split; [|done]. by split.
Qed.

(** The memory after [kfree]. *)
Definition freed_mem (m : mem) (v fl : Z) : mem := store32 (memset m v 1 PGSIZE) v fl.

#[global] Arguments freed_mem : simpl never.

Lemma freed_mem_out m v fl x : ~ (v <= x < v + PGSIZE) -> freed_mem m v fl x = m x.
Proof.
  intros Hx. unfold freed_mem. rewrite store32_out by (unfold PGSIZE in *; lia).
  rewrite memset_sets by done. zcases; unfold PGSIZE in *; lia.
Qed.

Lemma kfree_runs s v :
  valid_page v ->
  kfree v s = Ok tt { s with kmemory := freed_mem (kmemory s) v (freelist s); freelist := v }.
Proof.
  intros Hv. pose proof (valid_page_range v Hv) as Hr. destruct Hv as [Hm Hr'].
  unfold kfree, V2P. rewrite Hm, u32_small by (unfold KERNLINK, KERNBASE, EXTMEM, PHYSTOP in *; lia).
  rewrite (proj2 (Z.ltb_ge _ _)), (proj2 (Z.leb_gt _ _)) by lia. done.
Qed.

Lemma chain_head m a l : chain m a l -> Forall valid_page l -> 0 <= a < 2 ^ 32.
Proof.
  destruct l as [|p l]; cbn; [intros ->; lia|]. intros [-> _] [Hv _]%list.Forall_cons.
  apply valid_page_range in Hv. unfold KERNLINK, KERNBASE, EXTMEM, PHYSTOP in *. lia.
Qed.

Lemma kfree_ok s v free :
  pool_ok s free -> valid_page v -> v ∉ free ->
  exists s', kfree v s = Ok tt s' /\ pool_ok s' (v :: free) /\ use_lock s' = use_lock s
    /\ (forall x, page_of x <> v -> kmemory s' x = kmemory s x).
Proof.
  intros [Hc Hp Hn] Hv Hni. rewrite (kfree_runs s v Hv). eexists. split; [reflexivity|]. cbn.
  assert (forall x, page_of x <> v -> freed_mem (kmemory s) v (freelist s) x = kmemory s x) as Hm.
  { intros x Hx. apply freed_mem_out. intros Hx'. apply Hx. by apply page_of_in; [apply Hv|]. }
  split; [|done]. split; cbn; [|by constructor|by constructor]. split; [done|].
  unfold freed_mem at 2. rewrite load32_store32, u32_small by (by eapply chain_head).
  eapply chain_ext; [done|]. intros p x Hin Hx. apply Hm. intros E. apply Hni.
  rewrite list.Forall_forall in Hp. replace v with p; [done|]. rewrite <- E. symmetry.
  apply page_of_in; [apply Hp, Hin|]. unfold PGSIZE. lia.
Qed.

Lemma kfree_bad s v : 0 <= v < 2 ^ 32 -> ~ valid_page v -> kfree v s = Panic "kfree".
Proof.
  intros Hr Hv. unfold kfree. destruct (ctrue (v mod PGSIZE) || (v <? kend) || (PHYSTOP <=? V2P v)) eqn:E.
  { done. }
  exfalso. apply Hv. zbool. unfold ctrue in *. zbool.
  pose proof kdata_low. pose proof kdata_end. unfold V2P, KERNLINK, KERNBASE, EXTMEM in *.
  rewrite u32_small in * by lia. split; unfold KERNBASE; lia.
Qed.

(** ** Initialisation *)

(** The pages that [freerange] frees, last freed first. *)
Definition pages_in (p : Z) (n : nat) : list Z :=
  reverse ((fun i => p + PGSIZE * Z.of_nat i) <$> seq 0 n).

Lemma pages_in_S p n : pages_in p (S n) = pages_in (p + PGSIZE) n ++ [p].
Proof.
  unfold pages_in. cbn [seq fmap list_fmap]. rewrite reverse_cons. f_equal; [|f_equal; lia].
  f_equal. rewrite <- (fmap_S_seq 0 n), <- list_fmap_compose. apply list_fmap_ext.
  intros i x _. cbn. lia.
Qed.

Lemma elem_of_pages_in p n q :
  q ∈ pages_in p n <-> exists i, (i < n)%nat /\ q = p + PGSIZE * Z.of_nat i.
Proof.
  unfold pages_in. rewrite elem_of_reverse, list_elem_of_fmap. setoid_rewrite elem_of_seq.
  split; intros (i & ? & ?); exists i; (split; [lia|done || lia]).
Qed.

Lemma freerange_loop_ok p n s free fuel vend :
  pool_ok s free -> p mod PGSIZE = 0 -> kend <= p -> vend <= KERNBASE + PHYSTOP ->
  p + PGSIZE * Z.of_nat n <= vend < p + PGSIZE * Z.of_nat (S n) -> (n < fuel)%nat ->
  (forall q, q ∈ free -> ~ (p <= q < vend)) ->
  exists s', freerange_loop p vend fuel s = Ok tt s' /\ pool_ok s' (pages_in p n ++ free)
    /\ use_lock s' = use_lock s
    /\ (forall x, ~ (p <= x < p + PGSIZE * Z.of_nat n) -> kmemory s' x = kmemory s x).
Proof.
  revert p s free fuel. induction n as [|n IH]; intros p s free [|fuel] Hs Hp Hlo Hhi Hv Hf Hd; try lia;
    cbn [freerange_loop]; pose proof kdata_low; pose proof kdata_end; pose proof kend_high;
    unfold KERNLINK, EXTMEM, PHYSTOP, KERNBASE in *;
    assert (u32 (p + PGSIZE) = p + PGSIZE) as -> by (apply u32_small; unfold PGSIZE in *; lia).
  - rewrite (proj2 (Z.leb_gt _ _)) by (unfold PGSIZE in *; lia). exists s. done.
  - rewrite (proj2 (Z.leb_le _ _)) by (unfold PGSIZE in *; lia).
    destruct (kfree_ok s p free Hs) as (s1 & E1 & Hs1 & Hl1 & Hm1).
    { split; [done|]. unfold PGSIZE, KERNBASE, PHYSTOP in *. lia. }
    { intros Hin. apply (Hd p Hin). unfold PGSIZE in *. lia. }
    rewrite (bind_ok _ _ _ _ _ E1).
    destruct (IH (p + PGSIZE) s1 (p :: free) fuel) as (s2 & E2 & Hs2 & Hl2 & Hm2); auto; try (unfold PGSIZE in *; lia).
    { rewrite <- Hp. apply (Z.mod_add p 1 PGSIZE). done. }
    { intros q [->|Hq]%elem_of_cons; [unfold PGSIZE in *; lia|]. specialize (Hd q Hq). unfold PGSIZE in *. lia. }
    exists s2. split; [done|]. rewrite pages_in_S, <- (assoc_L (++)). split; [done|].
    split; [congruence|]. intros x Hx. rewrite Hm2, Hm1; [done| |unfold PGSIZE in *; lia].
    intros E. apply page_of_in in E; [|done]. unfold PGSIZE in *. lia.
Qed.

Definition npages (p vend : Z) : nat := Z.to_nat ((vend - p) / PGSIZE).

Lemma freerange_ok vstart vend s free :
  pool_ok s free -> kend <= vstart -> PGROUNDUP vstart <= vend -> vstart <= vend <= KERNBASE + PHYSTOP ->
  (forall q, q ∈ free -> ~ (vstart <= q < vend)) ->
  let p := PGROUNDUP vstart in
  exists s', freerange vstart vend s = Ok tt s' /\ pool_ok s' (pages_in p (npages p vend) ++ free)
    /\ use_lock s' = use_lock s
    /\ (forall x, ~ (vstart <= x < vend) -> kmemory s' x = kmemory s x).
Proof.
  intros Hs Hlo Hpv Hv Hd p. unfold freerange, npages. fold p in Hpv |- *.
  pose proof kdata_low. pose proof kdata_end. pose proof kend_high.
  unfold KERNLINK, KERNBASE, EXTMEM, PHYSTOP in *.
  assert (p = (vstart + PGSIZE - 1) / PGSIZE * PGSIZE) as Hp by (apply PGROUNDUP_eq; unfold PGSIZE; lia).
  assert (p mod PGSIZE = 0) as Hm by (rewrite Hp; by apply Z.mod_mul).
  assert (vstart <= p) as Hle by (rewrite Hp; unfold PGSIZE; pose proof (Z.mod_pos_bound (vstart + 4096 - 1) 4096);
    pose proof (Z.div_mod (vstart + 4096 - 1) 4096); lia).
  assert (vend / PGSIZE - p / PGSIZE = (vend - p) / PGSIZE) as Hn.
  { assert (p = p / PGSIZE * PGSIZE) as E by (pose proof (Z.div_mod p PGSIZE); unfold PGSIZE in *; lia).
    rewrite E at 2. replace (vend - p / PGSIZE * PGSIZE) with (vend + - (p / PGSIZE) * PGSIZE) by lia.
    rewrite Z.div_add by done. lia. }
  assert (0 <= (vend - p) / PGSIZE) as Hpos by (apply Z.div_pos; unfold PGSIZE; lia).
  destruct (freerange_loop_ok p (Z.to_nat ((vend - p) / PGSIZE)) s free
              (S (Z.to_nat (vend / PGSIZE - p / PGSIZE))) vend) as (s' & E & Hs' & Hl & Hm'); auto; try lia.
  - unfold KERNBASE, PHYSTOP. lia.
  - rewrite Nat2Z.inj_succ, Z2Nat.id by done. pose proof (Z.div_mod (vend - p) PGSIZE).
    pose proof (Z.mod_pos_bound (vend - p) PGSIZE). unfold PGSIZE in *. lia.
  - intros q Hq. specialize (Hd q Hq). lia.
  - exists s'. split_and!; auto. intros x Hx. apply Hm'. rewrite Z2Nat.id by done.
    pose proof (Z.mul_div_le (vend - p) PGSIZE). unfold PGSIZE in *. lia.
Qed.

(** ** What the clients of the allocator see

    A client allocates and frees pages, and writes to memory. *)
Inductive mem_op := Alloc | Free (p : Z) | Write (a b : Z).

Definition serve_op (o : mem_op) : M kmem Z :=
  match o with
  | Alloc => kalloc
  | Free p => kfree p;; mret 0
  | Write a b => modify (fun s => { s with kmemory ::= <[a := b]> });; mret 0
  end.
Fixpoint serve_ops (os : list mem_op) : M kmem (list Z) :=
  match os with
  | [] => mret []
  | o :: os' => r ← serve_op o; rs ← serve_ops os'; mret (r :: rs)
  end.

(** The reference: a stack of free pages and the pages the client owns. *)
Definition stack_op (o : mem_op) (st : list Z * list Z) : Z * (list Z * list Z) :=
  match o, st with
  | Alloc, ([], owned) => (0, ([], owned))
  | Alloc, (p :: free, owned) => (p, (free, p :: owned))
  | Free p, (free, owned) => (0, (p :: free, filter (fun q => q <> p) owned))
  | Write _ _, st => (0, st)
  end.
Fixpoint stack_ops (os : list mem_op) (st : list Z * list Z) : list Z * (list Z * list Z) :=
  match os with
  | [] => ([], st)
  | o :: os' =>
      let '(r, st1) := stack_op o st in
      let '(rs, st2) := stack_ops os' st1 in (r :: rs, st2)
  end.

(** A client frees only pages it owns, and does not write to free pages. *)
Definition legal_op (o : mem_op) (st : list Z * list Z) : Prop :=
  match o with
  | Alloc => True
  | Free p => p ∈ st.2
  | Write a _ => page_of a ∉ st.1
  end.
Fixpoint legal_ops (os : list mem_op) (st : list Z * list Z) : Prop :=
  match os with
  | [] => True
  | o :: os' => legal_op o st /\ legal_ops os' (stack_op o st).2
  end.

#[export] Instance legal_op_dec o st : Decision (legal_op o st).
Proof. destruct o; cbn; apply _. Defined.
#[export] Instance legal_ops_dec os st : Decision (legal_ops os st).
Proof. revert st. induction os; intros st; cbn; apply _. Defined.

(** [o] leaves the byte at [x] to its owner. *)
Definition leaves (x : Z) (o : mem_op) : Prop :=
  match o with
  | Alloc => True
  | Free p => page_of x <> p
  | Write a _ => x <> a
  end.

Record arena_ok (s : kmem) (st : list Z * list Z) : Prop := {
  ar_pool : pool_ok s st.1;
  ar_owned : Forall valid_page st.2;
  ar_nodup : NoDup (st.1 ++ st.2);
}.

Lemma serve_op_ok o s st :
  arena_ok s st -> legal_op o st ->
  exists s', serve_op o s = Ok (stack_op o st).1 s' /\ arena_ok s' (stack_op o st).2
    /\ (forall x, leaves x o -> kmemory s' x = kmemory s x).
Proof.
  destruct st as [free owned]. intros [Hp Ho Hn] Hl. cbn in Hp, Ho, Hn. destruct o as [|p|a b]; cbn [serve_op].
  - destruct free as [|p free].
    { exists s. rewrite (kalloc_empty s Hp). done. }
    destruct (kalloc_ok s p free Hp) as (s' & E & Hp' & Hm & _). exists s'. split; [done|]. cbn. split; [|by rewrite Hm].
    split; cbn; [done| |].
    + constructor; [|done]. pose proof (po_pages _ _ Hp) as Hpg. by apply list.Forall_cons in Hpg as [? _].
    + by rewrite <- (Permutation_middle free owned p).
  - cbn in Hl. apply list.NoDup_app in Hn as (Hn1 & Hd & Hn2).
    destruct (kfree_ok s p free Hp) as (s' & E & Hp' & _ & Hm).
    { rewrite list.Forall_forall in Ho. by apply Ho. }
    { intros Hin. by apply (Hd p). }
    exists s'. rewrite (bind_ok _ _ _ _ _ E). split; [done|]. cbn. split; [|intros x Hx; by apply Hm].
    rewrite list.Forall_forall in Ho. split; cbn; [done| |constructor].
    + apply list.Forall_forall. intros q [_ Hq]%list_elem_of_filter. by apply Ho.
    + rewrite elem_of_app, list_elem_of_filter. intros [Hin|[? _]]; [by apply (Hd p)|done].
    + apply list.NoDup_app. split_and!; [done| |by apply list.NoDup_filter].
      intros q Hq [_ Hq']%list_elem_of_filter. by apply (Hd q).
  - msimpl. eexists. split; [reflexivity|]. cbn in Hl |- *. split; [|intros x Hx; by apply upd_ne].
    split; cbn; [|done|done]. apply (pool_frame s); [done|]. intros x Hx. apply upd_ne. intros ->. done.
Qed.

Lemma serve_ops_ok os s st :
  arena_ok s st -> legal_ops os st ->
  exists s', serve_ops os s = Ok (stack_ops os st).1 s' /\ arena_ok s' (stack_ops os st).2
    /\ (forall x, Forall (leaves x) os -> kmemory s' x = kmemory s x).
Proof.
  revert s st. induction os as [|o os IH]; intros s st Hs Hl; cbn [serve_ops stack_ops]; [by exists s|].
  destruct Hl as [Hl Hls]. destruct (serve_op_ok o s st Hs Hl) as (s1 & E1 & Hs1 & Hm1).
  destruct (stack_op o st) as [r st1]. destruct (IH s1 st1 Hs1 Hls) as (s2 & E2 & Hs2 & Hm2).
  destruct (stack_ops os st1) as [rs st2]. exists s2.
  rewrite (bind_ok _ _ _ _ _ E1), (bind_ok _ _ _ _ _ E2). split; [done|]. split; [done|].
  intros x [Hx Hxs]%list.Forall_cons. by rewrite Hm2, Hm1.
Qed.

(** C17: the page allocator is a stack of pages.  After [kinit1] of a range of
    memory behind the kernel, every sequence of [kalloc], [kfree] of pages the
    client owns, and writes outside the free pages succeeds and returns what a
    stack of the pages of the range returns; no page is ever handed out while a
    client owns it; and a byte keeps its value unless the client writes to it or
    frees its page. *)
Theorem kalloc_is_stack vstart vend os s :
  freelist s = 0 -> kend <= vstart -> PGROUNDUP vstart <= vend ->
  vstart <= vend <= KERNBASE + PHYSTOP ->
  let p := PGROUNDUP vstart in
  let pages := pages_in p (npages p vend) in
  legal_ops os (pages, []) ->
  let '(rs, (free, owned)) := stack_ops os (pages, []) in
  exists s1 s2, kinit1 vstart vend s = Ok tt s1 /\ serve_ops os s1 = Ok rs s2
    /\ pool_ok s2 free /\ NoDup (free ++ owned)
    /\ (forall x, ~ (vstart <= x < vend) -> kmemory s1 x = kmemory s x)
    /\ (forall x, Forall (leaves x) os -> kmemory s2 x = kmemory s1 x).
Proof.
  intros Hf Hlo Hpv Hv p pages Hl.
  set (s0 := { s with use_lock := 0 }).
  assert (pool_ok s0 []) as Hs0 by (split; [exact Hf|constructor|constructor]).
  destruct (freerange_ok vstart vend s0 [] Hs0) as (s1 & E1 & Hs1 & _ & Hm1); auto.
  { by intros q ?%not_elem_of_nil. }
  fold p in Hs1. rewrite app_nil_r in Hs1. fold pages in Hs1.
  destruct (serve_ops_ok os s1 (pages, [])) as (s2 & E2 & Hs2 & Hm2); [|done|].
  { split; cbn; [done|constructor|]. rewrite app_nil_r. apply Hs1. }
  destruct (stack_ops os (pages, [])) as [rs [free owned]]. exists s1, s2. destruct Hs2 as [Hp _ Hn].
  split_and!; auto.
Qed.
End Pool.

(** ** A concrete kernel *)
#[local] Instance some_linker : Linker := {| kend := KERNBASE + 0x115400; kdata := KERNBASE + 0x108000;
     kforkret := KERNBASE + 0x103a10; ktrapret := KERNBASE + 0x105c55 |}.
#[local] Instance some_linker_ok : LinkerOk.
Proof. split; try reflexivity; vm_compute; discriminate. Qed.

Lemma kalloc_is_stack_witness :
  exists s1 s2, kinit1 (KERNBASE + 0x115400) (KERNBASE + 0x118800) (mk_kmem (fun _ => 0) 1 0) = Ok tt s1
    /\ serve_ops [Alloc; Alloc; Write (KERNBASE + 0x117008) 7; Free (KERNBASE + 0x117000); Alloc] s1
       = Ok [KERNBASE + 0x117000; KERNBASE + 0x116000; 0; 0; KERNBASE + 0x117000] s2.
Proof.
  destruct (kalloc_is_stack (KERNBASE + 0x115400) (KERNBASE + 0x118800)
    [Alloc; Alloc; Write (KERNBASE + 0x117008) 7; Free (KERNBASE + 0x117000); Alloc]
    (mk_kmem (fun _ => 0) 1 0)) as (s1 & s2 & E1 & E2 & _);
    [reflexivity|vm_compute; discriminate|vm_compute; discriminate|vm_compute; split; discriminate| |].
  - apply (bool_decide_unpack _). vm_compute. exact I.
  - exists s1, s2. split; [exact E1|exact E2].
Defined.
