(* ===== verification/Vm.v ===== *)
(** * Page tables

    Models the page-table half of mmu.h and vm.c: page directories and page
    tables are pages of the memory of Kalloc.v, read and written word by word.
    A pointer to a page-table entry is its address, 0 being the null pointer;
    reading through the null pointer is a [Fault].  The messages that [allocuvm]
    prints are left out.  [loaduvm], which reads a file, is in Exec.v. *)

From S2P Require Import Prelude CString Kalloc.
Open Scope Z_scope.

(** ** mmu.h *)
Definition NPDENTRIES : nat := 1024.
Definition PDXSHIFT : Z := 22.
Definition PTXSHIFT : Z := 12.
Definition PDX (va : Z) : Z := Z.land (Z.shiftr (u32 va) PDXSHIFT) 0x3FF.
Definition PTX (va : Z) : Z := Z.land (Z.shiftr (u32 va) PTXSHIFT) 0x3FF.
Definition PGADDR (d t o : Z) : Z :=
  u32 (Z.lor (Z.lor (Z.shiftl d PDXSHIFT) (Z.shiftl t PTXSHIFT)) o).
Definition PTE_P : Z := 0x001.
Definition PTE_W : Z := 0x002.
Definition PTE_U : Z := 0x004.
Definition PTE_ADDR (pte : Z) : Z := Z.land (u32 pte) (Z.lnot 0xFFF).
Definition PTE_FLAGS (pte : Z) : Z := Z.land (u32 pte) 0xFFF.

(** [pte & PTE_P], as a condition *)
Definition has (pte flag : Z) : bool := ctrue (Z.land pte flag).

(** A word and a range of memory. *)
Definition load (a : Z) : M kmem Z := gets (fun s => load32 (kmemory s) a).
Definition store (a v : Z) : M kmem unit :=
  modify (fun s => { s with kmemory ::= fun m => store32 m a v }).
Definition fill (a c n : Z) : M kmem unit :=
  modify (fun s => { s with kmemory ::= fun m => memset m a c n }).
Definition move (dst src n : Z) : M kmem unit :=
  modify (fun s => { s with kmemory ::= fun m => memmove m dst src n }).
Definition put_bytes (a : Z) (bs : list Z) : M kmem unit :=
  modify (fun s => { s with kmemory ::= fun m => store_bytes m a bs }).

(** [*pte], for a pointer that may be null *)
Definition load_pte (pte : Z) : M kmem Z := if pte =? 0 then fault else load pte.

(** ** The memory management unit

    The byte of memory that the kernel accesses for the address [va] when the
    page directory is [pd], if the entries on the way have the bits [f]: [PTE_P]
    for a load, [PTE_P] and [PTE_W] for a store (CR0_WP is set).  [None] is a page
    fault. *)
Definition translate (f : Z) (m : mem) (pd va : Z) : option Z :=
  let pde := load32 m (pd + 4 * PDX va) in
  if Z.land pde f =? f then
    let pte := load32 m (P2V (PTE_ADDR pde) + 4 * PTX va) in
    if Z.land pte f =? f then Some (P2V (PTE_ADDR pte) + va mod PGSIZE) else None
  else None.

Definition uload (pd va : Z) : M kmem Z :=
  s ← get;
  a ← deref (translate PTE_P (kmemory s) pd va);
  mret (kmemory s a).
Definition ustore (pd va b : Z) : M kmem unit :=
  s ← get;
  a ← deref (translate (Z.lor PTE_P PTE_W) (kmemory s) pd va);
  modify (fun s => { s with kmemory ::= <[a := u8 b]> }).

(** [n] bytes from, and the bytes [bs] to, user address [va] *)
Fixpoint uload_bytes (pd va : Z) (n : nat) : M kmem (list Z) :=
  match n with
  | O => mret []
  | S n' => b ← uload pd va; bs ← uload_bytes pd (va + 1) n'; mret (b :: bs)
  end.
Fixpoint ustore_bytes (pd va : Z) (bs : list Z) : M kmem unit :=
  match bs with
  | [] => mret tt
  | b :: bs' => ustore pd va b;; ustore_bytes pd (va + 1) bs'
  end.

Section Vm.
Context `{Linker}.

Definition walkpgdir (pgdir va : Z) (alloc : bool) : M kmem Z :=
  let pde := pgdir + 4 * PDX va in
  e ← load pde;
  if has e PTE_P then mret (P2V (PTE_ADDR e) + 4 * PTX va)
  else if negb alloc then mret 0
  else
    pgtab ← kalloc;
    if pgtab =? 0 then mret 0
    else
      (* Make sure all those PTE_P bits are zero. *)
      fill pgtab 0 PGSIZE;;
      store pde (Z.lor (Z.lor (Z.lor (V2P pgtab) PTE_P) PTE_W) PTE_U);;
      mret (pgtab + 4 * PTX va).

(** The [for(;;)] of [mappages], at page [a]. *)
Fixpoint map_loop (pgdir a last pa perm : Z) (fuel : nat) : M kmem Z :=
  match fuel with
  | O => no_fuel
  | S f =>
      pte ← walkpgdir pgdir a true;
      if pte =? 0 then mret (-1)
      else
        e ← load pte;
        if has e PTE_P then panic "remap"
        else
          store pte (Z.lor (Z.lor pa perm) PTE_P);;
          if a =? last then mret 0
          else map_loop pgdir (u32 (a + PGSIZE)) last (u32 (pa + PGSIZE)) perm f
  end.

(** The loop visits the pages from [a] to [last], modulo [2^32]. *)
Definition mappages (pgdir va size pa perm : Z) : M kmem Z :=
  let a := PGROUNDDOWN va in
  let last := PGROUNDDOWN (va + size - 1) in
  map_loop pgdir a last pa perm (S (Z.to_nat (u32 (last - a) / PGSIZE))).

(** The loop of [deallocuvm]. *)
Fixpoint dealloc_loop (pgdir a oldsz : Z) (fuel : nat) : M kmem unit :=
  match fuel with
  | O => no_fuel
  | S f =>
      if a <? oldsz then
        pte ← walkpgdir pgdir a false;
        if pte =? 0 then
          (* skip to the next page table *)
          dealloc_loop pgdir (u32 (u32 (PGADDR (PDX a + 1) 0 0 - PGSIZE) + PGSIZE)) oldsz f
        else
          e ← load pte;
          (if has e PTE_P then
             let pa := PTE_ADDR e in
             if pa =? 0 then panic "kfree"
             else kfree (P2V pa);; store pte 0
           else mret tt);;
          dealloc_loop pgdir (u32 (a + PGSIZE)) oldsz f
      else mret tt
  end.

Definition deallocuvm (pgdir oldsz newsz : Z) : M kmem Z :=
  if oldsz <=? newsz then mret oldsz
  else
    dealloc_loop pgdir (PGROUNDUP newsz) oldsz (S (Z.to_nat (oldsz / PGSIZE) + 1));;
    mret newsz.

(** The loop of [allocuvm]; [oldsz] and [newsz] are its arguments. *)
Fixpoint alloc_loop (pgdir a oldsz newsz : Z) (fuel : nat) : M kmem Z :=
  match fuel with
  | O => no_fuel
  | S f =>
      if a <? newsz then
        mem ← kalloc;
        if mem =? 0 then
          _ ← deallocuvm pgdir newsz oldsz;
          mret 0
        else
          fill mem 0 PGSIZE;;
          r ← mappages pgdir a PGSIZE (V2P mem) (Z.lor PTE_W PTE_U);
          if r <? 0 then
            _ ← deallocuvm pgdir newsz oldsz;
            kfree mem;;
            mret 0
          else alloc_loop pgdir (u32 (a + PGSIZE)) oldsz newsz f
      else mret newsz
  end.

Definition allocuvm (pgdir oldsz newsz : Z) : M kmem Z :=
  if KERNBASE <=? newsz then mret 0
  else if newsz <? oldsz then mret oldsz
  else alloc_loop pgdir (PGROUNDUP oldsz) oldsz newsz (S (Z.to_nat (newsz / PGSIZE) + 1)).

Definition freevm (pgdir : Z) : M kmem unit :=
  if pgdir =? 0 then panic "freevm: no pgdir"
  else
    _ ← deallocuvm pgdir KERNBASE 0;
    for_each (seq 0 NPDENTRIES) (fun i =>
      e ← load (pgdir + 4 * Z.of_nat i);
      when (has e PTE_P) (kfree (P2V (PTE_ADDR e))));;
    kfree pgdir.

(** This table defines the kernel's mappings, which are present in every
    process's page table: [virt], [phys_start], [phys_end], [perm]. *)
Definition kmap : list (Z * Z * Z * Z) :=
  [(KERNBASE, 0, EXTMEM, PTE_W);                    (* I/O space *)
   (KERNLINK, V2P KERNLINK, V2P kdata, 0);          (* kern text+rodata *)
   (kdata, V2P kdata, PHYSTOP, PTE_W);              (* kern data+memory *)
   (DEVSPACE, DEVSPACE, 0, PTE_W)].                 (* more devices *)

Definition setupkvm : M kmem Z :=
  pgdir ← kalloc;
  if pgdir =? 0 then mret 0
  else
    fill pgdir 0 PGSIZE;;
    if DEVSPACE <? P2V PHYSTOP then panic "PHYSTOP too high"
    else
      r ← for_loop kmap (fun '(virt, phys_start, phys_end, perm) =>
            r ← mappages pgdir virt (u32 (phys_end - phys_start)) phys_start perm;
            if r <? 0 then freevm pgdir;; mret (Some 0) else mret None);
      mret (default pgdir r).

Definition inituvm (pgdir : Z) (init : list Z) : M kmem unit :=
  if PGSIZE <=? Z.of_nat (length init) then panic "inituvm: more than a page"
  else
    mem ← kalloc;
    if mem =? 0 then fault                          (* memset through a null pointer *)
    else
      fill mem 0 PGSIZE;;
      _ ← mappages pgdir 0 PGSIZE (V2P mem) (Z.lor PTE_W PTE_U);
      put_bytes mem init.

Definition clearpteu (pgdir uva : Z) : M kmem unit :=
  pte ← walkpgdir pgdir uva false;
  if pte =? 0 then panic "clearpteu"
  else
    e ← load pte;
    store pte (Z.land e (Z.lnot PTE_U)).

(** The loop of [copyuvm]: copy the pages from [i] on; [false]: [goto bad]. *)
Fixpoint copy_loop (pgdir d i sz : Z) (fuel : nat) : M kmem bool :=
  match fuel with
  | O => no_fuel
  | S f =>
      if i <? sz then
        pte ← walkpgdir pgdir i false;
        if pte =? 0 then panic "copyuvm: pte should exist"
        else
          e ← load pte;
          if negb (has e PTE_P) then panic "copyuvm: page not present"
          else
            mem ← kalloc;
            if mem =? 0 then mret false
            else
              move mem (P2V (PTE_ADDR e)) PGSIZE;;
              r ← mappages d i PGSIZE (V2P mem) (PTE_FLAGS e);
              if r <? 0 then mret false
              else copy_loop pgdir d (u32 (i + PGSIZE)) sz f
      else mret true
  end.

Definition copyuvm (pgdir sz : Z) : M kmem Z :=
  d ← setupkvm;
  if d =? 0 then mret 0
  else
    ok ← copy_loop pgdir d 0 sz (S (Z.to_nat (sz / PGSIZE) + 1));
    if (ok : bool) then mret d
    else freevm d;; mret 0.

Definition uva2ka (pgdir uva : Z) : M kmem Z :=
  pte ← walkpgdir pgdir uva false;
  e ← load_pte pte;
  if negb (has e PTE_P) then mret 0
  else if negb (has e PTE_U) then mret 0
  else mret (P2V (PTE_ADDR e)).

(** Copies [p] to user address [va]; every round but the first starts a page. *)
Fixpoint copyout_loop (pgdir va : Z) (p : list Z) (fuel : nat) : M kmem Z :=
  match fuel with
  | O => no_fuel
  | S f =>
      let len := Z.of_nat (length p) in
      if 0 <? len then
        let va0 := PGROUNDDOWN va in
        pa0 ← uva2ka pgdir va0;
        if pa0 =? 0 then mret (-1)
        else
          let n := Z.min (PGSIZE - (va - va0)) len in
          put_bytes (pa0 + (va - va0)) (take (Z.to_nat n) p);;
          copyout_loop pgdir (u32 (va0 + PGSIZE)) (drop (Z.to_nat n) p) f
      else mret 0
  end.

Definition copyout (pgdir va : Z) (p : list Z) : M kmem Z :=
  copyout_loop pgdir va p (S (length p)).
End Vm.
