(* ===== verification/VmTheory.v ===== *)
(** * Page tables: what the operations of Vm.v do

    A page directory is described by the function [entry], which gives for each
    virtual address the page-table entry in force (0 when there is no page
    table), and by the pages it is made of.  The operations are specified
    against the invariant [vm_ok] (the directory, its page tables and the free
    pages are pairwise different pages) and, for a user address space,
    [space_ok]. *)

From S2P Require Import Prelude CString Kalloc Vm.
Open Scope Z_scope.

(** ** Addresses and entries *)
Lemma PDX_eq va : 0 <= va < 2 ^ 32 -> PDX va = va / 2 ^ 22.
Proof.
  intros Hv. unfold PDX, PDXSHIFT. rewrite u32_small by done. rewrite Z.shiftr_div_pow2 by lia.
  change 0x3FF with (Z.ones 10). rewrite Z.land_ones by lia. apply Z.mod_small.
  split; [apply Z.div_pos; lia|]. apply Z.div_lt_upper_bound; lia.
Qed.
Lemma PTX_eq va : 0 <= va < 2 ^ 32 -> PTX va = va / PGSIZE mod 1024.
Proof.
  intros Hv. unfold PTX, PTXSHIFT. rewrite u32_small by done. rewrite Z.shiftr_div_pow2 by lia.
  change 0x3FF with (Z.ones 10). by rewrite Z.land_ones by lia.
Qed.
Lemma PDX_range va : 0 <= PDX va < 1024.
Proof.
  unfold PDX. change 0x3FF with (Z.ones 10). rewrite Z.land_ones by lia. apply Z.mod_pos_bound. lia.
Qed.
Lemma PTX_range va : 0 <= PTX va < 1024.
Proof.
  unfold PTX. change 0x3FF with (Z.ones 10). rewrite Z.land_ones by lia. apply Z.mod_pos_bound. lia.
Qed.

(** The two indices of an address make up its page number. *)
Lemma same_page va va' :
  0 <= va < 2 ^ 32 -> 0 <= va' < 2 ^ 32 ->
  PDX va = PDX va' /\ PTX va = PTX va' <-> va / PGSIZE = va' / PGSIZE.
Proof.
  intros Hv Hv'. rewrite !PDX_eq, !PTX_eq by done. change (2 ^ 22) with (PGSIZE * 1024).
  rewrite <- !Z.div_div by done. split; [|by intros ->]. intros [E1 E2].
  rewrite (Z.div_mod (va / PGSIZE) 1024), (Z.div_mod (va' / PGSIZE) 1024) by done. by rewrite E1, E2.
Qed.

Lemma PTE_ADDR_eq e : 0 <= e < 2 ^ 32 -> PTE_ADDR e = e / PGSIZE * PGSIZE.
Proof. intros He. unfold PTE_ADDR. rewrite u32_small by done. apply land_page. Qed.
Lemma PTE_FLAGS_eq e : 0 <= e < 2 ^ 32 -> PTE_FLAGS e = e mod PGSIZE.
Proof.
  intros He. unfold PTE_FLAGS. rewrite u32_small by done. change 0xFFF with (Z.ones 12).
  by rewrite Z.land_ones by lia.
Qed.

Lemma has_bit e k : 0 <= k -> has e (2 ^ k) = Z.testbit e k.
Proof.
  intros Hk. unfold has, ctrue.
  assert (Z.land e (2 ^ k) = if Z.testbit e k then 2 ^ k else 0) as ->.
  { apply Z.bits_inj'. intros n Hn. rewrite Z.land_spec, Z.pow2_bits_eqb by lia.
    destruct (Z.eqb_spec k n) as [->|Hne].
    - destruct (Z.testbit e n); [|by rewrite Z.bits_0]. by rewrite Z.pow2_bits_true.
    - rewrite andb_false_r. destruct (Z.testbit e k); [|by rewrite Z.bits_0].
      by rewrite Z.pow2_bits_false. }
  destruct (Z.testbit e k); [|done]. pose proof (Z.pow_pos_nonneg 2 k ltac:(lia) Hk).
  destruct (Z.eqb_spec (2 ^ k) 0); [lia|done].
Qed.

(** The entry made of a page address and flags. *)
Lemma lor_flags pa fl : pa mod PGSIZE = 0 -> 0 <= fl < PGSIZE -> Z.lor pa fl = pa + fl.
Proof.
  intros Hp Hf. symmetry. rewrite <- Z.lxor_lor, Z.add_nocarry_lxor; [done|..];
    rewrite (Z.div_mod pa PGSIZE), Hp, Z.add_0_r by done; change PGSIZE with (2 ^ 12) in *;
    rewrite Z.mul_comm, <- Z.shiftl_mul_pow2 by lia; apply Z.bits_inj'; intros n Hn;
    rewrite Z.land_spec, Z.bits_0;
    (destruct (decide (n < 12)); [rewrite Z.shiftl_spec_low by lia; done|]);
    rewrite (Z.bits_above_log2 fl n), andb_false_r; try done; try lia;
    (destruct (decide (fl = 0)) as [->|Hne]; [cbn; lia|]);
    pose proof (Z.log2_lt_pow2 fl 12); lia.
Qed.

Lemma aligned_low pa k : pa mod PGSIZE = 0 -> 0 <= k < 12 -> Z.testbit pa k = false.
Proof.
  intros Hp Hk. rewrite (Z.div_mod pa PGSIZE), Hp, Z.add_0_r by done. change PGSIZE with (2 ^ 12).
  rewrite Z.mul_comm, <- Z.shiftl_mul_pow2 by lia. apply Z.shiftl_spec_low. lia.
Qed.

Lemma flags_bit pa fl k :
  pa mod PGSIZE = 0 -> 0 <= fl < PGSIZE -> 0 <= k < 12 -> has (pa + fl) (2 ^ k) = Z.testbit fl k.
Proof.
  intros Hp Hf Hk. rewrite has_bit by lia. rewrite <- lor_flags by done.
  by rewrite Z.lor_spec, aligned_low by done.
Qed.

Lemma entry_parts pa fl :
  pa mod PGSIZE = 0 -> 0 <= pa < 2 ^ 32 -> 0 <= fl < PGSIZE ->
  0 <= pa + fl < 2 ^ 32 /\ PTE_ADDR (pa + fl) = pa /\ PTE_FLAGS (pa + fl) = fl.
Proof.
  intros Hp Hr Hf. assert (pa = pa / PGSIZE * PGSIZE) as Hq.
  { rewrite (Z.div_mod pa PGSIZE) at 1 by done. rewrite Hp. lia. }
  assert (0 <= pa + fl < 2 ^ 32) as Hs by (unfold PGSIZE in *; lia). split; [done|].
  rewrite PTE_ADDR_eq, PTE_FLAGS_eq by done. rewrite Hq, Z.add_comm.
  rewrite Z.div_add, Z.mod_add by done. rewrite Z.div_small, Z.mod_small by done. lia.
Qed.

(** What [mappages] stores: [pa | perm | PTE_P]. *)
Lemma new_entry pa perm :
  pa mod PGSIZE = 0 -> 0 <= perm < PGSIZE ->
  Z.lor (Z.lor pa perm) PTE_P = pa + Z.lor perm PTE_P /\ 0 <= Z.lor perm PTE_P < PGSIZE.
Proof.
  intros Hp Hf. assert (0 <= Z.lor perm PTE_P < PGSIZE) as Hl.
  { split; [apply Z.lor_nonneg; unfold PTE_P; lia|]. change PGSIZE with (2 ^ 12) in *.
    destruct (decide (Z.lor perm PTE_P = 0)) as [->|Hne]; [done|].
    assert (0 <= Z.lor perm PTE_P) by (apply Z.lor_nonneg; unfold PTE_P; lia).
    apply Z.log2_lt_pow2; [lia|]. rewrite Z.log2_lor by (unfold PTE_P; lia).
    destruct (decide (perm = 0)) as [->|Hne']; [cbn; lia|].
    apply Z.max_lub_lt; [apply Z.log2_lt_pow2; lia|cbn; lia]. }
  split; [|done]. rewrite <- Z.lor_assoc. by apply lor_flags.
Qed.

(** ** Directories *)
Definition pde (m : mem) (pd i : Z) : Z := load32 m (pd + 4 * i).
Definition tab (m : mem) (pd i : Z) : Z := P2V (PTE_ADDR (pde m pd i)).
Definition has_tab (m : mem) (pd i : Z) : bool := has (pde m pd i) PTE_P.

(** The page-table entry in force for an address. *)
Definition entry (m : mem) (pd va : Z) : Z :=
  if has_tab m pd (PDX va) then load32 m (tab m pd (PDX va) + 4 * PTX va) else 0.

Section Directories.
Context `{LinkerOk}.

(** The pages a directory is made of. *)
Definition owns (m : mem) (pd q : Z) : Prop :=
  q = pd \/ exists i, 0 <= i < 1024 /\ has_tab m pd i = true /\ q = tab m pd i.

Record dir_ok (m : mem) (pd : Z) : Prop := {
  di_page : valid_page pd;
  di_tab : forall i, 0 <= i < 1024 -> has_tab m pd i = true -> valid_page (tab m pd i) /\ tab m pd i <> pd;
  di_inj : forall i j, 0 <= i < 1024 -> 0 <= j < 1024 -> has_tab m pd i = true -> has_tab m pd j = true ->
             tab m pd i = tab m pd j -> i = j;
}.

Record vm_ok (s : kmem) (pd : Z) (free : list Z) : Prop := {
  vm_pool : pool_ok s free;
  vm_dir : dir_ok (kmemory s) pd;
  vm_apart : forall q, owns (kmemory s) pd q -> q ∉ free;
}.

(** A word of a page lies in the page. *)
Lemma word_in_page p i x : 0 <= i < 1024 -> p + 4 * i <= x < p + 4 * i + 4 -> p <= x < p + PGSIZE.
Proof. unfold PGSIZE. lia. Qed.

Lemma page_of_word p i x :
  p mod PGSIZE = 0 -> 0 <= i < 1024 -> p + 4 * i <= x < p + 4 * i + 4 -> page_of x = p.
Proof. intros Hp Hi Hx. apply page_of_in; [done|]. by apply (word_in_page p i). Qed.

(** Reading a word of a page that has not changed. *)
Lemma load32_page m m' p i :
  p mod PGSIZE = 0 -> 0 <= i < 1024 -> (forall x, page_of x = p -> m' x = m x) ->
  load32 m' (p + 4 * i) = load32 m (p + 4 * i).
Proof. intros Hp Hi Hm. apply load32_ext. intros x Hx. apply Hm. by apply (page_of_word p i). Qed.

(** A directory does not depend on memory outside its pages. *)
Lemma dir_frame m m' pd :
  dir_ok m pd -> (forall x, owns m pd (page_of x) -> m' x = m x) ->
  dir_ok m' pd /\ (forall i, 0 <= i < 1024 -> pde m' pd i = pde m pd i)
  /\ (forall va, entry m' pd va = entry m pd va).
Proof.
  intros Hd Hm. assert (forall i, 0 <= i < 1024 -> pde m' pd i = pde m pd i) as Hp.
  { intros i Hi. apply load32_page; [apply (di_page _ _ Hd)|done|]. intros x Hx. apply Hm. by left. }
  split_and!; [|done|].
  - split; [apply (di_page _ _ Hd)| |]; unfold has_tab, tab.
    + intros i Hi. rewrite Hp by done. by apply (di_tab _ _ Hd).
    + intros i j Hi Hj. rewrite !Hp by done. by apply (di_inj _ _ Hd).
  - intros va. pose proof (PDX_range va) as Hi. unfold entry, has_tab, tab. rewrite Hp by done.
    destruct (has (pde m pd (PDX va)) PTE_P) eqn:E; [|done].
    apply load32_page; [apply (di_tab _ _ Hd (PDX va) Hi E)|apply PTX_range|].
    intros x Hx. apply Hm. rewrite Hx. right. eauto.
Qed.

Lemma owns_ext m m' pd q :
  (forall i, 0 <= i < 1024 -> pde m' pd i = pde m pd i) -> owns m' pd q <-> owns m pd q.
Proof.
  intros Hp. unfold owns, has_tab, tab. split; intros [?|(i & Hi & Hh & ->)]; auto; right; exists i;
    [rewrite Hp in * by done|rewrite Hp by done]; auto.
Qed.

(** ** Walking *)
Lemma P2V_V2P p : valid_page p -> P2V (V2P p) = p.
Proof.
  intros Hv%valid_page_range. unfold P2V, V2P, KERNLINK, EXTMEM, KERNBASE, PHYSTOP in *.
  rewrite u32_add_l, u32_small; lia.
Qed.
Lemma V2P_range p : valid_page p -> 0 < V2P p < 2 ^ 32 /\ V2P p mod PGSIZE = 0.
Proof.
  intros Hv. pose proof (valid_page_range p Hv) as Hr. destruct Hv as [Hm _].
  unfold V2P, KERNLINK, EXTMEM, KERNBASE, PHYSTOP, PGSIZE in *. rewrite u32_small by lia.
  split; [lia|]. rewrite Zminus_mod, Hm. done.
Qed.

Lemma load32_zero m a : (forall x, a <= x < a + 4 -> m x = 0) -> load32 m a = 0.
Proof. intros Hm. by rewrite (load32_ext m (fun _ => 0)). Qed.

Lemma walk_found s pd va al :
  has_tab (kmemory s) pd (PDX va) = true ->
  walkpgdir pd va al s = Ok (tab (kmemory s) pd (PDX va) + 4 * PTX va) s.
Proof. intros Ht. unfold walkpgdir, load. msimpl. unfold has_tab, pde in Ht. by rewrite Ht. Qed.

Lemma walk_none s pd va : has_tab (kmemory s) pd (PDX va) = false -> walkpgdir pd va false s = Ok 0 s.
Proof. intros Ht. unfold walkpgdir, load. msimpl. unfold has_tab, pde in Ht. by rewrite Ht. Qed.

Lemma walk_empty s pd va :
  has_tab (kmemory s) pd (PDX va) = false -> pool_ok s [] -> walkpgdir pd va true s = Ok 0 s.
Proof.
  intros Ht Hp. unfold walkpgdir, load. msimpl. unfold has_tab, pde in Ht. rewrite Ht. cbn [negb].
  by rewrite (kalloc_empty s Hp).
Qed.

(** The entry of the page directory for a new page table. *)
Definition tab_entry (p : Z) : Z := Z.lor (Z.lor (Z.lor (V2P p) PTE_P) PTE_W) PTE_U.

Lemma tab_entry_parts p :
  valid_page p -> u32 (tab_entry p) = tab_entry p /\ P2V (PTE_ADDR (tab_entry p)) = p
  /\ has (tab_entry p) PTE_P = true.
Proof.
  intros Hv. destruct (V2P_range p Hv) as [Hr Hm]. unfold tab_entry.
  rewrite <- !Z.lor_assoc. change (Z.lor PTE_P (Z.lor PTE_W PTE_U)) with 7.
  rewrite lor_flags by (unfold PGSIZE; (done || lia)).
  destruct (entry_parts (V2P p) 7) as (Hs & Ha & _); [done|lia|unfold PGSIZE; lia|].
  rewrite Ha, P2V_V2P, u32_small by done. split_and!; [done|done|].
  change PTE_P with (2 ^ 0). by rewrite flags_bit by (unfold PGSIZE; (done || lia)).
Qed.

(** The memory once [p] is the page table of index [i]. *)
Definition with_tab (m : mem) (pd i p : Z) : mem :=
  store32 (memset m p 0 PGSIZE) (pd + 4 * i) (tab_entry p).

Lemma with_tab_out m pd i p x :
  dir_ok m pd -> valid_page p -> 0 <= i < 1024 -> page_of x <> pd -> page_of x <> p -> with_tab m pd i p x = m x.
Proof.
  intros Hd Hv Hi Hx Hx'. unfold with_tab. rewrite store32_out, memset_sets by
    (done || intros E; apply Hx; by apply (page_of_word pd i); [apply (di_page _ _ Hd)|..]).
  destruct ((p <=? x) && (x <? p + PGSIZE)) eqn:E; [|done]. exfalso. zbool. apply Hx'.
  apply page_of_in; [apply Hv|lia].
Qed.

Lemma pde_with_tab m pd i p j :
  dir_ok m pd -> valid_page p -> p <> pd -> 0 <= i < 1024 -> 0 <= j < 1024 ->
  pde (with_tab m pd i p) pd j = if decide (i = j) then tab_entry p else pde m pd j.
Proof.
  intros Hd Hv Hne Hi Hj. unfold pde, with_tab. case_decide as E.
  - subst j. rewrite load32_store32. by apply tab_entry_parts.
  - rewrite load32_store32_other by lia. apply load32_page; [apply (di_page _ _ Hd)|done|].
    intros x Hx. rewrite memset_sets by done.
    destruct ((p <=? x) && (x <? p + PGSIZE)) eqn:E'; [|done]. exfalso. zbool. apply Hne.
    rewrite <- Hx. symmetry. apply page_of_in; [apply Hv|lia].
Qed.

Lemma new_tab_zero m pd i p j :
  dir_ok m pd -> valid_page p -> p <> pd -> 0 <= i < 1024 -> 0 <= j < 1024 ->
  load32 (with_tab m pd i p) (p + 4 * j) = 0.
Proof.
  intros Hd Hv Hne Hi Hj. apply load32_zero. intros x Hx. unfold with_tab.
  rewrite store32_out, memset_sets.
  - rewrite (proj2 (Z.leb_le _ _)), (proj2 (Z.ltb_lt _ _)) by (unfold PGSIZE; lia). done.
  - done.
  - intros E. apply Hne. rewrite <- (page_of_word p j x), <- (page_of_word pd i x); auto; [apply Hd|apply Hv].
Qed.

Section WithTab.
Context (s : kmem) (pd i p : Z) (free : list Z).
Hypothesis Hok : vm_ok s pd (p :: free).
Hypothesis Hi : 0 <= i < 1024.
Hypothesis Hno : has_tab (kmemory s) pd i = false.
Let m := kmemory s.
Let m' := with_tab m pd i p.

Lemma wt_page : valid_page p.
Proof. pose proof (po_pages _ _ (vm_pool _ _ _ Hok)) as Hp. by apply list.Forall_cons in Hp as [? _]. Qed.
Lemma wt_new q : owns m pd q -> q <> p.
Proof. intros Hq ->. apply (vm_apart _ _ _ Hok p Hq). left. Qed.
Lemma wt_pd : p <> pd.
Proof. intros E. apply (wt_new pd); [by left|done]. Qed.

Lemma wt_has j : 0 <= j < 1024 -> has_tab m' pd j = bool_decide (i = j) || has_tab m pd j.
Proof.
  intros Hj. pose proof wt_page as Hp. pose proof wt_pd as Hne. pose proof (vm_dir _ _ _ Hok) as Hd.
  unfold has_tab, m'. rewrite pde_with_tab by done. case_decide as E.
  - rewrite bool_decide_eq_true_2 by done. by apply tab_entry_parts.
  - by rewrite bool_decide_eq_false_2.
Qed.
Lemma wt_tab j : 0 <= j < 1024 -> tab m' pd j = if decide (i = j) then p else tab m pd j.
Proof.
  intros Hj. pose proof wt_page as Hp. pose proof wt_pd as Hne. pose proof (vm_dir _ _ _ Hok) as Hd.
  unfold tab, m'. rewrite pde_with_tab by done. case_decide; [by apply tab_entry_parts|done].
Qed.

Lemma wt_entry va : entry m' pd va = entry m pd va.
Proof.
  pose proof (PDX_range va) as Hr. pose proof wt_page as Hp. pose proof wt_pd as Hne.
  pose proof (vm_dir _ _ _ Hok) as Hd. fold m in Hd, Hno. unfold entry.
  rewrite wt_has, wt_tab by done. case_decide as E; [|rewrite bool_decide_eq_false_2 by done]; cbn [orb].
  - rewrite bool_decide_eq_true_2 by done. cbn [orb]. rewrite <- E, Hno.
    apply new_tab_zero; auto using PTX_range.
  - destruct (has_tab m pd (PDX va)) eqn:Eh; [|done].
    pose proof (di_tab _ _ Hd _ Hr Eh) as [Hv Hne'].
    apply load32_page; [apply Hv|apply PTX_range|]. intros x Hx. apply with_tab_out; auto; rewrite Hx; [done|].
    apply wt_new. right. eauto.
Qed.

Lemma wt_owns q : owns m' pd q <-> q = p \/ owns m pd q.
Proof.
  unfold owns. split.
  - intros [?|(j & Hj & Hh & ->)]; auto. rewrite wt_has in Hh by done. rewrite wt_tab by done.
    case_decide as E; [by left|]. rewrite bool_decide_eq_false_2 in Hh by done. right. right. eauto.
  - intros [->|[?|(j & Hj & Hh & ->)]]; auto; right.
    + exists i. rewrite wt_has, wt_tab by done. rewrite bool_decide_eq_true_2, decide_True by done. done.
    + exists j. assert (i <> j) by (intros ->; unfold m in Hh; congruence).
      rewrite wt_has, wt_tab by done. rewrite decide_False, Hh, orb_true_r by done. done.
Qed.

Lemma wt_dir : dir_ok m' pd.
Proof.
  pose proof wt_page as Hp. pose proof wt_pd as Hne. pose proof (vm_dir _ _ _ Hok) as Hd. fold m in Hd.
  split; [apply (di_page _ _ Hd)|..].
  - intros j Hj. rewrite wt_has, wt_tab by done. case_decide as E; [done|].
    rewrite bool_decide_eq_false_2 by done. by apply (di_tab _ _ Hd).
  - intros j k Hj Hk. rewrite !wt_has, !wt_tab by done.
    destruct (decide (i = j)) as [<-|Ej], (decide (i = k)) as [<-|Ek]; auto;
      rewrite ?(bool_decide_eq_false_2 (i = j)), ?(bool_decide_eq_false_2 (i = k)) by done; cbn [orb].
    + intros _ Hh E. exfalso. apply (wt_new (tab m pd k)); [|done]. right. eauto.
    + intros Hh _ E. exfalso. apply (wt_new (tab m pd j)); [|done]. right. eauto.
    + by apply (di_inj _ _ Hd).
Qed.
End WithTab.

(** ** Steps that build page tables

    From [s] to [s'] the pages [taken] leave the pool and become part of the
    directory; memory outside the directory and these pages is unchanged. *)
Record builds (pd : Z) (s s' : kmem) (free free' : list Z) (taken : list Z) : Prop := {
  bu_ok : vm_ok s' pd free';
  bu_free : free = taken ++ free';
  bu_owns : forall q, owns (kmemory s') pd q <-> owns (kmemory s) pd q \/ q ∈ taken;
  bu_mem : forall x, ~ owns (kmemory s) pd (page_of x) -> page_of x ∉ taken -> kmemory s' x = kmemory s x;
}.

Lemma builds_refl pd s free : vm_ok s pd free -> builds pd s s free free [].
Proof. intros Hok. split; auto. intros q. split; [auto|]. by intros [?|?%not_elem_of_nil]. Qed.

Lemma builds_trans pd s1 s2 s3 f1 f2 f3 t1 t2 :
  builds pd s1 s2 f1 f2 t1 -> builds pd s2 s3 f2 f3 t2 -> builds pd s1 s3 f1 f3 (t1 ++ t2).
Proof.
  intros [_ F1 O1 M1] [Ok2 F2 O2 M2]. split; [done|by rewrite F1, F2, (assoc_L (++))|..].
  - intros q. rewrite O2, O1, elem_of_app. tauto.
  - intros x Ho Ht. rewrite elem_of_app in Ht. rewrite M2, M1; auto. rewrite O1. tauto.
Qed.

Lemma walk_fresh s pd va p free :
  vm_ok s pd (p :: free) -> has_tab (kmemory s) pd (PDX va) = false ->
  exists s', walkpgdir pd va true s = Ok (p + 4 * PTX va) s'
    /\ kmemory s' = with_tab (kmemory s) pd (PDX va) p /\ builds pd s s' (p :: free) free [p].
Proof.
  intros Hok Ht. pose proof (PDX_range va) as Hi. pose proof (wt_page s pd p free Hok) as Hv.
  destruct (kalloc_ok s p free (vm_pool _ _ _ Hok)) as (s1 & E1 & Hp1 & Hm1 & _).
  pose proof (vm_dir _ _ _ Hok) as Hd. pose proof (po_nodup _ _ (vm_pool _ _ _ Hok)) as Hnd.
  apply list.NoDup_cons in Hnd as [Hnp _].
  exists { s1 with kmemory := with_tab (kmemory s) pd (PDX va) p }. split; [|split; [done|]].
  - unfold walkpgdir, load. erewrite bind_ok by reflexivity. unfold has_tab, pde in Ht. rewrite Ht. cbn [negb].
    rewrite (bind_ok _ _ _ _ _ E1). rewrite (proj2 (Z.eqb_neq _ _)) by (by apply valid_page_nz).
    unfold fill, store. do 2 erewrite bind_ok by reflexivity. cbn. rewrite Hm1. done.
  - split; cbn [kmemory]; [|done| |].
    + split; cbn.
      * apply (pool_frame s1); [done|]. intros x Hx. rewrite Hm1. apply with_tab_out; auto.
        -- intros E. apply (vm_apart _ _ _ Hok pd); [by left|]. right. by rewrite <- E.
        -- intros E. apply Hnp. by rewrite <- E.
      * by apply (wt_dir s pd (PDX va) p free).
      * intros q Hq. apply (wt_owns s pd (PDX va) p free) in Hq as [->|Hq]; auto.
        intros Hin. apply (vm_apart _ _ _ Hok q Hq). by right.
    + intros q. rewrite (wt_owns s pd (PDX va) p free) by done. rewrite list_elem_of_singleton. tauto.
    + intros x Ho Ht'. rewrite list_elem_of_singleton in Ht'. apply with_tab_out; auto.
      intros E. apply Ho. by left.
Qed.

(** [walkpgdir] with allocation: the address of the entry, in a directory with
    the same entries. *)
Lemma walk_create s pd va free :
  vm_ok s pd free -> has_tab (kmemory s) pd (PDX va) = true \/ free <> [] ->
  exists s' free' taken, walkpgdir pd va true s = Ok (tab (kmemory s') pd (PDX va) + 4 * PTX va) s'
    /\ builds pd s s' free free' taken /\ has_tab (kmemory s') pd (PDX va) = true
    /\ (forall va', entry (kmemory s') pd va' = entry (kmemory s) pd va')
    /\ length taken = (if has_tab (kmemory s) pd (PDX va) then 0 else 1)%nat
    /\ (forall i, 0 <= i < 1024 -> i <> PDX va -> has_tab (kmemory s') pd i = has_tab (kmemory s) pd i).
Proof.
  intros Hok Hen. pose proof (PDX_range va) as Hi. destruct (has_tab (kmemory s) pd (PDX va)) eqn:Ht.
  - exists s, free, []. rewrite (walk_found s pd va true Ht). split_and!; auto using builds_refl.
  - destruct free as [|p free]; [by destruct Hen|].
    destruct (walk_fresh s pd va p free Hok Ht) as (s' & E & Hm & Hb).
    exists s', free, [p]. rewrite E, Hm. rewrite (wt_has s pd (PDX va) p free), (wt_tab s pd (PDX va) p free) by done.
    rewrite decide_True, bool_decide_eq_true_2 by done. split_and!; auto.
    + intros va'. by apply (wt_entry s pd (PDX va) p free).
    + intros j Hj Hne. rewrite (wt_has s pd (PDX va) p free) by done. by rewrite bool_decide_eq_false_2.
Qed.

(** Storing an entry. *)
Lemma store_entry s pd va v free :
  vm_ok s pd free -> 0 <= va < 2 ^ 32 -> has_tab (kmemory s) pd (PDX va) = true ->
  let s' := { s with kmemory ::= fun m => store32 m (tab (kmemory s) pd (PDX va) + 4 * PTX va) v } in
  builds pd s s' free free []
  /\ (forall i, 0 <= i < 1024 -> pde (kmemory s') pd i = pde (kmemory s) pd i)
  /\ (forall va', 0 <= va' < 2 ^ 32 -> entry (kmemory s') pd va'
        = if va' / PGSIZE =? va / PGSIZE then u32 v else entry (kmemory s) pd va').
Proof.
  intros Hok Hva Ht s'. pose proof (PDX_range va) as Hi. pose proof (PTX_range va) as Hj.
  pose proof (vm_dir _ _ _ Hok) as Hd. pose proof (di_tab _ _ Hd _ Hi Ht) as [Hv Hne].
  set (m := kmemory s) in *. set (t := tab m pd (PDX va)) in *.
  assert (forall x, page_of x <> t -> kmemory s' x = m x) as Hout.
  { intros x Hx. apply store32_out. intros E. apply Hx. apply (page_of_word t (PTX va)); [apply Hv|done|done]. }
  assert (forall i, 0 <= i < 1024 -> pde (kmemory s') pd i = pde m pd i) as Hpde.
  { intros i Hi'. apply load32_page; [apply (di_page _ _ Hd)|done|]. intros x Hx. apply Hout. congruence. }
  split_and!; [|done|].
  - split; [split|done| |].
    + apply (pool_frame s); [apply (vm_pool _ _ _ Hok)|]. intros x Hx. apply Hout. intros E.
      apply (vm_apart _ _ _ Hok t); [right; eauto|]. by rewrite <- E.
    + split; [apply (di_page _ _ Hd)| |]; unfold has_tab, tab.
      * intros i Hi'. rewrite Hpde by done. by apply (di_tab _ _ Hd).
      * intros i j Hi' Hj'. rewrite !Hpde by done. by apply (di_inj _ _ Hd).
    + intros q Hq. rewrite (owns_ext m) in Hq by done. by apply (vm_apart _ _ _ Hok).
    + intros q. rewrite (owns_ext m) by done. split; [auto|]. by intros [?|?%not_elem_of_nil].
    + intros x Ho _. apply Hout. intros E. apply Ho. rewrite E. right. eauto.
  - intros va' Hva'. pose proof (PDX_range va') as Hi'. pose proof (PTX_range va') as Hj'.
    pose proof (same_page va' va Hva' Hva) as Hsp. unfold entry, has_tab, tab.
    rewrite Hpde by done. fold (tab m pd (PDX va')). fold (has_tab m pd (PDX va')).
    destruct (Z.eqb_spec (va' / PGSIZE) (va / PGSIZE)) as [E|E].
    + apply Hsp in E as [-> ->]. rewrite Ht. apply load32_store32.
    + destruct (has_tab m pd (PDX va')) eqn:Ht'; [|done].
      destruct (decide (PDX va' = PDX va)) as [Ed|Ed].
      * assert (PTX va' <> PTX va) by tauto. rewrite Ed. apply load32_store32_other. fold t. lia.
      * apply load32_page; [apply (di_tab _ _ Hd _ Hi' Ht')|done|]. intros x Hx. apply Hout. rewrite Hx.
        intros E'. apply Ed. by apply (di_inj _ _ Hd).
Qed.

(** ** Mapping a range of pages

    The entries after the [n] pages from page number [vp] on have been mapped to
    [pa] and the pages that follow it. *)
Definition mapped (m m' : mem) (pd vp : Z) (n : nat) (pa fl : Z) : Prop :=
  forall va, 0 <= va < 2 ^ 32 -> entry m' pd va
    = if (vp <=? va / PGSIZE) && (va / PGSIZE <? vp + Z.of_nat n)
      then pa + (va / PGSIZE - vp) * PGSIZE + fl else entry m pd va.

Lemma mapped_cons m1 m2 m3 pd vp n pa fl :
  (forall va, 0 <= va < 2 ^ 32 -> entry m2 pd va
     = if va / PGSIZE =? vp then pa + fl else entry m1 pd va) ->
  mapped m2 m3 pd (vp + 1) n (pa + PGSIZE) fl -> mapped m1 m3 pd vp (S n) pa fl.
Proof.
  intros H1 H2 va Hva. rewrite (H2 va Hva), (H1 va Hva).
  zcases; lia.
Qed.

Lemma mapped_0 m pd vp pa fl : mapped m m pd vp 0 pa fl.
Proof. intros va Hva. zcases; lia. Qed.

(** Page tables that a range of pages may still need. *)
Definition tabs_needed (m : mem) (pd a last : Z) : Z :=
  PDX last - PDX a + (if has_tab m pd (PDX a) then 0 else 1).

Lemma PDX_next a :
  0 <= a -> a + PGSIZE < 2 ^ 32 -> PDX (a + PGSIZE) = PDX a \/ PDX (a + PGSIZE) = PDX a + 1.
Proof.
  unfold PGSIZE. intros Ha Hl. rewrite !PDX_eq by lia.
  pose proof (Z.div_mod a (2 ^ 22)). pose proof (Z.mod_pos_bound a (2 ^ 22)).
  pose proof (Z.div_mod (a + 4096) (2 ^ 22)). pose proof (Z.mod_pos_bound (a + 4096) (2 ^ 22)). lia.
Qed.
Lemma PDX_mono a b : 0 <= a <= b -> b < 2 ^ 32 -> PDX a <= PDX b.
Proof. intros Ha Hb. rewrite !PDX_eq by lia. apply Z.div_le_mono; lia. Qed.

(** One round of the loop. *)
Lemma map_one s pd a pa perm free :
  vm_ok s pd free -> 0 <= a < 2 ^ 32 -> pa mod PGSIZE = 0 -> 0 <= pa < 2 ^ 32 -> 0 <= perm < PGSIZE ->
  has (entry (kmemory s) pd a) PTE_P = false -> has_tab (kmemory s) pd (PDX a) = true \/ free <> [] ->
  exists pte s1 free' taken, walkpgdir pd a true s = Ok pte s1 /\ pte <> 0
    /\ has (load32 (kmemory s1) pte) PTE_P = false
    /\ let s2 := { s1 with kmemory ::= fun m => store32 m pte (Z.lor (Z.lor pa perm) PTE_P) } in
       builds pd s s2 free free' taken
       /\ (forall va, 0 <= va < 2 ^ 32 -> entry (kmemory s2) pd va
            = if va / PGSIZE =? a / PGSIZE then pa + Z.lor perm PTE_P else entry (kmemory s) pd va)
       /\ length taken = (if has_tab (kmemory s) pd (PDX a) then 0 else 1)%nat
       /\ (forall i, 0 <= i < 1024 ->
            has_tab (kmemory s2) pd i = bool_decide (i = PDX a) || has_tab (kmemory s) pd i).
Proof.
  intros Hok Ha Hpa Hpr Hperm Hno Hen. pose proof (PDX_range a) as Hi. pose proof (PTX_range a) as Hj.
  destruct (walk_create s pd a free Hok Hen) as (s1 & free' & taken & E1 & B1 & Ht & He & Hlen & Hh).
  pose proof (bu_ok _ _ _ _ _ _ B1) as Hok1. pose proof (di_tab _ _ (vm_dir _ _ _ Hok1) _ Hi Ht) as [Hv _].
  exists (tab (kmemory s1) pd (PDX a) + 4 * PTX a), s1, free', taken.
  split; [exact E1|]. split.
  { apply valid_page_range in Hv. unfold KERNLINK, KERNBASE, EXTMEM in Hv. lia. }
  split. { rewrite <- He in Hno. unfold entry in Hno. by rewrite Ht in Hno. }
  destruct (new_entry pa perm Hpa Hperm) as [-> Hfl]. destruct (entry_parts pa (Z.lor perm PTE_P) Hpa Hpr Hfl) as [Hr _].
  destruct (store_entry s1 pd a (pa + Z.lor perm PTE_P) free' Hok1 Ha Ht) as (B2 & Hp2 & He2).
  rewrite u32_small in He2 by done. cbv zeta. split_and!.
  - rewrite <- (app_nil_r taken). by eapply builds_trans.
  - intros va Hva. rewrite He2 by done. by rewrite He.
  - done.
  - intros i Hi'. unfold has_tab at 1. rewrite Hp2 by done. fold (has_tab (kmemory s1) pd i).
    destruct (decide (i = PDX a)) as [->|Hne]; [by rewrite Ht, bool_decide_eq_true_2|].
    rewrite Hh by done. by rewrite bool_decide_eq_false_2.
Qed.

(** A walk that needs a page table when there is no page left. *)
Lemma map_stuck s pd a last pa perm free fuel n :
  vm_ok s pd free -> ~ (has_tab (kmemory s) pd (PDX a) = true \/ free <> []) ->
  0 <= a <= last -> last < 2 ^ 32 ->
  exists r s' free' taken k, map_loop pd a last pa perm (S fuel) s = Ok r s'
    /\ builds pd s s' free free' taken
    /\ mapped (kmemory s) (kmemory s') pd (a / PGSIZE) k pa (Z.lor perm PTE_P)
    /\ (r = 0 /\ k = S n \/ r = -1 /\ (k <= n)%nat /\ free' = [])
    /\ (tabs_needed (kmemory s) pd a last <= Z.of_nat (length free) -> r = 0)
    /\ (r = 0 -> Z.of_nat (length taken) <= tabs_needed (kmemory s) pd a last).
Proof.
  intros Hok Hen Ha Hl. assert (has_tab (kmemory s) pd (PDX a) = false) as Ht.
  { destruct (has_tab _ _ _); [|done]. exfalso. auto. }
  assert (free = []) as -> by (destruct free; [done|]; exfalso; auto).
  exists (-1), s, [], [], 0%nat. cbn [map_loop].
  rewrite (bind_ok _ _ _ _ _ (walk_empty s pd a Ht (vm_pool _ _ _ Hok))). cbn [Z.eqb].
  split_and!; auto using builds_refl, mapped_0.
  - right. split_and!; auto. lia.
  - pose proof (PDX_mono a last Ha Hl). unfold tabs_needed. rewrite Ht. cbn. lia.
  - done.
Qed.

Lemma map_loop_ok n s pd a pa perm free fuel :
  let last := a + PGSIZE * Z.of_nat n in
  vm_ok s pd free -> a mod PGSIZE = 0 -> 0 <= a -> last + PGSIZE <= 2 ^ 32 ->
  pa mod PGSIZE = 0 -> 0 <= pa -> pa + PGSIZE * Z.of_nat n < 2 ^ 32 -> 0 <= perm < PGSIZE ->
  (forall va, a <= va < last + PGSIZE -> has (entry (kmemory s) pd va) PTE_P = false) -> (n < fuel)%nat ->
  exists r s' free' taken k, map_loop pd a last pa perm fuel s = Ok r s'
    /\ builds pd s s' free free' taken
    /\ mapped (kmemory s) (kmemory s') pd (a / PGSIZE) k pa (Z.lor perm PTE_P)
    /\ (r = 0 /\ k = S n \/ r = -1 /\ (k <= n)%nat /\ free' = [])
    /\ (tabs_needed (kmemory s) pd a last <= Z.of_nat (length free) -> r = 0)
    /\ (r = 0 -> Z.of_nat (length taken) <= tabs_needed (kmemory s) pd a last).
Proof.
  revert s a pa free fuel. induction n as [|n IH]; intros s a pa free fuel last Hok Ha Ha0 Hl Hpa Hpa0 Hpl Hperm Hfree Hfuel;
    (destruct fuel as [|fuel]; [lia|]); unfold last in *; clear last;
    pose proof (PDX_range a) as Hi; pose proof (Hfree a ltac:(unfold PGSIZE in *; lia)) as Hno;
    (destruct (decide (has_tab (kmemory s) pd (PDX a) = true \/ free <> [])) as [Hen|Hen];
      [|by apply map_stuck; auto; unfold PGSIZE in *; lia]);
    destruct (map_one s pd a pa perm free) as (pte & s1 & f1 & t1 & E1 & Hnz & Hnp & B1 & He1 & Hlen & Hh); auto;
    try (unfold PGSIZE in *; lia); cbn [map_loop];
    rewrite (bind_ok _ _ _ _ _ E1), (proj2 (Z.eqb_neq _ _) Hnz); unfold load, store;
    erewrite bind_ok by reflexivity; rewrite Hnp; erewrite bind_ok by reflexivity;
    set (s2 := { s1 with kmemory ::= _ }) in *.
  - rewrite Z.mul_0_r, Z.add_0_r, Z.eqb_refl. exists 0, s2, f1, t1, 1%nat. split_and!; auto.
    + apply (mapped_cons _ (kmemory s2)); [done|apply mapped_0].
    + unfold tabs_needed. rewrite Hlen. destruct (has_tab _ _ _); lia.
  - rewrite (proj2 (Z.eqb_neq _ _)) by (unfold PGSIZE; lia).
    rewrite !u32_small by (unfold PGSIZE in *; lia).
    assert (a + PGSIZE * Z.of_nat (S n) = a + PGSIZE + PGSIZE * Z.of_nat n) as Elast by (unfold PGSIZE; lia).
    rewrite Elast in *.
    destruct (IH s2 (a + PGSIZE) (pa + PGSIZE) f1 fuel) as (r & s3 & f3 & t3 & k & E3 & B3 & Hm & Hr & Hen3 & Hl3);
      try (unfold PGSIZE in *; lia).
    + apply B1.
    + rewrite Z.add_mod, Ha by done. done.
    + rewrite Z.add_mod, Hpa by done. done.
    + intros va Hva. rewrite He1 by (unfold PGSIZE in *; lia). rewrite (proj2 (Z.eqb_neq _ _)).
      * apply Hfree. unfold PGSIZE in *. lia.
      * pose proof (page_of_in va a Ha). unfold page_of, PGSIZE in *.
        pose proof (Z.div_mod a 4096). lia.
    + assert (tabs_needed (kmemory s2) pd (a + PGSIZE) (a + PGSIZE + PGSIZE * Z.of_nat n)
              + (if has_tab (kmemory s) pd (PDX a) then 0 else 1)
              <= tabs_needed (kmemory s) pd a (a + PGSIZE + PGSIZE * Z.of_nat n)) as Hneed.
      { unfold tabs_needed. rewrite Hh by apply PDX_range.
        destruct (PDX_next a) as [E|E]; [done|unfold PGSIZE in *; lia| |]; rewrite E.
        - rewrite bool_decide_eq_true_2 by done. cbn [orb]. lia.
        - rewrite bool_decide_eq_false_2 by lia. cbn [orb].
          destruct (has_tab (kmemory s) pd (PDX a + 1)), (has_tab (kmemory s) pd (PDX a)); lia. }
      pose proof (f_equal length (bu_free _ _ _ _ _ _ B1)) as Hf. rewrite length_app, Hlen in Hf.
      exists r, s3, f3, (t1 ++ t3), (S k). split; [exact E3|]. split; [by eapply builds_trans|]. split_and!.
      * apply (mapped_cons _ (kmemory s2)); [done|].
        replace (a / PGSIZE + 1) with ((a + PGSIZE) / PGSIZE); [done|].
        by rewrite <- (Z.div_add a 1 PGSIZE), Z.mul_1_l by done.
      * destruct Hr as [[-> ->]|(-> & Hk & ->)]; [by left|]. right. split_and!; auto. lia.
      * intros Hen'. apply Hen3. destruct (has_tab (kmemory s) pd (PDX a)); lia.
      * intros Hr0. rewrite length_app, Hlen. specialize (Hl3 Hr0). destruct (has_tab (kmemory s) pd (PDX a)); lia.
Qed.

Lemma page_sub a b : a mod PGSIZE = 0 -> b mod PGSIZE = 0 -> (b - a) / PGSIZE * PGSIZE = b - a.
Proof.
  intros Ha Hb. assert ((b - a) mod PGSIZE = 0) as Hm by (by rewrite Zminus_mod, Ha, Hb).
  pose proof (Z.div_mod (b - a) PGSIZE). unfold PGSIZE in *. lia.
Qed.

Lemma page_down a k : a mod PGSIZE = 0 -> 0 <= k < PGSIZE -> (a + k) / PGSIZE * PGSIZE = a.
Proof.
  intros Ha Hk. pose proof (page_of_in (a + k) a Ha) as Hp. unfold page_of in Hp. apply Hp. lia.
Qed.

Lemma mappages_loop n s pd va pa perm :
  va mod PGSIZE = 0 -> 0 <= va -> va + PGSIZE * Z.of_nat n + PGSIZE <= 2 ^ 32 ->
  mappages pd va (PGSIZE * Z.of_nat (S n)) pa perm s
  = map_loop pd va (va + PGSIZE * Z.of_nat n) pa perm (S n) s.
Proof.
  intros Ha Ha0 Hl. assert ((va + PGSIZE * Z.of_nat n) mod PGSIZE = 0) as Hm.
  { rewrite Z.mul_comm, Z.mod_add by done. done. }
  unfold mappages. rewrite !PGROUNDDOWN_eq by (unfold PGSIZE in *; lia).
  replace (va / PGSIZE * PGSIZE) with va
    by (symmetry; rewrite <- (Z.add_0_r va) at 1; apply page_down; [done|unfold PGSIZE; lia]).
  replace (va + PGSIZE * Z.of_nat (S n) - 1) with (va + PGSIZE * Z.of_nat n + (PGSIZE - 1)) by (unfold PGSIZE; lia).
  rewrite page_down by (done || unfold PGSIZE; lia).
  replace (va + PGSIZE * Z.of_nat n - va) with (Z.of_nat n * PGSIZE) by lia.
  rewrite u32_small by (unfold PGSIZE in *; lia). rewrite Z.div_mul by done. by rewrite Nat2Z.id.
Qed.

Lemma mappages_ok n s pd va pa perm free :
  let last := va + PGSIZE * Z.of_nat n in
  vm_ok s pd free -> va mod PGSIZE = 0 -> 0 <= va -> last + PGSIZE <= 2 ^ 32 ->
  pa mod PGSIZE = 0 -> 0 <= pa -> pa + PGSIZE * Z.of_nat n < 2 ^ 32 -> 0 <= perm < PGSIZE ->
  (forall x, va <= x < last + PGSIZE -> has (entry (kmemory s) pd x) PTE_P = false) ->
  exists r s' free' taken k, mappages pd va (PGSIZE * Z.of_nat (S n)) pa perm s = Ok r s'
    /\ builds pd s s' free free' taken
    /\ mapped (kmemory s) (kmemory s') pd (va / PGSIZE) k pa (Z.lor perm PTE_P)
    /\ (r = 0 /\ k = S n \/ r = -1 /\ (k <= n)%nat /\ free' = [])
    /\ (tabs_needed (kmemory s) pd va last <= Z.of_nat (length free) -> r = 0)
    /\ (r = 0 -> Z.of_nat (length taken) <= tabs_needed (kmemory s) pd va last).
Proof. intros last **. rewrite mappages_loop by done. apply map_loop_ok; auto; lia. Qed.

(** ** User memory *)
Definition present (m : mem) (pd va : Z) : bool := has (entry m pd va) PTE_P.
(** The kernel address of the page that a present entry maps. *)
Definition frame (m : mem) (pd va : Z) : Z := P2V (PTE_ADDR (entry m pd va)).
(** The byte that a user program reads at [va]. *)
Definition ubyte (m : mem) (pd va : Z) : option Z :=
  if present m pd va && has (entry m pd va) PTE_U
  then Some (m (frame m pd va + va mod PGSIZE)) else None.

(** The user half of an address space: every user page has a page of memory of
    its own, which is not free and not part of a page table. *)
Record space_ok (s : kmem) (pd : Z) (free : list Z) : Prop := {
  sp_vm : vm_ok s pd free;
  sp_frame : forall va, 0 <= va < KERNBASE -> present (kmemory s) pd va = true ->
    valid_page (frame (kmemory s) pd va) /\ ~ owns (kmemory s) pd (frame (kmemory s) pd va)
    /\ frame (kmemory s) pd va ∉ free;
  sp_inj : forall va va', 0 <= va < KERNBASE -> 0 <= va' < KERNBASE ->
    present (kmemory s) pd va = true -> present (kmemory s) pd va' = true ->
    frame (kmemory s) pd va = frame (kmemory s) pd va' -> va / PGSIZE = va' / PGSIZE;
}.

Lemma entry_page m pd va va' :
  0 <= va < 2 ^ 32 -> 0 <= va' < 2 ^ 32 -> va / PGSIZE = va' / PGSIZE -> entry m pd va = entry m pd va'.
Proof. intros Hv Hv' [E1 E2]%same_page; [|done|done]. unfold entry. by rewrite E1, E2. Qed.

Lemma present_tab m pd va : present m pd va = true -> has_tab m pd (PDX va) = true.
Proof. unfold present, entry. by destruct (has_tab m pd (PDX va)). Qed.

(** Memory may change outside the pages of the directory and the free pages. *)
Lemma space_frame s m' pd free :
  space_ok s pd free ->
  (forall x, owns (kmemory s) pd (page_of x) \/ page_of x ∈ free -> m' x = kmemory s x) ->
  space_ok { s with kmemory := m' } pd free /\ (forall va, entry m' pd va = entry (kmemory s) pd va).
Proof.
  intros [Hvm Hf Hi] Hm. destruct (dir_frame (kmemory s) m' pd) as (Hd & Hp & He);
    [apply Hvm|intros x Hx; apply Hm; by left|].
  split; [|done]. split; cbn [kmemory].
  - split; [|done|].
    + apply pool_frame; [apply Hvm|]. intros x Hx. apply Hm. by right.
    + intros q Hq. cbn in Hq. rewrite (owns_ext (kmemory s)) in Hq by done. by apply (vm_apart _ _ _ Hvm).
  - intros va Hva. unfold present, frame. cbn. rewrite (owns_ext (kmemory s)), He by done. by apply Hf.
  - intros va va' Hva Hva'. unfold present, frame. cbn. rewrite !He. by apply Hi.
Qed.

Lemma uva2ka_ok s pd va :
  dir_ok (kmemory s) pd -> present (kmemory s) pd va = true ->
  has (entry (kmemory s) pd va) PTE_U = true -> uva2ka pd va s = Ok (frame (kmemory s) pd va) s.
Proof.
  intros Hd Hp Hu. pose proof (present_tab _ _ _ Hp) as Ht. unfold uva2ka. rewrite (bind_ok _ _ _ _ _ (walk_found s pd va false Ht)).
  pose proof (di_tab _ _ Hd _ (PDX_range va) Ht) as [Hv _].
  unfold present, frame, entry in *. rewrite Ht in *. unfold load_pte, load.
  rewrite (proj2 (Z.eqb_neq _ _)).
  - erewrite bind_ok by reflexivity. by rewrite Hp, Hu.
  - apply valid_page_range in Hv. pose proof (PTX_range va). unfold KERNLINK, KERNBASE, EXTMEM in Hv. lia.
Qed.

(** A user program may access [va]. *)
Definition usable (m : mem) (pd va : Z) : bool := present m pd va && has (entry m pd va) PTE_U.

Lemma ubyte_usable m pd va :
  ubyte m pd va = if usable m pd va then Some (m (frame m pd va + va mod PGSIZE)) else None.
Proof. done. Qed.

Lemma page_split va : va = va / PGSIZE * PGSIZE + va mod PGSIZE /\ 0 <= va mod PGSIZE < PGSIZE.
Proof.
  split; [|by apply Z.mod_pos_bound]. rewrite (Z.div_mod va PGSIZE) at 1 by done. lia.
Qed.

Lemma page_of_frame f k : f mod PGSIZE = 0 -> 0 <= k < PGSIZE -> page_of (f + k) = f.
Proof. intros Hf Hk. apply page_of_in; [done|lia]. Qed.

(** Storing bytes in one user page, at [va] and without crossing its end. *)
Lemma put_user s pd free va bs :
  space_ok s pd free -> 0 <= va -> va mod PGSIZE + Z.of_nat (length bs) <= PGSIZE -> va < KERNBASE ->
  usable (kmemory s) pd va = true ->
  let s' := { s with kmemory ::= fun m => store_bytes m (frame m pd va + va mod PGSIZE) bs } in
  space_ok s' pd free /\ (forall x, entry (kmemory s') pd x = entry (kmemory s) pd x)
  /\ (forall x, 0 <= x < KERNBASE -> ubyte (kmemory s') pd x
       = if (va <=? x) && (x <? va + Z.of_nat (length bs)) then bs !! Z.to_nat (x - va)
         else ubyte (kmemory s) pd x).
Proof.
  intros Hs Hva Hlen Hk Hu s'. set (m := kmemory s) in *. unfold usable in Hu. apply andb_prop in Hu as [Hp Hu].
  destruct (sp_frame _ _ _ Hs va ltac:(lia) Hp) as (Hv & Ho & Hf). fold m in Hv, Ho, Hf.
  destruct (page_split va) as [Ev Hr]. set (o := va mod PGSIZE) in *.
  assert (forall y, page_of y <> frame m pd va -> kmemory s' y = m y) as Hout.
  { intros y Hy. unfold s'. cbn. fold m. rewrite store_bytes_at, inside_false; [done|]. intros E. apply Hy.
    apply page_of_in; [apply Hv|]. lia. }
  destruct (space_frame s (kmemory s') pd free Hs) as [Hs' He].
  { intros x Hx. apply Hout. intros E. rewrite E in Hx. by destruct Hx. }
  split_and!; [done|done|]. intros x Hx. rewrite !ubyte_usable. unfold usable, present, frame. rewrite !He. fold m.
  fold (frame m pd x). fold (present m pd x). fold (usable m pd x). destruct (page_split x) as [Ex Hrx].
  assert (KERNBASE < 2 ^ 32) as HK by (unfold KERNBASE; lia).
  destruct ((va <=? x) && (x <? va + Z.of_nat (length bs))) eqn:E.
  - zbool. assert (x / PGSIZE = va / PGSIZE) as Eq by (unfold PGSIZE in *; lia).
    unfold usable, present, frame. rewrite (entry_page m pd x va) by (lia || done).
    fold (present m pd va). fold (frame m pd va). rewrite Hp, Hu. cbn [andb]. unfold s'. cbn. fold m.
    rewrite store_bytes_at, inside_true by lia. symmetry. rewrite <- list_lookup_lookup_total_lt by lia.
    f_equal. lia.
  - destruct (usable m pd x) eqn:Eu; [|done]. f_equal. unfold usable in Eu. apply andb_prop in Eu as [Epx _].
    destruct (sp_frame _ _ _ Hs x Hx Epx) as (Hvx & _ & _). fold m in Hvx.
    destruct (decide (frame m pd x = frame m pd va)) as [Ef|Ef].
    + pose proof (sp_inj _ _ _ Hs x va Hx ltac:(lia) Epx Hp Ef) as Eq.
      unfold s'. cbn. fold m. rewrite store_bytes_at, inside_false; [done|]. rewrite Ef.
      apply andb_false_iff in E. intros E'. destruct E; zbool; lia.
    + apply Hout. rewrite page_of_frame; [done|apply Hvx|done].
Qed.

Lemma usable_page m pd va va' :
  0 <= va < 2 ^ 32 -> 0 <= va' < 2 ^ 32 -> va / PGSIZE = va' / PGSIZE ->
  usable m pd va = usable m pd va' /\ frame m pd va = frame m pd va'.
Proof. intros. unfold usable, present, frame. by rewrite (entry_page m pd va va'). Qed.

Lemma copyout_loop_ok pd free fuel p va s :
  space_ok s pd free -> 0 <= va -> va + Z.of_nat (length p) <= KERNBASE ->
  (forall x, va <= x < va + Z.of_nat (length p) -> usable (kmemory s) pd x = true) -> (length p < fuel)%nat ->
  exists s', copyout_loop pd va p fuel s = Ok 0 s' /\ space_ok s' pd free
    /\ (forall x, entry (kmemory s') pd x = entry (kmemory s) pd x)
    /\ (forall x, 0 <= x < KERNBASE -> ubyte (kmemory s') pd x
         = if (va <=? x) && (x <? va + Z.of_nat (length p)) then p !! Z.to_nat (x - va)
           else ubyte (kmemory s) pd x).
Proof.
  revert p va s. induction fuel as [|fuel IH]; intros p va s Hs Hva Hk Hu Hfuel; [lia|]. cbn [copyout_loop].
  destruct p as [|b p'].
  { exists s. split_and!; auto. intros x Hx. cbn [length]. zcases; done. }
  set (p := b :: p') in *. assert (0 < Z.of_nat (length p)) as Hlen by (cbn; lia).
  rewrite (proj2 (Z.ltb_lt _ _)) by done. destruct (page_split va) as [Ev Hr].
  assert (KERNBASE < 2 ^ 32 - PGSIZE) as HK by (unfold KERNBASE, PGSIZE; lia).
  rewrite PGROUNDDOWN_eq by lia. set (va0 := va / PGSIZE * PGSIZE) in *. set (o := va mod PGSIZE) in *.
  assert (va0 / PGSIZE = va / PGSIZE) as Epg by (by apply Z.div_mul).
  assert (0 <= va0) as Hv0 by (apply Z.mul_nonneg_nonneg; [apply Z.div_pos|]; done).
  destruct (usable_page (kmemory s) pd va0 va ltac:(lia) ltac:(lia) Epg) as [Eu Ef].
  pose proof (Hu va ltac:(lia)) as Huv. rewrite <- Eu in Huv. unfold usable in Huv. apply andb_prop in Huv as [Hp0 Hu0].
  rewrite (bind_ok _ _ _ _ _ (uva2ka_ok s pd va0 (vm_dir _ _ _ (sp_vm _ _ _ Hs)) Hp0 Hu0)).
  destruct (sp_frame _ _ _ Hs va0 ltac:(lia) Hp0) as (Hv & _ & _).
  rewrite (proj2 (Z.eqb_neq _ _)) by (by apply valid_page_nz). rewrite Ef. replace (va - va0) with o by lia.
  set (n := Z.min (PGSIZE - o) (Z.of_nat (length p))).
  assert (length (take (Z.to_nat n) p) = Z.to_nat n) as Hln by (apply length_take_le; lia).
  destruct (put_user s pd free va (take (Z.to_nat n) p)) as (Hs1 & He1 & Hb1); auto; try (fold o; lia).
  { apply Hu. lia. }
  unfold put_bytes. erewrite bind_ok by reflexivity. fold o in Hs1, He1, Hb1.
  set (s1 := { s with kmemory ::= fun m => store_bytes m (frame m pd va + o) (take (Z.to_nat n) p) }) in *.
  change (copyout_loop pd (u32 (va0 + PGSIZE)) (drop (Z.to_nat n) p) fuel _)
    with (copyout_loop pd (u32 (va0 + PGSIZE)) (drop (Z.to_nat n) p) fuel s1). rewrite u32_small by lia.
  rewrite Hln in Hb1.
  destruct (decide (Z.of_nat (length p) <= PGSIZE - o)) as [Hfit|Hcross].
  - replace (Z.to_nat n) with (length p) in * by lia. rewrite drop_ge, take_ge in * by lia.
    exists s1. destruct fuel as [|fuel]; [lia|]. cbn. split_and!; auto.
  - assert (n = PGSIZE - o) as Hn by lia.
    destruct (IH (drop (Z.to_nat n) p) (va0 + PGSIZE) s1) as (s2 & E2 & Hs2 & He2 & Hb2); auto; try lia;
      rewrite ?length_drop; try (unfold PGSIZE in *; lia).
    { intros x Hx. unfold usable, present. rewrite He1. apply Hu. lia. }
    exists s2. split_and!; auto; [by intros x; rewrite He2|]. intros x Hx. rewrite Hb2, Hb1 by done.
    rewrite length_drop.
    zcases; first [done | rewrite lookup_drop; f_equal; lia | by rewrite lookup_take_lt by lia].
Qed.

(** C19: [copyout] writes user memory.  When every page from [va] to
    [va + length p] is mapped for the user, it returns 0, a user program then
    reads the bytes of [p] at [va] and the same bytes as before everywhere else,
    the mapping of every page is unchanged, and so is the pool of free pages. *)
Theorem copyout_writes s pd free va p :
  space_ok s pd free -> 0 <= va -> va + Z.of_nat (length p) <= KERNBASE ->
  (forall x, va <= x < va + Z.of_nat (length p) -> usable (kmemory s) pd x = true) ->
  exists s', copyout pd va p s = Ok 0 s' /\ space_ok s' pd free
    /\ (forall x, entry (kmemory s') pd x = entry (kmemory s) pd x)
    /\ (forall x, 0 <= x < KERNBASE -> ubyte (kmemory s') pd x
         = if (va <=? x) && (x <? va + Z.of_nat (length p)) then p !! Z.to_nat (x - va)
           else ubyte (kmemory s) pd x).
Proof. intros. apply copyout_loop_ok; auto. Qed.

(** [copyout] to a page that the user may not access.  If the page has a page
    table, [copyout] returns -1 and changes nothing; if it has none,
    [uva2ka] reads through the null pointer that [walkpgdir] returned. *)
Theorem copyout_bad_page s pd va p :
  dir_ok (kmemory s) pd -> 0 <= va < KERNBASE -> p <> [] -> usable (kmemory s) pd va = false ->
  copyout pd va p s = if has_tab (kmemory s) pd (PDX va) then Ok (-1) s else Fault.
Proof.
  intros Hd Hva Hp Hu. unfold copyout. cbn [copyout_loop]. destruct p as [|b p]; [done|].
  rewrite (proj2 (Z.ltb_lt _ _)) by (cbn; lia). assert (KERNBASE < 2 ^ 32) as HK by (unfold KERNBASE; lia).
  destruct (page_split va) as [Ev Hr]. rewrite PGROUNDDOWN_eq by lia. set (va0 := va / PGSIZE * PGSIZE) in *.
  assert (va0 / PGSIZE = va / PGSIZE) as Epg by (by apply Z.div_mul).
  assert (0 <= va0) as Hv0 by (apply Z.mul_nonneg_nonneg; [apply Z.div_pos|]; (done || lia)).
  destruct (usable_page (kmemory s) pd va0 va ltac:(lia) ltac:(lia) Epg) as [Eu _]. rewrite Hu in Eu.
  apply same_page in Epg as [Ed _]; [|lia|lia]. unfold uva2ka.
  destruct (has_tab (kmemory s) pd (PDX va)) eqn:Ht; rewrite <- Ed in Ht.
  - msimpl. rewrite (walk_found s pd va0 false Ht). pose proof (di_tab _ _ Hd _ (PDX_range va0) Ht) as [Hv _].
    apply valid_page_range in Hv. pose proof (PTX_range va0). unfold KERNLINK, KERNBASE, EXTMEM in Hv.
    cbn [bind_result]. unfold load_pte, load. rewrite (proj2 (Z.eqb_neq _ _)) by lia. msimpl.
    unfold usable, present, entry in Eu. rewrite Ht in Eu. destruct (has _ PTE_P); [|done].
    cbn [andb] in Eu. by rewrite Eu.
  - msimpl. by rewrite (walk_none s pd va0 Ht).
Qed.
End Directories.
