(* ===== verification/VmAlloc.v ===== *)
(** * Growing, shrinking, copying and freeing address spaces

    The theorems about [allocuvm], [deallocuvm], [freevm] and [copyuvm], on the
    description of address spaces of VmTheory.v. *)

From S2P Require Import Prelude CString Kalloc Vm VmTheory.
Open Scope Z_scope.

Section Spaces.
Context `{LinkerOk}.

(** ** Mapping one page *)
Lemma user_range : 0 < PGSIZE /\ KERNBASE < 2 ^ 32 - PGSIZE.
Proof. unfold KERNBASE, PGSIZE. lia. Qed.

Lemma page_alone a va : a mod PGSIZE = 0 -> va / PGSIZE = a / PGSIZE <-> a <= va < a + PGSIZE.
Proof.
  intros Ha. rewrite <- page_of_in by done. unfold page_of. pose proof (page_split a) as [E _]. rewrite Ha in E.
  split; [intros ->; lia|]. intros E'. unfold PGSIZE in *. lia.
Qed.

Lemma builds_sub pd s s' free free' taken q :
  builds pd s s' free free' taken -> q ∉ free -> ~ owns (kmemory s) pd q ->
  (q ∉ free') /\ ~ owns (kmemory s') pd q.
Proof.
  intros [_ -> Ho _] Hf Hn. rewrite elem_of_app in Hf. rewrite Ho. tauto.
Qed.

(** Memory outside the directory and the pool is untouched. *)
Lemma builds_mem pd s s' free free' taken x :
  builds pd s s' free free' taken -> page_of x ∉ free -> ~ owns (kmemory s) pd (page_of x) ->
  kmemory s' x = kmemory s x.
Proof. intros [_ -> _ Hm] Hf Hn. rewrite elem_of_app in Hf. apply Hm; tauto. Qed.

(** Address spaces whose entries do not change. *)
Lemma space_builds pd s s' free free' taken :
  space_ok s pd free -> builds pd s s' free free' taken ->
  (forall va, 0 <= va < KERNBASE -> entry (kmemory s') pd va = entry (kmemory s) pd va) ->
  space_ok s' pd free'.
Proof.
  intros [_ Hf Hi] Hb He. split; [apply Hb| |].
  - intros va Hva. unfold present, frame. rewrite He by done. intros Hp.
    destruct (Hf va Hva Hp) as (Hv & Ho & Hn). split; [done|].
    destruct (builds_sub _ _ _ _ _ _ _ Hb Hn Ho). done.
  - intros va va' Hva Hva'. unfold present, frame. rewrite !He by done. by apply Hi.
Qed.

(** [p], a page that belongs to nobody, becomes the user page at [a]; [m1] is
    the memory with the contents of [p] filled in. *)
Lemma install_page s pd free p a m1 perm :
  space_ok s pd free -> valid_page p -> p ∉ free -> ~ owns (kmemory s) pd p ->
  (forall va, 0 <= va < KERNBASE -> present (kmemory s) pd va = true -> frame (kmemory s) pd va <> p) ->
  (forall y, page_of y <> p -> m1 y = kmemory s y) ->
  a mod PGSIZE = 0 -> 0 <= a < KERNBASE -> present (kmemory s) pd a = false -> 0 <= perm < PGSIZE ->
  let s1 := { s with kmemory := m1 } in
  exists r s' free' taken, mappages pd a PGSIZE (V2P p) perm s1 = Ok r s'
    /\ builds pd s1 s' free free' taken /\ space_ok s' pd free'
    /\ (forall x, owns m1 pd x <-> owns (kmemory s) pd x)
    /\ (forall va, 0 <= va < 2 ^ 32 -> entry (kmemory s') pd va
         = if (r =? 0) && (va / PGSIZE =? a / PGSIZE) then V2P p + Z.lor perm PTE_P
           else entry (kmemory s) pd va)
    /\ (r = 0 /\ (length taken <= 1)%nat \/ r = -1 /\ free' = [])
    /\ (has_tab (kmemory s) pd (PDX a) = true \/ free <> [] -> r = 0).
Proof.
  intros Hs Hv Hnf Hno Hfr Hm Ha Hr Hnp Hperm s1. pose proof user_range as HK.
  destruct (V2P_range p Hv) as [HVr HVm]. pose proof (PDX_range a) as HPa.
  destruct (space_frame s m1 pd free Hs) as [Hs1 He1].
  { intros x [Hx|Hx]; apply Hm; intros E; rewrite E in Hx; done. }
  fold s1 in Hs1. destruct (dir_frame (kmemory s) m1 pd) as (_ & Hpde & _); [apply Hs| |].
  { intros x Hx. apply Hm. intros E. by rewrite E in Hx. }
  destruct (mappages_ok 0 s1 pd a (V2P p) perm free) as (r & s' & free' & taken & k & E & Hb & Hmap & Hk & Hen & Hlen);
    auto; try (unfold PGSIZE in *; lia); [apply Hs1| |].
  { intros x Hx. unfold s1. cbn. rewrite He1. rewrite (entry_page _ _ x a); [done|unfold PGSIZE in *; lia..|].
    apply page_alone; [done|lia]. }
  assert (forall va, 0 <= va < 2 ^ 32 -> entry (kmemory s') pd va
    = if (r =? 0) && (va / PGSIZE =? a / PGSIZE) then V2P p + Z.lor perm PTE_P else entry (kmemory s) pd va) as He.
  { intros va Hva. rewrite (Hmap va Hva). cbn. rewrite He1. destruct Hk as [[-> ->]|(-> & Hk & _)]; cbn.
    - zcases; lia.
    - replace k with 0%nat by lia. zcases; lia. }
  exists r, s', free', taken. split; [exact E|]. split; [done|].
  assert (forall x, owns m1 pd x <-> owns (kmemory s) pd x) as Hown by (intros x; by apply owns_ext).
  destruct Hk as [[-> _]|(-> & _ & ->)].
  - split; [|split_and!; auto].
    2: { left. split; [done|]. specialize (Hlen eq_refl). unfold tabs_needed in Hlen.
         rewrite Z.mul_0_r, Z.add_0_r in Hlen. destruct (has_tab _ _ _); lia. }
    destruct (new_entry (V2P p) perm HVm Hperm) as [_ Hfl].
    destruct (entry_parts (V2P p) (Z.lor perm PTE_P) HVm ltac:(lia) Hfl) as (Hsr & Had & _).
    pose proof (Hown p) as Hop. destruct (builds_sub _ _ _ _ _ _ p Hb Hnf) as [Hpf Hpo]; [by cbn; rewrite Hop|].
    split; [apply Hb| |].
    + intros va Hva. unfold present, frame. rewrite He by lia. cbn [Z.eqb andb].
      destruct (Z.eqb_spec (va / PGSIZE) (a / PGSIZE)); intros Hp.
      * rewrite Had, P2V_V2P by done. done.
      * destruct (sp_frame _ _ _ Hs va Hva Hp) as (Hv' & Ho' & Hf'). split; [done|].
        destruct (builds_sub _ _ _ _ _ _ (frame (kmemory s) pd va) Hb Hf'); [by cbn; rewrite Hown|done].
    + intros va va' Hva Hva'. unfold present, frame. rewrite !He by lia. cbn [Z.eqb andb].
      destruct (Z.eqb_spec (va / PGSIZE) (a / PGSIZE)) as [E1|E1], (Z.eqb_spec (va' / PGSIZE) (a / PGSIZE)) as [E2|E2];
        rewrite ?Had, ?P2V_V2P by done; intros Hp Hp' Ef; try congruence.
      * exfalso. by apply (Hfr va' Hva').
      * exfalso. by apply (Hfr va Hva).
      * by apply (sp_inj _ _ _ Hs).
  - split; [|split_and!; auto].
    + eapply space_builds; [exact Hs1|exact Hb|]. intros va Hva. rewrite He by lia. cbn [Z.eqb andb]. by cbn; rewrite He1.
    + intros Hen'. exfalso. specialize (Hen). unfold tabs_needed in Hen. rewrite Z.mul_0_r, Z.add_0_r in Hen.
      assert (-1 = 0); [|done]. apply Hen. unfold s1. cbn. unfold has_tab in *. rewrite Hpde by done.
      destruct Hen' as [->|Hne]; [cbv iota; lia|]. destruct free as [|q free0]; [done|]. cbn [length].
      clear. destruct (has _ PTE_P); lia.
Qed.

(** ** Unmapping *)

(** The address of the entry for [va]. *)
Definition pte_at (m : mem) (pd va : Z) : Z := tab m pd (PDX va) + 4 * PTX va.

Lemma pte_at_nz m pd va : dir_ok m pd -> has_tab m pd (PDX va) = true -> pte_at m pd va <> 0.
Proof.
  intros Hd Ht. destruct (di_tab _ _ Hd _ (PDX_range va) Ht) as [Hv _]. apply valid_page_range in Hv.
  pose proof (PTX_range va). unfold pte_at, KERNLINK, KERNBASE, EXTMEM in *. lia.
Qed.

Lemma entry_load m pd va : has_tab m pd (PDX va) = true -> load32 m (pte_at m pd va) = entry m pd va.
Proof. intros Ht. unfold entry, pte_at. by rewrite Ht. Qed.

(** A present user entry does not name page 0. *)
Lemma frame_pa e : valid_page (P2V (PTE_ADDR e)) -> PTE_ADDR e <> 0.
Proof.
  intros Hv E. rewrite E in Hv. apply valid_page_range in Hv. change (P2V 0) with KERNBASE in Hv. unfold KERNLINK, EXTMEM in Hv. lia.
Qed.

(** [kfree(v); *pte = 0;] for a user page that is present *)
Lemma remove_page s pd free va :
  space_ok s pd free -> 0 <= va < KERNBASE -> present (kmemory s) pd va = true ->
  let f := frame (kmemory s) pd va in
  exists s', (kfree f;; store (pte_at (kmemory s) pd va) 0) s = Ok tt s'
    /\ space_ok s' pd (f :: free)
    /\ (forall x, 0 <= x < 2 ^ 32 -> entry (kmemory s') pd x
         = if x / PGSIZE =? va / PGSIZE then 0 else entry (kmemory s) pd x)
    /\ (forall x, owns (kmemory s') pd x <-> owns (kmemory s) pd x)
    /\ (forall y, page_of y <> f -> ~ owns (kmemory s) pd (page_of y) -> kmemory s' y = kmemory s y).
Proof.
  intros Hs Hva Hp f. pose proof user_range as HK. destruct (sp_frame _ _ _ Hs va Hva Hp) as (Hv & Ho & Hf).
  fold f in Hv, Ho, Hf. pose proof (sp_vm _ _ _ Hs) as Hvm. pose proof (present_tab _ _ _ Hp) as Ht.
  destruct (kfree_ok s f free (vm_pool _ _ _ Hvm) Hv Hf) as (s1 & E1 & Hp1 & _ & Hm1).
  destruct (dir_frame (kmemory s) (kmemory s1) pd) as (Hd1 & Hpde1 & He1); [apply Hvm| |].
  { intros x Hx. apply Hm1. intros E. by rewrite E in Hx. }
  assert (forall x, owns (kmemory s1) pd x <-> owns (kmemory s) pd x) as Ho1 by (intros; by apply owns_ext).
  assert (vm_ok s1 pd (f :: free)) as Hvm1.
  { split; [done|done|]. intros q Hq%Ho1 [->|Hin]%elem_of_cons; [done|]. by apply (vm_apart _ _ _ Hvm q). }
  pose proof (PDX_range va) as Hi.
  assert (has_tab (kmemory s1) pd (PDX va) = true) as Ht1 by (unfold has_tab; by rewrite Hpde1).
  assert (pte_at (kmemory s) pd va = tab (kmemory s1) pd (PDX va) + 4 * PTX va) as Epte
    by (unfold pte_at, tab; by rewrite Hpde1).
  destruct (store_entry s1 pd va 0 (f :: free) Hvm1 ltac:(lia) Ht1) as (B & Hp2 & He2). rewrite <- Epte in B, Hp2, He2.
  eexists. split; [rewrite (bind_ok _ _ _ _ _ E1); reflexivity|]. cbv zeta in B, Hp2, He2.
  set (s2 := { s1 with kmemory ::= _ }) in *.
  assert (forall x, 0 <= x < 2 ^ 32 -> entry (kmemory s2) pd x
    = if x / PGSIZE =? va / PGSIZE then 0 else entry (kmemory s) pd x) as He.
  { intros x Hx. rewrite He2, He1 by done. done. }
  assert (forall x, owns (kmemory s2) pd x <-> owns (kmemory s) pd x) as Ho2.
  { intros x. rewrite <- Ho1. by apply owns_ext. }
  split_and!; [|done|done|].
  - split; [apply B| |].
    + intros x Hx. unfold present, frame. rewrite He by lia. case_bool; [done|]. zbool. intros Hpx.
      destruct (sp_frame _ _ _ Hs x Hx Hpx) as (Hvx & Hox & Hfx). split; [done|]. split; [by rewrite Ho2|].
      intros [E|Hin]%elem_of_cons; [|done].
      match goal with H : _ / _ <> _ |- _ => apply H end. by apply (sp_inj _ _ _ Hs).
    + intros x x' Hx Hx'. unfold present, frame. rewrite !He by lia.
      do 2 (case_bool; [done|]). by apply (sp_inj _ _ _ Hs).
  - intros y Hy Hny. rewrite <- (Hm1 y Hy). apply (bu_mem _ _ _ _ _ _ B); [by rewrite Ho1|apply not_elem_of_nil].
Qed.

(** The entries of a range of user pages that have been unmapped. *)
Definition unmapped (m m' : mem) (pd a b : Z) : Prop :=
  forall x, 0 <= x < KERNBASE -> entry m' pd x
    = if (a <=? page_of x) && (page_of x <? b) && present m pd x then 0 else entry m pd x.

(** What unmapping the user pages of [a, b) does. *)
Record frees (pd : Z) (s s' : kmem) (free freed : list Z) (a b : Z) : Prop := {
  fr_ok : space_ok s' pd (freed ++ free);
  fr_entries : unmapped (kmemory s) (kmemory s') pd a b;
  fr_owns : forall q, owns (kmemory s') pd q <-> owns (kmemory s) pd q;
  fr_freed : forall q, q ∈ freed <-> exists x, 0 <= x < KERNBASE /\ a <= page_of x < b
                /\ present (kmemory s) pd x = true /\ q = frame (kmemory s) pd x;
  fr_mem : forall y, page_of y ∉ freed -> ~ owns (kmemory s) pd (page_of y) -> kmemory s' y = kmemory s y;
}.

(** Nothing to unmap between [a] and [a']. *)
Lemma frees_skip pd s s' free freed a a' b :
  a <= a' -> (forall x, 0 <= x < KERNBASE -> a <= page_of x < a' -> present (kmemory s) pd x = false) ->
  frees pd s s' free freed a' b -> frees pd s s' free freed a b.
Proof.
  intros Haa Hno [H1 H2 H3 H4 H5]. split; auto.
  - intros x Hx. rewrite (H2 x Hx). destruct (decide (a <= page_of x < a')) as [Hin|Hout].
    + rewrite (Hno x Hx Hin), !andb_false_r. done.
    + zcases; done.
  - intros q. rewrite H4. split; intros (x & Hx & Hr & Hp & ->); exists x; split_and!; auto; try lia.
    destruct (decide (page_of x < a')); [|lia]. rewrite (Hno x Hx) in Hp; [done|lia].
Qed.

Lemma dealloc_done pd s free a b fuel :
  space_ok s pd free -> b <= a -> dealloc_loop pd a b (S fuel) s = Ok tt s /\ frees pd s s free [] a b.
Proof.
  intros Hs Hab. cbn [dealloc_loop]. rewrite (proj2 (Z.ltb_ge _ _)) by done. split; [done|].
  split; auto.
  - intros x Hx. zcases; done.
  - intros q. split; [by intros ?%not_elem_of_nil|]. intros (x & _ & ? & _). lia.
Qed.

(** One page. *)
Lemma frees_cons pd s s1 s2 free freed va b :
  space_ok s pd free -> va mod PGSIZE = 0 -> 0 <= va < b -> b <= KERNBASE ->
  present (kmemory s) pd va = true ->
  (forall x, 0 <= x < 2 ^ 32 -> entry (kmemory s1) pd x
     = if x / PGSIZE =? va / PGSIZE then 0 else entry (kmemory s) pd x) ->
  (forall x, owns (kmemory s1) pd x <-> owns (kmemory s) pd x) ->
  (forall y, page_of y <> frame (kmemory s) pd va -> ~ owns (kmemory s) pd (page_of y) ->
     kmemory s1 y = kmemory s y) ->
  frees pd s1 s2 (frame (kmemory s) pd va :: free) freed (va + PGSIZE) b ->
  frees pd s s2 free (freed ++ [frame (kmemory s) pd va]) va b.
Proof.
  intros Hs Ha Hva Hb Hp He Ho Hm [H1 H2 H3 H4 H5]. pose proof user_range as HK.
  pose proof (fun x => page_alone va x Ha) as Hpa.
  assert (forall x, page_of x = va <-> x / PGSIZE = va / PGSIZE) as Hpo.
  { intros x. rewrite page_of_in by done. by rewrite Hpa. }
  assert (forall x, 0 <= x < KERNBASE -> x / PGSIZE = va / PGSIZE ->
    present (kmemory s) pd x = true /\ frame (kmemory s) pd x = frame (kmemory s) pd va) as Hsame.
  { intros x Hx E. unfold present, frame. rewrite (entry_page _ _ x va) by (lia || done). done. }
  assert (forall x, page_of x <> va -> va <= page_of x -> va + PGSIZE <= page_of x) as Hnext.
  { intros x Hne Hle. pose proof (page_split x) as [Ex Hrx]. unfold page_of in *.
    pose proof (Hpa (x / PGSIZE * PGSIZE)) as Hq. rewrite Z.div_mul in Hq by done.
    destruct (decide (x / PGSIZE * PGSIZE < va + PGSIZE)); [|lia]. exfalso. apply Hne. apply Hpo. apply Hq. lia. }
  split.
  - by rewrite <- (assoc_L (++)).
  - intros x Hx. rewrite (H2 x Hx). unfold present. rewrite He by lia. destruct (Z.eqb_spec (x / PGSIZE) (va / PGSIZE)) as [E|E].
    + destruct (Hsame x Hx E) as [Hpx _]. unfold present in Hpx. rewrite Hpx.
      apply Hpo in E. rewrite E. zcases; done.
    + assert (page_of x <> va) as Hne by (by rewrite Hpo).
      replace ((va + PGSIZE <=? page_of x)) with (va <=? page_of x); [done|].
      pose proof (Hnext x Hne). zcases; done || lia.
  - intros q. by rewrite H3.
  - intros q. rewrite elem_of_app, list_elem_of_singleton, H4. split.
    + intros [(x & Hx & Hr & Hpx & ->)| ->].
      * exists x. unfold present, frame in *. rewrite He in * by lia.
        destruct (x / PGSIZE =? va / PGSIZE); [done|]. split_and!; auto; lia.
      * exists va. assert (page_of va = va) by (by apply Hpo). split_and!; auto; lia.
    + intros (x & Hx & Hr & Hpx & ->). destruct (decide (x / PGSIZE = va / PGSIZE)) as [E|E].
      * right. by apply Hsame.
      * left. exists x. unfold present, frame in *. rewrite He by lia. rewrite (proj2 (Z.eqb_neq _ _) E).
        split_and!; auto; try lia. apply Hnext; [by rewrite Hpo|lia].
  - intros y Hy Hno. rewrite elem_of_app, list_elem_of_singleton in Hy. rewrite H5, Hm; auto. by rewrite Ho.
Qed.

(** [a = PGADDR(PDX(a) + 1, 0, 0) - PGSIZE], and the [a += PGSIZE] that follows *)
Lemma next_table a :
  0 <= a < KERNBASE ->
  u32 (u32 (PGADDR (PDX a + 1) 0 0 - PGSIZE) + PGSIZE) = (PDX a + 1) * 2 ^ 22.
Proof.
  intros Ha. rewrite u32_add_l. rewrite PDX_eq by (unfold KERNBASE in *; lia).
  assert (0 <= a / 2 ^ 22 < 512).
  { split; [apply Z.div_pos; lia|]. apply Z.div_lt_upper_bound; unfold KERNBASE in *; lia. }
  unfold PGADDR, PDXSHIFT. rewrite Z.shiftl_0_l, !Z.lor_0_r, Z.shiftl_mul_pow2 by lia.
  rewrite (u32_small (_ * _)) by lia. replace (_ - PGSIZE + PGSIZE) with ((a / 2 ^ 22 + 1) * 2 ^ 22) by lia.
  apply u32_small. lia.
Qed.

Lemma same_table a x :
  0 <= a < KERNBASE -> 0 <= x < KERNBASE -> a <= page_of x < (PDX a + 1) * 2 ^ 22 -> PDX x = PDX a.
Proof.
  unfold KERNBASE. intros Ha Hx Hp. pose proof (page_split x) as [Ex Hr]. unfold page_of in Hp.
  rewrite !PDX_eq in * by lia. unfold PGSIZE in *.
  pose proof (Z.div_mod a (2 ^ 22)). pose proof (Z.mod_pos_bound a (2 ^ 22)).
  symmetry. apply Z.div_unique with (x - a / 2 ^ 22 * 2 ^ 22); lia.
Qed.

Lemma dealloc_loop_ok fuel s pd free a b :
  space_ok s pd free -> 0 <= a -> a mod PGSIZE = 0 -> b <= KERNBASE ->
  b - a + PGSIZE <= PGSIZE * Z.of_nat fuel -> (1 <= fuel)%nat ->
  exists s' freed, dealloc_loop pd a b fuel s = Ok tt s' /\ frees pd s s' free freed a b.
Proof.
  revert s free a. induction fuel as [|fuel IH]; intros s free a Hs Ha0 Ha Hb Hfuel H1; [lia|].
  destruct (decide (a < b)) as [Hlt|Hge].
  2: { destruct (dealloc_done pd s free a b fuel Hs) as [E Hf]; [lia|]. eauto. }
  pose proof user_range as HK. cbn [dealloc_loop]. rewrite (proj2 (Z.ltb_lt _ _)) by done.
  pose proof (vm_dir _ _ _ (sp_vm _ _ _ Hs)) as Hd.
  assert (forall x, 0 <= x < KERNBASE -> a <= page_of x < a + PGSIZE -> entry (kmemory s) pd x = entry (kmemory s) pd a) as Hpg.
  { intros x Hx Hpx. apply entry_page; [lia..|]. apply page_alone; [done|].
    pose proof (page_split x) as [Ex Hrx]. unfold page_of in Hpx.
    pose proof (page_alone a (x / PGSIZE * PGSIZE) Ha) as Hq. rewrite Z.div_mul in Hq by done.
    apply Hq in Hpx. by apply page_alone. }
  assert ((a + PGSIZE) mod PGSIZE = 0) as Ha' by (rewrite Z.add_mod, Ha; done).
  destruct (has_tab (kmemory s) pd (PDX a)) eqn:Ht.
  - rewrite (bind_ok _ _ _ _ _ (walk_found s pd a false Ht)).
    fold (pte_at (kmemory s) pd a). pose proof (pte_at_nz _ _ _ Hd Ht) as Hnz.
    rewrite (proj2 (Z.eqb_neq _ _) Hnz). unfold load. erewrite bind_ok by reflexivity.
    rewrite (entry_load _ _ _ Ht). fold (present (kmemory s) pd a). rewrite (u32_small (a + PGSIZE)) by lia.
    destruct (present (kmemory s) pd a) eqn:Hp.
    + destruct (sp_frame _ _ _ Hs a ltac:(lia) Hp) as (Hv & _ & _).
      rewrite (proj2 (Z.eqb_neq _ _) (frame_pa _ Hv)). fold (frame (kmemory s) pd a).
      destruct (remove_page s pd free a Hs ltac:(lia) Hp) as (s1 & E1 & Hs1 & He1 & Ho1 & Hm1).
      rewrite (bind_ok _ _ _ _ _ E1).
      destruct (IH s1 (frame (kmemory s) pd a :: free) (a + PGSIZE)) as (s2 & freed & E2 & Hf2);
        auto; try (unfold PGSIZE in *; lia).
      exists s2, (freed ++ [frame (kmemory s) pd a]). split; [exact E2|]. by apply (frees_cons pd s s1).
    + erewrite bind_ok by reflexivity.
      destruct (IH s free (a + PGSIZE)) as (s2 & freed & E2 & Hf2); auto; try (unfold PGSIZE in *; lia).
      exists s2, freed. split; [exact E2|]. apply (frees_skip pd s s2 free freed a (a + PGSIZE)); [lia| |done].
      intros x Hx Hpx. unfold present. by rewrite Hpg.
  - rewrite (bind_ok _ _ _ _ _ (walk_none s pd a Ht)). cbn [Z.eqb]. rewrite next_table by lia.
    assert (a < (PDX a + 1) * 2 ^ 22) as Hjump.
    { rewrite PDX_eq by lia. pose proof (Z.div_mod a (2 ^ 22)). pose proof (Z.mod_pos_bound a (2 ^ 22)). lia. }
    assert ((PDX a + 1) * 2 ^ 22 mod PGSIZE = 0) as Hal.
    { change (2 ^ 22) with (1024 * PGSIZE). rewrite Z.mul_assoc. by apply Z.mod_mul. }
    assert (a + PGSIZE <= (PDX a + 1) * 2 ^ 22) as Hstep.
    { pose proof (page_sub a ((PDX a + 1) * 2 ^ 22) Ha Hal).
      assert (0 < ((PDX a + 1) * 2 ^ 22 - a) / PGSIZE); [|unfold PGSIZE in *; lia].
      destruct (decide (0 < ((PDX a + 1) * 2 ^ 22 - a) / PGSIZE)); [done|]. unfold PGSIZE in *. lia. }
    destruct (IH s free ((PDX a + 1) * 2 ^ 22)) as (s2 & freed & E2 & Hf2); auto; try (unfold PGSIZE in *; lia).
    exists s2, freed. split; [exact E2|]. eapply frees_skip; [| |exact Hf2]; [lia|].
    intros x Hx Hpx. unfold present, entry. rewrite (same_table a x); auto; [by rewrite Ht|lia].
Qed.

Lemma deallocuvm_ok s pd free oldsz newsz :
  space_ok s pd free -> 0 <= newsz < oldsz -> oldsz <= KERNBASE ->
  exists s' freed, deallocuvm pd oldsz newsz s = Ok newsz s'
    /\ frees pd s s' free freed (PGROUNDUP newsz) oldsz.
Proof.
  intros Hs Hn Ho. pose proof user_range as HK. unfold deallocuvm. rewrite (proj2 (Z.leb_gt _ _)) by lia.
  rewrite PGROUNDUP_eq by lia. set (a := (newsz + PGSIZE - 1) / PGSIZE * PGSIZE).
  assert (0 <= a) as Ha by (apply Z.mul_nonneg_nonneg; [apply Z.div_pos|]; lia).
  destruct (dealloc_loop_ok (S (Z.to_nat (oldsz / PGSIZE) + 1)) s pd free a oldsz) as (s' & freed & E & Hf); auto.
  - by apply Z.mod_mul.
  - rewrite Nat2Z.inj_succ, Nat2Z.inj_add, Z2Nat.id by (apply Z.div_pos; lia).
    pose proof (Z.div_mod oldsz PGSIZE). pose proof (Z.mod_pos_bound oldsz PGSIZE). unfold PGSIZE in *. lia.
  - lia.
  - exists s', freed. by rewrite (bind_ok _ _ _ _ _ E).
Qed.

Lemma page_of_le x : 0 <= x -> 0 <= page_of x <= x.
Proof.
  intros Hx. destruct (page_split x) as [Ex Hr]. unfold page_of.
  assert (0 <= x / PGSIZE) by (by apply Z.div_pos). unfold PGSIZE in *. lia.
Qed.

(** ** Freeing *)
Definition free_tab (pd : Z) (i : nat) : M kmem unit :=
  e ← load (pd + 4 * Z.of_nat i);
  when (has e PTE_P) (kfree (P2V (PTE_ADDR e))).

(** The loop of [freevm], over the indices from [k] on; the directory itself is
    as in the memory [m]. *)
Lemma free_tabs_ok m pd n k s free :
  dir_ok m pd -> pool_ok s free -> (k + n = 1024)%nat ->
  (forall y, page_of y = pd -> kmemory s y = m y) -> pd ∉ free ->
  (forall i, Z.of_nat k <= i < 1024 -> has_tab m pd i = true -> tab m pd i ∉ free) ->
  exists s' freed, for_each (seq k n) (free_tab pd) s = Ok tt s' /\ pool_ok s' (freed ++ free)
    /\ (pd ∉ freed)
    /\ (forall q, q ∈ freed <-> exists i, Z.of_nat k <= i < 1024 /\ has_tab m pd i = true /\ q = tab m pd i).
Proof.
  intros Hd. revert k s free. induction n as [|n IH]; intros k s free Hp Hkn Hm Hpf Ht; cbn [seq for_each].
  { exists s, []. split_and!; auto; [apply not_elem_of_nil|]. intros q. split; [by intros ?%not_elem_of_nil|].
    intros (i & ? & _). lia. }
  assert (load32 (kmemory s) (pd + 4 * Z.of_nat k) = pde m pd (Z.of_nat k)) as El.
  { apply load32_page; [apply (di_page _ _ Hd)|lia|]. intros x Hx. by apply Hm. }
  destruct (has_tab m pd (Z.of_nat k)) eqn:Eh.
  - destruct (di_tab _ _ Hd (Z.of_nat k) ltac:(lia) Eh) as [Hv Hne].
    destruct (kfree_ok s (tab m pd (Z.of_nat k)) free Hp Hv) as (s1 & E1 & Hp1 & _ & Hm1); [apply Ht; [lia|done]|].
    destruct (IH (S k) s1 (tab m pd (Z.of_nat k) :: free)) as (s2 & freed & E2 & Hp2 & Hpd & Hf); auto; try lia.
    + intros y Hy. rewrite Hm1, Hm by congruence. done.
    + intros [E|?]%elem_of_cons; [by symmetry in E|done].
    + intros i Hi Hh [E|Hin]%elem_of_cons; [|by apply (Ht i); [lia|..]].
      assert (i = Z.of_nat k); [|lia]. apply (di_inj _ _ Hd); auto; lia.
    + exists s2, (freed ++ [tab m pd (Z.of_nat k)]). split.
      { erewrite bind_ok; [exact E2|]. unfold free_tab, load. msimpl. rewrite El. fold (has_tab m pd (Z.of_nat k)). rewrite Eh. exact E1. }
      rewrite <- (assoc_L (++)). split_and!; auto.
      * rewrite elem_of_app, list_elem_of_singleton. intros [?|E]; [done|]. by symmetry in E.
      * intros q. rewrite elem_of_app, list_elem_of_singleton, Hf. split.
        -- intros [(i & Hi & Hh & ->)| ->]; [exists i|exists (Z.of_nat k)]; split_and!; auto; lia.
        -- intros (i & Hi & Hh & ->). destruct (decide (i = Z.of_nat k)) as [->|Hni]; [by right|].
           left. exists i. split_and!; auto; lia.
  - destruct (IH (S k) s free) as (s2 & freed & E2 & Hp2 & Hpd & Hf); auto; try lia.
    { intros i Hi. apply Ht. lia. }
    exists s2, freed. split.
    { erewrite bind_ok; [exact E2|]. unfold free_tab, load. msimpl. rewrite El.
      fold (has_tab m pd (Z.of_nat k)). by rewrite Eh. }
    split_and!; auto. intros q. rewrite Hf. split; intros (i & Hi & Hh & ->); exists i; split_and!; auto; try lia.
    destruct (decide (i = Z.of_nat k)) as [->|]; [congruence|lia].
Qed.

(** C18: [freevm] gives back everything.  Freeing an address space returns to the
    pool exactly the page directory, its page tables and the pages of the user
    half; each of them once. *)
Theorem freevm_frees s pd free :
  space_ok s pd free ->
  exists s' freed, freevm pd s = Ok tt s' /\ pool_ok s' (freed ++ free)
    /\ (forall q, q ∈ freed <-> owns (kmemory s) pd q
          \/ exists x, 0 <= x < KERNBASE /\ present (kmemory s) pd x = true /\ q = frame (kmemory s) pd x).
Proof.
  intros Hs. pose proof (vm_dir _ _ _ (sp_vm _ _ _ Hs)) as Hd. pose proof user_range as HK.
  unfold freevm. rewrite (proj2 (Z.eqb_neq _ _)) by (apply valid_page_nz, Hd).
  destruct (deallocuvm_ok s pd free KERNBASE 0 Hs) as (s1 & freed1 & E1 & F1); [unfold KERNBASE; lia|lia|].
  rewrite (bind_ok _ _ _ _ _ E1). change (PGROUNDUP 0) with 0 in F1.
  pose proof (fr_ok _ _ _ _ _ _ _ F1) as Hs1. pose proof (sp_vm _ _ _ Hs1) as Hvm1.
  pose proof (vm_dir _ _ _ Hvm1) as Hd1.
  destruct (free_tabs_ok (kmemory s1) pd 1024 0 s1 (freed1 ++ free) Hd1) as (s2 & freed2 & E2 & Hp2 & Hpd & Hf2).
  { apply Hvm1. } { done. } { done. } { apply (vm_apart _ _ _ Hvm1). by left. }
  { intros i Hi Hh. apply (vm_apart _ _ _ Hvm1). right. exists i. split_and!; auto; lia. }
  rewrite (bind_ok _ _ _ _ _ E2).
  destruct (kfree_ok s2 pd (freed2 ++ freed1 ++ free) Hp2 (di_page _ _ Hd)) as (s3 & E3 & Hp3 & _).
  { rewrite elem_of_app. intros [?|Hin]; [done|]. apply (vm_apart _ _ _ Hvm1 pd); [by left|done]. }
  exists s3, (pd :: freed2 ++ freed1). split; [exact E3|]. split; [by cbn; rewrite <- (assoc_L (++))|].
  intros q. rewrite elem_of_cons, elem_of_app, Hf2, (fr_freed _ _ _ _ _ _ _ F1), <- (fr_owns _ _ _ _ _ _ _ F1).
  unfold owns. split.
  - intros [->|[(i & Hi & Hh & ->)|(x & Hx & _ & Hp & ->)]]; [by left; left|left; right|right]; eauto 10.
  - intros [[->|(i & Hi & Hh & ->)]|(x & Hx & Hp & ->)]; [by left|right; left; eauto 10|right; right].
    exists x. assert (0 <= page_of x <= x) as Hpo by (apply page_of_le; lia). split_and!; auto; lia.
Qed.

(** ** Growing *)

(** User bytes depend on the entry and on the page it maps. *)
Lemma ubyte_ext m m' pd x :
  entry m' pd x = entry m pd x ->
  (present m pd x = true -> m' (frame m pd x + x mod PGSIZE) = m (frame m pd x + x mod PGSIZE)) ->
  ubyte m' pd x = ubyte m pd x.
Proof.
  intros He Hm. unfold ubyte, present, frame in *. rewrite He.
  destruct (has (entry m pd x) PTE_P); [|done]. cbn [andb]. by rewrite Hm.
Qed.

Lemma frame_page s pd free x :
  space_ok s pd free -> 0 <= x < KERNBASE -> present (kmemory s) pd x = true ->
  page_of (frame (kmemory s) pd x + x mod PGSIZE) = frame (kmemory s) pd x.
Proof.
  intros Hs Hx Hp. destruct (sp_frame _ _ _ Hs x Hx Hp) as ([Hm _] & _). apply page_of_frame; [done|].
  apply page_split.
Qed.

(** Unmapping [a, b) leaves the rest of user memory as it was. *)
Lemma frees_ubyte pd s s' free freed a b x :
  space_ok s pd free -> frees pd s s' free freed a b -> 0 <= x < KERNBASE ->
  ubyte (kmemory s') pd x
  = if (a <=? page_of x) && (page_of x <? b) && present (kmemory s) pd x then None else ubyte (kmemory s) pd x.
Proof.
  intros Hs F Hx. pose proof (fr_entries _ _ _ _ _ _ _ F x Hx) as He.
  destruct ((a <=? page_of x) && (page_of x <? b) && present (kmemory s) pd x) eqn:E.
  - unfold ubyte, present. by rewrite He.
  - apply ubyte_ext; [done|]. intros Hp. destruct (sp_frame _ _ _ Hs x Hx Hp) as (_ & Ho & _).
    apply (fr_mem _ _ _ _ _ _ _ F); rewrite (frame_page s pd free) by done; [|done].
    intros (x' & Hx' & Hr & Hp' & Ef)%(fr_freed _ _ _ _ _ _ _ F).
    assert (x / PGSIZE = x' / PGSIZE) as Eq by (by apply (sp_inj _ _ _ Hs)).
    unfold page_of in *. rewrite Eq, Hp in E.
    rewrite (proj2 (Z.leb_le _ _)), (proj2 (Z.ltb_lt _ _)) in E by lia. done.
Qed.

(** A page [p] filled by [m1] and mapped at [a] with the permissions [perm]. *)
Lemma install_ubyte s pd free p a m1 perm r s' free' taken x :
  space_ok s pd free -> valid_page p -> p ∉ free -> ~ owns (kmemory s) pd p ->
  (forall va, 0 <= va < KERNBASE -> present (kmemory s) pd va = true -> frame (kmemory s) pd va <> p) ->
  (forall y, page_of y <> p -> m1 y = kmemory s y) -> 0 <= perm < PGSIZE -> 0 <= a < KERNBASE ->
  builds pd { s with kmemory := m1 } s' free free' taken ->
  (forall x, owns m1 pd x <-> owns (kmemory s) pd x) ->
  (forall va, 0 <= va < 2 ^ 32 -> entry (kmemory s') pd va
     = if (r =? 0) && (va / PGSIZE =? a / PGSIZE) then V2P p + Z.lor perm PTE_P else entry (kmemory s) pd va) ->
  0 <= x < KERNBASE ->
  ubyte (kmemory s') pd x
  = if (r =? 0) && (x / PGSIZE =? a / PGSIZE)
    then (if Z.testbit perm 2 then Some (m1 (p + x mod PGSIZE)) else None) else ubyte (kmemory s) pd x.
Proof.
  intros Hs Hv Hnf Hno Hfr Hm Hperm Ha Hb Hown He Hx. pose proof user_range as HK.
  specialize (He x ltac:(lia)). destruct (V2P_range p Hv) as [HVr HVm]. destruct (page_split x) as [_ Hrx].
  destruct ((r =? 0) && (x / PGSIZE =? a / PGSIZE)).
  - destruct (new_entry (V2P p) perm HVm Hperm) as [_ Hfl].
    destruct (entry_parts (V2P p) (Z.lor perm PTE_P) HVm ltac:(lia) Hfl) as (_ & Had & _).
    unfold ubyte, present, frame. rewrite He, Had, P2V_V2P by done.
    change PTE_P with (2 ^ 0) at 2. change PTE_U with (2 ^ 2). rewrite !flags_bit by (done || lia).
    rewrite !Z.lor_spec. change (Z.testbit PTE_P 0) with true. change (Z.testbit PTE_P 2) with false.
    rewrite orb_true_r, orb_false_r. cbn [andb]. destruct (Z.testbit perm 2); [|done]. f_equal.
    apply (builds_mem _ _ _ _ _ _ _ Hb); rewrite page_of_frame; auto; [apply Hv|by cbn; rewrite Hown|apply Hv].
  - apply ubyte_ext; [done|]. intros Hp. destruct (sp_frame _ _ _ Hs x Hx Hp) as (_ & Ho & Hf).
    rewrite (builds_mem _ _ _ _ _ _ _ Hb); cbn; rewrite ?(frame_page s pd free) by done; auto.
    + apply Hm. rewrite (frame_page s pd free) by done. by apply Hfr.
    + by rewrite Hown.
Qed.

(** The state after [kalloc] has taken the page [p]. *)
Lemma space_kalloc s s1 pd p free :
  space_ok s pd (p :: free) -> pool_ok s1 free -> kmemory s1 = kmemory s ->
  space_ok s1 pd free /\ valid_page p /\ (p ∉ free) /\ ~ owns (kmemory s) pd p
  /\ (forall va, 0 <= va < KERNBASE -> present (kmemory s) pd va = true -> frame (kmemory s) pd va <> p).
Proof.
  intros Hs Hp Hm. pose proof (sp_vm _ _ _ Hs) as Hvm. pose proof (vm_pool _ _ _ Hvm) as [_ Hpg Hnd].
  apply list.NoDup_cons in Hnd as [Hnp _]. apply list.Forall_cons in Hpg as [Hv _].
  split_and!; auto.
  - split; rewrite ?Hm.
    + split; rewrite ?Hm; [done|apply Hvm|]. intros q Hq Hin. apply (vm_apart _ _ _ Hvm q Hq). by right.
    + intros va Hva Hpv. destruct (sp_frame _ _ _ Hs va Hva Hpv) as (? & ? & Hnf). split_and!; auto.
      intros Hin. apply Hnf. by right.
    + apply Hs.
  - intros Ho. apply (vm_apart _ _ _ Hvm p Ho). left.
  - intros va Hva Hpv E. destruct (sp_frame _ _ _ Hs va Hva Hpv) as (_ & _ & Hnf). apply Hnf. rewrite E. left.
Qed.

(** Freeing a page that is no part of the address space. *)
Lemma space_kfree s pd free p :
  space_ok s pd free -> valid_page p -> p ∉ free -> ~ owns (kmemory s) pd p ->
  (forall va, 0 <= va < KERNBASE -> present (kmemory s) pd va = true -> frame (kmemory s) pd va <> p) ->
  exists s', kfree p s = Ok tt s' /\ space_ok s' pd (p :: free)
    /\ (forall x, 0 <= x < KERNBASE -> ubyte (kmemory s') pd x = ubyte (kmemory s) pd x).
Proof.
  intros Hs Hv Hnf Hno Hfr. pose proof (sp_vm _ _ _ Hs) as Hvm.
  destruct (kfree_ok s p free (vm_pool _ _ _ Hvm) Hv Hnf) as (s1 & E1 & Hp1 & _ & Hm1).
  destruct (dir_frame (kmemory s) (kmemory s1) pd) as (Hd1 & Hpde1 & He1); [apply Hvm| |].
  { intros x Hx. apply Hm1. intros E. by rewrite E in Hx. }
  assert (forall x, owns (kmemory s1) pd x <-> owns (kmemory s) pd x) as Ho1 by (intros; by apply owns_ext).
  exists s1. split_and!; [done| |].
  - split.
    + split; [done|done|]. intros q Hq%Ho1 [->|Hin]%elem_of_cons; [done|]. by apply (vm_apart _ _ _ Hvm q).
    + intros va Hva. unfold present, frame. rewrite He1. intros Hp.
      destruct (sp_frame _ _ _ Hs va Hva Hp) as (? & ? & Hf). split_and!; [done|by rewrite Ho1|].
      intros [E|?]%elem_of_cons; [by apply (Hfr va Hva Hp)|done].
    + intros va va' Hva Hva'. unfold present, frame. rewrite !He1. by apply (sp_inj _ _ _ Hs).
  - intros x Hx. apply ubyte_ext; [done|]. intros Hp. apply Hm1. rewrite (frame_page s pd free) by done.
    by apply Hfr.
Qed.

Lemma memset_page m p y : page_of y <> p -> p mod PGSIZE = 0 -> memset m p 0 PGSIZE y = m y.
Proof.
  intros Hy Hp. rewrite memset_sets by done. case_bool; [|done]. zbool. exfalso. apply Hy.
  apply page_of_in; [done|lia].
Qed.
Lemma memset_in_page m p k : 0 <= k < PGSIZE -> memset m p 0 PGSIZE (p + k) = 0.
Proof. intros Hk. rewrite memset_sets by done. zcases. done. Qed.

(** [x] lies in a page from [a0] on that starts before [b]. *)
Definition in_pages (a0 b x : Z) : bool := (a0 <=? page_of x) && (page_of x <? b).

Lemma in_pages_step a0 a x :
  a mod PGSIZE = 0 -> a0 <= a -> in_pages a0 (a + PGSIZE) x = in_pages a0 a x || (x / PGSIZE =? a / PGSIZE).
Proof.
  intros Ha Hle. unfold in_pages. pose proof (page_alone a x Ha) as Hpa. pose proof (page_of_in x a Ha) as Hpo.
  pose proof (page_alone a (page_of x) Ha) as Hpp. unfold page_of at 1 in Hpp. rewrite Z.div_mul in Hpp by done.
  destruct (Z.eqb_spec (x / PGSIZE) (a / PGSIZE)) as [E|E].
  - apply Hpa, Hpo in E. rewrite E. unfold PGSIZE. by zcases.
  - rewrite orb_false_r. unfold PGSIZE in *. zcases; try done; lia.
Qed.

(** Rolling back a failed [allocuvm]. *)
Lemma alloc_rollback s0 s pd free oldsz newsz a :
  space_ok s pd free -> 0 <= oldsz < newsz -> newsz < KERNBASE ->
  (forall x, 0 <= x < KERNBASE -> ubyte (kmemory s) pd x
     = if in_pages (PGROUNDUP oldsz) a x then Some 0 else ubyte s0 pd x) ->
  (forall x, 0 <= x < KERNBASE -> in_pages (PGROUNDUP oldsz) newsz x = true -> ubyte s0 pd x = None) ->
  a <= newsz ->
  exists s' free', deallocuvm pd newsz oldsz s = Ok oldsz s' /\ space_ok s' pd free'
    /\ (exists freed, frees pd s s' free freed (PGROUNDUP oldsz) newsz /\ free' = freed ++ free)
    /\ (forall x, 0 <= x < KERNBASE -> ubyte (kmemory s') pd x = ubyte s0 pd x).
Proof.
  intros Hs Ho Hn Hub Hnone Han.
  destruct (deallocuvm_ok s pd free newsz oldsz Hs Ho ltac:(lia)) as (s' & freed & E & F).
  exists s', (freed ++ free). split; [exact E|]. split; [apply F|]. split; [eauto|].
  intros x Hx. rewrite (frees_ubyte _ _ _ _ _ _ _ x Hs F Hx). fold (in_pages (PGROUNDUP oldsz) newsz x).
  destruct (in_pages (PGROUNDUP oldsz) newsz x) eqn:Ein; cbn [andb].
  - rewrite (Hnone x Hx Ein). destruct (present (kmemory s) pd x) eqn:Ep; [done|].
    unfold ubyte. by rewrite Ep.
  - rewrite Hub by done. replace (in_pages (PGROUNDUP oldsz) a x) with false; [done|].
    unfold in_pages in *. symmetry. apply andb_false_iff. apply andb_false_iff in Ein. destruct Ein; [auto|].
    right. zbool. lia.
Qed.

Lemma fill_run a c n s : fill a c n s = Ok tt { s with kmemory := memset (kmemory s) a c n }.
Proof. reflexivity. Qed.

Lemma user_perm : 0 <= Z.lor PTE_W PTE_U < PGSIZE.
Proof. vm_compute. split; [discriminate|reflexivity]. Qed.

(** Which pages start before [b] does not change when [b] is rounded up. *)
Lemma in_pages_round a0 b a x :
  a mod PGSIZE = 0 -> b <= a < b + PGSIZE -> in_pages a0 b x = in_pages a0 a x.
Proof.
  intros Ha Hb. unfold in_pages. f_equal. assert (page_of x mod PGSIZE = 0) as Hp by (by apply Z.mod_mul).
  pose proof (page_sub (page_of x) a Hp Ha). unfold PGSIZE in *. zcases; try done; lia.
Qed.

Lemma alloc_loop_ok fuel m0 s pd free oldsz newsz a :
  space_ok s pd free -> 0 <= oldsz < newsz -> newsz < KERNBASE ->
  PGROUNDUP oldsz <= a < newsz + PGSIZE -> a mod PGSIZE = 0 ->
  (forall x, 0 <= x < KERNBASE -> ubyte (kmemory s) pd x
     = if in_pages (PGROUNDUP oldsz) a x then Some 0 else ubyte m0 pd x) ->
  (forall x, 0 <= x < KERNBASE -> in_pages (PGROUNDUP oldsz) newsz x = true -> ubyte m0 pd x = None) ->
  (forall x, 0 <= x < KERNBASE -> in_pages a newsz x = true -> present (kmemory s) pd x = false) ->
  newsz - a + PGSIZE <= PGSIZE * Z.of_nat fuel -> (1 <= fuel)%nat -> 0 <= PGROUNDUP oldsz ->
  exists r s' free', alloc_loop pd a oldsz newsz fuel s = Ok r s' /\ space_ok s' pd free'
    /\ (r = newsz /\ (forall x, 0 <= x < KERNBASE -> ubyte (kmemory s') pd x
           = if in_pages (PGROUNDUP oldsz) newsz x then Some 0 else ubyte m0 pd x)
        \/ r = 0 /\ (forall x, 0 <= x < KERNBASE -> ubyte (kmemory s') pd x = ubyte m0 pd x))
    /\ (forall n, newsz - a <= PGSIZE * Z.of_nat n -> (2 * n <= length free)%nat ->
          r = newsz /\ (length free <= length free' + 2 * n)%nat).
Proof.
  revert s free a. induction fuel as [|fuel IH]; intros s free a Hs Ho Hn Ha0 Ha Hub Hnone Hnp Hfuel H1 Hpos; [lia|].
  pose proof user_range as HK. cbn [alloc_loop]. destruct (Z.ltb_spec a newsz) as [Hlt|Hge].
  2: { exists newsz, s, free. split_and!; auto; [|intros n _ _; split; [done|lia]]. left. split; [done|].
       intros x Hx. rewrite Hub by done. by rewrite (in_pages_round _ newsz a) by (done || lia). }
  destruct free as [|p free].
  { rewrite (bind_ok _ _ _ _ _ (kalloc_empty s (vm_pool _ _ _ (sp_vm _ _ _ Hs)))). cbn [Z.eqb].
    destruct (alloc_rollback m0 s pd [] oldsz newsz a) as (s' & free' & E & Hs' & _ & Hub'); auto; [lia|].
    rewrite (bind_ok _ _ _ _ _ E). exists 0, s', free'. split_and!; auto.
    intros n Hn1 Hn2. cbn in Hn2. unfold PGSIZE in *. lia. }
  destruct (kalloc_ok s p free (vm_pool _ _ _ (sp_vm _ _ _ Hs))) as (s1 & E1 & Hp1 & Hm1 & _).
  rewrite (bind_ok _ _ _ _ _ E1).
  destruct (space_kalloc s s1 pd p free Hs Hp1 Hm1) as (Hs1 & Hv & Hnf & Hno & Hfr).
  rewrite (proj2 (Z.eqb_neq _ _)) by (by apply valid_page_nz). rewrite (bind_ok _ _ _ _ _ (fill_run p 0 PGSIZE s1)).
  rewrite <- Hm1 in Hno, Hfr.
  assert (present (kmemory s1) pd a = false) as Hnpa.
  { rewrite Hm1. apply Hnp; [lia|]. unfold in_pages. pose proof (page_of_in a a Ha) as [_ E].
    rewrite E by lia. by zcases. }
  set (m1 := memset (kmemory s1) p 0 PGSIZE) in *.
  assert (forall y, page_of y <> p -> m1 y = kmemory s1 y) as Hm1o by (intros; apply memset_page; [done|apply Hv]).
  destruct (install_page s1 pd free p a m1 (Z.lor PTE_W PTE_U)) as (r & s2 & f2 & t2 & E2 & B2 & Hs2 & Hown & He2 & Hr & Hen);
    auto using user_perm; try lia.
  pose proof (fun x => install_ubyte s1 pd free p a m1 (Z.lor PTE_W PTE_U) r s2 f2 t2 x Hs1 Hv Hnf Hno Hfr Hm1o
    user_perm ltac:(lia) B2 Hown He2) as Hub2.
  change (Z.testbit (Z.lor PTE_W PTE_U) 2) with true in Hub2. cbv iota in Hub2.
  rewrite (bind_ok _ _ _ _ _ E2). clear E2. rewrite Hm1 in Hub2.
  destruct Hr as [[-> Hlt2]|(-> & ->)]; cbn [Z.ltb Z.compare].
  - destruct (IH s2 f2 (a + PGSIZE)) as (r & s3 & f3 & E3 & Hs3 & Hr3 & Hen3); auto; try (unfold PGSIZE in *; lia).
    + rewrite Z.add_mod, Ha by done. done.
    + intros x Hx. rewrite Hub2, in_pages_step by (done || lia). cbn [Z.eqb andb].
      destruct (Z.eqb_spec (x / PGSIZE) (a / PGSIZE)) as [E|E].
      * rewrite orb_true_r. f_equal. apply memset_in_page, page_split.
      * rewrite orb_false_r. by apply Hub.
    + intros x Hx Hin. unfold present. rewrite He2 by lia. cbn [Z.eqb andb].
      assert (x / PGSIZE <> a / PGSIZE) as Hne.
      { intros E. apply page_alone, page_of_in in E; [|done..]. unfold in_pages in Hin. zbool. lia. }
      rewrite (proj2 (Z.eqb_neq _ _) Hne), Hm1. apply Hnp; [done|]. unfold in_pages in *. zbool. zcases; done.
    + rewrite u32_small by lia. exists r, s3, f3. split_and!; auto. intros n Hn1 Hn2. pose proof (f_equal length (bu_free _ _ _ _ _ _ B2)) as Hl.
      rewrite length_app in Hl. cbn in Hn2. destruct (Hen3 (n - 1)%nat) as [-> Hl3]; [unfold PGSIZE in *; lia|lia|].
      split; [done|]. unfold PGSIZE in *. cbn. lia.
  - assert (forall va, 0 <= va < KERNBASE -> entry (kmemory s2) pd va = entry (kmemory s1) pd va) as He2'
      by (intros va Hva; rewrite He2 by lia; done).
    destruct (builds_sub _ _ _ _ _ _ p B2 Hnf) as [_ Hno2]; [by cbn; rewrite Hown|].
    destruct (alloc_rollback m0 s2 pd [] oldsz newsz a) as (s3 & f3 & E3 & Hs3 & (freed & F & ->) & Hub3); auto; [|lia|].
    { intros x Hx. rewrite Hub2 by done. cbn [Z.eqb andb]. by apply Hub. }
    rewrite (bind_ok _ _ _ _ _ E3).
    assert (forall va, 0 <= va < KERNBASE -> present (kmemory s2) pd va = true -> frame (kmemory s2) pd va <> p) as Hfr2.
    { intros va Hva. unfold present, frame. rewrite He2' by done. by apply Hfr. }
    destruct (space_kfree s3 pd (freed ++ []) p Hs3 Hv) as (s4 & E4 & Hs4 & Hub4).
    + rewrite app_nil_r. intros (x & Hx & _ & Hp & Ef)%(fr_freed _ _ _ _ _ _ _ F). symmetry in Ef. by apply (Hfr2 x Hx Hp).
    + by rewrite (fr_owns _ _ _ _ _ _ _ F).
    + intros va Hva Hp. pose proof (fr_entries _ _ _ _ _ _ _ F va Hva) as He3. unfold present, frame in Hp |- *.
      rewrite He3 in Hp |- *. case_bool; [done|]. by apply Hfr2.
    + rewrite (bind_ok _ _ _ _ _ E4). exists 0, s4, (p :: freed ++ []). split_and!; auto.
      * right. split; [done|]. intros x Hx. rewrite Hub4, Hub3 by done. done.
      * intros n Hn1 Hn2. exfalso. assert (-1 = 0); [|done]. apply Hen. right. intros ->. cbn in Hn2.
        unfold PGSIZE in *. lia.
Qed.

Lemma allocuvm_ok s pd free oldsz newsz :
  space_ok s pd free -> 0 <= oldsz <= newsz -> newsz < KERNBASE ->
  (forall x, 0 <= x < KERNBASE -> in_pages (PGROUNDUP oldsz) newsz x = true -> present (kmemory s) pd x = false) ->
  exists r s' free', allocuvm pd oldsz newsz s = Ok r s' /\ space_ok s' pd free'
    /\ (r = newsz /\ (forall x, 0 <= x < KERNBASE -> ubyte (kmemory s') pd x
           = if in_pages (PGROUNDUP oldsz) newsz x then Some 0 else ubyte (kmemory s) pd x)
        \/ r = 0 /\ (forall x, 0 <= x < KERNBASE -> ubyte (kmemory s') pd x = ubyte (kmemory s) pd x))
    /\ (forall n, newsz - PGROUNDUP oldsz <= PGSIZE * Z.of_nat n -> (2 * n <= length free)%nat ->
          r = newsz /\ (length free <= length free' + 2 * n)%nat).
Proof.
  intros Hs Ho Hn Hnp. pose proof user_range as HK. unfold allocuvm.
  rewrite (proj2 (Z.leb_gt _ _)), (proj2 (Z.ltb_ge _ _)) by lia.
  assert (PGROUNDUP oldsz = (oldsz + PGSIZE - 1) / PGSIZE * PGSIZE) as Er by (apply PGROUNDUP_eq; lia).
  assert (oldsz <= PGROUNDUP oldsz < oldsz + PGSIZE) as Hr.
  { rewrite Er. destruct (page_split (oldsz + PGSIZE - 1)) as [E Hm]. lia. }
  assert (PGROUNDUP oldsz mod PGSIZE = 0) as Hm by (rewrite Er; by apply Z.mod_mul).
  destruct (decide (oldsz = newsz)) as [->|Hne].
  { exists newsz, s, free. cbn [alloc_loop]. rewrite (proj2 (Z.ltb_ge _ _)) by lia.
    split_and!; auto; [|intros n _ _; split; [done|lia]]. left. split; [done|]. intros x Hx. rewrite (in_pages_round _ newsz (PGROUNDUP newsz)) by (done || lia).
    unfold in_pages. zcases; done. }
  apply alloc_loop_ok; auto; try lia.
  - intros x Hx. unfold in_pages. zcases; done.
  - intros x Hx Hin. unfold ubyte. by rewrite Hnp.
  - rewrite Nat2Z.inj_succ, Nat2Z.inj_add, Z2Nat.id by (apply Z.div_pos; lia).
    pose proof (page_split newsz). unfold PGSIZE in *. lia.
Qed.

(** [allocuvm] grows user memory or leaves it alone.  Growing from [oldsz] to
    [newsz], with nothing mapped in between, either returns [newsz], and then
    the pages that are new are readable by the user and zero and every other
    byte of user memory is as before, or returns 0, and then user memory is as
    before; it returns [newsz] whenever there are twice as many free pages as
    pages to map.  In every case the address space and the pool stay
    consistent. *)
Theorem allocuvm_grows s pd free oldsz newsz :
  space_ok s pd free -> 0 <= oldsz <= newsz -> newsz < KERNBASE ->
  (forall x, 0 <= x < KERNBASE -> in_pages (PGROUNDUP oldsz) newsz x = true -> present (kmemory s) pd x = false) ->
  exists r s' free', allocuvm pd oldsz newsz s = Ok r s' /\ space_ok s' pd free'
    /\ (r = newsz /\ (forall x, 0 <= x < KERNBASE -> ubyte (kmemory s') pd x
           = if in_pages (PGROUNDUP oldsz) newsz x then Some 0 else ubyte (kmemory s) pd x)
        \/ r = 0 /\ (forall x, 0 <= x < KERNBASE -> ubyte (kmemory s') pd x = ubyte (kmemory s) pd x))
    /\ (forall n, newsz - PGROUNDUP oldsz <= PGSIZE * Z.of_nat n -> (2 * n <= length free)%nat -> r = newsz).
Proof.
  intros Hs Ho Hn Hnp. destruct (allocuvm_ok s pd free oldsz newsz Hs Ho Hn Hnp) as (r & s' & f' & E & Hs' & Hr & Hen).
  exists r, s', f'. split_and!; auto. intros n Hn1 Hn2. by apply (Hen n).
Qed.
End Spaces.
