(* ===== verification/VmCopy.v ===== *)
(** * The address space of a forked process

    [setupkvm] and [copyuvm] with enough memory: the child gets an address space
    of its own with the parent's contents. *)

From S2P Require Import Prelude CString Kalloc Vm VmTheory VmAlloc.
Open Scope Z_scope.

Section Copy.
Context `{LinkerOk}.

(** ** The kernel half *)

(** An empty directory. *)
Lemma fresh_dir s d free :
  pool_ok s free -> valid_page d -> d ∉ free ->
  let m1 := memset (kmemory s) d 0 PGSIZE in
  let s1 := { s with kmemory := m1 } in
  vm_ok s1 d free /\ (forall q, owns m1 d q <-> q = d) /\ (forall va, entry m1 d va = 0).
Proof.
  intros Hp Hv Hnf m1 s1. assert (forall i, 0 <= i < 1024 -> has_tab m1 d i = false) as Hno.
  { intros i Hi. unfold has_tab, pde. rewrite load32_zero; [done|]. intros x Hx.
    replace x with (d + (x - d)) by lia. apply memset_in_page. unfold PGSIZE. lia. }
  assert (forall q, owns m1 d q <-> q = d) as Ho.
  { intros q. unfold owns. split; [|auto]. intros [?|(i & Hi & Hh & _)]; [done|]. by rewrite Hno in Hh. }
  split_and!; [|done|].
  - split.
    + apply pool_frame; [done|]. intros x Hx. apply memset_page; [|apply Hv]. intros E. by rewrite E in Hx.
    + split; [done|..]; intros; by rewrite Hno in *.
    + by intros q ->%Ho.
  - intros va. unfold entry. by rewrite Hno by apply PDX_range.
Qed.

(** Nothing is mapped below [KERNBASE] and from [b] on. *)
Definition bare (m : mem) (pd b : Z) : Prop :=
  forall x, 0 <= x < 2 ^ 32 -> x < KERNBASE \/ b <= x -> entry m pd x = 0.

Lemma kmap_step s pd free va sz pa perm b :
  vm_ok s pd free -> bare (kmemory s) pd b -> b <= va -> KERNBASE <= va ->
  va mod PGSIZE = 0 -> sz mod PGSIZE = 0 -> 0 < sz <= 2 ^ 28 -> va + sz <= 2 ^ 32 ->
  pa mod PGSIZE = 0 -> 0 <= pa -> pa + sz <= 2 ^ 32 -> 0 <= perm < PGSIZE -> (66 <= length free)%nat ->
  exists s' free' taken, mappages pd va sz pa perm s = Ok 0 s' /\ builds pd s s' free free' taken
    /\ (length taken <= 66)%nat /\ bare (kmemory s') pd (va + sz).
Proof.
  intros Hok Hbare Hb Hk Hva Hsz Hszr Hv Hpa Hpa0 Hpl Hperm Hlen. pose proof user_range as HK.
  set (n := Z.to_nat (sz / PGSIZE - 1)). destruct (page_split sz) as [Es _]. rewrite Hsz, Z.add_0_r in Es.
  assert (sz = PGSIZE * Z.of_nat (S n)) as En by (unfold PGSIZE in *; lia).
  assert (PDX (va + PGSIZE * Z.of_nat n) - PDX va <= 64) as Htab.
  { rewrite !PDX_eq by (unfold KERNBASE, PGSIZE in *; lia). unfold PGSIZE in *.
    pose proof (Z.div_mod va (2 ^ 22)). pose proof (Z.mod_pos_bound va (2 ^ 22)).
    pose proof (Z.div_mod (va + 4096 * Z.of_nat n) (2 ^ 22)).
    pose proof (Z.mod_pos_bound (va + 4096 * Z.of_nat n) (2 ^ 22)). lia. }
  assert (forall b : bool, (if b then 0 else 1) <= 1) as Hb1 by (intros []; lia).
  destruct (mappages_ok n s pd va pa perm free) as (r & s' & free' & taken & k & E & B & Hm & Hk' & Hen & Hl);
    auto; try (unfold KERNBASE, PGSIZE in *; lia).
  { intros x Hx. rewrite Hbare; [done|unfold KERNBASE, PGSIZE in *; lia..]. }
  unfold tabs_needed in *. pose proof (Hb1 (has_tab (kmemory s) pd (PDX va))).
  assert (r = 0) as -> by (apply Hen; lia). rewrite <- En in E. exists s', free', taken.
  split; [exact E|]. split; [done|]. split; [specialize (Hl eq_refl); lia|].
  intros x Hx Hr. rewrite (Hm x Hx).
  destruct (page_split va) as [Ev _]. rewrite Hva, Z.add_0_r in Ev. destruct (page_split x) as [Ex Hrx].
  assert ((va / PGSIZE <=? x / PGSIZE) && (x / PGSIZE <? va / PGSIZE + Z.of_nat k) = false) as ->.
  { assert (k = S n) as -> by (destruct Hk' as [[_ ?]|(? & _)]; [done|lia]). unfold PGSIZE in *. zcases; try done; lia. }
  apply Hbare; [done|]. lia.
Qed.

Lemma kmap_perms : 0 <= PTE_W < PGSIZE /\ 0 <= 0 < PGSIZE.
Proof. vm_compute. split; split; (discriminate || reflexivity). Qed.

Ltac kconst :=
  first [reflexivity | assumption
        | unfold KERNLINK, KERNBASE, EXTMEM, PHYSTOP, DEVSPACE, PGSIZE in *; lia].

Lemma kmap_run {B} d s s' va sz pa perm (K : option Z -> M kmem B) :
  mappages d va sz pa perm s = Ok 0 s' ->
  ((r ← mappages d va sz pa perm; if r <? 0 then freevm d;; mret (Some 0) else mret None) ≫= K) s = K None s'.
Proof. intros E. erewrite bind_ok; [done|]. by rewrite (bind_ok _ _ _ _ _ E). Qed.

Lemma setupkvm_ok s d free :
  pool_ok s (d :: free) -> (264 <= length free)%nat ->
  exists s' free' taken, setupkvm s = Ok d s' /\ free = taken ++ free'
    /\ vm_ok s' d free' /\ (length taken <= 264)%nat
    /\ (forall q, owns (kmemory s') d q <-> q = d \/ q ∈ taken)
    /\ (forall y, page_of y <> d -> page_of y ∉ taken -> kmemory s' y = kmemory s y)
    /\ (forall x, 0 <= x < KERNBASE -> entry (kmemory s') d x = 0).
Proof.
  intros Hp Hlen. destruct (kalloc_ok s d free Hp) as (s0 & E0 & Hp0 & Hm0 & _).
  pose proof (po_pages _ _ Hp) as Hpg. apply list.Forall_cons in Hpg as [Hv _].
  pose proof (po_nodup _ _ Hp) as Hnd. apply list.NoDup_cons in Hnd as [Hnf _].
  destruct (fresh_dir s0 d free Hp0 Hv Hnf) as (Hok & Hown & Hent).
  set (s1 := { s0 with kmemory := memset (kmemory s0) d 0 PGSIZE }) in *.
  unfold setupkvm. rewrite (bind_ok _ _ _ _ _ E0), (proj2 (Z.eqb_neq _ _)) by (by apply valid_page_nz).
  rewrite (bind_ok _ _ _ _ _ (fill_run d 0 PGSIZE s0)). fold s1.
  assert ((DEVSPACE <? P2V PHYSTOP) = false) as -> by reflexivity.
  pose proof kdata_low as K1. pose proof kdata_page as K2. pose proof kdata_end as K3. pose proof kend_high as K4.
  destruct kmap_perms as [PW P0].
  assert (forall a b, a mod PGSIZE = 0 -> b mod PGSIZE = 0 -> (a - b) mod PGSIZE = 0) as Hsub
    by (intros a b Ea Eb; by rewrite Zminus_mod, Ea, Eb).
  assert (V2P kdata = kdata - KERNBASE) as EV
    by (unfold V2P; apply u32_small; unfold KERNLINK, KERNBASE, EXTMEM, PHYSTOP in *; lia).
  unfold kmap. cbn [for_loop]. rewrite EV. change (V2P KERNLINK) with EXTMEM.
  assert (bare (kmemory s1) d 0) as Hb0 by (intros x _ _; apply Hent).
  change (u32 (EXTMEM - 0)) with EXTMEM. change (u32 (0 - DEVSPACE)) with 0x2000000.
  rewrite !u32_small by kconst.
  assert (kdata - KERNBASE - EXTMEM = kdata - KERNLINK) as -> by kconst.
  assert (PHYSTOP - (kdata - KERNBASE) = KERNBASE + PHYSTOP - kdata) as -> by kconst.
  destruct (kmap_step s1 d free KERNBASE EXTMEM 0 PTE_W 0) as (s2 & f2 & t2 & E2 & B2 & L2 & Hb2); try kconst.
  pose proof (f_equal length (bu_free _ _ _ _ _ _ B2)) as G2. rewrite length_app in G2.
  destruct (kmap_step s2 d f2 KERNLINK (kdata - KERNLINK) EXTMEM 0 (KERNBASE + EXTMEM))
    as (s3 & f3 & t3 & E3 & B3 & L3 & Hb3); try kconst; [apply B2|apply Hsub; [done|reflexivity]|].
  pose proof (f_equal length (bu_free _ _ _ _ _ _ B3)) as G3. rewrite length_app in G3.
  destruct (kmap_step s3 d f3 kdata (KERNBASE + PHYSTOP - kdata) (kdata - KERNBASE) PTE_W (KERNLINK + (kdata - KERNLINK)))
    as (s4 & f4 & t4 & E4 & B4 & L4 & Hb4); try kconst; [apply B3|apply Hsub; [reflexivity|done]|apply Hsub; [done|reflexivity]|].
  pose proof (f_equal length (bu_free _ _ _ _ _ _ B4)) as G4. rewrite length_app in G4.
  destruct (kmap_step s4 d f4 DEVSPACE 0x2000000 DEVSPACE PTE_W (kdata + (KERNBASE + PHYSTOP - kdata)))
    as (s5 & f5 & t5 & E5 & B5 & L5 & Hb5); try kconst; [apply B4|].
  pose proof (f_equal length (bu_free _ _ _ _ _ _ B5)) as G5. rewrite length_app in G5.
  pose proof (builds_trans _ _ _ _ _ _ _ _ _ (builds_trans _ _ _ _ _ _ _ _ _ (builds_trans _ _ _ _ _ _ _ _ _ B2 B3) B4) B5)
    as B. set (taken := ((t2 ++ t3) ++ t4) ++ t5) in *.
  exists s5, f5, taken. split.
  { rewrite (bind_ok _ _ s1 None s5); [done|].
    by rewrite (kmap_run _ _ _ _ _ _ _ _ E2), (kmap_run _ _ _ _ _ _ _ _ E3), (kmap_run _ _ _ _ _ _ _ _ E4),
      (kmap_run _ _ _ _ _ _ _ _ E5). }
  split; [apply B|]. split; [apply B|]. split; [unfold taken; rewrite !length_app; lia|].
  assert (forall q, owns (kmemory s1) d q <-> q = d) as Ho1 by exact Hown.
  split_and!.
  - intros q. rewrite (bu_owns _ _ _ _ _ _ B), Ho1. done.
  - intros y Hy Ht. rewrite (bu_mem _ _ _ _ _ _ B) by (by rewrite ?Ho1). unfold s1. cbn.
    rewrite memset_page by (done || apply Hv). by rewrite Hm0.
  - intros x Hx. apply Hb5; [pose proof user_range; lia|]. left. lia.
Qed.

(** ** Copying the user half

    [m0] is the memory at the call, [pd] the directory that is copied and [d]
    the new one. *)
Definition foreign (m0 : mem) (pd q : Z) : Prop :=
  owns m0 pd q \/ exists x, 0 <= x < KERNBASE /\ present m0 pd x = true /\ q = frame m0 pd x.

Record copying (m0 : mem) (pd d : Z) (s : kmem) (free : list Z) (i : Z) : Prop := {
  cp_space : space_ok s d free;
  cp_apart : forall q, foreign m0 pd q -> (q ∉ free) /\ ~ owns (kmemory s) d q
    /\ (forall x, 0 <= x < KERNBASE -> present (kmemory s) d x = true -> frame (kmemory s) d x <> q);
  cp_mem : forall y, foreign m0 pd (page_of y) -> kmemory s y = m0 y;
  cp_bytes : forall x, 0 <= x < KERNBASE -> ubyte (kmemory s) d x
    = if page_of x <? i then ubyte m0 pd x else None;
  cp_rest : forall x, 0 <= x < KERNBASE -> i <= page_of x -> entry (kmemory s) d x = 0;
}.

Lemma memmove_page m p src k :
  0 <= k < PGSIZE -> memmove m p src PGSIZE (p + k) = m (src + k).
Proof. intros Hk. rewrite memmove_moves by done. zcases. f_equal. lia. Qed.
Lemma memmove_out m p src y :
  p mod PGSIZE = 0 -> page_of y <> p -> memmove m p src PGSIZE y = m y.
Proof.
  intros Hp Hy. rewrite memmove_moves by done. case_bool; [|done]. zbool. exfalso. apply Hy.
  apply page_of_in; [done|lia].
Qed.

(** The flags that are copied are those of the entry. *)
Lemma flags_user e : 0 <= e < 2 ^ 32 -> 0 <= PTE_FLAGS e < PGSIZE /\ Z.testbit (PTE_FLAGS e) 2 = has e PTE_U.
Proof.
  intros He. rewrite PTE_FLAGS_eq by done. split; [by apply Z.mod_pos_bound|].
  change PTE_U with (2 ^ 2). rewrite has_bit by lia. change PGSIZE with (2 ^ 12).
  apply Z.mod_pow2_bits_low. lia.
Qed.

Lemma entry_range m pd va : 0 <= entry m pd va < 2 ^ 32.
Proof. unfold entry. destruct (has_tab m pd (PDX va)); [apply load32_range|lia]. Qed.

Section Step.
Context (m0 : mem) (pd d : Z) (s : kmem) (p : Z) (free : list Z) (i : Z).
Hypothesis Hsrc : dir_ok m0 pd.
Hypothesis Hval : forall x, 0 <= x < KERNBASE -> present m0 pd x = true -> valid_page (frame m0 pd x).
Hypothesis Hc : copying m0 pd d s (p :: free) i.
Hypothesis Hi : i mod PGSIZE = 0.
Hypothesis Hir : 0 <= i < KERNBASE.
Hypothesis Hp : present m0 pd i = true.

Lemma src_entry x : entry (kmemory s) pd x = entry m0 pd x.
Proof.
  destruct (dir_frame m0 (kmemory s) pd Hsrc) as (_ & _ & He); [|apply He].
  intros y Hy. apply (cp_mem _ _ _ _ _ _ Hc). by left.
Qed.
Lemma src_tab : has_tab (kmemory s) pd (PDX i) = true.
Proof. apply present_tab. unfold present. by rewrite src_entry. Qed.

Lemma copying_step s1 :
  pool_ok s1 free -> kmemory s1 = kmemory s ->
  let s2 := { s1 with kmemory := memmove (kmemory s1) p (frame m0 pd i) PGSIZE } in
  exists r s3 free3, mappages d i PGSIZE (V2P p) (PTE_FLAGS (entry m0 pd i)) s2 = Ok r s3
    /\ (free <> [] -> r = 0 /\ copying m0 pd d s3 free3 (i + PGSIZE) /\ (length free <= S (length free3))%nat).
Proof.
  intros Hp1 Hm1 s2. pose proof user_range as HK. pose proof (entry_range m0 pd i) as He.
  destruct (space_kalloc s s1 d p free (cp_space _ _ _ _ _ _ Hc) Hp1 Hm1) as (Hs1 & Hv & Hnf & Hno & Hfr).
  rewrite <- Hm1 in Hno, Hfr. destruct (flags_user (entry m0 pd i) He) as [Hfl Hfu].
  assert (forall x, 0 <= x < KERNBASE -> i <= page_of x -> entry (kmemory s1) d x = 0) as Hrest
    by (rewrite Hm1; apply Hc).
  assert (page_of i = i) as Epi by (apply page_of_in; [done|lia]).
  set (m2 := memmove (kmemory s1) p (frame m0 pd i) PGSIZE).
  assert (forall y, page_of y <> p -> m2 y = kmemory s1 y) as Hm2 by (intros; apply memmove_out; [apply Hv|done]).
  destruct (install_page s1 d free p i m2 (PTE_FLAGS (entry m0 pd i)))
    as (r & s3 & f3 & t3 & E3 & B3 & Hs3 & Hown & He3 & Hr & Hen); auto.
  { unfold present. by rewrite Hrest by lia. }
  exists r, s3, f3. split; [exact E3|]. intros Hne. assert (r = 0) as -> by auto. split; [done|].
  split; [|destruct Hr as [[_ ?]|[? _]]; [|lia]; pose proof (f_equal length (bu_free _ _ _ _ _ _ B3)) as G;
           rewrite length_app in G; lia].
  assert (forall q, foreign m0 pd q -> q <> p) as Hfp.
  { intros q Hq ->. destruct (cp_apart _ _ _ _ _ _ Hc p Hq) as [Hn _]. apply Hn. left. }
  assert (forall q, foreign m0 pd q -> (q ∉ free) /\ ~ owns m2 d q) as Hff.
  { intros q Hq. destruct (cp_apart _ _ _ _ _ _ Hc q Hq) as (Hn & Ho & _). split; [intros Hin; apply Hn; by right|].
    by rewrite Hown, Hm1. }
  split; [done|..].
  - intros q Hq. destruct (Hff q Hq) as [Hq1 Hq2]. destruct (builds_sub _ _ _ _ _ _ q B3 Hq1 Hq2) as [H1 H2].
    split_and!; auto. intros x Hx. unfold present, frame. rewrite He3 by lia. cbn [Z.eqb andb].
    destruct (Z.eqb_spec (x / PGSIZE) (i / PGSIZE)) as [E|E].
    + intros _. destruct (V2P_range p Hv) as [HVr HVm]. destruct (new_entry (V2P p) _ HVm Hfl) as [_ Hfl'].
      destruct (entry_parts (V2P p) _ HVm ltac:(lia) Hfl') as (_ & -> & _). rewrite P2V_V2P by done.
      intros E'. by apply (Hfp q Hq).
    + intros Hpx. destruct (cp_apart _ _ _ _ _ _ Hc q Hq) as (_ & _ & Hx'). rewrite Hm1. apply Hx'; [done|].
      unfold present. by rewrite <- Hm1.
  - intros y Hy. destruct (Hff _ Hy) as [Hq1 Hq2]. rewrite (builds_mem _ _ _ _ _ _ _ B3) by done. cbn.
    rewrite Hm2 by (by apply Hfp). rewrite Hm1. by apply (cp_mem _ _ _ _ _ _ Hc).
  - intros x Hx. rewrite (install_ubyte s1 d free p i m2 (PTE_FLAGS (entry m0 pd i)) 0 s3 f3 t3 x) by (done || lia).
    cbn [Z.eqb andb]. pose proof (in_pages_step 0 i x Hi ltac:(lia)) as Hstep. unfold in_pages in Hstep.
    pose proof (page_of_le x ltac:(lia)) as Hpx. rewrite (proj2 (Z.leb_le 0 _)) in Hstep by lia. cbn [andb] in Hstep.
    rewrite Hstep. destruct (Z.eqb_spec (x / PGSIZE) (i / PGSIZE)) as [E|E].
    + rewrite orb_true_r, Hfu. unfold ubyte, present, frame. rewrite (entry_page m0 pd x i) by (done || lia).
      fold (present m0 pd i). rewrite Hp. cbn [andb]. destruct (has (entry m0 pd i) PTE_U); [|done]. f_equal.
      unfold m2. rewrite memmove_page by apply page_split. rewrite Hm1. apply (cp_mem _ _ _ _ _ _ Hc).
      right. exists i. split_and!; [lia|lia|done|]. apply page_of_frame; [apply Hval; [lia|done]|apply page_split].
    + rewrite orb_false_r, Hm1. by apply (cp_bytes _ _ _ _ _ _ Hc).
  - intros x Hx Hix. rewrite He3 by lia. cbn [Z.eqb andb]. rewrite (proj2 (Z.eqb_neq _ _)).
    + apply Hrest; [done|lia].
    + intros E. apply page_alone, page_of_in in E; [lia|done..].
Qed.
End Step.

Lemma move_run dst src n s : move dst src n s = Ok tt { s with kmemory := memmove (kmemory s) dst src n }.
Proof. reflexivity. Qed.

Lemma copy_loop_ok fuel m0 pd d s free i sz n :
  dir_ok m0 pd -> (forall x, 0 <= x < KERNBASE -> present m0 pd x = true -> valid_page (frame m0 pd x)) ->
  copying m0 pd d s free i -> i mod PGSIZE = 0 -> 0 <= i < sz + PGSIZE -> sz < KERNBASE ->
  (forall x, 0 <= x -> page_of x < sz -> present m0 pd x = true) ->
  sz - i + PGSIZE <= PGSIZE * Z.of_nat fuel -> (1 <= fuel)%nat ->
  sz - i <= PGSIZE * Z.of_nat n -> (2 * n <= length free)%nat ->
  exists s' free' b, copy_loop pd d i sz fuel s = Ok true s' /\ copying m0 pd d s' free' b
    /\ sz <= b < sz + PGSIZE /\ b mod PGSIZE = 0.
Proof.
  intros Hd Hval. revert s free i n.
  induction fuel as [|fuel IH]; intros s free i n Hc Hi Hir Hsz Hall Hfuel H1 Hn Hlen; [lia|].
  pose proof user_range as HK. cbn [copy_loop]. destruct (Z.ltb_spec i sz) as [Hlt|Hge].
  2: { exists s, free, i. split_and!; auto; lia. }
  assert (present m0 pd i = true) as Hp by (apply Hall; [lia|]; rewrite (proj2 (page_of_in i i Hi)); lia).
  destruct free as [|p free]; [cbn in Hlen; unfold PGSIZE in *; lia|].
  pose proof (src_tab m0 pd d s p free i Hd Hc Hp) as Ht.
  rewrite (bind_ok _ _ _ _ _ (walk_found s pd i false Ht)). fold (pte_at (kmemory s) pd i).
  assert (dir_ok (kmemory s) pd) as Hds.
  { apply (dir_frame m0 (kmemory s) pd Hd). intros x Hx. apply (cp_mem _ _ _ _ _ _ Hc). by left. }
  rewrite (proj2 (Z.eqb_neq _ _) (pte_at_nz _ _ _ Hds Ht)). unfold load. erewrite bind_ok by reflexivity.
  rewrite (entry_load _ _ _ Ht), (src_entry m0 pd d s p free i Hd Hc). fold (present m0 pd i). rewrite Hp. cbn [negb].
  fold (frame m0 pd i).
  destruct (kalloc_ok s p free (vm_pool _ _ _ (sp_vm _ _ _ (cp_space _ _ _ _ _ _ Hc)))) as (s1 & E1 & Hp1 & Hm1 & _).
  rewrite (bind_ok _ _ _ _ _ E1).
  destruct (space_kalloc s s1 d p free (cp_space _ _ _ _ _ _ Hc) Hp1 Hm1) as (_ & Hv & _).
  rewrite (proj2 (Z.eqb_neq _ _)) by (by apply valid_page_nz).
  rewrite (bind_ok _ _ _ _ _ (move_run p (frame m0 pd i) PGSIZE s1)).
  destruct (copying_step m0 pd d s p free i Hval Hc Hi ltac:(lia) Hp s1 Hp1 Hm1) as (r & s3 & f3 & E3 & Hok).
  destruct Hok as (-> & Hc3 & Hl3); [intros ->; cbn in Hlen; unfold PGSIZE in *; lia|].
  rewrite (bind_ok _ _ _ _ _ E3). cbn [Z.ltb Z.compare]. rewrite u32_small by lia.
  apply (IH s3 f3 (i + PGSIZE) (n - 1)%nat); auto; try (cbn in Hlen; unfold PGSIZE in *; lia).
  rewrite Z.add_mod, Hi by done. done.
Qed.

Lemma copyuvm_ok s pd free sz n :
  space_ok s pd free -> 0 <= sz < KERNBASE ->
  (forall x, 0 <= x -> page_of x < sz -> present (kmemory s) pd x = true) ->
  sz <= PGSIZE * Z.of_nat n -> (265 + 264 + 2 * n <= length free)%nat ->
  exists d s' free', copyuvm pd sz s = Ok d s' /\ d <> 0 /\ space_ok s' d free' /\ space_ok s' pd free'
    /\ (forall x, 0 <= x < KERNBASE -> ubyte (kmemory s') d x
          = if page_of x <? sz then ubyte (kmemory s) pd x else None)
    /\ (forall x, 0 <= x < KERNBASE -> ubyte (kmemory s') pd x = ubyte (kmemory s) pd x)
    /\ (forall x x', 0 <= x < KERNBASE -> 0 <= x' < KERNBASE -> present (kmemory s') d x = true ->
          present (kmemory s') pd x' = true -> frame (kmemory s') d x <> frame (kmemory s') pd x').
Proof.
  intros Hs Hsz Hall Hn Hlen. pose proof user_range as HK. set (m0 := kmemory s).
  pose proof (sp_vm _ _ _ Hs) as Hvm. pose proof (vm_dir _ _ _ Hvm) as Hd. fold m0 in Hd.
  destruct free as [|d free]; [cbn in Hlen; lia|]. cbn in Hlen.
  pose proof (po_pages _ _ (vm_pool _ _ _ Hvm)) as Hpg. apply list.Forall_cons in Hpg as [Hv _].
  destruct (setupkvm_ok s d free (vm_pool _ _ _ Hvm)) as (s1 & f1 & taken & E1 & Ef & Hvm1 & Hlt & Hown1 & Hmem1 & Hent1); [lia|].
  unfold copyuvm. rewrite (bind_ok _ _ _ _ _ E1), (proj2 (Z.eqb_neq _ _)) by (by apply valid_page_nz).
  assert (forall q, foreign m0 pd q -> q <> d /\ (q ∉ free)) as Hfor.
  { intros q [Hq|(x & Hx & Hp & ->)].
    - pose proof (vm_apart _ _ _ Hvm q Hq) as Hn'. split; [intros ->; apply Hn'; left|intros Hin; apply Hn'; by right].
    - destruct (sp_frame _ _ _ Hs x Hx Hp) as (_ & _ & Hn'). fold m0 in Hn'.
      split; [intros E; apply Hn'; rewrite E; left|intros Hin; apply Hn'; by right]. }
  assert (copying m0 pd d s1 f1 0) as Hc.
  { split.
    - split; [done|..]; intros; unfold present in *; by rewrite Hent1 in *.
    - intros q Hq. destruct (Hfor q Hq) as [Hqd Hqf]. rewrite Ef, elem_of_app in Hqf.
      split_and!; [tauto|rewrite Hown1; tauto|]. intros x Hx. unfold present. by rewrite Hent1.
    - intros y Hy. destruct (Hfor _ Hy) as [Hqd Hqf]. rewrite Ef, elem_of_app in Hqf. apply Hmem1; tauto.
    - intros x Hx. pose proof (page_of_le x ltac:(lia)). rewrite (proj2 (Z.ltb_ge _ _)) by lia.
      unfold ubyte, present. by rewrite Hent1.
    - intros x Hx _. by apply Hent1. }
  pose proof (f_equal length Ef) as Hl. rewrite length_app in Hl.
  destruct (copy_loop_ok (S (Z.to_nat (sz / PGSIZE) + 1)) m0 pd d s1 f1 0 sz n) as (s2 & f2 & b & E2 & Hc2 & Hb & Hbm);
    auto; try lia.
  { intros x Hx Hp. by apply (sp_frame _ _ _ Hs). }
  { rewrite Nat2Z.inj_succ, Nat2Z.inj_add, Z2Nat.id by (apply Z.div_pos; lia).
    pose proof (page_split sz). unfold PGSIZE in *. lia. }
  rewrite (bind_ok _ _ _ _ _ E2). exists d, s2, f2. split; [done|].
  destruct (dir_frame m0 (kmemory s2) pd Hd) as (Hd2 & Hpde2 & He2).
  { intros y Hy. apply (cp_mem _ _ _ _ _ _ Hc2). by left. }
  split; [by apply valid_page_nz|]. split; [apply Hc2|]. split_and!.
  - split; [split; [apply (cp_space _ _ _ _ _ _ Hc2)|done|]|..].
    + intros q Hq. rewrite (owns_ext m0) in Hq by done. apply (cp_apart _ _ _ _ _ _ Hc2). by left.
    + intros x Hx. unfold present, frame. rewrite He2. intros Hp. destruct (sp_frame _ _ _ Hs x Hx Hp) as (? & Ho & _).
      split_and!; [done|by rewrite (owns_ext m0)|]. apply (cp_apart _ _ _ _ _ _ Hc2). right. eauto.
    + intros x x' Hx Hx'. unfold present, frame. rewrite !He2. by apply (sp_inj _ _ _ Hs).
  - intros x Hx. rewrite (cp_bytes _ _ _ _ _ _ Hc2) by done.
    pose proof (in_pages_round 0 sz b x Hbm ltac:(lia)) as Hr. unfold in_pages in Hr.
    pose proof (page_of_le x ltac:(lia)). rewrite (proj2 (Z.leb_le 0 _)) in Hr by lia. cbn [andb] in Hr. by rewrite Hr.
  - intros x Hx. apply ubyte_ext; [done|]. intros Hp. apply (cp_mem _ _ _ _ _ _ Hc2). right.
    rewrite (frame_page s pd (d :: free)) by done. eauto.
  - intros x x' Hx Hx' Hp Hp' E. unfold present, frame in Hp', E. rewrite He2 in Hp', E.
    destruct (cp_apart _ _ _ _ _ _ Hc2 (frame m0 pd x')) as (_ & _ & Hne); [right; eauto|]. by apply (Hne x Hx Hp).
Qed.

(** C16: a forked process has its parent's memory, in pages of its own.  With
    enough free pages, [copyuvm] of a space whose pages below [sz] are all
    mapped returns a new directory through which a user program reads at every
    address below the end of the last page what it read through [pd], and has
    no other user memory; the parent's memory is unchanged; and the two spaces
    have no user page in common, so that what one process writes the other does
    not see. *)
Theorem copyuvm_copies s pd free sz n :
  space_ok s pd free -> 0 <= sz < KERNBASE ->
  (forall x, 0 <= x -> page_of x < sz -> present (kmemory s) pd x = true) ->
  sz <= PGSIZE * Z.of_nat n -> (265 + 264 + 2 * n <= length free)%nat ->
  exists d s' free', copyuvm pd sz s = Ok d s' /\ d <> 0 /\ space_ok s' d free' /\ space_ok s' pd free'
    /\ (forall x, 0 <= x < KERNBASE -> ubyte (kmemory s') d x
          = if page_of x <? sz then ubyte (kmemory s) pd x else None)
    /\ (forall x, 0 <= x < KERNBASE -> ubyte (kmemory s') pd x = ubyte (kmemory s) pd x)
    /\ (forall x x', 0 <= x < KERNBASE -> 0 <= x' < KERNBASE -> present (kmemory s') d x = true ->
          present (kmemory s') pd x' = true -> frame (kmemory s') d x <> frame (kmemory s') pd x').
Proof. apply copyuvm_ok. Qed.
End Copy.
