(* ===== verification/VmUser.v ===== *)
(** * Stores of the kernel into user memory

    [ustore] writes through the page table; as long as the pages are mapped for
    writing, it changes the bytes the user sees at the address and nothing
    else. *)

From S2P Require Import Prelude CString Kalloc Vm VmTheory VmAlloc.
Open Scope Z_scope.

(** The user may access [va], and the kernel may store there. *)
Definition uwritable (m : mem) (pd va : Z) : Prop :=
  usable m pd va = true /\ translate (Z.lor PTE_P PTE_W) m pd va = Some (frame m pd va + va mod PGSIZE).

Section Stores.
Context `{LinkerOk}.

Lemma uwritable_ext m m' pd va :
  pde m' pd (PDX va) = pde m pd (PDX va) -> entry m' pd va = entry m pd va ->
  uwritable m pd va -> uwritable m' pd va.
Proof.
  intros Hp He [Hu Ht]. unfold uwritable, usable, present, frame in *. rewrite He. split; [done|].
  apply andb_prop in Hu as [Hpr _]. pose proof (present_tab m pd va Hpr) as Htab.
  assert (load32 m' (P2V (PTE_ADDR (pde m' pd (PDX va))) + 4 * PTX va) = load32 m (P2V (PTE_ADDR (pde m pd (PDX va))) + 4 * PTX va)) as El.
  { unfold entry in He. unfold has_tab, tab in *. rewrite Hp in *. by rewrite Htab in He. }
  unfold translate in *. fold (pde m pd (PDX va)) in Ht. fold (pde m' pd (PDX va)). rewrite El, Hp. exact Ht.
Qed.

Lemma ustore_ok s pd free va b :
  space_ok s pd free -> 0 <= va < KERNBASE -> uwritable (kmemory s) pd va -> is_byte b ->
  exists s', ustore pd va b s = Ok tt s' /\ space_ok s' pd free
    /\ (forall x, entry (kmemory s') pd x = entry (kmemory s) pd x)
    /\ (forall x, 0 <= x < KERNBASE -> ubyte (kmemory s') pd x = if x =? va then Some b else ubyte (kmemory s) pd x)
    /\ (forall x, uwritable (kmemory s) pd x -> uwritable (kmemory s') pd x)
    /\ (forall q, owns (kmemory s') pd q <-> owns (kmemory s) pd q).
Proof.
  intros Hs Hva [Hu Ht] Hb. destruct (page_split va) as [_ Hmod].
  destruct (put_user s pd free va [b] Hs ltac:(lia) ltac:(cbn; lia) ltac:(lia) Hu) as (Hs' & He & Hub).
  set (s' := { s with kmemory ::= _ }) in *. exists s'.
  assert (ustore pd va b s = Ok tt s') as E.
  { unfold ustore. msimpl. rewrite Ht. replace (u8 b) with b by (symmetry; by apply Z.mod_small). done. }
  apply andb_prop in Hu as [Hp _]. destruct (sp_frame _ _ _ Hs va Hva Hp) as (Hv & Ho & _).
  assert (forall x, page_of x <> frame (kmemory s) pd va -> kmemory s' x = kmemory s x) as Hm.
  { intros x Hx. unfold s'. cbn. apply upd_ne. intros ->. apply Hx. apply page_of_frame; [apply Hv|done]. }
  destruct (dir_frame (kmemory s) (kmemory s') pd) as (_ & Hpde & _); [apply Hs| |].
  { intros x Hx. apply Hm. intros Ex. by rewrite Ex in Hx. }
  split_and!; [done..| | |].
  - intros x Hx. rewrite Hub by done. cbn [length]. destruct (Z.eqb_spec x va) as [->|Hne].
    + rewrite (proj2 (Z.leb_le _ _)), (proj2 (Z.ltb_lt _ _)) by lia. by rewrite Z.sub_diag.
    + replace ((va <=? x) && (x <? va + Z.of_nat 1)) with false; [done|]. symmetry. apply andb_false_iff.
      destruct (Z.leb_spec va x), (Z.ltb_spec x (va + Z.of_nat 1)); auto. lia.
  - intros x Hx. apply (uwritable_ext (kmemory s)); [apply Hpde, PDX_range|done|done].
  - intros q. by apply owns_ext.
Qed.

Lemma ustore_bytes_ok bs s pd free va :
  space_ok s pd free -> 0 <= va -> va + Z.of_nat (length bs) <= KERNBASE -> Forall is_byte bs ->
  (forall x, va <= x < va + Z.of_nat (length bs) -> uwritable (kmemory s) pd x) ->
  exists s', ustore_bytes pd va bs s = Ok tt s' /\ space_ok s' pd free
    /\ (forall x, entry (kmemory s') pd x = entry (kmemory s) pd x)
    /\ (forall q, owns (kmemory s') pd q <-> owns (kmemory s) pd q)
    /\ (forall x, 0 <= x < KERNBASE -> ubyte (kmemory s') pd x
          = if (va <=? x) && (x <? va + Z.of_nat (length bs)) then bs !! Z.to_nat (x - va) else ubyte (kmemory s) pd x).
Proof.
  intros Hs Hva Hl Hb. revert s va Hs Hva Hl. induction Hb as [|b bs Hb Hbs IH]; intros s va Hs Hva Hl Hw; cbn [ustore_bytes length] in *.
  - exists s. split_and!; [done..|]. intros x Hx. replace ((va <=? x) && (x <? va + Z.of_nat 0)) with false; [done|].
    symmetry. apply andb_false_iff. destruct (Z.leb_spec va x), (Z.ltb_spec x (va + Z.of_nat 0)); auto. lia.
  - destruct (ustore_ok s pd free va b Hs ltac:(lia) (Hw va ltac:(lia)) Hb) as (s1 & E1 & Hs1 & He1 & Hu1 & Hw1 & Ho1).
    destruct (IH s1 (va + 1) Hs1) as (s2 & E2 & Hs2 & He2 & Ho2 & Hu2); [lia|lia|intros; apply Hw1, Hw; lia|].
    exists s2. rewrite (bind_ok _ _ _ _ _ E1). split_and!; [done..| | |].
    + intros x. by rewrite He2.
    + intros q. by rewrite Ho2.
    + intros x Hx. rewrite Hu2, Hu1 by done. destruct (Z.eqb_spec x va) as [->|Hne].
      * rewrite (proj2 (Z.leb_gt _ _)) by lia. cbn [andb]. rewrite (proj2 (Z.leb_le _ _)), (proj2 (Z.ltb_lt _ _)) by lia.
        by rewrite Z.sub_diag.
      * replace ((va + 1 <=? x) && (x <? va + 1 + Z.of_nat (length bs))) with ((va <=? x) && (x <? va + Z.of_nat (S (length bs)))).
        { destruct ((va <=? x) && (x <? va + Z.of_nat (S (length bs)))) eqn:E; [|done]. zbool.
          replace (Z.to_nat (x - va)) with (S (Z.to_nat (x - (va + 1)))) by lia. done. }
        destruct (Z.leb_spec va x), (Z.leb_spec (va + 1) x); try lia; cbn [andb]; f_equal; lia.
Qed.
End Stores.
