(* ===== verification/VmWitness.v ===== *)
(** * A small machine

    A machine with 1200 free pages, on which the theorems about address spaces
    apply. *)

From S2P Require Import Prelude CString Kalloc Vm VmTheory VmAlloc VmCopy.
Open Scope Z_scope.

#[local] Instance mini_linker : Linker := {| kend := KERNBASE + 0x115400; kdata := KERNBASE + 0x108000;
     kforkret := KERNBASE + 0x103a10; ktrapret := KERNBASE + 0x105c55 |}.
#[local] Instance mini_linker_ok : LinkerOk.
Proof. split; try reflexivity; vm_compute; discriminate. Qed.

Definition mini_start : Z := KERNBASE + 0x200000.

Lemma mini_pool : exists s free, pool_ok s free /\ length free = 1200%nat.
Proof.
  destruct (freerange_ok mini_start (mini_start + 1200 * PGSIZE) (mk_kmem (fun _ => 0) 0 0) [])
    as (s & _ & Hs & _).
  - split; [done|constructor|constructor].
  - vm_compute. discriminate.
  - vm_compute. discriminate.
  - vm_compute. split; discriminate.
  - by intros q ?%not_elem_of_nil.
  - eexists s, _. split; [exact Hs|]. vm_compute. reflexivity.
Qed.

(** A directory with an empty user half. *)
Lemma mini_space :
  exists s d free, space_ok s d free /\ (900 <= length free)%nat
    /\ (forall x, 0 <= x < KERNBASE -> entry (kmemory s) d x = 0).
Proof.
  destruct mini_pool as (s & [|d free] & Hp & Hl); [done|].
  destruct (setupkvm_ok s d free Hp) as (s' & f' & taken & _ & Ef & Hvm & Hlt & _ & _ & He); [cbn in Hl; lia|].
  exists s', d, f'. split_and!; [|rewrite Ef in Hl; cbn in Hl; rewrite length_app in Hl; lia|done].
  split; [done|..]; intros; unfold present in *; by rewrite He in *.
Qed.

(** One with two user pages. *)
Lemma mini_user :
  exists s d free, space_ok s d free /\ (800 <= length free)%nat
    /\ (forall x, 0 <= x < KERNBASE -> ubyte (kmemory s) d x = if in_pages 0 8192 x then Some 0 else None).
Proof.
  destruct mini_space as (s & d & free & Hs & Hl & He).
  destruct (allocuvm_ok s d free 0 8192) as (r & s' & f' & _ & Hs' & Hr & Hen); [done|lia|vm_compute; reflexivity| |].
  { intros x Hx _. unfold present. by rewrite He. }
  destruct (Hen 2%nat) as [Er Hl']; [vm_compute; discriminate|lia|].
  exists s', d, f'. split; [done|]. split; [lia|]. intros x Hx. destruct Hr as [[_ Hb]|[E _]]; [|lia].
  rewrite Hb by done. change (PGROUNDUP 0) with 0. destruct (in_pages 0 8192 x); [done|].
  unfold ubyte, present. by rewrite He.
Qed.

Lemma ubyte_some m pd x b : ubyte m pd x = Some b -> present m pd x = true /\ usable m pd x = true.
Proof. rewrite ubyte_usable. unfold usable. destruct (present m pd x), (has (entry m pd x) PTE_U); cbn; done. Qed.

Lemma in_pages_low x : 0 <= x < 8192 -> in_pages 0 8192 x = true.
Proof. intros Hx. unfold in_pages. pose proof (page_of_le x ltac:(lia)). by zcases. Qed.

Lemma allocuvm_grows_witness :
  exists s d r s', allocuvm d 100 20000 s = Ok r s' /\ r = 20000 /\ ubyte (kmemory s') d 5000 = Some 0.
Proof.
  destruct mini_space as (s & d & free & Hs & Hl & He).
  destruct (allocuvm_grows s d free 100 20000) as (r & s' & f' & E & _ & Hr & Hen); [done|lia|vm_compute; reflexivity| |].
  { intros x Hx _. unfold present. by rewrite He. }
  assert (r = 20000) as Er by (apply (Hen 5%nat); [vm_compute; discriminate|lia]).
  exists s, d, r, s'. split; [exact E|]. split; [exact Er|]. destruct Hr as [[_ Hb]|[E' _]]; [|lia].
  rewrite Hb by (unfold KERNBASE; lia). reflexivity.
Defined.

Lemma copyout_writes_witness :
  exists s d s', copyout d 4094 [1; 2; 3; 4] s = Ok 0 s' /\ ubyte (kmemory s') d 4096 = Some 3.
Proof.
  destruct mini_user as (s & d & free & Hs & _ & Hb).
  destruct (copyout_writes s d free 4094 [1; 2; 3; 4]) as (s' & E & _ & _ & Hb'); [done|lia|vm_compute; discriminate| |].
  { intros x Hx. apply (ubyte_some _ _ _ 0). rewrite Hb by (cbn in Hx; unfold KERNBASE; lia).
    by rewrite in_pages_low by (cbn in Hx; lia). }
  exists s, d, s'. split; [exact E|]. rewrite Hb' by (unfold KERNBASE; lia). reflexivity.
Defined.

Lemma copyout_bad_page_witness :
  exists s d, copyout d 0x40000000 [1] s = if has_tab (kmemory s) d (PDX 0x40000000) then Ok (-1) s else Fault.
Proof.
  destruct mini_space as (s & d & free & Hs & _ & He). exists s, d.
  rewrite (copyout_bad_page s d 0x40000000 [1]); [reflexivity|apply Hs|vm_compute; split; (discriminate || reflexivity)|done|].
  unfold usable, present. by rewrite He by (unfold KERNBASE; lia).
Defined.

Lemma freevm_frees_witness : exists s d s', freevm d s = Ok tt s' /\ d <> 0.
Proof.
  destruct mini_user as (s & d & free & Hs & _ & _).
  destruct (freevm_frees s d free Hs) as (s' & freed & E & _ & Hf). exists s, d, s'. split; [exact E|].
  apply valid_page_nz, Hs.
Defined.

Lemma copyuvm_copies_witness :
  exists s pd d s', copyuvm pd 8192 s = Ok d s' /\ ubyte (kmemory s') d 8191 = Some 0.
Proof.
  destruct mini_user as (s & pd & free & Hs & Hl & Hb).
  destruct (copyuvm_copies s pd free 8192 2) as (d & s' & f' & E & _ & _ & _ & Hd & _); [done|vm_compute; split; (discriminate || reflexivity)| |vm_compute; discriminate|lia|].
  { intros x Hx Hp. apply (ubyte_some _ _ _ 0). destruct (page_split x) as [Ex Hr]. unfold page_of in Hp.
    assert (x < 8192) by (unfold PGSIZE in *; lia). rewrite Hb by (unfold KERNBASE; lia). by rewrite in_pages_low. }
  exists s, pd, d, s'. split; [exact E|]. rewrite Hd by (unfold KERNBASE; lia). rewrite Hb by (unfold KERNBASE; lia).
  reflexivity.
Defined.
