(* ===== verification/Double.v ===== *)
(** * C [double] values

    The scheduler keeps shares, strides and pass values as [double]
    (proc.h, proc.c, set_cpu_share.c).  They are modelled by the standard
    library's executable specification of IEEE 754 binary64 ([spec_float] with
    53 bits of precision), every operation rounding to nearest even.  The file
    also proves what the scheduler relies on: small integers are represented
    exactly, and comparing a pass value with an integer compares its integer
    part. *)

From stdpp Require Import prelude.
From Stdlib Require Import ZArith Lia Floats.SpecFloat.
Open Scope Z_scope.

Definition double : Type := spec_float.
#[global] Instance double_eq_dec : EqDecision double.
Proof. unfold double. solve_decision. Defined.

Definition f64_of_Z (z : Z) : double := binary_normalize 53 1024 z 0 false.
Definition f64_add : double -> double -> double := SFadd 53 1024.
Definition f64_sub : double -> double -> double := SFsub 53 1024.
Definition f64_mul : double -> double -> double := SFmul 53 1024.
Definition f64_div : double -> double -> double := SFdiv 53 1024.
Definition f64_lt : double -> double -> bool := SFltb.
Definition f64_le : double -> double -> bool := SFleb.

(** Conversion to an integer truncates towards zero. *)
Definition f64_trunc (x : double) : Z :=
  match x with
  | S754_finite s m e =>
      let a := if 0 <=? e then Z.pos m * 2 ^ e else Z.pos m / 2 ^ (- e) in
      if s then - a else a
  | _ => 0
  end.

(** Finite, not negative and in canonical form. *)
Definition f64_nonneg (x : double) : Prop :=
  match x with
  | S754_zero _ => True
  | S754_finite false m e => bounded 53 1024 m e = true
  | _ => False
  end.
#[export] Instance f64_nonneg_dec x : Decision (f64_nonneg x).
Proof. destruct x as [| | |[]]; simpl; apply _. Defined.

Lemma digits2_pos_bounds p :
  2 ^ (Z.pos (digits2_pos p) - 1) <= Z.pos p < 2 ^ Z.pos (digits2_pos p).
Proof.
  induction p as [p IH|p IH|]; simpl digits2_pos; [| |by vm_compute].
  all: rewrite Pos2Z.inj_succ, Z.pow_succ_r, Z.sub_succ_l by lia.
  all: replace (Z.succ (Z.pos (digits2_pos p) - 1))
         with (Z.succ (Z.pos (digits2_pos p) - 1)) by lia.
  all: rewrite Z.pow_succ_r by lia; lia.
Qed.

Lemma digits2_pos_unique p d :
  2 ^ (d - 1) <= Z.pos p < 2 ^ d -> Z.pos (digits2_pos p) = d.
Proof.
  intros Hd. pose proof (digits2_pos_bounds p) as Hp.
  destruct (Z.lt_trichotomy (Z.pos (digits2_pos p)) d) as [H|[H|H]]; [|done|].
  - assert (2 ^ Z.pos (digits2_pos p) <= 2 ^ (d - 1)) by (apply Z.pow_le_mono_r; lia).
    lia.
  - assert (2 ^ d <= 2 ^ (Z.pos (digits2_pos p) - 1)) by (apply Z.pow_le_mono_r; lia).
    lia.
Qed.

Lemma digits2_pos_small p : Z.pos p < 2 ^ 53 -> 1 <= Z.pos (digits2_pos p) <= 53.
Proof.
  intros Hp. pose proof (digits2_pos_bounds p).
  split; [lia|]. destruct (Z.le_gt_cases (Z.pos (digits2_pos p)) 53); [done|].
  assert (2 ^ 53 <= 2 ^ (Z.pos (digits2_pos p) - 1)) by (apply Z.pow_le_mono_r; lia).
  lia.
Qed.

Lemma iter_xO m k : Z.pos (Pos.iter xO m k) = Z.pos m * 2 ^ Z.pos k.
Proof.
  induction k as [|k IH] using Pos.peano_ind; [by rewrite Z.mul_comm|].
  rewrite Pos.iter_succ, Pos2Z.inj_succ, Z.pow_succ_r by lia.
  rewrite Pos2Z.inj_xO, IH. lia.
Qed.

(** A positive integer below [2^53] is represented exactly, with a mantissa of
    53 digits. *)
Lemma f64_of_Z_pos p :
  Z.pos p < 2 ^ 53 ->
  exists m, f64_of_Z (Z.pos p) = S754_finite false m (Z.pos (digits2_pos p) - 53)
            /\ Z.pos m = Z.pos p * 2 ^ (53 - Z.pos (digits2_pos p))
            /\ Z.pos (digits2_pos m) = 53.
Proof.
  intros Hp. set (d := Z.pos (digits2_pos p)).
  pose proof (digits2_pos_bounds p) as Hb. fold d in Hb.
  pose proof (digits2_pos_small p ltac:(lia)) as Hd. fold d in Hd.
  assert (fexp 53 1024 d = d - 53) as Hf by (unfold fexp, emin; lia).
  assert (exists m, shl_align p 0 (d - 53) = (m, d - 53)
                    /\ Z.pos m = Z.pos p * 2 ^ (53 - d)) as (m & Hs & Hm).
  { unfold shl_align. rewrite Z.sub_0_r. destruct (d - 53) as [|q|q] eqn:E; [|lia|].
    - exists p. split; [done|]. replace (53 - d) with 0 by lia. lia.
    - eexists. split; [done|]. rewrite iter_xO. f_equal. f_equal. lia. }
  assert (Z.pos (digits2_pos m) = 53) as Hm53.
  { apply digits2_pos_unique. rewrite Hm.
    replace (2 ^ (53 - 1)) with (2 ^ (d - 1) * 2 ^ (53 - d))
      by (rewrite <- Z.pow_add_r by lia; f_equal; lia).
    replace (2 ^ 53) with (2 ^ d * 2 ^ (53 - d))
      by (rewrite <- Z.pow_add_r by lia; f_equal; lia).
    assert (0 < 2 ^ (53 - d)) by lia. nia. }
  exists m. split_and!; [|done..].
  unfold f64_of_Z, binary_normalize, binary_round. fold d.
  rewrite Z.add_0_r, Hf, Hs. unfold binary_round_aux, shr_fexp.
  unfold shr_record_of_loc, Zdigits2.
  rewrite Hm53. replace (53 + (d - 53)) with d by lia. rewrite Hf, Z.sub_diag. simpl.
  rewrite Hm53. replace (53 + (d - 53)) with d by lia. rewrite Hf, Z.sub_diag. simpl.
  case_match; [done|]. rewrite Z.leb_gt in *. lia.
Qed.

Lemma f64_trunc_of_Z z : 0 <= z < 2 ^ 53 -> f64_trunc (f64_of_Z z) = z.
Proof.
  intros Hz. destruct z as [|p|p]; [done| |lia].
  destruct (f64_of_Z_pos p) as (m & -> & Hm & Hm53); [lia|].
  set (d := Z.pos (digits2_pos p)) in *. unfold f64_trunc.
  pose proof (digits2_pos_bounds p) as Hb. fold d in Hb.
  case_match; rewrite ?Z.leb_le, ?Z.leb_gt in *; rewrite Hm.
  - assert (d = 53) as -> by (pose proof (digits2_pos_small p ltac:(lia)); lia). lia.
  - replace (- (d - 53)) with (53 - d) by lia. rewrite Z.div_mul; [done|].
    assert (0 < 2 ^ (53 - d)) by lia. lia.
Qed.

Lemma f64_of_Z_nonneg z : 0 <= z < 2 ^ 53 -> f64_nonneg (f64_of_Z z).
Proof.
  intros Hz. destruct z as [|p|p]; [done| |lia].
  destruct (f64_of_Z_pos p) as (m & -> & Hm & Hm53); [lia|]. simpl.
  set (d := Z.pos (digits2_pos p)) in *.
  pose proof (digits2_pos_bounds p) as Hb. fold d in Hb.
  pose proof (digits2_pos_small p ltac:(lia)) as Hd. fold d in Hd.
  unfold bounded, canonical_mantissa, fexp, emin. rewrite Hm53.
  apply andb_true_intro. rewrite Z.eqb_eq, Z.leb_le. lia.
Qed.

(** Comparing a non-negative double with an integer compares its integer
    part: [pass < max] in [findMinPass] sees only the integer part of [pass]. *)
Lemma f64_lt_of_Z x z :
  f64_nonneg x -> 0 <= z < 2 ^ 53 -> f64_lt x (f64_of_Z z) = (f64_trunc x <? z).
Proof.
  intros Hx Hz. destruct z as [|p|p]; [| |lia].
  { destruct x as [| | |[] m e]; try done. simpl. symmetry. apply Z.ltb_ge.
    case_match; [lia|]. apply Z.div_pos; lia. }
  destruct (f64_of_Z_pos p) as (m' & -> & Hm' & _); [lia|].
  set (d := Z.pos (digits2_pos p)) in *.
  pose proof (digits2_pos_bounds p) as Hb. fold d in Hb.
  pose proof (digits2_pos_small p ltac:(lia)) as Hd. fold d in Hd.
  destruct x as [| | |[] m e]; try done. simpl in Hx.
  unfold bounded, canonical_mantissa, fexp, emin in Hx.
  apply andb_prop in Hx as [Hc He]. rewrite Z.eqb_eq in Hc. rewrite Z.leb_le in He.
  pose proof (digits2_pos_bounds m) as Hm.
  set (dm := Z.pos (digits2_pos m)) in *.
  assert (1 <= dm <= 53 /\ (dm = 53 \/ e = -1074)) as [Hdm Hdm'] by lia.
  unfold f64_lt, SFltb, SFcompare.
  destruct (Z.compare_spec e (d - 53)) as [E|E|E].
  - (* same exponent *)
    change (Pos.compare_cont Eq m m') with (Pos.compare m m').
    unfold f64_trunc. destruct (Z.leb_spec 0 e).
    + assert (e = 0) as -> by lia. assert (d = 53) as Hd53 by lia.
      rewrite Hd53 in Hm'. destruct (Pos.compare_spec m m'); subst; symmetry;
        rewrite ?Z.ltb_ge, ?Z.ltb_lt; lia.
    + replace (- e) with (53 - d) by lia. assert (0 < 2 ^ (53 - d)) by lia.
      destruct (Pos.compare_spec m m'); subst; symmetry; rewrite ?Z.ltb_ge, ?Z.ltb_lt.
      * rewrite Hm', Z.div_mul; lia.
      * apply Z.div_lt_upper_bound; lia.
      * apply Z.div_le_lower_bound; lia.
  - (* smaller exponent *)
    symmetry. apply Z.ltb_lt. unfold f64_trunc.
    destruct (Z.leb_spec 0 e); [lia|].
    apply Z.div_lt_upper_bound; [lia|].
    assert (2 ^ dm <= 2 ^ (d - 1) * 2 ^ (- e)).
    { rewrite <- Z.pow_add_r by lia. apply Z.pow_le_mono_r; lia. }
    assert (0 < 2 ^ (- e)) by lia. nia.
  - (* larger exponent *)
    symmetry. apply Z.ltb_ge. assert (dm = 53) as Edm by lia. rewrite Edm in Hm.
    unfold f64_trunc. destruct (Z.leb_spec 0 e).
    + assert (2 ^ d <= 2 ^ (53 - 1) * 2 ^ e).
      { rewrite <- Z.pow_add_r by lia. apply Z.pow_le_mono_r; lia. }
      assert (0 < 2 ^ e) by lia. nia.
    + apply Z.div_le_lower_bound; [lia|].
      assert (2 ^ d * 2 ^ (- e) <= 2 ^ (53 - 1)).
      { rewrite <- Z.pow_add_r by lia. apply Z.pow_le_mono_r; lia. }
      assert (0 < 2 ^ (- e)) by lia. nia.
Qed.

Lemma f64_trunc_nonneg x : f64_nonneg x -> 0 <= f64_trunc x.
Proof.
  destruct x as [| | |[] m e]; simpl; try done. intros _.
  case_match; [lia|]. apply Z.div_pos; lia.
Qed.
