(* ===== verification/Spinlock.v ===== *)
(** * CPUs, interrupt state and spin locks

    Models the per-CPU state of proc.h ([struct cpu]), [mycpu], [cpuid] and
    [myproc] of proc.c, and spinlock.c.  The machine is seen from the CPU that
    executes: [lapicid] is the value of its local APIC id register and [IF] the
    interrupt flag of its [eflags].  A spin lock held by another CPU makes
    [acquire] spin, which is the outcome [Blocked].  The debugging fields of a
    lock ([name] and the recorded call stack [pcs]) are left out. *)

From S2P Require Import Prelude.
Open Scope Z_scope.

Record cpu := mk_cpu {
  apicid : Z;               (* Local APIC ID *)
  ncli : Z;                 (* Depth of pushcli nesting. *)
  intena : bool;            (* Were interrupts enabled before pushcli? *)
  cproc : option nat;       (* The process running on this cpu or null *)
  ts_esp0 : Z;              (* ts.esp0: kernel stack used on interrupt *)
}.

Record spinlock := mk_spinlock {
  locked : Z;               (* Is the lock held? *)
  lkcpu : option nat;       (* The cpu holding the lock. *)
}.

(** The locks of the kernel, by the address a C caller passes. *)
Inductive lockid := lk_ptable | lk_ttable | lk_ticks | lk_cons | lk_addr (a : Z).
#[export] Instance lockid_eq_dec : EqDecision lockid.
Proof. solve_decision. Defined.

Record machine := mk_machine {
  cpus : list cpu;
  ncpu : nat;
  lapicid : Z;              (* lapicid() of the executing CPU *)
  IF : bool;                (* readeflags() & FL_IF *)
  cr3 : Z;                  (* page table register *)
  locks : lockid -> spinlock;
}.

Definition initlock (lk : lockid) : M machine unit :=
  modify (fun m => { m with locks ::= <[lk := mk_spinlock 0 None]> }).

Definition cli : M machine unit := modify (fun m => { m with IF := false }).
Definition sti : M machine unit := modify (fun m => { m with IF := true }).

Definition mycpu : M machine nat :=
  m ← get;
  if IF m then panic "mycpu called with interrupts enabled"
  else
    r ← for_loop (seq 0 (ncpu m)) (fun i =>
          c ← deref (cpus m !! i);
          mret (if apicid c =? lapicid m then Some i else None));
    match r with
    | Some i => mret i
    | None => panic "unknown apicid"
    end.

Definition cpuid : M machine nat := mycpu.

(** [mycpu()->field = ...] *)
Definition set_mycpu (f : cpu -> cpu) : M machine unit :=
  i ← mycpu;
  modify (fun m => { m with cpus ::= alter f i }).
Definition get_mycpu : M machine cpu :=
  i ← mycpu;
  m ← get;
  deref (cpus m !! i).

Definition pushcli : M machine unit :=
  eflags ← gets IF;
  cli;;
  c ← get_mycpu;
  when (ncli c =? 0) (set_mycpu (fun c => { c with intena := eflags }));;
  set_mycpu (fun c => { c with ncli := s32 (ncli c + 1) }).

Definition popcli : M machine unit :=
  m ← get;
  if IF m then panic "popcli - interruptible"
  else
    set_mycpu (fun c => { c with ncli := s32 (ncli c - 1) });;
    c ← get_mycpu;
    if ncli c <? 0 then panic "popcli"
    else
      c ← get_mycpu;
      when ((ncli c =? 0) && intena c) sti.

(** Check whether this cpu is holding the lock. *)
Definition holding (lk : lockid) : M machine bool :=
  m ← get;
  if negb (ctrue (locked (locks m lk))) then mret false
  else
    i ← mycpu;
    mret (bool_decide (lkcpu (locks m lk) = Some i)).

Definition acquire (lk : lockid) : M machine unit :=
  pushcli;;
  h ← holding lk;
  if (h : bool) then panic "acquire"
  else
    m ← get;
    if ctrue (locked (locks m lk)) then blocked
    else
      (* xchg(&lk->locked, 1); lk->cpu = mycpu() *)
      i ← mycpu;
      modify (fun m => { m with locks ::= <[lk := mk_spinlock 1 (Some i)]> }).

Definition release (lk : lockid) : M machine unit :=
  h ← holding lk;
  if negb h then panic "release"
  else
    (* lk->cpu = 0; lk->locked = 0 *)
    modify (fun m => { m with locks ::= <[lk := mk_spinlock 0 None]> });;
    popcli.

Definition myproc : M machine (option nat) :=
  pushcli;;
  c ← get_mycpu;
  popcli;;
  mret (cproc c).

(** ** Running on a CPU

    [cpu_at m i c]: the executing CPU is number [i] and its state is [c]. *)
Record cpu_at (m : machine) (i : nat) (c : cpu) : Prop := {
  at_lookup : cpus m !! i = Some c;
  at_ncpu : (i < ncpu m <= length (cpus m))%nat;
  at_id : apicid c = lapicid m;
  at_first : forall j c', (j < i)%nat -> cpus m !! j = Some c' -> apicid c' <> lapicid m;
}.

Lemma mycpu_ok m i c : cpu_at m i c -> IF m = false -> mycpu m = Ok i m.
Proof.
  intros [Hl Hn Hid Hf] HIF. unfold mycpu. msimpl. rewrite HIF.
  replace (seq 0 (ncpu m)) with (seq 0 i ++ i :: seq (S i) (ncpu m - S i)%nat).
  - erewrite for_loop_first; [done| |].
    + intros j Hj%elem_of_seq. destruct (lookup_lt_is_Some_2 (cpus m) j) as [c' Hc']; [lia|].
      rewrite Hc'. msimpl. pose proof (Hf j c' ltac:(lia) Hc') as Hne.
      by rewrite (proj2 (Z.eqb_neq _ _) Hne).
    + rewrite Hl. msimpl. by rewrite Hid, Z.eqb_refl.
  - replace (ncpu m) with (i + S (ncpu m - S i))%nat at 2 by lia.
    by rewrite seq_app.
Qed.

(** Updating the state of the executing CPU keeps us on it. *)
Definition with_cpu (m : machine) (i : nat) (c : cpu) : machine :=
  { m with cpus := <[i := c]> (cpus m) }.

Lemma cpu_at_with_cpu m i c c' :
  cpu_at m i c -> apicid c' = apicid c -> cpu_at (with_cpu m i c') i c'.
Proof.
  intros [Hl Hn Hid Hf] Ha. pose proof (lookup_lt_Some _ _ _ Hl).
  split; cbn.
  - by apply list_lookup_insert_eq.
  - by rewrite length_insert.
  - congruence.
  - intros j c'' Hj. rewrite list_lookup_insert_ne by lia. by apply Hf.
Qed.

(** [cpu_at] does not look at the interrupt flag, [cr3] or the locks. *)
Lemma cpu_at_frame m m' i c :
  cpus m' = cpus m -> ncpu m' = ncpu m -> lapicid m' = lapicid m ->
  cpu_at m i c -> cpu_at m' i c.
Proof. intros H1 H2 H3 [Hl Hn Hid Hf]. split; rewrite ?H1, ?H2, ?H3; auto. Qed.

Lemma set_mycpu_ok m i c f :
  cpu_at m i c -> IF m = false -> set_mycpu f m = Ok tt (with_cpu m i (f c)).
Proof.
  intros Hc HIF. unfold set_mycpu.
  rewrite (bind_ok _ _ _ _ _ (mycpu_ok _ _ _ Hc HIF)). msimpl. unfold with_cpu. cbn.
  by rewrite (alter_insert f (cpus m) i c) by apply Hc.
Qed.

Lemma get_mycpu_ok m i c : cpu_at m i c -> IF m = false -> get_mycpu m = Ok c m.
Proof.
  intros Hc HIF. unfold get_mycpu.
  rewrite (bind_ok _ _ _ _ _ (mycpu_ok _ _ _ Hc HIF)). msimpl. by rewrite (at_lookup _ _ _ Hc).
Qed.

Definition depth_ok (c : cpu) : Prop := 0 <= ncli c < 2 ^ 31 - 1.

(** What [pushcli] and [popcli] do to the machine. *)
Definition pushed (m : machine) (i : nat) (c : cpu) : machine :=
  { with_cpu m i { c with intena := if ncli c =? 0 then IF m else intena c;
                          ncli := ncli c + 1 } with IF := false }.
Definition popped (m : machine) (i : nat) (c : cpu) : machine :=
  { with_cpu m i { c with ncli := ncli c - 1 } with
    IF := (ncli c =? 1) && intena c }.

Lemma pushcli_ok m i c :
  cpu_at m i c -> depth_ok c -> pushcli m = Ok tt (pushed m i c).
Proof.
  intros Hc Hd. unfold depth_ok in Hd. unfold pushcli, cli. msimpl.
  set (m1 := { m with IF := false }).
  assert (cpu_at m1 i c) as Hc1 by (by apply (cpu_at_frame m)).
  rewrite (get_mycpu_ok m1 i c) by done. unfold pushed. msimpl.
  destruct (ncli c =? 0).
  - rewrite (set_mycpu_ok m1 i c) by done. msimpl.
    rewrite (set_mycpu_ok _ i { c with intena := IF m }); [| |done].
    + unfold with_cpu. cbn. rewrite list_insert_insert_eq, s32_small by (cbn in *; lia). done.
    + by apply (cpu_at_with_cpu m1 i c).
  - msimpl. rewrite (set_mycpu_ok m1 i c) by done.
    unfold with_cpu. cbn. rewrite s32_small by (cbn in *; lia). by destruct c.
Qed.

Lemma popcli_ok m i c :
  cpu_at m i c -> IF m = false -> 0 < ncli c < 2 ^ 31 -> popcli m = Ok tt (popped m i c).
Proof.
  intros Hc HIF Hd. unfold popcli. msimpl. rewrite HIF.
  rewrite (set_mycpu_ok m i c) by done. msimpl.
  set (c' := { c with ncli := s32 (ncli c - 1) }).
  assert (cpu_at (with_cpu m i c') i c') as Hc' by (by apply (cpu_at_with_cpu m i c)).
  rewrite (get_mycpu_ok _ i c') by done. msimpl.
  assert (ncli c' = ncli c - 1) as Hn by (apply s32_small; lia).
  rewrite (proj2 (Z.ltb_ge _ _)) by lia.
  rewrite (get_mycpu_ok _ i c') by done. msimpl.
  rewrite Hn. unfold popped. replace (ncli c - 1 =? 0) with (ncli c =? 1).
  2: { destruct (Z.eqb_spec (ncli c) 1), (Z.eqb_spec (ncli c - 1) 0); lia || done. }
  replace c' with { c with ncli := ncli c - 1 }
    by (subst c'; cbn in *; by rewrite s32_small by lia).
  change (intena { c with ncli := ncli c - 1 }) with (intena c).
  destruct ((ncli c =? 1) && intena c); [done|].
  unfold with_cpu. destruct m. cbn in *. by subst.
Qed.

Lemma cpu_at_pushed m i c :
  cpu_at m i c ->
  cpu_at (pushed m i c) i { c with intena := if ncli c =? 0 then IF m else intena c;
                                   ncli := ncli c + 1 }.
Proof.
  intros Hc. eapply (cpu_at_frame (with_cpu m i _)); [done..|].
  by apply (cpu_at_with_cpu m i c).
Qed.

Lemma cpu_at_popped m i c :
  cpu_at m i c -> cpu_at (popped m i c) i { c with ncli := ncli c - 1 }.
Proof.
  intros Hc. eapply (cpu_at_frame (with_cpu m i _)); [done..|].
  by apply (cpu_at_with_cpu m i c).
Qed.

(** [myproc] reads the process of the executing CPU and leaves the nesting
    depth and the interrupt flag as they were. *)
Definition peeked (m : machine) (i : nat) (c : cpu) : machine :=
  with_cpu m i { c with intena := if ncli c =? 0 then IF m else intena c }.

Lemma myproc_ok m i c :
  cpu_at m i c -> depth_ok c -> (0 < ncli c -> IF m = false) ->
  myproc m = Ok (cproc c) (peeked m i c).
Proof.
  intros Hc Hd HIF. unfold depth_ok in Hd. unfold myproc.
  rewrite (bind_ok _ _ _ _ _ (pushcli_ok _ _ _ Hc Hd)).
  pose proof (cpu_at_pushed _ _ _ Hc) as Hp.
  rewrite (bind_ok _ _ _ _ _ (get_mycpu_ok _ _ _ Hp eq_refl)).
  erewrite bind_ok by (eapply popcli_ok; [exact Hp|done|cbn; lia]).
  msimpl. f_equal. unfold popped, peeked, pushed, with_cpu. cbn.
  rewrite list_insert_insert_eq. destruct (Z.eqb_spec (ncli c) 0) as [E|E].
  - rewrite E. cbn. by destruct m, c; cbn in *; subst.
  - rewrite (proj2 (Z.eqb_neq (ncli c + 1) 1)) by lia. cbn.
    rewrite Z.add_simpl_r. specialize (HIF ltac:(lia)).
    destruct m; cbn in *. by subst.
Qed.

Definition lock_free (m : machine) (lk : lockid) : Prop := locked (locks m lk) = 0.
Definition lock_mine (m : machine) (lk : lockid) (i : nat) : Prop :=
  locks m lk = mk_spinlock 1 (Some i).

Definition acquired (m : machine) (i : nat) (c : cpu) (lk : lockid) : machine :=
  { pushed m i c with locks ::= <[lk := mk_spinlock 1 (Some i)]> }.
Definition released (m : machine) (i : nat) (c : cpu) (lk : lockid) : machine :=
  popped { m with locks ::= <[lk := mk_spinlock 0 None]> } i c.

Lemma acquire_ok m i c lk :
  cpu_at m i c -> depth_ok c -> lock_free m lk ->
  acquire lk m = Ok tt (acquired m i c lk).
Proof.
  intros Hc Hd Hl. unfold lock_free in Hl. unfold acquire.
  rewrite (bind_ok _ _ _ _ _ (pushcli_ok _ _ _ Hc Hd)).
  pose proof (cpu_at_pushed _ _ _ Hc) as Hp.
  unfold holding. msimpl. cbn. rewrite Hl. cbn. rewrite Hl. cbn.
  by rewrite (mycpu_ok _ _ _ Hp eq_refl).
Qed.

Lemma acquire_again m i c lk :
  cpu_at m i c -> depth_ok c -> lock_mine m lk i -> acquire lk m = Panic "acquire".
Proof.
  intros Hc Hd Hl. unfold lock_mine in Hl. unfold acquire.
  rewrite (bind_ok _ _ _ _ _ (pushcli_ok _ _ _ Hc Hd)).
  pose proof (cpu_at_pushed _ _ _ Hc) as Hp.
  unfold holding. msimpl. cbn. rewrite Hl. cbn.
  rewrite (mycpu_ok _ _ _ Hp eq_refl). cbn. by rewrite bool_decide_true.
Qed.

Lemma holding_mine m i c lk :
  cpu_at m i c -> IF m = false -> lock_mine m lk i -> holding lk m = Ok true m.
Proof.
  intros Hc HIF Hl. unfold holding. msimpl. rewrite Hl. cbn.
  rewrite (mycpu_ok _ _ _ Hc HIF). cbn. by rewrite bool_decide_true.
Qed.

Lemma release_ok m i c lk :
  cpu_at m i c -> IF m = false -> 0 < ncli c < 2 ^ 31 -> lock_mine m lk i ->
  release lk m = Ok tt (released m i c lk).
Proof.
  intros Hc HIF Hd Hl. unfold release.
  rewrite (bind_ok _ _ _ _ _ (holding_mine _ _ _ _ Hc HIF Hl)). msimpl. cbn.
  apply popcli_ok; [|done|done]. by apply (cpu_at_frame m).
Qed.

Lemma release_not_held m lk : lock_free m lk -> release lk m = Panic "release".
Proof. intros Hl. unfold release, holding. msimpl. by rewrite Hl. Qed.

(** Spin locks.  A critical section restores the CPU: acquiring a free lock
    and releasing it gives back the interrupt flag and the nesting depth that
    held before, with the lock free and every other lock untouched. *)
Theorem critical_section_restores m i c lk :
  cpu_at m i c -> depth_ok c -> (0 < ncli c -> IF m = false) -> lock_free m lk ->
  exists m', (acquire lk;; release lk) m = Ok tt m'
    /\ IF m' = IF m
    /\ (exists c', cpu_at m' i c' /\ ncli c' = ncli c /\ cproc c' = cproc c)
    /\ lock_free m' lk
    /\ (forall lk', lk' <> lk -> locks m' lk' = locks m lk').
Proof.
  intros Hc Hd HIF Hl. unfold depth_ok in Hd.
  rewrite (bind_ok _ _ _ _ _ (acquire_ok _ _ _ _ Hc Hd Hl)).
  pose proof (cpu_at_frame (pushed m i c) (acquired m i c lk) _ _ eq_refl eq_refl eq_refl
                (cpu_at_pushed _ _ _ Hc)) as Ha.
  rewrite (release_ok _ _ _ _ Ha eq_refl).
  2: { cbn. lia. }
  2: { unfold lock_mine, acquired. cbn. by rewrite fn_lookup_insert. }
  eexists. split; [done|]. split_and!.
  - cbn. destruct (Z.eqb_spec (ncli c) 0) as [E|E]; [by rewrite E|].
    rewrite (proj2 (Z.eqb_neq (ncli c + 1) 1)) by lia. symmetry. apply HIF. lia.
  - eexists. split.
    { apply cpu_at_popped. by apply (cpu_at_frame (acquired m i c lk)), Ha. }
    cbn. split; [lia|done].
  - unfold lock_free. cbn. by rewrite fn_lookup_insert.
  - intros lk' Hne. cbn. by rewrite !fn_lookup_insert_ne.
Qed.

(** ** The locks held by the executing CPU

    [on m i p hs]: CPU [i] executes on behalf of process [p] and holds exactly
    the locks [hs], no lock being held by another CPU. *)
Record on (m : machine) (i : nat) (p : option nat) (hs : list lockid) : Prop := {
  on_cpu : exists c, cpu_at m i c /\ ncli c = Z.of_nat (length hs) /\ cproc c = p;
  on_if : hs <> [] -> IF m = false;
  on_held : forall lk, lk ∈ hs -> lock_mine m lk i;
  on_free : forall lk, lk ∉ hs -> lock_free m lk;
  on_nodup : NoDup hs;
  on_depth : Z.of_nat (length hs) < 2 ^ 31 - 1;
}.

Lemma on_acquire m i p hs lk :
  on m i p hs -> lk ∉ hs -> Z.of_nat (length hs) < 2 ^ 31 - 2 ->
  exists m', acquire lk m = Ok tt m' /\ on m' i p (lk :: hs).
Proof.
  intros [(c & Hc & Hn & Hp) HIF Hh Hf Hnd Hd] Hlk Hlen.
  rewrite (acquire_ok m i c lk Hc ltac:(unfold depth_ok; lia) ltac:(auto)).
  eexists. split; [done|]. split.
  - eexists. split.
    { apply (cpu_at_frame (pushed m i c)); [done..|]. by apply cpu_at_pushed. }
    cbn [ncli cproc length]. cbn. lia || (split; [lia|done]).
  - done.
  - intros lk' [->|Hin]%elem_of_cons; unfold lock_mine; cbn.
    + by rewrite fn_lookup_insert.
    + rewrite fn_lookup_insert_ne by (intros ->; done). by apply Hh.
  - intros lk' [Hne Hni]%not_elem_of_cons. unfold lock_free. cbn.
    rewrite fn_lookup_insert_ne by done. by apply Hf.
  - by constructor.
  - cbn [length]. lia.
Qed.

Lemma on_release m i p hs1 hs2 lk :
  on m i p (hs1 ++ lk :: hs2) ->
  exists m', release lk m = Ok tt m' /\ on m' i p (hs1 ++ hs2).
Proof.
  intros [(c & Hc & Hn & Hp) HIF Hh Hf Hnd Hd].
  rewrite length_app in Hn, Hd. cbn [length] in Hn, Hd.
  rewrite (release_ok m i c lk Hc).
  2: { apply HIF. by destruct hs1. }
  2: { lia. }
  2: { apply Hh. set_solver. }
  eexists. split; [done|].
  apply list.NoDup_app in Hnd as (Hnd1 & Hdj & [Hlk Hnd2]%list.NoDup_cons).
  split.
  - eexists. split.
    { apply cpu_at_popped. by apply (cpu_at_frame m), Hc. }
    cbn. rewrite length_app. split; [lia|done].
  - intros Hne. cbn. rewrite (proj2 (Z.eqb_neq _ _)); [done|].
    rewrite Hn. intros E. apply Hne.
    destruct hs1, hs2; [done|cbn in E; lia..].
  - intros lk' Hin. unfold lock_mine. cbn. rewrite fn_lookup_insert_ne.
    { apply Hh. set_solver. }
    intros <-. set_solver.
  - intros lk' Hni. unfold lock_free. cbn. destruct (decide (lk = lk')) as [<-|Hne].
    + by rewrite fn_lookup_insert.
    + rewrite fn_lookup_insert_ne by done. apply Hf. set_solver.
  - apply list.NoDup_app. set_solver.
  - rewrite length_app. lia.
Qed.

Lemma on_myproc m i p hs :
  on m i p hs -> exists m', myproc m = Ok p m' /\ on m' i p hs.
Proof.
  intros [(c & Hc & Hn & Hp) HIF Hh Hf Hnd Hd].
  rewrite (myproc_ok m i c Hc); [|unfold depth_ok; lia|].
  2: { intros Hpos. apply HIF. intros ->. cbn in Hn. lia. }
  eexists. split; [by rewrite Hp|]. split; [|done..].
  eexists. split; [by apply (cpu_at_with_cpu m i c)|]. done.
Qed.

Lemma on_holding m i p hs lk : on m i p hs -> lk ∈ hs -> holding lk m = Ok true m.
Proof.
  intros [(c & Hc & Hn & Hp) HIF Hh Hf Hnd Hd] Hin.
  apply (holding_mine m i c); auto. apply HIF. intros ->. set_solver.
Qed.

Lemma on_get_mycpu m i p hs :
  on m i p hs -> IF m = false ->
  exists c, get_mycpu m = Ok c m /\ ncli c = Z.of_nat (length hs) /\ cproc c = p.
Proof.
  intros [(c & Hc & Hn & Hp) _ Hh Hf Hnd Hd] HIF.
  exists c. by rewrite (get_mycpu_ok m i c).
Qed.

(** Storing the process of the executing CPU. *)
Lemma on_set_cproc m i p hs q :
  on m i p hs -> on { m with cpus ::= alter (fun c => { c with cproc := q }) i } i q hs.
Proof.
  intros [(c & Hc & Hn & Hp) HIF Hh Hf Hnd Hd]. split; [|done..].
  exists { c with cproc := q }. split; [|done].
  replace { m with cpus ::= alter (fun c => { c with cproc := q }) i }
    with (with_cpu m i { c with cproc := q }).
  - by apply (cpu_at_with_cpu m i c).
  - unfold with_cpu. cbn. by rewrite (alter_insert _ _ _ c) by apply Hc.
Qed.

(** Code bracketed by [pushcli] and [popcli] that sets registers and fields of
    the CPU structure other than the interrupt bookkeeping. *)
Lemma on_push_pop m i p hs f v :
  on m i p hs ->
  (forall c, ncli (f c) = ncli c /\ cproc (f c) = cproc c /\ apicid (f c) = apicid c) ->
  exists m', (pushcli;; set_mycpu f;; modify (fun m => { m with cr3 := v });; popcli) m
             = Ok tt m' /\ on m' i p hs.
Proof.
  intros [(c & Hc & Hn & Hp) HIF Hh Hf Hnd Hd] Hfc.
  rewrite (bind_ok _ _ _ _ _ (pushcli_ok _ _ _ Hc ltac:(unfold depth_ok; lia))).
  pose proof (cpu_at_pushed _ _ _ Hc) as Hc1.
  rewrite (bind_ok _ _ _ _ _ (set_mycpu_ok _ _ _ _ Hc1 eq_refl)). msimpl.
  set (c1 := { c with intena := _; ncli := _ }) in *.
  destruct (Hfc c1) as (Hf1 & Hf2 & Hf3).
  assert (cpu_at { with_cpu (pushed m i c) i (f c1) with cr3 := v } i (f c1)) as Hc2.
  { eapply cpu_at_frame; [..|exact (cpu_at_with_cpu _ _ _ _ Hc1 Hf3)]; done. }
  rewrite (popcli_ok _ _ _ Hc2 eq_refl) by (rewrite Hf1; cbn; lia).
  eexists. split; [done|]. split; [| |done..].
  - eexists. split; [by apply cpu_at_popped|]. cbn. rewrite Hf1, Hf2. cbn. split; [lia|done].
  - intros Hne. cbn. rewrite Hf1. cbn. rewrite (proj2 (Z.eqb_neq _ _)); [done|].
    destruct hs; [done|]. cbn in Hn. lia.
Qed.

Lemma on_mycpu m i p hs : on m i p hs -> hs <> [] -> mycpu m = Ok i m.
Proof.
  intros [(c & Hc & Hn & Hp) HIF Hh Hf Hnd Hd] Hne. apply (mycpu_ok m i c); auto.
Qed.

(** ** What interrupt bookkeeping leaves alone *)

(** The operation never switches and keeps the process of every CPU. *)
Definition same_procs (m m' : machine) : Prop :=
  forall c, cproc <$> (cpus m' !! c) = cproc <$> (cpus m !! c).
Definition keeps_procs {A} (op : M machine A) : Prop :=
  forall m, safe no_env never (fun _ m' => same_procs m m') (op m).

Lemma keeps_procs_bind {A B} (op : M machine A) (f : A -> M machine B) :
  keeps_procs op -> (forall a, keeps_procs (f a)) -> keeps_procs (op ≫= f).
Proof.
  intros H1 H2 m. eapply safe_bind; [apply H1|]. intros a m' Hm.
  eapply safe_mono; [apply H2|]. intros b m'' Hm' c. cbn in *. by rewrite Hm', Hm.
Qed.

Lemma mycpu_reads m : safe no_env never (fun _ m' => m' = m) (mycpu m).
Proof.
  unfold mycpu. eapply safe_bind with (R := fun a m' => a = m /\ m' = m); [done|].
  intros ? ? [-> ->]. destruct (IF m); [done|].
  eapply safe_bind with (R := fun _ m' => m' = m).
  - apply safe_for_loop with (I := fun m' => m' = m); [done..|].
    intros i ? ->. destruct (cpus m !! i) as [c|]; [|done]. msimpl.
    by destruct (apicid c =? lapicid m).
  - intros [i|] ? ->; done.
Qed.

Lemma keeps_procs_mycpu : keeps_procs mycpu.
Proof. intros m. eapply safe_mono; [apply mycpu_reads|]. by intros ? ? ->. Qed.

Lemma keeps_procs_set_mycpu f :
  (forall c, cproc (f c) = cproc c) -> keeps_procs (set_mycpu f).
Proof.
  intros Hf. apply keeps_procs_bind; [apply keeps_procs_mycpu|]. intros i m c. cbn.
  destruct (decide (i = c)) as [->|Hne].
  - rewrite list_lookup_alter_eq. destruct (cpus m !! c); cbn; [|done]. by rewrite Hf.
  - by rewrite list_lookup_alter_ne.
Qed.

Lemma keeps_procs_get_mycpu : keeps_procs get_mycpu.
Proof.
  apply keeps_procs_bind; [apply keeps_procs_mycpu|]. intros i m. msimpl.
  by destruct (cpus m !! i).
Qed.

Lemma keeps_procs_pushcli : keeps_procs pushcli.
Proof.
  unfold pushcli. apply keeps_procs_bind; [done|]. intros m0.
  apply keeps_procs_bind; [done|]. intros _.
  apply keeps_procs_bind; [apply keeps_procs_get_mycpu|]. intros c.
  apply keeps_procs_bind; [|intros _; by apply keeps_procs_set_mycpu].
  unfold when. destruct (_ =? _); [|done]. by apply keeps_procs_set_mycpu.
Qed.

Lemma keeps_procs_popcli : keeps_procs popcli.
Proof.
  unfold popcli. apply keeps_procs_bind; [done|]. intros m0. destruct (IF m0); [done|].
  apply keeps_procs_bind; [by apply keeps_procs_set_mycpu|]. intros _.
  apply keeps_procs_bind; [apply keeps_procs_get_mycpu|]. intros c. destruct (_ <? _); [done|].
  apply keeps_procs_bind; [apply keeps_procs_get_mycpu|]. intros c'. by destruct (_ && _).
Qed.
