(* ===== verification/ProcState.v ===== *)
(** * Process table and kernel state

    Data of proc.h, param.h and the globals of proc.c, trap.c, sysproc.c and
    set_cpu_share.c.  A [struct proc *] is the index of its slot in
    [ptable.proc], a [struct file *] its index in [ftable.file] and a
    [struct inode *] its index in [icache.inode]; the null pointer is [None].
    The state of the other components (memory, files, pipes, file system) is a
    parameter [W] here: the scheduler does not look at it. *)

From S2P Require Import Prelude Double Spinlock.
Open Scope Z_scope.

Definition NPROC : nat := 64.
Definition KSTACKSIZE : Z := 4096.
Definition NOFILE : nat := 16.
Definition STRIDENUM : Z := 100.

Inductive procstate := UNUSED | EMBRYO | SLEEPING | RUNNABLE | RUNNING | ZOMBIE.
#[export] Instance procstate_eq_dec : EqDecision procstate.
Proof. solve_decision. Defined.

(** Wait channels: the address passed to [sleep] and [wakeup]. *)
Inductive channel := ch_null | ch_proc (i : nat) | ch_ticks | ch_input | ch_addr (a : Z).
#[export] Instance channel_eq_dec : EqDecision channel.
Proof. solve_decision. Defined.

(** A process pointer used as a channel. *)
Definition chan_of (p : option nat) : channel :=
  match p with Some i => ch_proc i | None => ch_null end.

(** struct trapframe (x86.h), without the padding fields. *)
Record trapframe := mk_trapframe {
  edi : Z; esi : Z; ebp : Z; oesp : Z; ebx : Z; edx : Z; ecx : Z; eax : Z;
  gs : Z; fs : Z; es : Z; ds : Z; trapno : Z;
  err : Z; eip : Z; cs : Z; eflags : Z;
  esp : Z; ss : Z;
}.
Definition zero_trapframe : trapframe :=
  mk_trapframe 0 0 0 0 0 0 0 0 0 0 0 0 0 0 0 0 0 0 0.

(** The saved kernel context: where [swtch] resumes the process. *)
Record context := mk_context {
  ctx_edi : Z; ctx_esi : Z; ctx_ebx : Z; ctx_ebp : Z; ctx_eip : Z;
}.

Record proc := mk_proc {
  sz : Z;                     (* Size of process memory (bytes) *)
  pgdir : Z;                  (* Page table *)
  kstack : Z;                 (* Bottom of kernel stack for this process *)
  state : procstate;          (* Process state *)
  pid : Z;                    (* Process ID *)
  parent : option nat;        (* Parent process *)
  tf : trapframe;             (* Trap frame for current syscall *)
  ctx : context;              (* swtch() here to run process *)
  chan : channel;             (* If non-zero, sleeping on chan *)
  killed : Z;                 (* If non-zero, have been killed *)
  ofile : list (option nat);  (* Open files *)
  cwd : option nat;           (* Current directory *)
  pname : list Z;             (* Process name (debugging) *)
  priority : Z;               (* MLFQ level *)
  pticks : Z;                 (* process ticks for quantum check *)
  ptotalticks : Z;            (* process ticks for allotment check *)
  isMLFQ : Z;                 (* does the process follow MLFQ scheduling? *)
  share : double;             (* process share *)
  stride : double;            (* process stride = STRIDENUM / share *)
  pass : double;              (* process pass += stride each tick *)
  tid : Z;                    (* thread ID *)
  retval : Z;                 (* from thread_exit to thread_join *)
  isThread : Z;               (* created by thread_create()? *)
  isMainThread : Z;           (* is it a main thread? *)
  usz : Z;                    (* end of the main thread's stack *)
  isThereExec : Z;            (* has a child LWP called exec()? *)
  cntThread : Z;              (* number of LWPs *)
  totalshare : Z;             (* total share of the LWPs of a pid *)
}.

(** struct tid of the thread table. *)
Record tident := mk_tident { tindex : Z; tstate : procstate }.

Record kernel (W : Type) := mk_kernel {
  mach : machine;
  ptable : list proc;
  ttable : list tident;
  initproc : option nat;
  nextpid : Z;
  nexttid : Z;
  MLFQPassVal : double;
  MLFQStrideVal : double;
  leftShare : double;
  checkpoint : Z;
  levturn : Z;
  MLFQ_ticks : Z;
  ticks : Z;
  yield_calls : Z;            (* the global [i] of sysproc.c *)
  kpgdir : Z;
  world : W;                  (* kalloc.c, vm.c, file.c, fs.c, log.c *)
}.
Arguments mk_kernel {W} _ _ _ _ _ _ _ _ _ _ _ _ _ _ _ _.
Arguments mach {W} _.
Arguments ptable {W} _.
Arguments ttable {W} _.
Arguments initproc {W} _.
Arguments nextpid {W} _.
Arguments nexttid {W} _.
Arguments MLFQPassVal {W} _.
Arguments MLFQStrideVal {W} _.
Arguments leftShare {W} _.
Arguments checkpoint {W} _.
Arguments levturn {W} _.
Arguments MLFQ_ticks {W} _.
Arguments ticks {W} _.
Arguments yield_calls {W} _.
Arguments kpgdir {W} _.
Arguments world {W} _.

Section KernelOps.
Context {W : Type}.

Definition on_mach {A} (m : M machine A) : M (kernel W) A :=
  zoom mach (fun m k => { k with mach := m }) m.
Definition on_world {A} (m : M W A) : M (kernel W) A :=
  zoom world (fun w k => { k with world := w }) m.

(** [*p] for a slot of the process table. *)
Definition getp (i : nat) : M (kernel W) proc :=
  k ← get;
  deref (ptable k !! i).
(** [p->field = ...] *)
Definition setp (i : nat) (f : proc -> proc) : M (kernel W) unit :=
  k ← get;
  _ ← deref (ptable k !! i);
  modify (fun k => { k with ptable ::= alter f i }).

(** [ttable.tid[t].state = st] *)
Definition set_tstate (t : Z) (st : procstate) : M (kernel W) unit :=
  k ← get;
  if (0 <=? t) && (t <? Z.of_nat NPROC)
  then modify (fun k => { k with ttable ::=
                 alter (fun e => { e with tstate := st }) (Z.to_nat t) })
  else fault.

(** [for(p = ptable.proc; p < &ptable.proc[NPROC]; p++)] *)
Definition slots : list nat := seq 0 NPROC.

Definition kacquire (lk : lockid) : M (kernel W) unit := on_mach (acquire lk).
Definition krelease (lk : lockid) : M (kernel W) unit := on_mach (release lk).
Definition kmyproc : M (kernel W) (option nat) := on_mach myproc.

(** [myproc()->...]: the current process, which must exist. *)
Definition curproc : M (kernel W) nat :=
  p ← kmyproc;
  deref p.

(** *** Running these operations *)
Lemma on_mach_ok {A} (m : M machine A) k a m' :
  m (mach k) = Ok a m' -> on_mach m k = Ok a { k with mach := m' }.
Proof. intros H. unfold on_mach, zoom. by rewrite H. Qed.

Lemma on_world_ok {A} (m : M W A) k a w' :
  m (world k) = Ok a w' -> on_world m k = Ok a { k with world := w' }.
Proof. intros H. unfold on_world, zoom. by rewrite H. Qed.

Lemma getp_ok i p (k : kernel W) : ptable k !! i = Some p -> getp i k = Ok p k.
Proof. intros H. unfold getp. msimpl. by rewrite H. Qed.

Lemma setp_ok i p f (k : kernel W) :
  ptable k !! i = Some p ->
  setp i f k = Ok tt { k with ptable := <[i := f p]> (ptable k) }.
Proof.
  intros H. unfold setp. msimpl. rewrite H. msimpl. cbn.
  by rewrite (alter_insert _ _ _ p).
Qed.

Lemma safe_getp E Q (R : proc -> kernel W -> Prop) i k :
  (forall p, ptable k !! i = Some p -> R p k) -> safe E Q R (getp i k).
Proof.
  intros H. destruct (ptable k !! i) as [p|] eqn:Hp.
  - rewrite (getp_ok _ _ _ Hp). by apply H.
  - unfold getp. msimpl. by rewrite Hp.
Qed.

Lemma safe_setp E Q (R : unit -> kernel W -> Prop) i f k :
  (forall p, ptable k !! i = Some p -> R tt { k with ptable := <[i := f p]> (ptable k) }) ->
  safe E Q R (setp i f k).
Proof.
  intros H. destruct (ptable k !! i) as [p|] eqn:Hp.
  - rewrite (setp_ok _ _ _ _ Hp). by apply H.
  - unfold setp. msimpl. by rewrite Hp.
Qed.

Lemma set_tstate_ok t st (k : kernel W) :
  0 <= t < Z.of_nat NPROC ->
  set_tstate t st k = Ok tt { k with ttable ::=
    alter (fun e => { e with tstate := st }) (Z.to_nat t) }.
Proof.
  intros Ht. unfold set_tstate. msimpl.
  by rewrite (proj2 (Z.leb_le _ _)), (proj2 (Z.ltb_lt _ _)) by lia.
Qed.

Lemma kacquire_ok (k : kernel W) i p hs lk :
  on (mach k) i p hs -> lk ∉ hs -> (length hs < 100)%nat ->
  exists m', kacquire lk k = Ok tt { k with mach := m' } /\ on m' i p (lk :: hs).
Proof.
  intros Hon Hlk Hlen.
  destruct (on_acquire _ _ _ _ _ Hon Hlk ltac:(lia)) as (m' & Ha & Hon').
  exists m'. split; [|done]. by apply on_mach_ok.
Qed.

Lemma krelease_ok (k : kernel W) i p hs1 hs2 lk :
  on (mach k) i p (hs1 ++ lk :: hs2) ->
  exists m', krelease lk k = Ok tt { k with mach := m' } /\ on m' i p (hs1 ++ hs2).
Proof.
  intros (m' & Ha & Hon')%on_release. exists m'. split; [|done]. by apply on_mach_ok.
Qed.

Lemma kmyproc_ok (k : kernel W) i p hs :
  on (mach k) i p hs ->
  exists m', kmyproc k = Ok p { k with mach := m' } /\ on m' i p hs.
Proof.
  intros (m' & Ha & Hon')%on_myproc. exists m'. split; [|done]. by apply on_mach_ok.
Qed.

Lemma curproc_ok (k : kernel W) i p hs :
  on (mach k) i (Some p) hs ->
  exists m', curproc k = Ok p { k with mach := m' } /\ on m' i (Some p) hs.
Proof.
  intros (m' & Ha & Hon')%kmyproc_ok. exists m'. split; [|done].
  unfold curproc. by rewrite (bind_ok _ _ _ _ _ Ha).
Qed.
End KernelOps.

(** [mstep H] runs the next operation of a sequence, whose outcome is [H];
    [mstep] alone runs an operation that succeeds by computation. *)
Tactic Notation "mstep" constr(H) :=
  erewrite bind_ok by first [exact H | apply on_mach_ok; exact H | apply on_world_ok; exact H
                            | apply getp_ok; exact H | apply setp_ok; exact H].
Tactic Notation "mstep" := erewrite bind_ok by reflexivity.

(** Reduces reads of fields of updated kernel states, and nothing else. *)
Ltac ksimpl :=
  cbn [tset RecordSettersUsingExistingGetters.set RecordSettersUsingExistingGetters.const
       gafu_getter gafu_field_updater
       mach ptable ttable initproc nextpid nexttid MLFQPassVal MLFQStrideVal leftShare
       checkpoint levturn MLFQ_ticks ticks yield_calls kpgdir world].

(** Looks up the slot that was just stored into. *)
Lemma lookup_stored {W} (k : kernel W) i p p0 :
  ptable k !! i = Some p0 -> ptable { k with ptable := <[i := p]> (ptable k) } !! i = Some p.
Proof. intros H. cbn. eapply list_lookup_insert_eq, lookup_lt_Some, H. Qed.

Lemma store_twice {W} (k : kernel W) i p q :
  let k' := { k with ptable := <[i := p]> (ptable k) } in
  { k' with ptable := <[i := q]> (ptable k') } = { k with ptable := <[i := q]> (ptable k) }.
Proof. cbn. by rewrite list_insert_insert_eq. Qed.

Ltac plookup := first [eassumption | eapply lookup_stored; plookup].
