(* ===== verification/Sched.v ===== *)
(** * The scheduler: MLFQ, stride scheduling, [yield] and CPU shares

    Models the scheduling half of proc.c ([sched], [yield], [MLFQ_Boost],
    [MLFQ_Scheduler], [findMinPass], [Stride_Scheduler], [cpu_share],
    [scheduler]), [switchuvm] and [switchkvm] of vm.c, the clock half of
    trap.c ([MLFQ_Check] and the tick accounting of [trap]) and
    set_cpu_share.c.

    [swtch] is the outcome [Swtch]: in the scheduler it hands the CPU to the
    process in [mycpu()->proc] and continues in whatever state that process
    leaves when it switches back.  The three textually identical loops of
    [MLFQ_Scheduler] are one definition with the level as argument; since a
    loop goes on for as long as it finds processes to run, it takes fuel. *)

From S2P Require Import Prelude Double Spinlock ProcState.
From S2P Require Import Kalloc.
Open Scope Z_scope.

Section Sched.
Context {W : Type}.
#[local] Abbreviation K := (kernel W).

(** ** vm.c: the hardware state of the process that is about to run *)
Definition switchkvm : M K unit :=
  k ← get;
  on_mach (modify (fun m => { m with cr3 := V2P (kpgdir k) })).

Definition switchuvm (p : option nat) : M K unit :=
  match p with
  | None => panic "switchuvm: no process"
  | Some i =>
      pr ← getp i;
      if kstack pr =? 0 then panic "switchuvm: no kstack"
      else if pgdir pr =? 0 then panic "switchuvm: no pgdir"
      else
        on_mach pushcli;;
        on_mach (set_mycpu (fun c => { c with ts_esp0 := u32 (kstack pr + KSTACKSIZE) }));;
        on_mach (modify (fun m => { m with cr3 := V2P (pgdir pr) }));;
        on_mach popcli
  end.

(** ** Giving up the CPU *)
Definition sched : M K unit :=
  p ← kmyproc;
  h ← on_mach (holding lk_ptable);
  if negb h then panic "sched ptable.lock"
  else
    c ← on_mach get_mycpu;
    if negb (ncli c =? 1) then panic "sched locks"
    else
      i ← deref p;
      pr ← getp i;
      if bool_decide (state pr = RUNNING) then panic "sched running"
      else
        k ← get;
        if IF (mach k) then panic "sched interruptible"
        else
          c ← on_mach get_mycpu;
          swtch;;
          on_mach (set_mycpu (fun c' => { c' with intena := intena c })).

Definition yield : M K unit :=
  kacquire lk_ptable;;
  p ← curproc;
  setp p (fun p => { p with state := RUNNABLE });;
  sched;;
  krelease lk_ptable.

(** ** MLFQ *)
Definition MLFQ_Boost : M K unit :=
  for_each slots (fun i =>
    p ← getp i;
    if negb (ctrue (isMLFQ p)) then mret tt
    else setp i (fun p => { p with priority := 0; pticks := 0; ptotalticks := 0 }));;
  modify (fun k => { k with MLFQ_ticks := 0 }).

(** The pass value added for a run at level 0, 1 and 2. *)
Definition level_pass (lev : Z) (v : double) : double :=
  if lev =? 0 then v
  else if lev =? 1 then f64_mul v (f64_of_Z 2)
  else f64_mul v (f64_of_Z 4).

(** [c->proc = p; switchuvm(p); p->state = RUNNING; swtch(...); switchkvm();
    c->proc = 0;] *)
Definition run_process (c p : nat) : M K unit :=
  on_mach (modify (fun m => { m with cpus ::= alter (fun c => { c with cproc := Some p }) c }));;
  switchuvm (Some p);;
  setp p (fun p => { p with state := RUNNING });;
  swtch;;
  switchkvm;;
  on_mach (modify (fun m => { m with cpus ::= alter (fun c => { c with cproc := None }) c })).

(** The body of a level loop for slot [p]: run the process if it is a
    RUNNABLE MLFQ process of level [lev]. *)
Definition MLFQ_visit (c : nat) (lev : Z) (p : nat) : M K unit :=
  pr ← getp p;
  if negb (isMLFQ pr =? 1) then mret tt
  else if negb (bool_decide (state pr = RUNNABLE)) || negb (priority pr =? lev)
  then mret tt
  else
    k ← get;
    when (f64_lt (leftShare k) (f64_of_Z 100))
      (modify (fun k => { k with MLFQPassVal :=
                 f64_add (MLFQPassVal k) (level_pass lev (MLFQStrideVal k)) }));;
    modify (fun k => { k with levturn := 0 });;
    run_process c p.

(** One of the three loops of [MLFQ_Scheduler], at its loop test. *)
Fixpoint MLFQ_loop (fuel : nat) (c : nat) (lev : Z) (p : nat) : M K unit :=
  match fuel with
  | O => no_fuel
  | S fuel' =>
      if negb (p <? NPROC)%nat then mret tt
      else
        k ← get;
        when (100 <=? MLFQ_ticks k) MLFQ_Boost;;
        k ← get;
        if levturn k =? 63 then mret tt
        else
          let p := if Z.rem (checkpoint k) 63 =? 0 then 0%nat else p in
          MLFQ_visit c lev p;;
          modify (fun k => { k with levturn := levturn k + 1;
                                    checkpoint := s32 (checkpoint k + 1) });;
          MLFQ_loop fuel' c lev (S p)
  end.

Definition MLFQ_level (fuel : nat) (c : nat) (lev : Z) : M K unit :=
  modify (fun k => { k with checkpoint := 0; levturn := 0 });;
  MLFQ_loop fuel c lev 0.

Definition MLFQ_Scheduler (fuel : nat) : M K unit :=
  _ ← kmyproc;
  c ← on_mach mycpu;
  on_mach (modify (fun m => { m with cpus ::= alter (fun c => { c with cproc := None }) c }));;
  MLFQ_level fuel c 0;;
  MLFQ_level fuel c 1;;
  MLFQ_level fuel c 2;;
  k ← get;
  when (f64_lt (leftShare k) (f64_of_Z 100))
    (modify (fun k => { k with MLFQPassVal := f64_add (MLFQPassVal k) (MLFQStrideVal k) })).

(** ** Stride scheduling *)

(** The scan of [findMinPass]: [max] is the [uint] [max], [min] the pointer. *)
Fixpoint minpass_scan (i : nat) (l : list proc) (max : Z) (min : option nat) : Z * option nat :=
  match l with
  | [] => (max, min)
  | p :: l' =>
      if isMLFQ p =? 1 then minpass_scan (S i) l' max min
      else if negb (bool_decide (state p = RUNNABLE)) then minpass_scan (S i) l' max min
      else if f64_lt (pass p) (f64_of_Z max)
      then minpass_scan (S i) l' (u32 (f64_trunc (pass p))) (Some i)
      else minpass_scan (S i) l' max min
  end.

Definition find_min_pass (k : K) : option nat :=
  let '(max, min) := minpass_scan 0 (ptable k) 3000000000 None in
  if f64_lt (MLFQPassVal k) (f64_of_Z max) then None else min.

Definition findMinPass : M K (option nat) := gets find_min_pass.

Definition Stride_Scheduler (p : nat) : M K unit :=
  c ← on_mach mycpu;
  on_mach (modify (fun m => { m with cpus ::= alter (fun c => { c with cproc := None }) c }));;
  setp p (fun p => { p with pass := f64_add (pass p) (stride p) });;
  run_process c p.

(** One iteration of the [for(;;)] of [scheduler]. *)
Definition scheduler_round (fuel : nat) : M K unit :=
  k ← get;
  when (100 <=? MLFQ_ticks k) MLFQ_Boost;;
  on_mach sti;;
  kacquire lk_ptable;;
  k ← get;
  (if f64_le (f64_of_Z 100) (leftShare k) then MLFQ_Scheduler fuel
   else if f64_lt (leftShare k) (f64_of_Z 100) then
     min ← findMinPass;
     match min with
     | None => MLFQ_Scheduler fuel
     | Some p => Stride_Scheduler p
     end
   else mret tt);;
  krelease lk_ptable.

Fixpoint scheduler_rounds (rounds fuel : nat) : M K unit :=
  match rounds with
  | O => no_fuel
  | S r => scheduler_round fuel;; scheduler_rounds r fuel
  end.

Definition scheduler (rounds fuel : nat) : M K unit :=
  c ← on_mach mycpu;
  on_mach (modify (fun m => { m with cpus ::= alter (fun c => { c with cproc := None }) c }));;
  scheduler_rounds rounds fuel.

(** ** CPU shares *)

(** [t->pass = tmp == 0 ? MLFQPassVal : tmp->pass] *)
Definition join_pass (tmp : option nat) (t : nat) : M K unit :=
  match tmp with
  | None => k ← get; setp t (fun p => { p with pass := MLFQPassVal k })
  | Some m => pm ← getp m; setp t (fun p => { p with pass := pass pm })
  end.

Definition cpu_share (shr : Z) : M K unit :=
  p ← curproc;
  pr ← getp p;
  (* charge the share to the process (or to the parent of an LWP) *)
  (if ctrue (isMainThread pr) then
     setp p (fun p => { p with totalshare := s32 (totalshare p + shr) });;
     pr ← getp p;
     if 100 <? totalshare pr then panic "cpu share overflow"
     else modify (fun k => { k with leftShare :=
                               f64_sub (leftShare k) (f64_of_Z (totalshare pr)) })
   else
     q ← deref (parent pr);
     setp q (fun p => { p with totalshare := s32 (totalshare p + shr) });;
     qr ← getp q;
     if 100 <? totalshare qr then panic "cpu share overflow"
     else modify (fun k => { k with leftShare :=
                               f64_sub (leftShare k) (f64_of_Z (totalshare qr)) }));;
  modify (fun k => { k with MLFQStrideVal := f64_div (f64_of_Z STRIDENUM) (leftShare k) });;
  tmp ← findMinPass;
  pr ← getp p;
  if ctrue (isMainThread pr) && (1 <? cntThread pr) then
    for_each slots (fun t =>
      tr ← getp t;
      pr ← getp p;
      when (pid tr =? pid pr)
        (setp t (fun q => { q with isMLFQ := 0;
                                   share := f64_of_Z (Z.quot (totalshare pr) (cntThread pr)) });;
         setp t (fun q => { q with stride := f64_div (f64_of_Z STRIDENUM) (share q) });;
         join_pass tmp t))
  else if ctrue (isThread pr) then
    for_each slots (fun t =>
      tr ← getp t;
      pr ← getp p;
      when (pid tr =? pid pr)
        (q ← deref (parent pr);
         qr ← getp q;
         if cntThread qr =? 0 then fault
         else
           setp t (fun q => { q with isMLFQ := 0;
                                     share := f64_of_Z (Z.quot shr (cntThread qr)) });;
           setp t (fun q => { q with stride := f64_div (f64_of_Z STRIDENUM) (share q) });;
           join_pass tmp t))
  else
    if shr =? 0 then fault
    else
      setp p (fun p => { p with isMLFQ := 0; share := f64_of_Z shr;
                                stride := f64_of_Z (Z.quot STRIDENUM shr) });;
      join_pass tmp p.

Definition set_cpu_share (shr : Z) : M K Z :=
  k ← get;
  if f64_lt (f64_sub (leftShare k) (f64_of_Z shr)) (f64_of_Z 20) then mret (-1)
  else if shr =? 0 then mret (-1)
  else
    cpu_share shr;;
    mret shr.

(** ** The clock *)
Definition timeQuantumPerQ : list Z := [1; 2; 4].
Definition timeAllotmentPerQ : list Z := [5; 10].

(** [a[i]] for one of the two arrays. *)
Definition at_level (a : list Z) (i : Z) : M K Z :=
  if i <? 0 then fault else deref (a !! Z.to_nat i).

Definition MLFQ_Check : M K unit :=
  p ← curproc;
  pr ← getp p;
  q ← at_level timeQuantumPerQ (priority pr);
  if q <=? pticks pr then
    setp p (fun p => { p with pticks := 0 });;
    pr ← getp p;
    (if priority pr <? 2 then
       a ← at_level timeAllotmentPerQ (priority pr);
       when (a <=? ptotalticks pr)
         (setp p (fun p => { p with ptotalticks := 0; priority := priority p + 1 }))
     else mret tt);;
    yield
  else mret tt.

(** The end of [trap] on a timer interrupt: charge the tick and reschedule. *)
Definition trap_tick : M K unit :=
  p ← kmyproc;
  match p with
  | None => mret tt
  | Some i =>
      pr ← getp i;
      if negb (bool_decide (state pr = RUNNING)) then mret tt
      else if ctrue (isMLFQ pr) then
        modify (fun k => { k with MLFQ_ticks := u32 (MLFQ_ticks k + 1) });;
        setp i (fun p => { p with pticks := s32 (pticks p + 1) });;
        setp i (fun p => { p with ptotalticks := s32 (ptotalticks p + 1) });;
        MLFQ_Check
      else yield
  end.

Definition sys_getlev : M K Z :=
  p ← curproc;
  pr ← getp p;
  mret (priority pr).

(** Every twentieth call is charged a tick. *)
Definition sys_yield : M K Z :=
  modify (fun k => { k with yield_calls := u32 (yield_calls k + 1) });;
  k ← get;
  when (yield_calls k mod 20 =? 0)
    (modify (fun k => { k with MLFQ_ticks := u32 (MLFQ_ticks k + 1) });;
     p ← curproc;
     setp p (fun p => { p with pticks := s32 (pticks p + 1) });;
     setp p (fun p => { p with ptotalticks := s32 (ptotalticks p + 1) }));;
  yield;;
  mret 0.
End Sched.
