(* ===== verification/SchedTheory.v ===== *)
(** * Correctness of the scheduler

    Theorems about the definitions of Sched.v: which process the MLFQ and the
    stride scheduler choose, the accounting of clock ticks, priority boosting
    and CPU shares. *)

From S2P Require Import Prelude Double Spinlock ProcState Kalloc Sched.
Open Scope Z_scope.

Section Theory.
Context {W : Type}.
Implicit Types k : kernel W.

(** ** Stride scheduling: the choice of [findMinPass] *)

(** The processes [findMinPass] looks at. *)
Definition stride_ready (p : proc) : Prop := isMLFQ p <> 1 /\ state p = RUNNABLE.
#[export] Instance stride_ready_dec p : Decision (stride_ready p).
Proof. unfold stride_ready. apply _. Defined.

(** The integer part of a pass value, which is what the scan compares. *)
Definition ipass (p : proc) : Z := f64_trunc (pass p).

Definition passes_ok (l : list proc) : Prop :=
  Forall (fun p => stride_ready p -> f64_nonneg (pass p)) l.

(** What the scan of the suffix [l] of the table, which starts at slot [i0],
    makes of the pair [(max, min)]. *)
Definition scan_result (i0 : nat) (l : list proc) (max : Z) (min : option nat)
    (r : Z * option nat) : Prop :=
  0 <= r.1 <= max /\
  ((r = (max, min) /\ forall q, q ∈ l -> stride_ready q -> max <= ipass q)
   \/ exists i p, r.2 = Some (i0 + i)%nat /\ l !! i = Some p /\ stride_ready p
        /\ r.1 = ipass p /\ r.1 < max
        /\ forall j q, l !! j = Some q -> stride_ready q ->
               r.1 <= ipass q /\ ((j < i)%nat -> r.1 < ipass q)).

Lemma scan_result_skip i0 p l max min r :
  (stride_ready p -> max <= ipass p) ->
  scan_result (S i0) l max min r -> scan_result i0 (p :: l) max min r.
Proof.
  intros Hge [Hr [(-> & H)|(i & q & Hi & Hl & Hq & E & Hlt & H)]]; split; try done.
  - left. split; [done|]. intros q [->|Hq]%elem_of_cons; auto.
  - right. exists (S i), q. split_and!; auto; [rewrite Hi; f_equal; lia|].
    intros [|j] q' Hq' Hrd; simpl in Hq'.
    + simplify_eq. specialize (Hge Hrd). lia.
    + destruct (H j q' Hq' Hrd) as [H1 H2]. split; [done|]. intros. apply H2. lia.
Qed.

Lemma scan_result_take i0 p l max min r :
  stride_ready p -> ipass p < max ->
  scan_result (S i0) l (ipass p) (Some i0) r -> scan_result i0 (p :: l) max min r.
Proof.
  intros Hrd Hlt [Hr [(-> & H)|(i & q & Hi & Hl & Hq & E & Hlt' & H)]];
    (split; [cbn in *; lia|]); right.
  - exists 0%nat, p. rewrite Nat.add_0_r. cbn in *. split_and!; auto.
    intros [|j] q Hq Hrq; simpl in Hq; simplify_eq; [lia|].
    split; [|lia]. apply H; [|done]. by eapply list_elem_of_lookup_2.
  - exists (S i), q. split_and!; auto; [rewrite Hi; f_equal; lia|lia|].
    intros [|j] q' Hq' Hrq; simpl in Hq'; simplify_eq; [lia|].
    destruct (H j q' Hq' Hrq) as [H1 H2]. split; [done|]. intros. apply H2. lia.
Qed.

Lemma minpass_scan_spec l i0 max min :
  passes_ok l -> 0 <= max <= 3000000000 ->
  scan_result i0 l max min (minpass_scan i0 l max min).
Proof.
  revert i0 max min. induction l as [|p l IH]; intros i0 max min Hok Hmax; simpl.
  { split; [cbn; lia|]. left. split; [done|]. intros q Hq. set_solver. }
  apply list.Forall_cons in Hok as [Hp Hok].
  destruct (Z.eqb_spec (isMLFQ p) 1) as [E|E].
  { apply scan_result_skip; [intros [? _]; done|]. by apply IH. }
  destruct (decide (state p = RUNNABLE)) as [Hs|Hs]; cycle 1.
  { rewrite (bool_decide_false _ Hs). simpl.
    apply scan_result_skip; [intros [_ ?]; done|]. by apply IH. }
  rewrite (bool_decide_true _ Hs). simpl.
  assert (stride_ready p) as Hrd by (split; done).
  rewrite f64_lt_of_Z by (auto || lia). fold (ipass p).
  destruct (Z.ltb_spec (ipass p) max) as [Hlt|Hge].
  - assert (0 <= ipass p) by (apply f64_trunc_nonneg; auto).
    rewrite u32_small by lia. apply scan_result_take; auto. apply IH; [done|lia].
  - apply scan_result_skip; [auto|]. by apply IH.
Qed.

(** C6: [findMinPass] chooses, among the RUNNABLE processes that follow the
    stride scheduler, the first one in the table whose pass value has the
    least integer part, provided this does not exceed the integer part of
    the pass value of the MLFQ scheduler; otherwise (or if there is no such
    process with a pass below 3000000000) it returns null, and the MLFQ
    scheduler runs. *)
Theorem findMinPass_chooses_minimum k :
  passes_ok (ptable k) -> f64_nonneg (MLFQPassVal k) ->
  match find_min_pass k with
  | Some i => exists p, ptable k !! i = Some p /\ stride_ready p
      /\ ipass p < 3000000000
      /\ ipass p <= f64_trunc (MLFQPassVal k)
      /\ (forall j q, ptable k !! j = Some q -> stride_ready q ->
             ipass p <= ipass q /\ ((j < i)%nat -> ipass p < ipass q))
  | None =>
      forall q, q ∈ ptable k -> stride_ready q ->
        f64_trunc (MLFQPassVal k) < ipass q \/ 3000000000 <= ipass q
  end.
Proof.
  intros Hok HM. unfold find_min_pass.
  pose proof (minpass_scan_spec (ptable k) 0 3000000000 None Hok ltac:(lia)) as H.
  destruct (minpass_scan 0 (ptable k) 3000000000 None) as [max min].
  destruct H as [Hr [(E & H)|(i & p & E & Hi & Hp & E' & Hl & H)]]; cbn in *; simplify_eq;
    rewrite f64_lt_of_Z by (done || lia);
    match goal with |- context [?a <? ?b] => destruct (Z.ltb_spec a b) end.
  - intros q Hq Hrd. right. by apply H.
  - intros q Hq Hrd. right. by apply H.
  - intros q Hq Hrd. left. apply list_elem_of_lookup in Hq as [j Hj].
    destruct (H j q Hj Hrd). lia.
  - exists p. split_and!; auto.
Qed.

(** ** Dispatching a process *)
Lemma on_mach_bind {A B} (m : M machine A) (f : A -> M machine B) k a m' :
  m (mach k) = Ok a m' -> on_mach (m ≫= f) k = on_mach (f a) { k with mach := m' }.
Proof.
  intros H. unfold on_mach, zoom. rewrite (bind_ok _ _ _ _ _ H).
  cbn. by destruct (f a m').
Qed.

Lemma switchuvm_ok k i p hs q pr :
  on (mach k) i p hs -> ptable k !! q = Some pr -> kstack pr <> 0 -> pgdir pr <> 0 ->
  exists m', switchuvm (Some q) k = Ok tt { k with mach := m' } /\ on m' i p hs.
Proof.
  intros Hon Hq Hs Hg. unfold switchuvm.
  rewrite (bind_ok _ _ _ _ _ (getp_ok _ _ _ Hq)).
  rewrite (proj2 (Z.eqb_neq _ _) Hs), (proj2 (Z.eqb_neq _ _) Hg).
  destruct (on_push_pop _ _ _ _
    (fun c => { c with ts_esp0 := u32 (kstack pr + KSTACKSIZE) }) (V2P (pgdir pr)) Hon)
    as (m' & Hm & Hon'); [done|].
  exists m'. split; [|done].
  apply bind_inv_ok in Hm as ([] & m1 & H1 & Hm).
  apply bind_inv_ok in Hm as ([] & m2 & H2 & Hm). msimpl in Hm.
  mstep H1. mstep H2. mstep.
  erewrite on_mach_ok by exact Hm. done.
Qed.

(** The state in which CPU [c] gives control to process [q]. *)
Definition dispatched (c q : nat) (pr : proc) (k s : kernel W) : Prop :=
  exists m', s = { k with mach := m'; ptable := <[q := { pr with state := RUNNING }]> (ptable k) }
             /\ on m' c (Some q) [lk_ptable].

Lemma run_process_ok k c q pr :
  on (mach k) c None [lk_ptable] -> ptable k !! q = Some pr ->
  kstack pr <> 0 -> pgdir pr <> 0 ->
  exists s kont, run_process c q k = Swtch s kont /\ dispatched c q pr k s.
Proof.
  intros Hon Hq Hs Hg. unfold run_process.
  mstep.
  pose proof (on_set_cproc _ _ _ _ (Some q) Hon) as Hon1.
  mstate ltac:(fun st =>
    destruct (switchuvm_ok st _ _ _ q pr Hon1 Hq Hs Hg) as (m' & Hsw & Hon2)).
  mstep Hsw. erewrite bind_ok by (by apply setp_ok).
  eexists _, _. split; [apply bind_swtch; done|].
  exists m'. done.
Qed.

(** ** MLFQ: the choice of the level loops *)
Definition mlfq_ready (lev : Z) (p : proc) : Prop :=
  isMLFQ p = 1 /\ state p = RUNNABLE /\ priority p = lev.
#[export] Instance mlfq_ready_dec lev p : Decision (mlfq_ready lev p).
Proof. unfold mlfq_ready. apply _. Defined.

(** The pass value charged to the MLFQ scheduler for a run at level [lev]. *)
Definition charged k (lev : Z) : kernel W :=
  if f64_lt (leftShare k) (f64_of_Z 100)
  then { k with MLFQPassVal := f64_add (MLFQPassVal k) (level_pass lev (MLFQStrideVal k)) }
  else k.

Lemma MLFQ_visit_spec c lev i k p :
  ptable k !! i = Some p ->
  MLFQ_visit c lev i k =
    if bool_decide (mlfq_ready lev p)
    then run_process c i { charged k lev with levturn := 0 }
    else Ok tt k.
Proof.
  intros Hp. unfold MLFQ_visit. rewrite (bind_ok _ _ _ _ _ (getp_ok _ _ _ Hp)).
  unfold mlfq_ready. destruct (Z.eqb_spec (isMLFQ p) 1) as [E1|E1]; cbn [negb].
  2: { rewrite bool_decide_false by naive_solver. done. }
  destruct (decide (state p = RUNNABLE)) as [E2|E2].
  2: { rewrite !bool_decide_false by naive_solver. done. }
  rewrite (bool_decide_true (state p = RUNNABLE)) by done. cbn [negb orb].
  destruct (Z.eqb_spec (priority p) lev) as [E3|E3]; cbn [negb].
  2: { rewrite bool_decide_false by naive_solver. done. }
  rewrite bool_decide_true by done. mstep. unfold charged, when.
  by destruct (f64_lt (leftShare k) (f64_of_Z 100)).
Qed.

(** The cursor variables after looking at [j] slots in vain. *)
Definition cursor k (j : nat) : kernel W :=
  { k with checkpoint := Z.of_nat j; levturn := Z.of_nat j }.

Lemma cursor_slot (j : nat) :
  (j < 63)%nat -> (if Z.rem (Z.of_nat j) 63 =? 0 then 0%nat else j) = j.
Proof.
  intros Hj. rewrite Z.rem_small by lia. destruct (Z.eqb_spec (Z.of_nat j) 0); lia.
Qed.

(** One iteration with the boost not due and the scan not finished. *)
Lemma MLFQ_loop_visit f c lev j k :
  MLFQ_ticks k < 100 -> (j < 63)%nat ->
  MLFQ_loop (S f) c lev j (cursor k j) =
    (MLFQ_visit c lev j;;
     modify (fun k => { k with levturn := levturn k + 1;
                               checkpoint := s32 (checkpoint k + 1) });;
     MLFQ_loop f c lev (S j)) (cursor k j).
Proof.
  intros Ht Hj. cbn [MLFQ_loop].
  rewrite (proj2 (Nat.ltb_lt j NPROC)) by (unfold NPROC; lia). cbn [negb].
  mstep. change (MLFQ_ticks (cursor k j)) with (MLFQ_ticks k).
  rewrite (proj2 (Z.leb_gt _ _)) by lia. mstep. mstep.
  change (levturn (cursor k j)) with (Z.of_nat j).
  change (checkpoint (cursor k j)) with (Z.of_nat j).
  rewrite (proj2 (Z.eqb_neq _ _)) by lia. by rewrite cursor_slot.
Qed.

Lemma MLFQ_loop_skip f c lev j k p :
  MLFQ_ticks k < 100 -> (j < 63)%nat -> ptable k !! j = Some p -> ~ mlfq_ready lev p ->
  MLFQ_loop (S f) c lev j (cursor k j) = MLFQ_loop f c lev (S j) (cursor k (S j)).
Proof.
  intros Ht Hj Hp Hn. rewrite MLFQ_loop_visit by done.
  erewrite bind_ok; [|by rewrite (MLFQ_visit_spec _ _ _ _ p), bool_decide_false].
  mstep. f_equal. unfold cursor. cbn. rewrite s32_small by lia.
  f_equal; lia.
Qed.

Lemma MLFQ_loop_skips n f c lev j k :
  MLFQ_ticks k < 100 -> (j + n <= 63)%nat -> (63 <= length (ptable k))%nat ->
  (forall i p, (j <= i < j + n)%nat -> ptable k !! i = Some p -> ~ mlfq_ready lev p) ->
  MLFQ_loop (n + f) c lev j (cursor k j) = MLFQ_loop f c lev (j + n) (cursor k (j + n)).
Proof.
  revert j. induction n as [|n IH]; intros j Ht Hj Hlen Hn.
  { by rewrite Nat.add_0_r. }
  destruct (lookup_lt_is_Some_2 (ptable k) j) as [p Hp]; [lia|].
  cbn [Nat.add]. rewrite (MLFQ_loop_skip _ c lev j k p); [|done|lia|done|apply (Hn j); [lia|done]].
  rewrite IH; [by rewrite Nat.add_succ_comm|done|lia|done|].
  intros i q Hi. apply Hn. lia.
Qed.

(** With no process ready at its level, a loop looks at the slots 0 to 62 and
    ends. *)
Lemma MLFQ_level_idle f c lev k :
  MLFQ_ticks k < 100 -> (63 <= length (ptable k))%nat -> (64 <= f)%nat ->
  (forall i p, (i < 63)%nat -> ptable k !! i = Some p -> ~ mlfq_ready lev p) ->
  MLFQ_level f c lev k = Ok tt (cursor k 63).
Proof.
  intros Ht Hlen Hf Hn. unfold MLFQ_level. mstep.
  replace f with (63 + S (f - 64))%nat by lia.
  change (MLFQ_loop (63 + S (f - 64)) c lev 0 (cursor k 0) = Ok tt (cursor k 63)).
  rewrite MLFQ_loop_skips; auto; [|intros i p ?; apply Hn; lia].
  cbn [MLFQ_loop Nat.add Nat.ltb Nat.leb NPROC negb]. msimpl. cbn [cursor].
  change (MLFQ_ticks (cursor k 63)) with (MLFQ_ticks k).
  rewrite (proj2 (Z.leb_gt _ _)) by lia. done.
Qed.

(** Otherwise it runs the first ready process among the slots 0 to 62. *)
Lemma MLFQ_level_runs f c lev k i p :
  MLFQ_ticks k < 100 -> (63 <= length (ptable k))%nat -> (64 <= f)%nat -> (i < 63)%nat ->
  ptable k !! i = Some p -> mlfq_ready lev p ->
  (forall j q, (j < i)%nat -> ptable k !! j = Some q -> ~ mlfq_ready lev q) ->
  on (mach k) c None [lk_ptable] -> kstack p <> 0 -> pgdir p <> 0 ->
  exists s kont, MLFQ_level f c lev k = Swtch s kont
    /\ dispatched c i p { charged k lev with checkpoint := Z.of_nat i; levturn := 0 } s.
Proof.
  intros Ht Hlen Hf Hi Hp Hr Hn Hon Hs Hg. unfold MLFQ_level. mstep.
  replace f with (i + S (f - S i))%nat by lia.
  change (exists s kont, MLFQ_loop (i + S (f - S i)) c lev 0 (cursor k 0) = Swtch s kont
    /\ dispatched c i p { charged k lev with checkpoint := Z.of_nat i; levturn := 0 } s).
  rewrite MLFQ_loop_skips; [|lia..|intros j q ?; apply Hn; lia].
  rewrite MLFQ_loop_visit by done.
  destruct (run_process_ok { charged (cursor k i) lev with levturn := 0 } c i p)
    as (s & kont & Hrun & Hd); try done.
  1,2: unfold charged; by destruct (f64_lt _ _).
  eexists s, _. split.
  - apply bind_swtch. rewrite (MLFQ_visit_spec _ _ _ _ p), bool_decide_true by done.
    exact Hrun.
  - unfold charged in *. change (leftShare (cursor k i)) with (leftShare k) in Hd.
    by destruct (f64_lt (leftShare k) (f64_of_Z 100)).
Qed.

(** Reference: the first ready process of the highest level (the least
    number) among the slots 0 to 62. *)
Definition pick_level (lev : Z) (l : list proc) : option nat :=
  fst <$> list_find (mlfq_ready lev) (take 63 l).
Definition mlfq_pick (l : list proc) : option (Z * nat) :=
  match pick_level 0 l, pick_level 1 l, pick_level 2 l with
  | Some i, _, _ => Some (0, i)
  | None, Some i, _ => Some (1, i)
  | None, None, Some i => Some (2, i)
  | None, None, None => None
  end.

Lemma pick_level_Some lev l i :
  pick_level lev l = Some i ->
  exists p, l !! i = Some p /\ (i < 63)%nat /\ mlfq_ready lev p
    /\ forall j q, (j < i)%nat -> l !! j = Some q -> ~ mlfq_ready lev q.
Proof.
  unfold pick_level. intros ([i' p] & Hi & E)%fmap_Some. cbn in E. subst i'.
  apply list_find_Some in Hi as (Hp & Hr & Hn).
  apply lookup_take_Some in Hp as [Hp Hi]. exists p. split_and!; auto.
  intros j q Hj Hq. apply (Hn j q); [|done]. apply lookup_take_Some. split; [done|lia].
Qed.

Lemma pick_level_None lev l :
  pick_level lev l = None ->
  forall i p, (i < 63)%nat -> l !! i = Some p -> ~ mlfq_ready lev p.
Proof.
  unfold pick_level. intros Hf%fmap_None%list_find_None i p Hi Hp.
  rewrite Forall_lookup in Hf. apply (Hf i). by apply lookup_take_Some.
Qed.

(** Every process that can be run has a kernel stack and a page table. *)
Definition runnable_ok (l : list proc) : Prop :=
  forall i p, l !! i = Some p -> state p = RUNNABLE -> kstack p <> 0 /\ pgdir p <> 0.

Lemma MLFQ_level_pick f c lev k :
  on (mach k) c None [lk_ptable] -> MLFQ_ticks k < 100 ->
  (63 <= length (ptable k))%nat -> (64 <= f)%nat -> runnable_ok (ptable k) ->
  match pick_level lev (ptable k) with
  | Some i => exists p s kont, ptable k !! i = Some p /\ mlfq_ready lev p
      /\ MLFQ_level f c lev k = Swtch s kont
      /\ dispatched c i p { charged k lev with checkpoint := Z.of_nat i; levturn := 0 } s
  | None => MLFQ_level f c lev k = Ok tt (cursor k 63)
  end.
Proof.
  intros Hon Ht Hlen Hf Hok. destruct (pick_level lev (ptable k)) as [i|] eqn:E.
  - apply pick_level_Some in E as (p & Hp & Hi & Hr & Hn).
    destruct (Hok i p Hp) as [Hs Hg]; [apply Hr|].
    destruct (MLFQ_level_runs f c lev k i p) as (s & kont & H1 & H2); eauto 10.
  - apply MLFQ_level_idle; auto. by apply pick_level_None.
Qed.

(** C3: [MLFQ_Scheduler], entered with the process table locked and no boost
    due, runs the process the reference picks, charging the MLFQ pass value
    by one, two or four strides according to its level (when stride
    processes exist).  When the reference picks none, the three loops end
    and only the pass value moves, by one stride. *)
Theorem MLFQ_Scheduler_picks fuel c k :
  on (mach k) c None [lk_ptable] -> MLFQ_ticks k < 100 ->
  (63 <= length (ptable k))%nat -> (64 <= fuel)%nat -> runnable_ok (ptable k) ->
  exists m', on m' c None [lk_ptable] /\
  let k0 := { k with mach := m' } in
  match mlfq_pick (ptable k) with
  | Some (lev, i) => exists p s kont, ptable k !! i = Some p /\ mlfq_ready lev p
      /\ MLFQ_Scheduler fuel k = Swtch s kont
      /\ dispatched c i p { charged k0 lev with checkpoint := Z.of_nat i; levturn := 0 } s
  | None => MLFQ_Scheduler fuel k = Ok tt (charged (cursor k0 63) 0)
  end.
Proof.
  intros Hon Ht Hlen Hf Hok. unfold MLFQ_Scheduler.
  destruct (kmyproc_ok k c None _ Hon) as (m1 & H1 & Hon1). mstep H1.
  pose proof (on_mycpu _ _ _ _ Hon1 ltac:(done)) as Hc. mstep Hc. mstep.
  pose proof (on_set_cproc _ _ _ _ None Hon1) as Hon2. cbn in Hon2.
  mstate ltac:(fun st => set (k0 := st)). exists (mach k0). split; [exact Hon2|].
  change { k with mach := mach k0 } with k0. cbv zeta. unfold mlfq_pick.
  pose proof (MLFQ_level_pick fuel c 0 k0 Hon2 Ht Hlen Hf Hok) as P0.
  change (ptable k0) with (ptable k) in P0. destruct (pick_level 0 (ptable k)) as [i|].
  { destruct P0 as (p & s & kont & Hp & Hr & Hl & Hd).
    eexists p, s, _. split_and!; [done..| |done]. by apply bind_swtch. }
  mstep P0.
  pose proof (MLFQ_level_pick fuel c 1 (cursor k0 63) Hon2 Ht Hlen Hf Hok) as P1.
  change (ptable (cursor k0 63)) with (ptable k) in P1.
  destruct (pick_level 1 (ptable k)) as [i|].
  { destruct P1 as (p & s & kont & Hp & Hr & Hl & Hd).
    eexists p, s, _. split_and!; [done..| |].
    - by apply bind_swtch.
    - unfold charged in *. change (leftShare (cursor k0 63)) with (leftShare k0) in Hd.
      by destruct (f64_lt _ _). }
  mstep P1. change (cursor (cursor k0 63) 63) with (cursor k0 63).
  pose proof (MLFQ_level_pick fuel c 2 (cursor k0 63) Hon2 Ht Hlen Hf Hok) as P2.
  change (ptable (cursor k0 63)) with (ptable k) in P2.
  destruct (pick_level 2 (ptable k)) as [i|].
  { destruct P2 as (p & s & kont & Hp & Hr & Hl & Hd).
    eexists p, s, _. split_and!; [done..| |].
    - by apply bind_swtch.
    - unfold charged in *. change (leftShare (cursor k0 63)) with (leftShare k0) in Hd.
      by destruct (f64_lt _ _). }
  mstep P2. mstep. change (cursor (cursor k0 63) 63) with (cursor k0 63).
  unfold charged, when. by destruct (f64_lt _ _).
Qed.

(** ** MLFQ: the slots that are ever dispatched *)

(** What a process may do while it has the CPU, as far as the loops are
    concerned: it does not move their cursor. *)
Definition same_cursor (s s' : kernel W) : Prop :=
  checkpoint s' = checkpoint s /\ length (cpus (mach s')) = length (cpus (mach s)).

Definition runs_slot (c : nat) (P : nat -> Prop) (s : kernel W) : Prop :=
  exists p, cproc <$> (cpus (mach s) !! c) = Some (Some p) /\ P p.

(** The loops' invariant: CPU [c] exists and the cursor is [cp]. *)
Definition at_cursor (c : nat) (cp : Z) (s : kernel W) : Prop :=
  (c < length (cpus (mach s)))%nat /\ checkpoint s = cp.

Lemma same_procs_length m m' : same_procs m m' -> length (cpus m') = length (cpus m).
Proof.
  intros H. rewrite <- (length_fmap cproc (cpus m')), <- (length_fmap cproc (cpus m)).
  f_equal. apply list_eq. intros i. rewrite !list_lookup_fmap. apply H.
Qed.

(** The state of CPU [c] on the way to the switch to [p]. *)
Definition running_on (c p : nat) (cp : Z) (s : kernel W) : Prop :=
  cproc <$> (cpus (mach s) !! c) = Some (Some p) /\ at_cursor c cp s.

Lemma safe_on_mach {A} E Q (op : M machine A) c p cp (s : kernel W) :
  keeps_procs op -> running_on c p cp s ->
  safe E Q (fun _ => running_on c p cp) (on_mach op s).
Proof.
  intros Hop [H1 [H2 H3]]. eapply safe_mono; [apply safe_zoom, Hop|].
  intros a s' (m' & Hm & ->). split; [by cbn; rewrite Hm|].
  split; [|done]. cbn. by rewrite (same_procs_length _ _ Hm).
Qed.

Lemma safe_switchuvm E Q c p cp s :
  running_on c p cp s ->
  safe E Q (fun _ => running_on c p cp) (switchuvm (Some p) s).
Proof.
  intros Hs. unfold switchuvm.
  apply safe_bind with (R := fun _ => running_on c p cp).
  { by apply safe_getp. }
  intros pr s1 H1. destruct (kstack pr =? 0); [done|]. destruct (pgdir pr =? 0); [done|].
  eapply safe_bind; [apply safe_on_mach; [apply keeps_procs_pushcli|done]|]. intros [] s2 H2.
  eapply safe_bind; [apply safe_on_mach; [by apply keeps_procs_set_mycpu|done]|]. intros [] s3 H3.
  eapply safe_bind; [apply safe_on_mach; [done|done]|]. intros [] s4 H4.
  apply safe_on_mach; [apply keeps_procs_popcli|done].
Qed.

Lemma safe_run_process (P : nat -> Prop) c p cp s :
  P p -> at_cursor c cp s ->
  safe same_cursor (runs_slot c P) (fun _ => at_cursor c cp) (run_process c p s).
Proof.
  intros HP [Hc Hcp]. unfold run_process.
  apply safe_bind with (R := fun _ => running_on c p cp).
  { destruct (lookup_lt_is_Some_2 (cpus (mach s)) c Hc) as [cc Hcc].
    split; cbn; [by rewrite list_lookup_alter_eq, Hcc|]. by split; cbn; [rewrite length_alter|]. }
  intros [] s1 H1. eapply safe_bind; [by apply safe_switchuvm|]. intros [] s2 H2.
  apply safe_bind with (R := fun _ => running_on c p cp).
  { by apply safe_setp. }
  intros [] s3 [Hr [Hl3 Hcp3]]. apply safe_bind with (R := fun _ => at_cursor c cp).
  { split; [by exists p|]. intros s4 [E1 E2]. by split; [rewrite E2|rewrite E1]. }
  intros [] s4 H4. apply safe_bind with (R := fun _ => at_cursor c cp); [done|].
  intros [] s5 [H5 E5]. by split; cbn; [rewrite length_alter|].
Qed.

Lemma safe_MLFQ_visit (P : nat -> Prop) c lev p cp s :
  P p -> at_cursor c cp s ->
  safe same_cursor (runs_slot c P) (fun _ => at_cursor c cp) (MLFQ_visit c lev p s).
Proof.
  intros HP Hs. destruct (ptable s !! p) as [pr|] eqn:Hp.
  - rewrite (MLFQ_visit_spec _ _ _ _ pr) by done. case_bool_decide; [|done].
    apply safe_run_process; [done|]. unfold charged. by destruct (f64_lt _ _).
  - unfold MLFQ_visit, getp. msimpl. by rewrite Hp.
Qed.

Lemma safe_MLFQ_Boost E Q c cp s :
  at_cursor c cp s -> safe E Q (fun _ => at_cursor c cp) (MLFQ_Boost s).
Proof.
  intros Hs. eapply safe_bind with (R := fun _ => at_cursor c cp); [|done].
  apply safe_for_each with (I := at_cursor c cp); [done..|].
  intros i s1 H1. eapply safe_bind; [by apply safe_getp with (R := fun _ => at_cursor c cp)|].
  intros p s2 H2. destruct (negb _); [done|]. by apply safe_setp.
Qed.

(** Where the loop variable is when the cursor is at [cp]. *)
Definition behind_cursor (p : nat) (cp : Z) : Prop :=
  - 2 ^ 31 <= cp < 2 ^ 31 /\ (cp mod 63 = 0 \/ Z.of_nat p <= cp mod 63).

Lemma behind_cursor_visit p cp :
  behind_cursor p cp ->
  let p' := if Z.rem cp 63 =? 0 then 0%nat else p in
  (p' < 63)%nat /\ behind_cursor (S p') (s32 (cp + 1)).
Proof.
  intros [Hr H] p'. subst p'. unfold behind_cursor. pose proof (s32_range (cp + 1)).
  assert (Z.rem cp 63 = 0 <-> cp mod 63 = 0) as Hrem.
  { rewrite Z.rem_divide, Z.mod_divide by done. done. }
  pose proof (Z.mod_pos_bound cp 63 ltac:(done)) as Hb.
  destruct (decide (cp = 2 ^ 31 - 1)) as [->|Hne].
  { change (Z.rem (2 ^ 31 - 1) 63 =? 0) with false. change ((2 ^ 31 - 1) mod 63) with 1 in H.
    change (s32 (2 ^ 31 - 1 + 1)) with (- 2 ^ 31). change (- 2 ^ 31 mod 63) with 61. lia. }
  rewrite s32_small by lia. rewrite Z.add_mod by done. change (1 mod 63) with 1.
  destruct (Z.eqb_spec (Z.rem cp 63) 0) as [E|E].
  - apply Hrem in E. rewrite E. change ((0 + 1) mod 63) with 1. lia.
  - split; [lia|]. split; [lia|]. destruct (decide (cp mod 63 = 62)) as [E'|E'].
    + left. by rewrite E'.
    + right. rewrite Z.mod_small; lia.
Qed.

Lemma safe_MLFQ_loop fuel c lev p cp s :
  behind_cursor p cp -> at_cursor c cp s ->
  safe same_cursor (runs_slot c (fun p => p < 63)%nat) (fun _ s => (c < length (cpus (mach s)))%nat)
    (MLFQ_loop fuel c lev p s).
Proof.
  revert p cp s. induction fuel as [|f IH]; intros p cp s Hp Hs; cbn [MLFQ_loop]; [done|].
  destruct (negb _); [apply Hs|]. mstep.
  apply safe_bind with (R := fun _ => at_cursor c cp).
  { unfold when. destruct (_ <=? _); [by apply safe_MLFQ_Boost|done]. }
  intros [] s1 H1. mstep. destruct (levturn s1 =? 63); [apply H1|].
  rewrite (proj2 H1). destruct (behind_cursor_visit p cp Hp) as [Hlt Hp'].
  cbv zeta. eapply safe_bind; [by apply safe_MLFQ_visit|]. intros [] s2 [H2 E2]. mstep.
  apply (IH _ _ _ Hp'). by split; cbn; [|rewrite E2].
Qed.

Lemma safe_MLFQ_level fuel c lev s :
  (c < length (cpus (mach s)))%nat ->
  safe same_cursor (runs_slot c (fun p => p < 63)%nat) (fun _ s => (c < length (cpus (mach s)))%nat)
    (MLFQ_level fuel c lev s).
Proof.
  intros Hc. unfold MLFQ_level. mstep. apply safe_MLFQ_loop with (cp := 0); [|done].
  split; [lia|]. by left.
Qed.

(** C26: the MLFQ scheduler only ever runs processes of the slots 0 to 62 of
    the process table, however long it runs and whatever the processes do
    when they have the CPU (short of moving the cursor of the loops): a
    process in the last slot of the table is never given the CPU by it. *)
Theorem MLFQ_Scheduler_never_runs_last_slot fuel c k :
  on (mach k) c None [lk_ptable] ->
  safe same_cursor (runs_slot c (fun p => p < 63)%nat) (fun _ _ => True)
    (MLFQ_Scheduler fuel k).
Proof.
  intros Hon. unfold MLFQ_Scheduler.
  destruct (kmyproc_ok k c None _ Hon) as (m1 & H1 & Hon1). mstep H1.
  pose proof (on_mycpu _ _ _ _ Hon1 ltac:(done)) as Hc. mstep Hc. mstep.
  assert (c < length (cpus m1))%nat as Hlen.
  { destruct (on_cpu _ _ _ _ Hon1) as (cc & Hcc & _). by eapply lookup_lt_Some, Hcc. }
  eapply safe_bind; [apply safe_MLFQ_level; cbn; by rewrite length_alter|]. intros [] s1 L1.
  eapply safe_bind; [by apply safe_MLFQ_level|]. intros [] s2 L2.
  eapply safe_bind; [by apply safe_MLFQ_level|]. intros [] s3 L3.
  mstep. unfold when. by destruct (f64_lt _ _).
Qed.
End Theory.
