(* ===== verification/SchedClock.v ===== *)
(** * The clock: time quanta, demotion, boosting and giving up the CPU

    Theorems about [yield], [sched], [MLFQ_Check], the tick accounting of
    [trap] and [MLFQ_Boost] of Sched.v. *)

From S2P Require Import Prelude Double Spinlock ProcState Sched.
Open Scope Z_scope.

Section Clock.
Context {W : Type}.
Implicit Types k : kernel W.

(** ** Giving up the CPU *)

(** Restoring [intena] after the switch keeps the lock discipline. *)
Lemma on_set_intena m i p hs b :
  on m i p hs -> IF m = false ->
  exists m', set_mycpu (fun c => { c with intena := b }) m = Ok tt m' /\ on m' i p hs.
Proof.
  intros [(c & Hc & Hn & Hp) HIF Hh Hf Hnd Hd] HI.
  rewrite (set_mycpu_ok _ _ _ _ Hc HI). eexists. split; [done|]. split; [|done..].
  eexists. split; [by apply (cpu_at_with_cpu m i c)|]. done.
Qed.

(** What [sched] promises when it is entered with only the process table
    locked: control is switched away, and when it comes back with the same
    lock held by the same CPU and process, [sched] returns. *)
Definition switches_and_returns (c i : nat) (hs : list lockid) (s : kernel W)
    (r : result (kernel W) unit) : Prop :=
  exists m' kont, r = Swtch { s with mach := m' } kont /\ on m' c (Some i) [lk_ptable]
    /\ forall s', on (mach s') c (Some i) [lk_ptable] ->
         exists m'', kont s' = Ok tt { s' with mach := m'' } /\ on m'' c (Some i) hs.

Lemma sched_ok k c i pr :
  on (mach k) c (Some i) [lk_ptable] -> ptable k !! i = Some pr -> state pr <> RUNNING ->
  switches_and_returns c i [lk_ptable] k (sched k).
Proof.
  intros Hon Hp Hs. unfold sched.
  destruct (kmyproc_ok k c (Some i) _ Hon) as (m1 & H1 & Hon1). mstep H1.
  pose proof (on_holding _ _ _ _ lk_ptable Hon1 ltac:(set_solver)) as Hh. mstep Hh.
  cbn [negb]. assert (IF m1 = false) as HIF by (by apply (on_if _ _ _ _ Hon1)).
  destruct (on_get_mycpu _ _ _ _ Hon1 HIF) as (cc & Hcc & Hn & _). mstep Hcc.
  rewrite Hn. change (negb (Z.of_nat (length [lk_ptable]) =? 1)) with false. cbv match.
  mstep. mstep Hp.
  rewrite bool_decide_false by done. mstep. ksimpl. rewrite HIF. mstep Hcc.
  eexists m1, _. split; [by apply bind_swtch|]. split; [done|].
  intros s' Hs'. cbn [bind_result].
  destruct (on_set_intena _ _ _ _ (intena cc) Hs' (on_if _ _ _ _ Hs' ltac:(done)))
    as (m2 & H2 & Hon2).
  exists m2. split; [|done]. by apply on_mach_ok.
Qed.

Lemma yield_ok k c i pr :
  on (mach k) c (Some i) [] -> ptable k !! i = Some pr ->
  switches_and_returns c i []
    { k with ptable := <[i := { pr with state := RUNNABLE }]> (ptable k) } (yield k).
Proof.
  intros Hon Hp. unfold yield.
  destruct (kacquire_ok k c _ _ lk_ptable Hon ltac:(set_solver) ltac:(cbn; lia))
    as (m1 & H1 & Hon1). mstep H1.
  mstate ltac:(fun st => destruct (curproc_ok st c i _ Hon1) as (m2 & H2 & Hon2)).
  mstep H2. mstep Hp. mstate ltac:(fun st =>
    destruct (sched_ok st c i { pr with state := RUNNABLE } Hon2)
      as (m3 & kont & H3 & Hon3 & Hk)); [|done|].
  { plookup. }
  eexists m3, _. split; [by apply bind_swtch|]. split; [done|].
  intros s' Hs'. destruct (Hk s' Hs') as (m4 & H4 & Hon4). rewrite H4.
  cbn [bind_result].
  match goal with |- context [krelease _ ?st] =>
    destruct (krelease_ok st c (Some i) [] [] lk_ptable Hon4) as (m5 & H5 & Hon5)
  end.
  exists m5. by rewrite H5.
Qed.

(** ** Time quanta and demotion *)

(** Reference: one clock tick charged to an MLFQ process: the process after
    the tick and whether it has used up its quantum. *)
Definition quantum (lev : Z) : Z := if lev =? 0 then 1 else if lev =? 1 then 2 else 4.
Definition allotment (lev : Z) : Z := if lev =? 0 then 5 else 10.
Definition charge (p : proc) : proc :=
  { p with pticks := s32 (pticks p + 1); ptotalticks := s32 (ptotalticks p + 1) }.
Definition expired (p : proc) : bool := quantum (priority p) <=? pticks (charge p).
Definition tick (p : proc) : proc :=
  if negb (expired p) then charge p
  else if (priority p <? 2) && (allotment (priority p) <=? ptotalticks (charge p))
  then { charge p with pticks := 0; ptotalticks := 0; priority := priority p + 1 }
  else { charge p with pticks := 0 }.

Definition level_ok (p : proc) : Prop := 0 <= priority p <= 2.

Lemma quantum_spec lev k :
  0 <= lev <= 2 -> at_level timeQuantumPerQ lev k = Ok (quantum lev) k.
Proof. intros H. assert (lev = 0 \/ lev = 1 \/ lev = 2) as [->|[-> | ->]] by lia; done. Qed.

Lemma allotment_spec lev k :
  0 <= lev < 2 -> at_level timeAllotmentPerQ lev k = Ok (allotment lev) k.
Proof. intros H. assert (lev = 0 \/ lev = 1) as [-> | ->] by lia; done. Qed.

(** Demotion of a process whose allotment at its level is used up. *)
Definition demoted (p : proc) : proc :=
  if (priority p <? 2) && (allotment (priority p) <=? ptotalticks p)
  then { p with ptotalticks := 0; priority := priority p + 1 } else p.

Lemma demote_ok k i pr :
  ptable k !! i = Some pr -> level_ok pr ->
  (if priority pr <? 2 then
     a ← at_level timeAllotmentPerQ (priority pr);
     when (a <=? ptotalticks pr)
       (setp i (fun p => { p with ptotalticks := 0; priority := priority p + 1 }))
   else mret tt) k
  = Ok tt { k with ptable := <[i := demoted pr]> (ptable k) }.
Proof.
  intros Hp Hl. unfold demoted, level_ok in *.
  destruct (Z.ltb_spec (priority pr) 2) as [Hlt|Hge]; cbn [andb].
  - erewrite bind_ok by (apply allotment_spec; lia). unfold when.
    destruct (_ <=? _); [by rewrite (setp_ok _ _ _ _ Hp)|].
    rewrite list_insert_id by done. by destruct k.
  - rewrite list_insert_id by done. by destruct k.
Qed.

Lemma MLFQ_Check_ok k c i pr :
  on (mach k) c (Some i) [] -> ptable k !! i = Some pr -> level_ok pr ->
  if quantum (priority pr) <=? pticks pr
  then
    switches_and_returns c i []
      { k with ptable :=
          <[i := { demoted { pr with pticks := 0 } with state := RUNNABLE }]> (ptable k) }
      (MLFQ_Check k)
  else exists m', MLFQ_Check k = Ok tt { k with mach := m' } /\ on m' c (Some i) [].
Proof.
  intros Hon Hp Hl. unfold MLFQ_Check.
  destruct (curproc_ok k c i _ Hon) as (m1 & H1 & Hon1). mstep H1. mstep Hp.
  erewrite bind_ok by (apply quantum_spec, Hl).
  destruct (quantum (priority pr) <=? pticks pr); [|by exists m1].
  mstep Hp.
  erewrite bind_ok by (apply getp_ok; plookup).
  erewrite bind_ok by (apply demote_ok; [plookup|exact Hl]).
  match goal with |- context [yield ?st] =>
    destruct (yield_ok st c i (demoted { pr with pticks := 0 })) as (m2 & kont & E & H) end.
  - exact Hon1.
  - plookup.
  - exists m2, kont. split; [|done]. rewrite E. cbn. by rewrite !list_insert_insert_eq.
Qed.

Lemma tick_expired p : expired p = true -> tick p = demoted { charge p with pticks := 0 }.
Proof. intros H. unfold tick, demoted. rewrite H. cbn. by destruct (_ && _). Qed.

Lemma trap_tick_runs k c i pr :
  on (mach k) c (Some i) [] -> ptable k !! i = Some pr ->
  state pr = RUNNING -> isMLFQ pr = 1 -> level_ok pr ->
  let k1 := { k with MLFQ_ticks := u32 (MLFQ_ticks k + 1) } in
  if expired pr
  then switches_and_returns c i []
         { k1 with ptable := <[i := { tick pr with state := RUNNABLE }]> (ptable k) }
         (trap_tick k)
  else exists m', trap_tick k = Ok tt { k1 with mach := m';
                                                ptable := <[i := tick pr]> (ptable k) }
                  /\ on m' c (Some i) [].
Proof.
  intros Hon Hp Hs HM Hl k1. unfold trap_tick.
  destruct (kmyproc_ok k c _ _ Hon) as (m1 & H1 & Hon1). mstep H1. cbv match.
  mstep Hp. rewrite Hs, HM, bool_decide_true by done. change (ctrue 1) with true. cbn [negb]. mstep.
  mstep Hp. erewrite bind_ok
    by (apply setp_ok; plookup). rewrite (store_twice _ i).
  match goal with |- context [MLFQ_Check ?st] =>
    pose proof (MLFQ_Check_ok st c i (charge pr) Hon1 ltac:(plookup) Hl) as H end.
  change (quantum (priority (charge pr)) <=? pticks (charge pr)) with (expired pr) in H.
  destruct (expired pr) eqn:Hx.
  - destruct H as (m2 & kont & E & H). exists m2, kont. split; [|exact H].
    rewrite E, (store_twice _ i), (tick_expired _ Hx). done.
  - destruct H as (m2 & E & H). exists m2. split; [|exact H]. rewrite E.
    unfold tick. by rewrite Hx.
Qed.

(** C10: on a timer interrupt the kernel charges the tick to a running MLFQ
    process and to the boost counter.  A process that has used up its quantum
    (1, 2 or 4 ticks at level 0, 1 or 2) is made RUNNABLE (one level lower if
    its allotment of 5 or 10 ticks is used up too) and gives up the CPU;
    otherwise it goes on running.  A stride process is charged nothing and
    gives up the CPU at every tick.  A process that gave up the CPU resumes
    after the interrupt, with the process table unlocked, when it is
    scheduled again. *)
Theorem trap_tick_accounts k c i pr :
  on (mach k) c (Some i) [] -> ptable k !! i = Some pr ->
  state pr = RUNNING -> isMLFQ pr = 0 \/ isMLFQ pr = 1 -> level_ok pr ->
  let k1 := { k with MLFQ_ticks := u32 (MLFQ_ticks k + 1) } in
  if isMLFQ pr =? 0
  then switches_and_returns c i []
         { k with ptable := <[i := { pr with state := RUNNABLE }]> (ptable k) }
         (trap_tick k)
  else if expired pr
  then switches_and_returns c i []
         { k1 with ptable := <[i := { tick pr with state := RUNNABLE }]> (ptable k) }
         (trap_tick k)
  else exists m', trap_tick k = Ok tt { k1 with mach := m';
                                                ptable := <[i := tick pr]> (ptable k) }
                  /\ on m' c (Some i) [].
Proof.
  intros Hon Hp Hs [HM|HM] Hl k1; [|rewrite HM; by apply trap_tick_runs].
  unfold trap_tick. destruct (kmyproc_ok k c _ _ Hon) as (m1 & H1 & Hon1).
  mstep H1. cbv match. mstep Hp. rewrite Hs, HM, bool_decide_true by done.
  cbn [ctrue Z.eqb negb].
  match goal with |- context [yield ?st] =>
    destruct (yield_ok st c i pr Hon1 Hp) as (m2 & kont & E & H) end.
  by exists m2, kont.
Qed.

Lemma tick_fields p : level_ok p -> level_ok (tick p) /\ isMLFQ (tick p) = isMLFQ p
  /\ state (tick p) = state p.
Proof.
  unfold tick, level_ok. intros H. destruct (expired p); cbn; [|done].
  destruct (Z.ltb_spec (priority p) 2); cbn; [|done]. destruct (_ <=? _); cbn;
    split_and!; lia || done.
Qed.

(** ** Priority boosting *)
Definition boost (p : proc) : proc :=
  if isMLFQ p =? 0 then p else { p with priority := 0; pticks := 0; ptotalticks := 0 }.

(** The loop of [MLFQ_Boost] over the suffix [l2] of the table. *)
Lemma boost_loop l1 l2 k :
  ptable k = l1 ++ l2 ->
  for_each (seq (length l1) (length l2)) (fun i =>
    p ← getp i;
    if negb (ctrue (isMLFQ p)) then mret tt
    else setp i (fun p => { p with priority := 0; pticks := 0; ptotalticks := 0 })) k
  = Ok tt { k with ptable := l1 ++ (boost <$> l2) }.
Proof.
  revert l1 k. induction l2 as [|p l2 IH]; intros l1 k Hk; cbn [length seq for_each].
  { change (boost <$> []) with (@nil proc). rewrite <- Hk. by destruct k. }
  assert (ptable k !! length l1 = Some p) as Hp
    by (rewrite Hk; by apply list_lookup_middle).
  assert (<[length l1 := boost p]> (ptable k) = (l1 ++ [boost p]) ++ l2) as Hk'.
  { rewrite Hk, <- app_assoc. replace (length l1) with (length l1 + 0)%nat by lia.
    by rewrite insert_app_r. }
  erewrite bind_ok with (a := tt) (s' := { k with ptable := (l1 ++ [boost p]) ++ l2 }).
  - replace (S (length l1)) with (length (l1 ++ [boost p])) by (rewrite length_app; cbn; lia).
    rewrite IH by done. cbn. by rewrite <- app_assoc.
  - mstep Hp. rewrite <- Hk'. unfold boost, ctrue. destruct (isMLFQ p =? 0); cbn [negb].
    + rewrite list_insert_id by done. by destruct k.
    + by rewrite (setp_ok _ _ _ _ Hp).
Qed.

(** [MLFQ_Boost] moves every MLFQ process (and no stride process) to the
    highest level with its quantum and allotment unused, restarts the boost
    counter, and changes nothing else. *)
Theorem MLFQ_Boost_resets k :
  length (ptable k) = NPROC ->
  MLFQ_Boost k = Ok tt { k with ptable := boost <$> ptable k; MLFQ_ticks := 0 }.
Proof.
  intros Hlen. unfold MLFQ_Boost, slots. rewrite <- Hlen.
  pose proof (boost_loop [] (ptable k) k ltac:(done)) as H. mstep H. done.
Qed.
End Clock.
