(* ===== verification/SchedCycle.v ===== *)
(** * A process that never blocks, under the scheduler

    Sched.v models both sides of a switch: the loop of [scheduler] and, for a
    process, the timer interrupt that makes it give up the CPU.  Here the two run
    as coroutines: where one of them calls [swtch], the other one goes on.  For a
    process that is alone and never blocks, the theorem says at which level it is
    after every tick, with the demotions by the clock and the priority boost by
    the loops of the scheduler. *)

From S2P Require Import Prelude Double Spinlock ProcState Kalloc Sched SchedTheory SchedClock.
Open Scope Z_scope.

Section Cycle.
Context {W : Type}.
Implicit Types k s t : kernel W.

(** ** Two sides of a switch *)

(** A running process, and the scheduler where it called [swtch]. *)
Definition coroutine : Type := kernel W * (kernel W -> result (kernel W) unit).

(** The scheduler starts; the process it picks goes on as at the end of [yield]
    or [forkret], by releasing the process table. *)
Definition boot (rounds fuel : nat) k : option coroutine :=
  match scheduler rounds fuel k with
  | Swtch s sched => match krelease lk_ptable s with Ok _ s' => Some (s', sched) | _ => None end
  | _ => None
  end.

(** A timer interrupt.  If the process gives up the CPU, the scheduler goes on
    until it switches to a process; the process goes on when it is that one. *)
Definition interrupt (x : coroutine) : option coroutine :=
  let '(k, sched) := x in
  match trap_tick k with
  | Ok _ k' => Some (k', sched)
  | Swtch s proc =>
      match sched s with
      | Swtch s' sched' => match proc s' with Ok _ k' => Some (k', sched') | _ => None end
      | _ => None
      end
  | _ => None
  end.
Fixpoint interrupts (n : nat) (x : coroutine) : option coroutine :=
  match n with
  | O => Some x
  | S n => x' ← interrupts n x; interrupt x'
  end.

(** ** The scheduler when one process is alone *)

(** The process in slot [i] is an MLFQ process, and no other one can run. *)
Record alone (i : nat) (pr : proc) k : Prop := {
  al_slot : (i < 63)%nat;
  al_table : length (ptable k) = NPROC;
  al_proc : ptable k !! i = Some pr;
  al_mlfq : isMLFQ pr = 1;
  al_level : level_ok pr;
  al_memory : kstack pr <> 0 /\ pgdir pr <> 0;
  al_others : forall j q, j <> i -> ptable k !! j = Some q -> state q <> RUNNABLE;
  al_share : f64_le (f64_of_Z 100) (leftShare k) = true;
}.

(** What the tests for a boost in the loops make of a state. *)
Definition boosted k : kernel W :=
  if 100 <=? MLFQ_ticks k then { k with ptable := boost <$> ptable k; MLFQ_ticks := 0 } else k.

Lemma boosted_ticks k : MLFQ_ticks (boosted k) < 100.
Proof. unfold boosted. destruct (Z.leb_spec 100 (MLFQ_ticks k)); cbn; lia. Qed.

Lemma boost_due k : length (ptable k) = NPROC -> when (100 <=? MLFQ_ticks k) MLFQ_Boost k = Ok tt (boosted k).
Proof. intros Hl. unfold boosted, when. destruct (_ <=? _); [by apply MLFQ_Boost_resets|done]. Qed.

Lemma MLFQ_loop_boost f c lev p k :
  length (ptable k) = NPROC -> (p < NPROC)%nat -> MLFQ_loop (S f) c lev p k = MLFQ_loop (S f) c lev p (boosted k).
Proof.
  intros Hl Hp. cbn [MLFQ_loop]. rewrite (proj2 (Nat.ltb_lt _ _)) by lia. cbn [negb]. mstep.
  rewrite (bind_ok _ _ _ _ _ (boost_due k Hl)). symmetry. mstep.
  assert (boosted (boosted k) = boosted k) as E.
  { unfold boosted at 1. pose proof (boosted_ticks k). by rewrite (proj2 (Z.leb_gt _ _)) by lia. }
  rewrite (bind_ok _ _ _ _ _ (boost_due (boosted k) ltac:(unfold boosted; destruct (_ <=? _); [cbn; by rewrite length_fmap|done]))).
  by rewrite E.
Qed.

Lemma alone_boosted i pr k : alone i pr k -> alone i (if 100 <=? MLFQ_ticks k then boost pr else pr) (boosted k).
Proof.
  intros [H1 H2 H3 H4 H5 H6 H7 H8]. unfold boosted. destruct (100 <=? MLFQ_ticks k); [|done].
  assert (boost pr = { pr with priority := 0; pticks := 0; ptotalticks := 0 }) as Eb by (unfold boost; by rewrite H4).
  split; cbn; try done.
  - by rewrite length_fmap.
  - by rewrite list_lookup_fmap, H3.
  - by rewrite Eb.
  - rewrite Eb. unfold level_ok. cbn. lia.
  - by rewrite Eb.
  - intros j q Hj. rewrite list_lookup_fmap. intros (q' & Hq & ->)%fmap_Some.
    assert (state (boost q') = state q') as -> by (unfold boost; by destruct (_ =? _)). by apply (H7 j).
Qed.

Lemma alone_insert i pr pr' k k' :
  alone i pr k -> ptable k' = <[i := pr']> (ptable k) -> leftShare k' = leftShare k ->
  isMLFQ pr' = isMLFQ pr -> level_ok pr' -> kstack pr' = kstack pr -> pgdir pr' = pgdir pr -> alone i pr' k'.
Proof.
  intros [H1 H2 H3 H4 H5 H6 H7 H8] Et El EM HL Ek Ep. split; rewrite ?Et, ?El, ?EM, ?Ek, ?Ep; try done.
  - by rewrite length_insert.
  - apply list_lookup_insert_eq. rewrite H2. unfold NPROC. lia.
  - intros j q Hj. rewrite list_lookup_insert_ne by done. by apply H7.
Qed.

(** Nobody but the process in slot [i] is ready. *)
Lemma alone_not_ready i pr k lev j q : alone i pr k -> j <> i -> ptable k !! j = Some q -> ~ mlfq_ready lev q.
Proof. intros Ha Hj Hq (_ & Hs & _). by apply (al_others _ _ _ Ha j q). Qed.

Lemma mod_S a m : (0 < m)%nat -> (S a mod m <> 0 -> S (a mod m) = S a mod m)%nat.
Proof.
  intros Hm. pose proof (Nat.div_mod a m ltac:(lia)) as E. pose proof (Nat.mod_upper_bound a m ltac:(lia)).
  destruct (decide (S (a mod m) = m)) as [Es|Hs].
  - replace (S a) with (0 + (a / m + 1) * m)%nat by lia. rewrite Nat.Div0.mod_add, Nat.mod_small by lia. done.
  - intros _. apply (Nat.mod_unique _ _ (a / m)); lia.
Qed.

(** The rest of a loop after the process has run: the cursor goes once around the
    slots 0 to 62 and ends in front of slot [i]. *)
Lemma MLFQ_loop_around n f c lev i pr p k :
  alone i pr k -> MLFQ_ticks k < 100 -> (n <= 62)%nat -> (n < f)%nat ->
  levturn k = Z.of_nat (63 - n) -> checkpoint k = Z.of_nat (i + (63 - n)) ->
  (p < NPROC)%nat -> ((i + (63 - n)) mod 63 <> 0 -> p = (i + (63 - n)) mod 63)%nat ->
  MLFQ_loop f c lev p k = Ok tt { k with levturn := 63; checkpoint := Z.of_nat (i + 63) }.
Proof.
  revert f p k. induction n as [|n IH]; intros f p k Ha Ht Hn Hf Hl Hc Hp Hpc; (destruct f as [|f]; [lia|]); cbn [MLFQ_loop];
    rewrite (proj2 (Nat.ltb_lt _ _)) by done; cbn [negb]; mstep; rewrite (proj2 (Z.leb_gt _ _)) by lia; mstep; mstep; rewrite Hl.
  { change (Z.of_nat (63 - 0) =? 63) with true. cbv match. rewrite Nat.sub_0_r in *. unfold mret, M_ret. f_equal. destruct k; cbn in *. by subst. }
  rewrite (proj2 (Z.eqb_neq _ _)) by lia. rewrite Hc. pose proof (al_slot _ _ _ Ha) as Hi.
  set (j := ((i + (63 - S n)) mod 63)%nat) in *.
  assert ((if Z.rem (Z.of_nat (i + (63 - S n))) 63 =? 0 then 0%nat else p) = j) as ->.
  { rewrite Z.rem_mod_nonneg by lia. change 63 with (Z.of_nat 63) at 1. rewrite <- Nat2Z.inj_mod. fold j.
    destruct (Z.eqb_spec (Z.of_nat j) 0); [lia|]. apply Hpc. lia. }
  assert (j < 63)%nat as Hj by (apply Nat.mod_upper_bound; lia).
  assert (j <> i) as Hne.
  { unfold j. destruct (decide (i + (63 - S n) < 63)%nat); [rewrite Nat.mod_small by lia; lia|].
    replace (i + (63 - S n))%nat with ((i - S n) + 1 * 63)%nat by lia. rewrite Nat.Div0.mod_add, Nat.mod_small by lia. lia. }
  destruct (lookup_lt_is_Some_2 (ptable k) j) as [q Hq]; [rewrite (al_table _ _ _ Ha); unfold NPROC; lia|].
  erewrite bind_ok.
  2: { rewrite (MLFQ_visit_spec _ _ _ _ q Hq), bool_decide_false; [reflexivity|]. by apply (alone_not_ready i pr k lev j). }
  assert ((i + (63 - n)) mod 63 <> 0 -> S j = (i + (63 - n)) mod 63)%nat as Hnext.
  { replace (i + (63 - n))%nat with (S (i + (63 - S n))) by lia. apply mod_S. lia. }
  mstep. rewrite Hl, Hc, s32_small by lia. rewrite IH; try done.
  - split; apply Ha.
  - lia.
  - lia.
  - cbn -[Z.of_nat Nat.sub]. lia.
  - cbn -[Z.of_nat Nat.sub]. lia.
  - unfold NPROC. lia.
Qed.

(** ** Switching to the process and back *)

Lemma on_cr3 m c p hs v : on m c p hs -> on { m with cr3 := v } c p hs.
Proof.
  intros [(cc & Hc & Hn) HI Hh Hf Hd Hl]. split; try done. exists cc. split; [|done]. by apply (cpu_at_frame m).
Qed.
Lemma on_sti m c p : on m c p [] -> on { m with IF := true } c p [].
Proof.
  intros [(cc & Hc & Hn) HI Hh Hf Hd Hl]. split; try done. exists cc. split; [|done]. by apply (cpu_at_frame m).
Qed.

Lemma run_process_back k c q pr :
  on (mach k) c None [lk_ptable] -> ptable k !! q = Some pr -> kstack pr <> 0 -> pgdir pr <> 0 ->
  exists s kont, run_process c q k = Swtch s kont /\ dispatched c q pr k s
    /\ forall t, on (mach t) c (Some q) [lk_ptable] -> exists m', kont t = Ok tt { t with mach := m' } /\ on m' c None [lk_ptable].
Proof.
  intros Hon Hq Hs Hg. unfold run_process. mstep. pose proof (on_set_cproc _ _ _ _ (Some q) Hon) as Hon1.
  mstate ltac:(fun st => destruct (switchuvm_ok st _ _ _ q pr Hon1 Hq Hs Hg) as (m' & Hsw & Hon2)).
  mstep Hsw. erewrite bind_ok by (by apply setp_ok). eexists _, _. split; [apply bind_swtch; done|]. split; [by exists m'|].
  intros t Ht. eexists. split; [reflexivity|]. exact (on_set_cproc _ _ _ _ None (on_cr3 _ _ _ _ _ Ht)).
Qed.

(** The scheduler is between two visits: nobody runs on CPU [c]. *)
Record between (i c : nat) (pr : proc) k : Prop := {
  bt_alone : alone i pr k;
  bt_on : on (mach k) c None [lk_ptable];
  bt_state : state pr = RUNNABLE;
  bt_ticks : 0 <= MLFQ_ticks k < 100;
}.

(** The process in slot [i] has the CPU, in state [st]. *)
Record switched (i c : nat) (st : procstate) (pr : proc) (ticks : Z) k : Prop := {
  sw_alone : alone i pr k;
  sw_on : on (mach k) c (Some i) [lk_ptable];
  sw_state : state pr = st;
  sw_ticks : MLFQ_ticks k = ticks /\ 0 <= ticks;
  sw_cursor : levturn k = 0 /\ checkpoint k = Z.of_nat i;
}.

(** What the next loop test makes of the process and the boost counter. *)
Definition next_proc (ticks : Z) (pr : proc) : proc := if 100 <=? ticks then boost pr else pr.
Definition next_ticks (ticks : Z) : Z := if 100 <=? ticks then 0 else ticks.

(** [kont], given the state in which the process gave up the CPU, is [rest]. *)
Definition resumes (i c : nat) (kont rest : kernel W -> result (kernel W) unit) : Prop :=
  forall pr t ticks, switched i c RUNNABLE pr ticks t ->
    exists t', kont t = rest t' /\ between i c (next_proc ticks pr) t' /\ MLFQ_ticks t' = next_ticks ticks.

Lemma boost_state pr : state (boost pr) = state pr.
Proof. unfold boost. by destruct (_ =? _). Qed.

Lemma MLFQ_level_switches f c lev i pr k :
  between i c pr k -> priority pr = lev -> (128 <= f)%nat ->
  exists s kont, MLFQ_level f c lev k = Swtch s kont
    /\ switched i c RUNNING { pr with state := RUNNING } (MLFQ_ticks k) s
    /\ resumes i c kont (Ok tt).
Proof.
  intros [Ha Hon Hst Ht] Hlev Hf. pose proof Ha as [Hi Hlen Hp HM Hl [Hks Hpg] Ho Hsh]. unfold MLFQ_level. mstep.
  replace f with (i + S (f - S i))%nat by lia.
  change (exists s kont, MLFQ_loop (i + S (f - S i)) c lev 0 (cursor k 0) = Swtch s kont
    /\ switched i c RUNNING { pr with state := RUNNING } (MLFQ_ticks k) s /\ resumes i c kont (Ok tt)).
  rewrite MLFQ_loop_skips; [|lia|lia|rewrite Hlen; unfold NPROC; lia|].
  2: { intros j q Hj Hq. apply (alone_not_ready i pr k lev j q Ha); [lia|done]. }
  cbn [Nat.add]. rewrite MLFQ_loop_visit by lia.
  destruct (run_process_back { charged (cursor k i) lev with levturn := 0 } c i pr) as (s & kont & Hrun & Hd & Hk); try done.
  1,2: unfold charged; by destruct (f64_lt _ _).
  eexists s, _. split_and!.
  - apply bind_swtch. rewrite (MLFQ_visit_spec _ _ _ _ pr), bool_decide_true by done. exact Hrun.
  - destruct Hd as (m' & -> & Hm). set (s1 := { _ with levturn := 0; mach := _; ptable := _ }).
    assert (ptable s1 = <[i := { pr with state := RUNNING }]> (ptable k) /\ leftShare s1 = leftShare k /\ MLFQ_ticks s1 = MLFQ_ticks k
      /\ mach s1 = m' /\ levturn s1 = 0 /\ checkpoint s1 = Z.of_nat i) as (E1 & E2 & E3 & E4 & E5 & E6)
      by (unfold s1, charged; by destruct (f64_lt _ _)).
    split; [by apply (alone_insert i pr _ k)|by rewrite E4|done|rewrite E3; split; [done|lia]|done].
  - intros pr' t ticks [Ta Ton Tst [Tt Tt0] [Tl Tc]]. destruct (Hk t Ton) as (m' & E & Hm). rewrite E. cbn [bind_result].
    mstep. change (levturn { t with mach := m' }) with (levturn t). change (checkpoint { t with mach := m' }) with (checkpoint t).
    rewrite Tl, Tc, s32_small by lia. match goal with |- context [MLFQ_loop _ _ _ _ ?st] => set (t1 := st) end.
    assert (alone i pr' t1) as A1 by (split; apply Ta). pose proof (alone_boosted i pr' t1 A1) as A2.
    change (MLFQ_ticks t1) with (MLFQ_ticks t) in A2. rewrite Tt in A2. fold (next_proc ticks pr') in A2.
    destruct (f - S i)%nat as [|f'] eqn:Ef; [lia|]. rewrite MLFQ_loop_boost; [|apply A1|unfold NPROC; lia].
    assert (mach (boosted t1) = m' /\ levturn (boosted t1) = 1 /\ checkpoint (boosted t1) = Z.of_nat (i + 1) /\ MLFQ_ticks (boosted t1) = next_ticks ticks) as (E1 & E2 & E3 & E4).
    { unfold boosted, next_ticks, t1. cbn. rewrite Tt. destruct (100 <=? ticks); cbn; split_and!; done || lia. }
    eexists. split; [apply (MLFQ_loop_around 62 _ c lev i _ _ _ A2)|split; [split|]]; try done.
    + apply boosted_ticks.
    + lia.
    + unfold NPROC. lia.
    + intros Hz. change (63 - 62)%nat with 1%nat in *. rewrite Nat.add_1_r in *. symmetry. apply Nat.mod_small.
      destruct (decide (S i = 63%nat)) as [E'|]; [by rewrite E' in Hz|lia].
    + split; apply A2.
    + cbn. by rewrite E1.
    + unfold next_proc. destruct (_ <=? _); [by rewrite boost_state|done].
    + cbn. rewrite E4. unfold next_ticks. destruct (Z.leb_spec 100 ticks); lia.
Qed.

(** ** The loops of the scheduler *)
Section Loops.
Context (fuel i c : nat).
Hypothesis enough : (128 <= fuel)%nat.

(** The loops of [MLFQ_Scheduler] for the levels [l], and what follows them. *)
Fixpoint levels (l : list Z) : M (kernel W) unit :=
  match l with
  | [] =>
      k ← get;
      when (f64_lt (leftShare k) (f64_of_Z 100))
        (modify (fun k => { k with MLFQPassVal := f64_add (MLFQPassVal k) (MLFQStrideVal k) }))
  | lev :: l => MLFQ_level fuel c lev;; levels l
  end.

(** The rest of [scheduler] after one of the loops. *)
Definition after_loop (l : list Z) (rounds : nat) : M (kernel W) unit :=
  (levels l;; krelease lk_ptable);; scheduler_rounds rounds fuel.

Lemma MLFQ_level_none lev pr k :
  between i c pr k -> priority pr <> lev ->
  exists k', MLFQ_level fuel c lev k = Ok tt k' /\ between i c pr k' /\ MLFQ_ticks k' = MLFQ_ticks k.
Proof.
  intros [Ha Hon Hs Ht] Hl. exists (cursor k 63). split; [|split; [split; [split; apply Ha|done..]|done]].
  apply MLFQ_level_idle; [lia|rewrite (al_table _ _ _ Ha); unfold NPROC; lia|lia|].
  intros j q Hj Hq. destruct (decide (j = i)) as [->|Hne]; [|by apply (alone_not_ready i pr k lev j)].
  rewrite (al_proc _ _ _ Ha) in Hq. injection Hq as <-. by intros (_ & _ & E).
Qed.

Lemma levels_ok l pr k :
  between i c pr k ->
  if decide (priority pr ∈ l)
  then exists l' s kont, levels l k = Swtch s kont /\ switched i c RUNNING { pr with state := RUNNING } (MLFQ_ticks k) s
         /\ resumes i c kont (levels l')
  else exists k', levels l k = Ok tt k' /\ between i c pr k' /\ MLFQ_ticks k' = MLFQ_ticks k.
Proof.
  revert k. induction l as [|lev l IH]; intros k Hb.
  - rewrite decide_False by apply not_elem_of_nil. cbn [levels]. mstep. unfold when. destruct (f64_lt _ _).
    + eexists. split; [reflexivity|]. destruct Hb as [Ha ???]. split; [split; try done; split; apply Ha|done].
    + by exists k.
  - cbn [levels]. destruct (decide (priority pr = lev)) as [E|E].
    + rewrite decide_True by (rewrite E; left). destruct (MLFQ_level_switches fuel c lev i pr k Hb E enough) as (s & kont & E1 & Hs & Hr).
      eexists l, s, _. split; [by apply bind_swtch|]. split; [done|]. intros pr' t ticks Ht. destruct (Hr pr' t ticks Ht) as (t' & Et & H').
      exists t'. by rewrite Et.
    + destruct (MLFQ_level_none lev pr k Hb E) as (k' & E1 & Hb' & Et). specialize (IH k' Hb'). rewrite Et in IH. erewrite bind_ok by exact E1.
      destruct (decide (priority pr ∈ l)) as [Hin|Hin].
      * by rewrite decide_True by (by right).
      * by rewrite decide_False by (intros [?|?]%elem_of_cons; done).
Qed.

Lemma MLFQ_Scheduler_levels pr k :
  between i c pr k -> exists k', MLFQ_Scheduler fuel k = levels [0; 1; 2] k' /\ between i c pr k' /\ MLFQ_ticks k' = MLFQ_ticks k.
Proof.
  intros [Ha Hon Hs Ht]. unfold MLFQ_Scheduler. destruct (kmyproc_ok k c None _ Hon) as (m1 & H1 & Hon1). mstep H1.
  pose proof (on_mycpu _ _ _ _ Hon1 ltac:(done)) as Hc. mstep Hc. mstep. eexists. split; [reflexivity|]. split; [|done].
  split; [split; apply Ha|exact (on_set_cproc _ _ _ _ None Hon1)|done|done].
Qed.

(** One round of the scheduler, entered without a lock. *)
Lemma rounds_ok rounds pr k :
  alone i pr k -> on (mach k) c None [] -> state pr = RUNNABLE -> 0 <= MLFQ_ticks k < 100 ->
  exists l s kont, scheduler_rounds (S rounds) fuel k = Swtch s kont
    /\ switched i c RUNNING { pr with state := RUNNING } (MLFQ_ticks k) s /\ resumes i c kont (after_loop l rounds).
Proof.
  intros Ha Hon Hs Ht.
  assert (exists l s kont, scheduler_round fuel k = Swtch s kont /\ switched i c RUNNING { pr with state := RUNNING } (MLFQ_ticks k) s
    /\ resumes i c kont (levels l;; krelease lk_ptable)) as (l & s & kont & E & Hsw & Hr).
  { unfold scheduler_round. mstep. rewrite (proj2 (Z.leb_gt _ _)) by lia. mstep. mstep.
    mstate ltac:(fun st => destruct (kacquire_ok st c _ _ lk_ptable (on_sti _ _ _ Hon) ltac:(set_solver) ltac:(cbn; lia)) as (m1 & H1 & Hon1)).
    mstep H1. mstep.
    match goal with |- context [f64_le _ (leftShare ?x)] => change (leftShare x) with (leftShare k) end. rewrite (al_share _ _ _ Ha).
    match goal with |- context [(MLFQ_Scheduler fuel ≫= _) ?st] => destruct (MLFQ_Scheduler_levels pr st) as (k1 & E1 & Hb & Et) end.
    { split; [split; apply Ha|done..]. }
    pose proof (levels_ok [0; 1; 2] pr k1 Hb) as Hl. rewrite decide_True in Hl.
    2: { pose proof (al_level _ _ _ Ha) as Hlev. unfold level_ok in Hlev. rewrite !elem_of_cons. lia. }
    destruct Hl as (l & s & kont & E2 & Hsw & Hr). rewrite Et in Hsw. eexists l, s, _. split; [by apply bind_swtch; rewrite E1|]. split; [exact Hsw|].
    intros pr' t ticks Hst. destruct (Hr pr' t ticks Hst) as (t' & E3 & H'). exists t'. by rewrite E3. }
  eexists l, s, _. cbn [scheduler_rounds]. split; [by apply bind_swtch|]. split; [done|].
  intros pr' t ticks Hst. destruct (Hr pr' t ticks Hst) as (t' & E3 & H'). exists t'. by rewrite E3.
Qed.

(** The scheduler after a loop: it finds the process in one of the next loops, or
    in the next round. *)
Lemma after_loop_ok l rounds pr k :
  between i c pr k -> (0 < rounds)%nat ->
  exists l' rounds' s kont, (rounds <= S rounds')%nat /\ after_loop l rounds k = Swtch s kont
    /\ switched i c RUNNING { pr with state := RUNNING } (MLFQ_ticks k) s /\ resumes i c kont (after_loop l' rounds').
Proof.
  intros Hb Hr0. pose proof (levels_ok l pr k Hb) as Hl. unfold after_loop. destruct (decide (priority pr ∈ l)).
  - destruct Hl as (l' & s & kont & E & Hsw & Hr). eexists l', rounds, s, _. split; [lia|]. split; [by do 2 apply bind_swtch|]. split; [done|].
    intros pr' t ticks Hst. destruct (Hr pr' t ticks Hst) as (t' & E3 & H'). exists t'. by rewrite E3.
  - destruct Hl as (k1 & E & [Ha Hon Hs Ht] & Et). destruct (krelease_ok k1 c None [] [] lk_ptable Hon) as (m1 & E1 & Hon1).
    erewrite bind_ok by (erewrite bind_ok by exact E; exact E1). destruct rounds as [|rounds]; [lia|].
    destruct (rounds_ok rounds pr { k1 with mach := m1 }) as (l' & s & kont & E2 & Hsw & Hr); [split; apply Ha|done..|].
    exists l', rounds, s, kont. split; [lia|]. split; [exact E2|]. split; [|done]. by rewrite <- Et.
Qed.

(** ** Ticks *)

(** The process runs in user space; the counters of its level, quantum and
    allotment, and the boost counter. *)
Definition counters (p : proc) : Z * Z * Z := (priority p, pticks p, ptotalticks p).
Record running (cs : Z * Z * Z) (ticks : Z) k : Prop := {
  rn_proc : exists pr, alone i pr k /\ state pr = RUNNING /\ counters pr = cs;
  rn_on : on (mach k) c (Some i) [];
  rn_ticks : MLFQ_ticks k = ticks;
  rn_cursor : levturn k = 0 /\ checkpoint k = Z.of_nat i;
}.
Definition suspended (rounds : nat) (sched : kernel W -> result (kernel W) unit) : Prop :=
  exists l, resumes i c sched (after_loop l rounds).

(** One tick on the counters: charged by the clock, boosted by the scheduler if it
    gets control. *)
Definition tick_counters (cs : Z * Z * Z) : Z * Z * Z :=
  let '(lev, pt, tot) := cs in
  let pt := s32 (pt + 1) in
  let tot := s32 (tot + 1) in
  if quantum lev <=? pt then
    if (lev <? 2) && (allotment lev <=? tot) then (lev + 1, 0, 0) else (lev, 0, tot)
  else (lev, pt, tot).
Definition yields (cs : Z * Z * Z) : bool := let '(lev, pt, _) := cs in quantum lev <=? s32 (pt + 1).
Definition after_tick (x : Z * Z * Z * Z) : Z * Z * Z * Z :=
  let '(cs, ticks) := x in
  if yields cs && (100 <=? ticks + 1) then (0, 0, 0, 0) else (tick_counters cs, ticks + 1).

Lemma tick_counters_ok p : counters (tick p) = tick_counters (counters p) /\ expired p = yields (counters p).
Proof.
  split; [|done]. unfold tick, tick_counters, counters, expired. change (pticks (charge p)) with (s32 (pticks p + 1)).
  change (ptotalticks (charge p)) with (s32 (ptotalticks p + 1)). destruct (quantum _ <=? _); cbn [negb]; [|done]. by destruct (_ && _).
Qed.

Lemma tick_kept p : kstack (tick p) = kstack p /\ pgdir (tick p) = pgdir p.
Proof. unfold tick. destruct (negb _); [done|]. by destruct (_ && _). Qed.

Lemma next_proc_fields ticks p : isMLFQ p = 1 ->
  counters (next_proc ticks p) = (if 100 <=? ticks then (0, 0, 0) else counters p).
Proof. intros HM. unfold next_proc, boost. destruct (_ <=? _); [|done]. by rewrite HM. Qed.

Lemma interrupt_ok cs ticks rounds sched k :
  running cs ticks k -> suspended rounds sched -> 0 <= ticks < 1000 -> (0 < rounds)%nat ->
  exists k' sched' rounds', interrupt (k, sched) = Some (k', sched') /\ (rounds <= S rounds')%nat
    /\ running (after_tick (cs, ticks)).1 (after_tick (cs, ticks)).2 k' /\ suspended rounds' sched'.
Proof.
  intros [(pr & Ha & Hs & <-) Hon Ht [Hcur1 Hcur2]] [l Hsus] Htr Hr0. destruct (tick_counters_ok pr) as [Ec Ex].
  destruct (tick_fields pr (al_level _ _ _ Ha)) as (L1 & L2 & L3). destruct (tick_kept pr) as [K1 K2].
  pose proof (trap_tick_runs k c i pr Hon (al_proc _ _ _ Ha) Hs (al_mlfq _ _ _ Ha) (al_level _ _ _ Ha)) as Hrun.
  unfold interrupt. rewrite Ht in Hrun. rewrite u32_small in Hrun by lia. unfold after_tick. rewrite <- Ex, <- Ec. cbv zeta in Hrun.
  destruct (expired pr).
  - destruct Hrun as (m1 & kont & E & Hon1 & Hk). rewrite E.
    match goal with |- context [sched ?st] => set (s := st) end.
    destruct (Hsus { tick pr with state := RUNNABLE } s (ticks + 1)) as (t' & Es & Hb & Et).
    { split; [by apply (alone_insert i pr _ k)|exact Hon1|done|split; [done|lia]|done]. }
    destruct (after_loop_ok l rounds _ t' Hb Hr0) as (l' & rounds' & s' & sched' & Hle & E2 & Hsw & Hres). rewrite Es, E2.
    destruct (Hk s' (sw_on _ _ _ _ _ _ Hsw)) as (m2 & E3 & Hon2). rewrite E3. eexists _, _, rounds'. split; [reflexivity|]. split; [done|].
    split; [|by exists l']. destruct Hsw as [Sa _ _ [St _] Scur]. rewrite Et in St.
    assert (counters (next_proc (ticks + 1) { tick pr with state := RUNNABLE }) = if 100 <=? ticks + 1 then (0, 0, 0) else counters (tick pr)) as Ecs
      by (by rewrite next_proc_fields by (cbn; rewrite L2; apply Ha)).
    cbn [andb]. split; cbn [mach]; [|done| |done].
    + eexists. split; [split; apply Sa|]. split; [done|]. etrans; [exact Ecs|]. by destruct (100 <=? ticks + 1).
    + etrans; [exact St|]. unfold next_ticks. by destruct (100 <=? ticks + 1).
  - destruct Hrun as (m1 & E & Hon1). rewrite E. eexists _, sched, rounds. split; [reflexivity|]. split; [lia|]. split; [|by exists l].
    cbn [andb fst snd]. split; [|done|done|done]. exists (tick pr). split; [by apply (alone_insert i pr _ k)|]. split; [by rewrite L3|done].
Qed.

Lemma boot_ok rounds pr k :
  alone i pr k -> on (mach k) c None [] -> IF (mach k) = false -> state pr = RUNNABLE -> 0 <= MLFQ_ticks k < 100 ->
  exists k' sched, boot (S rounds) fuel k = Some (k', sched) /\ running (counters pr) (MLFQ_ticks k) k' /\ suspended rounds sched.
Proof.
  intros Ha Hon HI Hs Ht. unfold boot, scheduler. destruct (on_cpu _ _ _ _ Hon) as (cc & Hcc & _).
  erewrite bind_ok by (apply on_mach_ok, (mycpu_ok _ _ _ Hcc HI)). erewrite bind_ok by reflexivity.
  match goal with |- context [scheduler_rounds _ _ ?st] => destruct (rounds_ok rounds pr st) as (l & s & sched & E & Hsw & Hr) end.
  { split; apply Ha. }
  { exact (on_set_cproc _ _ _ _ None Hon). }
  { done. }
  { done. }
  rewrite E. destruct Hsw as [Sa Son _ [St _] Scur]. destruct (krelease_ok s c (Some i) [] [] lk_ptable Son) as (m1 & E1 & Hon1). rewrite E1.
  eexists _, sched. split; [reflexivity|]. split; [|by exists l]. split; [|done|done|done]. eexists. split; [split; apply Sa|]. done.
Qed.
End Loops.

(** ** The cycle *)

(** The level of a process [m] ticks after a boost. *)
Definition level_after (m : nat) : Z := if (m <? 5)%nat then 0 else if (m <? 15)%nat then 1 else 2.

(** Its counters, and the boost counter. *)
Definition cycle (m : nat) : Z * Z * Z * Z :=
  let n := Z.of_nat m in
  (if (m <? 5)%nat then (0, 0, n) else if (m <? 15)%nat then (1, (n - 5) mod 2, n - 5) else (2, (n - 15) mod 4, n - 15), n).

Lemma cycle_ticks m : (m < 103)%nat -> after_tick (cycle m) = cycle (S m mod 103).
Proof.
  intros Hm. assert (Forall (fun m => after_tick (cycle m) = cycle (S m mod 103)) (seq 0 103)) as H by (apply (bool_decide_unpack _); vm_compute; exact I).
  rewrite list.Forall_forall in H. apply H, elem_of_seq. lia.
Qed.

End Cycle.
