(* ===== verification/SchedShare.v ===== *)
(** * CPU shares: what [set_cpu_share] grants

    Theorems about [cpu_share] and [set_cpu_share] of Sched.v for a
    single-threaded process.  [leftShare] is a double; shares are whole
    percentages, on which its arithmetic is exact. *)

From S2P Require Import Prelude Double Spinlock ProcState Sched.
Open Scope Z_scope.

(** ** Exactness of the arithmetic on shares *)

(** [a - b] and [a - b < 20] for all [a] and [b] from 0 to 100. *)
Definition shares : list Z := Z.of_nat <$> seq 0 101.
Definition exact_pair (a b : Z) : bool :=
  bool_decide (f64_sub (f64_of_Z a) (f64_of_Z b) = f64_of_Z (a - b))
  && Bool.eqb (f64_lt (f64_of_Z (a - b)) (f64_of_Z 20)) (a - b <? 20).

Lemma shares_exact :
  forallb (fun a => forallb (exact_pair a) shares) shares = true.
Proof. vm_compute. reflexivity. Qed.

Lemma exact_pair_ok a b : 0 <= a <= 100 -> 0 <= b <= 100 -> exact_pair a b = true.
Proof.
  assert (forall z, 0 <= z <= 100 -> In z shares) as Hin.
  { intros z Hz. apply in_map_iff. exists (Z.to_nat z). split; [lia|]. apply in_seq. lia. }
  intros Ha Hb. pose proof shares_exact as H.
  rewrite forallb_forall in H. specialize (H a (Hin a Ha)). cbv beta in H.
  rewrite forallb_forall in H. exact (H b (Hin b Hb)).
Qed.

Lemma share_sub a b :
  0 <= a <= 100 -> 0 <= b <= 100 -> f64_sub (f64_of_Z a) (f64_of_Z b) = f64_of_Z (a - b).
Proof.
  intros Ha Hb. pose proof (exact_pair_ok a b Ha Hb) as H. unfold exact_pair in H.
  apply andb_prop in H as [H _]. by apply bool_decide_eq_true in H.
Qed.

Lemma share_lt_20 a b :
  0 <= a <= 100 -> 0 <= b <= 100 ->
  f64_lt (f64_of_Z (a - b)) (f64_of_Z 20) = (a - b <? 20).
Proof.
  intros Ha Hb. pose proof (exact_pair_ok a b Ha Hb) as H. unfold exact_pair in H.
  apply andb_prop in H as [_ H]. by apply Bool.eqb_prop in H.
Qed.

Section Share.
Context {W : Type}.
Implicit Types k : kernel W.

(** The pass value of a process that joins the stride scheduler. *)
Definition lowest_pass k : double :=
  match find_min_pass k ≫= (ptable k !!.) with
  | Some p => pass p
  | None => MLFQPassVal k
  end.

(** Changing what [findMinPass] does not look at does not change its scan. *)
Definition same_stride (p q : proc) : Prop :=
  isMLFQ p = isMLFQ q /\ state p = state q /\ pass p = pass q.

Lemma minpass_scan_same l l' i max min :
  Forall2 same_stride l l' -> minpass_scan i l max min = minpass_scan i l' max min.
Proof.
  intros H. revert i max min.
  induction H as [|p q l l' (E1 & E2 & E3) H IH]; intros i max min; cbn [minpass_scan]; [done|].
  rewrite E1, E2, E3. by rewrite !IH.
Qed.

Lemma find_min_pass_same k k' :
  Forall2 same_stride (ptable k) (ptable k') -> MLFQPassVal k' = MLFQPassVal k ->
  find_min_pass k' = find_min_pass k.
Proof.
  intros H E. unfold find_min_pass. rewrite (minpass_scan_same _ _ _ _ _ H), E. done.
Qed.

Lemma same_stride_insert l i p q :
  l !! i = Some p -> same_stride p q -> Forall2 same_stride l (<[i := q]> l).
Proof.
  intros Hp Hs. rewrite <- (list_insert_id l i p Hp) at 1. apply Forall2_insert; [|done].
  apply Forall2_same_length_lookup. split; [done|]. intros j x y Hx Hy. by simplify_eq.
Qed.

(** A single-threaded process that has already been granted [t]. *)
Definition single_threaded (pr : proc) (t : Z) : Prop :=
  isMainThread pr = 1 /\ isThread pr = 0 /\ cntThread pr = 1 /\ totalshare pr = t.

(** The process after it is granted [shr] more. *)
Definition granted_proc k (pr : proc) (t shr : Z) : proc :=
  { pr with totalshare := t + shr; isMLFQ := 0; share := f64_of_Z shr;
            stride := f64_of_Z (STRIDENUM / shr); pass := lowest_pass k }.

(** The state after granting [shr] to the process in slot [i]. *)
Definition granted k (i : nat) (pr : proc) (L t shr : Z) : kernel W :=
  { k with leftShare := f64_of_Z (L - (t + shr));
           MLFQStrideVal := f64_div (f64_of_Z STRIDENUM) (f64_of_Z (L - (t + shr)));
           ptable := <[i := granted_proc k pr t shr]> (ptable k) }.

Lemma granted_slot k i pr L t shr :
  ptable k !! i = Some pr ->
  ptable (granted k i pr L t shr) !! i = Some (granted_proc k pr t shr).
Proof. intros H. unfold granted. ksimpl. eapply list_lookup_insert_eq, lookup_lt_Some, H. Qed.

Lemma minpass_scan_index l i0 max min m :
  (minpass_scan i0 l max min).2 = Some m -> min = Some m \/ (i0 <= m < i0 + length l)%nat.
Proof.
  revert i0 max min. induction l as [|p l IH]; intros i0 max min; cbn [minpass_scan length].
  { cbn. auto. }
  repeat case_match; intros [H'|H']%IH; simplify_eq; auto; right; lia.
Qed.

Lemma find_min_pass_index k m : find_min_pass k = Some m -> is_Some (ptable k !! m).
Proof.
  unfold find_min_pass. pose proof (minpass_scan_index (ptable k) 0 3000000000 None m) as H.
  destruct (minpass_scan _ _ _ _) as [max min]. destruct (f64_lt _ _); [done|].
  intros ->. destruct (H eq_refl) as [|]; [done|]. apply lookup_lt_is_Some. lia.
Qed.

(** Joining the stride scheduler after the process table was updated at
    slot [i], which kept its pass value. *)
Lemma join_pass_ok k k1 i pr pr1 :
  ptable k !! i = Some pr -> ptable k1 = <[i := pr1]> (ptable k) -> pass pr1 = pass pr ->
  MLFQPassVal k1 = MLFQPassVal k ->
  join_pass (find_min_pass k) i k1
  = Ok tt { k1 with ptable := <[i := { pr1 with pass := lowest_pass k }]> (ptable k) }.
Proof.
  intros Hp E1 Ep EM.
  assert (ptable k1 !! i = Some pr1) as Hp1.
  { rewrite E1. by eapply list_lookup_insert_eq, lookup_lt_Some. }
  unfold join_pass, lowest_pass. destruct (find_min_pass k) as [m|] eqn:Em; cbn [mbind option_bind].
  - destruct (find_min_pass_index _ _ Em) as [pm Hm]. rewrite Hm.
    assert (exists pm', ptable k1 !! m = Some pm' /\ pass pm' = pass pm) as (pm' & Hm' & <-).
    { rewrite E1. destruct (decide (m = i)) as [->|Hne].
      - exists pr1. simplify_eq. split; [by eapply list_lookup_insert_eq, lookup_lt_Some|done].
      - exists pm. by rewrite list_lookup_insert_ne. }
    mstep Hm'. rewrite (setp_ok _ _ _ _ Hp1), E1. by rewrite list_insert_insert_eq.
  - mstep. rewrite (setp_ok _ _ _ _ Hp1), E1, EM. by rewrite list_insert_insert_eq.
Qed.

Lemma cpu_share_ok k c i pr hs L t shr :
  on (mach k) c (Some i) hs -> ptable k !! i = Some pr -> single_threaded pr t ->
  leftShare k = f64_of_Z L -> 0 <= L <= 100 -> 0 <= t -> 0 < shr -> t + shr <= 100 ->
  exists m', cpu_share shr k = Ok tt { granted k i pr L t shr with mach := m' }
             /\ on m' c (Some i) hs.
Proof.
  intros Hon Hp (HM & HT & HC & Ht) HL HLr Ht0 Hs Hts. unfold cpu_share.
  destruct (curproc_ok k c i _ Hon) as (m1 & H1 & Hon1). mstep H1. mstep Hp.
  rewrite HM. change (ctrue 1) with true. cbv match.
  erewrite bind_ok.
  2: { mstep Hp. erewrite bind_ok by (apply getp_ok; plookup).
       rewrite Ht. rewrite s32_small by lia. rewrite (proj2 (Z.ltb_ge _ _)) by (cbn; lia).
       reflexivity. }
  mstep. mstate ltac:(fun st => set (k2 := st)).
  assert (findMinPass k2 = Ok (find_min_pass k) k2) as Ef.
  { rewrite <- (find_min_pass_same k k2); [done| |done]. by apply (same_stride_insert _ i pr). }
  mstep Ef.
  assert (ptable k2 !! i = Some { pr with totalshare := t + shr }) as Hp2
    by (unfold k2; plookup).
  mstep Hp2.
  replace (ctrue (isMainThread _) && _) with false by (cbn; by rewrite HC, andb_false_r).
  replace (ctrue (isThread _)) with false by (cbn; by rewrite HT).
  rewrite (proj2 (Z.eqb_neq _ _)) by lia. mstep Hp2.
  erewrite (join_pass_ok k); [|exact Hp|apply list_insert_insert_eq|reflexivity|reflexivity].
  exists m1. split; [|done]. unfold granted, granted_proc.
  rewrite <- (share_sub L (t + shr)) by lia. rewrite <- HL.
  rewrite <- Z.quot_div_nonneg by (unfold STRIDENUM; lia). reflexivity.
Qed.

Lemma set_cpu_share_ok k c i pr hs L t shr :
  on (mach k) c (Some i) hs -> ptable k !! i = Some pr -> single_threaded pr t ->
  leftShare k = f64_of_Z L -> 20 + shr <= L <= 100 -> 0 <= t -> 0 < shr -> t + shr <= 100 ->
  exists m', set_cpu_share shr k = Ok shr { granted k i pr L t shr with mach := m' }
             /\ on m' c (Some i) hs.
Proof.
  intros Hon Hp Hs HL HLr Ht0 Hsh Hts. unfold set_cpu_share. mstep.
  rewrite HL, share_sub, share_lt_20 by lia. rewrite (proj2 (Z.ltb_ge _ _)) by lia.
  rewrite (proj2 (Z.eqb_neq _ _)) by lia.
  destruct (cpu_share_ok k c i pr hs L t shr) as (m' & E & Hon'); auto; [lia|].
  exists m'. split; [|done]. mstep E. done.
Qed.

Lemma cpu_share_panics k c i pr hs t shr :
  on (mach k) c (Some i) hs -> ptable k !! i = Some pr -> single_threaded pr t ->
  0 <= t <= 100 -> 0 <= shr <= 100 -> 100 < t + shr -> cpu_share shr k = Panic "cpu share overflow".
Proof.
  intros Hon Hp (HM & _ & _ & Ht) Ht0 Hs Hts. unfold cpu_share.
  destruct (curproc_ok k c i _ Hon) as (m1 & H1 & _). mstep H1. mstep Hp.
  rewrite HM. change (ctrue 1) with true. cbv match. apply bind_panic.
  mstep Hp. erewrite bind_ok by (apply getp_ok; plookup).
  rewrite Ht. rewrite s32_small by lia. by rewrite (proj2 (Z.ltb_lt _ _)) by (cbn; lia).
Qed.

(** C15: [set_cpu_share] called with [shr] percent (0 to 100) by a
    single-threaded process that has been granted [t] percent before, with [L]
    percent left to grant.  A request that would leave less than 20 percent for
    the MLFQ, and a request of 0, are refused and change nothing.  A request that
    would bring the total of the process above 100 makes the kernel panic.  Any
    other one makes the caller a stride process of stride 100 / [shr] that joins
    with the least pass value in use, raises its total to [t + shr], and takes the
    new TOTAL (not only [shr]) off [leftShare], from which the stride of the MLFQ
    is recomputed. *)
Theorem set_cpu_share_grants k c i pr hs L t shr :
  on (mach k) c (Some i) hs -> ptable k !! i = Some pr -> single_threaded pr t ->
  leftShare k = f64_of_Z L -> 0 <= L <= 100 -> 0 <= t <= 100 -> 0 <= shr <= 100 ->
  if (L - shr <? 20) || (shr =? 0) then set_cpu_share shr k = Ok (-1) k
  else if 100 <? t + shr then set_cpu_share shr k = Panic "cpu share overflow"
  else exists m', set_cpu_share shr k = Ok shr { granted k i pr L t shr with mach := m' }
                  /\ on m' c (Some i) hs.
Proof.
  intros Hon Hp Hs HL HLr Ht0 Hsh. destruct (Z.ltb_spec (L - shr) 20); cbn [orb].
  - unfold set_cpu_share. mstep. rewrite HL, share_sub, share_lt_20 by lia.
    by rewrite (proj2 (Z.ltb_lt _ _)) by lia.
  - destruct (Z.eqb_spec shr 0) as [->|Hne]; [|destruct (Z.ltb_spec 100 (t + shr))].
    3: apply set_cpu_share_ok; auto; lia.
    all: unfold set_cpu_share; mstep; rewrite HL, share_sub, share_lt_20 by lia;
      rewrite (proj2 (Z.ltb_ge _ _)) by lia.
    1: done.
    rewrite (proj2 (Z.eqb_neq _ _)) by lia. apply bind_panic.
    by apply (cpu_share_panics k c i pr hs t shr).
Qed.

(** C27: the 20 percent reserve does not survive a second call.  A process that
    asks for 30 percent twice, starting from 100 percent left, is granted
    both, and then 10 percent are left, although it holds 60. *)
Theorem set_cpu_share_twice_breaks_reserve k c i pr hs :
  on (mach k) c (Some i) hs -> ptable k !! i = Some pr -> single_threaded pr 0 ->
  leftShare k = f64_of_Z 100 ->
  exists k1 k2 pr2, set_cpu_share 30 k = Ok 30 k1 /\ set_cpu_share 30 k1 = Ok 30 k2
    /\ leftShare k2 = f64_of_Z 10 /\ ptable k2 !! i = Some pr2 /\ totalshare pr2 = 60.
Proof.
  intros Hon Hp Hs HL.
  destruct (set_cpu_share_ok k c i pr hs 100 0 30) as (m1 & E1 & Hon1); [done..|lia|lia|lia|lia|].
  set (k1 := { granted k i pr 100 0 30 with mach := m1 }) in *.
  assert (ptable k1 !! i = Some (granted_proc k pr 0 30)) as Hp1 by (by apply granted_slot).
  destruct (set_cpu_share_ok k1 c i _ hs 70 30 30 Hon1 Hp1) as (m2 & E2 & _); [|done|lia..|].
  { by destruct Hs as (? & ? & ? & ?). }
  exists k1, { granted k1 i (granted_proc k pr 0 30) 70 30 30 with mach := m2 },
    (granted_proc k1 (granted_proc k pr 0 30) 30 30).
  split_and!; [done..| |done]. by apply (granted_slot k1).
Qed.
End Share.
