(* ===== verification/SchedWitness.v ===== *)
(** * Concrete states for the theorems on locks and scheduling

    A machine with one CPU and small process tables, on which the hypotheses
    of the theorems of Spinlock.v, SchedTheory.v, SchedClock.v, SchedCycle.v
    and SchedShare.v hold. *)

From S2P Require Import Prelude Double Spinlock ProcState Sched SchedTheory SchedClock SchedCycle SchedShare.
Open Scope Z_scope.

(** One CPU that runs [p] and holds exactly the locks [hs]. *)
Definition machine_at (p : option nat) (hs : list lockid) : machine :=
  mk_machine [mk_cpu 0 (Z.of_nat (length hs)) true p 0] 1 0 false 0
    (fun lk => if decide (lk ∈ hs) then mk_spinlock 1 (Some 0%nat) else mk_spinlock 0 None).

Lemma cpu_at_machine_at p hs :
  cpu_at (machine_at p hs) 0 (mk_cpu 0 (Z.of_nat (length hs)) true p 0).
Proof. split; cbn; [done|lia|done|]. intros j c' Hj. lia. Qed.

Lemma on_machine_at p hs :
  NoDup hs -> Z.of_nat (length hs) < 2 ^ 31 - 1 -> on (machine_at p hs) 0 p hs.
Proof.
  intros Hnd Hlen. split; [|done| | |done..].
  - eexists. split; [apply cpu_at_machine_at|done].
  - intros lk Hlk. unfold lock_mine. cbn. by rewrite decide_True.
  - intros lk Hlk. unfold lock_free. cbn. by rewrite decide_False.
Qed.

(** A runnable process of the MLFQ. *)
Definition some_proc : proc :=
  mk_proc 4096 8192 12288 RUNNABLE 1 None zero_trapframe (mk_context 0 0 0 0 0) ch_null 0
    [] None [] 0 0 0 1 (f64_of_Z 0) (f64_of_Z 0) (f64_of_Z 0) 0 0 0 1 0 0 1 0.
Definition free_proc : proc := { some_proc with state := UNUSED; kstack := 0; pgdir := 0 }.

(** A kernel with the process table [ps], padded to its full length. *)
Definition kernel_at (m : machine) (ps : list proc) : kernel unit :=
  mk_kernel m (ps ++ replicate (NPROC - length ps) free_proc)
    (replicate NPROC (mk_tident 0 UNUSED)) None 1 1 (f64_of_Z 0) (f64_of_Z 1) (f64_of_Z 100)
    0 0 0 0 0 4096 tt.

Definition stride_proc (x : Z) : proc := { some_proc with isMLFQ := 0; pass := f64_of_Z x }.

Lemma findMinPass_chooses_minimum_witness :
  let k := { kernel_at (machine_at None [lk_ptable]) [stride_proc 7; some_proc; stride_proc 5]
             with MLFQPassVal := f64_of_Z 6 } in
  find_min_pass k = Some 2%nat /\
  exists p, ptable k !! 2%nat = Some p /\ stride_ready p
    /\ ipass p < 3000000000 /\ ipass p <= f64_trunc (MLFQPassVal k)
    /\ (forall j q, ptable k !! j = Some q -> stride_ready q ->
           ipass p <= ipass q /\ ((j < 2)%nat -> ipass p < ipass q)).
Proof.
  intros k. assert (find_min_pass k = Some 2%nat) as E by (vm_compute; reflexivity).
  split; [exact E|]. pose proof (findMinPass_chooses_minimum k) as H. rewrite E in H.
  apply H.
  - unfold passes_ok. apply (bool_decide_unpack _). vm_compute. exact I.
  - vm_compute. lia.
Defined.

Lemma critical_section_restores_witness :
  let m := machine_at None [lk_ticks] in
  exists m', (acquire lk_ptable;; release lk_ptable) m = Ok tt m' /\ IF m' = IF m
    /\ (exists c', cpu_at m' 0 c' /\ ncli c' = 1 /\ cproc c' = None)
    /\ lock_free m' lk_ptable
    /\ (forall lk', lk' <> lk_ptable -> locks m' lk' = locks m lk').
Proof.
  intros m.
  apply (critical_section_restores m 0 (mk_cpu 0 1 true None 0) lk_ptable).
  - apply cpu_at_machine_at.
  - unfold depth_ok. cbn. lia.
  - reflexivity.
  - vm_compute. reflexivity.
Defined.

(** Two processes ready at level 1; the one in slot 1 goes first. *)
Definition sched_kernel : kernel unit :=
  kernel_at (machine_at None [lk_ptable])
    [{ some_proc with state := SLEEPING }; { some_proc with priority := 1 };
     { some_proc with priority := 1 }].

Lemma sched_kernel_on : on (mach sched_kernel) 0 None [lk_ptable].
Proof. apply on_machine_at; [apply NoDup_singleton|cbn; lia]. Qed.

Lemma runnable_ok_Forall l :
  Forall (fun p => state p = RUNNABLE -> kstack p <> 0 /\ pgdir p <> 0) l -> runnable_ok l.
Proof. intros H i p Hp Hs. rewrite Forall_lookup in H. by apply (H i p). Qed.

Lemma MLFQ_Scheduler_picks_witness :
  mlfq_pick (ptable sched_kernel) = Some (1, 1%nat) /\
  exists m', on m' 0 None [lk_ptable] /\
  let k0 := { sched_kernel with mach := m' } in
  exists p s kont, ptable sched_kernel !! 1%nat = Some p /\ mlfq_ready 1 p
    /\ MLFQ_Scheduler 64 sched_kernel = Swtch s kont
    /\ dispatched 0 1 p { charged k0 1 with checkpoint := 1; levturn := 0 } s.
Proof.
  assert (mlfq_pick (ptable sched_kernel) = Some (1, 1%nat)) as E by (vm_compute; reflexivity).
  split; [exact E|].
  pose proof (MLFQ_Scheduler_picks 64 0 sched_kernel) as H. rewrite E in H. apply H.
  - exact sched_kernel_on.
  - reflexivity.
  - cbn. lia.
  - lia.
  - apply runnable_ok_Forall. apply (bool_decide_unpack _). vm_compute. exact I.
Defined.

Lemma MLFQ_Scheduler_never_runs_last_slot_witness :
  safe same_cursor (runs_slot 0 (fun p => p < 63)%nat) (fun _ _ => True)
    (MLFQ_Scheduler 1000 sched_kernel).
Proof. apply MLFQ_Scheduler_never_runs_last_slot. exact sched_kernel_on. Defined.

(** CPU 0 runs the process in slot 0, with interrupts off and no lock held. *)
Definition running_proc : proc := { some_proc with state := RUNNING }.
Definition running_kernel : kernel unit := kernel_at (machine_at (Some 0%nat) []) [running_proc].

Lemma running_kernel_on : on (mach running_kernel) 0 (Some 0%nat) [].
Proof. apply on_machine_at; [apply NoDup_nil_2|cbn; lia]. Qed.

Lemma trap_tick_accounts_witness :
  switches_and_returns 0 0 []
    { running_kernel with MLFQ_ticks := 1;
        ptable := <[0%nat := { tick running_proc with state := RUNNABLE }]> (ptable running_kernel) }
    (trap_tick running_kernel).
Proof.
  apply (trap_tick_accounts running_kernel 0 0 running_proc).
  - exact running_kernel_on.
  - reflexivity.
  - reflexivity.
  - right. reflexivity.
  - unfold level_ok. cbn. lia.
Defined.

(** One process that is ready, when the scheduler starts; 103 ticks later it has
    been boosted. *)
Definition lone_kernel : kernel unit := kernel_at (machine_at None []) [some_proc].

Lemma lone_kernel_alone : alone 0 some_proc lone_kernel.
Proof.
  split; first [reflexivity | done | lia | unfold level_ok; cbn; lia | idtac]. intros j q Hj Hq.
  assert (Forall (fun q => state q <> RUNNABLE) (drop 1 (ptable lone_kernel))) as Hall by (apply (bool_decide_unpack _); vm_compute; exact I).
  apply (Forall_lookup_1 _ _ (j - 1)%nat q Hall). rewrite lookup_drop. by replace (1 + (j - 1))%nat with j by lia.
Qed.


Lemma MLFQ_Boost_resets_witness :
  MLFQ_Boost sched_kernel
  = Ok tt { sched_kernel with ptable := boost <$> ptable sched_kernel; MLFQ_ticks := 0 }.
Proof. apply MLFQ_Boost_resets. reflexivity. Defined.

Lemma set_cpu_share_grants_witness :
  (exists m', set_cpu_share 30 running_kernel
              = Ok 30 { granted running_kernel 0 running_proc 100 0 30 with mach := m' }
              /\ on m' 0 (Some 0%nat) [])
  /\ set_cpu_share 81 running_kernel = Ok (-1) running_kernel
  /\ set_cpu_share 0 running_kernel = Ok (-1) running_kernel.
Proof.
  pose proof (set_cpu_share_grants running_kernel 0 0 running_proc [] 100 0) as H.
  split; [apply (H 30)|split; [apply (H 81)|apply (H 0)]];
    first [exact running_kernel_on | reflexivity | repeat split; reflexivity | lia].
Defined.

Lemma set_cpu_share_twice_breaks_reserve_witness :
  exists k1 k2 pr2, set_cpu_share 30 running_kernel = Ok 30 k1 /\ set_cpu_share 30 k1 = Ok 30 k2
    /\ leftShare k2 = f64_of_Z 10 /\ ptable k2 !! 0%nat = Some pr2 /\ totalshare pr2 = 60.
Proof.
  apply (set_cpu_share_twice_breaks_reserve running_kernel 0 0 running_proc []);
    first [exact running_kernel_on | reflexivity | repeat split; reflexivity].
Defined.
