(* ===== verification/Bio.v ===== *)
(** * The disk and the buffer cache

    Models memide.c (the disk kept in memory, with the contract of the disk
    driver: [iderw] syncs a buffer with its block), sleeplock.c as far as
    buffers and inodes use it, and bio.c: the cache of [NBUF] buffers, linked in
    order of use through [prev] and [next].  A buffer pointer is an index into
    the array [bufs]; the last element of the array is [bcache.head].

    The code between [acquire(&bcache.lock)] and its [release] is one step of
    the model, so the spin lock does not appear.  The sleep lock of a buffer
    does: it is the field [b_lock] (1 when held), and [acquiresleep] of a lock
    that is held has the outcome [Blocked].

    BioTheory.v and Cache.v prove that the cache shows a plain array of blocks. *)

From S2P Require Import Prelude.
Open Scope Z_scope.

Definition BSIZE : nat := 512.
Definition NBUF : nat := 30.
Definition B_VALID : Z := 2.
Definition B_DIRTY : Z := 4.

Record buf := mk_buf {
  b_flags : Z;
  b_dev : Z;
  b_blockno : Z;
  b_lock : Z;               (* lock.locked *)
  b_refcnt : Z;
  b_prev : nat;             (* LRU cache list *)
  b_next : nat;
  b_data : list Z;
}.

(** The disk: its blocks and, for reasoning about crashes, the history of the
    writes it has performed, oldest first. *)
Record bio := mk_bio {
  bufs : list buf;          (* bcache.buf followed by bcache.head *)
  disk : list (list Z);     (* memdisk *)
  hist : list (Z * list Z);
}.

(** [&bcache.head] *)
Definition head : nat := NBUF.

Definition getb (b : nat) : M bio buf := s ← get; deref (bufs s !! b).
Definition setb (b : nat) (f : buf -> buf) : M bio unit :=
  s ← get;
  _ ← deref (bufs s !! b);
  modify (fun s => { s with bufs ::= alter f b }).

(** ** sleeplock.c, for the lock of a buffer *)
Definition b_acquiresleep (b : nat) : M bio unit :=
  x ← getb b;
  if ctrue (b_lock x) then blocked else setb b (fun x => { x with b_lock := 1 }).
Definition b_releasesleep (b : nat) : M bio unit :=
  setb b (fun x => { x with b_lock := 0 }).
Definition b_holdingsleep (b : nat) : M bio bool :=
  x ← getb b; mret (ctrue (b_lock x)).

(** ** memide.c *)
Definition disksize (s : bio) : Z := Z.of_nat (length (disk s)).

Definition iderw (b : nat) : M bio unit :=
  h ← b_holdingsleep b;
  x ← getb b;
  if negb h then panic "iderw: buf not locked"
  else if Z.land (b_flags x) (Z.lor B_VALID B_DIRTY) =? B_VALID
  then panic "iderw: nothing to do"
  else if negb (b_dev x =? 1) then panic "iderw: request not for disk 1"
  else
    s ← get;
    if disksize s <=? b_blockno x then panic "iderw: block out of range"
    else
      let p := Z.to_nat (b_blockno x) in
      (if ctrue (Z.land (b_flags x) B_DIRTY) then
         setb b (fun x => { x with b_flags := Z.ldiff (b_flags x) B_DIRTY });;
         modify (fun s => { s with disk ::= <[p := b_data x]>;
                                   hist ::= fun h => h ++ [(b_blockno x, b_data x)] })
       else
         d ← deref (disk s !! p);
         setb b (fun x => { x with b_data := d }));;
      setb b (fun x => { x with b_flags := Z.lor (b_flags x) B_VALID }).

(** ** bio.c *)

(** Inserts [b] at the front of the list, after [head]. *)
Definition push_front (b : nat) : M bio unit :=
  h ← getb head;
  setb b (fun x => { x with b_next := b_next h });;
  setb b (fun x => { x with b_prev := head });;
  h ← getb head;
  setb (b_next h) (fun x => { x with b_prev := b });;
  setb head (fun x => { x with b_next := b }).

Definition binit : M bio unit :=
  setb head (fun x => { x with b_prev := head });;
  setb head (fun x => { x with b_next := head });;
  for_each (seq 0 NBUF) (fun b =>
    setb b (fun x => { x with b_lock := 0 });;
    push_front b).

(** The loops of [bget]: follow [step] from [b] until [head] or until a buffer
    passes [test]. *)
Fixpoint walk (step : buf -> nat) (test : buf -> bool) (fuel : nat) (b : nat)
    : M bio (option nat) :=
  match fuel with
  | O => no_fuel
  | S f =>
      if (b =? head)%nat then mret None
      else
        x ← getb b;
        if test x then mret (Some b) else walk step test f (step x)
  end.

Definition is_block (dev blockno : Z) (x : buf) : bool :=
  (b_dev x =? dev) && (b_blockno x =? blockno).
Definition is_free (x : buf) : bool :=
  (b_refcnt x =? 0) && (Z.land (b_flags x) B_DIRTY =? 0).

Definition bget (dev blockno : Z) : M bio nat :=
  (* Is the block already cached? *)
  h ← getb head;
  r ← walk b_next (is_block dev blockno) (S NBUF) (b_next h);
  match r with
  | Some b =>
      setb b (fun x => { x with b_refcnt := u32 (b_refcnt x + 1) });;
      b_acquiresleep b;;
      mret b
  | None =>
      (* Not cached; recycle an unused buffer. *)
      h ← getb head;
      r ← walk b_prev is_free (S NBUF) (b_prev h);
      match r with
      | Some b =>
          setb b (fun x => { x with b_dev := dev; b_blockno := blockno;
                                    b_flags := 0; b_refcnt := 1 });;
          b_acquiresleep b;;
          mret b
      | None => panic "bget: no buffers"
      end
  end.

Definition bread (dev blockno : Z) : M bio nat :=
  b ← bget dev blockno;
  x ← getb b;
  when (Z.land (b_flags x) B_VALID =? 0) (iderw b);;
  mret b.

Definition bwrite (b : nat) : M bio unit :=
  h ← b_holdingsleep b;
  if negb h then panic "bwrite"
  else
    setb b (fun x => { x with b_flags := Z.lor (b_flags x) B_DIRTY });;
    iderw b.

Definition brelse (b : nat) : M bio unit :=
  h ← b_holdingsleep b;
  if negb h then panic "brelse"
  else
    b_releasesleep b;;
    setb b (fun x => { x with b_refcnt := u32 (b_refcnt x - 1) });;
    x ← getb b;
    if b_refcnt x =? 0 then
      (* no one is waiting for it. *)
      setb (b_next x) (fun y => { y with b_prev := b_prev x });;
      x ← getb b;
      setb (b_prev x) (fun y => { y with b_next := b_next x });;
      push_front b
    else mret tt.

(** The buffer that a pointer of the log and file system code refers to. *)
Definition bdata (b : nat) : M bio (list Z) := x ← getb b; mret (b_data x).
Definition bset (b : nat) (d : list Z) : M bio unit :=
  setb b (fun x => { x with b_data := d }).
