(* ===== verification/BioTheory.v ===== *)
(** * The buffer cache implements an array of blocks

    First the circular doubly linked list of bio.c: [seg] relates the [next]
    and [prev] pointers to the sequence of buffers they link, and the two
    operations on it (unlinking a buffer, inserting at the front) are proved on
    sequences.  Then the invariant [bio_ok] of the cache and the specifications
    of [bread], [bwrite] and [brelse] in terms of the contents of blocks, the
    dirty blocks and the buffers that are held. *)

From S2P Require Import Prelude Bio.
Open Scope Z_scope.

(** ** Linked segments *)
Section Seg.
Implicit Types nx pv : nat -> option nat.

(** Following [nx] from [a] passes through [l] and arrives at [b]; [pv] is the
    way back. *)
Fixpoint seg nx pv (a : nat) (l : list nat) (b : nat) : Prop :=
  match l with
  | [] => nx a = Some b /\ pv b = Some a
  | x :: l' => nx a = Some x /\ pv x = Some a /\ seg nx pv x l' b
  end.

Lemma seg_app nx pv a l1 x l2 b :
  seg nx pv a (l1 ++ x :: l2) b <-> seg nx pv a l1 x /\ seg nx pv x l2 b.
Proof.
  revert a. induction l1 as [|y l1 IH]; intros a; cbn; [naive_solver|].
  rewrite IH. naive_solver.
Qed.

Lemma seg_reverse nx pv a l b : seg nx pv a l b -> seg pv nx b (reverse l) a.
Proof.
  revert a. induction l as [|x l IH]; intros a; cbn [seg].
  - intros [? ?]. done.
  - intros (Hn & Hp & Hs). rewrite reverse_cons. apply seg_app. split; [by apply IH|done].
Qed.

(** A segment from [a] through [l] depends on [nx] at [a :: l] and on [pv] at
    [l] and [b]. *)
Lemma seg_ext nx nx' pv pv' a l b :
  (forall i, i = a \/ i ∈ l -> nx' i = nx i) -> (forall i, i = b \/ i ∈ l -> pv' i = pv i) ->
  seg nx pv a l b -> seg nx' pv' a l b.
Proof.
  revert a. induction l as [|x l IH]; intros a Hn Hp; cbn.
  - intros [? ?]. rewrite Hn, Hp by auto. done.
  - intros (? & ? & Hs). rewrite Hn by auto. rewrite Hp by set_solver. split_and!; auto.
    apply IH; [..|done]; intros i Hi; [apply Hn|apply Hp]; set_solver.
Qed.

(** The first and the last link of a segment. *)
Lemma seg_first nx pv a l b :
  seg nx pv a l b -> exists n, nx a = Some n /\ pv n = Some a
    /\ ((l = [] /\ n = b) \/ exists l', l = n :: l' /\ seg nx pv n l' b).
Proof. destruct l as [|n l]; cbn; naive_solver. Qed.

Lemma seg_last nx pv a l b :
  seg nx pv a l b -> exists p, pv b = Some p /\ nx p = Some b
    /\ ((l = [] /\ p = a) \/ exists l', l = l' ++ [p] /\ seg nx pv a l' p).
Proof.
  destruct l as [|p l _] using rev_ind.
  - intros [? ?]. exists a. auto.
  - intros [H [? ?]]%seg_app. exists p. eauto 10.
Qed.

Definition upd (f : nat -> option nat) (i v : nat) : nat -> option nat := <[i := Some v]> f.

(** Unlinking [b]: [b->next->prev = b->prev; b->prev->next = b->next]. *)
Lemma seg_unlink nx pv h l1 b l2 p n :
  NoDup (h :: l1 ++ b :: l2) -> seg nx pv h (l1 ++ b :: l2) h ->
  pv b = Some p -> nx b = Some n ->
  seg (upd nx p n) (upd pv n p) h (l1 ++ l2) h.
Proof.
  intros Hnd [H1 H2]%seg_app Ep En.
  apply seg_last in H1 as (p' & Ep' & _ & Hl1). assert (p' = p) as -> by congruence.
  apply seg_first in H2 as (n' & En' & _ & Hl2). assert (n' = n) as -> by congruence.
  apply list.NoDup_cons in Hnd as [Hh Hnd]. apply list.NoDup_app in Hnd as (Hd1 & Hd & Hd2).
  apply list.NoDup_cons in Hd2 as [Hb Hd2].
  assert (upd nx p n p = Some n) as Ex by apply fn_lookup_insert.
  assert (upd pv n p n = Some p) as Ey by apply fn_lookup_insert.
  assert (Hfx : forall i, i <> p -> upd nx p n i = nx i)
    by (intros; by apply fn_lookup_insert_ne).
  assert (Hfy : forall i, i <> n -> upd pv n p i = pv i)
    by (intros; by apply fn_lookup_insert_ne).
  destruct Hl2 as [[-> ->]|(l2' & -> & Hs2)].
  - rewrite app_nil_r. destruct Hl1 as [[-> ->]|(l1' & -> & Hs1)]; [done|].
    apply seg_app. split; [|done]. apply list.NoDup_app in Hd1 as (? & Hd1 & ?).
    eapply seg_ext; [..|exact Hs1]; intros i Hi; [apply Hfx|apply Hfy];
      intros ->; set_solver.
  - apply list.NoDup_cons in Hd2 as [Hn Hd2].
    assert (seg (upd nx p n) (upd pv n p) n l2' h) as Hs2'.
    { eapply seg_ext; [..|exact Hs2]; intros i Hi; [apply Hfx|apply Hfy]; intros ->.
      - destruct Hl1 as [[-> ->]|(l1' & -> & _)]; set_solver.
      - set_solver. }
    apply seg_app. split; [|done].
    destruct Hl1 as [[-> ->]|(l1' & -> & Hs1)]; [done|].
    apply seg_app. split; [|done]. apply list.NoDup_app in Hd1 as (? & Hd1 & ?).
    eapply seg_ext; [..|exact Hs1]; intros i Hi; [apply Hfx|apply Hfy];
      intros ->; set_solver.
Qed.

(** Inserting [b] after [h]. *)
Lemma seg_push nx pv h l b n :
  b ∉ h :: l -> NoDup (h :: l) -> seg nx pv h l h -> nx h = Some n ->
  seg (upd (upd nx b n) h b) (upd (upd pv b h) n b) h (b :: l) h.
Proof.
  intros Hb Hnd Hs En. apply seg_first in Hs as (n' & En' & _ & Hl). assert (n' = n) as -> by congruence.
  apply not_elem_of_cons in Hb as [Hbh Hbl]. apply list.NoDup_cons in Hnd as [Hh Hnd].
  assert (n <> b) as Hnb by (destruct Hl as [[-> ->]|(l' & -> & _)]; set_solver).
  unfold upd. cbn. rewrite fn_lookup_insert.
  rewrite fn_lookup_insert_ne, fn_lookup_insert by done. split_and!; [done..|].
  destruct Hl as [[-> ->]|(l' & -> & Hs')]; cbn.
  - rewrite fn_lookup_insert_ne, !fn_lookup_insert by done. done.
  - rewrite fn_lookup_insert_ne, !fn_lookup_insert by done. split_and!; [done..|].
    apply list.NoDup_cons in Hnd as [Hn Hnd].
    eapply seg_ext; [..|exact Hs']; intros i Hi; rewrite !fn_lookup_insert_ne; set_solver.
Qed.
End Seg.

(** ** Buffers by index *)
Lemma getb_ok s b x : bufs s !! b = Some x -> getb b s = Ok x s.
Proof. intros H. unfold getb. msimpl. by rewrite H. Qed.

Lemma setb_ok s b f x :
  bufs s !! b = Some x -> setb b f s = Ok tt { s with bufs := <[b := f x]> (bufs s) }.
Proof.
  intros H. unfold setb. msimpl. rewrite H. msimpl. cbn. by rewrite (alter_insert _ _ _ x).
Qed.

(** [bstep H] runs the next operation, a [getb] or [setb] of the buffer that [H]
    looks up, or the operation whose outcome is [H]. *)
Ltac bstep H := erewrite bind_ok by first [exact H | apply getb_ok; exact H | apply setb_ok; exact H].

Lemma lookup_setb (s : bio) b x x' :
  bufs s !! b = Some x ->
  bufs { s with bufs := <[b := x']> (bufs s) } !! b = Some x'.
Proof. intros H. cbn. eapply list_lookup_insert_eq, lookup_lt_Some, H. Qed.

Lemma lookup_setb_ne (s : bio) b i x' :
  i <> b -> bufs { s with bufs := <[b := x']> (bufs s) } !! i = bufs s !! i.
Proof. intros H. cbn. by apply list_lookup_insert_ne. Qed.

(** The pointers as functions. *)
Definition nx (bs : list buf) (i : nat) : option nat := b_next <$> (bs !! i).
Definition pv (bs : list buf) (i : nat) : option nat := b_prev <$> (bs !! i).

Lemma nx_insert bs b x x' :
  bs !! b = Some x -> forall i, nx (<[b := x']> bs) i = upd (nx bs) b (b_next x') i.
Proof.
  intros H i. unfold nx, upd. destruct (decide (i = b)) as [->|Hne].
  - rewrite fn_lookup_insert, list_lookup_insert_eq by (by eapply lookup_lt_Some). done.
  - by rewrite fn_lookup_insert_ne, list_lookup_insert_ne.
Qed.
Lemma pv_insert bs b x x' :
  bs !! b = Some x -> forall i, pv (<[b := x']> bs) i = upd (pv bs) b (b_prev x') i.
Proof.
  intros H i. unfold pv, upd. destruct (decide (i = b)) as [->|Hne].
  - rewrite fn_lookup_insert, list_lookup_insert_eq by (by eapply lookup_lt_Some). done.
  - by rewrite fn_lookup_insert_ne, list_lookup_insert_ne.
Qed.

(** Two arrays with the same pointers. *)
Definition same_links (bs bs' : list buf) : Prop :=
  forall i, nx bs' i = nx bs i /\ pv bs' i = pv bs i.
Lemma same_links_insert bs b x x' :
  bs !! b = Some x -> b_next x' = b_next x -> b_prev x' = b_prev x ->
  same_links bs (<[b := x']> bs).
Proof.
  intros H En Ep i. rewrite (nx_insert _ _ _ _ H), (pv_insert _ _ _ _ H), En, Ep. unfold upd.
  destruct (decide (i = b)) as [->|Hne].
  - rewrite !fn_lookup_insert. unfold nx, pv. by rewrite H.
  - by rewrite !fn_lookup_insert_ne.
Qed.
Lemma same_links_seg bs bs' a l b :
  same_links bs bs' -> seg (nx bs) (pv bs) a l b -> seg (nx bs') (pv bs') a l b.
Proof. intros H. apply seg_ext; intros i _; apply H. Qed.

(** ** Walking along the list *)
Fixpoint find_buf (test : buf -> bool) (bs : list buf) (l : list nat) : option nat :=
  match l with
  | [] => None
  | i :: l' =>
      match bs !! i with
      | Some x => if test x then Some i else find_buf test bs l'
      | None => None
      end
  end.

Lemma walk_spec (step : buf -> nat) (pw : nat -> option nat) test s l a b fuel :
  seg (fun i => step <$> (bufs s !! i)) pw a l head -> head ∉ l -> (length l < fuel)%nat ->
  (forall i, i ∈ l -> is_Some (bufs s !! i)) -> step <$> (bufs s !! a) = Some b ->
  walk step test fuel b s = Ok (find_buf test (bufs s) l) s.
Proof.
  revert a b fuel. induction l as [|x l IH]; intros a b fuel Hs Hh Hf Hv Hb.
  - destruct Hs as [Hs _]. rewrite Hb in Hs. injection Hs as ->.
    destruct fuel; [cbn in Hf; lia|]. done.
  - destruct Hs as (Hs & _ & Hs'). rewrite Hb in Hs. injection Hs as ->.
    destruct fuel as [|fuel]; [cbn in Hf; lia|]. cbn [walk find_buf length] in *.
    apply not_elem_of_cons in Hh as [Hx Hh].
    rewrite (proj2 (Nat.eqb_neq x head)) by congruence.
    destruct (Hv x) as [y Hy]; [by left|]. rewrite Hy. bstep Hy.
    destruct (test y); [done|]. apply (IH x); auto; [lia| |].
    + intros i Hi. apply Hv. by right.
    + by rewrite Hy.
Qed.

Lemma find_buf_Some test bs l i :
  find_buf test bs l = Some i -> exists x, i ∈ l /\ bs !! i = Some x /\ test x = true.
Proof.
  induction l as [|j l IH]; cbn; [done|]. destruct (bs !! j) as [x|] eqn:Hj; [|done].
  destruct (test x) eqn:Ht.
  - intros [= <-]. exists x. split; [by left|done].
  - intros (y & ? & ?)%IH. exists y. split; [by right|done].
Qed.

Lemma find_buf_None test bs l :
  (forall i, i ∈ l -> is_Some (bs !! i)) -> find_buf test bs l = None ->
  forall i x, i ∈ l -> bs !! i = Some x -> test x = false.
Proof.
  induction l as [|j l IH]; cbn; intros Hv Hf i x Hi Hx; [by apply not_elem_of_nil in Hi|].
  destruct (Hv j) as [y Hy]; [by left|]. rewrite Hy in Hf.
  destruct (test y) eqn:Ht; [done|]. apply elem_of_cons in Hi as [->|Hi]; [by simplify_eq|].
  apply (IH ltac:(intros; apply Hv; by right) Hf i x Hi Hx).
Qed.

(** ** Updates of the pointers *)
Definition set_next (b v : nat) (bs : list buf) : list buf :=
  alter (fun x => { x with b_next := v }) b bs.
Definition set_prev (b v : nat) (bs : list buf) : list buf :=
  alter (fun x => { x with b_prev := v }) b bs.

(** Everything in a buffer but the pointers. *)
Definition body (x : buf) : Z * Z * Z * Z * Z * list Z :=
  (b_flags x, b_dev x, b_blockno x, b_lock x, b_refcnt x, b_data x).

(** [bs'] is [bs] with other pointers, which are [n] and [p]. *)
Definition relinked (bs bs' : list buf) (n p : nat -> option nat) : Prop :=
  body <$> bs' = body <$> bs /\ (forall i, nx bs' i = n i) /\ (forall i, pv bs' i = p i).

Lemma relinked_refl bs : relinked bs bs (nx bs) (pv bs).
Proof. done. Qed.

Lemma relinked_length bs bs' n p : relinked bs bs' n p -> length bs' = length bs.
Proof. intros [H _]. by rewrite <- (length_fmap body bs'), H, length_fmap. Qed.

Lemma body_alter f (b : nat) (bs : list buf) :
  (forall x, body (f x) = body x) -> body <$> alter f b bs = body <$> bs.
Proof.
  intros Hf. apply list_eq. intros i. rewrite !list_lookup_fmap.
  destruct (decide (i = b)) as [->|Hne].
  - rewrite list_lookup_alter_eq. destruct (bs !! b); cbn; [by rewrite Hf|done].
  - by rewrite list_lookup_alter_ne.
Qed.

Lemma relinked_set_next bs bs' n p b v :
  (b < length bs)%nat -> relinked bs bs' n p -> relinked bs (set_next b v bs') (upd n b v) p.
Proof.
  intros Hb H. pose proof (relinked_length _ _ _ _ H) as Hl. destruct H as (Hbd & Hn & Hp).
  unfold set_next. split_and!; [by rewrite body_alter|..]; intros i; unfold nx, pv, upd in *;
    (destruct (decide (i = b)) as [->|Hne];
     [rewrite list_lookup_alter_eq|rewrite list_lookup_alter_ne by done]).
  - rewrite fn_lookup_insert. destruct (lookup_lt_is_Some_2 bs' b) as [x ->]; [lia|done].
  - by rewrite fn_lookup_insert_ne.
  - rewrite <- Hp. by destruct (bs' !! b).
  - apply Hp.
Qed.

Lemma relinked_set_prev bs bs' n p b v :
  (b < length bs)%nat -> relinked bs bs' n p -> relinked bs (set_prev b v bs') n (upd p b v).
Proof.
  intros Hb H. pose proof (relinked_length _ _ _ _ H) as Hl. destruct H as (Hbd & Hn & Hp).
  unfold set_prev. split_and!; [by rewrite body_alter|..]; intros i; unfold nx, pv, upd in *;
    (destruct (decide (i = b)) as [->|Hne];
     [rewrite list_lookup_alter_eq|rewrite list_lookup_alter_ne by done]).
  - rewrite <- Hn. by destruct (bs' !! b).
  - apply Hn.
  - rewrite fn_lookup_insert. destruct (lookup_lt_is_Some_2 bs' b) as [x ->]; [lia|done].
  - by rewrite fn_lookup_insert_ne.
Qed.

Lemma setb_alter s b f :
  (b < length (bufs s))%nat -> setb b f s = Ok tt { s with bufs := alter f b (bufs s) }.
Proof.
  intros Hb. destruct (lookup_lt_is_Some_2 _ _ Hb) as [x Hx].
  unfold setb. msimpl. by rewrite Hx.
Qed.

Lemma getb_next s bs n p b v :
  relinked bs (bufs s) n p -> n b = Some v -> exists x, getb b s = Ok x s /\ b_next x = v.
Proof.
  intros (_ & Hn & _) Hb. rewrite <- Hn in Hb. unfold nx in Hb.
  apply fmap_Some in Hb as (x & Hx & ->). exists x. split; [by apply getb_ok|done].
Qed.

Lemma push_front_ok s l b :
  b ∉ head :: l -> NoDup (head :: l) -> (b < length (bufs s))%nat -> length (bufs s) = S NBUF ->
  (forall i, i ∈ l -> i < length (bufs s))%nat ->
  seg (nx (bufs s)) (pv (bufs s)) head l head ->
  exists bs', push_front b s = Ok tt { s with bufs := bs' }
    /\ body <$> bs' = body <$> bufs s /\ seg (nx bs') (pv bs') head (b :: l) head.
Proof.
  intros Hb Hnd Hlt Hlen Hv Hs. unfold push_front.
  assert (head < length (bufs s))%nat as Hh by (rewrite Hlen; unfold head; lia).
  destruct (seg_first _ _ _ _ _ Hs) as (n & En & _ & Hl).
  assert (n < length (bufs s))%nat as Hn.
  { destruct Hl as [[_ ->]|(l' & -> & _)]; [done|]. apply Hv. by left. }
  pose proof (relinked_refl (bufs s)) as R0.
  destruct (getb_next s _ _ _ head n R0 En) as (h & Hh1 & Eh). bstep Hh1. rewrite Eh.
  pose proof (relinked_set_next _ _ _ _ b n Hlt R0) as R1.
  erewrite bind_ok by (by apply setb_alter).
  pose proof (relinked_set_prev _ _ _ _ b head Hlt R1) as R2.
  erewrite bind_ok by (apply setb_alter; cbn; by rewrite length_alter).
  mstate ltac:(fun st => destruct (getb_next st _ _ _ head n R2) as (h2 & Hh2 & Eh2)).
  { unfold upd. rewrite fn_lookup_insert_ne; [done|]. set_solver. }
  bstep Hh2. rewrite Eh2.
  erewrite bind_ok by (apply setb_alter; cbn; by rewrite !length_alter).
  pose proof (relinked_set_prev _ _ _ _ n b Hn R2) as R3.
  rewrite setb_alter by (cbn; by rewrite !length_alter).
  destruct (relinked_set_next _ _ _ _ head b Hh R3) as (Hbd & Hnx & Hpv).
  eexists. split; [reflexivity|]. split; [exact Hbd|].
  eapply seg_ext; [intros; apply Hnx|intros; apply Hpv|]. by apply seg_push.
Qed.

(** ** The invariant of the cache *)

(** Buffer [i] caches block [n]. *)
Definition caches (s : bio) (i : nat) (n : Z) (x : buf) : Prop :=
  (i < NBUF)%nat /\ bufs s !! i = Some x /\ b_dev x = 1 /\ b_blockno x = n.

(** A buffer is unused, clean (flags [B_VALID]: its data is that of the block on
    the disk) or dirty (flags [B_VALID|B_DIRTY]). *)
Definition buf_ok (s : bio) (x : buf) : Prop :=
  b_refcnt x = b_lock x /\ (b_lock x = 0 \/ b_lock x = 1) /\
  ((b_dev x = 0 /\ b_flags x = 0 /\ b_lock x = 0) \/
   (b_dev x = 1 /\ 0 <= b_blockno x < disksize s /\ length (b_data x) = BSIZE
    /\ (b_flags x = 6 \/
        (b_flags x = 2 /\ disk s !! Z.to_nat (b_blockno x) = Some (b_data x))))).

Record bio_ok (s : bio) : Prop := {
  ok_len : length (bufs s) = S NBUF;
  ok_lru : exists order, Permutation order (seq 0 NBUF)
             /\ seg (nx (bufs s)) (pv (bufs s)) head order head;
  ok_disk : Forall (fun d => length d = BSIZE) (disk s);
  ok_size : disksize s < 2 ^ 31;
  ok_buf : forall i x, (i < NBUF)%nat -> bufs s !! i = Some x -> buf_ok s x;
  ok_unique : forall i j n x y, caches s i n x -> caches s j n y -> i = j;
}.

(** The cached contents of a block: that of the buffer that caches it, else
    that of the disk. *)
Definition content (s : bio) (n : Z) : list Z :=
  match find_buf (is_block 1 n) (bufs s) (seq 0 NBUF) ≫= (bufs s !!.) with
  | Some x => b_data x
  | None => disk s !!! Z.to_nat n
  end.

(** Block [n] is dirty; buffer [i] is held for block [n]. *)
Definition dirty (s : bio) (n : Z) : Prop := exists i x, caches s i n x /\ b_flags x = 6.
Definition held (s : bio) (i : nat) (n : Z) : Prop := exists x, caches s i n x /\ b_lock x = 1.
Definition uncached (s : bio) (n : Z) : Prop := forall i x, ~ caches s i n x.

Lemma is_block_true dev n x : is_block dev n x = true <-> b_dev x = dev /\ b_blockno x = n.
Proof. unfold is_block. rewrite andb_true_iff, !Z.eqb_eq. done. Qed.

Section BioOk.
Context (s : bio) (Hok : bio_ok s).

Lemma buf_lookup i : (i < S NBUF)%nat -> is_Some (bufs s !! i).
Proof. intros. apply lookup_lt_is_Some. by rewrite (ok_len s Hok). Qed.

Lemma order_valid order i : Permutation order (seq 0 NBUF) -> i ∈ order -> is_Some (bufs s !! i).
Proof.
  intros Hp Hi. apply buf_lookup. rewrite Hp in Hi. apply elem_of_seq in Hi. lia.
Qed.

Lemma order_head order : Permutation order (seq 0 NBUF) -> NoDup (head :: order).
Proof.
  intros Hp. apply list.NoDup_cons. rewrite Hp. split; [|apply NoDup_seq].
  rewrite elem_of_seq. unfold head. lia.
Qed.

(** The two loops of [bget] see every buffer. *)
Lemma find_block order n :
  Permutation order (seq 0 NBUF) ->
  match find_buf (is_block 1 n) (bufs s) order with
  | Some i => exists x, caches s i n x
  | None => uncached s n
  end.
Proof.
  intros Hp. destruct (find_buf _ _ order) as [i|] eqn:E.
  - apply find_buf_Some in E as (x & Hi & Hx & [Hd Hn]%is_block_true).
    rewrite Hp in Hi. apply elem_of_seq in Hi. exists x. split_and!; auto; lia.
  - intros i x (Hi & Hx & Hd & Hn).
    apply (find_buf_None _ _ _ ltac:(intros j; by apply order_valid)) with (i := i) (x := x) in E; auto.
    + apply not_true_iff_false in E. apply E. by apply is_block_true.
    + rewrite Hp. apply elem_of_seq. lia.
Qed.

Lemma content_cached i n x : caches s i n x -> content s n = b_data x.
Proof.
  intros Hc. unfold content. pose proof (find_block (seq 0 NBUF) n ltac:(done)) as H.
  destruct (find_buf _ _ _) as [j|]; [|by destruct (H i x)].
  destruct H as [y Hy]. pose proof (ok_unique s Hok _ _ _ _ _ Hc Hy) as <-.
  destruct Hc as (_ & Hx & _). cbn. by rewrite Hx.
Qed.

Lemma content_uncached n : uncached s n -> content s n = disk s !!! Z.to_nat n.
Proof.
  intros Hc. unfold content. pose proof (find_block (seq 0 NBUF) n ltac:(done)) as H.
  destruct (find_buf _ _ _) as [j|]; [|done]. destruct H as [y Hy]. by destruct (Hc j y).
Qed.

Lemma disk_lookup n :
  0 <= n < disksize s -> disk s !! Z.to_nat n = Some (disk s !!! Z.to_nat n).
Proof. intros Hn. apply list_lookup_lookup_total_lt. unfold disksize in Hn. lia. Qed.

Lemma content_length n : 0 <= n < disksize s -> length (content s n) = BSIZE.
Proof.
  intros Hn. pose proof (find_block (seq 0 NBUF) n ltac:(done)) as H.
  destruct (find_buf _ _ _) as [j|].
  - destruct H as [x Hx]. rewrite (content_cached _ _ _ Hx).
    destruct Hx as (Hj & Hx & Hd & <-). destruct (ok_buf s Hok j x Hj Hx) as (_ & _ & [(? & _)|(_ & _ & ? & _)]); [congruence|done].
  - rewrite content_uncached by done.
    eapply (Forall_lookup_1 _ _ _ _ (ok_disk s Hok)), disk_lookup, Hn.
Qed.

Lemma walk_next_ok test :
  exists order, Permutation order (seq 0 NBUF) /\
  (h ← getb head; walk b_next test (S NBUF) (b_next h)) s
    = Ok (find_buf test (bufs s) order) s.
Proof.
  destruct (ok_lru s Hok) as (order & Hp & Hs). exists order. split; [done|].
  destruct (buf_lookup head ltac:(unfold head; lia)) as [h Hh]. bstep Hh.
  pose proof (order_head _ Hp) as Hnd. apply list.NoDup_cons in Hnd as [Hnh _].
  apply (walk_spec b_next (pv (bufs s)) test s order head).
  - exact Hs.
  - done.
  - rewrite Hp, length_seq. lia.
  - intros i. by apply order_valid.
  - by rewrite Hh.
Qed.

Lemma walk_prev_ok test :
  exists order, Permutation order (seq 0 NBUF) /\
  (h ← getb head; walk b_prev test (S NBUF) (b_prev h)) s
    = Ok (find_buf test (bufs s) order) s.
Proof.
  destruct (ok_lru s Hok) as (order & Hp & Hs). exists (reverse order).
  assert (Permutation (reverse order) (seq 0 NBUF)) as Hp' by (by rewrite reverse_Permutation).
  split; [done|].
  destruct (buf_lookup head ltac:(unfold head; lia)) as [h Hh]. bstep Hh.
  pose proof (order_head _ Hp') as Hnd. apply list.NoDup_cons in Hnd as [Hnh _].
  apply (walk_spec b_prev (nx (bufs s)) test s (reverse order) head).
  - apply seg_reverse in Hs. exact Hs.
  - done.
  - rewrite Hp', length_seq. lia.
  - intros i. by apply order_valid.
  - by rewrite Hh.
Qed.
End BioOk.

(** ** Getting a buffer *)

(** The buffer [x] taken for block [n]: locked, with contents [d]. *)
Definition taken (x : buf) (n fl : Z) (d : list Z) : buf :=
  { x with b_dev := 1; b_blockno := n; b_flags := fl; b_refcnt := 1; b_lock := 1; b_data := d }.

(** A buffer that [bget] can recycle. *)
Definition evictable (s : bio) (i : nat) : Prop :=
  exists x, (i < NBUF)%nat /\ bufs s !! i = Some x /\ is_free x = true.

Lemma insert_twice (s : bio) b x y :
  let s' := { s with bufs := <[b := x]> (bufs s) } in
  { s' with bufs := <[b := y]> (bufs s') } = { s with bufs := <[b := y]> (bufs s) }.
Proof. cbn. by rewrite list_insert_insert_eq. Qed.

Lemma b_acquiresleep_ok s b x :
  bufs s !! b = Some x -> b_lock x = 0 ->
  b_acquiresleep b s = Ok tt { s with bufs := <[b := { x with b_lock := 1 }]> (bufs s) }.
Proof.
  intros Hx Hl. unfold b_acquiresleep. bstep Hx. rewrite Hl. cbn [ctrue Z.eqb negb].
  by rewrite (setb_ok _ _ _ _ Hx).
Qed.

(** [iderw] on a buffer that was just recycled reads the block. *)
Lemma iderw_read s b x d :
  bufs s !! b = Some x -> b_lock x = 1 -> b_flags x = 0 -> b_dev x = 1 ->
  0 <= b_blockno x < disksize s -> disk s !! Z.to_nat (b_blockno x) = Some d ->
  iderw b s = Ok tt { s with bufs := <[b := { x with b_flags := 2; b_data := d }]> (bufs s) }.
Proof.
  intros Hx Hl Hf Hd Hn Hdisk. unfold iderw, b_holdingsleep.
  erewrite bind_ok by (bstep Hx; reflexivity). bstep Hx. rewrite Hl, Hf, Hd. cbn [ctrue Z.eqb Pos.eqb negb].
  change (Z.land 0 (Z.lor B_VALID B_DIRTY) =? B_VALID) with false.
  change (Z.land 0 B_DIRTY) with 0. cbv match. erewrite bind_ok by reflexivity.
  rewrite (proj2 (Z.leb_gt _ _)) by lia. cbn [ctrue Z.eqb Pos.eqb negb].
  erewrite bind_ok.
  2: { rewrite Hdisk. erewrite bind_ok by reflexivity. by apply setb_ok. }
  erewrite setb_ok by (by apply (lookup_setb _ _ x)). rewrite insert_twice. do 3 f_equal.
  destruct x; cbn in *. by subst.
Qed.

Lemma bget_ok s n :
  bio_ok s -> 0 <= n < disksize s -> (forall i, ~ held s i n) ->
  (exists i x, caches s i n x) \/ (exists i, evictable s i) ->
  exists b x fl, (b < NBUF)%nat /\ bufs s !! b = Some x /\
    bget 1 n s = Ok b { s with bufs := <[b := taken x n fl (b_data x)]> (bufs s) } /\
    ((caches s b n x /\ fl = b_flags x) \/ (uncached s n /\ is_free x = true /\ fl = 0)).
Proof.
  intros Hok Hn Hh Hav. unfold bget.
  destruct (walk_next_ok s Hok (is_block 1 n)) as (o1 & Hp1 & H1).
  apply bind_inv_ok in H1 as (h & s1 & Hg1 & Hw1).
  destruct (buf_lookup s Hok head ltac:(unfold head; lia)) as [h0 Hh0].
  rewrite (getb_ok _ _ _ Hh0) in Hg1. injection Hg1 as <- <-. bstep Hh0. bstep Hw1.
  pose proof (find_block s Hok o1 n Hp1) as Hf. destruct (find_buf _ _ o1) as [b|].
  - destruct Hf as [x Hx]. pose proof Hx as (Hb & Hbx & Hd & Hbn).
    destruct (ok_buf s Hok b x Hb Hbx) as (Hrc & Hlk & _).
    assert (b_lock x = 0) as Hl0 by (destruct Hlk; [done|]; destruct (Hh b); by exists x).
    exists b, x, (b_flags x). split_and!; auto. bstep Hbx.
    erewrite bind_ok by (apply b_acquiresleep_ok; [by apply (lookup_setb _ _ x)|done]).
    rewrite insert_twice. unfold mret, M_ret. do 3 f_equal. unfold taken.
    destruct x; cbn in *. by subst.
  - bstep Hh0. destruct (walk_prev_ok s Hok is_free) as (o2 & Hp2 & H2).
    apply bind_inv_ok in H2 as (h & s1 & Hg2 & Hw2).
    rewrite (getb_ok _ _ _ Hh0) in Hg2. injection Hg2 as <- <-. bstep Hw2.
    destruct (find_buf is_free (bufs s) o2) as [b|] eqn:E; cycle 1.
    { destruct Hav as [(i & x & Hx)|(i & x & Hi & Hx & Hfr)]; [by destruct (Hf i x)|].
      eapply find_buf_None in E; [|by intros j; apply order_valid| |exact Hx]; [congruence|].
      rewrite Hp2. apply elem_of_seq. lia. }
    apply find_buf_Some in E as (x & Hb & Hbx & Hfr).
    rewrite Hp2 in Hb. apply elem_of_seq in Hb.
    assert (b < NBUF)%nat as Hb' by lia.
    destruct (ok_buf s Hok b x Hb' Hbx) as (Hrc & Hlk & _).
    unfold is_free in Hfr. apply andb_prop in Hfr as [Hr0%Z.eqb_eq Hfl].
    exists b, x, 0. split_and!; auto. 2: { right. split_and!; auto. unfold is_free. by rewrite Hr0, Hfl. }
    bstep Hbx.
    erewrite bind_ok by (apply b_acquiresleep_ok; [by apply (lookup_setb _ _ x)|cbn; congruence]).
    by rewrite insert_twice.
Qed.

Lemma bread_ok s n :
  bio_ok s -> 0 <= n < disksize s -> (forall i, ~ held s i n) ->
  (exists i x, caches s i n x) \/ (exists i, evictable s i) ->
  exists b x fl, (b < NBUF)%nat /\ bufs s !! b = Some x /\
    bread 1 n s = Ok b { s with bufs := <[b := taken x n fl (content s n)]> (bufs s) } /\
    ((caches s b n x /\ fl = b_flags x) \/ (uncached s n /\ is_free x = true /\ fl = 2)).
Proof.
  intros Hok Hn Hh Hav.
  destruct (bget_ok s n Hok Hn Hh Hav) as (b & x & fl & Hb & Hx & Hg & Hcase).
  unfold bread. bstep Hg.
  erewrite bind_ok by (apply getb_ok, (lookup_setb _ _ x), Hx).
  destruct Hcase as [[Hc ->]|(Hu & Hfr & ->)].
  - rewrite (content_cached s Hok _ _ _ Hc).
    replace (Z.land (b_flags (taken _ _ _ _)) B_VALID =? 0) with false.
    + exists b, x, (b_flags x). split_and!; auto.
    + pose proof Hc as (_ & _ & Hd & _).
      destruct (ok_buf s Hok b x Hb Hx) as (_ & _ & [(? & _)|(_ & _ & _ & [E|[E _]])]);
        [congruence|cbn; by rewrite E..].
  - cbn [taken b_flags]. change (Z.land 0 B_VALID =? 0) with true. unfold when.
    exists b, x, 2. split_and!; auto.
    erewrite bind_ok.
    2: { eapply iderw_read; [by apply (lookup_setb _ _ x)|done|done|done|done|].
         by apply disk_lookup. }
    rewrite insert_twice, (content_uncached s Hok n Hu). done.
Qed.

(** ** Replacing a buffer *)
Definition put_buf (s : bio) (b : nat) (x' : buf) : bio :=
  { s with bufs := <[b := x']> (bufs s) }.

Section Put.
Context (s : bio) (b : nat) (x x' : buf).
Context (Hok : bio_ok s) (Hb : (b < NBUF)%nat) (Hx : bufs s !! b = Some x).
Context (Hnext : b_next x' = b_next x) (Hprev : b_prev x' = b_prev x).
Context (Hbuf : buf_ok s x') (Hdev : b_dev x' = 1).
Context (Hnew : (b_dev x = 1 /\ b_blockno x = b_blockno x') \/ uncached s (b_blockno x')).

Lemma caches_put i m y :
  caches (put_buf s b x') i m y <-> (i = b /\ y = x' /\ m = b_blockno x') \/ (i <> b /\ caches s i m y).
Proof.
  unfold caches, put_buf. destruct (decide (i = b)) as [->|Hne].
  - rewrite (lookup_setb s b x) by done. split.
    + intros (_ & [= <-] & _ & <-). auto.
    + intros [(_ & -> & ->)|[? _]]; done.
  - rewrite lookup_setb_ne by done. split; [auto|]. intros [(? & _)|[_ ?]]; done.
Qed.

Lemma put_ok : bio_ok (put_buf s b x').
Proof.
  destruct Hok as [Hl (o & Hp & Hs) Hd Hsz Hbs Hu]. split; try done.
  - unfold put_buf. cbn. by rewrite length_insert.
  - exists o. split; [done|].
    eapply same_links_seg; [|exact Hs]. by apply (same_links_insert _ _ x).
  - intros i y Hi Hy. unfold put_buf in Hy. destruct (decide (i = b)) as [->|Hne].
    + rewrite (lookup_setb s b x) in Hy by done. by injection Hy as <-.
    + rewrite lookup_setb_ne in Hy by done. exact (Hbs i y Hi Hy).
  - assert (forall j y, j <> b -> ~ caches s j (b_blockno x') y) as Hno.
    { intros j y Hj Hc. destruct Hnew as [[E1 E2]|Hun]; [|by apply (Hun j y)].
      apply Hj. apply (Hu j b (b_blockno x') y x Hc). done. }
    intros i j m y z [(-> & -> & ->)|[Hi Hci]]%caches_put
      [(-> & -> & ?)|[Hj Hcj]]%caches_put; [done| | |].
    + by destruct (Hno j z).
    + subst m. by destruct (Hno i y).
    + by apply (Hu i j m y z).
Qed.

(** The contents after the replacement: that of the new buffer for its block,
    the disk for the block that was evicted. *)
Lemma put_content m :
  content (put_buf s b x') m = if decide (m = b_blockno x') then b_data x'
                  else if decide (b_dev x = 1 /\ b_blockno x = m) then disk s !!! Z.to_nat m
                  else content s m.
Proof.
  pose proof put_ok as Hok'. destruct (decide (m = b_blockno x')) as [->|Hm].
  { apply (content_cached (put_buf s b x') Hok' b). apply caches_put. auto. }
  destruct (decide (b_dev x = 1 /\ b_blockno x = m)) as [[E1 E2]|Hne].
  - rewrite (content_uncached (put_buf s b x') Hok'); [done|].
    intros i y [(_ & _ & ?)|[Hi Hc]]%caches_put; [done|]. apply Hi.
    apply (ok_unique s Hok i b m y x Hc). done.
  - destruct (find_buf (is_block 1 m) (bufs s) (seq 0 NBUF)) as [i|] eqn:E;
      pose proof (find_block s Hok (seq 0 NBUF) m ltac:(done)) as H; rewrite E in H.
    + destruct H as [y Hc]. rewrite (content_cached s Hok i m y Hc).
      apply (content_cached (put_buf s b x') Hok' i). apply caches_put. right. split; [|done].
      intros ->. apply Hne. destruct Hc as (_ & Hy & ? & ?). by simplify_eq.
    + rewrite (content_uncached s Hok m H), (content_uncached (put_buf s b x') Hok'); [done|].
      intros i y [(_ & _ & ?)|[_ Hc]]%caches_put; [done|]. by apply (H i y).
Qed.
End Put.

(** What most operations leave alone: the contents of the blocks, which blocks
    are dirty, and the disk. *)
Definition same_view (s s' : bio) : Prop :=
  (forall m, 0 <= m < disksize s -> content s' m = content s m)
  /\ (forall m, dirty s' m <-> dirty s m) /\ disk s' = disk s /\ hist s' = hist s.

Lemma same_view_refl s : same_view s s.
Proof. by split_and!. Qed.
Lemma same_view_trans s1 s2 s3 : same_view s1 s2 -> same_view s2 s3 -> same_view s1 s3.
Proof.
  intros (C1 & D1 & E1 & F1) (C2 & D2 & E2 & F2). split_and!; try congruence.
  - intros m Hm. rewrite C2, C1; [done|done|]. unfold disksize. by rewrite E1.
  - intros m. by rewrite D2, D1.
Qed.

(** A clean buffer can be evicted: the disk has its data. *)
Lemma clean_content s b x :
  bio_ok s -> (b < NBUF)%nat -> bufs s !! b = Some x -> is_free x = true -> b_dev x = 1 ->
  content s (b_blockno x) = disk s !!! Z.to_nat (b_blockno x) /\ ~ dirty s (b_blockno x).
Proof.
  intros Hok Hb Hx [Hr Hf]%andb_prop Hd. rewrite Z.eqb_eq in Hr, Hf.
  assert (caches s b (b_blockno x) x) as Hc by done.
  destruct (ok_buf s Hok b x Hb Hx) as (_ & _ & [(? & _)|(_ & Hn & _ & Hfl)]); [congruence|].
  destruct Hfl as [E|[E Hdisk]]; [rewrite E in Hf; done|]. split.
  - rewrite (content_cached s Hok _ _ _ Hc). symmetry. by apply list_lookup_total_correct.
  - intros (i & y & Hy & Hy6). pose proof (ok_unique s Hok _ _ _ _ _ Hc Hy) as <-.
    destruct Hy as (_ & Hy & _). simplify_eq. congruence.
Qed.

(** ** Specifications *)
Lemma bread_spec s n :
  bio_ok s -> 0 <= n < disksize s -> (forall i, ~ held s i n) ->
  (exists i x, caches s i n x) \/ (exists i, evictable s i) ->
  exists b s', bread 1 n s = Ok b s' /\ bio_ok s' /\ same_view s s'
    /\ (forall m, ~ held s b m)
    /\ (forall i m, held s' i m <-> (i = b /\ m = n) \/ held s i m).
Proof.
  intros Hok Hn Hh Hav.
  destruct (bread_ok s n Hok Hn Hh Hav) as (b & x & fl & Hb & Hx & Hr & Hcase).
  set (x' := taken x n fl (content s n)) in *.
  assert (forall m, ~ held s b m) as Hfree.
  { intros m (y & (_ & Hy & Hyd & Hyn) & Hyl). rewrite Hx in Hy. injection Hy as <-.
    destruct Hcase as [[(_ & _ & _ & E) _]|(_ & Hfr & _)].
    - apply (Hh b). exists x. done.
    - apply andb_prop in Hfr as [E%Z.eqb_eq _].
      destruct (ok_buf s Hok b x Hb Hx) as (E' & _). lia. }
  assert (buf_ok s x') as Hbo.
  { split; [done|]. split; [by right|]. right. split; [done|]. split; [done|].
    split; [by apply content_length|].
    destruct Hcase as [[Hc ->]|(Hu & _ & ->)].
    - pose proof Hc as (_ & _ & Hd & E).
      destruct (ok_buf s Hok b x Hb Hx) as (_ & _ & [(? & _)|(_ & _ & _ & Hf)]); [congruence|].
      cbn. by rewrite (content_cached s Hok _ _ _ Hc), <- E.
    - right. split; [done|]. cbn. rewrite (content_uncached s Hok n Hu). by apply disk_lookup. }
  assert ((b_dev x = 1 /\ b_blockno x = b_blockno x') \/ uncached s (b_blockno x')) as Hnew.
  { destruct Hcase as [[(_ & _ & ? & ?) _]|(Hu & _)]; auto. }
  pose proof (caches_put s b x x' Hb Hx eq_refl) as Hcp.
  exists b, (put_buf s b x'). split_and!; [exact Hr|by apply (put_ok s b x x')| |done|].
  - split_and!; [..|done|done].
    + intros m Hm. rewrite (put_content s b x x') by done. cbn.
      destruct (decide (m = n)) as [->|Hmn]; [done|].
      destruct (decide (b_dev x = 1 /\ b_blockno x = m)) as [[Hd E]|]; [|done].
      destruct Hcase as [[(_ & _ & _ & ?) _]|(_ & Hfr & _)]; [congruence|].
      subst m. symmetry. by apply (clean_content s b x).
    + intros m. split.
      * intros (i & y & [(-> & -> & ->)|[Hi Hc]]%Hcp & Hf); [|by exists i, y].
        destruct Hcase as [[Hc ->]|(_ & _ & ->)]; [|done]. by exists b, x.
      * intros (i & y & Hc & Hf). destruct (decide (i = b)) as [->|Hi].
        -- pose proof Hc as (_ & Hy & Hd & E). rewrite Hx in Hy. injection Hy as <-.
           destruct Hcase as [[(_ & _ & _ & E') ->]|(_ & Hfr & _)].
           ++ exists b, x'. split; [apply Hcp; left|done]. split_and!; auto. cbn. congruence.
           ++ destruct (clean_content s b x) as [_ []]; auto. rewrite E. by exists b, x.
        -- exists i, y. split; [apply Hcp; by right|done].
  - intros i m. split.
    + intros (y & [(-> & -> & ->)|[Hi Hc]]%Hcp & Hl); [by left|right; by exists y].
    + intros [[-> ->]|(y & Hc & Hl)].
      * exists x'. split; [apply Hcp; by left|done].
      * exists y. split; [|done]. apply Hcp. right. split; [|done].
        intros ->. apply (Hfree m). by exists y.
Qed.

(** A held buffer has the contents of its block. *)
Lemma bdata_spec s b n : bio_ok s -> held s b n -> bdata b s = Ok (content s n) s.
Proof.
  intros Hok (x & Hc & _). unfold bdata. rewrite (content_cached s Hok _ _ _ Hc).
  destruct Hc as (_ & Hx & _). bstep Hx. done.
Qed.

Lemma held_range s b n : bio_ok s -> held s b n -> 0 <= n < disksize s.
Proof.
  intros Hok (x & (Hb & Hx & Hd & <-) & _).
  destruct (ok_buf s Hok b x Hb Hx) as (_ & _ & [(? & _)|(_ & ? & _)]); [congruence|done].
Qed.

(** ** Releasing a buffer *)

(** New pointers do not matter, as long as they link all the buffers. *)
Section Relink.
Context (s : bio) (bs' : list buf) (order : list nat).
Context (Hok : bio_ok s) (Hbody : body <$> bs' = body <$> bufs s).
Context (Hperm : Permutation order (seq 0 NBUF)) (Hseg : seg (nx bs') (pv bs') head order head).

Lemma relink_lookup (bs1 bs2 : list buf) i x :
  body <$> bs1 = body <$> bs2 -> bs1 !! i = Some x -> exists y, bs2 !! i = Some y /\ body y = body x.
Proof.
  intros Hb Hx. assert ((body <$> bs2) !! i = Some (body x)) as H
    by (rewrite <- Hb, list_lookup_fmap, Hx; done).
  rewrite list_lookup_fmap in H. apply fmap_Some in H as (y & ? & ?). by exists y.
Qed.

Lemma relink_caches (bs1 bs2 : list buf) (s1 s2 : bio) i m x :
  body <$> bs1 = body <$> bs2 -> bufs s1 = bs1 -> bufs s2 = bs2 ->
  caches s1 i m x -> exists y, caches s2 i m y /\ body y = body x.
Proof.
  intros Hb <- <- (Hi & Hx & Hd & Hn).
  destruct (relink_lookup _ _ _ _ Hb Hx) as (y & Hy & E). exists y. unfold body in E.
  injection E as ? ? ? ? ? ?. split; [split_and!; congruence|]. unfold body. congruence.
Qed.

Definition relinked_bio : bio := { s with bufs := bs' }.

Lemma relink_ok : bio_ok relinked_bio.
Proof.
  destruct Hok as [Hl _ Hd Hsz Hbs Hu]. split; try done.
  - cbn. by rewrite <- (length_fmap body), Hbody, length_fmap.
  - by exists order.
  - intros i x Hi Hx. destruct (relink_lookup _ _ _ _ Hbody Hx) as (y & Hy & E).
    specialize (Hbs i y Hi Hy). unfold body in E. injection E as E1 E2 E3 E4 E5 E6.
    unfold buf_ok in *. by rewrite <- E1, <- E2, <- E3, <- E4, <- E5, <- E6.
  - intros i j n x y Hx Hy.
    destruct (relink_caches _ _ relinked_bio s _ _ _ Hbody eq_refl eq_refl Hx) as (x' & Hx' & _).
    destruct (relink_caches _ _ relinked_bio s _ _ _ Hbody eq_refl eq_refl Hy) as (y' & Hy' & _).
    by apply (Hu i j n x' y').
Qed.

Lemma relink_iff i m (P : buf -> Prop) :
  (forall x y, body x = body y -> P x -> P y) ->
  (exists x, caches relinked_bio i m x /\ P x) <-> (exists x, caches s i m x /\ P x).
Proof.
  intros HP. split; intros (x & Hx & Px).
  - destruct (relink_caches _ _ relinked_bio s _ _ _ Hbody eq_refl eq_refl Hx) as (y & Hy & E).
    exists y. split; [done|]. by apply (HP x).
  - destruct (relink_caches _ _ s relinked_bio _ _ _ (eq_sym Hbody) eq_refl eq_refl Hx)
      as (y & Hy & E). exists y. split; [done|]. by apply (HP x).
Qed.

Lemma relink_view : same_view s relinked_bio /\ (forall i m, held relinked_bio i m <-> held s i m).
Proof.
  split; [split_and!; [..|done|done]|].
  - intros m Hm. pose proof (find_block s Hok (seq 0 NBUF) m ltac:(done)) as H.
    destruct (find_buf _ _ _) as [i|].
    + destruct H as [x Hx]. rewrite (content_cached s Hok _ _ _ Hx).
      destruct (relink_caches _ _ s relinked_bio _ _ _ (eq_sym Hbody) eq_refl eq_refl Hx)
        as (y & Hy & E).
      rewrite (content_cached _ relink_ok _ _ _ Hy). unfold body in E. congruence.
    + rewrite (content_uncached s Hok m H), (content_uncached _ relink_ok); [done|].
      intros i x Hx.
      destruct (relink_caches _ _ relinked_bio s _ _ _ Hbody eq_refl eq_refl Hx) as (y & Hy & _).
      by apply (H i y).
  - intros m. unfold dirty. apply exist_proper. intros i. apply relink_iff.
    unfold body. congruence.
  - intros i m. apply relink_iff. unfold body. congruence.
Qed.
End Relink.

Lemma unlink_ok s l1 b l2 x (k : M bio unit) :
  bufs s !! b = Some x -> length (bufs s) = S NBUF -> Permutation (l1 ++ b :: l2) (seq 0 NBUF) ->
  seg (nx (bufs s)) (pv (bufs s)) head (l1 ++ b :: l2) head ->
  exists bs',
    (setb (b_next x) (fun y => { y with b_prev := b_prev x });;
     x ← getb b;
     setb (b_prev x) (fun y => { y with b_next := b_next x });; k) s
    = k { s with bufs := bs' }
    /\ body <$> bs' = body <$> bufs s /\ seg (nx bs') (pv bs') head (l1 ++ l2) head.
Proof.
  intros Hx Hlen Hp Hs.
  assert (forall i, i = head \/ i ∈ l1 ++ b :: l2 -> i < length (bufs s))%nat as Hv.
  { rewrite Hlen. intros i [->|Hi]; [unfold head; lia|].
    rewrite Hp in Hi. apply elem_of_seq in Hi. lia. }
  assert (NoDup (head :: l1 ++ b :: l2)) as Hnd.
  { apply list.NoDup_cons. rewrite Hp. split; [|apply NoDup_seq].
    rewrite elem_of_seq. unfold head. lia. }
  pose proof Hs as [H1 H2]%seg_app.
  apply seg_last in H1 as (p & Ep & _ & Hl1). apply seg_first in H2 as (n & En & _ & Hl2).
  assert (p = head \/ p ∈ l1 ++ b :: l2) as Hpin
    by (destruct Hl1 as [[_ ->]|(? & -> & _)]; set_solver).
  assert (n = head \/ n ∈ l1 ++ b :: l2) as Hnin
    by (destruct Hl2 as [[_ ->]|(? & -> & _)]; set_solver).
  assert (n <> b) as Hnb.
  { intros ->. apply list.NoDup_cons in Hnd as [Hh Hnd].
    apply list.NoDup_app in Hnd as (_ & _ & Hnd). apply list.NoDup_cons in Hnd as [Hb2 _].
    destruct Hl2 as [[_ ->]|(? & -> & _)]; set_solver. }
  pose proof (relinked_refl (bufs s)) as R0.
  assert (b_next x = n /\ b_prev x = p) as [Exn Exp].
  { unfold nx in En. unfold pv in Ep. rewrite Hx in En, Ep. naive_solver. }
  rewrite Exn, Exp. erewrite bind_ok by (apply setb_alter, Hv, Hnin).
  pose proof (relinked_set_prev _ _ _ _ n p (Hv _ Hnin) R0) as R1.
  erewrite bind_ok.
  2: { apply getb_ok. cbn. rewrite list_lookup_alter_ne by done. exact Hx. }
  rewrite Exn, Exp.
  erewrite bind_ok by (apply setb_alter; cbn; rewrite length_alter; apply Hv, Hpin).
  destruct (relinked_set_next _ _ _ _ p n (Hv _ Hpin) R1) as (Hbd & Hnx & Hpv).
  eexists. split; [reflexivity|]. split; [exact Hbd|].
  eapply seg_ext; [intros; apply Hnx|intros; apply Hpv|]. by eapply seg_unlink.
Qed.

(** The buffer after [brelse]. *)
Definition dropped (x : buf) : buf := { x with b_lock := 0; b_refcnt := 0 }.

Lemma drop_view s b n x :
  bio_ok s -> caches s b n x -> b_lock x = 1 ->
  bio_ok (put_buf s b (dropped x)) /\ same_view s (put_buf s b (dropped x))
  /\ (forall i m, held (put_buf s b (dropped x)) i m <-> held s i m /\ i <> b).
Proof.
  intros Hok Hc Hl. pose proof Hc as (Hb & Hx & Hd & Hn).
  destruct (ok_buf s Hok b x Hb Hx) as (_ & _ & Hcase).
  assert (buf_ok s (dropped x)) as Hbo.
  { split; [done|]. split; [by left|]. destruct Hcase as [?|?]; [naive_solver|by right]. }
  assert (b_dev x = 1 /\ b_blockno x = b_blockno (dropped x)) as Hsame by done.
  pose proof (caches_put s b x (dropped x) Hb Hx Hd) as Hcp.
  split; [by apply (put_ok s b x); auto|]. split; [split_and!; [..|done|done]|].
  - intros m Hm. rewrite (put_content s b x) by auto. cbn.
    destruct (decide (m = b_blockno x)) as [->|Hm'].
    + symmetry. by apply (content_cached s Hok b).
    + by rewrite decide_False by naive_solver.
  - intros m. split; intros (i & y & Hy & Hf).
    + apply Hcp in Hy as [(-> & -> & ->)|[_ Hy]]; [|by exists i, y]. by exists b, x.
    + destruct (decide (i = b)) as [->|Hi]; [|exists i, y; split; [apply Hcp; auto|done]].
      exists b, (dropped x). destruct Hy as (_ & Hy & _ & <-). rewrite Hx in Hy.
      injection Hy as <-. split; [apply Hcp; auto|done].
  - intros i m. split.
    + intros (y & [(-> & -> & ->)|[Hi Hy]]%Hcp & Hf); [done|]. split; [by exists y|done].
    + intros [(y & Hy & Hf) Hi]. exists y. split; [apply Hcp; auto|done].
Qed.

Lemma brelse_spec s b n :
  bio_ok s -> held s b n ->
  exists s', brelse b s = Ok tt s' /\ bio_ok s' /\ same_view s s'
    /\ (forall i m, held s' i m <-> held s i m /\ i <> b).
Proof.
  intros Hok (x & Hc & Hl). pose proof Hc as (Hb & Hx & Hd & Hn).
  destruct (drop_view s b n x Hok Hc Hl) as (Hok1 & Hv1 & Hh1).
  destruct (ok_buf s Hok b x Hb Hx) as (Hr & _). rewrite Hl in Hr.
  destruct (ok_lru _ Hok1) as (o & Hp & Hs).
  assert (b ∈ o) as Hbo. { rewrite Hp. apply elem_of_seq. lia. }
  apply list_elem_of_split in Hbo as (l1 & l2 & ->).
  unfold brelse, b_holdingsleep. erewrite bind_ok by (bstep Hx; reflexivity).
  rewrite Hl. cbn [ctrue Z.eqb negb]. unfold b_releasesleep. bstep Hx.
  erewrite bind_ok by (apply setb_ok, (lookup_setb _ _ x), Hx). rewrite insert_twice.
  change (b_refcnt { x with b_lock := 0 }) with (b_refcnt x). rewrite Hr.
  change { s with bufs := _ } with (put_buf s b (dropped x)).
  assert (bufs (put_buf s b (dropped x)) !! b = Some (dropped x)) as Hx1
    by (apply (lookup_setb _ _ x), Hx).
  bstep Hx1. change (b_refcnt (dropped x) =? 0) with true. cbv match.
  destruct (unlink_ok _ _ _ _ _ (push_front b) Hx1 (ok_len _ Hok1) Hp Hs)
    as (bs1 & -> & Hbd1 & Hs1).
  assert (length bs1 = S NBUF) as Hlen1.
  { rewrite <- (length_fmap body), Hbd1, length_fmap. apply (ok_len _ Hok1). }
  assert (Permutation (b :: l1 ++ l2) (seq 0 NBUF)) as Hp' by (by rewrite Permutation_middle).
  assert ((b ∉ head :: l1 ++ l2) /\ NoDup (head :: l1 ++ l2)) as [Hb' Hnd].
  { pose proof (order_head _ Hp') as Hnd. rewrite !list.NoDup_cons in Hnd.
    rewrite list.NoDup_cons. set_solver. }
  match goal with |- context [push_front b ?st] =>
    destruct (push_front_ok st (l1 ++ l2) b Hb' Hnd) as (bs2 & -> & Hbd2 & Hs2) end.
  { cbn. rewrite Hlen1. lia. }
  { exact Hlen1. }
  { intros i Hi. cbn. rewrite Hlen1. enough (i ∈ seq 0 NBUF) as ?%elem_of_seq by lia.
    rewrite <- Hp'. by right. }
  { exact Hs1. }
  cbn in Hbd2. rewrite Hbd1 in Hbd2.
  destruct (relink_view _ _ _ Hok1 Hbd2 Hp' Hs2) as [Hv2 Hh2].
  eexists. split; [reflexivity|]. split; [exact (relink_ok _ _ _ Hok1 Hbd2 Hp' Hs2)|].
  split; [exact (same_view_trans _ _ _ Hv1 Hv2)|].
  intros i m. rewrite <- Hh1. exact (Hh2 i m).
Qed.

(** ** Changing a held buffer *)
Lemma iderw_write s b x :
  bufs s !! b = Some x -> b_lock x = 1 -> b_flags x = 6 -> b_dev x = 1 ->
  0 <= b_blockno x < disksize s ->
  iderw b s = Ok tt { s with bufs := <[b := { x with b_flags := 2 }]> (bufs s);
                             disk := <[Z.to_nat (b_blockno x) := b_data x]> (disk s);
                             hist := hist s ++ [(b_blockno x, b_data x)] }.
Proof.
  intros Hx Hl Hf Hd Hn. unfold iderw, b_holdingsleep.
  erewrite bind_ok by (bstep Hx; reflexivity). bstep Hx. rewrite Hl, Hf, Hd.
  change (Z.land 6 (Z.lor B_VALID B_DIRTY) =? B_VALID) with false.
  change (ctrue (Z.land 6 B_DIRTY)) with true. cbn [ctrue Z.eqb Pos.eqb negb].
  erewrite bind_ok by reflexivity. rewrite (proj2 (Z.leb_gt _ _)) by lia.
  erewrite bind_ok by (bstep Hx; reflexivity).
  erewrite setb_ok by (apply (lookup_setb _ _ x), Hx). do 2 f_equal. cbn.
  rewrite list_insert_insert_eq, Hf. done.
Qed.

(** The view after block [n] was given the contents [d]. *)
Definition stored (s s' : bio) (n : Z) (d : list Z) : Prop :=
  (forall m, 0 <= m < disksize s -> content s' m = if decide (m = n) then d else content s m)
  /\ (forall i m, held s' i m <-> held s i m) /\ disksize s' = disksize s.

Section Store.
Context (s : bio) (b : nat) (n : Z) (x : buf) (d : list Z).
Context (Hok : bio_ok s) (Hc : caches s b n x) (Hd : length d = BSIZE).

(** The buffer with data [d], marked dirty. *)
Definition pinned : buf := { x with b_data := d; b_flags := 6 }.

Lemma pinned_ok : buf_ok s pinned.
Proof.
  destruct Hc as (Hb & Hx & Hdev & Hn).
  destruct (ok_buf s Hok b x Hb Hx) as (Hr & Hlk & [(? & _)|(_ & Hrange & _ & _)]); [congruence|].
  split; [done|]. split; [done|]. right. cbn.
  split_and!; auto; apply Hrange.
Qed.

Lemma pin_ok :
  bio_ok (put_buf s b pinned) /\ stored s (put_buf s b pinned) n d
  /\ (forall m, dirty (put_buf s b pinned) m <-> dirty s m \/ m = n).
Proof.
  pose proof Hc as (Hb & Hx & Hdev & Hn). pose proof pinned_ok as Hbo.
  pose proof (caches_put s b x pinned Hb Hx Hdev) as Hcp.
  split; [by apply (put_ok s b x); auto|]. split; [split_and!; [..|done]|].
  - intros m Hm. rewrite (put_content s b x) by auto. cbn. rewrite Hn.
    destruct (decide (m = n)) as [->|Hmn]; [done|].
    by rewrite decide_False by naive_solver.
  - intros i m. split; intros (y & Hy & Hyl).
    + apply Hcp in Hy as [(-> & -> & ->)|[_ Hy]]; [by exists x|by exists y].
    + destruct (decide (i = b)) as [->|Hi]; [|exists y; split; [apply Hcp; auto|done]].
      exists pinned. destruct Hy as (_ & Hy & _ & <-). rewrite Hx in Hy. injection Hy as <-.
      split; [apply Hcp; auto|done].
  - intros m. split.
    + intros (i & y & [(-> & -> & ->)|[_ Hy]]%Hcp & Hf); [by right|left; by exists i, y].
    + intros [(i & y & Hy & Hf)| ->].
      * destruct (decide (i = b)) as [->|Hi]; [|exists i, y; split; [apply Hcp; auto|done]].
        exists b, pinned. destruct Hy as (_ & Hy & _ & <-). rewrite Hx in Hy. injection Hy as <-.
        split; [apply Hcp; auto|done].
      * exists b, pinned. split; [apply Hcp; auto|done].
Qed.
End Store.

(** Writing a dirty buffer back makes it clean. *)
Definition cleaned (x : buf) : buf := { x with b_flags := 2 }.
Definition flushed (s : bio) (b : nat) (x : buf) : bio :=
  { s with bufs := <[b := cleaned x]> (bufs s);
           disk := <[Z.to_nat (b_blockno x) := b_data x]> (disk s);
           hist := hist s ++ [(b_blockno x, b_data x)] }.

Section Flush.
Context (s : bio) (b : nat) (n : Z) (x : buf).
Context (Hok : bio_ok s) (Hc : caches s b n x).

Lemma flush_caches i m y :
  caches (flushed s b x) i m y <->
  (i = b /\ y = cleaned x /\ m = n) \/ (i <> b /\ caches s i m y).
Proof.
  destruct Hc as (Hb & Hx & Hdev & Hn). rewrite <- Hn.
  exact (caches_put s b x (cleaned x) Hb Hx Hdev i m y).
Qed.

Lemma flush_other i m y : i <> b -> caches s i m y -> m <> n.
Proof. intros Hi Hy ->. apply Hi. exact (ok_unique s Hok _ _ _ _ _ Hy Hc). Qed.

Lemma flush_disksize : disksize (flushed s b x) = disksize s.
Proof. unfold disksize. cbn. by rewrite length_insert. Qed.

Lemma flush_buf_ok i y : (i < NBUF)%nat -> bufs (flushed s b x) !! i = Some y -> buf_ok (flushed s b x) y.
Proof.
  destruct Hc as (Hb & Hx & Hdev & Hn). intros Hi Hy. unfold buf_ok. rewrite flush_disksize.
  destruct (ok_buf s Hok b x Hb Hx) as (Hr & Hlk & [(? & _)|(_ & Hrange & Hlen & _)]); [congruence|].
  destruct (decide (i = b)) as [->|Hne]; cbn in Hy.
  - rewrite list_lookup_insert_eq in Hy by (by eapply lookup_lt_Some). injection Hy as <-. cbn.
    split_and!; auto. right. split_and!; auto; try lia. right. split; [done|].
    unfold disksize in Hrange. rewrite list_lookup_insert_eq by lia. done.
  - rewrite list_lookup_insert_ne in Hy by done.
    destruct (ok_buf s Hok i y Hi Hy) as (? & ? & Hcase). split_and!; auto.
    destruct Hcase as [?|(? & ? & ? & Hfl)]; [by left|right]. split_and!; auto; try lia.
    destruct Hfl as [?|[? Hdisk]]; [by left|right]. split; [done|]. cbn.
    rewrite list_lookup_insert_ne; [done|].
    assert (b_blockno y <> n) by (by apply (flush_other i _ y)). lia.
Qed.

Lemma flush_ok : bio_ok (flushed s b x).
Proof.
  destruct Hc as (Hb & Hx & Hdev & Hn). split.
  - cbn. rewrite length_insert. apply (ok_len s Hok).
  - destruct (ok_lru s Hok) as (o & Hp & Hs). exists o. split; [done|].
    eapply same_links_seg; [|exact Hs]. by apply (same_links_insert _ _ x).
  - cbn. apply Forall_insert; [apply (ok_disk s Hok)|].
    destruct (ok_buf s Hok b x Hb Hx) as (_ & _ & [(? & _)|(_ & _ & ? & _)]); [congruence|done].
  - rewrite flush_disksize. apply (ok_size s Hok).
  - exact flush_buf_ok.
  - intros i j m y z [(-> & -> & ->)|[Hi Hy]]%flush_caches [(-> & -> & ?)|[Hj Hz]]%flush_caches;
      [done|..].
    + by destruct (flush_other j n z).
    + subst m. by destruct (flush_other i n y).
    + by apply (ok_unique s Hok i j m y z).
Qed.

Lemma flush_stored : stored s (flushed s b x) n (b_data x).
Proof.
  pose proof Hc as (Hb & Hx & Hdev & Hn). split_and!; [..|apply flush_disksize].
  - intros m Hm. destruct (decide (m = n)) as [->|Hmn].
    { rewrite (content_cached _ flush_ok b n (cleaned x)); [done|].
      apply flush_caches. auto. }
    pose proof (find_block s Hok (seq 0 NBUF) m ltac:(done)) as H. destruct (find_buf _ _ _) as [i|].
    + destruct H as [y Hy]. rewrite (content_cached s Hok i m y Hy).
      apply (content_cached _ flush_ok i). apply flush_caches. right. split; [|done].
      intros ->. destruct Hy as (_ & Hy & _ & <-). congruence.
    + rewrite (content_uncached s Hok m H), (content_uncached _ flush_ok m).
      * cbn. rewrite list_lookup_total_insert_ne; [done|].
        assert (0 <= n) by (rewrite <- Hn; destruct (ok_buf s Hok b x Hb Hx)
          as (_ & _ & [(? & _)|(_ & ? & _)]); [congruence|lia]). lia.
      * intros i y [(_ & _ & ?)|[_ Hy]]%flush_caches; [done|]. by apply (H i y).
  - intros i m. split.
    + intros (y & [(-> & -> & ->)|[_ Hy]]%flush_caches & Hl); [by exists x|by exists y].
    + intros (y & Hy & Hl). destruct (decide (i = b)) as [->|Hi].
      * exists (cleaned x). destruct Hy as (_ & Hy & _ & E). rewrite Hx in Hy.
        injection Hy as <-. split; [apply flush_caches; left; by rewrite <- E, <- Hn|done].
      * exists y. split; [apply flush_caches; auto|done].
Qed.

Lemma flush_dirty m : dirty (flushed s b x) m <-> dirty s m /\ m <> n.
Proof.
  split.
  - intros (i & y & [(_ & -> & _)|[Hi Hy]]%flush_caches & H6); [done|].
    split; [by exists i, y|by apply (flush_other i _ y)].
  - intros [(i & y & Hy & H6) Hmn]. exists i, y. split; [|done]. apply flush_caches.
    right. split; [|done]. intros ->. destruct Hy as (_ & Hy & _ & E).
    destruct Hc as (_ & Hx & _ & Hn). congruence.
Qed.
End Flush.

(** Storing data in a held buffer and writing it to the disk. *)
Lemma bwrite_spec s b n d :
  bio_ok s -> held s b n -> length d = BSIZE ->
  exists s', (bset b d;; bwrite b) s = Ok tt s' /\ bio_ok s' /\ stored s s' n d
    /\ (forall m, dirty s' m <-> dirty s m /\ m <> n)
    /\ disk s' = <[Z.to_nat n := d]> (disk s) /\ hist s' = hist s ++ [(n, d)].
Proof.
  intros Hok (x & Hc & Hl) Hd. pose proof Hc as (Hb & Hx & Hdev & Hn).
  destruct (pin_ok s b n x d Hok Hc Hd) as (Hok1 & (C1 & H1 & D1) & F1).
  set (y := pinned x d) in *. set (s1 := put_buf s b y) in *.
  assert (bufs s1 !! b = Some y) as Hy by (by apply (lookup_setb _ _ x)).
  assert (caches s1 b n y) as Hc1 by done.
  pose proof (flush_ok s1 b n y Hok1 Hc1) as Hok2.
  destruct (flush_stored s1 b n y Hok1 Hc1) as (C2 & H2 & D2).
  pose proof (flush_dirty s1 b n y Hok1 Hc1) as F2.
  exists (flushed s1 b y). split.
  - unfold bset. bstep Hx. unfold bwrite, b_holdingsleep.
    erewrite bind_ok.
    2: { erewrite bind_ok by (apply getb_ok, (lookup_setb _ _ x), Hx). reflexivity. }
    change (ctrue (b_lock { x with b_data := d })) with (ctrue (b_lock x)). rewrite Hl.
    cbn [ctrue Z.eqb negb].
    erewrite bind_ok by (apply setb_ok, (lookup_setb _ _ x), Hx). rewrite insert_twice.
    replace { { x with b_data := d } with b_flags := _ } with y.
    + change { s with bufs := <[b := y]> (bufs s) } with s1.
      apply iderw_write; try done. change (disksize s1) with (disksize s). cbn. rewrite Hn.
      apply (held_range s b n Hok). by exists x.
    + unfold y, pinned. destruct (ok_buf s Hok b x Hb Hx) as (_ & _ & [(? & _)|(_ & _ & _ & [E|[E _]])]);
        [congruence|cbn; by rewrite E..].
  - split; [done|]. split; [|split_and!].
    + split_and!; [|intros; by rewrite H2, H1|by rewrite D2].
      intros m Hm. rewrite C2 by (by rewrite D1). destruct (decide (m = n)); [done|].
      by rewrite C1, decide_False.
    + intros m. rewrite F2, F1. naive_solver.
    + cbn. by rewrite Hn.
    + cbn. by rewrite Hn.
Qed.

(** Storing data in a held buffer and marking it dirty, as [log_write] does. *)
Lemma pin_spec s b n d :
  bio_ok s -> held s b n -> length d = BSIZE ->
  exists s', (bset b d;; setb b (fun x => { x with b_flags := Z.lor (b_flags x) B_DIRTY })) s
             = Ok tt s' /\ bio_ok s' /\ stored s s' n d
    /\ (forall m, dirty s' m <-> dirty s m \/ m = n)
    /\ disk s' = disk s /\ hist s' = hist s.
Proof.
  intros Hok (x & Hc & Hl) Hd. pose proof Hc as (Hb & Hx & Hdev & Hn).
  destruct (pin_ok s b n x d Hok Hc Hd) as (Hok1 & St1 & F1).
  exists (put_buf s b (pinned x d)). split; [|done].
  unfold bset. bstep Hx. erewrite setb_ok by (apply (lookup_setb _ _ x), Hx).
  rewrite insert_twice. unfold put_buf, pinned.
  destruct (ok_buf s Hok b x Hb Hx) as (_ & _ & [(? & _)|(_ & _ & _ & [E|[E _]])]);
    [congruence|cbn; by rewrite E..].
Qed.

(** ** When a buffer is available *)

(** If fewer than [NBUF] blocks are held or dirty, some buffer can be recycled. *)
Lemma evictable_exists s (X : list Z) :
  bio_ok s -> (forall i n, held s i n -> n ∈ X) -> (forall n, dirty s n -> n ∈ X) ->
  (length X < NBUF)%nat -> exists i, evictable s i.
Proof.
  intros Hok Hh Hd Hlen.
  destruct (find_buf is_free (bufs s) (seq 0 NBUF)) as [i|] eqn:E.
  - apply find_buf_Some in E as (x & Hi & Hx & Hf). apply elem_of_seq in Hi.
    exists i, x. split_and!; auto; lia.
  - exfalso.
    assert (forall i, (i < NBUF)%nat -> exists x, caches s i (b_blockno x) x /\ b_blockno x ∈ X) as Hall.
    { intros i Hi. destruct (buf_lookup s Hok i) as [x Hx]; [lia|]. exists x.
      destruct (ok_buf s Hok i x Hi Hx) as (Hr & Hl & Hcase).
      assert (is_free x = false) as Hnf.
      { eapply find_buf_None; [|exact E| |exact Hx]; [|apply elem_of_seq; lia].
        intros j Hj%elem_of_seq. apply buf_lookup; [done|lia]. }
      unfold is_free in Hnf. destruct Hcase as [(? & Ef & El)|(Hdev & _ & _ & Hfl)].
      { by rewrite Hr, El, Ef in Hnf. }
      assert (caches s i (b_blockno x) x) as Hc by done. split; [done|].
      destruct Hl as [E0|E1]; [|apply (Hh i); by exists x].
      destruct Hfl as [E6|[E2 _]]; [apply Hd; by exists i, x|].
      by rewrite Hr, E0, E2 in Hnf. }
    set (f := fun i => default 0 (b_blockno <$> (bufs s !! i))).
    assert (NoDup (f <$> seq 0 NBUF)) as Hnd.
    { apply NoDup_fmap_2_strong; [|apply NoDup_seq]. intros i j Hi Hj Ef.
      apply elem_of_seq in Hi, Hj. destruct (Hall i) as (x & Hx & _); [lia|].
      destruct (Hall j) as (y & Hy & _); [lia|]. unfold f in Ef.
      rewrite (proj1 (proj2 Hx)), (proj1 (proj2 Hy)) in Ef. cbn in Ef.
      apply (ok_unique s Hok i j (b_blockno x) x y Hx). by rewrite Ef. }
    assert (forall n, n ∈ f <$> seq 0 NBUF -> n ∈ X) as Hin.
    { intros n (i & -> & Hi)%list_elem_of_fmap. apply elem_of_seq in Hi.
      destruct (Hall i) as (x & Hx & HX); [lia|]. unfold f. by rewrite (proj1 (proj2 Hx)). }
    pose proof (submseteq_length _ _ (NoDup_submseteq _ _ Hnd Hin)) as H.
    rewrite length_fmap, length_seq in H. lia.
Qed.

(** The precondition of [bread]: [n] is dirty (so it is cached), or the held
    and dirty blocks [X] leave a buffer free. *)
Lemma bread_room s n (X : list Z) :
  bio_ok s -> 0 <= n < disksize s -> (forall i, ~ held s i n) ->
  (forall i n, held s i n -> n ∈ X) -> (forall n, dirty s n -> n ∈ X) ->
  dirty s n \/ (length X < NBUF)%nat ->
  exists b s', bread 1 n s = Ok b s' /\ bio_ok s' /\ same_view s s'
    /\ (forall m, ~ held s b m)
    /\ (forall i m, held s' i m <-> (i = b /\ m = n) \/ held s i m).
Proof.
  intros Hok Hn Hh HX1 HX2 Hroom. apply bread_spec; auto.
  destruct Hroom as [(i & x & Hx & _)|Hlen]; [left; by exists i, x|right].
  by apply (evictable_exists s X).
Qed.

(** ** Initialisation *)

(** The first [k] iterations of the loop of [binit]. *)
Lemma binit_loop s k :
  length (bufs s) = S NBUF -> (k <= NBUF)%nat -> Forall (fun x => b_lock x = 0) (bufs s) ->
  seg (nx (bufs s)) (pv (bufs s)) head [] head ->
  exists bs',
    for_each (seq 0 k) (fun b => setb b (fun x => { x with b_lock := 0 });; push_front b) s
    = Ok tt { s with bufs := bs' }
    /\ body <$> bs' = body <$> bufs s /\ seg (nx bs') (pv bs') head (reverse (seq 0 k)) head.
Proof.
  intros Hlen Hk Hlk Hs. induction k as [|k IH].
  { exists (bufs s). split_and!; [|done..]. by destruct s. }
  destruct IH as (bs & Hrun & Hbd & Hsg); [lia|].
  assert (length bs = S NBUF) as Hlen' by (rewrite <- (length_fmap body), Hbd, length_fmap; done).
  rewrite seq_S, reverse_snoc. erewrite for_each_app by exact Hrun. cbn [for_each Nat.add].
  destruct (lookup_lt_is_Some_2 bs k) as [x Hx]; [lia|].
  assert (b_lock x = 0) as Hx0.
  { destruct (relink_lookup _ _ _ _ Hbd Hx) as (y & Hy & E). unfold body in E.
    rewrite Forall_lookup in Hlk. specialize (Hlk _ _ Hy). cbn in Hlk. congruence. }
  assert ((k ∉ head :: reverse (seq 0 k)) /\ NoDup (head :: reverse (seq 0 k))) as [Hkn Hnd].
  { rewrite list.NoDup_cons, elem_of_cons, !reverse_Permutation, !elem_of_seq.
    unfold head. split_and!; [intros [|]; lia|lia|apply NoDup_seq]. }
  set (bs1 := <[k := { x with b_lock := 0 }]> bs).
  assert (body <$> bs1 = body <$> bs) as Hbd1.
  { unfold bs1. rewrite list_fmap_insert. apply list_insert_id.
    rewrite list_lookup_fmap, Hx. cbn. unfold body. cbn. by rewrite Hx0. }
  destruct (push_front_ok { s with bufs := bs1 } (reverse (seq 0 k)) k) as (bs2 & Hpf & Hbd2 & Hs2);
    try done.
  - unfold bs1. cbn. rewrite length_insert. lia.
  - unfold bs1. cbn. by rewrite length_insert.
  - intros i Hi. rewrite reverse_Permutation, elem_of_seq in Hi. unfold bs1. cbn.
    rewrite length_insert. lia.
  - eapply same_links_seg; [|exact Hsg]. by apply (same_links_insert _ _ x).
  - exists bs2. split_and!; [|by rewrite Hbd2; cbn; rewrite Hbd1|done].
    erewrite bind_ok; [reflexivity|]. erewrite bind_ok by (apply setb_ok; exact Hx).
    exact Hpf.
Qed.

(** A cache that has never been used: what [bcache] is at boot, and after
    [binit]. *)
Definition zero_buf : buf := mk_buf 0 0 0 0 0 0 0 (replicate BSIZE 0).
Definition boot_bio (d : list (list Z)) : bio := mk_bio (replicate (S NBUF) zero_buf) d [].

Lemma binit_ok d :
  Forall (fun b => length b = BSIZE) d -> Z.of_nat (length d) < 2 ^ 31 ->
  exists s, binit (boot_bio d) = Ok tt s /\ bio_ok s /\ disk s = d /\ hist s = []
    /\ (forall m, ~ dirty s m) /\ (forall i m, ~ held s i m).
Proof.
  intros Hd Hsz. unfold binit.
  set (z1 := { zero_buf with b_prev := head }). set (z2 := { z1 with b_next := head }).
  set (bs1 := <[head := z2]> (replicate (S NBUF) zero_buf)).
  assert (replicate (S NBUF) zero_buf !! head = Some zero_buf) as Hz by reflexivity.
  erewrite bind_ok by (apply setb_ok; exact Hz).
  erewrite bind_ok by (apply setb_ok, (lookup_setb _ _ zero_buf); exact Hz).
  rewrite insert_twice. change { boot_bio d with bufs := _ } with { boot_bio d with bufs := bs1 }.
  destruct (binit_loop { boot_bio d with bufs := bs1 } NBUF) as (bs' & Hrun & Hbd & Hsg).
  - reflexivity.
  - done.
  - apply (bool_decide_unpack _). vm_compute. exact I.
  - split; reflexivity.
  - assert (forall i x, bs' !! i = Some x -> body x = body zero_buf) as Hall.
    { intros i x Hx. destruct (relink_lookup _ _ _ _ Hbd Hx) as (y & Hy & <-).
      change (bs1 !! i = Some y) in Hy. apply list_lookup_insert_Some in Hy as [(_ & <- & _)|[_ Hy]]; [done|].
      by apply lookup_replicate in Hy as [-> _]. }
    assert (forall i m x, ~ caches { boot_bio d with bufs := bs' } i m x) as Hno.
    { intros i m x (_ & Hx & Hdev & _). specialize (Hall i x Hx). unfold body in Hall.
      injection Hall. intros. cbn in *. congruence. }
    exists { boot_bio d with bufs := bs' }. split; [exact Hrun|].
    split; [split|split; [reflexivity|split; [reflexivity|split]]].
    + change (length bs' = S NBUF).
      by rewrite <- (length_fmap body), Hbd, length_fmap.
    + exists (reverse (seq 0 NBUF)). split; [apply reverse_Permutation|exact Hsg].
    + exact Hd.
    + exact Hsz.
    + intros i x _ Hx. specialize (Hall i x Hx). unfold body in Hall. injection Hall as E1 E2 E3 E4 E5 E6.
      split; [congruence|]. split; [left; congruence|]. left. split_and!; congruence.
    + intros i j m x y Hx. by destruct (Hno i m x).
    + intros m (i & x & Hx & _). by apply (Hno i m x).
    + intros i m (x & Hx & _). by apply (Hno i m x).
Qed.
