(* ===== verification/Log.v ===== *)
(** * The log

    Models log.c: a transaction collects the blocks modified by file system
    calls, pins them in the buffer cache and writes them to the log when the
    last call ends; the log header written afterwards is the commit point, and
    recovery at boot copies a committed transaction to its home blocks.
    [readsb] and [struct superblock] of fs.c and fs.h are here because the log
    finds its place on the disk through them.

    As in Bio.v, the code between [acquire(&log.lock)] and its [release] is one
    step, and a [sleep] for another process has the outcome [Blocked]. *)

From S2P Require Import Prelude Bio.
Open Scope Z_scope.

Definition MAXOPBLOCKS : Z := 10.
Definition LOGSIZE : nat := 30.

(** fs.h: the super block *)
Record superblock := mk_superblock {
  sb_size : Z;              (* Size of file system image (blocks) *)
  sb_nblocks : Z;           (* Number of data blocks *)
  sb_ninodes : Z;           (* Number of inodes. *)
  sb_nlog : Z;              (* Number of log blocks *)
  sb_logstart : Z;          (* Block number of first log block *)
  sb_inodestart : Z;        (* Block number of first inode block *)
  sb_bmapstart : Z;         (* Block number of first free map block *)
}.

(** The struct at the start of a block. *)
Definition decode_sb (d : list Z) : superblock :=
  mk_superblock (get32 d 0) (get32 d 4) (get32 d 8) (get32 d 12)
    (get32 d 16) (get32 d 20) (get32 d 24).

Record log := mk_log {
  log_start : Z;
  log_size : Z;
  outstanding : Z;          (* how many FS sys calls are executing. *)
  committing : Z;           (* in commit(), please wait. *)
  log_dev : Z;
  lh_n : Z;                 (* lh.n *)
  lh_block : list Z;        (* lh.block *)
}.

(** The buffer cache with the log on top of it. *)
Record dsys := mk_dsys { dbio : bio; dlog : log }.

Definition on_bio {A} (m : M bio A) : M dsys A := zoom dbio (fun b s => { s with dbio := b }) m.
Definition getlog : M dsys log := gets dlog.
Definition setlog (f : log -> log) : M dsys unit := modify (fun s => { s with dlog ::= f }).

(** [log.lh.block[i]] *)
Definition lh_block_at (i : nat) : M dsys Z := l ← getlog; deref (lh_block l !! i).

Definition readsb (dev : Z) : M dsys superblock :=
  bp ← on_bio (bread dev 1);
  d ← on_bio (bdata bp);
  on_bio (brelse bp);;
  mret (decode_sb d).

(** Copy committed blocks from log to their home location: the body of the
    loop, and the loop *)
Definition install_block (tail : nat) : M dsys unit :=
  l ← getlog;
  lbuf ← on_bio (bread (log_dev l) (u32 (log_start l + Z.of_nat tail + 1)));
  blk ← lh_block_at tail;
  dbuf ← on_bio (bread (log_dev l) (u32 blk));
  d ← on_bio (bdata lbuf);
  on_bio (bset dbuf d;; bwrite dbuf);;
  on_bio (brelse lbuf);;
  on_bio (brelse dbuf).

Definition install_trans : M dsys unit :=
  l ← getlog;
  for_each (seq 0 (Z.to_nat (lh_n l))) install_block.

(** struct logheader at the start of a block: [n], then [block[i]]. *)
Definition hdr_n (d : list Z) : Z := s32 (get32 d 0).
Definition hdr_block (d : list Z) (i : nat) : Z := s32 (get32 d (4 + 4 * i)).

Definition read_head : M dsys unit :=
  l ← getlog;
  b ← on_bio (bread (log_dev l) (u32 (log_start l)));
  d ← on_bio (bdata b);
  setlog (fun l => { l with lh_n := hdr_n d });;
  for_each (seq 0 (Z.to_nat (hdr_n d))) (fun i =>
    _ ← lh_block_at i;
    setlog (fun l => { l with lh_block := <[i := hdr_block d i]> (lh_block l) }));;
  on_bio (brelse b).

(** The header block after the stores [hb->n = n] and [hb->block[i] = ...]. *)
Definition put_block (d : list Z) (i : nat) (blk : Z) : list Z := put32 d (4 + 4 * i) (u32 blk).
Fixpoint put_blocks (d : list Z) (i : nat) (blks : list Z) : list Z :=
  match blks with
  | [] => d
  | blk :: blks' => put_blocks (put_block d i blk) (S i) blks'
  end.
Definition put_hdr (d : list Z) (n : Z) (blks : list Z) : list Z :=
  put_blocks (put32 d 0 (u32 n)) 0 (take (Z.to_nat n) blks).

Definition write_head : M dsys unit :=
  l ← getlog;
  b ← on_bio (bread (log_dev l) (u32 (log_start l)));
  d ← on_bio (bdata b);
  on_bio (bset b (put_hdr d (lh_n l) (lh_block l));; bwrite b);;
  on_bio (brelse b).

Definition recover_from_log : M dsys unit :=
  read_head;;
  install_trans;;
  setlog (fun l => { l with lh_n := 0 });;
  write_head.

Definition initlog (dev : Z) : M dsys unit :=
  if Z.of_nat BSIZE <=? 4 + 4 * Z.of_nat LOGSIZE then panic "initlog: too big logheader"
  else
    sb ← readsb dev;
    setlog (fun l => { l with log_start := s32 (sb_logstart sb); log_size := s32 (sb_nlog sb);
                              log_dev := dev });;
    recover_from_log.

(** The body of the [while(1)] of [begin_op]; [sleep] gives up the CPU until
    another process ends its call or a commit. *)
Definition begin_op : M dsys unit :=
  l ← getlog;
  if ctrue (committing l) then blocked
  else if Z.of_nat LOGSIZE <? lh_n l + (outstanding l + 1) * MAXOPBLOCKS then blocked
  else setlog (fun l => { l with outstanding := outstanding l + 1 }).

(** Copy modified blocks from cache to log: the body of the loop, and the loop *)
Definition write_log_block (tail : nat) : M dsys unit :=
  l ← getlog;
  to ← on_bio (bread (log_dev l) (u32 (log_start l + Z.of_nat tail + 1)));
  blk ← lh_block_at tail;
  from ← on_bio (bread (log_dev l) (u32 blk));
  d ← on_bio (bdata from);
  on_bio (bset to d;; bwrite to);;
  on_bio (brelse from);;
  on_bio (brelse to).

Definition write_log : M dsys unit :=
  l ← getlog;
  for_each (seq 0 (Z.to_nat (lh_n l))) write_log_block.

Definition commit : M dsys unit :=
  l ← getlog;
  if 0 <? lh_n l then
    write_log;;
    write_head;;
    install_trans;;
    setlog (fun l => { l with lh_n := 0 });;
    write_head
  else mret tt.

Definition end_op : M dsys unit :=
  setlog (fun l => { l with outstanding := outstanding l - 1 });;
  l ← getlog;
  if ctrue (committing l) then panic "log.committing"
  else if outstanding l =? 0 then
    setlog (fun l => { l with committing := 1 });;
    commit;;
    setlog (fun l => { l with committing := 0 })
  else mret tt.

(** The search of [log_write]: the index of [blockno] among the first [n]
    entries, or [n]. *)
Fixpoint absorb (blks : list Z) (blockno : Z) (n i : nat) : nat :=
  match n, blks with
  | S n', blk :: blks' => if u32 blk =? blockno then i else absorb blks' blockno n' (S i)
  | _, _ => i
  end.

Definition log_write (b : nat) : M dsys unit :=
  l ← getlog;
  if (Z.of_nat LOGSIZE <=? lh_n l) || (log_size l - 1 <=? lh_n l)
  then panic "too big a transaction"
  else if outstanding l <? 1 then panic "log_write outside of trans"
  else
    x ← on_bio (getb b);
    let i := absorb (lh_block l) (b_blockno x) (Z.to_nat (lh_n l)) 0 in
    setlog (fun l => { l with lh_block := <[i := s32 (b_blockno x)]> (lh_block l) });;
    (if Z.of_nat i =? lh_n l then setlog (fun l => { l with lh_n := lh_n l + 1 }) else mret tt);;
    on_bio (setb b (fun x => { x with b_flags := Z.lor (b_flags x) B_DIRTY })).
