(* ===== verification/LogTheory.v ===== *)
(** * Atomicity of transactions

    The log code of Log.v is first related to a [view] of the disk system: the
    contents of the blocks as the cache shows them, the dirty blocks, and the
    disk with the history of its writes.  On views every operation of log.c is
    a few block writes ([vwrite]), and what remains is about sequences of
    writes: which disks a crash can leave behind ([crash_states]), and what
    recovery makes of them. *)

From S2P Require Import Prelude Bio BioTheory Log.
Open Scope Z_scope.

(** ** Views *)
Record view := mk_view {
  vC : Z -> list Z;           (* contents through the cache *)
  vD : list Z;                (* dirty blocks *)
  vd : list (list Z);         (* the disk *)
  vh : list (Z * list Z);     (* its history *)
}.

Definition vsize (a : view) : Z := Z.of_nat (length (vd a)).

(** The view of a cache in which no buffer is held. *)
Record shows (s : bio) (a : view) : Prop := {
  shows_ok : bio_ok s;
  shows_quiet : forall i m, ~ held s i m;
  shows_content : forall m, 0 <= m < disksize s -> content s m = vC a m;
  shows_dirty : forall m, dirty s m <-> m ∈ vD a;
  shows_disk : disk s = vd a;
  shows_hist : hist s = vh a;
}.

Lemma shows_size s a : shows s a -> disksize s = vsize a.
Proof. intros H. unfold disksize, vsize. by rewrite (shows_disk _ _ H). Qed.

(** Writing block [n] to the disk. *)
Definition vwrite (n : Z) (d : list Z) (a : view) : view :=
  mk_view (<[n := d]> (vC a)) (filter (fun m => m <> n) (vD a))
    (<[Z.to_nat n := d]> (vd a)) (vh a ++ [(n, d)]).

(** ** Copying a block *)
Section Copy.
Context (s : bio) (a : view) (Hs : shows s a).

(** Two blocks can be read together if neither read runs out of buffers. *)
Lemma two_reads n1 n2 :
  0 <= n1 < vsize a -> 0 <= n2 < vsize a -> n1 <> n2 ->
  n1 ∈ vD a \/ (length (vD a) < NBUF)%nat -> n2 ∈ vD a \/ (S (length (vD a)) < NBUF)%nat ->
  exists b1 b2 s1 s2, bread 1 n1 s = Ok b1 s1 /\ bread 1 n2 s1 = Ok b2 s2 /\ bio_ok s2
    /\ same_view s s2 /\ b1 <> b2
    /\ (forall i m, held s2 i m <-> (i = b1 /\ m = n1) \/ (i = b2 /\ m = n2)).
Proof.
  intros Hn1 Hn2 Hne Hr1 Hr2. destruct Hs as [Hok Hq HC HD Hd Hh].
  assert (disksize s = vsize a) as Hsz by (by apply shows_size).
  destruct (bread_room s n1 (vD a)) as (b1 & s1 & E1 & Hok1 & V1 & _ & H1); auto.
  { by rewrite Hsz. }
  { intros i n Hi. by destruct (Hq i n). }
  { intros n. by rewrite HD. }
  { by rewrite HD. }
  pose proof V1 as (_ & D1 & K1 & _).
  destruct (bread_room s1 n2 (n1 :: vD a)) as (b2 & s2 & E2 & Hok2 & V2 & Hb2 & H2); auto.
  { unfold disksize. rewrite K1. by fold (disksize s); rewrite Hsz. }
  { intros i [[_ ?]|Hi]%H1; [congruence|]. by apply (Hq i n2). }
  { intros i n [[_ ->]|Hi]%H1; [by left|]. by destruct (Hq i n). }
  { intros n Hn%D1%HD. by right. }
  { rewrite D1, HD. cbn. destruct Hr2; auto. }
  exists b1, b2, s1, s2. split_and!; auto.
  - exact (same_view_trans _ _ _ V1 V2).
  - intros <-. apply (Hb2 n1). apply H1. by left.
  - intros i m. rewrite H2, H1. split; [|naive_solver].
    intros [?|[?|Hi]]; auto. by destruct (Hq i m).
Qed.

(** The data of [src] is copied to [dst], which is written, and both are
    released. *)
Lemma finish_copy s2 b1 b2 src dst :
  bio_ok s2 -> same_view s s2 -> b1 <> b2 -> 0 <= src < vsize a -> 0 <= dst < vsize a ->
  (forall i m, held s2 i m <-> (i = b1 /\ m = src) \/ (i = b2 /\ m = dst)) ->
  exists s3 s4 s5, bdata b1 s2 = Ok (vC a src) s2
    /\ (bset b2 (vC a src);; bwrite b2) s2 = Ok tt s3
    /\ brelse b1 s3 = Ok tt s4 /\ brelse b2 s4 = Ok tt s5
    /\ shows s5 (vwrite dst (vC a src) a).
Proof.
  intros Hok2 (C2 & D2 & K2 & Y2) Hb Hsrc Hdst H2. destruct Hs as [Hok Hq HC HD Hd Hh].
  assert (disksize s = vsize a) as Hsz by (by apply shows_size).
  assert (disksize s2 = vsize a) as Hsz2 by (unfold disksize; rewrite K2; exact Hsz).
  assert (content s2 src = vC a src) as Esrc by (rewrite C2, HC; by rewrite ?Hsz).
  assert (length (vC a src) = BSIZE) as Hlen.
  { rewrite <- Esrc. apply content_length; [done|]. by rewrite Hsz2. }
  destruct (bwrite_spec s2 b2 dst (vC a src)) as (s3 & E3 & Hok3 & (C3 & H3 & Z3) & D3 & K3 & Y3); auto.
  { apply H2. by right. }
  destruct (brelse_spec s3 b1 src Hok3) as (s4 & E4 & Hok4 & (C4 & D4 & K4 & Y4) & H4).
  { apply H3, H2. by left. }
  destruct (brelse_spec s4 b2 dst Hok4) as (s5 & E5 & Hok5 & (C5 & D5 & K5 & Y5) & H5).
  { apply H4. split; [|done]. apply H3, H2. by right. }
  assert (disksize s4 = vsize a) as Hsz4 by (unfold disksize; rewrite K4; rewrite <- Hsz2, <- Z3; done).
  exists s3, s4, s5. split_and!; auto.
  { rewrite <- Esrc. apply bdata_spec; [done|]. apply H2. by left. }
  split; auto.
  - intros i m Hm%H5. destruct Hm as [Hm Hi2]. apply H4 in Hm as [Hm Hi1].
    apply H3, H2 in Hm as [[-> _]|[-> _]]; done.
  - intros m Hm. assert (0 <= m < vsize a) as Hm' by (unfold disksize in Hm; rewrite K5 in Hm;
      fold (disksize s4) in Hm; lia).
    rewrite C5 by (by rewrite Hsz4). rewrite C4 by (by rewrite Z3, Hsz2).
    rewrite C3 by (by rewrite Hsz2). cbn.
    destruct (decide (m = dst)) as [->|Hmd]; [by rewrite fn_lookup_insert|].
    rewrite fn_lookup_insert_ne by done. rewrite C2, HC; by rewrite ?Hsz.
  - intros m. rewrite D5, D4, D3, D2, HD. cbn. rewrite list_elem_of_filter. naive_solver.
  - cbn. by rewrite K5, K4, K3, K2, Hd.
  - cbn. by rewrite Y5, Y4, Y3, Y2, Hh.
Qed.
End Copy.

(** A block is read, changed, written and released. *)
Lemma rewrite_block s a n (f : list Z -> list Z) :
  shows s a -> 0 <= n < vsize a -> (length (vD a) < NBUF)%nat -> length (f (vC a n)) = BSIZE ->
  exists b s1 s2 s3, bread 1 n s = Ok b s1 /\ bdata b s1 = Ok (vC a n) s1
    /\ (bset b (f (vC a n));; bwrite b) s1 = Ok tt s2 /\ brelse b s2 = Ok tt s3
    /\ shows s3 (vwrite n (f (vC a n)) a).
Proof.
  intros Hs Hn Hr Hlen. pose proof (shows_size _ _ Hs) as Hsz.
  destruct Hs as [Hok Hq HC HD Hd Hh].
  destruct (bread_room s n (vD a)) as (b & s1 & E1 & Hok1 & (C1 & D1 & K1 & Y1) & _ & H1); auto.
  { by rewrite Hsz. }
  { intros i m Hi. by destruct (Hq i m). }
  { intros m. by rewrite HD. }
  assert (disksize s1 = vsize a) as Hsz1 by (unfold disksize; rewrite K1; exact Hsz).
  assert (held s1 b n) as Hb by (apply H1; auto).
  destruct (bwrite_spec s1 b n (f (vC a n)) Hok1 Hb Hlen)
    as (s2 & E2 & Hok2 & (C2 & H2 & Z2) & D2 & K2 & Y2).
  destruct (brelse_spec s2 b n Hok2) as (s3 & E3 & Hok3 & (C3 & D3 & K3 & Y3) & H3).
  { by apply H2. }
  exists b, s1, s2, s3. split_and!; auto.
  { rewrite <- HC, <- C1 by (by rewrite Hsz). by apply bdata_spec. }
  split; auto.
  - intros i m Hm%H3. destruct Hm as [Hm Hi]. apply H2, H1 in Hm as [[-> _]|Hm]; [done|].
    by apply (Hq i m).
  - intros m Hm. assert (0 <= m < vsize a) as Hm'
      by (unfold disksize in Hm; rewrite K3 in Hm; fold (disksize s2) in Hm; lia).
    rewrite C3 by lia. rewrite C2 by lia. cbn.
    destruct (decide (m = n)) as [->|Hmn]; [by rewrite fn_lookup_insert|].
    rewrite fn_lookup_insert_ne by done. rewrite C1, HC; by rewrite ?Hsz.
  - intros m. rewrite D3, D2, D1, HD. cbn. rewrite list_elem_of_filter. naive_solver.
  - cbn. by rewrite K3, K2, K1, Hd.
  - cbn. by rewrite Y3, Y2, Y1, Hh.
Qed.

(** ** The operations of log.c on views *)
Lemma on_bio_ok {A} (m : M bio A) (s : dsys) x b :
  m (dbio s) = Ok x b -> on_bio m s = Ok x { s with dbio := b }.
Proof. intros H. unfold on_bio, zoom. by rewrite H. Qed.

Ltac dstep H := erewrite bind_ok by first [exact H | apply on_bio_ok; exact H].
Ltac dstep0 := erewrite bind_ok by reflexivity.

(** Where the log lies on the disk, and that what the log structure lists are
    home blocks. *)
Definition in_log (l : log) (n : Z) : Prop := log_start l <= n < log_start l + log_size l.
Definition logged (l : log) : list Z := take (Z.to_nat (lh_n l)) (lh_block l).
Definition home (l : log) (size : Z) (n : Z) : Prop := 1 < n < size /\ ~ in_log l n.

Record log_shape (l : log) (size : Z) : Prop := {
  shape_dev : log_dev l = 1;
  shape_start : 2 <= log_start l;
  shape_size : 0 < log_size l <= Z.of_nat LOGSIZE;
  shape_end : log_start l + log_size l <= size;
  shape_small : size < 2 ^ 31;
  shape_n : 0 <= lh_n l <= log_size l - 1;
  shape_len : length (lh_block l) = LOGSIZE;
  shape_home : Forall (home l size) (logged l);
  shape_nodup : NoDup (logged l);
}.

Lemma log_shape_empty l size : log_shape l size -> log_shape { l with lh_n := 0 } size.
Proof. intros []. split; auto; cbn; try lia; constructor. Qed.

Section Shape.
Context (l : log) (size : Z) (Hl : log_shape l size).

Lemma length_logged : Z.of_nat (length (logged l)) = lh_n l.
Proof.
  destruct Hl. unfold logged. rewrite length_take, shape_len0. unfold LOGSIZE in *. lia.
Qed.

Lemma logged_lookup i b : logged l !! i = Some b -> lh_block l !! i = Some b.
Proof. intros [? ?]%lookup_take_Some. done. Qed.

(** The log block for entry [i]. *)
Lemma log_block i b :
  logged l !! i = Some b ->
  u32 (log_start l + Z.of_nat i + 1) = log_start l + 1 + Z.of_nat i
  /\ in_log l (log_start l + 1 + Z.of_nat i) /\ 0 <= log_start l + 1 + Z.of_nat i < size.
Proof.
  intros Hi%lookup_lt_Some. pose proof length_logged. destruct Hl. unfold in_log.
  rewrite u32_small by lia. lia.
Qed.

Lemma logged_home i b : logged l !! i = Some b -> home l size b /\ u32 b = b /\ 0 <= b < size.
Proof.
  intros Hi. pose proof (Forall_lookup_1 _ _ _ _ (shape_home _ _ Hl) Hi) as Hb.
  pose proof (shape_small _ _ Hl). split; [done|]. unfold home in Hb. rewrite u32_small by lia. lia.
Qed.
End Shape.

Fixpoint vinstall (L : Z) (i : nat) (blks : list Z) (a : view) : view :=
  match blks with
  | [] => a
  | b :: blks' => vinstall L (S i) blks' (vwrite b (vC a (L + 1 + Z.of_nat i)) a)
  end.
Fixpoint vwritelog (L : Z) (i : nat) (blks : list Z) (a : view) : view :=
  match blks with
  | [] => a
  | b :: blks' => vwritelog L (S i) blks' (vwrite (L + 1 + Z.of_nat i) (vC a b) a)
  end.

Lemma vsize_vwrite n d a : vsize (vwrite n d a) = vsize a.
Proof. unfold vsize. cbn. by rewrite length_insert. Qed.

Lemma length_filter_ne (n : Z) (D : list Z) :
  (length (filter (fun m => m <> n) D) <= length D)%nat /\
  (n ∈ D -> length (filter (fun m => m <> n) D) < length D)%nat.
Proof.
  induction D as [|m D [IH1 IH2]]; [split; [done|by intros ?%not_elem_of_nil]|].
  rewrite filter_cons. destruct (decide (m <> n)); cbn [length].
  - split; [lia|]. intros [?|?%IH2]%elem_of_cons; [congruence|lia].
  - split; lia.
Qed.

Section Loops.
Context (l : log) (size : Z) (Hl : log_shape l size).

Lemma install_block_ok s a i b :
  dlog s = l -> shows (dbio s) a -> vsize a = size -> logged l !! i = Some b ->
  (length (vD a) < NBUF)%nat -> b ∈ vD a \/ (S (length (vD a)) < NBUF)%nat ->
  exists b', install_block i s = Ok tt { s with dbio := b' }
    /\ shows b' (vwrite b (vC a (log_start l + 1 + Z.of_nat i)) a).
Proof.
  intros Hdl Hs Hsz Hi Hr1 Hr2. unfold install_block, getlog. dstep0. rewrite Hdl.
  destruct (log_block l size Hl i b Hi) as (-> & Hin & Hsrc).
  destruct (logged_home l size Hl i b Hi) as ([Hb Hnin] & Hu & Hdst).
  rewrite (shape_dev l size Hl). rewrite <- Hsz in Hsrc, Hdst.
  destruct (two_reads _ a Hs (log_start l + 1 + Z.of_nat i) b Hsrc Hdst)
    as (b1 & b2 & s1 & s2 & E1 & E2 & Hok2 & V2 & Hne & H2); auto.
  { intros E. by rewrite E in Hin. }
  dstep E1. unfold lh_block_at, getlog. erewrite bind_ok; cycle 1.
  { dstep0. cbn. rewrite Hdl, (logged_lookup l i b Hi). reflexivity. }
  rewrite Hu. dstep E2.
  destruct (finish_copy _ a Hs s2 b1 b2 _ b Hok2 V2 Hne Hsrc Hdst H2)
    as (s3 & s4 & s5 & E3 & E4 & E5 & E6 & Hfin).
  dstep E3. dstep E4. dstep E5. exists s5. split; [|done].
  erewrite on_bio_ok by exact E6. destruct s. cbn in *. by subst.
Qed.

Lemma write_log_block_ok s a i b :
  dlog s = l -> shows (dbio s) a -> vsize a = size -> logged l !! i = Some b ->
  (length (vD a) < NBUF)%nat -> b ∈ vD a ->
  exists b', write_log_block i s = Ok tt { s with dbio := b' }
    /\ shows b' (vwrite (log_start l + 1 + Z.of_nat i) (vC a b) a).
Proof.
  intros Hdl Hs Hsz Hi Hr1 Hr2. unfold write_log_block, getlog. dstep0. rewrite Hdl.
  destruct (log_block l size Hl i b Hi) as (-> & Hin & Hdst).
  destruct (logged_home l size Hl i b Hi) as ([Hb Hnin] & Hu & Hsrc).
  rewrite (shape_dev l size Hl). rewrite <- Hsz in Hsrc, Hdst.
  destruct (two_reads _ a Hs (log_start l + 1 + Z.of_nat i) b Hdst Hsrc)
    as (b1 & b2 & s1 & s2 & E1 & E2 & Hok2 & V2 & Hne & H2); auto.
  { intros E. by rewrite E in Hin. }
  dstep E1. unfold lh_block_at, getlog. erewrite bind_ok; cycle 1.
  { dstep0. cbn. rewrite Hdl, (logged_lookup l i b Hi). reflexivity. }
  rewrite Hu. dstep E2.
  destruct (finish_copy _ a Hs s2 b2 b1 b (log_start l + 1 + Z.of_nat i) Hok2 V2)
    as (s3 & s4 & s5 & E3 & E4 & E5 & E6 & Hfin); auto.
  { intros j m. rewrite H2. naive_solver. }
  dstep E3. dstep E4. dstep E5. exists s5. split; [|done].
  erewrite on_bio_ok by exact E6. destruct s. cbn in *. by subst.
Qed.

(** [blks] is what the loops have left to do at entry [i]. *)
Definition rest (i : nat) (blks : list Z) : Prop := drop i (logged l) = blks.

Lemma rest_cons i b blks : rest i (b :: blks) -> logged l !! i = Some b /\ rest (S i) blks.
Proof.
  unfold rest. intros H. split.
  - by rewrite <- (Nat.add_0_r i), <- lookup_drop, H.
  - by rewrite <- (Nat.add_1_r i), <- drop_drop, H.
Qed.

Lemma install_loop blks i s a :
  dlog s = l -> shows (dbio s) a -> vsize a = size -> rest i blks ->
  (length (vD a) < NBUF)%nat ->
  (forall b, b ∈ blks -> b ∈ vD a) \/ (S (length (vD a)) < NBUF)%nat ->
  exists b', for_each (seq i (length blks)) install_block s = Ok tt { s with dbio := b' }
    /\ shows b' (vinstall (log_start l) i blks a).
Proof.
  revert i s a. induction blks as [|b blks IH]; intros i s a Hdl Hs Hsz Hrest Hr1 Hr2.
  { exists (dbio s). split; [|done]. by destruct s. }
  apply rest_cons in Hrest as [Hi Hrest]. cbn [length seq for_each vinstall].
  destruct (install_block_ok s a i b) as (b1 & E1 & S1); auto.
  { destruct Hr2 as [Hr2|?]; [left; apply Hr2; by left|by right]. }
  dstep E1. set (a1 := vwrite _ _ _) in *.
  destruct (length_filter_ne b (vD a)) as [F1 F2].
  destruct (IH (S i) { s with dbio := b1 } a1) as (b2 & E2 & S2); auto.
  - unfold a1. by rewrite vsize_vwrite.
  - cbn. lia.
  - right. cbn. destruct Hr2 as [Hr2|Hr2]; [|lia]. specialize (F2 (Hr2 b ltac:(by left))). lia.
  - exists b2. split; [exact E2|done].
Qed.

Lemma write_log_loop blks i s a :
  dlog s = l -> shows (dbio s) a -> vsize a = size -> rest i blks ->
  (length (vD a) < NBUF)%nat ->
  (forall b, b ∈ blks -> b ∈ vD a) -> (forall b, b ∈ vD a -> ~ in_log l b) ->
  exists b', for_each (seq i (length blks)) write_log_block s = Ok tt { s with dbio := b' }
    /\ shows b' (vwritelog (log_start l) i blks a).
Proof.
  revert i s a. induction blks as [|b blks IH]; intros i s a Hdl Hs Hsz Hrest Hr1 Hr2 Hr3.
  { exists (dbio s). split; [|done]. by destruct s. }
  apply rest_cons in Hrest as [Hi Hrest]. cbn [length seq for_each vwritelog].
  destruct (write_log_block_ok s a i b) as (b1 & E1 & S1); auto.
  { apply Hr2. by left. }
  dstep E1. set (a1 := vwrite _ _ _) in *.
  destruct (length_filter_ne (log_start l + 1 + Z.of_nat i) (vD a)) as [F1 F2].
  destruct (log_block l size Hl i b Hi) as (_ & Hin & _).
  destruct (IH (S i) { s with dbio := b1 } a1) as (b2 & E2 & S2); auto.
  - unfold a1. by rewrite vsize_vwrite.
  - cbn. lia.
  - intros c Hc. cbn. apply list_elem_of_filter. assert (c ∈ vD a) by (apply Hr2; by right).
    split; [|done]. intros E. rewrite <- E in Hin. by apply (Hr3 c).
  - intros c Hc. cbn in Hc. apply list_elem_of_filter in Hc as [_ Hc]. by apply Hr3.
  - exists b2. split; [exact E2|done].
Qed.
End Loops.

(** ** The log header *)
Lemma length_put_blocks d i blks :
  (4 + 4 * (i + length blks) <= length d)%nat -> length (put_blocks d i blks) = length d.
Proof.
  revert d i. induction blks as [|b blks IH]; intros d i Hd; cbn [put_blocks length] in *; [done|].
  unfold put_block. rewrite IH; rewrite length_put32; lia.
Qed.

Lemma get32_put_blocks_before d i blks off :
  (4 + 4 * (i + length blks) <= length d)%nat -> (off + 4 <= 4 + 4 * i)%nat ->
  get32 (put_blocks d i blks) off = get32 d off.
Proof.
  revert d i. induction blks as [|b blks IH]; intros d i Hd Hoff; cbn [put_blocks length] in *; [done|].
  unfold put_block. rewrite IH by (rewrite ?length_put32; lia).
  apply get32_put32_other; lia.
Qed.

Lemma get32_put_blocks d i blks j b :
  (4 + 4 * (i + length blks) <= length d)%nat -> blks !! j = Some b ->
  get32 (put_blocks d i blks) (4 + 4 * (i + j)) = u32 b.
Proof.
  revert d i j. induction blks as [|b' blks IH]; intros d i j Hd Hj; [done|]. cbn [length] in Hd.
  destruct j as [|j]; cbn [put_blocks].
  - injection Hj as ->. rewrite Nat.add_0_r.
    rewrite get32_put_blocks_before; unfold put_block; rewrite ?length_put32; try lia.
    rewrite get32_put32_same by lia. apply u32_u32.
  - replace (i + S j)%nat with (S i + j)%nat by lia. apply IH; [|done].
    unfold put_block. rewrite length_put32; lia.
Qed.

Lemma length_put_hdr d n blks :
  length d = BSIZE -> 0 <= n <= Z.of_nat LOGSIZE -> length (put_hdr d n blks) = BSIZE.
Proof.
  intros Hd Hn. unfold put_hdr, BSIZE, LOGSIZE in *.
  rewrite length_put_blocks; rewrite length_put32, ?length_take; lia.
Qed.

Lemma hdr_n_put d n blks :
  length d = BSIZE -> 0 <= n <= Z.of_nat LOGSIZE -> hdr_n (put_hdr d n blks) = n.
Proof.
  intros Hd Hn. unfold hdr_n, put_hdr, BSIZE, LOGSIZE in *.
  rewrite get32_put_blocks_before by (rewrite ?length_put32, ?length_take; lia).
  rewrite get32_put32_same by lia. rewrite u32_u32, u32_small, s32_small by lia. done.
Qed.

Lemma hdr_block_put d n blks i b :
  length d = BSIZE -> 0 <= n <= Z.of_nat LOGSIZE -> take (Z.to_nat n) blks !! i = Some b ->
  0 <= b < 2 ^ 31 -> hdr_block (put_hdr d n blks) i = b.
Proof.
  intros Hd Hn Hi Hb. unfold hdr_block, put_hdr, BSIZE, LOGSIZE in *.
  rewrite (get32_put_blocks _ 0 _ i b); [|rewrite length_put32, length_take; lia|done].
  rewrite u32_small, s32_small by lia. done.
Qed.

Lemma write_head_ok s a :
  shows (dbio s) a -> log_dev (dlog s) = 1 -> 0 <= log_start (dlog s) < vsize a ->
  0 <= lh_n (dlog s) <= Z.of_nat LOGSIZE -> (length (vD a) < NBUF)%nat ->
  exists b', write_head s = Ok tt { s with dbio := b' }
    /\ shows b' (vwrite (log_start (dlog s))
                  (put_hdr (vC a (log_start (dlog s))) (lh_n (dlog s)) (lh_block (dlog s))) a).
Proof.
  intros Hs Hdev HL Hn Hr. unfold write_head, getlog. dstep0. rewrite Hdev.
  pose proof (shows_size _ _ Hs) as Hsz. pose proof (ok_size _ (shows_ok _ _ Hs)) as Hsm.
  rewrite u32_small by lia.
  destruct (rewrite_block _ a (log_start (dlog s))
    (fun d => put_hdr d (lh_n (dlog s)) (lh_block (dlog s))) Hs HL Hr)
    as (b & s1 & s2 & s3 & E1 & E2 & E3 & E4 & S4).
  { apply length_put_hdr; [|done]. rewrite <- (shows_content _ _ Hs) by lia.
    apply content_length; [apply Hs|lia]. }
  dstep E1. dstep E2. dstep E3. exists s3. split; [|done].
  erewrite on_bio_ok by exact E4. done.
Qed.

(** ** Commit *)
Definition vcommit (l : log) (a : view) : view :=
  let L := log_start l in
  let a1 := vwritelog L 0 (logged l) a in
  let a2 := vwrite L (put_hdr (vC a1 L) (lh_n l) (lh_block l)) a1 in
  let a3 := vinstall L 0 (logged l) a2 in
  vwrite L (put_hdr (vC a3 L) 0 (lh_block l)) a3.

Lemma vsize_vwritelog L i blks a : vsize (vwritelog L i blks a) = vsize a.
Proof.
  revert i a. induction blks as [|b blks IH]; intros i a; cbn; [done|].
  by rewrite IH, vsize_vwrite.
Qed.
Lemma vsize_vinstall L i blks a : vsize (vinstall L i blks a) = vsize a.
Proof.
  revert i a. induction blks as [|b blks IH]; intros i a; cbn; [done|].
  by rewrite IH, vsize_vwrite.
Qed.

(** Writes of blocks that are not dirty leave the dirty blocks alone. *)
Lemma filter_ne_id (n : Z) (D : list Z) : n ∉ D -> filter (fun m => m <> n) D = D.
Proof.
  induction D as [|m D IH]; intros Hn; [done|]. apply not_elem_of_cons in Hn as [? ?].
  rewrite filter_cons_True by congruence. f_equal. by apply IH.
Qed.

Lemma vD_vwritelog l L i blks a :
  L = log_start l -> (forall b, b ∈ vD a -> ~ in_log l b) ->
  (forall j, (j < length blks)%nat -> in_log l (L + 1 + Z.of_nat (i + j))) ->
  vD (vwritelog L i blks a) = vD a.
Proof.
  intros ->. revert i a. induction blks as [|b blks IH]; intros i a Hd Hin; cbn; [done|].
  assert (log_start l + 1 + Z.of_nat i ∉ vD a) as Hni.
  { intros H. apply (Hd _ H). specialize (Hin 0%nat). rewrite Nat.add_0_r in Hin. apply Hin. cbn. lia. }
  assert (vD (vwrite (log_start l + 1 + Z.of_nat i) (vC a b) a) = vD a) as E
    by (by apply filter_ne_id).
  rewrite IH; [done|by rewrite E|].
  intros j Hj. replace (S i + j)%nat with (i + S j)%nat by lia. apply Hin. cbn. lia.
Qed.

Lemma length_vD_vinstall L i blks a : (length (vD (vinstall L i blks a)) <= length (vD a))%nat.
Proof.
  revert i a. induction blks as [|b blks IH]; intros i a; cbn; [done|].
  etransitivity; [apply IH|]. apply length_filter_ne.
Qed.

Lemma install_trans_run s l size :
  dlog s = l -> log_shape l size ->
  install_trans s = for_each (seq 0 (length (logged l))) install_block s.
Proof.
  intros <- Hl. unfold install_trans, getlog. dstep0.
  pose proof (length_logged _ _ Hl). do 2 f_equal. lia.
Qed.

Lemma commit_ok s a :
  shows (dbio s) a -> log_shape (dlog s) (vsize a) -> vD a = logged (dlog s) -> 0 < lh_n (dlog s) ->
  exists b', commit s = Ok tt { s with dbio := b'; dlog := { dlog s with lh_n := 0 } }
    /\ shows b' (vcommit (dlog s) a).
Proof.
  intros Hs Hl HD Hn. unfold commit, getlog. dstep0. rewrite (proj2 (Z.ltb_lt _ _) Hn).
  pose proof (length_logged _ _ Hl) as Hlen.
  assert (length (vD a) < NBUF)%nat as Hr.
  { rewrite HD. destruct Hl. unfold LOGSIZE, NBUF in *. lia. }
  assert (forall b, b ∈ vD a -> ~ in_log (dlog s) b) as Hnl.
  { intros b Hb. rewrite HD in Hb. pose proof (shape_home _ _ Hl) as Hh.
    rewrite list.Forall_forall in Hh. apply (Hh b Hb). }
  assert (rest (dlog s) 0 (logged (dlog s))) as Hrest by reflexivity.
  assert (Z.to_nat (lh_n (dlog s)) = length (logged (dlog s))) as Hcount by lia.
  destruct (write_log_loop _ _ Hl (logged (dlog s)) 0 s a) as (b1 & E1 & S1); auto.
  { by rewrite HD. }
  erewrite bind_ok by (unfold write_log, getlog; dstep0; rewrite Hcount; exact E1).
  set (a1 := vwritelog _ _ _ _) in *.
  assert (vD a1 = vD a) as HD1.
  { apply (vD_vwritelog (dlog s)); auto. intros j Hj.
    destruct (lookup_lt_is_Some_2 _ _ Hj) as [b Hb]. by apply (log_block _ _ Hl j b Hb). }
  assert (vsize a1 = vsize a) as Hz1 by apply vsize_vwritelog.
  mstate ltac:(fun st => destruct (write_head_ok st a1 S1) as (b2 & E2 & S2)).
  { by destruct Hl. }
  { rewrite Hz1. destruct Hl. cbn. lia. }
  { destruct Hl. unfold LOGSIZE in *. cbn. lia. }
  { by rewrite HD1. }
  dstep E2. set (a2 := vwrite _ _ _) in S2.
  assert (vsize a2 = vsize a) as Hz2 by (unfold a2; by rewrite vsize_vwrite).
  assert (vD a2 = vD a) as HD2.
  { unfold a2. cbn. rewrite filter_ne_id; rewrite HD1; [done|]. intros Hb.
    apply (Hnl _ Hb). destruct Hl. unfold in_log. cbn. lia. }
  mstate ltac:(fun st =>
    destruct (install_loop (dlog s) _ Hl (logged (dlog s)) 0 st a2) as (b3 & E3 & S3)); auto.
  { by rewrite HD2. }
  { left. by rewrite HD2, HD. }
  erewrite bind_ok by (erewrite (install_trans_run _ (dlog s)) by done; exact E3).
  set (a3 := vinstall _ _ _ _) in *. dstep0.
  assert (vsize a3 = vsize a) as Hz3 by (unfold a3; by rewrite vsize_vinstall).
  match goal with |- context [write_head ?st] =>
    destruct (write_head_ok st a3 S3) as (b4 & E4 & S4) end.
  { by destruct Hl. }
  { rewrite Hz3. destruct Hl. cbn. lia. }
  { cbn. unfold LOGSIZE. lia. }
  { pose proof (length_vD_vinstall (log_start (dlog s)) 0 (logged (dlog s)) a2) as H.
    unfold a3. rewrite HD2 in H. lia. }
  exists b4. rewrite E4. split; [done|]. exact S4.
Qed.

(** ** Sequences of writes *)
Definition write1 (d : list (list Z)) (w : Z * list Z) : list (list Z) := <[Z.to_nat w.1 := w.2]> d.
Definition apply_writes (ws : list (Z * list Z)) (d : list (list Z)) : list (list Z) :=
  foldl write1 d ws.
Definition vwrites (ws : list (Z * list Z)) (a : view) : view :=
  foldl (fun a w => vwrite w.1 w.2 a) a ws.

(** Block [n] of a disk. *)
Definition blk (d : list (list Z)) (n : Z) : list Z := d !!! Z.to_nat n.

Lemma apply_writes_app ws1 ws2 d :
  apply_writes (ws1 ++ ws2) d = apply_writes ws2 (apply_writes ws1 d).
Proof. apply foldl_app. Qed.

Lemma length_apply_writes ws d : length (apply_writes ws d) = length d.
Proof.
  revert d. induction ws as [|w ws IH]; intros d; cbn; [done|]. fold (apply_writes ws (write1 d w)).
  rewrite IH. apply length_insert.
Qed.

Lemma blk_write1_ne d w n : 0 <= n -> 0 <= w.1 -> n <> w.1 -> blk (write1 d w) n = blk d n.
Proof.
  intros. unfold blk, write1. apply list_lookup_total_insert_ne. lia.
Qed.

Lemma blk_write1_eq d w n :
  0 <= n < Z.of_nat (length d) -> n = w.1 -> blk (write1 d w) n = w.2.
Proof. intros Hn ->. unfold blk, write1. apply list_lookup_total_insert_eq. lia. Qed.

(** A block that is not written keeps its contents; one that is written once
    has what was written. *)
Lemma blk_apply_none ws d n :
  0 <= n -> Forall (fun w => 0 <= w.1 /\ w.1 <> n) ws -> blk (apply_writes ws d) n = blk d n.
Proof.
  intros Hn Hws. revert d. induction Hws as [|w ws [Hw0 Hwn] Hws IH]; intros d; cbn; [done|].
  fold (apply_writes ws (write1 d w)). rewrite IH. apply blk_write1_ne; auto.
Qed.

Lemma blk_apply_once ws d n x :
  0 <= n < Z.of_nat (length d) -> Forall (fun w => 0 <= w.1) ws -> NoDup (ws.*1) ->
  (n, x) ∈ ws -> blk (apply_writes ws d) n = x.
Proof.
  intros Hn Hpos Hnd Hin. apply list_elem_of_split in Hin as (w1 & w2 & ->).
  rewrite fmap_app, fmap_cons in Hnd. apply list.NoDup_app in Hnd as (_ & _ & Hnd).
  apply list.NoDup_cons in Hnd as [Hnot _]. apply Forall_app in Hpos as [_ Hpos].
  apply list.Forall_cons in Hpos as [_ Hpos].
  rewrite apply_writes_app. cbn. fold (apply_writes w2 (write1 (apply_writes w1 d) (n, x))).
  rewrite blk_apply_none; [|lia|].
  - apply blk_write1_eq; [|done]. by rewrite length_apply_writes.
  - apply list.Forall_forall. intros w Hw. rewrite list.Forall_forall in Hpos. split; [auto|].
    intros E. apply Hnot. cbn. rewrite <- E. exact (list_elem_of_fmap_2 fst w2 w Hw).
Qed.

Lemma vwrites_app ws1 ws2 a : vwrites (ws1 ++ ws2) a = vwrites ws2 (vwrites ws1 a).
Proof. apply foldl_app. Qed.

Lemma vwrites_disk ws a :
  vd (vwrites ws a) = apply_writes ws (vd a) /\ vh (vwrites ws a) = vh a ++ ws.
Proof.
  revert a. induction ws as [|w ws IH]; intros a; cbn; [by rewrite app_nil_r|].
  fold (vwrites ws (vwrite w.1 w.2 a)). destruct (IH (vwrite w.1 w.2 a)) as [-> ->]. cbn.
  split; [done|]. rewrite <- app_assoc. by destruct w.
Qed.

Lemma vD_vwrites ws a m : m ∈ vD (vwrites ws a) <-> m ∈ vD a /\ (m ∉ ws.*1).
Proof.
  revert a. induction ws as [|w ws IH]; intros a.
  - cbn. split; [|by intros [? _]]. split; [done|apply not_elem_of_nil].
  - change (vwrites (w :: ws) a) with (vwrites ws (vwrite w.1 w.2 a)). rewrite IH. cbn. rewrite list_elem_of_filter, not_elem_of_cons. tauto.
Qed.

Lemma vC_vwrites_none ws a n : n ∉ ws.*1 -> vC (vwrites ws a) n = vC a n.
Proof.
  revert a. induction ws as [|w ws IH]; intros a Hn; cbn; [done|].
  fold (vwrites ws (vwrite w.1 w.2 a)). apply not_elem_of_cons in Hn as [Hw Hn].
  rewrite (IH _ Hn). cbn. by rewrite fn_lookup_insert_ne.
Qed.

Lemma vC_vwrites_once ws a n x : NoDup (ws.*1) -> (n, x) ∈ ws -> vC (vwrites ws a) n = x.
Proof.
  intros Hnd Hin. apply list_elem_of_split in Hin as (w1 & w2 & ->).
  rewrite fmap_app, fmap_cons in Hnd. apply list.NoDup_app in Hnd as (_ & _ & Hnd).
  apply list.NoDup_cons in Hnd as [Hnot _].
  rewrite vwrites_app. cbn. fold (vwrites w2 (vwrite n x (vwrites w1 a))).
  rewrite vC_vwrites_none by done. cbn. apply fn_lookup_insert.
Qed.

(** The writes of [write_log] and [install_trans]. *)
Definition log_writes (L : Z) (i : nat) (blks : list Z) (C : Z -> list Z) : list (Z * list Z) :=
  imap (fun j b => (L + 1 + Z.of_nat (i + j), C b)) blks.
Definition home_writes (L : Z) (i : nat) (blks : list Z) (C : Z -> list Z) : list (Z * list Z) :=
  imap (fun j b => (b, C (L + 1 + Z.of_nat (i + j)))) blks.

Lemma vwritelog_writes L i blks a :
  Forall (fun b => forall j, (j < i + length blks)%nat -> b <> L + 1 + Z.of_nat j) blks ->
  vwritelog L i blks a = vwrites (log_writes L i blks (vC a)) a.
Proof.
  revert i a. induction blks as [|b blks IH]; intros i a Hb; cbn; [done|].
  apply list.Forall_cons in Hb as [Hb Hbs]. unfold log_writes. cbn. rewrite Nat.add_0_r. cbn.
  rewrite IH.
  - unfold vwrites, log_writes. f_equal. apply imap_ext. intros j c Hc. cbn.
    rewrite fn_lookup_insert_ne; [f_equal; f_equal; lia|].
    rewrite Forall_lookup in Hbs. intros E. apply (Hbs j c Hc i); cbn; [lia|done].
  - eapply list.Forall_impl; [exact Hbs|]. cbn. intros c Hc j Hj. apply Hc. lia.
Qed.

Lemma vinstall_writes L i blks a :
  Forall (fun b => forall j, (j < i + length blks)%nat -> b <> L + 1 + Z.of_nat j) blks ->
  vinstall L i blks a = vwrites (home_writes L i blks (vC a)) a.
Proof.
  revert i a. induction blks as [|b blks IH]; intros i a Hb; cbn; [done|].
  apply list.Forall_cons in Hb as [Hb Hbs]. unfold home_writes. cbn. rewrite Nat.add_0_r. cbn.
  rewrite IH.
  - unfold vwrites, home_writes. f_equal. apply imap_ext. intros j c Hc. cbn.
    apply lookup_lt_Some in Hc as Hj.
    rewrite fn_lookup_insert_ne; [do 2 f_equal; lia|].
    intros E. apply (Hb (S i + j)%nat); cbn; [lia|]. rewrite E. lia.
  - eapply list.Forall_impl; [exact Hbs|]. cbn. intros c Hc j Hj. apply Hc. lia.
Qed.
