(* ===== verification/LogCrash.v ===== *)
(** * Crashes and recovery

    A crash leaves the disk with a prefix of the writes the kernel was
    performing.  This file proves that recovery ([binit] and [initlog] on a
    freshly booted machine) turns every disk that a crash during [commit] can
    leave into the disk before the transaction or the disk after it, and that
    crashes during recovery itself do not matter. *)

From S2P Require Import Prelude Bio BioTheory Log LogTheory.
Open Scope Z_scope.

(** ** Booting from a disk *)
Definition zero_log : log := mk_log 0 0 0 0 0 0 (replicate LOGSIZE 0).
Definition boot (d : list (list Z)) : dsys := mk_dsys (boot_bio d) zero_log.

(** What main() and forkret() do to the disk system: [binit(); ...
    initlog(ROOTDEV);] *)
Definition recover (d : list (list Z)) : result dsys unit :=
  (on_bio binit;; initlog 1) (boot d).

(** The home blocks named by a log header. *)
Definition hdr_list (h : list Z) : list Z := hdr_block h <$> seq 0 (Z.to_nat (hdr_n h)).

Definition home_block (L nlog size n : Z) : Prop := 1 < n < size /\ ~ (L <= n < L + nlog).

(** A disk with a log of [nlog] blocks at [L] whose header makes sense. *)
Record crash_disk (L nlog : Z) (d : list (list Z)) : Prop := {
  cd_blocks : Forall (fun b => length b = BSIZE) d;
  cd_small : Z.of_nat (length d) < 2 ^ 31;
  cd_start : sb_logstart (decode_sb (blk d 1)) = L;
  cd_nlog : sb_nlog (decode_sb (blk d 1)) = nlog;
  cd_L : 2 <= L;
  cd_n : 0 < nlog <= Z.of_nat LOGSIZE;
  cd_end : L + nlog <= Z.of_nat (length d);
  cd_hdr : 0 <= hdr_n (blk d L) <= nlog - 1;
  cd_home : Forall (home_block L nlog (Z.of_nat (length d))) (hdr_list (blk d L));
  cd_nodup : NoDup (hdr_list (blk d L));
}.

(** What recovery makes of block [n]. *)
Definition recovered (L : Z) (d : list (list Z)) (n : Z) : list Z :=
  match list_find (eq n) (hdr_list (blk d L)) with
  | Some (j, _) => blk d (L + 1 + Z.of_nat j)
  | None => blk d n
  end.

(** ** Running recovery *)
Definition fresh (d : list (list Z)) : view := mk_view (blk d) [] d [].

Lemma clean_block s n :
  bio_ok s -> ~ dirty s n -> 0 <= n < disksize s -> content s n = blk (disk s) n.
Proof.
  intros Hok Hd Hn. pose proof (find_block s Hok (seq 0 NBUF) n ltac:(done)) as H.
  destruct (find_buf _ _ _) as [i|]; [|by apply content_uncached].
  destruct H as [x Hx]. rewrite (content_cached s Hok i n x Hx). pose proof Hx as (Hi & Hbx & Hdev & <-).
  destruct (ok_buf s Hok i x Hi Hbx) as (_ & _ & [(? & _)|(_ & _ & _ & [H6|[_ Hdisk]])]); [congruence|..].
  - destruct Hd. by exists i, x.
  - symmetry. by apply list_lookup_total_correct.
Qed.

Lemma binit_shows d :
  Forall (fun b => length b = BSIZE) d -> Z.of_nat (length d) < 2 ^ 31 ->
  exists s, binit (boot_bio d) = Ok tt s /\ shows s (fresh d).
Proof.
  intros Hd Hsz. destruct (binit_ok d Hd Hsz) as (s & E & Hok & Hdisk & Hhist & Hnd & Hnh).
  exists s. split; [exact E|]. clear E. split; auto.
  - intros m Hm. rewrite clean_block by auto. by rewrite Hdisk.
  - intros m. split; [|by intros ?%not_elem_of_nil]. intros Hm. by destruct (Hnd m).
Qed.

(** Reading a block changes nothing. *)
Lemma read_block s a n :
  shows s a -> 0 <= n < vsize a -> (length (vD a) < NBUF)%nat ->
  exists b s1 s2, bread 1 n s = Ok b s1 /\ bdata b s1 = Ok (vC a n) s1
    /\ brelse b s1 = Ok tt s2 /\ shows s2 a.
Proof.
  intros Hs Hn Hr. pose proof (shows_size _ _ Hs) as Hsz.
  destruct Hs as [Hok Hq HC HD Hd Hh].
  destruct (bread_room s n (vD a)) as (b & s1 & E1 & Hok1 & V1 & _ & H1); auto.
  { by rewrite Hsz. }
  { intros i m Hi. by destruct (Hq i m). }
  { intros m. by rewrite HD. }
  destruct (brelse_spec s1 b n Hok1) as (s2 & E2 & Hok2 & V2 & H2); [apply H1; auto|].
  exists b, s1, s2. split_and!; auto.
  { destruct V1 as (C1 & _). rewrite <- HC, <- C1 by (by rewrite Hsz).
    apply bdata_spec; [done|]. apply H1. auto. }
  destruct (same_view_trans _ _ _ V1 V2) as (C & D & K & Y). split; auto.
  - intros i m Hm%H2. destruct Hm as [Hm Hi]. apply H1 in Hm as [[-> _]|Hm]; [done|].
    by apply (Hq i m).
  - intros m Hm. unfold disksize in Hm. rewrite K in Hm. by rewrite C, HC.
  - intros m. by rewrite D, HD.
  - by rewrite K, Hd.
  - by rewrite Y, Hh.
Qed.

(** The loop of [read_head]. *)
Definition load_blocks (h : list Z) (k : nat) (blks : list Z) : list Z :=
  foldl (fun blks i => <[i := hdr_block h i]> blks) blks (seq 0 k).

Lemma length_load_blocks h k blks : length (load_blocks h k blks) = length blks.
Proof.
  unfold load_blocks. induction k as [|k IH]; [done|].
  rewrite seq_S, foldl_app. cbn. by rewrite length_insert.
Qed.

Lemma load_blocks_take h k blks :
  (k <= length blks)%nat -> take k (load_blocks h k blks) = hdr_block h <$> seq 0 k.
Proof.
  intros Hk. induction k as [|k IH]; [done|].
  assert (length (load_blocks h k blks) = length blks) as Hlen by apply length_load_blocks.
  rewrite seq_S, fmap_app. unfold load_blocks. rewrite seq_S, foldl_app. cbn [foldl Nat.add].
  fold (load_blocks h k blks). rewrite (take_S_r _ _ (hdr_block h k)).
  - f_equal. rewrite take_insert_ge by lia. apply IH. lia.
  - apply list_lookup_insert_eq. lia.
Qed.

Lemma read_head_loop h k s :
  (k <= length (lh_block (dlog s)))%nat ->
  for_each (seq 0 k) (fun i =>
    _ ← lh_block_at i;
    setlog (fun l => { l with lh_block := <[i := hdr_block h i]> (lh_block l) })) s
  = Ok tt { s with dlog := { dlog s with lh_block := load_blocks h k (lh_block (dlog s)) } }.
Proof.
  intros Hk. induction k as [|k IH]; [by destruct s as [? []]|].
  rewrite seq_S. erewrite for_each_app by (apply IH; lia). cbn [for_each Nat.add].
  pose proof (length_load_blocks h k (lh_block (dlog s))) as Hlen.
  destruct (lookup_lt_is_Some_2 (load_blocks h k (lh_block (dlog s))) k) as [b Hb]; [lia|].
  erewrite bind_ok; [reflexivity|]. erewrite bind_ok.
  2: { unfold lh_block_at, getlog. erewrite bind_ok by reflexivity. cbn [dlog lh_block].
       unfold deref. cbn. rewrite Hb. reflexivity. }
  unfold setlog. cbn -[seq]. unfold load_blocks. rewrite seq_S, foldl_app. done.
Qed.

Section Recover.
Context (L nlog : Z) (d : list (list Z)) (Hd : crash_disk L nlog d).

(** The log structure after [read_head]. *)
Definition head_log : log :=
  mk_log L nlog 0 0 1 (hdr_n (blk d L))
    (load_blocks (blk d L) (Z.to_nat (hdr_n (blk d L))) (replicate LOGSIZE 0)).

Lemma head_log_logged : logged head_log = hdr_list (blk d L).
Proof.
  unfold logged, hdr_list. cbn [head_log lh_n lh_block]. apply load_blocks_take.
  rewrite length_replicate. destruct Hd. lia.
Qed.

Lemma head_log_shape : log_shape head_log (Z.of_nat (length d)).
Proof.
  pose proof head_log_logged as Hlog. destruct Hd.
  split; cbn [head_log log_dev log_start log_size lh_n lh_block]; auto; try lia.
  - by rewrite length_load_blocks, length_replicate.
  - by rewrite Hlog.
  - by rewrite Hlog.
Qed.

(** The view after recovery. *)
Definition recovered_view : view :=
  let a := vinstall L 0 (hdr_list (blk d L)) (fresh d) in
  vwrite L (put_hdr (vC a L) 0 (lh_block head_log)) a.

Lemma recover_ok :
  exists b, recover d = Ok tt (mk_dsys b { head_log with lh_n := 0 }) /\ shows b recovered_view.
Proof.
  pose proof head_log_shape as Hshape.
  assert (Z.to_nat (hdr_n (blk d L)) <= LOGSIZE)%nat as Hk by (destruct Hd; lia).
  unfold recover. destruct Hd. destruct (binit_shows d) as (s0 & E0 & S0); auto.
  dstep E0. unfold initlog. change (Z.of_nat BSIZE <=? 4 + 4 * Z.of_nat LOGSIZE) with false. cbv match.
  destruct (read_block s0 _ 1 S0) as (b1 & s1 & s2 & E1 & E2 & E3 & S2);
    [unfold vsize; cbn; lia|cbn; unfold NBUF; lia|].
  erewrite bind_ok by (unfold readsb; dstep E1; dstep E2; dstep E3; reflexivity).
  change (vC (fresh d) 1) with (blk d 1). rewrite cd_start0, cd_nlog0, !s32_small by (unfold LOGSIZE in *; lia).
  dstep0. unfold recover_from_log.
  mstate ltac:(fun st =>
    change st with (mk_dsys s2 (mk_log L nlog 0 0 1 0 (replicate LOGSIZE 0)))).
  destruct (read_block s2 _ L S2) as (b2 & s3 & s4 & E4 & E5 & E6 & S4);
    [unfold vsize; cbn; lia|cbn; unfold NBUF; lia|].
  erewrite bind_ok.
  2: { unfold read_head, getlog. dstep0. cbn [dlog log_dev log_start]. rewrite u32_small by lia.
       dstep E4. dstep E5. dstep0. erewrite bind_ok by (apply read_head_loop; exact Hk).
       erewrite on_bio_ok by exact E6. reflexivity. }
  match goal with |- context [install_trans ≫= _] =>
    mstate ltac:(fun st => change st with (mk_dsys s4 head_log)) end.
  destruct (install_loop head_log _ Hshape (hdr_list (blk d L)) 0 (mk_dsys s4 head_log) (fresh d))
    as (b3 & E7 & S7); auto.
  { unfold rest. by rewrite head_log_logged. }
  { cbn. unfold NBUF. lia. }
  { right. cbn. unfold NBUF. lia. }
  erewrite bind_ok.
  2: { rewrite (install_trans_run (mk_dsys s4 head_log) head_log _ eq_refl Hshape), head_log_logged. exact E7. }
  dstep0.
  match goal with |- context [write_head ?st] =>
    destruct (write_head_ok st _ S7) as (b4 & E8 & S8) end; cbn [dlog log_dev log_start lh_n head_log].
  { done. }
  { rewrite vsize_vinstall. unfold vsize. cbn. lia. }
  { cbn. unfold LOGSIZE. lia. }
  { pose proof (length_vD_vinstall L 0 (hdr_list (blk d L)) (fresh d)) as H. cbn in H.
    unfold NBUF. cbn. lia. }
  exists b4. rewrite E8. split; [reflexivity|exact S8].
Qed.
End Recover.

(** ** Writes that recovery does not see *)
Definition data_write (L size : Z) (w : Z * list Z) : Prop :=
  1 < w.1 < size /\ w.1 <> L /\ length w.2 = BSIZE.

Lemma Forall_apply_writes (P : list Z -> Prop) ws d :
  Forall P d -> Forall (fun w => P w.2) ws -> Forall P (apply_writes ws d).
Proof.
  intros Hd Hws. revert d Hd. induction Hws as [|w ws Hw Hws IH]; intros d Hd; [done|]. cbn.
  apply IH. by apply Forall_insert.
Qed.

(** Writing blocks other than the super block and the log header. *)
Lemma crash_disk_writes L nlog ws d :
  crash_disk L nlog d -> Forall (data_write L (Z.of_nat (length d))) ws ->
  crash_disk L nlog (apply_writes ws d).
Proof.
  intros Hd Hws.
  assert (forall n, n = 1 \/ n = L -> blk (apply_writes ws d) n = blk d n) as E.
  { intros n Hn. apply blk_apply_none; [destruct Hd; lia|].
    eapply list.Forall_impl; [exact Hws|]. intros w ([? ?] & ? & _). lia. }
  destruct Hd. split; rewrite ?length_apply_writes, ?E by auto; auto.
  apply Forall_apply_writes; [done|]. eapply list.Forall_impl; [exact Hws|]. by intros w (_ & _ & ?).
Qed.

(** A header can be replaced by one that makes sense. *)
Lemma crash_disk_head L nlog d h :
  crash_disk L nlog d -> length h = BSIZE -> 0 <= hdr_n h <= nlog - 1 ->
  Forall (home_block L nlog (Z.of_nat (length d))) (hdr_list h) -> NoDup (hdr_list h) ->
  crash_disk L nlog (apply_writes [(L, h)] d).
Proof.
  intros Hd Hh Hn Hhome Hnd.
  assert (blk (apply_writes [(L, h)] d) L = h) as EL by (apply blk_write1_eq; destruct Hd; cbn; lia).
  assert (blk (apply_writes [(L, h)] d) 1 = blk d 1) as E1 by (apply blk_write1_ne; destruct Hd; cbn; lia).
  destruct Hd. split; rewrite ?length_apply_writes, ?E1, ?EL; auto.
  by apply Forall_insert.
Qed.

Section Installs.
Context (L nlog : Z) (d : list (list Z)) (Hd : crash_disk L nlog d).
Let blks : list Z := hdr_list (blk d L).
Let size : Z := Z.of_nat (length d).

(** The writes of recovery. *)
Definition installs : list (Z * list Z) := home_writes L 0 blks (blk d).
Definition clear_head : list Z := put_hdr (blk d L) 0 [].

Lemma length_hdr_list : (Z.of_nat (length blks) = hdr_n (blk d L)).
Proof. unfold blks, hdr_list. rewrite length_fmap, length_seq. destruct Hd. lia. Qed.

Lemma hdr_home b : b ∈ blks -> home_block L nlog size b.
Proof. intros Hb. pose proof (cd_home _ _ _ Hd) as H. rewrite list.Forall_forall in H. auto. Qed.

Lemma log_slot j : (j < length blks)%nat -> L <= L + 1 + Z.of_nat j < L + nlog.
Proof. intros Hj. pose proof length_hdr_list. destruct Hd. lia. Qed.

Lemma blk_length n : 0 <= n < size -> length (blk d n) = BSIZE.
Proof.
  intros Hn. pose proof (cd_blocks _ _ _ Hd) as Hb. unfold blk.
  eapply (Forall_lookup_1 _ _ (Z.to_nat n) _ Hb). apply list_lookup_lookup_total_lt.
  unfold size in Hn. lia.
Qed.

Lemma installs_lookup j w :
  installs !! j = Some w ->
  exists b, blks !! j = Some b /\ w = (b, blk d (L + 1 + Z.of_nat j)).
Proof.
  unfold installs, home_writes. rewrite list_lookup_imap.
  intros (b & Hb & ->)%fmap_Some. exists b. by rewrite Nat.add_0_l.
Qed.

Lemma installs_fst : installs.*1 = blks.
Proof.
  unfold installs, home_writes. apply list_eq. intros i. rewrite list_lookup_fmap, list_lookup_imap.
  by destruct (blks !! i).
Qed.

Lemma installs_data : Forall (data_write L size) installs.
Proof.
  apply Forall_lookup. intros j w (b & Hb & ->)%installs_lookup.
  assert (b ∈ blks) as Hin by (by eapply list_elem_of_lookup_2).
  destruct (hdr_home b Hin) as [? ?]. apply lookup_lt_Some in Hb. pose proof (log_slot j Hb).
  unfold data_write. cbn. destruct Hd. split_and!; try lia. apply blk_length. unfold size in *. lia.
Qed.

Lemma list_find_eq n : 
  match list_find (eq n) blks with
  | Some (j, _) => blks !! j = Some n
  | None => n ∉ blks
  end.
Proof.
  destruct (list_find (eq n) blks) as [[j m]|] eqn:E.
  - apply list_find_Some in E as (Hj & <- & _). done.
  - apply list_find_None in E. intros Hn. rewrite list.Forall_forall in E. by apply (E n Hn).
Qed.

(** Some of the installs change nothing for recovery. *)
Lemma installs_prefix p :
  p `prefix_of` installs ->
  crash_disk L nlog (apply_writes p d) /\
  forall n, home_block L nlog size n -> recovered L (apply_writes p d) n = recovered L d n.
Proof.
  intros [q Hq].
  assert (Forall (data_write L size) p) as Hp.
  { pose proof installs_data as H. rewrite Hq in H. by apply Forall_app in H as [H _]. }
  split; [by apply crash_disk_writes|]. intros n Hn.
  assert (forall m, 0 <= m -> m ∉ blks -> blk (apply_writes p d) m = blk d m) as Hsame.
  { intros m Hm Hnb. apply blk_apply_none; [done|]. apply list.Forall_forall. intros w Hw.
    rewrite list.Forall_forall in Hp. destruct (Hp w Hw) as ([? ?] & _). split; [lia|].
    intros <-. apply Hnb. rewrite <- installs_fst, Hq, fmap_app. apply elem_of_app. left.
    by apply list_elem_of_fmap_2. }
  assert (forall m, L <= m < L + nlog -> m ∉ blks) as Hlogs.
  { intros m Hm Hin. by destruct (hdr_home m Hin). }
  unfold recovered. rewrite (Hsame L) by (destruct Hd; first [lia | apply Hlogs; lia]).
  fold blks. pose proof (list_find_eq n) as Hf. destruct (list_find (eq n) blks) as [[j m]|].
  - apply lookup_lt_Some in Hf. pose proof (log_slot j Hf). apply Hsame; [destruct Hd; lia|]. auto.
  - apply Hsame; [|done]. destruct Hn. lia.
Qed.

(** All of them followed by the cleared header. *)
Lemma installs_done :
  let d' := apply_writes (installs ++ [(L, clear_head)]) d in
  crash_disk L nlog d' /\ hdr_n (blk d' L) = 0 /\
  forall n, home_block L nlog size n ->
    blk d' n = recovered L d n /\ recovered L d' n = recovered L d n.
Proof.
  intros d'. unfold d'. rewrite apply_writes_app.
  assert (length (blk d L) = BSIZE) as Hlen by (apply blk_length; unfold size; destruct Hd; lia).
  assert (length clear_head = BSIZE /\ hdr_n clear_head = 0) as [Hc1 Hc2].
  { unfold clear_head. rewrite hdr_n_put, length_put_hdr; auto; unfold LOGSIZE; lia. }
  assert (hdr_list clear_head = []) as Hc3 by (unfold hdr_list; by rewrite Hc2).
  assert (crash_disk L nlog (apply_writes installs d)) as Hd1.
  { by apply (installs_prefix installs). }
  set (d1 := apply_writes installs d) in *.
  assert (blk (apply_writes [(L, clear_head)] d1) L = clear_head) as EL.
  { apply blk_write1_eq; [|done]. unfold d1. rewrite length_apply_writes. destruct Hd. lia. }
  assert (forall n, home_block L nlog size n ->
    blk (apply_writes [(L, clear_head)] d1) n = recovered L d n) as En.
  { intros n [Hn1 Hn2]. transitivity (blk d1 n).
    { apply blk_write1_ne; cbn; destruct Hd; lia. }
    unfold recovered. fold blks. pose proof (list_find_eq n) as Hf.
    destruct (list_find (eq n) blks) as [[j m]|].
    - apply blk_apply_once; [unfold size in *; lia| | |].
      + eapply list.Forall_impl; [apply installs_data|]. intros w ([? ?] & _). lia.
      + rewrite installs_fst. apply (cd_nodup _ _ _ Hd).
      + apply list_elem_of_lookup_2 with j. unfold installs, home_writes.
        rewrite list_lookup_imap, Hf. cbn. done.
    - apply blk_apply_none; [lia|]. apply list.Forall_forall. intros w Hw.
      pose proof installs_data as H. rewrite list.Forall_forall in H.
      destruct (H w Hw) as ([? ?] & _). split; [lia|]. intros <-. apply Hf.
      rewrite <- installs_fst. by apply list_elem_of_fmap_2. }
  split_and!; auto.
  - apply crash_disk_head; auto; rewrite ?Hc3, ?Hc2; auto using NoDup_nil_2; destruct Hd; lia.
  - by rewrite EL.
  - intros n Hn. split; [by apply En|].
    unfold recovered at 1. rewrite EL, Hc3. cbn. by apply En.
Qed.

(** Any prefix of the writes of recovery. *)
Lemma recovery_prefix p :
  p `prefix_of` installs ++ [(L, clear_head)] ->
  crash_disk L nlog (apply_writes p d) /\
  forall n, home_block L nlog size n -> recovered L (apply_writes p d) n = recovered L d n.
Proof.
  intros [Hp|(p' & -> & [q Hq])]%prefix_app_split; [by apply installs_prefix|].
  destruct p' as [|w p'].
  - rewrite app_nil_r. by apply installs_prefix.
  - injection Hq as <- E. symmetry in E. apply app_nil in E as [-> _].
    destruct installs_done as (H1 & _ & H2). split; [done|]. intros n Hn. by apply H2.
Qed.
End Installs.

(** ** Recovery *)
Lemma recovered_view_writes L nlog d :
  crash_disk L nlog d ->
  recovered_view L nlog d = vwrites (installs L d ++ [(L, clear_head L d)]) (fresh d).
Proof.
  intros Hd. unfold recovered_view. rewrite vinstall_writes.
  - rewrite vwrites_app. cbn. do 2 f_equal. unfold clear_head, put_hdr. cbn. do 2 f_equal.
    rewrite vC_vwrites_none; [done|]. fold (installs L d). rewrite installs_fst.
    intros HL. destruct (hdr_home L nlog d Hd L HL) as [_ []]. destruct Hd. lia.
  - apply list.Forall_forall. intros b Hb j Hj. destruct (hdr_home L nlog d Hd b Hb) as [_ Hn].
    pose proof (log_slot L nlog d Hd j Hj). intros ->. apply Hn. lia.
Qed.

Lemma recover_disk L nlog d :
  crash_disk L nlog d ->
  exists r, recover d = Ok tt r /\ shows (dbio r) (recovered_view L nlog d)
    /\ dlog r = { head_log L nlog d with lh_n := 0 }
    /\ hist (dbio r) = installs L d ++ [(L, clear_head L d)]
    /\ disk (dbio r) = apply_writes (installs L d ++ [(L, clear_head L d)]) d
    /\ (forall n, home_block L nlog (Z.of_nat (length d)) n ->
          blk (disk (dbio r)) n = recovered L d n).
Proof.
  intros Hd. destruct (recover_ok L nlog d Hd) as (b & E & Hs).
  pose proof (vwrites_disk (installs L d ++ [(L, clear_head L d)]) (fresh d)) as [W1 W2].
  rewrite <- (recovered_view_writes L nlog) in W1, W2 by done.
  exists (mk_dsys b { head_log L nlog d with lh_n := 0 }). split; [exact E|]. clear E. cbn [dbio dlog].
  rewrite (shows_hist _ _ Hs), (shows_disk _ _ Hs), W1, W2. split_and!; auto.
  intros n Hn. by apply (installs_done L nlog d Hd).
Qed.

(** C4: recovery is idempotent under crashes.  Booting from a disk with a
    sensible log header succeeds, and if the machine crashes at any point of
    the recovery, booting again from the disk that is left gives every home
    block the contents an undisturbed recovery gives it. *)
Theorem recovery_survives_crashes L nlog d :
  crash_disk L nlog d ->
  exists r, recover d = Ok tt r /\
  forall p, p `prefix_of` hist (dbio r) ->
    exists r', recover (apply_writes p d) = Ok tt r' /\
    forall n, home_block L nlog (Z.of_nat (length d)) n ->
      blk (disk (dbio r')) n = blk (disk (dbio r)) n.
Proof.
  intros Hd. destruct (recover_disk L nlog d Hd) as (r & E & _ & _ & Hh & _ & Hr).
  exists r. split; [exact E|]. clear E. intros p Hp. rewrite Hh in Hp.
  destruct (recovery_prefix L nlog d Hd p Hp) as [Hd' Hsame].
  destruct (recover_disk L nlog _ Hd') as (r' & E' & _ & _ & _ & _ & Hr').
  rewrite length_apply_writes in Hr'. exists r'. split; [exact E'|]. intros n Hn.
  by rewrite Hr', Hr, Hsame.
Qed.

(** ** Commit *)

(** The disk system between file system calls: no buffer is held, the dirty
    blocks are those of the transaction, and the log on the disk is empty. *)
Record log_ok (s : dsys) (a : view) : Prop := {
  lo_shows : shows (dbio s) a;
  lo_shape : log_shape (dlog s) (vsize a);
  lo_dirty : vD a = logged (dlog s);
  lo_disk : crash_disk (log_start (dlog s)) (log_size (dlog s)) (vd a);
  lo_empty : hdr_n (blk (vd a) (log_start (dlog s))) = 0;
}.

Section Commit.
Context (s : dsys) (a : view) (Hok : log_ok s a).
Let l : log := dlog s.
Let L : Z := log_start l.
Let nlog : Z := log_size l.
Let blks : list Z := logged l.
Let size : Z := Z.of_nat (length (vd a)).

Lemma clean_view n : 0 <= n < size -> n ∉ blks -> vC a n = blk (vd a) n.
Proof.
  intros Hn Hb. destruct Hok. pose proof (shows_size _ _ lo_shows0) as Hsz.
  rewrite <- (shows_content _ _ lo_shows0) by (rewrite Hsz; done).
  rewrite clean_block, (shows_disk _ _ lo_shows0); auto; [apply lo_shows0| |by rewrite Hsz].
  by rewrite (shows_dirty _ _ lo_shows0), lo_dirty0.
Qed.

Lemma blks_home b : b ∈ blks -> home_block L nlog size b.
Proof.
  intros Hb. pose proof (shape_home _ _ (lo_shape _ _ Hok)) as H.
  rewrite list.Forall_forall in H. exact (H b Hb).
Qed.

Lemma blks_not_log b j : b ∈ blks -> (j < length blks)%nat -> b <> L + 1 + Z.of_nat j.
Proof.
  intros Hb Hj ->. destruct (blks_home _ Hb) as [_ []].
  pose proof (length_logged _ _ (lo_shape _ _ Hok)) as Hn. fold l blks in Hn.
  destruct (lo_shape _ _ Hok). unfold L, nlog, l in *. lia.
Qed.

(** The writes up to the commit point. *)
Definition log_ws : list (Z * list Z) := log_writes L 0 blks (vC a).
Definition commit_head : list Z := put_hdr (blk (vd a) L) (lh_n l) (lh_block l).
Definition commit_ws : list (Z * list Z) := log_ws ++ [(L, commit_head)].
(** The disk at the commit point. *)
Definition commit_disk : list (list Z) := apply_writes commit_ws (vd a).

Lemma log_ws_lookup j w :
  log_ws !! j = Some w -> exists b, blks !! j = Some b /\ w = (L + 1 + Z.of_nat j, vC a b).
Proof.
  unfold log_ws, log_writes. rewrite list_lookup_imap.
  intros (b & Hb & ->)%fmap_Some. exists b. by rewrite Nat.add_0_l.
Qed.

Lemma length_log_ws : length log_ws = length blks.
Proof. apply length_imap. Qed.

Lemma log_ws_nodup : NoDup (log_ws.*1).
Proof.
  apply NoDup_alt. intros i1 i2 x H1 H2. rewrite list_lookup_fmap in H1, H2.
  apply fmap_Some in H1 as (w1 & H1 & ->). apply fmap_Some in H2 as (w2 & H2 & E).
  apply log_ws_lookup in H1 as (? & _ & ->). apply log_ws_lookup in H2 as (? & _ & ->).
  cbn in E. lia.
Qed.

Lemma log_ws_region w : w ∈ log_ws -> L < w.1 < L + nlog.
Proof.
  intros (j & Hj)%list_elem_of_lookup. apply log_ws_lookup in Hj as (b & Hb & ->). cbn.
  apply lookup_lt_Some in Hb. pose proof (length_logged _ _ (lo_shape _ _ Hok)) as Hn.
  fold l blks in Hn. destruct (lo_shape _ _ Hok). unfold L, nlog, l in *. lia.
Qed.

Lemma log_ws_data : Forall (data_write L size) log_ws.
Proof.
  apply list.Forall_forall. intros w Hw. pose proof (log_ws_region w Hw) as Hr.
  apply list_elem_of_lookup in Hw as (j & Hj). apply log_ws_lookup in Hj as (b & Hb & ->).
  assert (b ∈ blks) as Hin by (by eapply list_elem_of_lookup_2). apply blks_home in Hin as [? _].
  destruct Hok. destruct lo_disk0. pose proof (shows_size _ _ lo_shows0) as Hsz.
  unfold data_write. cbn in *. fold l L in cd_L0. fold l L nlog in cd_end0.
  split_and!; try (unfold size in *; lia).
  rewrite <- (shows_content _ _ lo_shows0) by (rewrite Hsz; unfold vsize, size in *; lia).
  apply content_length; [apply lo_shows0|]. rewrite Hsz. unfold vsize, size in *. lia.
Qed.

(** Before the commit point recovery finds an empty log. *)
Lemma before_commit p :
  p `prefix_of` log_ws ->
  crash_disk L nlog (apply_writes p (vd a)) /\
  forall n, home_block L nlog size n -> recovered L (apply_writes p (vd a)) n = blk (vd a) n.
Proof.
  intros [q Hq].
  assert (forall w, w ∈ p -> w ∈ log_ws) as Hsub by (intros w Hw; rewrite Hq; apply elem_of_app; auto).
  assert (Forall (data_write L size) p) as Hp.
  { pose proof log_ws_data as H. rewrite Hq in H. by apply Forall_app in H as [H _]. }
  assert (forall m, 0 <= m -> ~ (L < m < L + nlog) -> blk (apply_writes p (vd a)) m = blk (vd a) m) as E.
  { intros m Hm Hnl. apply blk_apply_none; [done|]. apply list.Forall_forall. intros w Hw.
    pose proof (log_ws_region w (Hsub w Hw)). destruct Hok. destruct lo_disk0.
    fold l L in cd_L0. split; [lia|]. intros <-. by apply Hnl. }
  pose proof (lo_disk _ _ Hok) as Hd. fold l L nlog in Hd.
  split; [by apply crash_disk_writes|]. intros n [Hn1 Hn2]. unfold recovered.
  assert (hdr_list (blk (apply_writes p (vd a)) L) = []) as ->.
  { rewrite E by (destruct Hd; lia). pose proof (lo_empty _ _ Hok) as E0. fold l L in E0.
    unfold hdr_list. by rewrite E0. }
  cbn. apply E; lia.
Qed.

(** At the commit point the header lists the transaction, whose new contents
    are in the log: recovery finds the contents that the cache shows. *)
Lemma commit_head_ok :
  length commit_head = BSIZE /\ hdr_n commit_head = lh_n l /\ hdr_list commit_head = blks.
Proof.
  pose proof (lo_disk _ _ Hok) as Hd. fold l L nlog in Hd.
  pose proof (lo_shape _ _ Hok) as Hs. fold l in Hs.
  assert (length (blk (vd a) L) = BSIZE) as Hlen
    by (apply (blk_length L nlog _ Hd); destruct Hd; lia).
  assert (0 <= lh_n l <= Z.of_nat LOGSIZE) as Hn by (destruct Hs; unfold LOGSIZE in *; lia).
  assert (hdr_n commit_head = lh_n l) as Hh by (by apply hdr_n_put).
  split_and!; [by apply length_put_hdr|done|].
  unfold hdr_list. rewrite Hh. apply list_eq. intros i. rewrite list_lookup_fmap.
  pose proof (length_logged _ _ Hs) as Hl. fold blks in Hl.
  destruct (decide (i < length blks)%nat) as [Hi|Hi].
  - rewrite lookup_seq_lt by lia. destruct (lookup_lt_is_Some_2 _ _ Hi) as [b Hb]. rewrite Hb. cbn.
    f_equal. apply (hdr_block_put _ _ _ _ b); auto.
    assert (b ∈ blks) as [? _]%blks_home by (by eapply list_elem_of_lookup_2).
    destruct Hd. unfold size in *. lia.
  - rewrite lookup_seq_ge, lookup_ge_None_2 by lia. done.
Qed.

Lemma commit_disk_ok :
  crash_disk L nlog commit_disk /\ hdr_list (blk commit_disk L) = blks
  /\ blk commit_disk L = commit_head
  /\ (forall j b, blks !! j = Some b -> blk commit_disk (L + 1 + Z.of_nat j) = vC a b)
  /\ (forall n, 0 <= n -> ~ (L <= n < L + nlog) -> blk commit_disk n = blk (vd a) n).
Proof.
  destruct commit_head_ok as (Hc1 & Hc2 & Hc3).
  pose proof (lo_disk _ _ Hok) as Hd. fold l L nlog in Hd.
  destruct (before_commit log_ws ltac:(done)) as [Hd1 _].
  unfold commit_disk, commit_ws. rewrite apply_writes_app.
  set (d1 := apply_writes log_ws (vd a)) in *.
  assert (length d1 = length (vd a)) as Hlen by apply length_apply_writes.
  assert (forall n, 0 <= n -> n <> L -> blk (apply_writes [(L, commit_head)] d1) n = blk d1 n) as Hne.
  { intros n Hn HnL. apply blk_write1_ne; cbn; destruct Hd; lia. }
  assert (blk (apply_writes [(L, commit_head)] d1) L = commit_head) as EL.
  { apply blk_write1_eq; [rewrite Hlen|done]. destruct Hd. lia. }
  split_and!.
  - apply crash_disk_head; rewrite ?Hc2, ?Hc3, ?Hlen; auto.
    + pose proof (shape_n _ _ (lo_shape _ _ Hok)). unfold nlog, l. lia.
    + apply list.Forall_forall. apply blks_home.
    + apply (shape_nodup _ _ (lo_shape _ _ Hok)).
  - by rewrite EL.
  - exact EL.
  - intros j b Hb. assert ((L + 1 + Z.of_nat j, vC a b) ∈ log_ws) as Hin.
    { apply list_elem_of_lookup_2 with j. unfold log_ws, log_writes.
      rewrite list_lookup_imap, Hb. cbn. done. }
    pose proof (log_ws_region _ Hin) as Hr. cbn in Hr. rewrite Hne by (destruct Hd; lia).
    apply blk_apply_once; [destruct Hd; lia| | |done].
    + eapply list.Forall_impl; [apply log_ws_data|]. intros w ([? ?] & _). lia.
    + exact log_ws_nodup.
  - intros n Hn Hnl. rewrite Hne by (destruct Hd; lia).
    apply blk_apply_none; [done|]. apply list.Forall_forall. intros w Hw.
    pose proof (log_ws_region w Hw). split; [destruct Hd; lia|]. intros <-. apply Hnl. lia.
Qed.

Lemma commit_recovers n : home_block L nlog size n -> recovered L commit_disk n = vC a n.
Proof.
  intros [Hn1 Hn2]. destruct commit_disk_ok as (_ & Hlist & _ & Hlog & Hother).
  unfold recovered. pose proof (list_find_eq L commit_disk n) as Hf. rewrite Hlist in Hf |- *.
  destruct (list_find (eq n) blks) as [[j m]|].
  - by apply Hlog.
  - rewrite Hother by lia. symmetry. apply clean_view; [lia|done].
Qed.

(** All the writes of [commit]. *)
Definition all_ws : list (Z * list Z) :=
  commit_ws ++ installs L commit_disk ++ [(L, clear_head L commit_disk)].

Lemma L_not_logged : L ∉ blks.
Proof. intros [_ []]%blks_home. pose proof (shape_size _ _ (lo_shape _ _ Hok)). unfold nlog, l. lia. Qed.

Lemma L_not_log_ws : L ∉ log_ws.*1.
Proof. intros (w & -> & Hw)%list_elem_of_fmap. pose proof (log_ws_region w Hw). lia. Qed.

Lemma vcommit_writes : vcommit l a = vwrites all_ws a.
Proof.
  destruct commit_disk_ok as (_ & Hlist & Ehead & Hlog & _).
  pose proof (lo_disk _ _ Hok) as Hd. fold l L nlog in Hd.
  assert (Forall (fun b => forall j, (j < 0 + length blks)%nat -> b <> L + 1 + Z.of_nat j) blks)
    as Hnl'.
  { apply list.Forall_forall. intros b Hb j Hj. by apply blks_not_log. }
  unfold vcommit. fold l L blks. rewrite vwritelog_writes by exact Hnl'. fold log_ws.
  rewrite (vC_vwrites_none log_ws a L L_not_log_ws).
  rewrite (clean_view L) by (first [apply L_not_logged | unfold size; destruct Hd; lia]).
  fold commit_head. set (a2 := vwrite L commit_head (vwrites log_ws a)).
  assert (a2 = vwrites commit_ws a) as E2 by (unfold commit_ws; by rewrite vwrites_app).
  rewrite vinstall_writes by exact Hnl'.
  replace (home_writes L 0 blks (vC a2)) with (installs L commit_disk).
  - rewrite (vC_vwrites_none (installs L commit_disk) a2 L); cycle 1.
    { rewrite installs_fst, Hlist. apply L_not_logged. }
    unfold all_ws. rewrite !vwrites_app, <- E2. cbn. do 2 f_equal. unfold clear_head, put_hdr.
    rewrite Ehead, fn_lookup_insert. done.
  - unfold installs, home_writes. rewrite Hlist. apply imap_ext. intros j b Hb. f_equal.
    rewrite Nat.add_0_l, (Hlog j b Hb). symmetry. unfold a2. cbn.
    rewrite fn_lookup_insert_ne by lia. apply vC_vwrites_once; [exact log_ws_nodup|].
    apply list_elem_of_lookup_2 with j. unfold log_ws, log_writes. rewrite list_lookup_imap, Hb.
    cbn. done.
Qed.

(** The disk a crash leaves after the writes [p] of the commit. *)
Lemma crash_state p :
  p `prefix_of` all_ws ->
  crash_disk L nlog (apply_writes p (vd a)) /\
  forall n, home_block L nlog size n ->
    recovered L (apply_writes p (vd a)) n
    = if decide (length p <= length blks)%nat then blk (vd a) n else vC a n.
Proof.
  intros Hp. unfold all_ws, commit_ws in Hp. rewrite <- app_assoc in Hp.
  apply prefix_app_split in Hp as [Hp|(p' & -> & Hp)].
  { destruct (before_commit p Hp) as [H1 H2]. split; [done|]. intros n Hn.
    apply prefix_length in Hp. rewrite length_log_ws in Hp. rewrite decide_True by done. auto. }
  destruct p' as [|w p'].
  { rewrite app_nil_r. destruct (before_commit log_ws ltac:(done)) as [H1 H2]. split; [done|].
    intros n Hn. rewrite decide_True by (by rewrite length_log_ws). auto. }
  destruct Hp as [q Hq]. cbn in Hq. injection Hq as <- Hq.
  assert (p' `prefix_of` installs L commit_disk ++ [(L, clear_head L commit_disk)]) as Hp'
    by (by exists q).
  replace (log_ws ++ (L, commit_head) :: p') with (commit_ws ++ p')
    by (unfold commit_ws; by rewrite <- app_assoc).
  rewrite apply_writes_app. fold commit_disk. destruct commit_disk_ok as (Hd & _).
  destruct (recovery_prefix L nlog commit_disk Hd p' Hp') as [H1 H2]. split; [done|].
  intros n Hn. assert (Z.of_nat (length commit_disk) = size) as Hsz
    by (unfold commit_disk; by rewrite length_apply_writes).
  rewrite Hsz in H2. rewrite (H2 n Hn), (commit_recovers n Hn).
  rewrite decide_False; [done|]. rewrite length_app. unfold commit_ws.
  rewrite length_app, length_log_ws. cbn. lia.
Qed.

Lemma commit_done n :
  home_block L nlog size n -> blk (apply_writes all_ws (vd a)) n = vC a n.
Proof.
  intros Hn. unfold all_ws. rewrite apply_writes_app. fold commit_disk.
  destruct commit_disk_ok as (Hd & _). destruct (installs_done L nlog commit_disk Hd) as (_ & _ & H).
  assert (Z.of_nat (length commit_disk) = size) as Hsz
    by (unfold commit_disk; by rewrite length_apply_writes).
  rewrite Hsz in H. rewrite (proj1 (H n Hn)). by apply commit_recovers.
Qed.
Lemma all_ws_above : Forall (fun w => 1 < w.1) all_ws.
Proof.
  destruct commit_disk_ok as (Hd & _). pose proof (cd_L _ _ _ Hd).
  unfold all_ws, commit_ws. rewrite !Forall_app, !list.Forall_singleton. split_and!; try (cbn; lia).
  - eapply list.Forall_impl; [exact log_ws_data|]. by intros w ([? _] & _).
  - eapply list.Forall_impl; [exact (installs_data L nlog _ Hd)|]. by intros w ([? _] & _).
Qed.

(** The system after the commit. *)
Lemma committed b :
  shows b (vwrites all_ws a) ->
  log_ok (mk_dsys b { l with lh_n := 0 }) (vwrites all_ws a).
Proof.
  intros Hs. pose proof (vwrites_disk all_ws a) as [W _].
  pose proof (lo_shape _ _ Hok) as Hl. destruct commit_disk_ok as (Hd & Hlist & _).
  split; cbn [dbio dlog]; auto.
  - unfold vsize. rewrite W, length_apply_writes. by apply log_shape_empty.
  - unfold logged. cbn. rewrite take_0. apply elem_of_nil_inv. intros m [Hm Hn]%vD_vwrites.
    rewrite (lo_dirty _ _ Hok) in Hm. apply Hn. unfold all_ws.
    rewrite !fmap_app, !elem_of_app, installs_fst, Hlist. auto.
  - cbn. rewrite W. by apply crash_state.
  - cbn. rewrite W. unfold all_ws. rewrite apply_writes_app.
    by destruct (installs_done L nlog commit_disk Hd) as (_ & H & _).
Qed.
End Commit.

(** [commit] performs its writes in order, keeps the invariant of the log and
    the contents of the blocks outside it. *)
Lemma commit_log_ok s a :
  log_ok s a ->
  exists b a' ws, commit s = Ok tt (mk_dsys b { dlog s with lh_n := 0 })
    /\ log_ok (mk_dsys b { dlog s with lh_n := 0 }) a' /\ vD a' = []
    /\ ws `prefix_of` all_ws s a /\ vd a' = apply_writes ws (vd a) /\ vh a' = vh a ++ ws
    /\ forall n, n = 1 \/ home (dlog s) (vsize a) n -> vC a' n = vC a n.
Proof.
  intros Hok. pose proof Hok as [Hs Hl HD Hd He]. pose proof (shape_n _ _ Hl).
  destruct (decide (lh_n (dlog s) = 0)) as [E|Hne].
  - exists (dbio s), a, []. unfold commit, getlog. dstep0. rewrite E. cbn [Z.ltb Z.compare]. cbv match.
    assert (mk_dsys (dbio s) { dlog s with lh_n := 0 } = s) as ->
      by (destruct s as [? []]; cbn in *; congruence).
    rewrite app_nil_r. split_and!; auto using prefix_nil.
    rewrite HD. unfold logged. by rewrite E, take_0.
  - destruct (commit_ok s a Hs Hl HD) as (b & E & Hs'); [lia|].
    rewrite (vcommit_writes s a Hok) in Hs'. pose proof (committed s a Hok b Hs') as Hok'.
    pose proof (vwrites_disk (all_ws s a) a) as [W W'].
    exists b, (vwrites (all_ws s a) a), (all_ws s a). split_and!; auto.
    + by rewrite (lo_dirty _ _ Hok').
    + intros n Hn. destruct Hd.
      assert (0 <= n < Z.of_nat (length (vd a))) as Hr by (destruct Hn as [->|[? _]]; unfold vsize in *; lia).
      rewrite (clean_view _ _ Hok' n), W;
        [|by rewrite W, length_apply_writes|apply not_elem_of_nil].
      destruct Hn as [->|Hn]; [|by apply (commit_done s a Hok)].
      rewrite (clean_view _ _ Hok 1 Hr).
      * apply blk_apply_none; [lia|]. eapply list.Forall_impl; [by apply all_ws_above|]. cbn. lia.
      * intros [H1 _]%(blks_home _ _ Hok). lia.
Qed.
