(* ===== verification/Cache.v ===== *)
(** * The buffer cache as a disk

    Clients that read and write blocks through the cache cannot tell it from
    the disk: the refinement of the cache to an array of blocks. *)

From S2P Require Import Prelude Bio BioTheory Log LogTheory LogCrash.
Open Scope Z_scope.

(** What a client does with one block. *)
Inductive request :=
| ReadBlock (n : Z)
| WriteBlock (n : Z) (d : list Z).

(** Through the cache: [b = bread(1, n); ... bwrite(b); brelse(b);] *)
Definition serve (q : request) : M bio (list Z) :=
  match q with
  | ReadBlock n => b ← bread 1 n; d ← bdata b; brelse b;; mret d
  | WriteBlock n d => b ← bread 1 n; (bset b d;; bwrite b);; brelse b;; mret d
  end.

Fixpoint serve_all (qs : list request) : M bio (list (list Z)) :=
  match qs with
  | [] => mret []
  | q :: qs => d ← serve q; ds ← serve_all qs; mret (d :: ds)
  end.

(** On an array of blocks. *)
Fixpoint array_all (qs : list request) (d : list (list Z)) : list (list Z) * list (list Z) :=
  match qs with
  | [] => ([], d)
  | ReadBlock n :: qs => let '(ds, d') := array_all qs d in (blk d n :: ds, d')
  | WriteBlock n x :: qs =>
      let '(ds, d') := array_all qs (write1 d (n, x)) in (x :: ds, d')
  end.

Definition in_range (size : Z) (q : request) : Prop :=
  match q with
  | ReadBlock n => 0 <= n < size
  | WriteBlock n d => 0 <= n < size /\ length d = BSIZE
  end.

(** The cache shows an array of blocks when no buffer is dirty. *)
Definition shows_array (s : bio) (d : list (list Z)) : Prop :=
  exists a, shows s a /\ vD a = [] /\ vd a = d.

Lemma shows_array_cont s d n :
  shows_array s d -> 0 <= n < Z.of_nat (length d) -> forall a, shows s a -> vC a n = blk d n.
Proof.
  intros (a0 & H0 & HD0 & <-) Hn a H. pose proof (shows_size _ _ H0) as Hsz. unfold vsize in Hsz.
  rewrite <- (shows_content _ _ H) by lia.
  rewrite clean_block, (shows_disk _ _ H0); [done|apply H0| |lia].
  rewrite (shows_dirty _ _ H0), HD0. apply not_elem_of_nil.
Qed.

Lemma serve_ok s d q :
  shows_array s d -> in_range (Z.of_nat (length d)) q ->
  exists s', serve q s = Ok (match q with ReadBlock n => blk d n | WriteBlock _ x => x end) s'
    /\ shows_array s' (match q with ReadBlock _ => d | WriteBlock n x => write1 d (n, x) end).
Proof.
  intros Hs Hq. pose proof Hs as (a & Ha & HD & Hd).
  assert (length (vD a) < NBUF)%nat as Hroom by (rewrite HD; unfold NBUF; cbn; lia).
  destruct q as [n|n x]; cbn in Hq.
  - destruct (read_block s a n Ha) as (b & s1 & s2 & E1 & E2 & E3 & H2);
      [unfold vsize; by rewrite Hd|done|].
    exists s2. cbn [serve]. rewrite (bind_ok _ _ _ _ _ E1), (bind_ok _ _ _ _ _ E2), (bind_ok _ _ _ _ _ E3).
    rewrite (shows_array_cont s d n Hs Hq a Ha). split; [done|]. by exists a.
  - destruct Hq as [Hn Hx].
    destruct (rewrite_block s a n (fun _ => x) Ha) as (b & s1 & s2 & s3 & E1 & E2 & E3 & E4 & H3);
      [unfold vsize; by rewrite Hd|done|done|].
    exists s3. cbn [serve]. rewrite (bind_ok _ _ _ _ _ E1), (bind_ok _ _ _ _ _ E3), (bind_ok _ _ _ _ _ E4).
    split; [done|]. exists (vwrite n x a). cbn. by rewrite HD, Hd.
Qed.

(** C7: the buffer cache is transparent.  On the cache of a freshly booted
    machine, every sequence of block reads and writes succeeds, whatever
    buffers it recycles, reads what the same sequence reads from a plain array
    of blocks, and leaves the disk with the blocks of that array. *)
Theorem cache_is_transparent d qs :
  Forall (fun b => length b = BSIZE) d -> Z.of_nat (length d) < 2 ^ 31 ->
  Forall (in_range (Z.of_nat (length d))) qs ->
  exists s, (binit;; serve_all qs) (boot_bio d) = Ok (array_all qs d).1 s
    /\ disk s = (array_all qs d).2.
Proof.
  intros Hd Hsz Hqs. destruct (binit_shows d Hd Hsz) as (s0 & E0 & H0).
  rewrite (bind_ok _ _ _ _ _ E0). clear E0.
  assert (shows_array s0 d) as Hs by (by exists (fresh d)). clear H0 Hd Hsz.
  revert s0 d Hs Hqs. induction qs as [|q qs IH]; intros s d Hs Hqs.
  { exists s. split; [done|]. destruct Hs as (a & Ha & _ & <-). apply (shows_disk _ _ Ha). }
  apply list.Forall_cons in Hqs as [Hq Hqs].
  destruct (serve_ok s d q Hs Hq) as (s1 & E1 & H1).
  destruct (IH s1 _ H1) as (s2 & E2 & H2).
  { destruct q; [done|]. unfold write1. by rewrite length_insert. }
  exists s2. cbn [serve_all]. rewrite (bind_ok _ _ _ _ _ E1), (bind_ok _ _ _ _ _ E2).
  destruct q; cbn [array_all] in *; destruct (array_all qs _); done.
Qed.
