(* ===== verification/BlockStore.v ===== *)
(** * The block store: what the log and the buffer cache promise to fs.c

    [BlockStore] is the interface fs.c is written against: [bread], access to
    [b->data], [log_write] and [brelse].  [BlockStoreSpec] states its contract
    in terms of a [sview]: the contents of the blocks, the blocks pending in
    the transaction, and the buffers held.  The log of Log.v over the buffer
    cache of Bio.v is the implementation; the contract is discharged for it at
    the end of the file. *)

From S2P Require Import Prelude Bio BioTheory Log LogTheory LogCrash.
Open Scope Z_scope.

Class BlockStore (S : Type) := {
  st_bread : Z -> Z -> M S nat;              (* device, block number *)
  st_data : nat -> M S (list Z);             (* b->data *)
  st_set : nat -> list Z -> M S unit;        (* b->data = ... *)
  st_log_write : nat -> M S unit;
  st_brelse : nat -> M S unit;
  st_begin_op : M S unit;
  st_end_op : M S unit;
}.

Record sview := mk_sview {
  cont : Z -> list Z;         (* contents of the blocks *)
  pend : list Z;              (* blocks of the transaction *)
  hold : list (nat * Z);      (* buffers held, with their blocks *)
  ops : Z;                    (* file system calls in progress *)
  nblk : Z;                   (* number of blocks of the disk *)
  cap : nat;                  (* how many blocks a transaction can have *)
  wr : Z -> Prop;             (* blocks that may be logged *)
  ondisk : list (list Z);     (* the blocks of the disk *)
  past : list (Z * list Z);   (* the writes to the disk so far *)
}.

(** A block added to a transaction. *)
Definition add_pend (n : Z) (D : list Z) : list Z := if decide (n ∈ D) then D else D ++ [n].

(** The view with a new set of held buffers, and after block [n] was given the
    contents [d] in the transaction. *)
Definition holding_now (hs : list (nat * Z)) (v : sview) : sview := { v with hold := hs }.
Definition written (n : Z) (d : list Z) (v : sview) : sview :=
  { v with cont := <[n := d]> (cont v); pend := add_pend n (pend v) }.

(** The view after a commit that wrote [ws]. *)
Definition closed (c : Z -> list Z) (ws : list (Z * list Z)) (v : sview) : sview :=
  { v with cont := c; pend := []; ops := 0; ondisk := apply_writes ws (ondisk v);
           past := past v ++ ws }.

Class BlockStoreSpec (S : Type) `{BlockStore S} := {
  stands : S -> sview -> Prop;
  law_length : forall s v n, stands s v -> 0 <= n < nblk v -> length (cont v n) = BSIZE;
  law_nodup : forall s v, stands s v -> NoDup (pend v);
  law_bread : forall s v n, stands s v -> 0 <= n < nblk v -> n ∉ (hold v).*2 ->
    n ∈ pend v \/ (length (hold v) + length (pend v) < NBUF)%nat ->
    exists b s', st_bread 1 n s = Ok b s' /\ (b ∉ (hold v).*1)
      /\ stands s' (holding_now ((b, n) :: hold v) v);
  law_data : forall s v b n, stands s v -> (b, n) ∈ hold v -> st_data b s = Ok (cont v n) s;
  law_log_write : forall s v b n d, stands s v -> (b, n) ∈ hold v -> length d = BSIZE ->
    wr v n -> 1 <= ops v -> (length (pend v) < cap v)%nat ->
    exists s', (st_set b d;; st_log_write b) s = Ok tt s' /\ stands s' (written n d v);
  law_brelse : forall s v b n hs, stands s v -> Permutation (hold v) ((b, n) :: hs) ->
    exists s', st_brelse b s = Ok tt s' /\ stands s' (holding_now hs v);
  law_begin_op : forall s v, stands s v ->
    Z.of_nat (length (pend v)) + (ops v + 1) * MAXOPBLOCKS <= Z.of_nat LOGSIZE ->
    exists s', st_begin_op s = Ok tt s' /\ stands s' { v with ops := ops v + 1 };
  law_end_op : forall s v, stands s v -> 1 < ops v ->
    exists s', st_end_op s = Ok tt s' /\ stands s' { v with ops := ops v - 1 };
  law_commit : forall s v, stands s v -> ops v = 1 -> hold v = [] ->
    exists s' c ws, st_end_op s = Ok tt s' /\ (forall n, n = 1 \/ wr v n -> c n = cont v n)
      /\ stands s' (closed c ws v);
}.
Arguments stands : simpl never.

(** ** The log over the buffer cache *)
#[export] Instance dsys_store : BlockStore dsys := {
  st_bread := fun dev n => on_bio (bread dev n);
  st_data := fun b => on_bio (bdata b);
  st_set := fun b d => on_bio (bset b d);
  st_log_write := log_write;
  st_brelse := fun b => on_bio (brelse b);
  st_begin_op := begin_op;
  st_end_op := end_op;
}.

(** A disk system that is not in the middle of a commit. *)
Record in_trans (s : dsys) (v : sview) : Prop := {
  it_bio : bio_ok (dbio s);
  it_shape : log_shape (dlog s) (disksize (dbio s));
  it_cont : forall m, 0 <= m < disksize (dbio s) -> content (dbio s) m = cont v m;
  it_pend : pend v = logged (dlog s);
  it_dirty : forall m, dirty (dbio s) m <-> m ∈ pend v;
  it_hold : forall i m, held (dbio s) i m <-> (i, m) ∈ hold v;
  it_nodup : NoDup (hold v);
  it_nblk : nblk v = disksize (dbio s);
  it_cap : Z.of_nat (cap v) = log_size (dlog s) - 1;
  it_ops : outstanding (dlog s) = ops v;
  it_ops_pos : 0 <= ops v;
  it_committing : committing (dlog s) = 0;
  it_wr : forall n, wr v n <-> home (dlog s) (disksize (dbio s)) n;
  it_disk : ondisk v = disk (dbio s);
  it_past : past v = hist (dbio s);
  it_crash : crash_disk (log_start (dlog s)) (log_size (dlog s)) (disk (dbio s));
  it_empty : hdr_n (blk (disk (dbio s)) (log_start (dlog s))) = 0;
}.

(** A handle is held for one block only, and a block by one handle. *)
Lemma held_unique s i m m' : held s i m -> held s i m' -> m = m'.
Proof. intros (x & (_ & Hx & _ & <-) & _) (y & (_ & Hy & _ & <-) & _). by simplify_eq. Qed.
Lemma held_block_unique s i j m : bio_ok s -> held s i m -> held s j m -> i = j.
Proof. intros Hok (x & Hx & _) (y & Hy & _). exact (ok_unique s Hok _ _ _ _ _ Hx Hy). Qed.

(** ** [log_write] *)
Lemma absorb_spec blks blockno n i :
  Forall (fun b => u32 b = b) (take n blks) -> (n <= length blks)%nat ->
  exists j, absorb blks blockno n i = (i + j)%nat /\
    ((take n blks !! j = Some blockno) \/ (j = n /\ blockno ∉ take n blks)).
Proof.
  revert blks i. induction n as [|n IH]; intros blks i Hb Hn.
  { exists 0%nat. split; [destruct blks; cbn; lia|]. right. split; [done|].
    rewrite take_0. apply not_elem_of_nil. }
  destruct blks as [|b blks]; [cbn in Hn; lia|]. cbn [take absorb] in *.
  apply list.Forall_cons in Hb as [Hb Hbs]. rewrite Hb.
  destruct (Z.eqb_spec b blockno) as [->|Hne].
  - exists 0%nat. split; [lia|]. by left.
  - destruct (IH blks (S i) Hbs) as (j & -> & Hj); [cbn in Hn; lia|].
    exists (S j). split; [lia|]. destruct Hj as [Hj|[-> Hj]]; [by left|right].
    split; [done|]. apply not_elem_of_cons. split; congruence.
Qed.

(** The log structure after block [n] was logged. *)
Lemma log_write_log l size n :
  log_shape l size -> home l size n -> lh_n l < log_size l - 1 ->
  let i := absorb (lh_block l) n (Z.to_nat (lh_n l)) 0 in
  let l1 := { l with lh_block := <[i := n]> (lh_block l) } in
  let l2 := if Z.of_nat i =? lh_n l then { l1 with lh_n := lh_n l + 1 } else l1 in
  log_shape l2 size /\ logged l2 = add_pend n (logged l).
Proof.
  intros Hl Hn Hlt. cbv zeta.
  assert (Forall (fun b => u32 b = b) (take (Z.to_nat (lh_n l)) (lh_block l))) as Hu.
  { apply Forall_lookup. intros j b Hb. by apply (logged_home l size Hl j b). }
  assert (lh_n l < Z.of_nat LOGSIZE) as HlL by (destruct Hl; lia).
  destruct (absorb_spec (lh_block l) n (Z.to_nat (lh_n l)) 0 Hu) as (j & -> & Hj);
    [destruct Hl; lia|]. cbn [Nat.add]. unfold add_pend. fold (logged l) in Hj.
  destruct Hj as [Hj|[-> Hnot]].
  - rewrite decide_True by (by eapply list_elem_of_lookup_2).
    pose proof (lookup_lt_Some _ _ _ Hj) as Hjl. pose proof (length_logged _ _ Hl).
    rewrite (proj2 (Z.eqb_neq _ _)) by lia.
    rewrite list_insert_id by (by apply (logged_lookup l)).
    replace { l with lh_block := lh_block l } with l by (by destruct l). done.
  - rewrite decide_False by done. rewrite Z2Nat.id, Z.eqb_refl by (destruct Hl; lia).
    match goal with |- log_shape ?l' _ /\ _ => set (l2 := l') end.
    assert (logged l2 = logged l ++ [n]) as Hlog.
    { unfold logged, l2. cbn. replace (Z.to_nat (lh_n l + 1)) with (S (Z.to_nat (lh_n l)))
        by (destruct Hl; lia).
      rewrite (take_S_r _ _ n) by (apply list_lookup_insert_eq; destruct Hl; lia).
      by rewrite take_insert_ge by lia. }
    split; [|done]. destruct Hl. split; try done; try (cbn; lia).
    + cbn. by rewrite length_insert.
    + rewrite Hlog. apply Forall_app_2; [done|]. by apply list.Forall_singleton.
    + rewrite Hlog. apply list.NoDup_app. split; [done|]. split; [|apply NoDup_singleton].
      intros x Hx ->%list_elem_of_singleton. done.
Qed.

(** [in_trans] when only the cache changed, keeping its view. *)
Lemma in_trans_cache s v b' hs :
  in_trans s v -> bio_ok b' -> same_view (dbio s) b' -> NoDup hs ->
  (forall i m, held b' i m <-> (i, m) ∈ hs) ->
  in_trans { s with dbio := b' } (holding_now hs v).
Proof.
  intros Hs Hok (HC & HD & HK & HY) Hnd Hh.
  assert (disksize b' = disksize (dbio s)) as Hsz by (unfold disksize; by rewrite HK).
  destruct Hs. split; cbn; auto.
  - by rewrite Hsz.
  - intros m Hm. rewrite Hsz in Hm. rewrite HC by done. by apply it_cont0.
  - intros m. by rewrite HD.
  - by rewrite Hsz.
  - intros n. rewrite Hsz. apply it_wr0.
  - by rewrite HK.
  - by rewrite HY.
  - by rewrite HK.
  - by rewrite HK.
Qed.

Lemma dsys_bread s v n :
  in_trans s v -> 0 <= n < nblk v -> n ∉ (hold v).*2 ->
  n ∈ pend v \/ (length (hold v) + length (pend v) < NBUF)%nat ->
  exists b s', on_bio (bread 1 n) s = Ok b s' /\ (b ∉ (hold v).*1)
    /\ in_trans s' (holding_now ((b, n) :: hold v) v).
Proof.
  intros Hs Hn Hnh Hroom. pose proof Hs as [].
  destruct (bread_room (dbio s) n ((hold v).*2 ++ pend v)) as (b & b' & E & Hok & V & Hfree & Hh).
  - done.
  - by rewrite <- it_nblk0.
  - intros i Hi%it_hold0. apply Hnh. by apply (list_elem_of_fmap_2 snd) in Hi.
  - intros i m Hi%it_hold0. apply elem_of_app. left. by apply (list_elem_of_fmap_2 snd) in Hi.
  - intros m Hm%it_dirty0. apply elem_of_app. by right.
  - rewrite it_dirty0, length_app, length_fmap. done.
  - assert (b ∉ (hold v).*1) as Hb.
    { intros ([b1 m] & -> & Hm)%list_elem_of_fmap. apply (Hfree m). by apply it_hold0. }
    exists b, { s with dbio := b' }. split; [by apply on_bio_ok|]. split; [done|].
    apply (in_trans_cache s v); auto.
    + apply list.NoDup_cons. split; [|done]. intros Hin. apply Hb.
      by apply (list_elem_of_fmap_2 fst) in Hin.
    + intros i m. rewrite Hh, elem_of_cons, it_hold0. naive_solver.
Qed.

Lemma dsys_data s v b n :
  in_trans s v -> (b, n) ∈ hold v -> on_bio (bdata b) s = Ok (cont v n) s.
Proof.
  intros Hs Hb. destruct Hs. apply it_hold0 in Hb as Hh.
  rewrite <- it_cont0 by (by eapply held_range).
  erewrite on_bio_ok by (by apply bdata_spec). by destruct s.
Qed.

Lemma dsys_brelse s v b n hs :
  in_trans s v -> Permutation (hold v) ((b, n) :: hs) ->
  exists s', on_bio (brelse b) s = Ok tt s' /\ in_trans s' (holding_now hs v).
Proof.
  intros Hs Hp. pose proof Hs as [].
  assert (held (dbio s) b n) as Hh by (apply it_hold0; rewrite Hp; by left).
  destruct (brelse_spec (dbio s) b n it_bio0 Hh) as (b' & E & Hok & V & Hh').
  exists { s with dbio := b' }. split; [by apply on_bio_ok|].
  rewrite Hp in it_nodup0. apply list.NoDup_cons in it_nodup0 as [Hnot Hnd].
  apply (in_trans_cache s v); auto.
  intros i m. rewrite Hh', it_hold0, Hp, elem_of_cons. split.
  - intros [[?|?] Hne]; [congruence|done].
  - intros Hin. split; [by right|]. intros ->. apply Hnot.
    replace n with m; [done|]. apply (held_unique (dbio s) b); [|done].
    apply it_hold0. rewrite Hp. by right.
Qed.

(** [in_trans] after block [n] was given the contents [d] and logged. *)
Lemma in_trans_logged s v n d b2 l2 :
  in_trans s v -> bio_ok b2 -> stored (dbio s) b2 n d ->
  (forall m, dirty b2 m <-> dirty (dbio s) m \/ m = n) -> disk b2 = disk (dbio s) -> hist b2 = hist (dbio s) ->
  log_shape l2 (disksize (dbio s)) -> logged l2 = add_pend n (logged (dlog s)) ->
  log_start l2 = log_start (dlog s) -> log_size l2 = log_size (dlog s) ->
  outstanding l2 = outstanding (dlog s) -> committing l2 = committing (dlog s) ->
  in_trans (mk_dsys b2 l2) (written n d v).
Proof.
  intros [] Hok (HC & HH & HZ) HD HK HY Hl Hlog F1 F2 F3 F4.
  split; cbn; rewrite ?HZ, ?F1, ?F2, ?F3, ?F4, ?HK, ?HY; auto.
  - intros m Hm. rewrite HC by done. destruct (decide (m = n)) as [->|Hne].
    + by rewrite fn_lookup_insert.
    + rewrite fn_lookup_insert_ne by done. auto.
  - by rewrite it_pend0.
  - intros m. rewrite HD, it_dirty0. unfold add_pend. destruct (decide (n ∈ pend v)).
    + naive_solver.
    + rewrite elem_of_app, list_elem_of_singleton. done.
  - intros i m. by rewrite HH.
  - intros m. rewrite it_wr0. unfold home, in_log. by rewrite F1, F2.
Qed.

Lemma dsys_log_write s v b n d :
  in_trans s v -> (b, n) ∈ hold v -> length d = BSIZE -> wr v n -> 1 <= ops v ->
  (length (pend v) < cap v)%nat ->
  exists s', (on_bio (bset b d);; log_write b) s = Ok tt s' /\ in_trans s' (written n d v).
Proof.
  intros Hs Hb Hd Hw Hop Hcap. pose proof Hs as [].
  apply it_hold0 in Hb as Hh. apply it_wr0 in Hw as Hhome.
  destruct (pin_spec (dbio s) b n d it_bio0 Hh Hd) as (b2 & E & Hok & Hst & HD & HK & HY).
  apply bind_inv_ok in E as ([] & b1 & E1 & E2).
  destruct Hh as (x & (Hi & Hx & Hdev & Hbn) & Hlk).
  assert (getb b b1 = Ok { x with b_data := d } b1) as Hg.
  { unfold bset in E1. rewrite (setb_ok _ _ _ _ Hx) in E1. injection E1 as <-.
    apply getb_ok, (lookup_setb _ _ x), Hx. }
  assert (lh_n (dlog s) < log_size (dlog s) - 1) as Hlt.
  { pose proof (length_logged _ _ it_shape0). rewrite it_pend0 in Hcap. lia. }
  destruct (log_write_log (dlog s) _ n it_shape0 Hhome Hlt) as [Hl2 Hlog2].
  dstep E1. unfold log_write, getlog. dstep0. cbn [dlog].
  change (dlog { s with dbio := b1 }) with (dlog s).
  replace ((Z.of_nat LOGSIZE <=? lh_n (dlog s)) || (log_size (dlog s) - 1 <=? lh_n (dlog s))) with false.
  2: { symmetry. apply orb_false_intro; apply Z.leb_gt; destruct it_shape0; unfold LOGSIZE in *; lia. }
  rewrite (proj2 (Z.ltb_ge _ _)) by lia. dstep Hg.
  change (b_blockno { x with b_data := d }) with (b_blockno x). rewrite Hbn.
  destruct Hhome as [Hrange _]. rewrite s32_small by (destruct it_shape0; lia). dstep0.
  set (i := absorb _ _ _ _) in *. set (l2 := if _ =? _ then _ else _) in Hl2, Hlog2.
  assert (log_start l2 = log_start (dlog s) /\ log_size l2 = log_size (dlog s)
          /\ outstanding l2 = outstanding (dlog s) /\ committing l2 = committing (dlog s))
    as (F1 & F2 & F3 & F4) by (unfold l2; destruct (_ =? _); done).
  exists (mk_dsys b2 l2). split.
  - erewrite bind_ok with (a := tt) (s' := mk_dsys b1 l2).
    + by erewrite on_bio_ok by exact E2.
    + unfold l2. by destruct (_ =? _).
  - apply (in_trans_logged s v); auto.
Qed.

Lemma dsys_nodup s v : in_trans s v -> NoDup (pend v).
Proof. intros []. rewrite it_pend0. by apply (shape_nodup _ _ it_shape0). Qed.
Lemma dsys_length s v n : in_trans s v -> 0 <= n < nblk v -> length (cont v n) = BSIZE.
Proof.
  intros [] Hn. rewrite <- it_cont0 by (by rewrite <- it_nblk0).
  apply content_length; [done|]. by rewrite <- it_nblk0.
Qed.

(** ** [begin_op] and [end_op] *)
Lemma dsys_begin_op s v :
  in_trans s v -> Z.of_nat (length (pend v)) + (ops v + 1) * MAXOPBLOCKS <= Z.of_nat LOGSIZE ->
  exists s', begin_op s = Ok tt s' /\ in_trans s' { v with ops := ops v + 1 }.
Proof.
  intros Hs Hroom. pose proof Hs as []. unfold begin_op, getlog. dstep0.
  rewrite it_committing0, it_ops0. change (ctrue 0) with false. cbv match.
  pose proof (length_logged _ _ it_shape0). rewrite it_pend0 in Hroom.
  rewrite (proj2 (Z.ltb_ge _ _)) by lia.
  eexists. split; [reflexivity|].
  split; cbn; rewrite ?it_ops0; auto; try lia; by destruct it_shape0.
Qed.

(** Without held buffers, [in_trans] is the invariant of the log. *)
Definition quiet_view (s : dsys) (v : sview) : view :=
  mk_view (cont v) (pend v) (ondisk v) (past v).

Lemma in_trans_log_ok s v : in_trans s v -> hold v = [] -> log_ok s (quiet_view s v).
Proof.
  intros [] Hh. split; cbn; rewrite ?it_disk0; auto.
  - split; cbn; auto. intros i m. rewrite it_hold0, Hh. apply not_elem_of_nil.
  - unfold vsize. cbn. by rewrite it_disk0.
Qed.

Lemma log_ok_in_trans s a v :
  log_ok s a -> nblk v = disksize (dbio s) -> Z.of_nat (cap v) = log_size (dlog s) - 1 ->
  (forall n, wr v n <-> home (dlog s) (disksize (dbio s)) n) -> 0 <= outstanding (dlog s) ->
  committing (dlog s) = 0 ->
  in_trans s { v with cont := vC a; pend := vD a; hold := []; ops := outstanding (dlog s);
                      ondisk := vd a; past := vh a }.
Proof.
  intros [Hs Hl HD Hd He] Hn Hcap Hw Ho Hc. pose proof (shows_size _ _ Hs) as Hsz.
  pose proof Hs as []. split; cbn; rewrite ?Hsz; auto.
  - intros m Hm. apply shows_content. by rewrite Hsz.
  - intros i m. split; [by intros ?%shows_quiet|by intros ?%not_elem_of_nil].
  - constructor.
  - by rewrite <- Hsz.
  - intros n. rewrite Hw. by rewrite Hsz.
  - by rewrite shows_disk.
  - by rewrite shows_disk.
Qed.

(** [end_op] of a call that is not the last one, and of the last one. *)
Definition set_ops (n : Z) (s : dsys) : dsys :=
  mk_dsys (dbio s) { dlog s with outstanding := n }.
Definition set_committing (n : Z) (s : dsys) : dsys :=
  mk_dsys (dbio s) { dlog s with committing := n }.

Lemma end_op_more s :
  committing (dlog s) = 0 -> 1 < outstanding (dlog s) ->
  end_op s = Ok tt (set_ops (outstanding (dlog s) - 1) s).
Proof.
  destruct s as [b []]. cbn. intros -> Ho. unfold end_op, setlog, getlog. do 2 dstep0. cbn -[Z.eqb Z.sub].
  by rewrite (proj2 (Z.eqb_neq _ _)) by lia.
Qed.

Lemma end_op_last s :
  committing (dlog s) = 0 -> outstanding (dlog s) = 1 ->
  end_op s = (commit;; setlog (fun l => { l with committing := 0 })) (set_committing 1 (set_ops 0 s)).
Proof. destruct s as [b []]. cbn. by intros -> ->. Qed.

Lemma log_ok_ops s a n : log_ok s a -> log_ok (set_ops n s) a.
Proof. intros [? [] ? ? ?]. by split; auto; split. Qed.
Lemma log_ok_committing s a n : log_ok s a -> log_ok (set_committing n s) a.
Proof. intros [? [] ? ? ?]. by split; auto; split. Qed.

Lemma dsys_end_op s v :
  in_trans s v -> 1 < ops v ->
  exists s', end_op s = Ok tt s' /\ in_trans s' { v with ops := ops v - 1 }.
Proof.
  intros [] Ho. rewrite end_op_more by lia. eexists. split; [reflexivity|].
  split; cbn; rewrite ?it_ops0; auto; try lia; by destruct it_shape0.
Qed.

(** The commit of the last call: every prefix of its writes leaves a disk from
    which recovery finds the blocks as they were on the disk, or all of them as
    the cache showed them. *)
Lemma end_op_commit s v :
  in_trans s v -> ops v = 1 -> hold v = [] ->
  exists s' c ws, end_op s = Ok tt s'
    /\ (forall n, n = 1 \/ wr v n -> c n = cont v n)
    /\ in_trans s' (closed c ws v)
    /\ forall p, p `prefix_of` ws ->
       exists r, recover (apply_writes p (ondisk v)) = Ok tt r /\
       forall n, wr v n ->
         blk (disk (dbio r)) n = if decide (length p <= length (pend v))%nat
                                 then blk (ondisk v) n else cont v n.
Proof.
  intros Hs Ho Hh. pose proof Hs as []. pose proof (in_trans_log_ok s v Hs Hh) as Hok.
  rewrite end_op_last by congruence. apply (log_ok_ops _ _ 0), (log_ok_committing _ _ 1) in Hok.
  destruct (commit_log_ok _ _ Hok) as (b & a' & ws & E & Hok' & HD & Hws & Hd & Hy & HC).
  rewrite (bind_ok _ _ _ _ _ E). clear E. eexists _, (vC a'), ws. split; [reflexivity|].
  assert (vsize (quiet_view s v) = disksize (dbio s)) as Hsz
    by (unfold vsize, disksize; cbn; by rewrite it_disk0).
  assert (forall n, wr v n <-> home_block (log_start (dlog s)) (log_size (dlog s)) (disksize (dbio s)) n)
    as Hw by (intros n; by rewrite it_wr0).
  rewrite Hsz in HC. split_and!.
  - intros n Hn. rewrite it_wr0 in Hn. exact (HC n Hn).
  - apply (log_ok_committing _ _ 0) in Hok'. cbn in Hok'.
    assert (disksize b = disksize (dbio s)) as Hb.
    { pose proof (shows_size _ _ (lo_shows _ _ Hok')) as Hbs. cbn in Hbs. rewrite Hbs. unfold vsize.
      by rewrite Hd, length_apply_writes. }
    eapply (log_ok_in_trans _ _ v) in Hok'; cbn; rewrite ?Hb; auto; [|lia].
    rewrite HD, Hd, Hy in Hok'. destruct v. cbn in Hh. subst. exact Hok'.
  - intros p Hp. destruct (crash_state _ _ Hok p) as [Hcd Hrec]; [by etrans|]. cbn in Hcd, Hrec.
    destruct (recover_disk _ _ _ Hcd) as (r & Er & _ & _ & _ & _ & Hr). exists r. split; [exact Er|].
    clear Er. intros n Hn%Hw. unfold disksize in Hn. rewrite <- it_disk0 in Hn.
    rewrite Hr by (by rewrite length_apply_writes). rewrite Hrec by done. by rewrite it_pend0.
Qed.

Lemma dsys_commit s v :
  in_trans s v -> ops v = 1 -> hold v = [] ->
  exists s' c ws, end_op s = Ok tt s' /\ (forall n, n = 1 \/ wr v n -> c n = cont v n)
    /\ in_trans s' (closed c ws v).
Proof.
  intros Hs Ho Hh. destruct (end_op_commit s v Hs Ho Hh) as (s' & c & ws & E & HC & Hs' & _). by exists s', c, ws.
Qed.

#[export] Instance dsys_store_spec : BlockStoreSpec dsys := {
  stands := in_trans;
  law_length := dsys_length;
  law_nodup := dsys_nodup;
  law_bread := dsys_bread;
  law_data := dsys_data;
  law_log_write := dsys_log_write;
  law_brelse := dsys_brelse;
  law_begin_op := dsys_begin_op;
  law_end_op := dsys_end_op;
  law_commit := dsys_commit;
}.
