(* ===== verification/Transaction.v ===== *)
(** * Transactions

    A file system call as the log sees it: [begin_op], a sequence of block
    updates through the cache, [end_op].  The file proves that such a call on a
    freshly booted machine is atomic with respect to crashes, from the state of
    the disk only. *)

From S2P Require Import Prelude Bio BioTheory Log LogTheory LogCrash BlockStore.
Open Scope Z_scope.

Section Update.
Context {S : Type} `{BlockStoreSpec S}.

(** What a file system call does to block [u.1], as in [bp = bread(dev, n);
    ... log_write(bp); brelse(bp);] *)
Definition update (u : Z * list Z) : M S unit :=
  b ← st_bread 1 u.1;
  (st_set b u.2;; st_log_write b);;
  st_brelse b.

Definition transaction (us : list (Z * list Z)) : M S unit :=
  st_begin_op;; for_each us update;; st_end_op.

Definition updates (us : list (Z * list Z)) (C : Z -> list Z) : Z -> list Z :=
  foldl (fun C u => <[u.1 := u.2]> C) C us.

Lemma updates_ext us C C' n : C n = C' n -> updates us C n = updates us C' n.
Proof.
  revert C C'. induction us as [|u us IH]; intros C C' E; [done|]. cbn. apply IH.
  destruct (decide (n = u.1)) as [->|Hne]; [by rewrite !fn_lookup_insert|].
  by rewrite !fn_lookup_insert_ne.
Qed.

Definition may_write (v : sview) (u : Z * list Z) : Prop :=
  0 <= u.1 < nblk v /\ wr v u.1 /\ length u.2 = BSIZE.

Lemma length_add_pend n D : (length (add_pend n D) <= length D + 1)%nat.
Proof. unfold add_pend. destruct (decide _); rewrite ?length_app; cbn; lia. Qed.

Lemma update_ok s v u :
  stands s v -> hold v = [] -> may_write v u -> 1 <= ops v ->
  (length (pend v) < cap v)%nat -> (length (pend v) < NBUF)%nat ->
  exists s', update u s = Ok tt s' /\ stands s' (written u.1 u.2 v).
Proof.
  intros Hs Hh (Hn & Hw & Hl) Ho Hc Hb.
  destruct (law_bread s v u.1 Hs Hn) as (b & s1 & E1 & _ & H1).
  { rewrite Hh. apply not_elem_of_nil. }
  { rewrite Hh. by right. }
  destruct (law_log_write s1 _ b u.1 u.2 H1) as (s2 & E2 & H2); auto.
  { by left. }
  destruct (law_brelse s2 _ b u.1 [] H2) as (s3 & E3 & H3).
  { cbn. by rewrite Hh. }
  exists s3. unfold update. rewrite (bind_ok _ _ _ _ _ E1), (bind_ok _ _ _ _ _ E2).
  split; [done|]. destruct v. cbn in Hh. by subst.
Qed.

(** A sequence of updates, without the blocks of the transaction. *)
Lemma updates_ok us s v :
  stands s v -> hold v = [] -> Forall (may_write v) us -> 1 <= ops v ->
  (length (pend v) + length us <= cap v)%nat -> (length (pend v) + length us <= NBUF)%nat ->
  exists s' D, for_each us update s = Ok tt s'
    /\ stands s' { v with cont := updates us (cont v); pend := D }.
Proof.
  revert s v. induction us as [|u us IH]; intros s v Hs Hh Hus Ho Hc Hb.
  { exists s, (pend v). split; [done|]. by destruct v. }
  apply list.Forall_cons in Hus as [Hu Hus]. cbn [length] in Hc, Hb.
  destruct (update_ok s v u Hs Hh Hu Ho) as (s1 & E1 & H1); [lia..|].
  pose proof (length_add_pend u.1 (pend v)) as Hlen.
  destruct (IH s1 _ H1) as (s2 & D & E2 & H2); auto; [cbn; lia..|].
  exists s2, D. cbn [for_each]. rewrite (bind_ok _ _ _ _ _ E1). split; [exact E2|]. by destruct v.
Qed.
End Update.

(** ** On the booted machine *)

(** The state after recovery. *)
Definition booted (L nlog : Z) (r : dsys) : sview :=
  mk_sview (content (dbio r)) [] [] 0 (disksize (dbio r)) (Z.to_nat (nlog - 1))
    (home_block L nlog (disksize (dbio r))) (disk (dbio r)) (hist (dbio r)).

Lemma recover_in_trans L nlog d :
  crash_disk L nlog d ->
  exists r, recover d = Ok tt r /\ disksize (dbio r) = Z.of_nat (length d)
    /\ in_trans r (booted L nlog r).
Proof.
  intros Hd. destruct (recover_disk L nlog d Hd) as (r & E & Hs & Hl & Hh & Hk & Hr).
  pose proof (head_log_shape L nlog d Hd) as Hshape.
  assert (disksize (dbio r) = Z.of_nat (length d)) as Hsz
    by (unfold disksize; by rewrite Hk, length_apply_writes).
  exists r. split; [exact E|]. clear E. split; [done|].
  destruct (installs_done L nlog d Hd) as (Hd' & He & _). rewrite <- Hk in Hd', He.
  pose proof Hs as []. split; cbn; rewrite ?Hl, ?Hsz; auto.
  - by apply log_shape_empty.
  - intros m. rewrite shows_dirty, (recovered_view_writes L nlog) by done. rewrite vD_vwrites. cbn.
    rewrite elem_of_nil. tauto.
  - intros i m. rewrite elem_of_nil. split; [apply shows_quiet|done].
  - constructor.
  - destruct Hd. cbn. lia.
  - lia.
Qed.

(** A block that is not pending is on the disk as the cache shows it. *)
Lemma in_trans_clean s v n :
  in_trans s v -> 0 <= n < nblk v -> n ∉ pend v -> blk (ondisk v) n = cont v n.
Proof.
  intros Hs Hn Hp. rewrite (it_nblk _ _ Hs) in Hn.
  rewrite <- (it_cont _ _ Hs), clean_block, (it_disk _ _ Hs); auto.
  - apply (it_bio _ _ Hs).
  - by rewrite (it_dirty _ _ Hs).
Qed.

(** C1: a file system call is atomic with respect to crashes.  On a machine
    booted from a disk with a sensible log, a call that updates blocks inside
    [begin_op] and [end_op] succeeds and leaves its updates on the disk; if the
    machine crashes after any number [p] of the block writes the call
    performs, booting from the disk that is left succeeds and finds every block
    of the file system (all but the boot block, the super block and the log) as
    it was before the call, or every such block as the call left it. *)
Theorem transaction_is_atomic L nlog d us :
  crash_disk L nlog d ->
  Forall (fun u => home_block L nlog (Z.of_nat (length d)) u.1 /\ length u.2 = BSIZE) us ->
  Z.of_nat (length us) <= nlog - 1 ->
  let home := home_block L nlog (Z.of_nat (length d)) in
  exists r s ws, recover d = Ok tt r /\ transaction us r = Ok tt s
    /\ hist (dbio s) = hist (dbio r) ++ ws
    /\ (forall n, home n -> blk (disk (dbio s)) n = updates us (blk (disk (dbio r))) n)
    /\ forall p, p `prefix_of` ws ->
       exists r', recover (apply_writes p (disk (dbio r))) = Ok tt r' /\
       ((forall n, home n -> blk (disk (dbio r')) n = blk (disk (dbio r)) n) \/
        (forall n, home n -> blk (disk (dbio r')) n = updates us (blk (disk (dbio r))) n)).
Proof.
  intros Hd Hus Hlen home. destruct (recover_in_trans L nlog d Hd) as (r & E & Hsz & Hr).
  pose proof (Hr : stands r (booted L nlog r)) as Hr'.
  destruct (law_begin_op r _ Hr') as (s1 & E1 & H1); [done|].
  destruct (updates_ok us s1 _ H1) as (s2 & D & E2 & H2).
  { reflexivity. }
  { eapply list.Forall_impl; [exact Hus|]. intros u [Hu1 Hu2]. unfold may_write. cbn.
    rewrite Hsz. split_and!; auto; destruct Hu1; lia. }
  { cbn. lia. }
  { cbn. lia. }
  { cbn. pose proof (cd_n _ _ _ Hd). unfold NBUF, LOGSIZE in *. lia. }
  destruct (end_op_commit s2 _ H2) as (s3 & c & ws & E3 & Hc & H3 & Hp); [done..|].
  cbn in Hc, Hp. rewrite Hsz in Hc, Hp. fold home in Hc, Hp.
  assert (forall n, home n -> 0 <= n < nblk (booted L nlog r)) as Hhome
    by (intros n [? _]; cbn; lia).
  assert (forall n, home n -> updates us (content (dbio r)) n = updates us (blk (disk (dbio r))) n) as Hu.
  { intros n Hn. apply updates_ext. symmetry.
    apply (in_trans_clean r _ n Hr); [auto|apply not_elem_of_nil]. }
  exists r, s3, ws. split; [exact E|]. clear E. split_and!.
  - unfold transaction. cbn. by rewrite (bind_ok _ _ _ _ _ E1), (bind_ok _ _ _ _ _ E2).
  - by rewrite <- (it_past _ _ H3).
  - intros n Hn. rewrite <- (it_disk _ _ H3), (in_trans_clean s3 _ n H3), <- Hu; auto.
    apply not_elem_of_nil.
  - intros p Hpre. destruct (Hp p Hpre) as (r' & E' & Hn'). exists r'. split; [exact E'|].
    destruct (decide _) as [_|_]; [by left|right]. intros n Hn. rewrite Hn', <- Hu; auto.
Qed.
