(* ===== verification/StoreWitness.v ===== *)
(** * Concrete disks

    Small disks on which the theorems about crashes apply. *)

From S2P Require Import Prelude Bio BioTheory Log LogTheory LogCrash Cache BlockStore Transaction.
Open Scope Z_scope.

(** Ten blocks, with a log of four blocks at block 2; the header of the log
    names [blks]. *)
Definition small_sb : list Z :=
  put32 (put32 (put32 (replicate BSIZE 0) 0 10) 12 4) 16 2.
Definition small_disk (blks : list Z) : list (list Z) :=
  [replicate BSIZE 0; small_sb;
   put_hdr (replicate BSIZE 0) (Z.of_nat (length blks)) blks]
  ++ replicate 7 (replicate BSIZE 7).

Lemma small_disk_ok blks :
  hdr_n (blk (small_disk blks) 2) = Z.of_nat (length blks) ->
  hdr_list (blk (small_disk blks) 2) = blks -> length (blk (small_disk blks) 2) = BSIZE ->
  (length blks <= 3)%nat -> Forall (home_block 2 4 10) blks -> NoDup blks ->
  crash_disk 2 4 (small_disk blks).
Proof.
  intros Hn Hl Hb Hlen Hh Hnd.
  assert (length (small_disk blks) = 10%nat) as Hsz by reflexivity.
  split; rewrite ?Hl, ?Hn, ?Hsz.
  - apply Forall_app_2; [|apply Forall_replicate, length_replicate].
    apply list.Forall_cons. split; [apply length_replicate|].
    apply list.Forall_cons. split; [vm_compute; reflexivity|].
    apply list.Forall_singleton. exact Hb.
  - reflexivity.
  - vm_compute. reflexivity.
  - vm_compute. reflexivity.
  - lia.
  - unfold LOGSIZE. lia.
  - lia.
  - lia.
  - exact Hh.
  - exact Hnd.
Qed.

Lemma recovery_survives_crashes_witness :
  exists r, recover (small_disk [9; 7]) = Ok tt r /\
  forall p, p `prefix_of` hist (dbio r) ->
    exists r', recover (apply_writes p (small_disk [9; 7])) = Ok tt r' /\
    forall n, home_block 2 4 (Z.of_nat (length (small_disk [9; 7]))) n ->
      blk (disk (dbio r')) n = blk (disk (dbio r)) n.
Proof.
  apply (recovery_survives_crashes 2 4). apply small_disk_ok.
  - vm_compute. reflexivity.
  - vm_compute. reflexivity.
  - vm_compute. reflexivity.
  - cbn. lia.
  - repeat (apply list.Forall_cons; split; [unfold home_block; lia|]). constructor.
  - apply (bool_decide_unpack _). vm_compute. exact I.
Defined.

Definition small_us : list (Z * list Z) := [(6, replicate BSIZE 1); (8, replicate BSIZE 2)].

Lemma transaction_is_atomic_witness :
  let home := home_block 2 4 (Z.of_nat (length (small_disk []))) in
  exists r s ws, recover (small_disk []) = Ok tt r /\ transaction small_us r = Ok tt s
    /\ hist (dbio s) = hist (dbio r) ++ ws
    /\ (forall n, home n -> blk (disk (dbio s)) n = updates small_us (blk (disk (dbio r))) n)
    /\ forall p, p `prefix_of` ws ->
       exists r', recover (apply_writes p (disk (dbio r))) = Ok tt r' /\
       ((forall n, home n -> blk (disk (dbio r')) n = blk (disk (dbio r)) n) \/
        (forall n, home n -> blk (disk (dbio r')) n = updates small_us (blk (disk (dbio r))) n)).
Proof.
  apply (transaction_is_atomic 2 4).
  - apply small_disk_ok.
    + vm_compute. reflexivity.
    + vm_compute. reflexivity.
    + vm_compute. reflexivity.
    + cbn. lia.
    + constructor.
    + constructor.
  - change (Z.of_nat (length (small_disk []))) with 10.
    repeat (apply list.Forall_cons; split;
      [split; [unfold home_block; cbn [fst]; lia | apply length_replicate]|]). constructor.
  - vm_compute. discriminate.
Defined.

Definition small_requests : list request :=
  [WriteBlock 9 (replicate BSIZE 3); ReadBlock 4; ReadBlock 9].

Lemma small_blocks : Forall (fun b => length b = BSIZE) (small_disk []).
Proof.
  apply (cd_blocks 2 4), small_disk_ok; try (vm_compute; reflexivity); try constructor. cbn. lia.
Qed.

Lemma cache_is_transparent_witness :
  exists s, (binit;; serve_all small_requests) (boot_bio (small_disk []))
            = Ok (array_all small_requests (small_disk [])).1 s
    /\ disk s = (array_all small_requests (small_disk [])).2.
Proof.
  apply cache_is_transparent.
  - exact small_blocks.
  - reflexivity.
  - change (Z.of_nat (length (small_disk []))) with 10. unfold small_requests.
    repeat (apply list.Forall_cons; split; [cbn [in_range]; rewrite ?length_replicate; lia|]).
    constructor.
Defined.
