(* ===== verification/Fs.v ===== *)
(** * The file system

    Models fs.c: the block allocator, inodes, the block map with its direct,
    single, double and triple indirect blocks, reading and writing inode
    contents, directories and path names.  The code runs over the interface
    [BlockStore] of the log and the buffer cache.

    An inode pointer is an index into [icache.inode].  The code between
    [acquire(&icache.lock)] and [release] is one step.  The sleep lock of an
    inode is the field [i_lock]; [acquiresleep] of a lock that is held has the
    outcome [Blocked].  Memory that [readi] fills or [writei] takes its data from
    is a list of bytes. *)

From S2P Require Import Prelude CString Bio Log BlockStore.
Open Scope Z_scope.

(** ** fs.h, stat.h, param.h *)
Definition ROOTINO : Z := 1.
Definition ROOTDEV : Z := 1.
Definition NINODE : nat := 50.
Definition NDEV : Z := 10.
Definition T_DIR : Z := 1.
Definition T_FILE : Z := 2.
Definition T_DEV : Z := 3.
Definition NDIRECT : nat := 10.
Definition NINDIRECT : nat := 128.           (* BSIZE / sizeof(uint) *)
Definition NDOUBINDIRECT : Z := 128 * 128.
Definition NTRIPINDIRECT : Z := NDOUBINDIRECT * 128.
Definition MAXFILE : Z := 10 + 128 + NDOUBINDIRECT + NTRIPINDIRECT.
Definition BPB : nat := 4096.                (* BSIZE*8 *)
Definition IPB : Z := 8.                     (* BSIZE / sizeof(struct dinode) *)
Definition DIRSIZ : nat := 14.
Definition DIRENT : nat := 16.               (* sizeof(struct dirent) *)

(** On-disk inode structure *)
Record dinode := mk_dinode {
  d_type : Z;
  d_major : Z;
  d_minor : Z;
  d_nlink : Z;
  d_size : Z;
  d_addrs : list Z;          (* NDIRECT+3 *)
}.

(** The [k]-th [struct dinode] of a block. *)
Definition get_dinode (d : list Z) (k : nat) : dinode :=
  let o := (64 * k)%nat in
  mk_dinode (s16 (get16 d o)) (s16 (get16 d (o + 2))) (s16 (get16 d (o + 4)))
    (s16 (get16 d (o + 6))) (get32 d (o + 8))
    ((fun j => get32 d (o + 12 + 4 * j)) <$> seq 0 (NDIRECT + 3)).
Definition dinode_bytes (x : dinode) : list Z :=
  le_bytes 2 (d_type x) ++ le_bytes 2 (d_major x) ++ le_bytes 2 (d_minor x)
  ++ le_bytes 2 (d_nlink x) ++ le_bytes 4 (d_size x) ++ (d_addrs x ≫= le_bytes 4).
Definition put_dinode (d : list Z) (k : nat) (x : dinode) : list Z :=
  splice (64 * k) (dinode_bytes x) d.

(** in-memory copy of an inode *)
Record inode := mk_inode {
  i_dev : Z;
  i_inum : Z;
  i_ref : Z;
  i_lock : Z;                (* lock.locked *)
  i_valid : Z;
  i_type : Z;
  i_major : Z;
  i_minor : Z;
  i_nlink : Z;
  i_size : Z;
  i_addrs : list Z;          (* NDIRECT+3 *)
}.

Record stat := mk_stat {
  st_type : Z;
  st_dev : Z;
  st_ino : Z;
  st_nlink : Z;
  st_size : Z;
}.

Definition BBLOCK (b : Z) (sb : superblock) : Z := u32 (b / Z.of_nat BPB + sb_bmapstart sb).
Definition IBLOCK (i : Z) (sb : superblock) : Z := u32 (i / IPB + sb_inodestart sb).

(** Bits of the free map: [1 << (bi % 8)], [data[bi/8]] *)
Definition bit_mask (bi : nat) : Z := Z.shiftl 1 (Z.of_nat (bi mod 8)).
Definition map_byte (d : list Z) (bi : nat) : Z := d !!! (bi / 8)%nat.
Definition bit_clear (d : list Z) (bi : nat) : bool :=
  Z.land (map_byte d bi) (bit_mask bi) =? 0.
Definition set_bit (d : list Z) (bi : nat) : list Z :=
  <[(bi / 8)%nat := Z.lor (map_byte d bi) (bit_mask bi)]> d.
Definition clear_bit (d : list Z) (bi : nat) : list Z :=
  <[(bi / 8)%nat := Z.land (map_byte d bi) (Z.lnot (bit_mask bi))]> d.

(** The file system: the block store, the super block and the inode cache. *)
Record fsys (S : Type) := mk_fsys {
  fstore : S;
  fsb : superblock;          (* sb *)
  inodes : list inode;       (* icache.inode *)
}.
Arguments mk_fsys {_} _ _ _.
Arguments fstore {_} _.
Arguments fsb {_} _.
Arguments inodes {_} _.

(** The device table [devsw]: a null function pointer is [None]. *)
Class Devsw (S : Type) := {
  devsw_read : Z -> option (nat -> Z -> M (fsys S) (Z * list Z));
  devsw_write : Z -> option (nat -> list Z -> Z -> M (fsys S) Z);
}.

Section Fs.
Context {S : Type} `{BlockStore S}.

Definition on_store {A} (m : M S A) : M (fsys S) A :=
  zoom fstore (fun t s => mk_fsys t (fsb s) (inodes s)) m.
Definition getsb : M (fsys S) superblock := gets fsb.
Definition setsb (sb : superblock) : M (fsys S) unit :=
  modify (fun s => mk_fsys (fstore s) sb (inodes s)).
Definition getip (ip : nat) : M (fsys S) inode := s ← get; deref (inodes s !! ip).
Definition setip (ip : nat) (f : inode -> inode) : M (fsys S) unit :=
  s ← get;
  _ ← deref (inodes s !! ip);
  modify (fun s => mk_fsys (fstore s) (fsb s) (alter f ip (inodes s))).

(** [bp->data = d; log_write(bp);] *)
Definition set_and_log (bp : nat) (d : list Z) : M (fsys S) unit :=
  on_store (st_set bp d;; st_log_write bp).

(** ** Blocks *)
Definition fs_readsb (dev : Z) : M (fsys S) superblock :=
  bp ← on_store (st_bread dev 1);
  d ← on_store (st_data bp);
  on_store (st_brelse bp);;
  mret (decode_sb d).

Definition bzero (dev bno : Z) : M (fsys S) unit :=
  bp ← on_store (st_bread dev (u32 bno));
  set_and_log bp (replicate BSIZE 0);;
  on_store (st_brelse bp).

(** The body of the outer loop of [balloc], for the block of the free map that
    starts with the bit of block [b]: the inner loop looks for a clear bit. *)
Definition balloc_in (dev b : Z) : M (fsys S) (option Z) :=
  sb ← getsb;
  bp ← on_store (st_bread dev (BBLOCK b sb));
  d ← on_store (st_data bp);
  match list_find (fun bi => bit_clear d bi = true)
          (seq 0 (Z.to_nat (Z.min (Z.of_nat BPB) (sb_size sb - b)))) with
  | Some (_, bi) =>
      set_and_log bp (set_bit d bi);;
      on_store (st_brelse bp);;
      bzero dev (b + Z.of_nat bi);;
      mret (Some (b + Z.of_nat bi))
  | None =>
      on_store (st_brelse bp);;
      mret None
  end.

(** The values of [b] in [for(b = 0; b < sb.size; b += BPB)] *)
Definition map_starts (size : Z) : list Z :=
  (fun k => Z.of_nat k * Z.of_nat BPB) <$>
    seq 0 (Z.to_nat ((size + Z.of_nat BPB - 1) / Z.of_nat BPB)).

Definition balloc (dev : Z) : M (fsys S) Z :=
  sb ← getsb;
  r ← for_loop (map_starts (sb_size sb)) (balloc_in dev);
  match r with
  | Some b => mret b
  | None => panic "balloc: out of blocks"
  end.

Definition bfree (dev b : Z) : M (fsys S) unit :=
  sb ← fs_readsb dev;
  setsb sb;;
  bp ← on_store (st_bread dev (BBLOCK b sb));
  let bi := Z.to_nat (b mod Z.of_nat BPB) in
  d ← on_store (st_data bp);
  if bit_clear d bi then panic "freeing free block"
  else
    set_and_log bp (clear_bit d bi);;
    on_store (st_brelse bp).

(** ** Inodes *)
Definition iinit (dev : Z) : M (fsys S) unit :=
  for_each (seq 0 NINODE) (fun i => setip i (fun ip => { ip with i_lock := 0 }));;
  sb ← fs_readsb dev;
  setsb sb.

(** The loop of [iget]: the entry of inode [inum], or the first empty slot. *)
Fixpoint iget_scan (dev inum : Z) (l : list inode) (i : nat) (empty : option nat)
    : nat + option nat :=
  match l with
  | [] => inr empty
  | ip :: l' =>
      if (0 <? i_ref ip) && (i_dev ip =? dev) && (i_inum ip =? inum) then inl i
      else
        let empty' :=
          match empty with
          | None => if i_ref ip =? 0 then Some i else None
          | Some e => Some e
          end in
        iget_scan dev inum l' (Datatypes.S i) empty'
  end.

Definition iget (dev inum : Z) : M (fsys S) nat :=
  l ← gets inodes;
  match iget_scan dev inum l 0 None with
  | inl i => setip i (fun ip => { ip with i_ref := s32 (i_ref ip + 1) });; mret i
  | inr None => panic "iget: no inodes"
  | inr (Some i) =>
      setip i (fun ip => { ip with i_dev := dev; i_inum := inum; i_ref := 1; i_valid := 0 });;
      mret i
  end.

Definition free_dinode (type : Z) : dinode :=
  mk_dinode type 0 0 0 0 (replicate (NDIRECT + 3) 0).

Definition ialloc (dev type : Z) : M (fsys S) nat :=
  sb ← getsb;
  r ← for_loop (seq 1 (Z.to_nat (sb_ninodes sb - 1))) (fun inum =>
    sb ← getsb;
    bp ← on_store (st_bread dev (IBLOCK (Z.of_nat inum) sb));
    d ← on_store (st_data bp);
    let k := Z.to_nat (Z.of_nat inum mod IPB) in
    if d_type (get_dinode d k) =? 0 then
      set_and_log bp (put_dinode d k (free_dinode type));;
      on_store (st_brelse bp);;
      ip ← iget dev (Z.of_nat inum);
      mret (Some ip)
    else
      on_store (st_brelse bp);;
      mret None);
  match r with
  | Some ip => mret ip
  | None => panic "ialloc: no inodes"
  end.

(** The fields that [iupdate] writes to the disk and [ilock] reads from it. *)
Definition to_dinode (x : inode) : dinode :=
  mk_dinode (i_type x) (i_major x) (i_minor x) (i_nlink x) (i_size x) (i_addrs x).
Definition from_dinode (di : dinode) (x : inode) : inode :=
  { x with i_type := d_type di; i_major := d_major di; i_minor := d_minor di;
           i_nlink := d_nlink di; i_size := d_size di; i_addrs := d_addrs di }.

Definition iupdate (ip : nat) : M (fsys S) unit :=
  x ← getip ip;
  sb ← getsb;
  bp ← on_store (st_bread (i_dev x) (IBLOCK (i_inum x) sb));
  d ← on_store (st_data bp);
  set_and_log bp (put_dinode d (Z.to_nat (i_inum x mod IPB)) (to_dinode x));;
  on_store (st_brelse bp).

Definition idup (ip : nat) : M (fsys S) nat :=
  setip ip (fun x => { x with i_ref := s32 (i_ref x + 1) });;
  mret ip.

Definition i_acquiresleep (ip : nat) : M (fsys S) unit :=
  x ← getip ip;
  if ctrue (i_lock x) then blocked else setip ip (fun x => { x with i_lock := 1 }).
Definition i_releasesleep (ip : nat) : M (fsys S) unit :=
  setip ip (fun x => { x with i_lock := 0 }).

Definition ilock (ip : nat) : M (fsys S) unit :=
  x ← getip ip;
  if i_ref x <? 1 then panic "ilock"
  else
    i_acquiresleep ip;;
    x ← getip ip;
    if i_valid x =? 0 then
      sb ← getsb;
      bp ← on_store (st_bread (i_dev x) (IBLOCK (i_inum x) sb));
      d ← on_store (st_data bp);
      setip ip (from_dinode (get_dinode d (Z.to_nat (i_inum x mod IPB))));;
      on_store (st_brelse bp);;
      setip ip (fun x => { x with i_valid := 1 });;
      x ← getip ip;
      if i_type x =? 0 then panic "ilock: no type" else mret tt
    else mret tt.

Definition iunlock (ip : nat) : M (fsys S) unit :=
  x ← getip ip;
  if negb (ctrue (i_lock x)) || (i_ref x <? 1) then panic "iunlock"
  else i_releasesleep ip.

(** ** The block map *)

(** [if((addr = ip->addrs[i]) == 0) ip->addrs[i] = addr = balloc(ip->dev);] *)
Definition inode_entry (ip i : nat) : M (fsys S) Z :=
  x ← getip ip;
  addr ← deref (i_addrs x !! i);
  if addr =? 0 then
    addr ← balloc (i_dev x);
    setip ip (fun x => { x with i_addrs ::= <[i := addr]> });;
    mret addr
  else mret addr.

(** [bp = bread(ip->dev, addr); a = bp->data; if((addr = a[i]) == 0) {
    a[i] = addr = balloc(ip->dev); log_write(bp); } brelse(bp);] *)
Definition table_entry (ip : nat) (addr i : Z) : M (fsys S) Z :=
  x ← getip ip;
  bp ← on_store (st_bread (i_dev x) addr);
  d ← on_store (st_data bp);
  let off := (4 * Z.to_nat i)%nat in
  if get32 d off =? 0 then
    addr ← balloc (i_dev x);
    d ← on_store (st_data bp);
    set_and_log bp (put32 d off addr);;
    on_store (st_brelse bp);;
    mret addr
  else
    on_store (st_brelse bp);;
    mret (get32 d off).

Definition bmap (ip : nat) (bn : Z) : M (fsys S) Z :=
  let K := Z.of_nat NINDIRECT in
  if bn <? Z.of_nat NDIRECT then inode_entry ip (Z.to_nat bn)
  else
    let bn := bn - Z.of_nat NDIRECT in
    if bn <? K then
      addr ← inode_entry ip NDIRECT;
      table_entry ip addr bn
    else
      let bn := bn - K in
      if bn <? NDOUBINDIRECT then
        addr ← inode_entry ip (NDIRECT + 1);
        addr ← table_entry ip addr (bn / K);
        table_entry ip addr (bn mod K)
      else
        let bn := bn - NDOUBINDIRECT in
        if bn <? NTRIPINDIRECT then
          addr ← inode_entry ip (NDIRECT + 2);
          addr ← table_entry ip addr (bn / NDOUBINDIRECT);
          let tmp := bn mod NDOUBINDIRECT in
          addr ← table_entry ip addr (tmp / K);
          table_entry ip addr (tmp mod K)
        else panic "bmap: out of range".

(** The three last parts of [itrunc] free what hangs off one entry of the
    inode: with [depth] 1 the block [addr] of an indirect table and the blocks
    it lists, with 2 and 3 doubly and triple indirect tables. *)
Fixpoint free_table (depth : nat) (dev addr : Z) : M (fsys S) unit :=
  match depth with
  | O => bfree dev addr
  | Datatypes.S depth' =>
      bp ← on_store (st_bread dev addr);
      for_each (seq 0 NINDIRECT) (fun j =>
        d ← on_store (st_data bp);
        let a := get32 d (4 * j) in
        when (ctrue a) (free_table depth' dev a));;
      on_store (st_brelse bp);;
      bfree dev addr
  end.

(** [if(ip->addrs[i]){ ...; ip->addrs[i] = 0; }] *)
Definition free_entry (ip i depth : nat) : M (fsys S) unit :=
  x ← getip ip;
  addr ← deref (i_addrs x !! i);
  when (ctrue addr)
    (free_table depth (i_dev x) addr;;
     setip ip (fun x => { x with i_addrs ::= <[i := 0]> })).

Definition itrunc (ip : nat) : M (fsys S) unit :=
  for_each (seq 0 NDIRECT) (fun i => free_entry ip i 0);;
  free_entry ip NDIRECT 1;;
  free_entry ip (NDIRECT + 1) 2;;
  free_entry ip (NDIRECT + 2) 3;;
  setip ip (fun x => { x with i_size := 0 });;
  iupdate ip.

Definition iput (ip : nat) : M (fsys S) unit :=
  i_acquiresleep ip;;
  x ← getip ip;
  when (ctrue (i_valid x) && (i_nlink x =? 0) && (i_ref x =? 1))
    (itrunc ip;;
     setip ip (fun x => { x with i_type := 0 });;
     iupdate ip;;
     setip ip (fun x => { x with i_valid := 0 }));;
  i_releasesleep ip;;
  setip ip (fun x => { x with i_ref := s32 (i_ref x - 1) }).

Definition iunlockput (ip : nat) : M (fsys S) unit :=
  iunlock ip;;
  iput ip.

(** ** Inode content *)
Definition stati (ip : nat) : M (fsys S) stat :=
  x ← getip ip;
  mret (mk_stat (i_type x) (i_dev x) (i_inum x) (i_nlink x) (i_size x)).

Section Content.
Context `{Devsw S}.

(** The loop of [readi]: the bytes copied to [dst] from offset [off] on, [n] of
    them in all.  Every round but the first and the last copies a block. *)
Fixpoint readi_loop (ip : nat) (off n tot : Z) (fuel : nat) : M (fsys S) (list Z) :=
  if tot <? n then
    match fuel with
    | O => no_fuel
    | Datatypes.S f =>
        x ← getip ip;
        addr ← bmap ip (off / Z.of_nat BSIZE);
        bp ← on_store (st_bread (i_dev x) addr);
        let o := off mod Z.of_nat BSIZE in
        let m := Z.min (n - tot) (Z.of_nat BSIZE - o) in
        d ← on_store (st_data bp);
        on_store (st_brelse bp);;
        rest ← readi_loop ip (u32 (off + m)) n (u32 (tot + m)) f;
        mret (slice (Z.to_nat o) (Z.to_nat m) d ++ rest)
    end
  else mret [].

Definition io_fuel (n : Z) : nat := Z.to_nat (n / Z.of_nat BSIZE) + 2.

(** Returns the result and the bytes stored at [dst]. *)
Definition readi (ip : nat) (off n : Z) : M (fsys S) (Z * list Z) :=
  x ← getip ip;
  if i_type x =? T_DEV then
    if (i_major x <? 0) || (NDEV <=? i_major x) then mret (-1, [])
    else
      match devsw_read (i_major x) with
      | None => mret (-1, [])
      | Some read => read ip n
      end
  else if (i_size x <? off) || (u32 (off + n) <? off) then mret (-1, [])
  else
    let n := if i_size x <? u32 (off + n) then i_size x - off else n in
    bs ← readi_loop ip off n 0 (io_fuel n);
    mret (s32 n, bs).

(** The loop of [writei]; [src] holds the bytes not written yet.  Returns the
    [off] at its end. *)
Fixpoint writei_loop (ip : nat) (src : list Z) (off n tot : Z) (fuel : nat) : M (fsys S) Z :=
  if tot <? n then
    match fuel with
    | O => no_fuel
    | Datatypes.S f =>
        x ← getip ip;
        addr ← bmap ip (off / Z.of_nat BSIZE);
        bp ← on_store (st_bread (i_dev x) addr);
        let o := off mod Z.of_nat BSIZE in
        let m := Z.min (n - tot) (Z.of_nat BSIZE - o) in
        d ← on_store (st_data bp);
        set_and_log bp (splice (Z.to_nat o) (take (Z.to_nat m) src) d);;
        on_store (st_brelse bp);;
        writei_loop ip (drop (Z.to_nat m) src) (u32 (off + m)) n (u32 (tot + m)) f
    end
  else mret off.

Definition writei (ip : nat) (src : list Z) (off n : Z) : M (fsys S) Z :=
  x ← getip ip;
  if i_type x =? T_DEV then
    if (i_major x <? 0) || (NDEV <=? i_major x) then mret (-1)
    else
      match devsw_write (i_major x) with
      | None => mret (-1)
      | Some write => write ip src n
      end
  else if u32 (off + n) <? off then mret (-1)
  else if MAXFILE * Z.of_nat BSIZE <? u32 (off + n) then mret (-1)
  else
    off ← writei_loop ip src off n 0 (io_fuel n);
    x ← getip ip;
    when ((0 <? n) && (i_size x <? off))
      (setip ip (fun x => { x with i_size := off });;
       iupdate ip);;
    mret (s32 n).

(** ** Directories *)
Definition namecmp (s t : list Z) : Z := strncmp_list s t DIRSIZ.

(** [struct dirent] *)
Definition de_inum (de : list Z) : Z := get16 de 0.
Definition de_name (de : list Z) : list Z := slice 2 DIRSIZ de.
Definition dirent_bytes (inum : Z) (name : list Z) : list Z :=
  le_bytes 2 inum ++ strncpy_list name DIRSIZ.

(** The values of [off] in [for(off = 0; off < size; off += sizeof(de))] *)
Definition dir_offs (size : Z) : list Z :=
  (fun k => Z.of_nat k * Z.of_nat DIRENT) <$>
    seq 0 (Z.to_nat ((size + Z.of_nat DIRENT - 1) / Z.of_nat DIRENT)).

(** [readi] of the entry at [off], as the loops over a directory do it. *)
Definition read_dirent (msg : string) (dp : nat) (off : Z) : M (fsys S) (list Z) :=
  r ← readi dp off (Z.of_nat DIRENT);
  if negb (r.1 =? Z.of_nat DIRENT) then panic msg else mret r.2.

(** Returns the inode and the offset of the entry. *)
Definition dirlookup (dp : nat) (name : list Z) : M (fsys S) (option (nat * Z)) :=
  x ← getip dp;
  if negb (i_type x =? T_DIR) then panic "dirlookup not DIR"
  else
    for_loop (dir_offs (i_size x)) (fun off =>
      de ← read_dirent "dirlookup read" dp off;
      if de_inum de =? 0 then mret None
      else if namecmp name (de_name de) =? 0 then
        ip ← iget (i_dev x) (de_inum de);
        mret (Some (ip, off))
      else mret None).

Definition dirlink (dp : nat) (name : list Z) (inum : Z) : M (fsys S) Z :=
  (* Check that name is not present. *)
  r ← dirlookup dp name;
  match r with
  | Some (ip, _) => iput ip;; mret (-1)
  | None =>
      (* Look for an empty dirent. *)
      x ← getip dp;
      r ← for_loop (dir_offs (i_size x)) (fun off =>
        de ← read_dirent "dirlink read" dp off;
        mret (if de_inum de =? 0 then Some off else None));
      let off :=
        match r with
        | Some off => off
        | None => Z.of_nat (length (dir_offs (i_size x))) * Z.of_nat DIRENT
        end in
      w ← writei dp (dirent_bytes inum name) off (Z.of_nat DIRENT);
      if negb (w =? Z.of_nat DIRENT) then panic "dirlink" else mret 0
  end.

(** ** Paths *)
Definition SLASH : Z := 47.

(** [while( *path == '/') path++;] *)
Fixpoint skip_slashes (path : list Z) : list Z :=
  match path with
  | c :: path' => if c =? SLASH then skip_slashes path' else path
  | [] => []
  end.
(** [while( *path != '/' && *path != 0) path++;]: what is passed over, and the
    rest. *)
Fixpoint skip_elem (path : list Z) : list Z * list Z :=
  match path with
  | c :: path' =>
      if (c =? SLASH) || (c =? 0) then ([], path)
      else let '(e, r) := skip_elem path' in (c :: e, r)
  | [] => ([], [])
  end.

(** A path is a list of characters; its end and a NUL byte both end it.
    Returns the rest of the path and the contents of [name], of which a short
    element overwrites only the beginning. *)
Definition skipelem (path name : list Z) : option (list Z * list Z) :=
  let path := skip_slashes path in
  if hd 0 path =? 0 then None
  else
    let '(elem, path) := skip_elem path in
    let name :=
      if (DIRSIZ <=? length elem)%nat then take DIRSIZ elem
      else splice 0 (elem ++ [0]) name in
    Some (skip_slashes path, name).

(** The loop of [namex], and what follows it. *)
Fixpoint namex_loop (path : list Z) (nameiparent : bool) (name : list Z) (ip : nat) (fuel : nat)
    : M (fsys S) (option (nat * list Z)) :=
  match fuel with
  | O => no_fuel
  | Datatypes.S f =>
      match skipelem path name with
      | Some (path, name) =>
          ilock ip;;
          x ← getip ip;
          if negb (i_type x =? T_DIR) then iunlockput ip;; mret None
          else if nameiparent && (hd 0 path =? 0) then
            (* Stop one level early. *)
            iunlock ip;; mret (Some (ip, name))
          else
            next ← dirlookup ip name;
            match next with
            | None => iunlockput ip;; mret None
            | Some (next, _) => iunlockput ip;; namex_loop path nameiparent name next f
            end
      | None =>
          if nameiparent then iput ip;; mret None
          else mret (Some (ip, name))
      end
  end.

(** [cwd] is [myproc()->cwd].  Every round takes a character off the path. *)
Definition namex (cwd : nat) (path : list Z) (nameiparent : bool) (name : list Z)
    : M (fsys S) (option (nat * list Z)) :=
  ip ← (if hd 0 path =? SLASH then iget ROOTDEV ROOTINO else idup cwd);
  namex_loop path nameiparent name ip (Datatypes.S (length path)).

Definition namei (cwd : nat) (path : list Z) : M (fsys S) (option nat) :=
  r ← namex cwd path false (replicate DIRSIZ 0);
  mret (fst <$> r).

(** Returns the inode of the parent and the contents of [name]. *)
Definition nameiparent (cwd : nat) (path name : list Z) : M (fsys S) (option (nat * list Z)) :=
  namex cwd path true name.
End Content.
End Fs.
