(* ===== verification/FsBlocks.v ===== *)
(** * The block allocator

    The free map of the file system and the specifications of [bzero], [balloc]
    and [bfree], proved against the contract of the block store. *)

From S2P Require Import Prelude CString Bio Log BlockStore Fs.
Open Scope Z_scope.

(** ** Bits *)
Lemma land_bit x k : 0 <= k -> (Z.land x (Z.shiftl 1 k) =? 0) = negb (Z.testbit x k).
Proof.
  intros Hk. destruct (Z.testbit x k) eqn:E; cbn.
  - apply Z.eqb_neq. intros H0. apply (f_equal (fun z => Z.testbit z k)) in H0.
    rewrite Z.land_spec, E, Z.shiftl_spec, Z.sub_diag, Z.bits_0 in H0 by lia. done.
  - apply Z.eqb_eq. apply Z.bits_inj'. intros j Hj.
    rewrite Z.land_spec, Z.bits_0, Z.shiftl_spec by lia.
    destruct (decide (j = k)) as [->|Hne]; [by rewrite E|].
    replace (Z.testbit 1 (j - k)) with false; [apply andb_false_r|].
    destruct (decide (j < k)) as [Hlt|]; [by rewrite Z.testbit_neg_r by lia|].
    symmetry. apply (Z.bits_above_log2 1); cbn; lia.
Qed.

Lemma testbit_mask k j : 0 <= k -> 0 <= j -> Z.testbit (Z.shiftl 1 k) j = (j =? k).
Proof.
  intros Hk Hj. rewrite Z.shiftl_spec by lia. destruct (Z.eqb_spec j k) as [->|Hne].
  - by rewrite Z.sub_diag.
  - destruct (decide (j < k)); [by rewrite Z.testbit_neg_r by lia|].
    apply (Z.bits_above_log2 1); cbn; lia.
Qed.

Definition map_bit (d : list Z) (bi : nat) : bool := Z.testbit (map_byte d bi) (Z.of_nat (bi mod 8)).

Lemma bit_clear_eq d bi : bit_clear d bi = negb (map_bit d bi).
Proof. apply land_bit. lia. Qed.

Lemma bit_index bi bj : (bi / 8 = bj / 8)%nat -> (bi mod 8 = bj mod 8)%nat -> bi = bj.
Proof. intros H1 H2. rewrite (Nat.div_mod_eq bi 8), (Nat.div_mod_eq bj 8). lia. Qed.

(** What storing a byte does to the bits. *)
Lemma map_bit_insert d bi bj f :
  (bi / 8 < length d)%nat ->
  (forall k, k <> bi mod 8 -> Z.testbit (f (map_byte d bi)) (Z.of_nat k)
                              = Z.testbit (map_byte d bi) (Z.of_nat k))%nat ->
  map_bit (<[(bi / 8)%nat := f (map_byte d bi)]> d) bj
  = if decide (bi = bj) then Z.testbit (f (map_byte d bi)) (Z.of_nat (bi mod 8)) else map_bit d bj.
Proof.
  intros Hl Hf. unfold map_bit, map_byte at 1. destruct (decide (bi = bj)) as [<-|Hne].
  - by rewrite list_lookup_total_insert_eq.
  - destruct (decide (bi / 8 = bj / 8)%nat) as [E|E].
    + rewrite <- E, list_lookup_total_insert_eq by done. unfold map_byte at 2. rewrite <- E.
      apply Hf. intros E'. by apply Hne, bit_index.
    + by rewrite list_lookup_total_insert_ne.
Qed.

Lemma map_bit_set d bi bj :
  (bi / 8 < length d)%nat -> map_bit (set_bit d bi) bj = map_bit d bj || bool_decide (bi = bj).
Proof.
  intros Hl. unfold set_bit. rewrite (map_bit_insert d bi bj (fun x => Z.lor x (bit_mask bi)) Hl).
  - destruct (decide (bi = bj)) as [<-|Hne].
    + rewrite Z.lor_spec. unfold bit_mask. rewrite testbit_mask, Z.eqb_refl, bool_decide_true by lia.
      by rewrite !orb_true_r.
    + by rewrite bool_decide_false, orb_false_r.
  - intros k Hk. rewrite Z.lor_spec. unfold bit_mask. rewrite testbit_mask by lia.
    rewrite (proj2 (Z.eqb_neq _ _)) by lia. apply orb_false_r.
Qed.

Lemma map_bit_clear d bi bj :
  (bi / 8 < length d)%nat ->
  map_bit (clear_bit d bi) bj = map_bit d bj && negb (bool_decide (bi = bj)).
Proof.
  intros Hl. unfold clear_bit.
  rewrite (map_bit_insert d bi bj (fun x => Z.land x (Z.lnot (bit_mask bi))) Hl).
  - destruct (decide (bi = bj)) as [<-|Hne].
    + rewrite Z.land_spec, Z.lnot_spec by lia. unfold bit_mask.
      rewrite testbit_mask, Z.eqb_refl, bool_decide_true by lia. by rewrite !andb_false_r.
    + by rewrite bool_decide_false, andb_true_r.
  - intros k Hk. rewrite Z.land_spec, Z.lnot_spec by lia. unfold bit_mask.
    rewrite testbit_mask by lia. rewrite (proj2 (Z.eqb_neq _ _)) by lia. apply andb_true_r.
Qed.

Lemma length_set_bit d bi : length (set_bit d bi) = length d.
Proof. apply length_insert. Qed.
Lemma length_clear_bit d bi : length (clear_bit d bi) = length d.
Proof. apply length_insert. Qed.

(** ** The layout of the disk *)
Definition bpb : Z := Z.of_nat BPB.
(** Number of blocks of the free map. *)
Definition nmap (sb : superblock) : Z := (sb_size sb + bpb - 1) / bpb.
Definition is_map (sb : superblock) (n : Z) : Prop :=
  sb_bmapstart sb <= n < sb_bmapstart sb + nmap sb.
Definition is_iblock (sb : superblock) (n : Z) : Prop :=
  sb_inodestart sb <= n <= sb_inodestart sb + sb_ninodes sb / IPB.
#[export] Instance is_map_dec sb n : Decision (is_map sb n).
Proof. unfold is_map. apply _. Defined.
#[export] Instance is_iblock_dec sb n : Decision (is_iblock sb n).
Proof. unfold is_iblock. apply _. Defined.

(** A block that may belong to a file. *)
Definition is_data (sb : superblock) (v : sview) (n : Z) : Prop :=
  1 < n < sb_size sb /\ wr v n /\ ~ is_map sb n /\ ~ is_iblock sb n.

(** The bit of block [n] in the free map. *)
Definition used (sb : superblock) (v : sview) (n : Z) : bool :=
  map_bit (cont v (sb_bmapstart sb + n / bpb)) (Z.to_nat (n mod bpb)).

Record geometry (sb : superblock) (v : sview) : Prop := {
  geo_size : 0 < sb_size sb <= nblk v;
  geo_small : nblk v < 2 ^ 31;
  geo_map : 1 < sb_bmapstart sb /\ sb_bmapstart sb + nmap sb <= sb_size sb;
  geo_map_wr : forall n, is_map sb n -> wr v n;
  geo_inodes : 1 < sb_inodestart sb /\ sb_inodestart sb + sb_ninodes sb / IPB < sb_size sb;
  geo_ninodes : 0 <= sb_ninodes sb;
  geo_iblock_wr : forall n, is_iblock sb n -> wr v n /\ ~ is_map sb n;
}.

(** Blocks that are not data blocks are marked in use; the super block is the
    one in memory. *)
Record fs_ok (sb : superblock) (v : sview) : Prop := {
  fo_geo : geometry sb v;
  fo_free : forall n, 0 <= n < sb_size sb -> used sb v n = false -> is_data sb v n;
  fo_sb : decode_sb (cont v 1) = sb;
}.

(** Two views of the same disk. *)
Definition same_disk (v v' : sview) : Prop := nblk v' = nblk v /\ wr v' = wr v /\ cap v' = cap v.

Lemma geometry_same sb v v' : same_disk v v' -> geometry sb v -> geometry sb v'.
Proof. intros (E1 & E2 & _) []. split; rewrite ?E1, ?E2; auto. Qed.
Lemma is_data_same sb v v' n : same_disk v v' -> is_data sb v' n <-> is_data sb v n.
Proof. intros (_ & E & _). unfold is_data. by rewrite E. Qed.

(** The number of blocks of the transaction outside the free map, and the room
    for [k] more of them, whatever happens to the free map. *)
Definition pcount (sb : superblock) (v : sview) : nat :=
  length (filter (fun n => ~ is_map sb n) (pend v)).
Definition room (sb : superblock) (k : nat) (v : sview) : Prop :=
  Z.of_nat (pcount sb v) + nmap sb + Z.of_nat k < Z.of_nat (cap v)
  /\ Z.of_nat (pcount sb v) + nmap sb + Z.of_nat k + 4 <= Z.of_nat NBUF.

Lemma filter_split {A} (P : A -> Prop) `{!forall x, Decision (P x)} (l : list A) :
  length l = (length (filter P l) + length (filter (fun x => ~ P x) l))%nat.
Proof.
  induction l as [|x l IH]; [done|]. rewrite !filter_cons.
  destruct (decide (P x)), (decide (~ P x)); try tauto; cbn; lia.
Qed.

Lemma room_pend sb k v :
  NoDup (pend v) -> 0 <= nmap sb -> room sb k v ->
  (length (pend v) + k < cap v)%nat /\ (length (pend v) + k + 4 <= NBUF)%nat.
Proof.
  intros Hnd Hm (H1 & H2).
  assert (length (pend v) <= pcount sb v + Z.to_nat (nmap sb))%nat as Hl; [|lia].
  rewrite (filter_split (is_map sb) (pend v)). fold (pcount sb v).
  assert (filter (is_map sb) (pend v) ⊆+
          (fun k => sb_bmapstart sb + Z.of_nat k) <$> seq 0 (Z.to_nat (nmap sb))) as Hsub.
  { apply NoDup_submseteq; [by apply list.NoDup_filter|].
    intros n [Hn _]%list_elem_of_filter. apply list_elem_of_fmap.
    exists (Z.to_nat (n - sb_bmapstart sb)). unfold is_map in Hn. rewrite elem_of_seq. lia. }
  apply submseteq_length in Hsub. rewrite length_fmap, length_seq in Hsub. lia.
Qed.

Lemma cont_written n d v : cont (written n d v) = <[n := d]> (cont v).
Proof. done. Qed.

Lemma pend_written n d v : pend (written n d v) = add_pend n (pend v).
Proof. done. Qed.

Lemma elem_of_add_pend n D k : k ∈ add_pend n D <-> k ∈ D \/ k = n.
Proof.
  unfold add_pend. destruct (decide (n ∈ D)).
  - split; [auto|]. by intros [? | ->].
  - by rewrite elem_of_app, list_elem_of_singleton.
Qed.

Lemma pcount_written sb n d v :
  (pcount sb (written n d v) <= pcount sb v + (if decide (is_map sb n) then 0 else 1))%nat.
Proof.
  unfold pcount, written, add_pend. cbn. destruct (decide (n ∈ pend v)); [destruct (decide _); lia|].
  rewrite list.filter_app, length_app, filter_cons, filter_nil.
  destruct (decide (is_map sb n)), (decide (~ is_map sb n)); cbn; try tauto; lia.
Qed.

Lemma pcount_pending sb n d v : n ∈ pend v -> pcount sb (written n d v) = pcount sb v.
Proof. intros Hn. unfold pcount, written, add_pend. cbn. by rewrite decide_True. Qed.

(** ** The layout in numbers *)
Section Layout.
Context (sb : superblock) (v : sview) (Hgeo : geometry sb v).

Lemma nmap_pos : 0 <= nmap sb.
Proof. apply Z.div_pos; destruct Hgeo; unfold bpb, BPB; lia. Qed.

Lemma map_block n : 0 <= n < sb_size sb -> is_map sb (sb_bmapstart sb + n / bpb).
Proof.
  intros Hn. unfold is_map. assert (0 <= n / bpb < nmap sb); [|lia].
  split; [apply Z.div_pos; unfold bpb, BPB; lia|].
  apply Z.div_lt_upper_bound; [unfold bpb, BPB; lia|]. unfold nmap.
  pose proof (Z.div_mod (sb_size sb + bpb - 1) bpb). pose proof (Z.mod_pos_bound (sb_size sb + bpb - 1) bpb).
  unfold bpb, BPB in *. lia.
Qed.

Lemma map_range n : is_map sb n -> 1 < n < nblk v.
Proof. destruct Hgeo. unfold is_map. lia. Qed.

Lemma BBLOCK_eq n : 0 <= n < sb_size sb -> BBLOCK n sb = sb_bmapstart sb + n / bpb.
Proof.
  intros Hn. unfold BBLOCK. fold bpb. pose proof (map_range _ (map_block n Hn)) as Hr.
  pose proof (geo_small _ _ Hgeo). rewrite u32_small; lia.
Qed.

Lemma data_range n : is_data sb v n -> 1 < n < nblk v.
Proof. intros [? _]. destruct Hgeo. lia. Qed.

Lemma iblock_range n : is_iblock sb n -> 1 < n < nblk v.
Proof. destruct Hgeo. unfold is_iblock. lia. Qed.

Lemma IBLOCK_eq inum :
  0 <= inum < sb_ninodes sb ->
  IBLOCK inum sb = sb_inodestart sb + inum / IPB /\ is_iblock sb (IBLOCK inum sb).
Proof.
  intros Hi. unfold IBLOCK.
  assert (0 <= inum / IPB <= sb_ninodes sb / IPB) as Hd.
  { unfold IPB. split; [apply Z.div_pos; lia|]. apply Z.div_le_mono; lia. }
  destruct Hgeo. rewrite u32_small by lia. unfold is_iblock. lia.
Qed.

Lemma mod_bpb n : (Z.to_nat (n mod bpb) < BPB)%nat.
Proof. pose proof (Z.mod_pos_bound n bpb). unfold bpb, BPB in *. lia. Qed.
End Layout.

(** ** Running operations of the store *)
Section Run.
Context {S : Type} `{BlockStoreSpec S}.

Definition with_store (s : fsys S) (t : S) : fsys S := mk_fsys t (fsb s) (inodes s).

Lemma on_store_ok {A} (m : M S A) s a t :
  m (fstore s) = Ok a t -> on_store m s = Ok a (with_store s t).
Proof. intros E. unfold on_store, zoom. by rewrite E. Qed.

End Run.

(** The next operation of the store, known by [E], and the next pure step. *)
Ltac fstep E := erewrite bind_ok by (apply on_store_ok; exact E).
Ltac fstep0 := erewrite bind_ok by reflexivity.

Section Alloc.
Context {S : Type} `{BlockStoreSpec S}.

(** There is room for reading another block. *)
Definition can_read (v : sview) : Prop := (length (hold v) + length (pend v) < NBUF)%nat.

Lemma holding_back t v b n d :
  stands t (holding_now (hold v) (written n d (holding_now ((b, n) :: hold v) v))) ->
  stands t (written n d v).
Proof. by destruct v. Qed.
Lemma holding_same t v b n :
  stands t (holding_now (hold v) (holding_now ((b, n) :: hold v) v)) -> stands t v.
Proof. by destruct v. Qed.

(** A block is read and released. *)
Lemma read_only t v n :
  stands t v -> 0 <= n < nblk v -> n ∉ (hold v).*2 -> can_read v ->
  exists b t1 t2, st_bread 1 n t = Ok b t1 /\ st_data b t1 = Ok (cont v n) t1
    /\ st_brelse b t1 = Ok tt t2 /\ stands t2 v.
Proof.
  intros Ht Hn Hh Hr. destruct (law_bread t v n Ht Hn Hh (or_intror Hr)) as (b & t1 & E1 & _ & H1).
  destruct (law_brelse t1 _ b n (hold v) H1) as (t2 & E2 & H2); [done|].
  exists b, t1, t2. split_and!; [done| |done|by eapply holding_same].
  apply (law_data t1 _ b n H1). by left.
Qed.

(** A block is read, changed, logged and released. *)
Lemma read_write t v n d :
  stands t v -> 0 <= n < nblk v -> n ∉ (hold v).*2 -> can_read v ->
  wr v n -> 1 <= ops v -> (length (pend v) < cap v)%nat -> length d = BSIZE ->
  exists b t1 t2 t3, st_bread 1 n t = Ok b t1 /\ st_data b t1 = Ok (cont v n) t1
    /\ (st_set b d;; st_log_write b) t1 = Ok tt t2
    /\ st_brelse b t2 = Ok tt t3 /\ stands t3 (written n d v).
Proof.
  intros Ht Hn Hh Hr Hw Ho Hc Hd.
  destruct (law_bread t v n Ht Hn Hh (or_intror Hr)) as (b & t1 & E1 & _ & H1).
  destruct (law_log_write t1 _ b n d H1) as (t2 & E2 & H2); auto; [by left|].
  destruct (law_brelse t2 _ b n (hold v) H2) as (t3 & E3 & H3); [done|].
  exists b, t1, t2, t3. split_and!; [done| |done|done|by eapply holding_back].
  apply (law_data t1 _ b n H1). by left.
Qed.

Lemma bzero_ok s v n :
  stands (fstore s) v -> 0 <= n < nblk v -> nblk v < 2 ^ 31 -> n ∉ (hold v).*2 -> can_read v ->
  wr v n -> 1 <= ops v -> (length (pend v) < cap v)%nat ->
  exists t, bzero 1 n s = Ok tt (with_store s t) /\ stands t (written n (replicate BSIZE 0) v).
Proof.
  intros Ht Hn Hs Hh Hr Hw Ho Hc. unfold bzero, set_and_log. rewrite u32_small by lia.
  destruct (read_write (fstore s) v n (replicate BSIZE 0)) as (b & t1 & t2 & t3 & E1 & _ & E3 & E4 & H4);
    auto using length_replicate.
  exists t3. split; [|done]. fstep E1. fstep E3. by erewrite on_store_ok by exact E4.
Qed.

(** The view after the allocation of [b]. *)
Definition allocated (sb : superblock) (b : Z) (v : sview) : sview :=
  let m := sb_bmapstart sb + b / bpb in
  written b (replicate BSIZE 0)
    (written m (set_bit (cont v m) (Z.to_nat (b mod bpb))) v).

(** Blocks held while the allocator runs are in use and not part of the map. *)
Definition holds_ok (sb : superblock) (v : sview) : Prop :=
  (length (hold v) <= 3)%nat /\
  forall n, n ∈ (hold v).*2 -> ~ is_map sb n /\ (0 <= n < sb_size sb -> used sb v n = true).

Lemma holds_ok_map sb v n : holds_ok sb v -> is_map sb n -> n ∉ (hold v).*2.
Proof. intros [_ Hh] Hm Hn. by destruct (Hh n Hn). Qed.
Lemma holds_ok_free sb v n :
  holds_ok sb v -> 0 <= n < sb_size sb -> used sb v n = false -> n ∉ (hold v).*2.
Proof. intros [_ Hh] Hr Hu Hn. destruct (Hh n Hn) as [_ Hu']. rewrite Hu' in Hu; done. Qed.

Section Balloc.
Context (sb : superblock) (v : sview) (Hfs : fs_ok sb v) (Hh : holds_ok sb v).
Let Hgeo : geometry sb v := fo_geo sb v Hfs.

Lemma room_reads t k : stands t v -> room sb k v -> can_read v /\ (length (pend v) + k < cap v)%nat.
Proof.
  intros Ht Hr. destruct (room_pend sb k v (law_nodup t v Ht) (nmap_pos sb v Hgeo) Hr) as [H1 H2].
  destruct Hh as [Hl _]. unfold can_read. lia.
Qed.

(** The bits of the map block that starts with block [k * BPB]. *)
Lemma used_in_block k bi :
  0 <= k -> (bi < BPB)%nat ->
  used sb v (k * bpb + Z.of_nat bi) = map_bit (cont v (sb_bmapstart sb + k)) bi.
Proof.
  intros Hk Hb. unfold used. assert (0 <= Z.of_nat bi < bpb) by (unfold bpb; lia).
  rewrite (Z.add_comm (k * bpb)), Z.div_add, Z.mod_add, Z.div_small, Z.mod_small by lia.
  by rewrite Nat2Z.id.
Qed.

(** How many bits of that block stand for blocks of the disk. *)
Definition bits_in (k : Z) : nat := Z.to_nat (Z.min bpb (sb_size sb - k * bpb)).

Lemma start_range k :
  0 <= k < nmap sb -> 0 <= k * bpb < sb_size sb /\ BBLOCK (k * bpb) sb = sb_bmapstart sb + k
    /\ is_map sb (sb_bmapstart sb + k).
Proof.
  intros Hk. assert (0 <= k * bpb < sb_size sb) as Hr.
  { unfold nmap in Hk. destruct Hk as [Hk0 Hk].
    assert (k + 1 <= (sb_size sb + bpb - 1) / bpb) as Hk' by lia.
    pose proof (Z.mul_div_le (sb_size sb + bpb - 1) bpb ltac:(done)). unfold bpb, BPB in *. lia. }
  split_and!; try lia; [|unfold is_map; lia].
  rewrite (BBLOCK_eq sb v) by auto. by rewrite Z.div_mul by done.
Qed.

Lemma balloc_in_none s k :
  stands (fstore s) v -> fsb s = sb -> 0 <= k < nmap sb -> room sb 0 v ->
  (forall n, k * bpb <= n < (k + 1) * bpb -> n < sb_size sb -> used sb v n = true) ->
  exists t, balloc_in 1 (k * bpb) s = Ok None (with_store s t) /\ stands t v.
Proof.
  intros Ht Hsb Hk Hr Hu. destruct (start_range k Hk) as (Hr1 & HB & Hm).
  destruct (room_reads _ _ Ht Hr) as [Hcr _]. pose proof (map_range sb v Hgeo _ Hm).
  destruct (read_only (fstore s) v (sb_bmapstart sb + k)) as (b & t1 & t2 & E1 & E2 & E3 & H3);
    auto; [lia|by eapply holds_ok_map|].
  exists t2. split; [|done]. unfold balloc_in, getsb. fstep0. rewrite Hsb, HB. fstep E1. fstep E2.
  rewrite (proj2 (list_find_None _ _)); [|].
  { fstep E3. done. }
  apply list.Forall_forall. intros bi Hbi%elem_of_seq. rewrite bit_clear_eq.
  fold bpb in Hbi. rewrite <- used_in_block by (unfold bpb in *; lia).
  rewrite Hu by (unfold bpb in *; lia). done.
Qed.

Lemma length_written n d : (length (pend (written n d v)) <= length (pend v) + 1)%nat.
Proof. cbn. unfold add_pend. destruct (decide _); rewrite ?length_app; cbn; lia. Qed.

Lemma balloc_in_some s k n :
  stands (fstore s) v -> fsb s = sb -> 0 <= k < nmap sb -> room sb 1 v -> 1 <= ops v ->
  k * bpb <= n < (k + 1) * bpb -> n < sb_size sb -> used sb v n = false ->
  (forall m, k * bpb <= m < n -> used sb v m = true) ->
  exists t, balloc_in 1 (k * bpb) s = Ok (Some n) (with_store s t) /\ stands t (allocated sb n v).
Proof.
  intros Ht Hsb Hk Hr Ho Hn Hsz Hu Hbefore. destruct (start_range k Hk) as (Hr1 & HB & Hm).
  pose proof (room_pend sb 1 v (law_nodup _ v Ht) (nmap_pos sb v Hgeo) Hr) as [Hp1 Hp2].
  destruct (room_reads _ _ Ht Hr) as [Hcr _]. pose proof (map_range sb v Hgeo _ Hm) as Hmr.
  assert (n / bpb = k /\ n mod bpb = n - k * bpb) as [Hnk Hnm].
  { split; symmetry; [apply (Z.div_unique_pos _ _ _ (n - k * bpb))|apply (Z.mod_unique_pos _ _ k)];
      unfold bpb, BPB in *; lia. }
  set (bi := Z.to_nat (n - k * bpb)). assert (bi < BPB)%nat as Hbi by (unfold bi, bpb in *; lia).
  destruct (read_write (fstore s) v (sb_bmapstart sb + k) (set_bit (cont v (sb_bmapstart sb + k)) bi))
    as (b & t1 & t2 & t3 & E1 & E2 & E3 & E4 & H4); auto.
  { lia. } { by eapply holds_ok_map. } { by apply (geo_map_wr sb v Hgeo). } { lia. }
  { rewrite length_set_bit. apply (law_length (fstore s) v); auto; lia. }
  assert (is_data sb v n) as Hd by (apply (fo_free sb v Hfs); auto; lia).
  destruct Hh as [Hhl _].
  destruct (bzero_ok (with_store s t3) _ n H4) as (t4 & E5 & H5); auto; cbn [cap nblk wr hold ops written].
  { pose proof (data_range sb v Hgeo n Hd). cbn. lia. } { apply (geo_small sb v Hgeo). }
  { cbn. apply (holds_ok_free sb v n); auto; lia. }
  { unfold can_read. pose proof (length_written (sb_bmapstart sb + k)
      (set_bit (cont v (sb_bmapstart sb + k)) bi)). cbn in *. lia. }
  { by destruct Hd as (_ & ? & _). }
  { pose proof (length_written (sb_bmapstart sb + k) (set_bit (cont v (sb_bmapstart sb + k)) bi)).
    cbn in *. lia. }
  exists t4. split.
  - unfold balloc_in, getsb, set_and_log. fstep0. rewrite Hsb, HB. fstep E1. fstep E2.
    rewrite (proj2 (list_find_Some _ _ bi bi)).
    + fstep E3. fstep E4.
      replace (k * bpb + Z.of_nat bi) with n by (unfold bi; lia). erewrite bind_ok by exact E5. done.
    + split_and!.
      * rewrite lookup_seq. fold bpb. unfold bi. unfold bpb in *. lia.
      * rewrite bit_clear_eq, <- used_in_block by (auto; lia).
        replace (k * bpb + Z.of_nat bi) with n by (unfold bi; lia). by rewrite Hu.
      * intros j y Hy Hj. apply lookup_seq in Hy as [-> _]. rewrite bit_clear_eq, <- used_in_block by lia.
        rewrite Hbefore; [done|]. cbn. unfold bi in Hj. lia.
  - unfold allocated. rewrite Hnk, Hnm. exact H5.
Qed.

(** The first free block. *)
Definition first_free (n : Z) : Prop :=
  0 <= n < sb_size sb /\ used sb v n = false /\ forall m, 0 <= m < n -> used sb v m = true.

Lemma first_free_exists n :
  0 <= n < sb_size sb -> used sb v n = false -> exists n', first_free n'.
Proof.
  intros Hn Hu. pose proof (Z_of_nat_complete n ltac:(lia)) as [k ->].
  induction (lt_wf k) as [k _ IH].
  destruct (decide (Exists (fun m => used sb v (Z.of_nat m) = false) (seq 0 k))) as [Hex|Hall].
  - apply list.Exists_exists in Hex as (m & Hm%elem_of_seq & Hum). apply (IH m); auto; lia.
  - exists (Z.of_nat k). split_and!; auto; try lia. intros m Hm.
    apply not_false_iff_true. intros Hum. apply Hall, list.Exists_exists. exists (Z.to_nat m).
    rewrite elem_of_seq. rewrite Z2Nat.id by lia. split; [lia|done].
Qed.

Lemma balloc_loop cnt k s n :
  stands (fstore s) v -> fsb s = sb -> room sb 1 v -> 1 <= ops v -> first_free n ->
  (Z.of_nat k + Z.of_nat cnt = nmap sb) -> Z.of_nat k * bpb <= n ->
  exists t, for_loop ((fun k => Z.of_nat k * Z.of_nat BPB) <$> seq k cnt) (balloc_in 1) s
            = Ok (Some n) (with_store s t) /\ stands t (allocated sb n v).
Proof.
  intros Ht Hsb Hr Ho (Hn & Hu & Hbefore). revert k s Ht Hsb.
  induction cnt as [|cnt IH]; intros k s Ht Hsb Hk Hkn.
  { assert (nmap sb * bpb <= n) as Hx by (rewrite <- Hk; lia).
    destruct (map_block sb n Hn) as [_ Hlt].
    assert (n / bpb < nmap sb) as Hlt' by lia.
    pose proof (Z.mul_succ_div_gt n bpb ltac:(done)). unfold bpb, BPB in *. lia. }
  cbn [seq fmap list_fmap for_loop]. fold bpb.
  destruct (decide (n < (Z.of_nat k + 1) * bpb)) as [Hin|Hout].
  - destruct (balloc_in_some s (Z.of_nat k) n) as (t & E & Ht'); auto; try lia.
    { intros m Hm. apply Hbefore. unfold bpb in *. lia. }
    exists t. by erewrite bind_ok by exact E.
  - destruct (balloc_in_none s (Z.of_nat k)) as (t & E & Ht'); auto; try lia.
    { destruct Hr. split; lia. }
    { intros m Hm1 Hm2. apply Hbefore. unfold bpb in *. lia. }
    erewrite bind_ok by exact E.
    destruct (IH (Datatypes.S k) (with_store s t)) as (t' & E' & H'); auto; [lia..|].
    exists t'. fold bpb in E'. rewrite E'. done.
Qed.

Lemma balloc_ok s n :
  stands (fstore s) v -> fsb s = sb -> room sb 1 v -> 1 <= ops v -> first_free n ->
  exists t, balloc 1 s = Ok n (with_store s t) /\ stands t (allocated sb n v).
Proof.
  intros Ht Hsb Hr Ho Hn. unfold balloc, getsb, map_starts. fstep0. rewrite Hsb. fold bpb (nmap sb).
  pose proof (nmap_pos sb v Hgeo).
  destruct (balloc_loop (Z.to_nat (nmap sb)) 0 s n) as (t & E & Ht'); auto; [lia|destruct Hn; lia|].
  fold bpb in E. exists t. by erewrite bind_ok by exact E.
Qed.

(** Without a free block, [balloc] panics. *)
Lemma balloc_full s :
  stands (fstore s) v -> fsb s = sb -> room sb 0 v ->
  (forall n, 0 <= n < sb_size sb -> used sb v n = true) ->
  balloc 1 s = Panic "balloc: out of blocks".
Proof.
  intros Ht Hsb Hr Hu. unfold balloc, getsb, map_starts. fstep0. rewrite Hsb. fold bpb (nmap sb).
  assert (exists t, for_loop ((fun k => Z.of_nat k * bpb) <$> seq 0 (Z.to_nat (nmap sb))) (balloc_in 1) s
                    = Ok None (with_store s t)) as [t E]; [|by erewrite bind_ok by exact E].
  assert (forall k cnt, Z.of_nat k + Z.of_nat cnt = nmap sb ->
    forall s, stands (fstore s) v -> fsb s = sb ->
    exists t, for_loop ((fun k => Z.of_nat k * bpb) <$> seq k cnt) (balloc_in 1) s
              = Ok None (with_store s t)) as Hloop.
  2: { apply Hloop; auto. pose proof (nmap_pos sb v Hgeo). lia. }
  clear s Ht Hsb. intros k cnt. revert k. induction cnt as [|cnt IH]; intros k Hk s Ht Hsb.
  { exists (fstore s). by destruct s. }
  cbn [seq fmap list_fmap for_loop].
  destruct (balloc_in_none s (Z.of_nat k)) as (t & E & Ht'); auto; [lia|intros; apply Hu; unfold bpb in *; lia|].
  erewrite bind_ok by exact E.
  destruct (IH (Datatypes.S k)  ltac:(lia) (with_store s t)) as (t' & E'); auto.
  exists t'. rewrite E'. done.
Qed.
End Balloc.
End Alloc.

(** ** The view after an allocation *)
Section Allocated.
Context (sb : superblock) (v : sview) (Hfs : fs_ok sb v).
Let Hgeo : geometry sb v := fo_geo sb v Hfs.

(** Two blocks whose bits are in the same map block are told apart by their
    bits. *)
Lemma same_bit n b :
  n / bpb = b / bpb -> Z.to_nat (n mod bpb) = Z.to_nat (b mod bpb) -> n = b.
Proof.
  intros E1 E2. pose proof (Z.mod_pos_bound n bpb ltac:(done)). pose proof (Z.mod_pos_bound b bpb ltac:(done)).
  rewrite (Z.div_mod n bpb), (Z.div_mod b bpb) by done. lia.
Qed.

Lemma byte_index n : (Z.to_nat (n mod bpb) / 8 < BSIZE)%nat.
Proof.
  pose proof (Z.mod_pos_bound n bpb ltac:(done)). apply Nat.Div0.div_lt_upper_bound.
  unfold bpb, BPB, BSIZE in *. lia.
Qed.

(** The bits when one map block changes from [cont v m] to [d]. *)
Lemma used_written b n d :
  0 <= n < sb_size sb -> 0 <= b < sb_size sb ->
  used sb (written (sb_bmapstart sb + b / bpb) d v) n
  = if decide (n / bpb = b / bpb) then map_bit d (Z.to_nat (n mod bpb)) else used sb v n.
Proof.
  intros Hn Hb. unfold used, written. cbn. destruct (decide (n / bpb = b / bpb)) as [->|Hne].
  - by rewrite fn_lookup_insert.
  - by rewrite fn_lookup_insert_ne by lia.
Qed.

(** Writing a block that is not part of the map leaves the bits. *)
Lemma used_written_other n m d :
  0 <= n < sb_size sb -> ~ is_map sb m -> used sb (written m d v) n = used sb v n.
Proof.
  intros Hn Hm. unfold used, written. cbn. rewrite fn_lookup_insert_ne; [done|].
  intros ->. by apply Hm, map_block.
Qed.

(** Writing a block of a file or of the inodes keeps the file system sane. *)
Lemma fs_ok_written m d : ~ is_map sb m -> m <> 1 -> fs_ok sb (written m d v).
Proof.
  intros Hm Hm1. split.
  - by apply (geometry_same sb v).
  - intros n Hn. rewrite used_written_other by done. by apply (fo_free sb v Hfs).
  - rewrite cont_written, fn_lookup_insert_ne by done. apply (fo_sb sb v Hfs).
Qed.
End Allocated.

Section AllocatedFacts.
Context (sb : superblock) (v : sview) (Hfs : fs_ok sb v).
Context (Hlen : forall n, 0 <= n < nblk v -> length (cont v n) = BSIZE).
Context (b : Z) (Hb : 0 <= b < sb_size sb).
Let Hgeo : geometry sb v := fo_geo sb v Hfs.
Let m : Z := sb_bmapstart sb + b / bpb.

Lemma map_of_b : is_map sb m /\ 1 < m < nblk v.
Proof. split; [by apply map_block|]. by apply (map_range sb v Hgeo), map_block. Qed.

Lemma used_set n :
  0 <= n < sb_size sb ->
  used sb (written m (set_bit (cont v m) (Z.to_nat (b mod bpb))) v) n
  = used sb v n || bool_decide (n = b).
Proof.
  intros Hn. unfold m. rewrite used_written by done. destruct map_of_b as [_ Hm].
  destruct (decide (n / bpb = b / bpb)) as [E|Hne].
  - rewrite map_bit_set by (rewrite Hlen by (unfold m in Hm; lia); apply byte_index).
    unfold used. rewrite E. f_equal. apply bool_decide_ext. split; [|by intros ->].
    intros ?. by apply same_bit.
  - rewrite bool_decide_false by (by intros ->). by rewrite orb_false_r.
Qed.

Lemma used_clear n :
  0 <= n < sb_size sb ->
  used sb (written m (clear_bit (cont v m) (Z.to_nat (b mod bpb))) v) n
  = used sb v n && negb (bool_decide (n = b)).
Proof.
  intros Hn. unfold m. rewrite used_written by done. destruct map_of_b as [_ Hm].
  destruct (decide (n / bpb = b / bpb)) as [E|Hne].
  - rewrite map_bit_clear by (rewrite Hlen by (unfold m in Hm; lia); apply byte_index).
    unfold used. rewrite E. do 2 f_equal. apply bool_decide_ext. split; [|by intros ->].
    intros ?. by apply same_bit.
  - rewrite bool_decide_false by (by intros ->). by rewrite andb_true_r.
Qed.

Lemma same_disk_allocated : same_disk v (allocated sb b v).
Proof. done. Qed.

Lemma used_allocated n :
  is_data sb v b -> 0 <= n < sb_size sb ->
  used sb (allocated sb b v) n = used sb v n || bool_decide (n = b).
Proof.
  intros (_ & _ & Hnm & _) Hn. unfold allocated. rewrite used_written_other by done. by apply used_set.
Qed.

Lemma cont_allocated k :
  ~ is_map sb k -> cont (allocated sb b v) k = if decide (k = b) then replicate BSIZE 0 else cont v k.
Proof.
  intros Hk. unfold allocated, written. cbn. destruct (decide (k = b)) as [->|Hne].
  - by rewrite fn_lookup_insert.
  - rewrite !fn_lookup_insert_ne; auto. intros E. apply Hk. rewrite <- E. by apply map_block.
Qed.

Lemma fs_ok_allocated : is_data sb v b -> fs_ok sb (allocated sb b v).
Proof.
  intros Hd. split.
  - by apply (geometry_same sb v).
  - intros n Hn Hu. rewrite used_allocated in Hu by done. apply orb_false_elim in Hu as [Hu _].
    by apply (fo_free sb v Hfs).
  - rewrite cont_allocated.
    + destruct (decide (1 = b)) as [<-|_]; [destruct Hd; lia|]. apply (fo_sb sb v Hfs).
    + destruct map_of_b as [[H1 H2] _]. unfold is_map. destruct (geo_map sb v Hgeo). lia.
Qed.

Lemma pcount_allocated :
  is_data sb v b -> (pcount sb (allocated sb b v) <= pcount sb v + 1)%nat.
Proof.
  intros (_ & _ & Hnm & _). unfold allocated.
  pose proof (pcount_written sb m (set_bit (cont v m) (Z.to_nat (b mod bpb))) v) as H1.
  pose proof (pcount_written sb b (replicate BSIZE 0)
    (written m (set_bit (cont v m) (Z.to_nat (b mod bpb))) v)) as H2.
  destruct map_of_b as [Hm _]. fold m. rewrite decide_True in H1 by done.
  rewrite decide_False in H2 by done. lia.
Qed.

Lemma pend_allocated k : k ∈ pend (allocated sb b v) <-> k ∈ pend v \/ k = m \/ k = b.
Proof.
  unfold allocated, written. fold m. cbn. rewrite !elem_of_add_pend. tauto.
Qed.
End AllocatedFacts.

(** ** [bfree] *)
Section Free.
Context {S : Type} `{BlockStoreSpec S}.
Context (sb : superblock) (v : sview) (Hfs : fs_ok sb v) (Hh : holds_ok sb v).
Context (Hh1 : 1 ∉ (hold v).*2).
Let Hgeo : geometry sb v := fo_geo sb v Hfs.

(** The view after block [b] was freed. *)
Definition freed (b : Z) : sview :=
  let m := sb_bmapstart sb + b / bpb in
  written m (clear_bit (cont v m) (Z.to_nat (b mod bpb))) v.

Lemma readsb_ok s :
  stands (fstore s) v -> room sb 0 v ->
  exists t, fs_readsb 1 s = Ok sb (with_store s t) /\ stands t v.
Proof.
  intros Ht Hr. destruct (room_reads sb v Hfs Hh _ _ Ht Hr) as [Hcr _].
  destruct (read_only (fstore s) v 1) as (b & t1 & t2 & E1 & E2 & E3 & H3); auto.
  { pose proof (nmap_pos sb v Hgeo). destruct Hgeo. lia. }
  exists t2. split; [|done]. unfold fs_readsb. fstep E1. fstep E2. fstep E3.
  by rewrite (fo_sb sb v Hfs).
Qed.

(** The run of [bfree] up to the test of the bit. *)
Lemma bfree_run s b :
  stands (fstore s) v -> fsb s = sb -> room sb 0 v -> 1 <= ops v -> 0 <= b < sb_size sb ->
  if used sb v b
  then exists t, bfree 1 b s = Ok tt (with_store s t) /\ stands t (freed b)
  else bfree 1 b s = Panic "freeing free block".
Proof.
  intros Ht Hsb Hr Ho Hb. destruct (readsb_ok s Ht Hr) as (t0 & E0 & Ht0).
  destruct (room_reads sb v Hfs Hh _ _ Ht Hr) as [Hcr Hcap].
  pose proof (map_block sb b Hb) as Hm. pose proof (map_range sb v Hgeo _ Hm) as Hmr.
  set (m := sb_bmapstart sb + b / bpb) in *.
  destruct (read_write t0 v m (clear_bit (cont v m) (Z.to_nat (b mod bpb))))
    as (bp & t1 & t2 & t3 & E1 & E2 & E3 & E4 & H4); auto.
  { lia. } { by eapply holds_ok_map. } { by apply (geo_map_wr sb v Hgeo). } { lia. }
  { rewrite length_clear_bit. apply (law_length t0 v); auto; lia. }
  assert (bfree 1 b s = (if bit_clear (cont v m) (Z.to_nat (b mod bpb)) then panic "freeing free block"
    else set_and_log bp (clear_bit (cont v m) (Z.to_nat (b mod bpb)));; on_store (st_brelse bp))
      (with_store s t1)) as ->.
  { unfold bfree, setsb. erewrite bind_ok by exact E0. fstep0. rewrite (BBLOCK_eq sb v) by auto. fold m.
    cbn [with_store fstore fsb inodes]. rewrite <- Hsb. change (mk_fsys t0 (fsb s) (inodes s)) with (with_store s t0).
    fstep E1. fold bpb. fstep E2. done. }
  rewrite bit_clear_eq. unfold used. fold m. destruct (map_bit _ _); cbn [negb]; [|done].
  exists t3. split; [|done]. unfold set_and_log. fstep E3. by erewrite on_store_ok by exact E4.
Qed.

Lemma fs_ok_freed b :
  (forall n, 0 <= n < nblk v -> length (cont v n) = BSIZE) ->
  is_data sb v b -> fs_ok sb (freed b).
Proof.
  intros Hlen Hd. assert (0 <= b < sb_size sb) as Hb by (destruct Hd; lia). split.
  - by apply (geometry_same sb v).
  - intros n Hn Hu. unfold freed in Hu. rewrite used_clear in Hu by done.
    destruct (used sb v n) eqn:E; cbn in Hu; [|by apply (fo_free sb v Hfs)].
    apply negb_false_iff, bool_decide_eq_true in Hu as ->. done.
  - unfold freed, written. cbn. rewrite fn_lookup_insert_ne; [apply (fo_sb sb v Hfs)|].
    pose proof (map_range sb v Hgeo _ (map_block sb b Hb)). lia.
Qed.
End Free.

(** ** The allocator *)
Section Allocator.
Context {S : Type} `{BlockStoreSpec S}.

(** C9: [balloc] returns the first free block of the disk, which is a block of
    data and not of the boot sector, the log, the inodes or the free map; the
    block is then marked in use and zero, no other mark changes, and no other
    block outside the free map changes. *)
Theorem balloc_allocates (s : fsys S) sb v n :
  stands (fstore s) v -> fsb s = sb -> fs_ok sb v -> holds_ok sb v -> room sb 1 v -> 1 <= ops v ->
  0 <= n < sb_size sb -> used sb v n = false ->
  exists b t v', balloc 1 s = Ok b (with_store s t) /\ stands t v' /\ fs_ok sb v'
    /\ first_free sb v b /\ is_data sb v b
    /\ cont v' b = replicate BSIZE 0
    /\ (forall k, 0 <= k < sb_size sb -> used sb v' k = used sb v k || bool_decide (k = b))
    /\ (forall k, ~ is_map sb k -> k <> b -> cont v' k = cont v k).
Proof.
  intros Hs Hsb Hok Hh Hr Ho Hn Hu. destruct (first_free_exists sb v n Hn Hu) as [b Hb].
  destruct (balloc_ok sb v Hok Hh s b) as (t & E & Ht); auto. pose proof Hb as (Hbr & Hbu & _).
  assert (is_data sb v b) as Hd by (by apply (fo_free sb v Hok)). pose proof Hd as (_ & _ & Hnm & _).
  pose proof (fun n => law_length (fstore s) v n Hs) as Hlen.
  exists b, t, (allocated sb b v). split_and!; auto using fs_ok_allocated, used_allocated.
  - rewrite cont_allocated by done. by rewrite decide_True.
  - intros k Hk Hne. rewrite cont_allocated by done. by rewrite decide_False.
Qed.

(** [bfree] undoes [balloc]: after both, every block has the mark it had
    before; freeing the block a second time panics. *)
Theorem bfree_undoes_balloc (s : fsys S) sb v n :
  stands (fstore s) v -> fsb s = sb -> fs_ok sb v -> hold v = [] -> room sb 1 v -> 1 <= ops v ->
  0 <= n < sb_size sb -> used sb v n = false ->
  exists b s1 t2 v2, balloc 1 s = Ok b s1 /\ bfree 1 b s1 = Ok tt (with_store s t2) /\ stands t2 v2
    /\ (forall k, 0 <= k < sb_size sb -> used sb v2 k = used sb v k)
    /\ bfree 1 b (with_store s t2) = Panic "freeing free block".
Proof.
  intros Hs Hsb Hok Hh Hr Ho Hn Hu. destruct (first_free_exists sb v n Hn Hu) as [b Hb].
  assert (forall v, hold v = [] -> holds_ok sb v) as Hno.
  { intros w Hw. unfold holds_ok. rewrite Hw. split; [cbn; lia|]. by intros k ?%not_elem_of_nil. }
  destruct (balloc_ok sb v Hok (Hno v Hh) s b) as (t & E & Ht); auto. pose proof Hb as (Hbr & Hbu & _).
  assert (is_data sb v b) as Hd by (by apply (fo_free sb v Hok)).
  pose proof (fun n => law_length (fstore s) v n Hs) as Hlen.
  set (v1 := allocated sb b v) in *. assert (fs_ok sb v1) as Hok1 by (by apply fs_ok_allocated).
  pose proof (fun n => law_length t v1 n Ht) as Hlen1.
  pose proof (pcount_allocated sb v Hok b Hbr Hd) as Hp1.
  assert (room sb 0 v1) as Hr1.
  { destruct Hr as [Hr1 Hr2]. split; [change (cap v1) with (cap v)|]; fold v1 in Hp1; lia. }
  assert (used sb v1 b = true) as Hu1.
  { unfold v1. rewrite used_allocated by done. rewrite bool_decide_true by done. apply orb_true_r. }
  assert (1 ∉ (hold v1).*2) as Hh1 by (change (hold v1) with (hold v); rewrite Hh; apply not_elem_of_nil).
  pose proof (bfree_run sb v1 Hok1 (Hno v1 Hh) Hh1 (with_store s t) b Ht Hsb Hr1 Ho Hbr) as Hrun.
  rewrite Hu1 in Hrun. destruct Hrun as (t2 & E2 & Ht2).
  set (v2 := freed sb v1 b) in *. assert (fs_ok sb v2) as Hok2 by (by apply fs_ok_freed).
  assert (forall k, 0 <= k < sb_size sb -> used sb v2 k = used sb v k) as Hu2.
  { intros k Hk. unfold v2, freed. rewrite used_clear by done. unfold v1. rewrite used_allocated by done.
    destruct (decide (k = b)) as [->|Hne].
    - rewrite bool_decide_true, Hbu by done. done.
    - rewrite bool_decide_false by done. by destruct (used sb v k). }
  assert (room sb 0 v2) as Hr2.
  { destruct Hr1 as [Ha Hb']. pose proof (pcount_written sb (sb_bmapstart sb + b / bpb)
      (clear_bit (cont v1 (sb_bmapstart sb + b / bpb)) (Z.to_nat (b mod bpb))) v1) as Hp.
    rewrite decide_True in Hp by (by apply map_block). fold (freed sb v1 b) v2 in Hp.
    split; [change (cap v2) with (cap v1)|]; lia. }
  exists b, (with_store s t), t2, v2. split_and!; auto.
  pose proof (bfree_run sb v2 Hok2 (Hno v2 Hh) Hh1 (with_store s t2) b Ht2 Hsb Hr2 Ho Hbr) as Hrun.
  by rewrite Hu2, Hbu in Hrun by done.
Qed.
End Allocator.
