(* ===== verification/FsTree.v ===== *)
(** * The block map

    The blocks of a file form a forest below the entries of its inode: direct
    blocks, and single, double and triple indirect tables.  This file says what
    a well-formed forest is, and that [bmap] returns the block of a file block,
    allocating what is missing and changing nothing else. *)

From S2P Require Import Prelude CString Bio Log LogTheory BlockStore Fs FsBlocks.
Open Scope Z_scope.

(** ** Locations *)

(** An entry of the inode and the indices that lead to a block below it. *)
Definition loc : Type := nat * list nat.
(** How many tables there are between an entry and the data. *)
Definition depth (slot : nat) : nat := slot - 9.
Definition valid_loc (q : loc) : Prop :=
  (q.1 < 13)%nat /\ (length q.2 <= depth q.1)%nat /\ Forall (fun i => i < NINDIRECT)%nat q.2.
Definition is_leaf (q : loc) : Prop := length q.2 = depth q.1.

Definition child (C : Z -> list Z) (a : Z) (i : nat) : Z :=
  if a =? 0 then 0 else get32 (C a) (4 * i).
(** The block at a location, 0 if there is none. *)
Definition node (C : Z -> list Z) (addrs : list Z) (q : loc) : Z :=
  foldl (child C) (addrs !!! q.1) q.2.

Lemma node_snoc C addrs slot js j :
  node C addrs (slot, js ++ [j]) = child C (node C addrs (slot, js)) j.
Proof. unfold node. cbn. by rewrite foldl_app. Qed.

Lemma no_child C idxs : foldl (child C) 0 idxs = 0.
Proof. induction idxs; done. Qed.

Lemma valid_parent slot js j :
  valid_loc (slot, js ++ [j]) ->
  valid_loc (slot, js) /\ ~ is_leaf (slot, js) /\ (j < NINDIRECT)%nat.
Proof.
  intros (H1 & H2 & H3). cbn in *. rewrite length_app in H2. cbn in H2.
  apply Forall_app in H3 as [H3 H4]. apply list.Forall_cons in H4 as [H4 _].
  unfold valid_loc, is_leaf, depth in *. cbn. split_and!; auto; lia.
Qed.

Lemma valid_prefix slot js idxs : valid_loc (slot, js ++ idxs) -> valid_loc (slot, js).
Proof.
  intros (H1 & H2 & H3). cbn in *. rewrite length_app in H2. apply Forall_app in H3 as [H3 _].
  unfold valid_loc. cbn. split_and!; auto; lia.
Qed.

(** Descends along the valid locations below an entry. *)
Lemma loc_ind (P : loc -> Prop) :
  (forall slot, P (slot, [])) ->
  (forall slot js j, valid_loc (slot, js ++ [j]) -> P (slot, js) -> P (slot, js ++ [j])) ->
  forall q, valid_loc q -> P q.
Proof.
  intros H0 HS [slot js]. induction js as [|j js IH] using rev_ind; intros Hq; [auto|].
  apply HS; [done|]. apply IH. by apply valid_parent in Hq as [? _].
Qed.

Lemma get32_zeros n off : get32 (replicate n 0) off = 0.
Proof.
  unfold get32, slice. rewrite drop_replicate, take_replicate.
  induction (Nat.min 4 (n - off)) as [|k IH]; [done|]. cbn [replicate le_value]. rewrite IH. done.
Qed.

(** The nodes depend only on the entries of the inode and of the tables. *)
Lemma node_ext C C' addrs q :
  valid_loc q ->
  (forall p, valid_loc p -> ~ is_leaf p -> node C addrs p <> 0 -> C' (node C addrs p) = C (node C addrs p)) ->
  node C' addrs q = node C addrs q.
Proof.
  intros Hq HC. revert q Hq. apply (loc_ind (fun q => node C' addrs q = node C addrs q)); [done|].
  intros slot js j Hv IH. rewrite !node_snoc, IH. apply valid_parent in Hv as (Hv & Hl & _).
  unfold child. destruct (Z.eqb_spec (node C addrs (slot, js)) 0); [done|]. by rewrite HC.
Qed.

Record tree_ok (sb : superblock) (v : sview) (addrs : list Z) : Prop := {
  t_len : length addrs = 13%nat;
  t_data : forall q, valid_loc q -> node (cont v) addrs q <> 0 ->
    is_data sb v (node (cont v) addrs q) /\ used sb v (node (cont v) addrs q) = true;
  t_inj : forall q q', valid_loc q -> valid_loc q' -> node (cont v) addrs q <> 0 ->
    node (cont v) addrs q = node (cont v) addrs q' -> q = q';
}.

(** [v'] and [addrs'] result from [v] and [addrs] by allocating blocks for the
    file: blocks in use keep their contents unless they are tables of the file,
    and new blocks of data are zero. *)
Record extends (sb : superblock) (v : sview) (addrs : list Z) (v' : sview) (addrs' : list Z) : Prop := {
  e_used : forall n, 0 <= n < sb_size sb -> used sb v n = true -> used sb v' n = true;
  e_keep : forall q, valid_loc q -> node (cont v) addrs q <> 0 ->
    node (cont v') addrs' q = node (cont v) addrs q;
  e_new : forall q, valid_loc q -> node (cont v) addrs q = 0 -> node (cont v') addrs' q <> 0 ->
    used sb v (node (cont v') addrs' q) = false /\
    (is_leaf q -> cont v' (node (cont v') addrs' q) = replicate BSIZE 0);
  e_data : forall m, 0 < m < sb_size sb -> ~ is_map sb m -> used sb v m = true ->
    (forall q, valid_loc q -> ~ is_leaf q -> node (cont v) addrs q <> m) -> cont v' m = cont v m;
}.

Lemma extends_refl sb v addrs : extends sb v addrs v addrs.
Proof. split; auto. intros q _ E Hne. congruence. Qed.

Lemma leaf_not_table sb v addrs q :
  tree_ok sb v addrs -> valid_loc q -> is_leaf q -> node (cont v) addrs q <> 0 ->
  forall p, valid_loc p -> ~ is_leaf p -> node (cont v) addrs p <> node (cont v) addrs q.
Proof.
  intros Ht Hq Hl Hn p Hp Hpl E. apply Hpl. by rewrite <- (t_inj sb v addrs Ht q p Hq Hp Hn (eq_sym E)).
Qed.

Lemma node_range sb v addrs q :
  tree_ok sb v addrs -> valid_loc q -> node (cont v) addrs q <> 0 ->
  0 < node (cont v) addrs q < sb_size sb /\ ~ is_map sb (node (cont v) addrs q).
Proof. intros Ht Hq Hn. destruct (t_data _ _ _ Ht q Hq Hn) as [(? & _ & ? & _) _]. split; [lia|done]. Qed.

Lemma extends_trans sb v1 a1 v2 a2 v3 a3 :
  tree_ok sb v2 a2 -> tree_ok sb v3 a3 ->
  extends sb v1 a1 v2 a2 -> extends sb v2 a2 v3 a3 -> extends sb v1 a1 v3 a3.
Proof.
  intros Ht2 Ht3 H1 H2.
  assert (forall n, 0 <= n < sb_size sb -> used sb v2 n = false -> used sb v1 n = false) as Hfree.
  { intros n Hn Hu. destruct (used sb v1 n) eqn:E; [|done].
    by rewrite (e_used _ _ _ _ _ H1 n Hn E) in Hu. }
  split.
  - intros n Hn Hu. by apply (e_used _ _ _ _ _ H2), (e_used _ _ _ _ _ H1).
  - intros q Hq Hn. pose proof (e_keep _ _ _ _ _ H1 q Hq Hn) as E.
    rewrite (e_keep _ _ _ _ _ H2 q Hq) by congruence. done.
  - intros q Hq E Hn. destruct (node_range _ _ _ q Ht3 Hq Hn) as [Hr _].
    destruct (decide (node (cont v2) a2 q = 0)) as [E2|N2].
    + destruct (e_new _ _ _ _ _ H2 q Hq E2 Hn) as [Hu Hz]. split; [|done]. apply Hfree; [lia|done].
    + destruct (e_new _ _ _ _ _ H1 q Hq E N2) as [Hu Hz].
      pose proof (e_keep _ _ _ _ _ H2 q Hq N2) as Ek. rewrite Ek. split; [done|]. intros Hl.
      destruct (node_range _ _ _ q Ht2 Hq N2) as [Hr2 Hm].
      rewrite (e_data _ _ _ _ _ H2); auto; [by apply (t_data _ _ _ Ht2)|].
      by apply (leaf_not_table sb).
  - intros m Hm Hnm Hu Hnt.
    rewrite (e_data _ _ _ _ _ H2), (e_data _ _ _ _ _ H1); auto; [apply (e_used _ _ _ _ _ H1); [lia|done]|].
    intros q Hq Hl E. destruct (decide (node (cont v1) a1 q = 0)) as [E1|N1].
    + destruct (e_new _ _ _ _ _ H1 q Hq E1) as [Hu' _]; [lia|congruence].
    + apply (Hnt q Hq Hl). by rewrite <- (e_keep _ _ _ _ _ H1).
Qed.

(** ** Attaching a new block *)
Section Attach.
Context (sb : superblock) (v v' : sview) (addrs addrs' : list Z) (p : loc) (b : Z).
Context (Ht : tree_ok sb v addrs).
Context (Hp : valid_loc p) (Hp0 : node (cont v) addrs p = 0).
Context (Hb : is_data sb v b) (Hfree : used sb v b = false).

(** The entries of the inode and of the tables, with [b] stored for [p]. *)
Context (Hroot : forall slot, addrs' !!! slot = if decide ((slot, []) = p) then b else addrs !!! slot).
Context (Hparent : forall slot js j, p = (slot, js ++ [j]) -> node (cont v) addrs (slot, js) <> 0).
Context (Htable : forall slot js j, valid_loc (slot, js ++ [j]) -> node (cont v) addrs (slot, js) <> 0 ->
  get32 (cont v' (node (cont v) addrs (slot, js))) (4 * j)
  = if decide ((slot, js ++ [j]) = p) then b else get32 (cont v (node (cont v) addrs (slot, js))) (4 * j)).
Context (Hzero : cont v' b = replicate BSIZE 0).

Lemma attach_node q :
  valid_loc q ->
  node (cont v') addrs' q = if decide (q = p) then b else node (cont v) addrs q.
Proof.
  revert q. apply loc_ind.
  - intros slot. unfold node. cbn. apply Hroot.
  - intros slot js j Hv IH. rewrite node_snoc, IH, node_snoc.
    assert ((slot, js) <> (slot, js ++ [j])) as Hlonger.
    { intros [= E]. apply (f_equal length) in E. rewrite length_app in E. cbn in E. lia. }
    case_decide as E.
    + rewrite decide_False by congruence. unfold child at 1. rewrite Hzero, get32_zeros, E, Hp0.
      by destruct (b =? 0).
    + unfold child. case_decide as E'.
      * pose proof (Hparent slot js j (eq_sym E')) as Hpar.
        rewrite (proj2 (Z.eqb_neq _ _)) by done. rewrite Htable by done. by rewrite decide_True.
      * destruct (Z.eqb_spec (node (cont v) addrs (slot, js)) 0); [done|].
        rewrite Htable by done. by rewrite decide_False.
Qed.

Context (Hdisk : same_disk v v').
Context (Hlen : length addrs' = 13%nat).
Context (Hused : forall n, 0 <= n < sb_size sb -> used sb v' n = used sb v n || bool_decide (n = b)).
Context (Hcont : forall m, 0 < m < sb_size sb -> ~ is_map sb m -> m <> b ->
  (forall q, valid_loc q -> ~ is_leaf q -> node (cont v) addrs q <> m) -> cont v' m = cont v m).

Lemma b_range : 0 < b < sb_size sb.
Proof. destruct Hb. lia. Qed.

Lemma old_node_used q :
  valid_loc q -> node (cont v) addrs q <> 0 -> node (cont v) addrs q <> b.
Proof. intros Hq Hn E. destruct (t_data _ _ _ Ht q Hq Hn) as [_ Hu]. congruence. Qed.

Lemma attach_tree : tree_ok sb v' addrs'.
Proof.
  pose proof b_range as Hbr. split; [done|..].
  - intros q Hq. rewrite attach_node by done. rewrite (is_data_same sb v v') by done.
    destruct (decide (q = p)) as [->|Hne]; intros Hn.
    + split; [done|]. rewrite Hused by lia. rewrite bool_decide_true by done. apply orb_true_r.
    + destruct (node_range _ _ _ q Ht Hq Hn) as [Hr _]. destruct (t_data _ _ _ Ht q Hq Hn) as [Hd Hu].
      split; [done|]. rewrite Hused by lia. by rewrite Hu.
  - intros q q' Hq Hq'. rewrite !attach_node by done.
    destruct (decide (q = p)) as [->|Hne], (decide (q' = p)) as [->|Hne']; intros Hn E; auto.
    + destruct (old_node_used q' Hq'); congruence.
    + destruct (old_node_used q Hq); congruence.
    + by apply (t_inj _ _ _ Ht).
Qed.

Lemma attach_extends : extends sb v addrs v' addrs'.
Proof.
  pose proof b_range as Hbr. split.
  - intros n Hn Hu. by rewrite Hused, Hu.
  - intros q Hq Hn. rewrite attach_node by done. destruct (decide (q = p)); [congruence|done].
  - intros q Hq E. rewrite attach_node by done. destruct (decide (q = p)); [|done]. auto.
  - intros m Hm Hnm Hu Hnt. apply Hcont; auto. congruence.
Qed.
End Attach.

(** A new block [b] in an entry of the inode or of a table. *)
Section NewBlock.
Context (sb : superblock) (v : sview) (addrs : list Z) (b : Z).
Context (Hok : fs_ok sb v) (Ht : tree_ok sb v addrs).
Context (Hlen : forall n, 0 <= n < nblk v -> length (cont v n) = BSIZE).
Context (Hbr : 0 <= b < sb_size sb) (Hbu : used sb v b = false).

Lemma new_data : is_data sb v b.
Proof. by apply (fo_free sb v Hok). Qed.

Lemma cont_other m : ~ is_map sb m -> m <> b -> cont (allocated sb b v) m = cont v m.
Proof. intros Hm Hne. rewrite cont_allocated by done. by rewrite decide_False. Qed.

Lemma cont_new : cont (allocated sb b v) b = replicate BSIZE 0.
Proof. destruct new_data as (_ & _ & Hnm & _). rewrite cont_allocated by done. by rewrite decide_True. Qed.

Lemma attach_root i :
  (i < 13)%nat -> addrs !! i = Some 0 ->
  tree_ok sb (allocated sb b v) (<[i := b]> addrs)
  /\ extends sb v addrs (allocated sb b v) (<[i := b]> addrs).
Proof.
  intros Hi Hi0. pose proof new_data as Hd. pose proof (t_len _ _ _ Ht) as Hl.
  assert (valid_loc (i, [])) as Hv by (unfold valid_loc; cbn; split_and!; auto; lia).
  assert (node (cont v) addrs (i, []) = 0) as Hp0 by (unfold node; cbn; by apply list_lookup_total_correct).
  assert (forall slot, <[i := b]> addrs !!! slot
            = if decide ((slot, []) = (i, []) :> loc) then b else addrs !!! slot) as Hroot.
  { intros slot. case_decide as E.
    - injection E as ->. apply list_lookup_total_insert_eq. by rewrite Hl.
    - apply list_lookup_total_insert_ne. congruence. }
  assert (forall slot js j, (i, []) = (slot, js ++ [j]) -> node (cont v) addrs (slot, js) <> 0) as Hpar
    by (intros slot js j [= _ E]; by destruct js).
  assert (forall slot js j, valid_loc (slot, js ++ [j]) -> node (cont v) addrs (slot, js) <> 0 ->
      get32 (cont (allocated sb b v) (node (cont v) addrs (slot, js))) (4 * j)
      = if decide ((slot, js ++ [j]) = (i, []) :> loc) then b
        else get32 (cont v (node (cont v) addrs (slot, js))) (4 * j)) as Htab.
  { intros slot js j Hq%valid_parent Hn. destruct Hq as (Hq & _ & _).
    rewrite decide_False by (intros [= _ E]; by destruct js).
    destruct (node_range _ _ _ _ Ht Hq Hn). rewrite cont_other; auto.
    by apply (old_node_used sb v addrs b Ht). }
  split.
  - apply (attach_tree sb v _ addrs _ (i, []) b); auto using cont_new, used_allocated;
      [done|by rewrite length_insert].
  - apply (attach_extends sb v _ addrs _ (i, []) b); auto using cont_new, used_allocated, cont_other.
    by rewrite length_insert.
Qed.

(** The entry [j] of the table [a] at [(slot, js)]. *)
Section Table.
Context (slot j : nat) (js : list nat) (a : Z).
Context (Hv : valid_loc (slot, js ++ [j])).
Context (Ha : node (cont v) addrs (slot, js) = a) (Ha0 : a <> 0) (He : get32 (cont v a) (4 * j) = 0).

Definition new_entry : sview := written a (put32 (cont v a) (4 * j) b) (allocated sb b v).

Lemma table_facts : is_data sb v a /\ used sb v a = true /\ a <> b /\ (4 * j + 4 <= BSIZE)%nat.
Proof.
  destruct (valid_parent slot js j Hv) as (Hp & _ & Hj). rewrite <- Ha in Ha0 |- *.
  destruct (t_data _ _ _ Ht _ Hp Ha0) as [Hd Hu]. split_and!; auto; [congruence|].
  unfold NINDIRECT, BSIZE in *. lia.
Qed.

Lemma length_table : length (cont v a) = BSIZE.
Proof. destruct table_facts as [Hd _]. apply Hlen. pose proof (data_range sb v (fo_geo sb v Hok) a Hd). lia. Qed.

Lemma cont_new_entry m :
  ~ is_map sb m -> m <> b ->
  cont new_entry m = if decide (m = a) then put32 (cont v a) (4 * j) b else cont v m.
Proof.
  intros Hm Hne. unfold new_entry. rewrite cont_written. destruct (decide (m = a)) as [->|Hma].
  - by rewrite fn_lookup_insert.
  - rewrite fn_lookup_insert_ne by done. by apply cont_other.
Qed.

Lemma used_new_entry n :
  0 <= n < sb_size sb -> used sb new_entry n = used sb v n || bool_decide (n = b).
Proof.
  intros Hn. destruct table_facts as ((_ & _ & Hnm & _) & _). unfold new_entry.
  rewrite used_written_other by done. apply used_allocated; auto using new_data.
Qed.

Lemma attach_entry :
  tree_ok sb new_entry addrs /\ extends sb v addrs new_entry addrs.
Proof.
  pose proof new_data as Hd. pose proof (t_len _ _ _ Ht) as Hl.
  destruct table_facts as (Hda & Hua & Hab & Hj4). destruct (valid_parent slot js j Hv) as (Hp & Hnl & Hj).
  assert (node (cont v) addrs (slot, js ++ [j]) = 0) as Hp0.
  { rewrite node_snoc, Ha. unfold child. by rewrite (proj2 (Z.eqb_neq _ _)). }
  assert (forall s, addrs !!! s = if decide ((s, []) = (slot, js ++ [j]) :> loc) then b else addrs !!! s) as Hroot.
  { intros s. rewrite decide_False; [done|]. intros [= _ E]. by destruct js. }
  assert (forall s ks k, (slot, js ++ [j]) = (s, ks ++ [k]) -> node (cont v) addrs (s, ks) <> 0) as Hpar.
  { intros s ks k [= <- E]. apply app_inj_2 in E as [<- _]; [|done]. by rewrite Ha. }
  assert (forall s ks k, valid_loc (s, ks ++ [k]) -> node (cont v) addrs (s, ks) <> 0 ->
      get32 (cont new_entry (node (cont v) addrs (s, ks))) (4 * k)
      = if decide ((s, ks ++ [k]) = (slot, js ++ [j]) :> loc) then b
        else get32 (cont v (node (cont v) addrs (s, ks))) (4 * k)) as Htab.
  { intros s ks k (Hq & Hql & Hk)%valid_parent Hn. destruct (node_range _ _ _ _ Ht Hq Hn) as [Hr Hm].
    rewrite cont_new_entry by (auto; by apply (old_node_used sb v addrs b Ht)).
    destruct (decide (node (cont v) addrs (s, ks) = a)) as [E|Hne].
    - rewrite E. assert ((s, ks) = (slot, js)) as [= -> ->]
        by (apply (t_inj _ _ _ Ht); auto; congruence).
      pose proof length_table as Hla. case_decide as E'.
      + injection E' as E'. apply app_inj_2 in E' as [_ [= ->]]; [|done].
        rewrite get32_put32_same by lia. apply u32_small. pose proof (geo_small sb v (fo_geo sb v Hok)).
        pose proof (geo_size sb v (fo_geo sb v Hok)). lia.
      + rewrite get32_put32_other; [done|lia|]. assert (k <> j) by congruence. lia.
    - rewrite decide_False; [done|]. intros [= -> E]. apply app_inj_2 in E as [-> _]; [|done]. congruence. }
  assert (cont new_entry b = replicate BSIZE 0) as Hz.
  { unfold new_entry. rewrite cont_written. rewrite fn_lookup_insert_ne by done. apply cont_new. }
  split.
  - apply (attach_tree sb v _ addrs _ (slot, js ++ [j]) b); auto using used_new_entry. done.
  - apply (attach_extends sb v _ addrs _ (slot, js ++ [j]) b); auto using used_new_entry.
    intros m Hm Hnm Hmb Hnt. rewrite cont_new_entry by done. rewrite decide_False; [done|].
    intros ->. by apply (Hnt _ Hp Hnl).
Qed.
End Table.
End NewBlock.

(** ** Free blocks *)
Definition has_free (sb : superblock) (v : sview) (k : nat) : Prop :=
  exists l : list Z, NoDup l /\ length l = k /\
    forall n, n ∈ l -> 0 <= n < sb_size sb /\ used sb v n = false.

Lemma has_free_le sb v k k' : (k' <= k)%nat -> has_free sb v k -> has_free sb v k'.
Proof.
  intros Hk (l & Hnd & Hl & Hf). exists (take k' l). split_and!.
  - eapply sublist_NoDup; [done|apply sublist_take].
  - rewrite length_take. lia.
  - intros n Hn. apply Hf. by eapply subseteq_take.
Qed.

Lemma filter_ne_length (b : Z) (l : list Z) :
  NoDup l -> (length l <= S (length (filter (fun n => n <> b) l)))%nat.
Proof.
  induction 1 as [|x l Hx Hl IH]; cbn [length]; [lia|]. rewrite filter_cons.
  destruct (decide (x <> b)); cbn [length]; [lia|].
  rewrite filter_ne_id; [lia|]. by assert (x = b) as <- by (by destruct (decide (x = b))).
Qed.

Lemma has_free_less sb v v' b k :
  (forall n, 0 <= n < sb_size sb -> used sb v' n = used sb v n || bool_decide (n = b)) ->
  has_free sb v (S k) -> has_free sb v' k.
Proof.
  intros Hu (l & Hnd & Hl & Hf). apply (has_free_le sb v' (length (filter (fun n => n <> b) l))).
  { pose proof (filter_ne_length b l Hnd). lia. }
  exists (filter (fun n => n <> b) l). split_and!; [by apply list.NoDup_filter|done|].
  intros n [Hne Hn]%list_elem_of_filter. destruct (Hf n Hn) as [Hr Hun]. split; [done|].
  rewrite Hu, Hun by done. by rewrite bool_decide_false.
Qed.

(** ** Routes *)
(** Where the code of [bmap] looks for file block [bn]. *)
Definition route (bn : Z) : option loc :=
  let d := bn - 138 in
  let t := d - NDOUBINDIRECT in
  if bn <? 10 then Some (Z.to_nat bn, [])
  else if bn - 10 <? 128 then Some (10%nat, [Z.to_nat (bn - 10)])
  else if d <? NDOUBINDIRECT then Some (11%nat, [Z.to_nat (d / 128); Z.to_nat (d mod 128)])
  else if t <? NTRIPINDIRECT then
    Some (12%nat, [Z.to_nat (t / NDOUBINDIRECT); Z.to_nat (t mod NDOUBINDIRECT / 128);
                   Z.to_nat (t mod NDOUBINDIRECT mod 128)])
  else None.

Lemma route_some bn :
  0 <= bn < MAXFILE -> exists q, route bn = Some q /\ valid_loc q /\ is_leaf q.
Proof.
  unfold MAXFILE, NTRIPINDIRECT, NDOUBINDIRECT. intros Hbn. unfold route, NTRIPINDIRECT, NDOUBINDIRECT.
  assert (forall z, (Z.to_nat (z mod 128) < NINDIRECT)%nat) as Hm.
  { intros z. pose proof (Z.mod_pos_bound z 128 ltac:(lia)). unfold NINDIRECT. lia. }
  assert (forall z, 0 <= z < 128 -> (Z.to_nat z < NINDIRECT)%nat) as Hs by (unfold NINDIRECT; lia).
  destruct (Z.ltb_spec bn 10); [|destruct (Z.ltb_spec (bn - 10) 128);
    [|destruct (Z.ltb_spec (bn - 138) (128 * 128));
      [|destruct (Z.ltb_spec (bn - 138 - 128 * 128) (128 * 128 * 128)); [|lia]]]];
    eexists; (split; [reflexivity|]); unfold valid_loc, is_leaf, depth; cbn [fst snd length];
    repeat split; try lia; repeat (apply list.Forall_cons; split); auto; apply Hs;
    try lia; (split; [apply Z.div_pos|apply Z.div_lt_upper_bound]); try lia.
  - pose proof (Z.mod_pos_bound (bn - 138 - 128 * 128) (128 * 128)). lia.
  - pose proof (Z.mod_pos_bound (bn - 138 - 128 * 128) (128 * 128)). lia.
Qed.

Lemma div_mod_inj k x y :
  0 < k -> 0 <= x -> 0 <= y -> Z.to_nat (x / k) = Z.to_nat (y / k) -> x mod k = y mod k -> x = y.
Proof.
  intros Hk Hx Hy E1 E2. rewrite (Z.div_mod x k), (Z.div_mod y k), E2 by lia.
  pose proof (Z.div_pos x k). pose proof (Z.div_pos y k). nia.
Qed.

Lemma route_inj bn bn' q :
  0 <= bn -> 0 <= bn' -> route bn = Some q -> route bn' = Some q -> bn = bn'.
Proof.
  unfold route, NTRIPINDIRECT, NDOUBINDIRECT. intros H0 H0' H1 H2.
  pose proof (fun z k Hk => proj1 (Z.mod_pos_bound z k Hk)) as Hpos.
  repeat case_match; simplify_eq; zbool; try lia.
  - assert (bn' - 138 = bn - 138); [|lia]. apply (div_mod_inj 128); auto; try lia.
    apply Z2Nat.inj; auto; apply Hpos; lia.
  - assert (bn' - 138 - 128 * 128 = bn - 138 - 128 * 128); [|lia].
    apply (div_mod_inj (128 * 128)); auto; try lia.
    apply (div_mod_inj 128); auto; try lia; [apply Hpos; lia..|].
    apply Z2Nat.inj; auto; apply Hpos; lia.
Qed.

(** ** Running [bmap] *)
Section Bmap.
Context {S : Type} `{BlockStoreSpec S} (sb : superblock).

(** A file whose inode [x] is at [ip], with no buffer held. *)
Record file_at (s : fsys S) (v : sview) (ip : nat) (x : inode) : Prop := {
  fa_store : stands (fstore s) v;
  fa_sb : fsb s = sb;
  fa_ok : fs_ok sb v;
  fa_ip : inodes s !! ip = Some x;
  fa_dev : i_dev x = 1;
  fa_tree : tree_ok sb v (i_addrs x);
  fa_hold : hold v = [];
}.

(** What stays the same in a view. *)
Definition steady (v v' : sview) : Prop := same_disk v v' /\ ops v' = ops v.

(** The room that [n] levels below block [a] take in the transaction. *)
Definition need (a : Z) (v : sview) (n : nat) : nat := n + (if decide (a ∈ pend v) then 0 else 1).

Lemma getip_ok (s : fsys S) ip x : inodes s !! ip = Some x -> getip ip s = Ok x s.
Proof. intros E. unfold getip. fstep0. by rewrite E. Qed.

Lemma setip_ok (s : fsys S) ip x f :
  inodes s !! ip = Some x ->
  setip ip f s = Ok tt (mk_fsys (fstore s) (fsb s) (<[ip := f x]> (inodes s))).
Proof.
  intros E. unfold setip. fstep0. rewrite E. fstep0. unfold modify. by rewrite (alter_insert f _ _ x).
Qed.

Lemma fs_ok_hold v hs : fs_ok sb v -> fs_ok sb (holding_now hs v).
Proof. by intros [[] ? ?]; split; [split|..]. Qed.

Lemma no_holds v : hold v = [] -> holds_ok sb v.
Proof. intros E. unfold holds_ok. rewrite E. split; [cbn; lia|]. by intros n ?%not_elem_of_nil. Qed.

Lemma free_now v k : has_free sb v (Datatypes.S k) -> exists n, first_free sb v n.
Proof.
  intros (l & _ & Hl & Hf). destruct l as [|n l]; [done|]. destruct (Hf n ltac:(left)) as [Hr Hu].
  by apply (first_free_exists sb v n).
Qed.

Lemma room_le v k k' : (k' <= k)%nat -> room sb k v -> room sb k' v.
Proof. intros Hk [? ?]. split; lia. Qed.

(** The walk from block [a] down the tables. *)
Fixpoint follow (ip : nat) (a : Z) (idxs : list nat) : M (fsys S) Z :=
  match idxs with
  | [] => mret a
  | i :: idxs' => a' ← table_entry ip a (Z.of_nat i); follow ip a' idxs'
  end.

Definition set_addrs (a : list Z) (x : inode) : inode := { x with i_addrs := a }.

(** What a step of [bmap] does: blocks are added to the file [x] at [ip], at most
    [f] of them. *)
Record grown (f : nat) (s : fsys S) (v : sview) (ip : nat) (x : inode)
    (s' : fsys S) (v' : sview) (x' : inode) : Prop := {
  g_file : file_at s' v' ip x';
  g_ext : extends sb v (i_addrs x) v' (i_addrs x');
  g_steady : steady v v';
  g_same : x' = set_addrs (i_addrs x') x;
  g_inodes : inodes s' = <[ip := x']> (inodes s);
  g_free : forall k, has_free sb v (k + f) -> has_free sb v' k;
  g_pend : forall n, n ∈ pend v -> n ∈ pend v';
}.

Lemma grown_refl s v ip x t :
  file_at s v ip x -> stands t v -> grown 0 s v ip x (with_store s t) v x.
Proof.
  intros Hf Ht. pose proof Hf as []. split; auto using extends_refl.
  - by split.
  - done.
  - by destruct x.
  - cbn. by rewrite list_insert_id.
  - intros k. by rewrite Nat.add_0_r.
Qed.

Lemma grown_trans f1 f2 s v ip x s1 v1 x1 s2 v2 x2 :
  grown f1 s v ip x s1 v1 x1 -> grown f2 s1 v1 ip x1 s2 v2 x2 -> grown (f1 + f2) s v ip x s2 v2 x2.
Proof.
  intros [F1 E1 [D1 O1] M1 I1 R1 P1] [F2 E2 [D2 O2] M2 I2 R2 P2]. split; auto.
  - apply (extends_trans sb v (i_addrs x) v1 (i_addrs x1)); auto; [apply F1|apply F2].
  - destruct D1 as (? & ? & ?), D2 as (? & ? & ?). split; [split_and!|]; congruence.
  - rewrite M2, M1. done.
  - rewrite I2, I1. apply list_insert_insert_eq.
  - intros k Hk. apply R2, R1. by rewrite <- Nat.add_assoc, (Nat.add_comm f2).
Qed.

Lemma grown_le f f' s v ip x s' v' x' :
  (f <= f')%nat -> grown f s v ip x s' v' x' -> grown f' s v ip x s' v' x'.
Proof. intros Hf []. split; auto. intros k Hk. apply g_free0. eapply has_free_le; [|done]. lia. Qed.

(** An entry of the inode that is there, and one that is not. *)
Lemma inode_entry_found s v ip x i a :
  file_at s v ip x -> i_addrs x !! i = Some a -> a <> 0 -> inode_entry ip i s = Ok a s.
Proof.
  intros [] Hi Ha. unfold inode_entry. erewrite bind_ok by (by apply getip_ok). rewrite Hi. fstep0.
  by rewrite (proj2 (Z.eqb_neq _ _)).
Qed.


Lemma view_lengths s v ip x n :
  file_at s v ip x -> 0 <= n < nblk v -> length (cont v n) = BSIZE.
Proof. intros Hf. apply (law_length (fstore s) v n), Hf. Qed.

Lemma inode_entry_new s v ip x i :
  file_at s v ip x -> (i < 13)%nat -> i_addrs x !! i = Some 0 -> 1 <= ops v -> room sb 1 v ->
  has_free sb v 1 ->
  exists b s' v' x', inode_entry ip i s = Ok b s' /\ grown 1 s v ip x s' v' x'
    /\ node (cont v') (i_addrs x') (i, []) = b /\ b <> 0
    /\ b ∈ pend v' /\ (pcount sb v' <= pcount sb v + 1)%nat.
Proof.
  intros Hf Hi13 Hi Ho Hr Hfr. pose proof Hf as [Hs Hsb Hok Hip Hdev Ht Hh].
  destruct (free_now v 0 Hfr) as [b Hb]. pose proof Hb as (Hbr & Hbu & _).
  destruct (balloc_ok sb v Hok (no_holds v Hh) s b) as (t & E & Hst); auto.
  pose proof (new_data sb v b Hok Hbr Hbu) as Hd.
  pose proof (fun n => view_lengths s v ip x n Hf) as Hlen.
  destruct (attach_root sb v (i_addrs x) b Hok Ht Hlen Hbr Hbu i Hi13 Hi) as [Ht' He].
  set (x' := set_addrs (<[i := b]> (i_addrs x)) x).
  exists b, (mk_fsys t (fsb s) (<[ip := x']> (inodes s))), (allocated sb b v), x'. split_and!.
  - unfold inode_entry. erewrite bind_ok by (by apply getip_ok). rewrite Hi. fstep0.
    cbn [Z.eqb]. rewrite Hdev. erewrite bind_ok by exact E.
    erewrite bind_ok by (by apply setip_ok). done.
  - split; auto; try done.
    + split; auto using fs_ok_allocated; try done. apply list_lookup_insert_eq. by eapply lookup_lt_Some.
    + intros k Hk. eapply has_free_less; [intros n Hn; by apply used_allocated|].
      by rewrite Nat.add_1_r in Hk.
    + intros n Hn. rewrite pend_allocated by done. auto.
  - unfold node. cbn. apply list_lookup_total_insert_eq. rewrite (t_len _ _ _ Ht). lia.
  - destruct Hd. lia.
  - rewrite pend_allocated by done. auto.
  - by apply pcount_allocated.
Qed.

Lemma table_entry_found s v ip x slot js j a :
  file_at s v ip x -> valid_loc (slot, js ++ [j]) -> node (cont v) (i_addrs x) (slot, js) = a ->
  a <> 0 -> get32 (cont v a) (4 * j) <> 0 -> room sb 0 v ->
  exists t, table_entry ip a (Z.of_nat j) s = Ok (get32 (cont v a) (4 * j)) (with_store s t)
    /\ stands t v.
Proof.
  intros Hf Hv Ha Ha0 He Hr. pose proof Hf as [Hs Hsb Hok Hip Hdev Ht Hh].
  destruct (valid_parent slot js j Hv) as (Hp & _ & _).
  assert (is_data sb v a) as Hda by (rewrite <- Ha; apply (t_data _ _ _ Ht _ Hp); congruence).
  destruct (room_reads sb v Hok (no_holds v Hh) _ _ Hs Hr) as [Hcr _].
  pose proof (data_range sb v (fo_geo sb v Hok) a Hda) as Hra.
  destruct (read_only (fstore s) v a) as (bp & t1 & t2 & E1 & E2 & E3 & H3); auto.
  { lia. } { rewrite Hh. apply not_elem_of_nil. }
  exists t2. split; [|done]. unfold table_entry. erewrite bind_ok by (by apply getip_ok). rewrite Hdev.
  fstep E1. fstep E2. rewrite Nat2Z.id. rewrite (proj2 (Z.eqb_neq _ _)) by done. by fstep E3.
Qed.

Lemma room_allocated v b :
  fs_ok sb v -> is_data sb v b -> room sb 1 v -> room sb 0 (allocated sb b v).
Proof.
  intros Hok Hd [H1 H2]. assert (0 <= b < sb_size sb) by (destruct Hd; lia).
  pose proof (pcount_allocated sb v Hok b ltac:(done) Hd). split; cbn [cap] in *; [|lia].
  change (cap (allocated sb b v)) with (cap v). lia.
Qed.

(** The table [a] is held while a block for its entry [j] is allocated. *)
Lemma table_alloc_run s v ip x j a b :
  file_at s v ip x -> is_data sb v a -> used sb v a = true -> a <> b -> (4 * j + 4 <= BSIZE)%nat ->
  get32 (cont v a) (4 * j) = 0 -> 1 <= ops v -> room sb 1 v -> first_free sb v b ->
  exists t, table_entry ip a (Z.of_nat j) s = Ok b (with_store s t) /\ stands t (new_entry sb v b j a).
Proof.
  intros Hf Hda Hua Hab Hj He Ho Hr Hb. pose proof Hf as [Hs Hsb Hok Hip Hdev Ht Hh].
  pose proof Hb as (Hbr & Hbu & _). pose proof (new_data sb v b Hok Hbr Hbu) as Hd.
  pose proof (data_range sb v (fo_geo sb v Hok) a Hda) as Hra.
  destruct (room_reads sb v Hok (no_holds v Hh) _ _ Hs Hr) as [Hcr _].
  destruct (law_bread (fstore s) v a Hs) as (bp & t1 & E1 & _ & H1).
  { lia. } { rewrite Hh. apply not_elem_of_nil. } { by right. }
  set (v1 := holding_now ((bp, a) :: hold v) v) in *.
  assert (holds_ok sb v1) as Hh1.
  { split; [cbn; rewrite Hh; cbn; lia|]. intros n. cbn. rewrite Hh. intros ->%list_elem_of_singleton.
    split; [by destruct Hda as (_ & _ & ? & _)|done]. }
  destruct (balloc_ok sb v1 (fs_ok_hold v _ Hok) Hh1 (with_store s t1) b) as (t2 & E2 & H2); auto.
  assert (cont (allocated sb b v1) a = cont v a) as Hca
    by (apply (cont_other sb v); auto; by destruct Hda as (_ & _ & ? & _)).
  assert ((bp, a) ∈ hold (allocated sb b v1)) as Hin by (by left).
  pose proof (law_data t2 _ bp a H2 Hin) as E3. rewrite Hca in E3.
  pose proof (room_allocated v b Hok Hd Hr) as Hr0.
  destruct (room_pend sb 0 (allocated sb b v1) (law_nodup t2 _ H2) (nmap_pos sb v (fo_geo sb v Hok)) Hr0)
    as [Hp1 _].
  assert (length (cont v a) = BSIZE) as Hla by (apply (law_length (fstore s) v); auto; lia).
  destruct (law_log_write t2 _ bp a (put32 (cont v a) (4 * j) b) H2 Hin) as (t3 & E4 & H4); auto.
  { rewrite length_put32; lia. } { by destruct Hda as (_ & ? & _). } { lia. }
  destruct (law_brelse t3 _ bp a (hold v) H4) as (t4 & E5 & H5); [done|].
  exists t4. split; [|by destruct v].
  unfold table_entry. erewrite bind_ok by (by apply getip_ok). rewrite Hdev. fstep E1.
  fstep (law_data t1 v1 bp a H1 ltac:(by left)). rewrite Nat2Z.id. change (cont v1 a) with (cont v a).
  rewrite He. cbn [Z.eqb]. erewrite bind_ok by exact E2. fstep E3. unfold set_and_log. fstep E4. by fstep E5.
Qed.

Lemma table_entry_new s v ip x slot js j a :
  file_at s v ip x -> valid_loc (slot, js ++ [j]) -> node (cont v) (i_addrs x) (slot, js) = a ->
  a <> 0 -> get32 (cont v a) (4 * j) = 0 -> 1 <= ops v -> room sb 1 v -> has_free sb v 1 ->
  exists b s' v', table_entry ip a (Z.of_nat j) s = Ok b s' /\ grown 1 s v ip x s' v' x
    /\ node (cont v') (i_addrs x) (slot, js ++ [j]) = b /\ b <> 0
    /\ b ∈ pend v' /\ (pcount sb v' <= pcount sb v + need a v 1)%nat.
Proof.
  intros Hf Hv Ha Ha0 He Ho Hr Hfr. pose proof Hf as [Hs Hsb Hok Hip Hdev Ht Hh].
  destruct (free_now v 0 Hfr) as [b Hb]. pose proof Hb as (Hbr & Hbu & _).
  pose proof (new_data sb v b Hok Hbr Hbu) as Hd.
  pose proof (fun n => view_lengths s v ip x n Hf) as Hlen.
  destruct (table_facts sb v (i_addrs x) b Ht Hbu slot j js a Hv Ha Ha0) as (Hda & Hua & Hab & Hj4).
  pose proof (length_table sb v (i_addrs x) b Hok Ht Hlen Hbu slot j js a Hv Ha Ha0) as Hla.
  destruct (attach_entry sb v (i_addrs x) b Hok Ht Hlen Hbr Hbu slot j js a Hv Ha Ha0 He) as [Ht' He'].
  pose proof (data_range sb v (fo_geo sb v Hok) a Hda) as Hra.
  destruct (table_alloc_run s v ip x j a b) as (t & E & Hst); auto.
  pose proof (fun n => used_new_entry sb v (i_addrs x) b Hok Ht Hlen Hbr Hbu slot j js a Hv Ha Ha0 n) as Hu.
  exists b, (with_store s t), (new_entry sb v b j a). split_and!; auto.
  - split; auto; try done.
    + split; auto. apply fs_ok_written; [by apply fs_ok_allocated|by destruct Hda as (_ & _ & ? & _)|lia].
    + by destruct x.
    + cbn. by rewrite list_insert_id.
    + intros k Hk. eapply has_free_less; [exact Hu|]. by rewrite Nat.add_1_r in Hk.
    + intros n Hn. unfold new_entry. rewrite pend_written, elem_of_add_pend, pend_allocated by done. auto.
  - destruct (valid_parent slot js j Hv) as (Hp & _ & _).
    rewrite node_snoc, (e_keep _ _ _ _ _ He' _ Hp), Ha by congruence. unfold child.
    rewrite (proj2 (Z.eqb_neq _ _)) by done. unfold new_entry.
    rewrite cont_written, fn_lookup_insert, get32_put32_same by lia. apply u32_small.
    pose proof (data_range sb v (fo_geo sb v Hok) b Hd). pose proof (geo_small sb v (fo_geo sb v Hok)). lia.
  - destruct Hd; lia.
  - unfold new_entry. rewrite pend_written, elem_of_add_pend, pend_allocated by done. auto.
  - pose proof (pcount_allocated sb v Hok b Hbr Hd) as Hp. unfold new_entry, need.
    destruct (decide (a ∈ pend v)).
    + rewrite pcount_pending; [lia|]. rewrite pend_allocated by done. auto.
    + pose proof (pcount_written sb a (put32 (cont v a) (4 * j) b) (allocated sb b v)) as Hw.
      destruct (decide (is_map sb a)); lia.
Qed.

Lemma table_entry_ok s v ip x slot js j a k :
  file_at s v ip x -> valid_loc (slot, js ++ [j]) -> node (cont v) (i_addrs x) (slot, js) = a ->
  a <> 0 -> 1 <= ops v -> room sb (need a v (Datatypes.S k)) v -> has_free sb v 1 ->
  exists b s' v', table_entry ip a (Z.of_nat j) s = Ok b s' /\ grown 1 s v ip x s' v' x
    /\ node (cont v') (i_addrs x) (slot, js ++ [j]) = b /\ b <> 0
    /\ (pcount sb v' + need b v' k <= pcount sb v + need a v (Datatypes.S k))%nat.
Proof.
  intros Hf Hv Ha Ha0 Ho Hr Hfr. destruct (decide (get32 (cont v a) (4 * j) = 0)) as [He|He].
  - destruct (table_entry_new s v ip x slot js j a) as (b & s' & v' & E & Hg & Hn & Hb & Hin & Hp); auto.
    { eapply room_le; [|done]. unfold need. lia. }
    exists b, s', v'. split_and!; auto. unfold need in *. rewrite decide_True by done. lia.
  - destruct (table_entry_found s v ip x slot js j a) as (t & E & Hst); auto.
    { eapply room_le; [|done]. lia. }
    exists (get32 (cont v a) (4 * j)), (with_store s t), v. split_and!; auto.
    + apply (grown_le 0); [lia|]. by apply grown_refl.
    + rewrite node_snoc, Ha. unfold child. by rewrite (proj2 (Z.eqb_neq _ _)).
    + unfold need. repeat case_decide; lia.
Qed.

Lemma room_spent v v' k k' :
  steady v v' -> (pcount sb v' + k' <= pcount sb v + k)%nat -> room sb k v -> room sb k' v'.
Proof. intros [(_ & _ & Ec) _] Hp [H1 H2]. split; rewrite ?Ec; lia. Qed.

Lemma follow_ok idxs s v ip x slot js a :
  file_at s v ip x -> valid_loc (slot, js ++ idxs) -> node (cont v) (i_addrs x) (slot, js) = a ->
  a <> 0 -> 1 <= ops v -> room sb (need a v (length idxs)) v -> has_free sb v (length idxs) ->
  exists b s' v', follow ip a idxs s = Ok b s' /\ grown (length idxs) s v ip x s' v' x
    /\ node (cont v') (i_addrs x) (slot, js ++ idxs) = b /\ b <> 0
    /\ (pcount sb v' + need b v' 0 <= pcount sb v + need a v (length idxs))%nat.
Proof.
  revert s v js a. induction idxs as [|j idxs IH]; intros s v js a Hf Hv Ha Ha0 Ho Hr Hfr.
  { exists a, (with_store s (fstore s)), v. rewrite app_nil_r. split_and!; auto.
    - by destruct s.
    - apply grown_refl; [done|apply Hf]. }
  replace (js ++ j :: idxs) with ((js ++ [j]) ++ idxs) in * by (by rewrite <- app_assoc).
  destruct (table_entry_ok s v ip x slot js j a (length idxs)) as (b & s1 & v1 & E1 & G1 & N1 & B1 & P1);
    auto; [by apply valid_prefix in Hv|eapply has_free_le; [|done]; cbn; lia|].
  destruct (IH s1 v1 (js ++ [j]) b) as (c & s2 & v2 & E2 & G2 & N2 & B2 & P2); auto.
  { apply G1. }
  { by rewrite (proj2 (g_steady _ _ _ _ _ _ _ _ G1)). }
  { eapply room_spent; [apply G1|exact P1|done]. }
  { apply (g_free _ _ _ _ _ _ _ _ G1). by rewrite Nat.add_1_r. }
  exists c, s2, v2. cbn [follow length]. erewrite bind_ok by exact E1. split_and!; auto; [|cbn [length] in P1; lia].
  by apply (grown_trans 1 (length idxs) _ _ _ _ s1 v1 x).
Qed.


Lemma bmap_route ip bn (s : fsys S) q r s' :
  0 <= bn -> route bn = Some q ->
  (a ← inode_entry ip q.1; follow ip a q.2) s = Ok r s' -> bmap ip bn s = Ok r s'.
Proof.
  unfold route, bmap. intros Hbn.
  change (Z.of_nat NDIRECT) with 10. change (Z.of_nat NINDIRECT) with 128.
  replace (bn - 10 - 128) with (bn - 138) by lia.
  assert (forall z k, 0 <= z -> 0 < k -> 0 <= z / k /\ 0 <= z mod k) as Hp.
  { intros z k Hz Hk. split; [apply Z.div_pos; lia|apply Z.mod_pos_bound; lia]. }
  unfold NTRIPINDIRECT, NDOUBINDIRECT.
  destruct (Z.ltb_spec bn 10); [|destruct (Z.ltb_spec (bn - 10) 128);
    [|destruct (Z.ltb_spec (bn - 138) (128 * 128));
      [|destruct (Z.ltb_spec (bn - 138 - 128 * 128) (128 * 128 * 128)); [|done]]]];
    intros [= <-]; cbn [fst snd follow];
    intros (a & s1 & E1 & E2)%bind_inv_ok;
    repeat match goal with
    | H : (_ ≫= _) _ = Ok _ _ |- _ =>
        let b := fresh "b" in let t := fresh "t" in let E := fresh "E" in let E' := fresh "E'" in
        apply bind_inv_ok in H as (b & t & E & E')
    | H : mret _ _ = Ok _ _ |- _ => injection H as -> ->
    end;
    try (erewrite bind_ok by exact E1);
    rewrite ?Z2Nat.id in * by (try lia; apply Hp; try lia; apply Hp; lia);
    repeat (erewrite bind_ok by eassumption); done.
Qed.

Lemma depth_le slot : (slot < 13)%nat -> (depth slot <= 3)%nat.
Proof. unfold depth. lia. Qed.

(** [bmap] of a block of a file finds or makes the block. *)
Lemma bmap_ok s v ip x bn q :
  file_at s v ip x -> 0 <= bn < MAXFILE -> route bn = Some q -> 1 <= ops v -> room sb 4 v ->
  has_free sb v 4 ->
  exists b s' v' x', bmap ip bn s = Ok b s' /\ grown 4 s v ip x s' v' x'
    /\ node (cont v') (i_addrs x') q = b /\ b <> 0
    /\ (pcount sb v' + need b v' 0 <= pcount sb v + 4)%nat.
Proof.
  intros Hf Hbn Hq Ho Hr Hfr. destruct (route_some bn Hbn) as (q' & Hq' & Hv & Hl).
  rewrite Hq in Hq'. injection Hq' as <-. destruct q as [slot idxs]. cbn in Hl.
  pose proof Hv as (Hs13 & Hlen & _). cbn in Hs13, Hlen. pose proof (depth_le slot Hs13) as Hd.
  pose proof (t_len _ _ _ (fa_tree _ _ _ _ Hf)) as Hal.
  destruct (lookup_lt_is_Some_2 (i_addrs x) slot) as [a Ha]; [lia|].
  assert (exists a s1 v1 x1, inode_entry ip slot s = Ok a s1 /\ grown 1 s v ip x s1 v1 x1
    /\ node (cont v1) (i_addrs x1) (slot, []) = a /\ a <> 0
    /\ (pcount sb v1 + need a v1 (length idxs) <= pcount sb v + 4)%nat)
    as (a1 & s1 & v1 & x1 & E1 & G1 & N1 & B1 & P1).
  { destruct (decide (a = 0)) as [->|Hne].
    - destruct (inode_entry_new s v ip x slot) as (b & s1 & v1 & x1 & E & G & N & B & I & P); auto.
      { eapply room_le; [|done]; lia. } { eapply has_free_le; [|done]; lia. }
      exists b, s1, v1, x1. split_and!; auto. unfold need. rewrite decide_True by done. lia.
    - exists a, (with_store s (fstore s)), v, x. split_and!; auto.
      + erewrite inode_entry_found by done. by destruct s.
      + apply (grown_le 0); [lia|]. apply grown_refl; [done|apply Hf].
      + unfold node. cbn. by apply list_lookup_total_correct.
      + unfold need. case_decide; lia. }
  destruct (follow_ok idxs s1 v1 ip x1 slot [] a1) as (b & s2 & v2 & E2 & G2 & N2 & B2 & P2); auto.
  { apply G1. } { by rewrite (proj2 (g_steady _ _ _ _ _ _ _ _ G1)). } { eapply room_spent; [apply G1|exact P1|done]. }
  { apply (has_free_le sb v1 3); [lia|]. by apply (g_free _ _ _ _ _ _ _ _ G1). }
  exists b, s2, v2, x1. split_and!; auto; [|apply (grown_le (1 + length idxs)); [lia|]|lia].
  - apply (bmap_route ip bn s (slot, idxs)); [lia|done|]. cbn [fst snd]. by erewrite bind_ok by exact E1.
  - by apply (grown_trans 1 (length idxs) _ _ _ _ s1 v1 x1).
Qed.

(** A block that the file has is found without changing anything. *)
Lemma follow_found idxs s v ip x slot js :
  file_at s v ip x -> valid_loc (slot, js ++ idxs) -> room sb 0 v ->
  node (cont v) (i_addrs x) (slot, js ++ idxs) <> 0 ->
  exists t, follow ip (node (cont v) (i_addrs x) (slot, js)) idxs s
            = Ok (node (cont v) (i_addrs x) (slot, js ++ idxs)) (with_store s t) /\ stands t v.
Proof.
  revert s js. induction idxs as [|j idxs IH]; intros s js Hf Hv Hr Hn.
  { exists (fstore s). rewrite app_nil_r. split; [by destruct s|apply Hf]. }
  replace (js ++ j :: idxs) with ((js ++ [j]) ++ idxs) in * by (by rewrite <- app_assoc).
  assert (node (cont v) (i_addrs x) (slot, js ++ [j]) <> 0) as Hj.
  { intros E. apply Hn. unfold node in *. cbn in *. rewrite foldl_app, E. apply no_child. }
  rewrite node_snoc in Hj. unfold child in Hj.
  destruct (Z.eqb_spec (node (cont v) (i_addrs x) (slot, js)) 0); [done|].
  destruct (table_entry_found s v ip x slot js j _ Hf (valid_prefix _ _ _ Hv) eq_refl) as (t & E & Ht); auto.
  cbn [follow]. erewrite bind_ok by exact E.
  destruct (IH (with_store s t) (js ++ [j])) as (t' & E' & Ht'); auto.
  { destruct Hf. by split. }
  exists t'. split; [|done]. rewrite node_snoc in E'. unfold child in E' at 1.
  by rewrite (proj2 (Z.eqb_neq _ _)) in E' by done.
Qed.

Lemma bmap_found s v ip x bn q :
  file_at s v ip x -> 0 <= bn < MAXFILE -> route bn = Some q -> room sb 0 v ->
  node (cont v) (i_addrs x) q <> 0 ->
  exists t, bmap ip bn s = Ok (node (cont v) (i_addrs x) q) (with_store s t) /\ stands t v.
Proof.
  intros Hf Hbn Hq Hr Hn. destruct (route_some bn Hbn) as (q' & Hq' & Hv & Hl).
  rewrite Hq in Hq'. injection Hq' as <-. destruct q as [slot idxs]. pose proof Hv as (Hs13 & _ & _).
  pose proof (t_len _ _ _ (fa_tree _ _ _ _ Hf)) as Hal. cbn in Hs13.
  destruct (lookup_lt_is_Some_2 (i_addrs x) slot) as [a Ha]; [lia|].
  assert (node (cont v) (i_addrs x) (slot, []) = a) as Hna by (by apply list_lookup_total_correct).
  destruct (follow_found idxs s v ip x slot []) as (t & E & Ht); auto.
  exists t. split; [|done]. apply (bmap_route ip bn s (slot, idxs)); [lia|done|]. cbn [fst snd].
  rewrite Hna in E. erewrite bind_ok; [exact E|]. eapply inode_entry_found; [done..|].
  intros ->. apply Hn. unfold node in *. cbn in *. rewrite Hna. apply no_child.
Qed.
End Bmap.
