(* ===== verification/FsContent.v ===== *)
(** * Reading and writing files

    The contents of a file as a function from offsets to bytes, and the
    specifications of [readi] and [writei] in terms of it. *)

From S2P Require Import Prelude CString Bio Log LogTheory BlockStore Fs FsBlocks FsTree.
Open Scope Z_scope.

Definition bsize : Z := Z.of_nat BSIZE.
Definition maxbytes : Z := MAXFILE * bsize.

(** The byte at offset [off]; what was never written reads as 0. *)
Definition fbyte (C : Z -> list Z) (addrs : list Z) (off : Z) : Z :=
  match route (off / bsize) with
  | Some q =>
      if node C addrs q =? 0 then 0 else C (node C addrs q) !!! Z.to_nat (off mod bsize)
  | None => 0
  end.

Lemma off_route off :
  0 <= off < maxbytes ->
  0 <= off / bsize < MAXFILE /\ exists q, route (off / bsize) = Some q /\ valid_loc q /\ is_leaf q.
Proof.
  intros Hoff. assert (0 <= off / bsize < MAXFILE) as Hr.
  { split; [apply Z.div_pos; [lia|done]|]. apply Z.div_lt_upper_bound; [done|].
    unfold maxbytes in Hoff. lia. }
  split; [done|]. by apply route_some.
Qed.

Lemma zeros_lookup n i : (i < n)%nat -> replicate n 0 !!! i = 0.
Proof. intros Hi. apply list_lookup_total_correct. by apply lookup_replicate_2. Qed.

Lemma mod_bsize off : 0 <= off mod bsize < bsize /\ (Z.to_nat (off mod bsize) < BSIZE)%nat.
Proof. pose proof (Z.mod_pos_bound off bsize ltac:(done)). unfold bsize in *. lia. Qed.

(** Allocating blocks for a file does not change its contents. *)
Lemma fbyte_extends sb v a v' a' off :
  tree_ok sb v a -> extends sb v a v' a' -> 0 <= off < maxbytes ->
  fbyte (cont v') a' off = fbyte (cont v) a off.
Proof.
  intros Ht He Hoff. destruct (off_route off Hoff) as (_ & q & Hq & Hv & Hl).
  unfold fbyte. rewrite Hq. destruct (Z.eqb_spec (node (cont v) a q) 0) as [E|Hn].
  - destruct (Z.eqb_spec (node (cont v') a' q) 0) as [|Hn']; [done|].
    destruct (e_new _ _ _ _ _ He q Hv E Hn') as [_ Hz]. rewrite Hz by done. apply zeros_lookup, mod_bsize.
  - rewrite (e_keep _ _ _ _ _ He q Hv Hn). rewrite (proj2 (Z.eqb_neq _ _)) by done.
    destruct (node_range _ _ _ _ Ht Hv Hn) as [Hr Hm].
    rewrite (e_data _ _ _ _ _ He); auto; [apply (t_data _ _ _ Ht q Hv Hn)|].
    by apply (leaf_not_table sb).
Qed.

(** ** Writing a block of data *)
Section Leaf.
Context (sb : superblock) (v : sview) (addrs : list Z) (Ht : tree_ok sb v addrs).
Context (bn : Z) (q : loc) (d : list Z).
Context (Hbn : 0 <= bn < MAXFILE) (Hq : route bn = Some q).
Context (Hn : node (cont v) addrs q <> 0).
Let a : Z := node (cont v) addrs q.

Lemma leaf_route : valid_loc q /\ is_leaf q.
Proof. destruct (route_some bn Hbn) as (q' & E & ? & ?). rewrite Hq in E. by injection E as <-. Qed.

Lemma node_leaf p : valid_loc p -> node (cont (written a d v)) addrs p = node (cont v) addrs p.
Proof.
  intros Hp. destruct leaf_route as [Hv Hl]. apply node_ext; [done|]. intros p' Hp' Hl' Hn'.
  rewrite cont_written. apply fn_lookup_insert_ne. apply not_eq_sym. by apply (leaf_not_table sb).
Qed.

Lemma leaf_data : is_data sb v a /\ used sb v a = true.
Proof. destruct leaf_route as [Hv _]. by apply (t_data _ _ _ Ht). Qed.

Lemma tree_leaf : tree_ok sb (written a d v) addrs.
Proof.
  destruct leaf_data as [(_ & _ & Hnm & _) _]. split.
  - apply (t_len _ _ _ Ht).
  - intros p Hp. rewrite node_leaf by done. intros Hn'. destruct (t_data _ _ _ Ht p Hp Hn') as [Hd Hu].
    split; [done|]. rewrite used_written_other; auto. destruct Hd. lia.
  - intros p p' Hp Hp'. rewrite !node_leaf by done. by apply (t_inj _ _ _ Ht).
Qed.

Lemma fbyte_leaf off :
  0 <= off < maxbytes ->
  fbyte (cont (written a d v)) addrs off
  = if decide (off / bsize = bn) then d !!! Z.to_nat (off mod bsize) else fbyte (cont v) addrs off.
Proof.
  intros Hoff. destruct (off_route off Hoff) as (Hr & q' & Hq' & Hv' & Hl').
  destruct leaf_route as [Hv Hl]. unfold fbyte. rewrite Hq'. rewrite node_leaf by done.
  destruct (decide (off / bsize = bn)) as [E|Hne].
  - rewrite E, Hq in Hq'. injection Hq' as <-. rewrite (proj2 (Z.eqb_neq _ _)) by done.
    by rewrite cont_written, fn_lookup_insert.
  - destruct (Z.eqb_spec (node (cont v) addrs q') 0) as [|Hn']; [done|].
    rewrite cont_written, fn_lookup_insert_ne; [done|]. intros E. apply Hne.
    apply (route_inj _ _ q); try lia; [|done].
    by rewrite (t_inj _ _ _ Ht q q' Hv Hv' Hn E).
Qed.
End Leaf.

Lemma has_free_same sb v v' k :
  (forall n, 0 <= n < sb_size sb -> used sb v' n = used sb v n) -> has_free sb v k -> has_free sb v' k.
Proof.
  intros Hu (l & Hnd & Hl & Hf). exists l. split_and!; auto. intros n Hn.
  destruct (Hf n Hn) as [Hr E]. by rewrite Hu.
Qed.

(** How many blocks the [r] bytes from offset [off] on lie in. *)
Definition spans (off r : Z) : nat := Z.to_nat ((off mod bsize + r + bsize - 1) / bsize).

Lemma spans_pos off r : 0 < r -> (1 <= spans off r)%nat.
Proof.
  intros Hr. pose proof (mod_bsize off) as [Ho _]. unfold spans.
  assert (1 <= (off mod bsize + r + bsize - 1) / bsize); [|lia].
  apply Z.div_le_lower_bound; [done|]. lia.
Qed.

Lemma spans_next off r :
  bsize - off mod bsize < r ->
  spans off r = S (spans (off + (bsize - off mod bsize)) (r - (bsize - off mod bsize))).
Proof.
  intros Hr. pose proof (mod_bsize off) as [Ho _]. unfold spans.
  assert ((off + (bsize - off mod bsize)) mod bsize = 0) as ->.
  { pose proof (Z.div_mod off bsize ltac:(done)).
    replace (off + (bsize - off mod bsize)) with (0 + (off / bsize + 1) * bsize) by lia.
    by rewrite Z.mod_add. }
  replace (off mod bsize + r + bsize - 1)
    with (0 + (r - (bsize - off mod bsize)) + bsize - 1 + 1 * bsize) by lia.
  rewrite Z.div_add by done.
  assert (0 <= (0 + (r - (bsize - off mod bsize)) + bsize - 1) / bsize) by (apply Z.div_pos; [lia|done]).
  lia.
Qed.

(** Offsets in the same block. *)
Lemma same_block off off' :
  off' / bsize = off / bsize <->
  off - off mod bsize <= off' < off + (bsize - off mod bsize).
Proof.
  pose proof (mod_bsize off) as [Ho _]. pose proof (mod_bsize off') as [Ho' _].
  pose proof (Z.div_mod off bsize ltac:(done)). pose proof (Z.div_mod off' bsize ltac:(done)).
  split; [intros E; rewrite E in *; lia|]. intros Hr. assert (bsize > 0) by done. nia.
Qed.

(** ** Running [writei] *)
Section Write.
Context {S : Type} `{BlockStoreSpec S} (sb : superblock).

(** What writing to a file does, apart from its contents: at most [4 * k] blocks
    are allocated and logged, blocks of the file stay where they are, and
    blocks in use by others keep their contents. *)
Record wrote (k : nat) (s : fsys S) (v : sview) (ip : nat) (x : inode)
    (s' : fsys S) (v' : sview) (x' : inode) : Prop := {
  w_file : file_at sb s' v' ip x';
  w_steady : steady v v';
  w_same : x' = set_addrs (i_addrs x') x;
  w_inodes : inodes s' = <[ip := x']> (inodes s);
  w_used : forall n, 0 <= n < sb_size sb -> used sb v n = true -> used sb v' n = true;
  w_keep : forall q, valid_loc q -> node (cont v) (i_addrs x) q <> 0 ->
    node (cont v') (i_addrs x') q = node (cont v) (i_addrs x) q;
  w_new : forall q, valid_loc q -> node (cont v') (i_addrs x') q <> 0 ->
    node (cont v) (i_addrs x) q = node (cont v') (i_addrs x') q
    \/ used sb v (node (cont v') (i_addrs x') q) = false;
  w_frame : forall m, 0 < m < sb_size sb -> ~ is_map sb m -> used sb v m = true ->
    (forall q, valid_loc q -> node (cont v) (i_addrs x) q <> m) -> cont v' m = cont v m;
  w_free : forall j, has_free sb v (j + 4 * k) -> has_free sb v' j;
  w_count : (pcount sb v' <= pcount sb v + 4 * k)%nat;
}.

Lemma wrote_refl s v ip x : file_at sb s v ip x -> wrote 0 s v ip x s v x.
Proof.
  intros Hf. split; auto; try done.
  - by destruct x.
  - rewrite list_insert_id; [done|apply Hf].
  - intros j. by rewrite Nat.add_0_r.
  - lia.
Qed.

Lemma wrote_trans k1 k2 s v ip x s1 v1 x1 s2 v2 x2 :
  wrote k1 s v ip x s1 v1 x1 -> wrote k2 s1 v1 ip x1 s2 v2 x2 -> wrote (k1 + k2) s v ip x s2 v2 x2.
Proof.
  intros [F1 [D1 O1] M1 I1 U1 K1 N1 C1 R1 P1] [F2 [D2 O2] M2 I2 U2 K2 N2 C2 R2 P2].
  assert (forall q, valid_loc q -> node (cont v2) (i_addrs x2) q <> 0 ->
    node (cont v) (i_addrs x) q = node (cont v2) (i_addrs x2) q
    \/ used sb v (node (cont v2) (i_addrs x2) q) = false) as Hnew.
  { intros q Hq Hn. destruct (node_range _ _ _ _ (fa_tree _ _ _ _ _ F2) Hq Hn) as [Hr _].
    destruct (N2 q Hq Hn) as [E|Hu]; [rewrite <- E in *; by apply N1|right].
    destruct (used sb v _) eqn:E; [|done]. rewrite U1 in Hu; [done|lia|done]. }
  split; auto.
  - destruct D1 as (? & ? & ?), D2 as (? & ? & ?). split; [split_and!|]; congruence.
  - rewrite M2, M1. done.
  - rewrite I2, I1. apply list_insert_insert_eq.
  - intros q Hq Hn. pose proof (K1 q Hq Hn) as E. rewrite K2; congruence.
  - intros m Hm Hnm Hu Hnot. rewrite C2, C1; auto; [apply U1; [lia|done]|].
    intros q Hq E. destruct (N1 q Hq) as [E'|Hu']; [lia|by apply (Hnot q Hq); congruence|congruence].
  - intros j Hj. apply R2, R1. replace (j + 4 * k2 + 4 * k1)%nat with (j + 4 * (k1 + k2))%nat by lia. done.
  - lia.
Qed.

(** The bytes of block [bn] of a file. *)
Definition fblock (C : Z -> list Z) (addrs : list Z) (bn : Z) : list Z :=
  (fun i => fbyte C addrs (bn * bsize + Z.of_nat i)) <$> seq 0 BSIZE.

Lemma block_off bn i :
  (i < BSIZE)%nat -> (bn * bsize + Z.of_nat i) / bsize = bn /\ (bn * bsize + Z.of_nat i) mod bsize = Z.of_nat i.
Proof.
  intros Hi. assert (0 <= Z.of_nat i < bsize) by (unfold bsize; lia).
  rewrite Z.add_comm, Z.div_add, Z.mod_add, Z.div_small, Z.mod_small by lia. lia.
Qed.

Lemma fblock_node sb' v addrs bn q :
  tree_ok sb' v addrs -> 0 <= bn < MAXFILE -> route bn = Some q -> node (cont v) addrs q <> 0 ->
  length (cont v (node (cont v) addrs q)) = BSIZE ->
  fblock (cont v) addrs bn = cont v (node (cont v) addrs q).
Proof.
  intros Ht Hbn Hq Hn Hl. apply list_eq. intros i. unfold fblock. rewrite list_lookup_fmap.
  destruct (decide (i < BSIZE)%nat) as [Hi|Hi].
  - rewrite lookup_seq_lt by done. cbn. destruct (block_off bn i Hi) as [E1 E2]. unfold fbyte.
    rewrite E1, E2, Hq. rewrite (proj2 (Z.eqb_neq _ _)), Nat2Z.id by done. symmetry.
    apply list_lookup_lookup_total_lt. by rewrite Hl.
  - rewrite lookup_seq_ge by lia. cbn. symmetry. apply lookup_ge_None_2. lia.
Qed.

Lemma fblock_ext C addrs C' addrs' bn :
  (forall off, 0 <= off < maxbytes -> fbyte C' addrs' off = fbyte C addrs off) ->
  0 <= bn < MAXFILE -> fblock C' addrs' bn = fblock C addrs bn.
Proof.
  intros Heq Hbn. apply list_fmap_ext. intros i y Hy. apply lookup_seq in Hy as [-> Hi]. apply Heq.
  unfold maxbytes, bsize, BSIZE in *. cbn in *. lia.
Qed.

Lemma write_block_ok s v ip x bn d :
  file_at sb s v ip x -> 0 <= bn < MAXFILE -> 1 <= ops v -> room sb 4 v -> has_free sb v 4 ->
  length d = BSIZE ->
  exists addr bp s1 t1 t2 t3 v' x',
    bmap ip bn s = Ok addr s1 /\ st_bread 1 addr (fstore s1) = Ok bp t1
    /\ st_data bp t1 = Ok (fblock (cont v) (i_addrs x) bn) t1
    /\ (st_set bp d;; st_log_write bp) t1 = Ok tt t2 /\ st_brelse bp t2 = Ok tt t3
    /\ wrote 1 s v ip x (with_store s1 t3) v' x'
    /\ (exists q, route bn = Some q /\ node (cont v') (i_addrs x') q <> 0)
    /\ forall off, 0 <= off < maxbytes ->
       fbyte (cont v') (i_addrs x') off
       = if decide (off / bsize = bn) then d !!! Z.to_nat (off mod bsize)
         else fbyte (cont v) (i_addrs x) off.
Proof.
  intros Hf Hbn Ho Hr Hfr Hd. destruct (route_some bn Hbn) as (q & Hq & Hv & Hl).
  destruct (bmap_ok sb s v ip x bn q) as (a & s1 & v1 & x1 & E1 & G & Na & Ha & Hp); auto.
  pose proof G as [F1 X1 St1 M1 I1 R1 _]. pose proof F1 as [Hs1 Hsb1 Hok1 Hip1 Hdev1 Ht1 Hh1].
  rewrite <- Na in Ha. destruct (leaf_data sb v1 (i_addrs x1) Ht1 bn q Hbn Hq Ha) as [Hda Hua].
  pose proof (data_range sb v1 (fo_geo sb v1 Hok1) _ Hda) as Hra.
  assert (room sb (need a v1 0) v1) as Hr1 by (eapply room_spent; [exact St1|exact Hp|done]).
  destruct (room_reads sb v1 Hok1 (no_holds sb v1 Hh1) _ _ Hs1 Hr1) as [Hcr Hcap].
  destruct (read_write (fstore s1) v1 a d) as (bp & t1 & t2 & t3 & E2 & E3 & E4 & E5 & H5); auto.
  { rewrite <- Na. lia. } { rewrite Hh1. apply not_elem_of_nil. }
  { rewrite <- Na. by destruct Hda as (_ & ? & _). } { by rewrite (proj2 St1). } { lia. }
  assert (fblock (cont v) (i_addrs x) bn = cont v1 a) as Eb.
  { rewrite <- Na. erewrite <- fblock_node by (first [done | apply (law_length (fstore s1) v1); [done|lia]]).
    apply fblock_ext; [|done]. intros off Hoff. symmetry. apply (fbyte_extends sb); auto. apply Hf. }
  exists a, bp, s1, t1, t2, t3, (written a d v1), x1. rewrite Eb. split_and!; auto.
  - assert (node (cont v1) (i_addrs x1) q = a) as Na' by done. subst a.
    destruct Hda as (_ & _ & Hnm & _). pose proof X1 as [U K N D]. split; auto; try done.
    + split; auto; [by apply fs_ok_written; [..|lia]|by apply (tree_leaf sb v1 _ Ht1 bn)].
    + intros n Hn Hu. rewrite used_written_other by done. auto.
    + intros p Hpv Hn. erewrite node_leaf by eauto. auto.
    + intros p Hpv. erewrite node_leaf by eauto. intros Hn.
      destruct (decide (node (cont v) (i_addrs x) p = 0)) as [E|Hne]; [right|left].
      * by apply N.
      * symmetry. by apply K.
    + intros m Hm Hnm' Hu Hnot. rewrite cont_written, fn_lookup_insert_ne.
      * apply D; auto.
      * intros <-. destruct (decide (node (cont v) (i_addrs x) q = 0)) as [E|Hne].
        -- destruct (N q Hv E Ha). congruence.
        -- apply (Hnot q Hv). symmetry. by apply K.
    + intros j Hj. eapply (has_free_same sb v1); [|by apply R1]. intros n Hn. by apply used_written_other.
    + unfold need in Hp. pose proof (pcount_written sb (node (cont v1) (i_addrs x1) q) d v1).
      destruct (decide (_ ∈ pend v1)); [rewrite pcount_pending by done; lia|].
      destruct (decide (is_map sb _)); lia.
  - exists q. split; [done|]. subst a. by erewrite node_leaf by eauto.
  - intros off Hoff. subst a. erewrite fbyte_leaf by eauto. case_decide; [done|].
    apply (fbyte_extends sb); auto. apply Hf.
Qed.

Lemma wrote_le k k' s v ip x s' v' x' :
  (k <= k')%nat -> wrote k s v ip x s' v' x' -> wrote k' s v ip x s' v' x'.
Proof.
  intros Hk []. split; auto; [|lia]. intros j Hj. apply w_free0. eapply has_free_le; [|done]. lia.
Qed.

(** The contents after [r] bytes of [src] were written at [off]. *)
Definition contents_after (C : Z -> list Z) (addrs : list Z) (C' : Z -> list Z) (addrs' : list Z)
    (src : list Z) (off r : Z) : Prop :=
  (forall off', 0 <= off' < maxbytes ->
    fbyte C' addrs' off' = if decide (off <= off' < off + r) then src !!! Z.to_nat (off' - off)
                           else fbyte C addrs off')
  /\ (forall off', off <= off' < off + r ->
       exists q, route (off' / bsize) = Some q /\ node C' addrs' q <> 0).

(** One round of the loop. *)
Lemma write_chunk_ok s v ip x src off m :
  file_at sb s v ip x -> 1 <= ops v -> room sb 4 v -> has_free sb v 4 ->
  0 <= off -> 0 < m <= bsize - off mod bsize -> off + m <= maxbytes -> m <= Z.of_nat (length src) ->
  exists addr bp s1 t1 t2 t3 v' x',
    bmap ip (off / bsize) s = Ok addr s1 /\ st_bread 1 addr (fstore s1) = Ok bp t1
    /\ st_data bp t1 = Ok (fblock (cont v) (i_addrs x) (off / bsize)) t1
    /\ (st_set bp (splice (Z.to_nat (off mod bsize)) (take (Z.to_nat m) src)
                     (fblock (cont v) (i_addrs x) (off / bsize)));; st_log_write bp) t1 = Ok tt t2
    /\ st_brelse bp t2 = Ok tt t3
    /\ wrote 1 s v ip x (with_store s1 t3) v' x'
    /\ contents_after (cont v) (i_addrs x) (cont v') (i_addrs x') src off m.
Proof.
  intros Hf Ho Hr Hfr Hoff Hm Hmax Hsrc. destruct (off_route off) as [Hbn _]; [lia|].
  pose proof (mod_bsize off) as [Hmo _].
  set (d := fblock (cont v) (i_addrs x) (off / bsize)).
  assert (length d = BSIZE) as Hld by (unfold d, fblock; by rewrite length_fmap, length_seq).
  assert (length (take (Z.to_nat m) src) = Z.to_nat m) as Hlt by (rewrite length_take; lia).
  assert (Z.to_nat (off mod bsize) + length (take (Z.to_nat m) src) <= length d)%nat as Hfit.
  { rewrite Hlt, Hld. unfold bsize in *. lia. }
  destruct (write_block_ok s v ip x (off / bsize) (splice (Z.to_nat (off mod bsize)) (take (Z.to_nat m) src) d))
    as (a & bp & s1 & t1 & t2 & t3 & v' & x' & E1 & E2 & E3 & E4 & E5 & W & Hq & Hb); auto.
  { by rewrite length_splice. }
  exists a, bp, s1, t1, t2, t3, v', x'. split_and!; auto. split.
  - intros off' Hoff'. rewrite Hb by done. pose proof (same_block off off') as Hsb.
    pose proof (mod_bsize off') as [_ Hl']. destruct (decide (off' / bsize = off / bsize)) as [E|Hne].
    + apply Hsb in E as Hrange. rewrite list_lookup_total_alt.
      assert (off' mod bsize = off mod bsize + (off' - off)) as Em.
      { pose proof (Z.div_mod off bsize ltac:(done)). pose proof (Z.div_mod off' bsize ltac:(done)).
        rewrite E in *. lia. }
      pose proof (mod_bsize off') as [Hmo' _].
      destruct (decide (off <= off' < off + m)) as [Hin|Hout].
      * rewrite lookup_splice_in by lia. rewrite lookup_take_lt by lia.
        rewrite <- list_lookup_total_alt. f_equal. lia.
      * rewrite lookup_splice_out by lia. rewrite <- list_lookup_total_alt.
        apply list_lookup_total_correct. unfold d, fblock. rewrite list_lookup_fmap, lookup_seq_lt by done.
        cbn. do 2 f_equal. rewrite Z2Nat.id by lia. pose proof (Z.div_mod off' bsize ltac:(done)). rewrite <- E. lia.
    + rewrite decide_False; [done|]. intros Hin. apply Hne, Hsb. lia.
  - intros off' Hoff'. rewrite (proj2 (same_block off off')) by lia. done.
Qed.

(** Writing [r1] bytes and then the rest. *)
Lemma contents_after_app C a C1 a1 C2 a2 src off r1 r2 :
  0 <= off -> 0 <= r1 -> 0 <= r2 -> off + r1 + r2 <= maxbytes ->
  contents_after C a C1 a1 src off r1 ->
  contents_after C1 a1 C2 a2 (drop (Z.to_nat r1) src) (off + r1) r2 ->
  (forall q, valid_loc q -> node C1 a1 q <> 0 -> node C2 a2 q = node C1 a1 q) ->
  contents_after C a C2 a2 src off (r1 + r2).
Proof.
  intros Hoff Hr1 Hr2 Hmax [B1 N1] [B2 N2] Hk. split.
  - intros off' Ho'. rewrite B2, B1 by done. repeat case_decide; try lia; try done.
    rewrite !list_lookup_total_alt, lookup_drop. do 2 f_equal. lia.
  - intros off' Ho'. destruct (decide (off' < off + r1)) as [Hlt|Hge]; [|apply N2; lia].
    destruct (N1 off') as (q & Hq & Hn); [lia|]. exists q. split; [done|].
    destruct (off_route off') as (_ & q' & Hq' & Hv & _); [lia|]. rewrite Hq in Hq'. injection Hq' as <-.
    by rewrite Hk.
Qed.

Context `{Devsw S}.

Lemma maxbytes_small : maxbytes < 2 ^ 32.
Proof. done. Qed.

Lemma writei_loop_done fuel ip src off n tot s :
  n <= tot -> writei_loop ip src off n tot fuel s = Ok off s.
Proof. intros Hn. destruct fuel; cbn [writei_loop]; by rewrite (proj2 (Z.ltb_ge _ _)). Qed.

Lemma writei_loop_ok fuel s v ip x src off n tot :
  file_at sb s v ip x -> 1 <= ops v -> 0 <= off -> 0 <= tot <= n -> n < 2 ^ 32 ->
  off + (n - tot) <= maxbytes -> n - tot <= Z.of_nat (length src) ->
  (spans off (n - tot) <= fuel)%nat -> room sb (4 * spans off (n - tot)) v ->
  has_free sb v (4 * spans off (n - tot)) ->
  exists s' v' x', writei_loop ip src off n tot fuel s = Ok (off + (n - tot)) s'
    /\ wrote (spans off (n - tot)) s v ip x s' v' x'
    /\ contents_after (cont v) (i_addrs x) (cont v') (i_addrs x') src off (n - tot).
Proof.
  revert s v x src off tot. induction fuel as [|fuel IH];
    intros s v x src off tot Hf Ho Hoff Htot Hn Hmax Hsrc Hfuel Hr Hfr;
    (destruct (decide (tot = n)) as [->|Hne];
     [exists s, v, x; rewrite Z.sub_diag, Z.add_0_r, writei_loop_done by lia; split_and!;
      [done|apply (wrote_le 0); [lia|]; by apply wrote_refl|split; intros; [by rewrite decide_False by lia|lia]]|]).
  { pose proof (spans_pos off (n - tot)). lia. }
  pose proof (spans_pos off (n - tot) ltac:(lia)) as Hsp. pose proof (mod_bsize off) as [Hmo _].
  set (m := Z.min (n - tot) (bsize - off mod bsize)).
  destruct (write_chunk_ok s v ip x src off m)
    as (a & bp & s1 & t1 & t2 & t3 & v1 & x1 & E1 & E2 & E3 & E4 & E5 & W & Hc); auto; try lia.
  { eapply room_le; [|done]. lia. } { eapply has_free_le; [|done]. lia. }
  pose proof maxbytes_small as Hmb. cbn [writei_loop].
  rewrite (proj2 (Z.ltb_lt _ _)) by lia. fold bsize. fold m.
  erewrite bind_ok by (apply getip_ok, Hf). rewrite (fa_dev _ _ _ _ _ Hf).
  erewrite bind_ok by exact E1. fstep E2. fstep E3. unfold set_and_log. fstep E4. fstep E5.
  rewrite !u32_small by lia.
  destruct (decide (m = n - tot)) as [Em|Em].
  - rewrite writei_loop_done by lia. exists (with_store s1 t3), v1, x1. split_and!.
    + do 2 f_equal. lia.
    + apply (wrote_le 1); [lia|]. exact W.
    + by rewrite <- Em.
  - assert (m = bsize - off mod bsize) as Em' by lia. pose proof (spans_next off (n - tot) ltac:(lia)) as Hnext.
    rewrite <- Em' in Hnext. pose proof (w_steady _ _ _ _ _ _ _ _ W) as St.
    assert (n - (tot + m) = n - tot - m) as En by lia.
    destruct (IH (with_store s1 t3) v1 x1 (drop (Z.to_nat m) src) (off + m) (tot + m))
      as (s2 & v2 & x2 & E6 & W2 & Hc2); rewrite ?En; auto; try lia.
    { apply W. } { by rewrite (proj2 St). } { rewrite length_drop. lia. }
    { eapply (room_spent sb v v1 (4 * spans off (n - tot))); [exact St| |done].
      pose proof (w_count _ _ _ _ _ _ _ _ W). lia. }
    { apply (w_free _ _ _ _ _ _ _ _ W). eapply has_free_le; [|done]. lia. }
    rewrite En in E6, W2, Hc2. exists s2, v2, x2. rewrite Hnext. split_and!.
    + refine (eq_trans E6 _). f_equal. lia.
    + apply (wrote_trans 1 _ _ _ _ _ (with_store s1 t3) v1 x1); auto.
    + replace (n - tot) with (m + (n - tot - m)) by lia.
      apply (contents_after_app _ _ (cont v1) (i_addrs x1)); auto; try lia.
      apply (w_keep _ _ _ _ _ _ _ _ W2).
Qed.
End Write.
