(* ===== verification/FsInode.v ===== *)
(** * Inodes on the disk

    The encoding of inodes in blocks, and [iupdate] and [ilock]: what the one
    writes is what the other reads. *)

From S2P Require Import Prelude CString Bio Log LogTheory BlockStore Fs FsBlocks FsTree.
Open Scope Z_scope.

(** ** The encoding *)
Section SliceApp.
Context {A : Type}.
Implicit Types l k : list A.

Lemma slice_app_skip n i l k m : n = (length l + i)%nat -> slice n m (l ++ k) = slice i m k.
Proof. intros ->. unfold slice. by rewrite <- drop_drop, drop_app_length. Qed.
Lemma slice_app_head l k m : m = length l -> slice 0 m (l ++ k) = l.
Proof. intros ->. unfold slice. rewrite drop_0. apply take_app_length. Qed.

Lemma slice_splice_inner off i n new l :
  (off + length new <= length l)%nat -> (i + n <= length new)%nat ->
  slice (off + i) n (splice off new l) = slice i n new.
Proof.
  intros Hl Hi. apply list_eq. intros j. destruct (decide (j < n)%nat) as [Hj|Hj].
  - rewrite !lookup_slice by done. rewrite lookup_splice_in by lia. f_equal. lia.
  - rewrite !lookup_ge_None_2; [done|..]; rewrite length_slice; try lia. rewrite length_splice; lia.
Qed.
End SliceApp.

Record dinode_ok (x : dinode) : Prop := {
  do_type : -2 ^ 15 <= d_type x < 2 ^ 15;
  do_major : -2 ^ 15 <= d_major x < 2 ^ 15;
  do_minor : -2 ^ 15 <= d_minor x < 2 ^ 15;
  do_nlink : -2 ^ 15 <= d_nlink x < 2 ^ 15;
  do_size : 0 <= d_size x < 2 ^ 32;
  do_len : length (d_addrs x) = 13%nat;
  do_addrs : Forall (fun a => 0 <= a < 2 ^ 32) (d_addrs x);
}.

Lemma length_words (l : list Z) : length (l ≫= le_bytes 4) = (4 * length l)%nat.
Proof.
  induction l as [|a l IH]; [done|]. rewrite bind_cons, length_app, IH, length_le_bytes. cbn. lia.
Qed.

Lemma slice_words (l : list Z) j a :
  l !! j = Some a -> slice (4 * j) 4 (l ≫= le_bytes 4) = le_bytes 4 a.
Proof.
  revert j. induction l as [|b l IH]; intros j Hj; [done|]. rewrite bind_cons.
  destruct j as [|j]; cbn [lookup list_lookup] in Hj.
  - injection Hj as ->. by apply slice_app_head.
  - rewrite (slice_app_skip _ (4 * j)) by (rewrite length_le_bytes; lia). by apply IH.
Qed.

Lemma length_dinode x : length (d_addrs x) = 13%nat -> length (dinode_bytes x) = 64%nat.
Proof.
  intros Hl. unfold dinode_bytes. rewrite !length_app, !length_le_bytes, length_words, Hl. done.
Qed.

Lemma length_put_dinode d k x :
  length d = BSIZE -> (k < 8)%nat -> length (d_addrs x) = 13%nat -> length (put_dinode d k x) = BSIZE.
Proof.
  intros Hd Hk Hl. unfold put_dinode. rewrite length_splice; [done|].
  rewrite length_dinode by done. unfold BSIZE in *. lia.
Qed.

Lemma s16_le z : -2 ^ 15 <= z < 2 ^ 15 -> s16 (le_value (le_bytes 2 z)) = z.
Proof.
  intros Hz. rewrite le_value_bytes. unfold s16. change (256 ^ Z.of_nat 2) with (2 ^ 16).
  rewrite Zplus_mod_idemp_l. rewrite Z.mod_small; lia.
Qed.

Lemma u32_le z : 0 <= z < 2 ^ 32 -> le_value (le_bytes 4 z) = z.
Proof. intros Hz. rewrite le_value_bytes. apply Z.mod_small. done. Qed.

(** Reading back an inode from the block it was stored in. *)
Lemma get_put_dinode d k x :
  length d = BSIZE -> (k < 8)%nat -> dinode_ok x -> get_dinode (put_dinode d k x) k = x.
Proof.
  intros Hd Hk []. pose proof (length_dinode x do_len0) as Hb.
  assert (forall i n, (i + n <= 64)%nat ->
    slice (64 * k + i) n (put_dinode d k x) = slice i n (dinode_bytes x)) as Hs.
  { intros i n Hi. unfold put_dinode. apply slice_splice_inner; rewrite Hb; unfold BSIZE in *; lia. }
  unfold dinode_bytes in Hs. unfold get_dinode, get16, get32. cbv zeta.
  rewrite <- (Nat.add_0_r (64 * k)) at 1.
  rewrite (Hs 0 2)%nat, (Hs 2 2)%nat, (Hs 4 2)%nat, (Hs 6 2)%nat, (Hs 8 4)%nat by lia.
  rewrite (slice_app_head (le_bytes 2 (d_type x))) by done.
  rewrite (slice_app_skip 2 0) by done. rewrite (slice_app_head (le_bytes 2 (d_major x))) by done.
  rewrite (slice_app_skip 4 2), (slice_app_skip 2 0) by done.
  rewrite (slice_app_head (le_bytes 2 (d_minor x))) by done.
  rewrite (slice_app_skip 6 4), (slice_app_skip 4 2), (slice_app_skip 2 0) by done.
  rewrite (slice_app_head (le_bytes 2 (d_nlink x))) by done.
  rewrite (slice_app_skip 8 6), (slice_app_skip 6 4), (slice_app_skip 4 2), (slice_app_skip 2 0) by done.
  rewrite (slice_app_head (le_bytes 4 (d_size x))) by done.
  rewrite !s16_le, u32_le by done.
  transitivity (mk_dinode (d_type x) (d_major x) (d_minor x) (d_nlink x) (d_size x) (d_addrs x));
    [f_equal|by destruct x].
  apply list_eq. intros j. rewrite list_lookup_fmap.
  destruct (decide (j < 13)%nat) as [Hj|Hj].
  - destruct (lookup_lt_is_Some_2 (d_addrs x) j) as [a Ea]; [lia|].
    rewrite lookup_seq_lt, Ea by done. cbn [fmap option_fmap option_map].
    f_equal. rewrite <- !Nat.add_assoc, Nat.add_0_l. rewrite (Hs (12 + 4 * j) 4)%nat by lia.
    rewrite (slice_app_skip _ (10 + 4 * j)), (slice_app_skip _ (8 + 4 * j)), (slice_app_skip _ (6 + 4 * j)),
      (slice_app_skip _ (4 + 4 * j)), (slice_app_skip _ (4 * j)) by done.
    rewrite (slice_words (d_addrs x) j a Ea). apply u32_le. by apply (Forall_lookup_1 _ _ _ _ do_addrs0 Ea).
  - rewrite (lookup_ge_None_2 (seq 0 (NDIRECT + 3))) by (rewrite length_seq; unfold NDIRECT; lia).
    rewrite (lookup_ge_None_2 (d_addrs x)) by lia. done.
Qed.

(** ** [iupdate] and [ilock] *)
Section Inodes.
Context {S : Type} `{BlockStoreSpec S} (sb : superblock).

(** The file system with no buffer held. *)
Record fs_at (s : fsys S) (v : sview) : Prop := {
  at_store : stands (fstore s) v;
  at_sb : fsb s = sb;
  at_ok : fs_ok sb v;
  at_hold : hold v = [];
}.

Lemma file_fs s v ip x : file_at sb s v ip x -> fs_at s v.
Proof. intros []. by split. Qed.

Definition valid_inum (x : inode) : Prop := i_dev x = 1 /\ 0 <= i_inum x < sb_ninodes sb.

(** The block and the slot of an inode. *)
Definition iblock (x : inode) : Z := sb_inodestart sb + i_inum x / IPB.
Definition islot (x : inode) : nat := Z.to_nat (i_inum x mod IPB).

Lemma islot_lt x : (islot x < 8)%nat.
Proof. unfold islot. pose proof (Z.mod_pos_bound (i_inum x) IPB ltac:(done)). unfold IPB in *. lia. Qed.

Lemma iblock_facts v x :
  fs_ok sb v -> valid_inum x ->
  IBLOCK (i_inum x) sb = iblock x /\ is_iblock sb (iblock x) /\ wr v (iblock x) /\ ~ is_map sb (iblock x)
  /\ 1 < iblock x < nblk v.
Proof.
  intros Hok [_ Hi]. pose proof (fo_geo sb v Hok) as Hgeo.
  destruct (IBLOCK_eq sb v Hgeo _ Hi) as [E Hb]. fold (iblock x) in E. rewrite E in Hb.
  destruct (geo_iblock_wr sb v Hgeo _ Hb). pose proof (iblock_range sb v Hgeo _ Hb). tauto.
Qed.

Lemma fs_reads s v k :
  fs_at s v -> room sb k v -> can_read v /\ (length (pend v) + k < cap v)%nat.
Proof. intros [] Hr. apply (room_reads sb v at_ok0 (no_holds sb v at_hold0) _ _ at_store0 Hr). Qed.

(** The view after [iupdate]. *)
Definition updated (x : inode) (v : sview) : sview :=
  written (iblock x) (put_dinode (cont v (iblock x)) (islot x) (to_dinode x)) v.

Lemma iupdate_ok s v ip x :
  fs_at s v -> inodes s !! ip = Some x -> valid_inum x -> length (i_addrs x) = 13%nat ->
  1 <= ops v -> room sb 1 v ->
  exists t, iupdate ip s = Ok tt (with_store s t) /\ fs_at (with_store s t) (updated x v).
Proof.
  intros Hf Hip Hv Hl Ho Hr. pose proof Hf as [Hs Hsb Hok Hh].
  destruct (iblock_facts v x Hok Hv) as (EI & Hib & Hw & Hnm & Hrange).
  destruct (fs_reads s v _ Hf Hr) as [Hcr Hcap].
  assert (length (cont v (iblock x)) = BSIZE) as Hlen by (apply (law_length (fstore s) v); [done|lia]).
  destruct (read_write (fstore s) v (iblock x) (put_dinode (cont v (iblock x)) (islot x) (to_dinode x)))
    as (bp & t1 & t2 & t3 & E1 & E2 & E3 & E4 & H4); auto.
  { lia. } { rewrite Hh. apply not_elem_of_nil. } { lia. }
  { apply length_put_dinode; [done|apply islot_lt|done]. }
  exists t3. split.
  - unfold iupdate, getsb. erewrite bind_ok by (by apply getip_ok). fstep0.
    rewrite Hsb, EI, (proj1 Hv). fstep E1. fstep E2. unfold set_and_log. fold (islot x). fstep E3.
    by erewrite on_store_ok by exact E4.
  - split; auto. apply fs_ok_written; auto. lia.
Qed.

(** The state with a new entry [x] of the inode cache. *)
Definition with_ip (s : fsys S) (ip : nat) (x : inode) : fsys S :=
  mk_fsys (fstore s) (fsb s) (<[ip := x]> (inodes s)).

Lemma lookup_with_ip s ip x y : inodes s !! ip = Some y -> inodes (with_ip s ip x) !! ip = Some x.
Proof. intros E. apply list_lookup_insert_eq. by eapply lookup_lt_Some. Qed.

Lemma with_ip_twice s ip x y : with_ip (with_ip s ip x) ip y = with_ip s ip y.
Proof. unfold with_ip. cbn. by rewrite list_insert_insert_eq. Qed.

Lemma set_ip s ip x f : inodes s !! ip = Some x -> setip ip f s = Ok tt (with_ip s ip (f x)).
Proof. apply setip_ok. Qed.

Definition locked (x : inode) : inode := { x with i_lock := 1 }.

Lemma acquiresleep_ok s ip x :
  inodes s !! ip = Some x -> i_lock x = 0 ->
  i_acquiresleep ip s = Ok tt (with_ip s ip (locked x)).
Proof.
  intros E El. unfold i_acquiresleep. erewrite bind_ok by (by apply getip_ok). rewrite El.
  change (ctrue 0) with false. cbv match. by erewrite set_ip by exact E.
Qed.

(** A fresh entry of the inode cache is filled from the disk. *)
Lemma ilock_loads s v ip x :
  fs_at s v -> inodes s !! ip = Some x -> valid_inum x -> 1 <= i_ref x -> i_lock x = 0 ->
  i_valid x = 0 -> room sb 0 v ->
  d_type (get_dinode (cont v (iblock x)) (islot x)) <> 0 ->
  let x' := { from_dinode (get_dinode (cont v (iblock x)) (islot x)) x with i_lock := 1; i_valid := 1 } in
  exists t, ilock ip s = Ok tt (mk_fsys t (fsb s) (<[ip := x']> (inodes s))) /\ stands t v.
Proof.
  intros Hf Hip Hv Href Hlock Hvalid Hr Hty x'. pose proof Hf as [Hs Hsb Hok Hh].
  destruct (iblock_facts v x Hok Hv) as (EI & Hib & Hw & Hnm & Hrange).
  destruct (fs_reads s v _ Hf Hr) as [Hcr Hcap].
  destruct (read_only (fstore s) v (iblock x)) as (bp & t1 & t2 & E1 & E2 & E3 & H3); auto.
  { lia. } { rewrite Hh. apply not_elem_of_nil. }
  exists t2. split; [|done].
  unfold ilock, getsb. erewrite bind_ok by (by apply getip_ok). rewrite (proj2 (Z.ltb_ge _ _)) by lia.
  erewrite bind_ok by (by apply acquiresleep_ok).
  set (s1 := with_ip s ip _). pose proof (lookup_with_ip s ip (locked x) x Hip : inodes s1 !! ip = _) as H1.
  erewrite bind_ok by (by apply getip_ok). change (i_valid (locked x)) with (i_valid x).
  change (i_dev (locked x)) with (i_dev x). change (i_inum (locked x)) with (i_inum x). rewrite Hvalid.
  change (0 =? 0) with true. cbv match. fstep0. change (fsb s1) with (fsb s).
  rewrite Hsb, EI, (proj1 Hv). fstep E1. fstep E2. fold (islot x).
  set (di := get_dinode _ _) in *. erewrite bind_ok by (apply set_ip; exact H1). fstep E3.
  erewrite bind_ok by (apply set_ip; by eapply lookup_with_ip).
  erewrite bind_ok by (apply getip_ok; eapply lookup_with_ip; by eapply lookup_with_ip).
  match goal with |- context [i_type ?y =? 0] => change (i_type y) with (d_type di) end. rewrite (proj2 (Z.eqb_neq _ _)) by done.
  unfold s1, with_store, with_ip, mret, M_ret. cbn. by rewrite !list_insert_insert_eq, <- Hsb.
Qed.
End Inodes.
