(* ===== verification/FsFile.v ===== *)
(** * Files

    The theorems about [readi] and [writei]: what is written is what is read,
    other files are not touched, and what the change of [writei] that allows
    writing behind the end of a file costs. *)

From S2P Require Import Prelude CString Bio Log LogTheory BlockStore Fs FsBlocks FsTree FsContent FsInode.
Open Scope Z_scope.

(** The [r] bytes of a file from offset [off] on. *)
Definition frange (C : Z -> list Z) (addrs : list Z) (off r : Z) : list Z :=
  (fun i => fbyte C addrs (off + Z.of_nat i)) <$> seq 0 (Z.to_nat r).

Lemma frange_app C a off r1 r2 :
  0 <= r1 -> 0 <= r2 -> frange C a off (r1 + r2) = frange C a off r1 ++ frange C a (off + r1) r2.
Proof.
  intros H1 H2. unfold frange. rewrite Z2Nat.inj_add, seq_app, fmap_app by done. f_equal.
  rewrite Nat.add_0_l, <- (Nat.add_0_r (Z.to_nat r1)), <- fmap_add_seq, <- list_fmap_compose.
  apply list_fmap_ext. intros i y _. cbn. f_equal. lia.
Qed.

Lemma length_frange C a off r : length (frange C a off r) = Z.to_nat r.
Proof. unfold frange. by rewrite length_fmap, length_seq. Qed.

(** Part of a block. *)
Lemma frange_block sb v addrs off m q :
  tree_ok sb v addrs -> 0 <= off -> 0 <= m <= bsize - off mod bsize -> off / bsize < MAXFILE ->
  route (off / bsize) = Some q -> node (cont v) addrs q <> 0 ->
  length (cont v (node (cont v) addrs q)) = BSIZE ->
  slice (Z.to_nat (off mod bsize)) (Z.to_nat m) (cont v (node (cont v) addrs q)) = frange (cont v) addrs off m.
Proof.
  intros Ht Hoff Hm Hbn Hq Hn Hl. pose proof (mod_bsize off) as [Hmo _].
  rewrite <- (fblock_node sb v addrs (off / bsize) q); auto.
  2: { split; [apply Z.div_pos; [lia|done]|done]. }
  apply list_eq. intros i. destruct (decide (i < Z.to_nat m)%nat) as [Hi|Hi].
  - rewrite lookup_slice by done. unfold fblock, frange. rewrite !list_lookup_fmap.
    rewrite !lookup_seq_lt by (unfold bsize in *; lia). cbn. do 2 f_equal.
    pose proof (Z.div_mod off bsize ltac:(done)). lia.
  - rewrite !lookup_ge_None_2; [done|rewrite length_frange; lia|].
    rewrite length_slice; [lia|]. unfold fblock. rewrite length_fmap, length_seq. unfold bsize in *. lia.
Qed.

(** The file has blocks for the [r] bytes from [off] on. *)
Definition no_hole (C : Z -> list Z) (addrs : list Z) (off r : Z) : Prop :=
  forall off', off <= off' < off + r -> exists q, route (off' / bsize) = Some q /\ node C addrs q <> 0.

Lemma spans_fuel off n : 0 <= n -> (spans off n <= io_fuel n)%nat.
Proof.
  intros Hn. pose proof (mod_bsize off) as [Hmo _]. unfold spans, io_fuel. fold bsize.
  assert ((off mod bsize + n + bsize - 1) / bsize <= n / bsize + 2); [|lia].
  apply Z.lt_succ_r, Z.div_lt_upper_bound; [done|].
  pose proof (Z.div_mod n bsize ltac:(done)). pose proof (Z.mod_pos_bound n bsize ltac:(done)).
  unfold bsize, BSIZE in *. lia.
Qed.

Section Read.
Context {S : Type} `{BlockStoreSpec S} `{Devsw S} (sb : superblock).

Lemma readi_loop_done fuel ip off n tot (s : fsys S) :
  n <= tot -> readi_loop ip off n tot fuel s = Ok [] s.
Proof. intros Hn. destruct fuel; cbn [readi_loop]; by rewrite (proj2 (Z.ltb_ge _ _)). Qed.

Lemma readi_loop_ok fuel s v ip x off n tot :
  file_at sb s v ip x -> 0 <= off -> 0 <= tot <= n -> n < 2 ^ 32 -> off + (n - tot) <= maxbytes ->
  no_hole (cont v) (i_addrs x) off (n - tot) -> (spans off (n - tot) <= fuel)%nat -> room sb 0 v ->
  exists t, readi_loop ip off n tot fuel s
            = Ok (frange (cont v) (i_addrs x) off (n - tot)) (with_store s t) /\ stands t v.
Proof.
  revert s off tot. induction fuel as [|fuel IH];
    intros s off tot Hf Hoff Htot Hn Hmax Hhole Hfuel Hr;
    (destruct (decide (tot = n)) as [->|Hne];
     [exists (fstore s); rewrite Z.sub_diag, readi_loop_done by lia; split; [by destruct s|apply Hf]|]).
  { pose proof (spans_pos off (n - tot)). lia. }
  pose proof (mod_bsize off) as [Hmo _]. pose proof maxbytes_small as Hmb.
  set (m := Z.min (n - tot) (bsize - off mod bsize)).
  destruct (Hhole off) as (q & Hq & Hqn); [lia|]. destruct (off_route off) as (Hbn & q' & Hq' & Hv & Hl); [lia|].
  rewrite Hq in Hq'. injection Hq' as <-. pose proof Hf as [Hs Hsb Hok Hip Hdev Ht Hh].
  destruct (bmap_found sb s v ip x (off / bsize) q) as (t0 & E0 & H00); auto.
  destruct (t_data _ _ _ Ht q Hv Hqn) as [Hd _]. pose proof (data_range sb v (fo_geo sb v Hok) _ Hd) as Hra.
  destruct (room_reads sb v Hok (no_holds sb v Hh) _ _ Hs Hr) as [Hcr _].
  destruct (read_only t0 v (node (cont v) (i_addrs x) q)) as (bp & t1 & t2 & E1 & E2 & E3 & H3); auto.
  { lia. } { rewrite Hh. apply not_elem_of_nil. }
  assert (file_at sb (with_store s t2) v ip x) as Hf2 by (by split).
  assert (length (cont v (node (cont v) (i_addrs x) q)) = BSIZE) as Hlen
    by (apply (law_length (fstore s) v); [done|lia]).
  cbn [readi_loop]. rewrite (proj2 (Z.ltb_lt _ _)) by lia. fold bsize. fold m.
  erewrite bind_ok by (by apply getip_ok). rewrite Hdev. erewrite bind_ok by exact E0.
  fstep E1. fstep E2. fstep E3. rewrite !u32_small by lia.
  rewrite (frange_block sb v (i_addrs x) off m q) by (auto; lia).
  destruct (decide (m = n - tot)) as [Em|Em].
  - erewrite bind_ok by (apply readi_loop_done; lia). exists t2. split; [|done].
    rewrite app_nil_r, <- Em. done.
  - assert (n - (tot + m) = n - tot - m) as En by lia.
    assert (m = bsize - off mod bsize) as Em' by lia. pose proof (spans_next off (n - tot) ltac:(lia)) as Hnext.
    rewrite <- Em' in Hnext.
    destruct (IH (with_store s t2) (off + m) (tot + m)) as (t3 & E4 & H4); rewrite ?En; auto; try lia.
    { intros off' Ho'. apply Hhole. lia. }
    rewrite En in E4. exists t3. split; [|done]. erewrite bind_ok by exact E4.
    rewrite <- frange_app by lia. replace (m + (n - tot - m)) with (n - tot) by lia. done.
Qed.

(** [readi] inside a file, where it has no holes. *)
Lemma readi_ok s v ip x off n :
  file_at sb s v ip x -> i_type x <> T_DEV -> 0 <= off -> 0 <= n -> off + n <= i_size x ->
  i_size x <= maxbytes -> no_hole (cont v) (i_addrs x) off n -> room sb 0 v ->
  exists t, readi ip off n s = Ok (n, frange (cont v) (i_addrs x) off n) (with_store s t) /\ stands t v.
Proof.
  intros Hf Hty Hoff Hn Hsz Hmax Hhole Hr. pose proof maxbytes_small as Hmb.
  destruct (readi_loop_ok (io_fuel n) s v ip x off n 0) as (t & E & Ht); rewrite ?Z.sub_0_r; auto; try lia.
  { by apply spans_fuel. }
  exists t. split; [|done]. unfold readi. erewrite bind_ok by (apply getip_ok, Hf).
  rewrite (proj2 (Z.eqb_neq _ _)) by done. rewrite u32_small by lia.
  rewrite !(proj2 (Z.ltb_ge _ _)) by lia. cbn [orb]. cbv zeta. erewrite bind_ok by exact E.
  rewrite Z.sub_0_r, s32_small; [done|]. unfold maxbytes, MAXFILE, NTRIPINDIRECT, NDOUBINDIRECT, bsize, BSIZE in *. lia.
Qed.
End Read.

(** ** [writei] *)

(** Writing a block that does not belong to the file. *)
Lemma fbyte_other sb v addrs m d off :
  tree_ok sb v addrs -> (forall q, valid_loc q -> node (cont v) addrs q <> 0 -> node (cont v) addrs q <> m) ->
  0 <= off < maxbytes ->
  fbyte (cont (written m d v)) addrs off = fbyte (cont v) addrs off.
Proof.
  intros Ht Hm Hoff. destruct (off_route off Hoff) as (_ & q & Hq & Hv & _). unfold fbyte. rewrite Hq.
  assert (forall p, valid_loc p -> node (cont (written m d v)) addrs p = node (cont v) addrs p) as Hnode.
  { intros p Hp. apply node_ext; [done|]. intros p' Hp' _ Hn.
    rewrite cont_written, fn_lookup_insert_ne; [done|]. apply not_eq_sym. by apply Hm. }
  rewrite Hnode by done. destruct (Z.eqb_spec (node (cont v) addrs q) 0) as [|Hn]; [done|].
  rewrite cont_written, fn_lookup_insert_ne; [done|]. apply not_eq_sym. by apply Hm.
Qed.

Lemma tree_other sb v addrs m d :
  tree_ok sb v addrs -> (forall q, valid_loc q -> node (cont v) addrs q <> 0 -> node (cont v) addrs q <> m) ->
  ~ is_map sb m -> tree_ok sb (written m d v) addrs
  /\ forall p, valid_loc p -> node (cont (written m d v)) addrs p = node (cont v) addrs p.
Proof.
  intros Ht Hm Hnm.
  assert (forall p, valid_loc p -> node (cont (written m d v)) addrs p = node (cont v) addrs p) as Hnode.
  { intros p Hp. apply node_ext; [done|]. intros p' Hp' _ Hn.
    rewrite cont_written, fn_lookup_insert_ne; [done|]. apply not_eq_sym. by apply Hm. }
  split; [|done]. split; [apply (t_len _ _ _ Ht)|..].
  - intros q Hq. rewrite Hnode by done. intros Hn. destruct (t_data _ _ _ Ht q Hq Hn) as [Hd Hu].
    split; [done|]. rewrite used_written_other; auto. destruct Hd. lia.
  - intros q q' Hq Hq'. rewrite !Hnode by done. by apply (t_inj _ _ _ Ht).
Qed.

Lemma iblock_not_node sb v addrs m q :
  tree_ok sb v addrs -> is_iblock sb m -> valid_loc q -> node (cont v) addrs q <> 0 ->
  node (cont v) addrs q <> m.
Proof. intros Ht Hm Hq Hn <-. destruct (t_data _ _ _ Ht q Hq Hn) as [(_ & _ & _ & Hni) _]. done. Qed.

Section WriteFile.
Context {S : Type} `{BlockStoreSpec S} `{Devsw S} (sb : superblock).

Definition with_size (n : Z) (x : inode) : inode := { x with i_size := n }.

(** What [writei] leaves behind: the inode [x'] in the cache, and everything
    that is not part of the file as it was. *)
Record written_file (s : fsys S) (v : sview) (ip : nat) (x : inode) (src : list Z) (off n : Z)
    (s' : fsys S) (v' : sview) (x' : inode) : Prop := {
  wf_file : file_at sb s' v' ip x';
  wf_contents : contents_after (cont v) (i_addrs x) (cont v') (i_addrs x') src off n;
  wf_size : i_size x' = if 0 <? n then Z.max (i_size x) (off + n) else i_size x;
  wf_meta : x' = set_addrs (i_addrs x') (with_size (i_size x') x);
  wf_inodes : inodes s' = <[ip := x']> (inodes s);
  wf_steady : steady v v';
  wf_used : forall m, 0 <= m < sb_size sb -> used sb v m = true -> used sb v' m = true;
  wf_frame : forall m, 0 < m < sb_size sb -> ~ is_map sb m -> m <> iblock sb x -> used sb v m = true ->
    (forall q, valid_loc q -> node (cont v) (i_addrs x) q <> m) -> cont v' m = cont v m;
  (** the inode is written to its block exactly when the size grows *)
  wf_disk : cont v' (iblock sb x)
    = if i_size x <? i_size x'
      then put_dinode (cont v (iblock sb x)) (islot x) (to_dinode x')
      else cont v (iblock sb x);
  wf_count : (pcount sb v' <= pcount sb v + 4 * spans off n + 1)%nat;
  wf_keep : forall q, valid_loc q -> node (cont v) (i_addrs x) q <> 0 ->
    node (cont v') (i_addrs x') q = node (cont v) (i_addrs x) q;
  wf_new : forall q, valid_loc q -> node (cont v') (i_addrs x') q <> 0 ->
    node (cont v) (i_addrs x) q = node (cont v') (i_addrs x') q
    \/ used sb v (node (cont v') (i_addrs x') q) = false;
}.

Lemma iblock_used v x : fs_ok sb v -> valid_inum sb x -> used sb v (iblock sb x) = true /\ 0 < iblock sb x < sb_size sb.
Proof.
  intros Hok Hv. destruct (iblock_facts sb v x Hok Hv) as (_ & Hib & _ & _ & Hr).
  assert (0 < iblock sb x < sb_size sb) as Hrange.
  { destruct (geo_inodes sb v (fo_geo sb v Hok)). unfold is_iblock in Hib. lia. }
  split; [|done]. destruct (used sb v (iblock sb x)) eqn:E; [done|].
  destruct (fo_free sb v Hok (iblock sb x)) as (_ & _ & _ & []); auto. lia.
Qed.

Lemma room_count v v' k k' :
  cap v' = cap v -> (pcount sb v' + k' <= pcount sb v + k)%nat -> room sb k v -> room sb k' v'.
Proof. intros E Hp [H1' H2']. split; rewrite ?E; lia. Qed.

Lemma writei_ok s v ip x src off n :
  file_at sb s v ip x -> valid_inum sb x -> i_type x <> T_DEV -> 1 <= ops v -> 0 <= off -> 0 <= n ->
  n <= Z.of_nat (length src) -> off + n <= maxbytes -> 0 <= i_size x ->
  room sb (4 * spans off n + 1) v -> has_free sb v (4 * spans off n) ->
  exists s' v' x', writei ip src off n s = Ok n s' /\ written_file s v ip x src off n s' v' x'.
Proof.
  intros Hf Hv Hty Ho Hoff Hn Hsrc Hmax Hsz Hr Hfr. pose proof maxbytes_small as Hmb.
  destruct (writei_loop_ok sb (io_fuel n) s v ip x src off n 0) as (s1 & v1 & x1 & E1 & W & Hc);
    rewrite ?Z.sub_0_r; auto; try lia.
  { by apply spans_fuel. } { eapply room_le; [|done]. lia. }
  rewrite Z.sub_0_r in E1, W, Hc. pose proof W as [F1 St M1 I1 U1 K1 N1 C1 _ P1].
  destruct (iblock_used v x (fa_ok _ _ _ _ _ Hf) Hv) as [Hiu Hir].
  destruct (iblock_facts sb v x (fa_ok _ _ _ _ _ Hf) Hv) as (_ & Hib & _ & Hinm & _).
  assert (cont v1 (iblock sb x) = cont v (iblock sb x)) as Hcib.
  { apply C1; auto. intros q Hq E. eapply (iblock_not_node sb v _ _ q (fa_tree _ _ _ _ _ Hf) Hib Hq); [lia|done]. }
  assert (i_size x1 = i_size x /\ i_inum x1 = i_inum x /\ i_dev x1 = i_dev x) as (Es & Ei & Ed) by (rewrite M1; done).
  assert (writei ip src off n s = (x ← getip ip;
    when ((0 <? n) && (i_size x <? off + n))
      (setip ip (fun x => { x with i_size := off + n });; iupdate ip);; mret (s32 n)) s1) as ->.
  { unfold writei. erewrite bind_ok by (apply getip_ok, Hf). rewrite (proj2 (Z.eqb_neq _ _)) by done.
    rewrite u32_small by lia. rewrite !(proj2 (Z.ltb_ge _ _)) by (unfold maxbytes, bsize in *; lia).
    by erewrite bind_ok by exact E1. }
  rewrite s32_small by (unfold maxbytes, MAXFILE, NTRIPINDIRECT, NDOUBINDIRECT, bsize, BSIZE in *; lia).
  erewrite bind_ok by (apply getip_ok, F1). rewrite Es.
  destruct ((0 <? n) && (i_size x <? off + n)) eqn:Eg; cbn [when].
  2: { exists s1, v1, x1. split; [done|]. apply andb_false_iff in Eg.
    split; auto; try done.
    - rewrite Es. destruct (Z.ltb_spec 0 n), Eg; zbool; lia.
    - rewrite M1 at 1. by rewrite Es.
    - rewrite Es, Z.ltb_irrefl. done.
    - lia. }
  zbool. set (x2 := with_size (off + n) x1).
  assert (iblock sb x2 = iblock sb x /\ islot x2 = islot x) as [Eib Eis]
    by (unfold iblock, islot, x2; cbn; by rewrite Ei).
  pose proof F1 as [Hs1 Hsb1 Hok1 Hip1 Hdev1 Ht1 Hh1].
  destruct (iupdate_ok sb (with_ip s1 ip x2) v1 ip x2) as (t & E2 & Hu2).
  { by split. } { by eapply lookup_with_ip. } { split; [done|]. unfold x2. cbn. rewrite Ei. apply Hv. }
  { apply (t_len _ _ _ Ht1). } { by rewrite (proj2 St). }
  { apply (room_count v v1 (4 * spans off n + 1)); [apply St|lia|done]. }
  destruct Hu2 as [Hs2 _ Hok2 Hh2]. unfold updated in *. rewrite Eib, Eis, Hcib in *.
  set (d := put_dinode _ _ _) in *.
  destruct (tree_other sb v1 (i_addrs x1) (iblock sb x) d Ht1) as [Ht2 Hnode]; auto.
  { intros q Hq Hqn. by apply (iblock_not_node sb v1). }
  exists (with_store (with_ip s1 ip x2) t), (written (iblock sb x) d v1), x2. split.
  { erewrite bind_ok; [done|]. erewrite bind_ok by (apply set_ip, Hip1). exact E2. }
  destruct Hc as [Hb Hc]. split; auto.
  - split; auto. cbn. apply list_lookup_insert_eq. by eapply lookup_lt_Some.
  - split.
    + intros off' Ho'. rewrite <- Hb by done. apply (fbyte_other sb); auto.
      intros q Hq Hqn. by apply (iblock_not_node sb v1).
    + intros off' Ho'. destruct (Hc off' Ho') as (q & Hq & Hqn). exists q. split; [done|].
      change (i_addrs x2) with (i_addrs x1). rewrite Hnode; [done|].
      destruct (off_route off') as (_ & q' & Hq' & Hvq & _); [lia|]. rewrite Hq in Hq'. by injection Hq' as <-.
  - unfold x2. cbn. destruct (Z.ltb_spec 0 n); lia.
  - unfold x2. rewrite M1. done.
  - cbn. by rewrite I1, list_insert_insert_eq.
  - intros m Hm Hu. rewrite used_written_other by done. auto.
  - intros m Hm Hnm Hne Hu Hnot. rewrite cont_written, fn_lookup_insert_ne by done. auto.
  - rewrite cont_written, fn_lookup_insert. unfold x2 at 1. cbn. by rewrite (proj2 (Z.ltb_lt _ _)) by lia.
  - pose proof (pcount_written sb (iblock sb x) d v1) as Hp. destruct (decide _); lia.
  - intros q Hq Hqn. change (i_addrs x2) with (i_addrs x1). rewrite Hnode by done. auto.
  - intros q Hq. change (i_addrs x2) with (i_addrs x1). rewrite Hnode by done. auto.
Qed.
End WriteFile.

(** ** The properties of files *)
Section Properties.
Context {S : Type} `{BlockStoreSpec S} `{Devsw S} (sb : superblock).

(** C2: what is written is what is read.  In a transaction with enough room and
    free blocks, [writei] of [n] bytes at any offset of a file, through direct
    or indirect blocks, succeeds; reading the same range returns exactly the
    bytes written; every other byte of the file is unchanged; and every block in
    use that is not part of the file, the block of its inode and the blocks of
    the free map apart, is unchanged. *)
Theorem writei_then_readi s v ip x src off n :
  file_at sb s v ip x -> valid_inum sb x -> i_type x <> T_DEV -> 1 <= ops v -> 0 <= off -> 0 < n ->
  n <= Z.of_nat (length src) -> off + n <= maxbytes -> 0 <= i_size x <= maxbytes ->
  room sb (4 * spans off n + 1) v -> has_free sb v (4 * spans off n) ->
  exists s' v' x' s'', writei ip src off n s = Ok n s'
    /\ inodes s' !! ip = Some x' /\ stands (fstore s') v'
    /\ readi ip off n s' = Ok (n, take (Z.to_nat n) src) s''
    /\ i_size x' = Z.max (i_size x) (off + n)
    /\ (forall off', 0 <= off' < maxbytes -> ~ (off <= off' < off + n) ->
          fbyte (cont v') (i_addrs x') off' = fbyte (cont v) (i_addrs x) off')
    /\ (forall m, 0 < m < sb_size sb -> ~ is_map sb m -> m <> iblock sb x -> used sb v m = true ->
          (forall q, valid_loc q -> node (cont v) (i_addrs x) q <> m) -> cont v' m = cont v m).
Proof.
  intros Hf Hv Hty Ho Hoff Hn Hsrc Hmax Hsz Hr Hfr.
  destruct (writei_ok sb s v ip x src off n) as (s' & v' & x' & E & W); auto; try lia.
  pose proof W as [F [Hb Hc] Hs Hm _ St _ Hfrm _ Hp _ _]. rewrite (proj2 (Z.ltb_lt _ _)) in Hs by lia.
  destruct (readi_ok sb s' v' ip x' off n) as (t & E' & Ht); auto; try lia.
  { by rewrite Hm. }
  { apply (room_count sb v v' (4 * spans off n + 1)); [apply St|lia|done]. }
  exists s', v', x', (with_store s' t). split_and!; auto; try apply F.
  - rewrite E'. do 2 f_equal. apply list_eq. intros i.
    destruct (decide (i < Z.to_nat n)%nat) as [Hi|Hi].
    + unfold frange. rewrite list_lookup_fmap, lookup_seq_lt, lookup_take_lt by done. cbn [fmap option_fmap option_map].
      rewrite Hb by lia. rewrite decide_True by lia. symmetry.
      replace (Z.to_nat (off + Z.of_nat (0 + i) - off)) with i by lia.
      apply list_lookup_lookup_total_lt. lia.
    + rewrite !lookup_ge_None_2; [done|rewrite length_take; lia|rewrite length_frange; lia].
  - intros off' Ho' Hne. rewrite Hb by done. by rewrite decide_False.
Qed.

(** Every address that an inode on the disk holds is marked in use. *)
Definition inodes_marked (v : sview) : Prop :=
  forall m k b, is_iblock sb m -> (k < Z.to_nat IPB)%nat ->
    b ∈ d_addrs (get_dinode (cont v m) k) -> b <> 0 -> used sb v b = true.

(** A block of the file that [writei] allocates for an entry of the inode. *)
Lemma hole_filled s v ip x src off n s' v' x' o q :
  written_file sb s v ip x src off n s' v' x' -> 0 <= off -> off <= o < off + n -> off + n <= maxbytes ->
  route (o / bsize) = Some q -> i_addrs x !! q.1 = Some 0 ->
  exists a, i_addrs x' !! q.1 = Some a /\ a <> 0 /\ used sb v a = false /\ used sb v' a = true.
Proof.
  intros W Hoff Ho Hmax Hq He. pose proof (wf_file _ _ _ _ _ _ _ _ _ _ _ W) as F.
  destruct (off_route o) as (_ & q' & Hq' & (Hv1 & _) & _); [lia|]. rewrite Hq in Hq'. injection Hq' as <-.
  assert (valid_loc (q.1, [])) as Hv by (split_and!; [done|cbn; lia|constructor]).
  pose proof (t_len _ _ _ (fa_tree _ _ _ _ _ F)) as Hl.
  destruct (lookup_lt_is_Some_2 (i_addrs x') q.1) as [a Ha]; [lia|].
  assert (node (cont v') (i_addrs x') (q.1, []) = a) as Na
    by (unfold node; cbn; by rewrite (list_lookup_total_correct _ _ _ Ha)).
  assert (a <> 0) as Hne.
  { intros ->. destruct (proj2 (wf_contents _ _ _ _ _ _ _ _ _ _ _ W) o Ho) as (p & Hp & Hpn).
    rewrite Hq in Hp. injection Hp as <-. apply Hpn. unfold node in *. cbn in Na. rewrite Na. apply no_child. }
  rewrite <- Na in Hne. exists a. split; [done|]. rewrite <- Na. split; [done|]. split.
  - destruct (wf_new _ _ _ _ _ _ _ _ _ _ _ W (q.1, []) Hv Hne) as [E|Hu]; [|done].
    unfold node in E at 1. cbn in E. rewrite (list_lookup_total_correct _ _ _ He) in E. exfalso. apply Hne. symmetry. exact E.
  - by apply (t_data _ _ _ (fa_tree _ _ _ _ _ F)).
Qed.

(** [writei] inside the size of a file writes no inode to the disk. *)
Lemma inode_blocks_kept s v ip x src off n s' v' x' m :
  written_file sb s v ip x src off n s' v' x' -> file_at sb s v ip x -> valid_inum sb x ->
  off + n <= i_size x -> is_iblock sb m -> cont v' m = cont v m.
Proof.
  intros W Hf Hv Hsz Hm. pose proof W as [_ _ Hs _ _ _ _ Hfrm Hd _ _ _].
  assert (i_size x' = i_size x) as Es by (rewrite Hs; destruct (Z.ltb_spec 0 n); lia).
  rewrite Es, Z.ltb_irrefl in Hd. destruct (decide (m = iblock sb x)) as [->|Hne]; [done|].
  pose proof (fo_geo sb v (fa_ok _ _ _ _ _ Hf)) as Hgeo. destruct (geo_iblock_wr sb v Hgeo _ Hm) as [_ Hnm].
  assert (0 < m < sb_size sb) as Hr by (destruct (geo_inodes sb v Hgeo); unfold is_iblock in Hm; lia).
  apply Hfrm; auto.
  - destruct (used sb v m) eqn:E; [done|].
    destruct (fo_free sb v (fa_ok _ _ _ _ _ Hf) m) as (_ & _ & _ & []); auto. lia.
  - intros q Hq E. eapply (iblock_not_node sb v _ _ q (fa_tree _ _ _ _ _ Hf) Hm Hq); [lia|done].
Qed.

(** C29: filling a hole is not recorded on the disk.  Because [writei] accepts
    offsets behind the end of a file, an entry of an inode, direct or the root
    of an indirect tree, can be 0 although the bytes it is to hold lie below the
    size.  A write inside the size that touches such bytes allocates a free
    block [a], marks it in use and stores its number in the inode in memory;
    but [iupdate] runs only when the size grows, so every inode on the disk
    stays as it was, and, if the addresses of the inodes on the disk were all
    marked in use, none of them is [a]. *)
Theorem writei_hole_not_recorded s v ip x src off n o q :
  file_at sb s v ip x -> valid_inum sb x -> i_type x <> T_DEV -> 1 <= ops v ->
  0 <= off -> 0 < n <= Z.of_nat (length src) -> off + n <= i_size x <= maxbytes ->
  off <= o < off + n -> route (o / bsize) = Some q -> i_addrs x !! q.1 = Some 0 ->
  inodes_marked v -> room sb (4 * spans off n + 1) v -> has_free sb v (4 * spans off n) ->
  exists s' v' x' a, writei ip src off n s = Ok n s'
    /\ stands (fstore s') v' /\ inodes s' !! ip = Some x'
    /\ i_addrs x' !! q.1 = Some a /\ a <> 0 /\ used sb v a = false /\ used sb v' a = true
    /\ forall m k, is_iblock sb m -> (k < Z.to_nat IPB)%nat ->
         get_dinode (cont v' m) k = get_dinode (cont v m) k
         /\ a ∉ d_addrs (get_dinode (cont v' m) k).
Proof.
  intros Hf Hv Hty Ho Hoff Hn Hsz Hin Hq He Hmark Hr Hfr.
  destruct (writei_ok sb s v ip x src off n) as (s' & v' & x' & E & W); auto; try lia.
  destruct (hole_filled s v ip x src off n s' v' x' o q) as (a & Ha & Hne & Hu & Hu'); auto; [lia|].
  pose proof (wf_file _ _ _ _ _ _ _ _ _ _ _ W) as F.
  exists s', v', x', a. split_and!; auto; try apply F.
  intros m k Hm Hk. rewrite (inode_blocks_kept s v ip x src off n s' v' x') by (auto; lia). split; [done|].
  intros Hel. rewrite (Hmark m k a) in Hu; done.
Qed.

(** C8: the block map is a function.  Two different blocks of a file are mapped
    to two different disk blocks, whether they existed or had to be allocated,
    and asking for a block again returns the same disk block. *)
Theorem bmap_injective_and_stable s v ip x bn1 bn2 :
  file_at sb s v ip x -> 0 <= bn1 < MAXFILE -> 0 <= bn2 < MAXFILE -> bn1 <> bn2 ->
  1 <= ops v -> room sb 8 v -> has_free sb v 8 ->
  exists b1 b2 s1 s2 s3, bmap ip bn1 s = Ok b1 s1 /\ bmap ip bn2 s1 = Ok b2 s2
    /\ bmap ip bn1 s2 = Ok b1 s3 /\ b1 <> b2 /\ b1 <> 0 /\ b2 <> 0.
Proof.
  intros Hf Hb1 Hb2 Hne Ho Hr Hfr.
  destruct (route_some bn1 Hb1) as (q1 & Hq1 & Hv1 & _). destruct (route_some bn2 Hb2) as (q2 & Hq2 & Hv2 & _).
  destruct (bmap_ok sb s v ip x bn1 q1) as (b1 & s1 & v1 & x1 & E1 & G1 & N1 & B1 & P1); auto.
  { eapply room_le; [|done]. lia. } { eapply has_free_le; [|done]. lia. }
  pose proof G1 as [F1 X1 St1 _ _ R1 _].
  destruct (bmap_ok sb s1 v1 ip x1 bn2 q2) as (b2 & s2 & v2 & x2 & E2 & G2 & N2 & B2 & P2); auto.
  { by rewrite (proj2 St1). } { apply (room_spent sb v v1 8); [done|lia|done]. }
  pose proof G2 as [F2 X2 St2 _ _ _ _].
  assert (node (cont v2) (i_addrs x2) q1 = b1) as N1'.
  { rewrite <- N1. apply (e_keep _ _ _ _ _ X2); [done|by rewrite N1]. }
  destruct (bmap_found sb s2 v2 ip x2 bn1 q1) as (t & E3 & _); auto.
  { apply (room_spent sb v1 v2 4); [done|lia|]. apply (room_spent sb v v1 8); [done|lia|done]. }
  { by rewrite N1'. }
  rewrite N1' in E3. exists b1, b2, s1, s2, (with_store s2 t). split_and!; auto.
  intros E. apply Hne. apply (route_inj bn1 bn2 q2); try lia; [|done].
  rewrite <- (t_inj _ _ _ (fa_tree _ _ _ _ _ F2) q1 q2 Hv1 Hv2); [done|by rewrite N1'|by rewrite N1', N2].
Qed.

(** Inodes survive the trip to the disk.  What [iupdate] writes for an inode
    is what [ilock] reads into a fresh entry of the inode cache, whichever entry
    that is. *)
Theorem iupdate_then_ilock s v ip x ip2 y :
  fs_at sb s v -> inodes s !! ip = Some x -> valid_inum sb x -> dinode_ok (to_dinode x) ->
  i_type x <> 0 -> 1 <= ops v -> room sb 1 v ->
  inodes s !! ip2 = Some y -> i_dev y = i_dev x -> i_inum y = i_inum x -> 1 <= i_ref y ->
  i_lock y = 0 -> i_valid y = 0 ->
  exists s1 s2, iupdate ip s = Ok tt s1 /\ ilock ip2 s1 = Ok tt s2
    /\ inodes s2 !! ip2 = Some { from_dinode (to_dinode x) y with i_lock := 1; i_valid := 1 }.
Proof.
  intros Hf Hip Hv Hd Hty Ho Hr Hip2 Hdev Hinum Href Hlock Hval.
  destruct (iupdate_ok sb s v ip x) as (t & E & Hf'); auto; [apply Hd|].
  pose proof (fs_reads sb s v 1 Hf Hr) as [_ Hcap].
  destruct (iblock_facts sb v x (at_ok _ _ _ Hf) Hv) as (_ & _ & _ & Hnm & Hrange).
  assert (iblock sb y = iblock sb x /\ islot y = islot x) as [Eb Ei] by (unfold iblock, islot; by rewrite Hinum).
  assert (get_dinode (cont (updated sb x v) (iblock sb x)) (islot x) = to_dinode x) as Hget.
  { unfold updated. rewrite cont_written, fn_lookup_insert. apply get_put_dinode; auto; [|apply islot_lt].
    apply (law_length (fstore s) v); [apply Hf|lia]. }
  destruct (ilock_loads sb (with_store s t) (updated sb x v) ip2 y) as (t2 & E2 & _); auto.
  { split; [rewrite Hdev; apply Hv|]. rewrite Hinum. apply Hv. }
  { apply (room_count sb v _ 1); [done| |done]. unfold updated.
    pose proof (pcount_written sb (iblock sb x) (put_dinode (cont v (iblock sb x)) (islot x) (to_dinode x)) v).
    destruct (decide _); lia. }
  { by rewrite Eb, Ei, Hget. }
  rewrite Eb, Ei, Hget in E2. exists (with_store s t). eexists. split; [exact E|]. split; [exact E2|].
  cbn [inodes]. apply list_lookup_insert_eq. by eapply lookup_lt_Some.
Qed.
End Properties.
