(* ===== verification/FsDir.v ===== *)
(** * Directories

    A directory is a file of entries.  The theorems say that [dirlookup] and
    [dirlink] treat it as a partial map from names to inode numbers. *)

From S2P Require Import Prelude CString Bio Log LogTheory BlockStore Fs FsBlocks FsTree FsContent FsInode FsFile.
Open Scope Z_scope.

(** ** Names *)
Lemma length_strncpy_list t n : length (strncpy_list t n) = n.
Proof. revert t. induction n as [|n IH]; intros t; [done|]. cbn. destruct (hd 0 t =? 0); cbn; [by rewrite length_replicate|by rewrite IH]. Qed.

(** [strncmp] compares what [strncpy] would store. *)
Lemma strncmp_strncpy p q n : strncmp_list p q n = 0 <-> strncpy_list p n = strncpy_list q n.
Proof.
  revert p q. induction n as [|n IH]; intros p q; [done|]. cbn [strncmp_list strncpy_list]. unfold ctrue.
  destruct (Z.eqb_spec (hd 0 p) 0) as [Ep|Ep], (Z.eqb_spec (hd 0 q) 0) as [Eq|Eq]; cbn [negb andb].
  - rewrite Ep, Eq. done.
  - split; [lia|]. intros [= E]. lia.
  - rewrite (proj2 (Z.eqb_neq _ _)) by lia. split; [lia|]. intros [= E]. lia.
  - destruct (Z.eqb_spec (hd 0 p) (hd 0 q)) as [E|E].
    + rewrite IH, E. split; [by intros ->|by intros [= ?]].
    + split; [lia|]. by intros [= ?].
Qed.

Lemma strncpy_twice p n : strncpy_list (strncpy_list p n) n = strncpy_list p n.
Proof.
  revert p. induction n as [|n IH]; intros p; [done|]. cbn [strncpy_list]. destruct (Z.eqb_spec (hd 0 p) 0) as [E|E]; cbn [hd tl replicate].
  - done.
  - rewrite (proj2 (Z.eqb_neq _ _)) by done. by rewrite IH.
Qed.

(** What identifies a name: its characters up to a NUL byte, at most [DIRSIZ]. *)
Definition dname (name : list Z) : list Z := strncpy_list name DIRSIZ.

Lemma namecmp_dname s t : namecmp s t = 0 <-> dname s = dname t.
Proof. apply strncmp_strncpy. Qed.

(** ** Entries *)

(** An entry in use with the name [nm]. *)
Definition entry_is (nm de : list Z) : Prop := de_inum de <> 0 /\ dname (de_name de) = dname nm.
#[export] Instance entry_is_dec nm de : Decision (entry_is nm de).
Proof. unfold entry_is. apply _. Defined.

(** Position and contents of the entry of [nm]. *)
Definition dir_find (nm : list Z) (E : list (list Z)) : option (nat * list Z) := list_find (entry_is nm) E.

(** The inode number the directory gives [nm]. *)
Definition dir_inum (nm : list Z) (E : list (list Z)) : option Z := de_inum ∘ snd <$> dir_find nm E.

Lemma de_inum_bytes inum name : 0 <= inum < 2 ^ 16 -> de_inum (dirent_bytes inum name) = inum.
Proof.
  intros Hi. unfold de_inum, dirent_bytes, get16. rewrite slice_app_head by (by rewrite length_le_bytes).
  rewrite le_value_bytes. apply Z.mod_small. done.
Qed.

Lemma de_name_bytes inum name : de_name (dirent_bytes inum name) = dname name.
Proof.
  unfold de_name, dirent_bytes. rewrite (slice_app_skip 2 0) by (by rewrite length_le_bytes).
  fold (dname name). rewrite <- (app_nil_r (dname name)) at 1. apply slice_app_head. unfold dname. by rewrite length_strncpy_list.
Qed.

Lemma dname_twice nm : dname (dname nm) = dname nm.
Proof. apply strncpy_twice. Qed.

Lemma entry_bytes nm inum name :
  0 < inum < 2 ^ 16 -> entry_is nm (dirent_bytes inum name) <-> dname name = dname nm.
Proof.
  intros Hi. unfold entry_is. rewrite de_inum_bytes, de_name_bytes, dname_twice by lia. split; [by intros []|split; [lia|done]].
Qed.

Lemma dirent_length inum name : length (dirent_bytes inum name) = 16%nat.
Proof. unfold dirent_bytes. by rewrite length_app, length_le_bytes, length_strncpy_list. Qed.

(** ** The directory as a map *)
Lemma dir_inum_cons nm de E : dir_inum nm (de :: E) = if decide (entry_is nm de) then Some (de_inum de) else dir_inum nm E.
Proof. unfold dir_inum, dir_find. cbn. case_decide; [done|]. by destruct (list_find _ E) as [[k d]|]. Qed.

Lemma dir_inum_app nm E1 E2 :
  dir_inum nm (E1 ++ E2) = match dir_inum nm E1 with Some i => Some i | None => dir_inum nm E2 end.
Proof.
  induction E1 as [|de E1 IH]; [done|]. cbn [app]. rewrite !dir_inum_cons. by case_decide.
Qed.

Lemma dir_inum_None nm E : dir_inum nm E = None <-> dir_find nm E = None.
Proof. unfold dir_inum. apply fmap_None. Qed.

(** The first entry that is not in use, or the end. *)
Definition free_slot (E : list (list Z)) : nat :=
  match list_find (fun de => de_inum de = 0) E with Some (k, _) => k | None => length E end.
Definition put_entry (k : nat) (de : list Z) (E : list (list Z)) : list (list Z) := take k E ++ de :: drop (S k) E.

Lemma free_slot_le E : (free_slot E <= length E)%nat.
Proof.
  unfold free_slot. destruct (list_find _ E) as [[k de]|] eqn:Ek; [|done]. apply list_find_Some in Ek as (Hk & _).
  apply lookup_lt_Some in Hk. lia.
Qed.

Lemma dir_inum_put nm name inum E :
  0 < inum < 2 ^ 16 -> dir_inum name E = None ->
  dir_inum nm (put_entry (free_slot E) (dirent_bytes inum name) E)
  = if decide (dname nm = dname name) then Some inum else dir_inum nm E.
Proof.
  intros Hi HN. set (k := free_slot E).
  assert (forall n, dir_inum n E = dir_inum n (take k E ++ drop (S k) E)) as HE.
  { intros n. rewrite <- (take_drop k E) at 1. rewrite !dir_inum_app. destruct (dir_inum n (take k E)); [done|].
    unfold k, free_slot. destruct (list_find _ E) as [[j de]|] eqn:Ek; [|by rewrite !drop_ge by lia].
    apply list_find_Some in Ek as (Hj & H0 & _). rewrite (drop_S _ _ _ Hj), dir_inum_cons. rewrite decide_False; [done|]. by intros []. }
  unfold put_entry. rewrite HE in HN |- *. rewrite dir_inum_app in HN |- *. rewrite dir_inum_app, dir_inum_cons.
  destruct (decide (dname nm = dname name)) as [En|En].
  - assert (forall l, dir_inum nm l = dir_inum name l) as Ex.
    { intros l. unfold dir_inum, dir_find. f_equal. apply list_find_ext. intros de. unfold entry_is. by rewrite En. }
    rewrite !Ex. destruct (dir_inum name (take k E)); [done|]. rewrite decide_True by (by rewrite entry_bytes).
    by rewrite de_inum_bytes by lia.
  - destruct (dir_inum nm (take k E)); [done|]. rewrite decide_False; [done|]. rewrite entry_bytes by done. by intros Ex.
Qed.

(** ** Reading a directory *)
Section Dir.
Context {S : Type} `{BlockStoreSpec S} `{Devsw S} (sb : superblock).

Definition dentry (C : Z -> list Z) (addrs : list Z) (k : nat) : list Z := frange C addrs (16 * Z.of_nat k) 16.

(** Inode [dp] is a directory that begins with the entries [E]. *)
Record dir_at (s : fsys S) (v : sview) (dp : nat) (x : inode) (E : list (list Z)) : Prop := {
  da_file : file_at sb s v dp x;
  da_type : i_type x = T_DIR;
  da_size : 16 * Z.of_nat (length E) <= i_size x <= maxbytes;
  da_entries : forall k de, E !! k = Some de -> dentry (cont v) (i_addrs x) k = de;
  da_blocks : no_hole (cont v) (i_addrs x) 0 (16 * Z.of_nat (length E));
}.

Lemma dir_store s v dp x E t : dir_at s v dp x E -> stands t v -> dir_at (with_store s t) v dp x E.
Proof. intros [[] ? ? ? ?] Ht. split; [by split|done..]. Qed.

Lemma read_dirent_ok s v dp x E msg k de :
  dir_at s v dp x E -> room sb 0 v -> E !! k = Some de ->
  exists t, read_dirent msg dp (Z.of_nat k * Z.of_nat DIRENT) s = Ok de (with_store s t) /\ stands t v.
Proof.
  intros [Hf Hty Hsz He Hb] Hr Hk. pose proof (lookup_lt_Some _ _ _ Hk) as Hl. change (Z.of_nat DIRENT) with 16.
  destruct (readi_ok sb s v dp x (Z.of_nat k * 16) 16) as (t & E1 & Ht); auto; try lia; [by rewrite Hty|..].
  { intros off Hoff. apply Hb. lia. }
  exists t. split; [|done]. unfold read_dirent. change (Z.of_nat DIRENT) with 16. erewrite bind_ok by exact E1. cbn [fst snd].
  rewrite Z.eqb_refl. cbn [negb]. f_equal. rewrite <- (He k de Hk). unfold dentry. by rewrite Z.mul_comm.
Qed.

(** A loop over the entries that looks for the first one with [P]. *)
Lemma dir_scan_from {A} msg (P : list Z -> Prop) `{!forall de, Decision (P de)} (h : Z -> list Z -> M (fsys S) (option A))
    n s v dp x E k :
  dir_at s v dp x E -> room sb 0 v -> (forall off de s', ~ P de -> h off de s' = Ok None s') -> (k + n >= length E)%nat ->
  (k <= length E)%nat ->
  let loop := for_loop ((fun k => Z.of_nat k * Z.of_nat DIRENT) <$> seq k n)
    (fun off => de ← read_dirent msg dp off; h off de) in
  match list_find P (drop k E) with
  | Some (j, de) => exists t, stands t v /\ forall a s',
      h (Z.of_nat (k + j) * Z.of_nat DIRENT) de (with_store s t) = Ok (Some a) s' -> loop s = Ok (Some a) s'
  | None => (k + n)%nat = length E -> exists t, loop s = Ok None (with_store s t) /\ stands t v
  end.
Proof.
  intros HD Hr Hh. revert s k HD. induction n as [|n IH]; intros s k HD Hn Hk loop; unfold loop; clear loop.
  { rewrite drop_ge by lia. cbn [list_find]. intros _. exists (fstore s). split; [|apply HD]. by destruct s. }
  destruct (drop k E) as [|de E'] eqn:Ed.
  { cbn [list_find]. intros El. apply (f_equal length) in Ed. rewrite length_drop in Ed. cbn in Ed. lia. }
  assert (E !! k = Some de) as Hde by (by rewrite <- (Nat.add_0_r k), <- lookup_drop, Ed).
  assert (drop (Datatypes.S k) E = E') as Ed' by (by rewrite <- Nat.add_1_r, <- drop_drop, Ed).
  pose proof (lookup_lt_Some _ _ _ Hde) as Hlt.
  destruct (read_dirent_ok s v dp x E msg k de HD Hr Hde) as (t & E1 & Ht). cbn [seq fmap list_fmap for_loop].
  cbn [list_find]. destruct (decide (P de)) as [HP|HP].
  - exists t. split; [done|]. intros a s' Ea. rewrite Nat.add_0_r in Ea. erewrite bind_ok; [|erewrite bind_ok by exact E1; exact Ea]. done.
  - specialize (IH (with_store s t) (Datatypes.S k) (dir_store _ _ _ _ _ _ HD Ht) ltac:(lia) ltac:(lia)). cbv zeta in IH. rewrite Ed' in IH.
    destruct (list_find P E') as [[j d]|]; cbn [fmap option_fmap option_map prod_map fst snd].
    + destruct IH as (t' & Ht' & IH). exists t'. split; [done|]. intros a s' Ea. erewrite bind_ok; [|erewrite bind_ok by exact E1; by apply Hh].
      apply IH. replace (Datatypes.S k + j)%nat with (k + Datatypes.S j)%nat by lia. exact Ea.
    + intros El. destruct (IH ltac:(lia)) as (t' & E2 & Ht'). exists t'. split; [|done].
      erewrite bind_ok; [|erewrite bind_ok by exact E1; by apply Hh]. exact E2.
Qed.

(** The number of rounds of the loops. *)
Lemma dir_rounds n : Z.to_nat ((16 * Z.of_nat n + 16 - 1) / 16) = n.
Proof. replace (16 * Z.of_nat n + 16 - 1) with (15 + Z.of_nat n * 16) by lia. rewrite Z.div_add by done. change (15 / 16) with 0. lia. Qed.

Lemma dir_scan {A} msg (P : list Z -> Prop) `{!forall de, Decision (P de)} (h : Z -> list Z -> M (fsys S) (option A)) s v dp x E :
  dir_at s v dp x E -> room sb 0 v -> (forall off de s', ~ P de -> h off de s' = Ok None s') ->
  let loop := for_loop (dir_offs (i_size x)) (fun off => de ← read_dirent msg dp off; h off de) in
  match list_find P E with
  | Some (k, de) => exists t, stands t v /\ forall a s',
      h (Z.of_nat k * Z.of_nat DIRENT) de (with_store s t) = Ok (Some a) s' -> loop s = Ok (Some a) s'
  | None => i_size x = 16 * Z.of_nat (length E) -> exists t, loop s = Ok None (with_store s t) /\ stands t v
  end.
Proof.
  intros HD Hr Hh loop. unfold loop, dir_offs. change (Z.of_nat DIRENT) with 16. pose proof (da_size _ _ _ _ _ HD) as [Hsz _].
  set (n := Z.to_nat ((i_size x + 16 - 1) / 16)).
  assert (length E <= n)%nat as Hn by (unfold n; pose proof (Z.div_le_lower_bound (i_size x + 16 - 1) 16 (Z.of_nat (length E))); lia).
  pose proof (dir_scan_from msg P h n s v dp x E 0 HD Hr Hh ltac:(lia) ltac:(lia)) as Hs. cbv zeta in Hs. rewrite drop_0 in Hs.
  destruct (list_find P E) as [[k de]|]; [exact Hs|]. intros Es. apply Hs. unfold n. rewrite Es. apply dir_rounds.
Qed.

(** The body of the loop of [dirlookup] behind the read. *)
Definition try_entry (dev : Z) (name : list Z) (off : Z) (de : list Z) : M (fsys S) (option (nat * Z)) :=
  if de_inum de =? 0 then mret None
  else if namecmp name (de_name de) =? 0 then ip ← iget dev (de_inum de); mret (Some (ip, off)) else mret None.

Lemma try_entry_ok dev name off de s :
  try_entry dev name off de s
  = if decide (entry_is name de) then (ip ← iget dev (de_inum de); mret (Some (ip, off))) s else Ok None s.
Proof.
  unfold try_entry, entry_is. pose proof (namecmp_dname name (de_name de)) as Hn.
  destruct (Z.eqb_spec (de_inum de) 0); [rewrite decide_False; [done|by intros []]|].
  destruct (Z.eqb_spec (namecmp name (de_name de)) 0) as [En|En].
  - rewrite decide_True; [done|]. split; [done|]. symmetry. by apply Hn.
  - rewrite decide_False; [done|]. intros [_ E]. by apply En, Hn.
Qed.

(** [dirlookup] finds the entry of the name, if there is one. *)
Lemma dirlookup_ok s v dp x E name :
  dir_at s v dp x E -> room sb 0 v ->
  match dir_find name E with
  | Some (k, de) => exists t, stands t v /\ forall ip s',
      iget 1 (de_inum de) (with_store s t) = Ok ip s' -> dirlookup dp name s = Ok (Some (ip, 16 * Z.of_nat k)) s'
  | None => i_size x = 16 * Z.of_nat (length E) -> exists t, dirlookup dp name s = Ok None (with_store s t) /\ stands t v
  end.
Proof.
  intros HD Hr. pose proof (da_file _ _ _ _ _ HD) as Hf.
  pose proof (dir_scan "dirlookup read" (entry_is name) (try_entry (i_dev x) name) s v dp x E HD Hr) as Hs. cbv zeta in Hs.
  assert (dirlookup dp name s
    = for_loop (dir_offs (i_size x)) (fun off => de ← read_dirent "dirlookup read" dp off; try_entry (i_dev x) name off de) s) as ->.
  { unfold dirlookup. erewrite bind_ok by (apply getip_ok, Hf). by rewrite (da_type _ _ _ _ _ HD). }
  unfold dir_find. destruct (list_find (entry_is name) E) as [[k de]|] eqn:Ef.
  - destruct Hs as (t & Ht & Hs); [intros off d s' Hn; rewrite try_entry_ok; by apply decide_False|].
    exists t. split; [done|]. intros ip s' Eg. apply list_find_Some in Ef as (_ & Hn & _). apply Hs.
    rewrite try_entry_ok, decide_True, (fa_dev _ _ _ _ _ Hf) by done. erewrite bind_ok by exact Eg.
    change (Z.of_nat DIRENT) with 16. by rewrite Z.mul_comm.
  - intros Es. apply Hs; [|done]. intros off d s' Hn. rewrite try_entry_ok. by apply decide_False.
Qed.

(** The second loop of [dirlink]. *)
Definition slot_of (off : Z) (de : list Z) : M (fsys S) (option Z) := mret (if de_inum de =? 0 then Some off else None).

Lemma free_slot_ok s v dp x E :
  dir_at s v dp x E -> i_size x = 16 * Z.of_nat (length E) -> room sb 0 v ->
  exists r t, for_loop (dir_offs (i_size x)) (fun off => de ← read_dirent "dirlink read" dp off; slot_of off de) s = Ok r (with_store s t)
    /\ stands t v
    /\ match r with Some off => off | None => Z.of_nat (length (dir_offs (i_size x))) * Z.of_nat DIRENT end = 16 * Z.of_nat (free_slot E).
Proof.
  intros HD Es Hr.
  assert (forall off de s', de_inum de <> 0 -> slot_of off de s' = Ok None s') as Hno.
  { intros off de s' Hn. unfold slot_of. by rewrite (proj2 (Z.eqb_neq _ _)). }
  pose proof (dir_scan "dirlink read" (fun de => de_inum de = 0) slot_of s v dp x E HD Hr Hno) as Hs. cbv zeta in Hs. unfold free_slot.
  destruct (list_find (fun de => de_inum de = 0) E) as [[k de]|] eqn:Ef.
  - destruct Hs as (t & Ht & Hs). apply list_find_Some in Ef as (_ & Hz & _).
    exists (Some (Z.of_nat k * Z.of_nat DIRENT)), t. split_and!; [|done|change (Z.of_nat DIRENT) with 16; lia].
    apply Hs. unfold slot_of. by rewrite Hz.
  - destruct (Hs Es) as (t & E1 & Ht). exists None, t. split_and!; [done|done|]. unfold dir_offs. rewrite length_fmap, length_seq, Es.
    change (Z.of_nat DIRENT) with 16. rewrite dir_rounds. lia.
Qed.

(** The entry is written. *)
Lemma length_put_entry k de E : (k <= length E)%nat -> length (put_entry k de E) = Nat.max (length E) (Datatypes.S k).
Proof. intros Hk. unfold put_entry. rewrite length_app, length_take. cbn [length]. rewrite length_drop. lia. Qed.

Lemma lookup_put_entry k de E j :
  (k <= length E)%nat -> put_entry k de E !! j = if decide (j = k) then Some de else E !! j.
Proof.
  intros Hk. unfold put_entry. destruct (decide (j = k)) as [->|Hne].
  - rewrite lookup_app_r by (rewrite length_take; lia). rewrite length_take. by rewrite (proj2 (Nat.sub_0_le _ _)) by lia.
  - destruct (decide (j < k)%nat).
    + rewrite lookup_app_l by (rewrite length_take; lia). by rewrite lookup_take_lt.
    + rewrite lookup_app_r by (rewrite length_take; lia). rewrite length_take.
      replace (j - k `min` length E)%nat with (Datatypes.S (j - Datatypes.S k)) by lia. rewrite lookup_cons_ne_0 by done. cbn [Nat.pred]. rewrite lookup_drop. f_equal. lia.
Qed.

Lemma dir_written s v dp x E de k s' v' x' :
  dir_at s v dp x E -> i_size x = 16 * Z.of_nat (length E) -> (k <= length E)%nat -> length de = 16%nat ->
  16 * Z.of_nat (length E) + 16 <= maxbytes ->
  written_file sb s v dp x de (16 * Z.of_nat k) 16 s' v' x' ->
  dir_at s' v' dp x' (put_entry k de E) /\ i_size x' = 16 * Z.of_nat (length (put_entry k de E)).
Proof.
  intros [Hf Hty _ He Hb] Es Hk Hd Hmax [F [W1 W2] Hs Hm _ _ _ _ _ _ Hkeep]. change (0 <? 16) with true in Hs. cbv match in Hs.
  assert (i_size x' = 16 * Z.of_nat (length (put_entry k de E))) as Es' by (rewrite length_put_entry, Hs by done; lia).
  pose proof (length_put_entry k de E Hk) as Hlen. split; [|done]. split; [done|by rewrite Hm|lia|..].
  - intros j d Hj. pose proof (lookup_lt_Some _ _ _ Hj) as Hjl. rewrite lookup_put_entry in Hj by done. unfold dentry, frange.
    change (Z.to_nat 16) with 16%nat. destruct (decide (j = k)) as [->|Hne].
    + injection Hj as <-. apply list_eq_same_length with (n := 16%nat); [done|done|]. intros i a b Hi.
      rewrite list_lookup_fmap, lookup_seq_lt by done. cbn [fmap option_fmap option_map]. rewrite Nat.add_0_l. intros [= <-] Hbi.
      rewrite W1 by lia. rewrite decide_True by lia. apply list_lookup_total_correct. rewrite <- Hbi. f_equal. lia.
    + rewrite <- (He j d Hj). unfold dentry, frange. change (Z.to_nat 16) with 16%nat. apply list_fmap_ext. intros i a Ha.
      apply lookup_seq in Ha as [-> Hi]. rewrite W1 by lia. by rewrite decide_False by lia.
  - intros off Hoff. destruct (decide (16 * Z.of_nat k <= off < 16 * Z.of_nat k + 16)); [by apply W2|].
    destruct (Hb off) as (q & Hq & Hnz); [lia|]. exists q. split; [done|]. rewrite Hkeep; [done| |done].
    by destruct (off_route off) as (_ & q' & Hq' & Hv & _); [lia|]; rewrite Hq in Hq'; injection Hq' as <-.
Qed.

Lemma dirent_spans k : spans (16 * Z.of_nat k) 16 = 1%nat.
Proof.
  unfold spans. set (o := (16 * Z.of_nat k) mod bsize). assert (0 <= o <= bsize - 16) as Hob.
  { unfold o, bsize, BSIZE. change (Z.of_nat 512) with (16 * 32). rewrite Z.mul_mod_distr_l by done.
    pose proof (Z.mod_pos_bound (Z.of_nat k) 32 ltac:(done)). lia. }
  replace ((o + 16 + bsize - 1) / bsize) with 1; [done|]. apply (Z.div_unique_pos _ _ _ (o + 15)); lia.
Qed.

Lemma dirlink_ok s v dp x E name inum :
  dir_at s v dp x E -> i_size x = 16 * Z.of_nat (length E) -> valid_inum sb x -> 1 <= ops v ->
  16 * Z.of_nat (length E) + 16 <= maxbytes -> room sb 5 v -> has_free sb v 4 -> dir_find name E = None ->
  let de := dirent_bytes inum name in
  exists s' v' x', dirlink dp name inum s = Ok 0 s'
    /\ written_file sb s v dp x de (16 * Z.of_nat (free_slot E)) 16 s' v' x'
    /\ dir_at s' v' dp x' (put_entry (free_slot E) de E)
    /\ i_size x' = 16 * Z.of_nat (length (put_entry (free_slot E) de E)).
Proof.
  intros HD Es Hv Ho Hmax Hr Hfr HN de. pose proof (room_le sb v 5 0 ltac:(lia) Hr) as Hr0. pose proof (free_slot_le E) as Hle.
  pose proof (dirlookup_ok s v dp x E name HD Hr0) as HL. rewrite HN in HL. destruct (HL Es) as (t1 & E1 & Ht1).
  pose proof (dir_store _ _ _ _ _ _ HD Ht1) as HD1. destruct (free_slot_ok _ v dp x E HD1 Es Hr0) as (r & t2 & E2 & Ht2 & Er).
  pose proof (dir_store _ _ _ _ _ _ HD1 Ht2) as HD2. change (with_store (with_store s t1) t2) with (with_store s t2) in *.
  set (off := 16 * Z.of_nat (free_slot E)) in *.
  pose proof (dirent_spans (free_slot E) : spans off 16 = 1%nat) as Hsp.
  destruct (writei_ok sb (with_store s t2) v dp x de off 16) as (s' & v' & x' & E3 & W); rewrite ?Hsp; auto; try lia.
  { apply HD2. } { by rewrite (da_type _ _ _ _ _ HD). } { unfold de. by rewrite dirent_length. }
  destruct (dir_written _ v dp x E de (free_slot E) s' v' x' HD2 Es Hle (dirent_length _ _) Hmax W) as [HD3 Es3].
  exists s', v', x'. split_and!; [|by destruct W; split|done|done].
  unfold dirlink. erewrite bind_ok by exact E1. cbv beta iota. erewrite bind_ok by (apply getip_ok, HD1).
  erewrite bind_ok by exact E2. rewrite Er. erewrite bind_ok by exact E3. done.
Qed.

(** ** The inode cache *)
Definition cached (dev inum : Z) (y : inode) : Prop := 0 < i_ref y /\ i_dev y = dev /\ i_inum y = inum.

Lemma cached_eq dev inum y : (0 <? i_ref y) && (i_dev y =? dev) && (i_inum y =? inum) = true <-> cached dev inum y.
Proof. unfold cached. rewrite !andb_true_iff, Z.ltb_lt, !Z.eqb_eq. tauto. Qed.

(** What the loop of [iget] finds. *)
Lemma iget_scan_ok dev inum l i e :
  match iget_scan dev inum l i e with
  | inl j => exists y, (i <= j)%nat /\ l !! (j - i)%nat = Some y /\ cached dev inum y
  | inr r => (forall y, y ∈ l -> ~ cached dev inum y)
      /\ r = match e with Some _ => e | None => (fun k => (i + k.1)%nat) <$> list_find (fun y => i_ref y = 0) l end
  end.
Proof.
  revert i e. induction l as [|y l IH]; intros i e; cbn [iget_scan].
  { split; [intros y Hy; by apply not_elem_of_nil in Hy|by destruct e]. }
  destruct ((0 <? i_ref y) && (i_dev y =? dev) && (i_inum y =? inum)) eqn:Ec.
  { apply cached_eq in Ec. exists y. by rewrite Nat.sub_diag. }
  assert (~ cached dev inum y) as Hn by (intros Hc%cached_eq; congruence).
  specialize (IH (Datatypes.S i) (match e with None => if i_ref y =? 0 then Some i else None | Some e => Some e end)).
  destruct (iget_scan _ _ _ _ _) as [j|r].
  - destruct IH as (z & Hj & Hz & Hc). exists z. split_and!; [lia| |done]. by replace (j - i)%nat with (Datatypes.S (j - Datatypes.S i)) by lia.
  - destruct IH as [H1' ->]. split; [intros z [->|Hz]%elem_of_cons; auto|]. destruct e as [e|]; [done|]. cbn [list_find].
    destruct (Z.eqb_spec (i_ref y) 0); [rewrite decide_True by done; cbn; by rewrite Nat.add_0_r|]. rewrite decide_False by done.
    destruct (list_find _ l) as [[k z]|]; [|done]. cbn. f_equal. lia.
Qed.

(** An entry of the cache for the inode that has no reference yet. *)
Definition recycled (dev inum : Z) (y : inode) : inode := { y with i_dev := dev; i_inum := inum; i_ref := 1; i_valid := 0 }.

Lemma iget_new dev inum (s : fsys S) ip y :
  (forall z, z ∈ inodes s -> ~ cached dev inum z) -> list_find (fun y => i_ref y = 0) (inodes s) = Some (ip, y) ->
  iget dev inum s = Ok ip (with_ip s ip (recycled dev inum y)).
Proof.
  intros Hn Hf. unfold iget. erewrite bind_ok by reflexivity. pose proof (iget_scan_ok dev inum (inodes s) 0 None) as Hs.
  destruct (iget_scan _ _ _ _ _) as [j|r].
  - destruct Hs as (z & _ & Hz & Hc). by destruct (Hn z); [eapply list_elem_of_lookup_2|].
  - destruct Hs as [_ ->]. rewrite Hf. cbn [fmap option_fmap option_map fst]. rewrite Nat.add_0_l.
    apply list_find_Some in Hf as (Hy & _). by erewrite bind_ok by (apply set_ip; exact Hy).
Qed.

(** An entry with references gets one more. *)
Definition taken (y : inode) : inode := { y with i_ref := s32 (i_ref y + 1) }.

Lemma iget_hit dev inum (s : fsys S) ip y :
  inodes s !! ip = Some y -> cached dev inum y -> (forall j z, inodes s !! j = Some z -> cached dev inum z -> j = ip) ->
  iget dev inum s = Ok ip (with_ip s ip (taken y)).
Proof.
  intros Hy Hc Hu. unfold iget. erewrite bind_ok by reflexivity. pose proof (iget_scan_ok dev inum (inodes s) 0 None) as Hs.
  destruct (iget_scan _ _ _ _ _) as [j|r].
  - destruct Hs as (z & _ & Hz & Hcz). rewrite Nat.sub_0_r in Hz. rewrite (Hu j z Hz Hcz) in *.
    by erewrite bind_ok by (apply set_ip; exact Hy).
  - destruct Hs as [Hn _]. destruct (Hn y); [by eapply list_elem_of_lookup_2|done].
Qed.

(** [iget] finds or makes an entry, unless all are in use. *)
Lemma iget_ok dev inum (s : fsys S) :
  (exists y, y ∈ inodes s /\ i_ref y = 0) ->
  exists ip y, iget dev inum s = Ok ip (with_ip s ip y) /\ i_dev y = dev /\ i_inum y = inum
    /\ exists z, inodes s !! ip = Some z /\ (cached dev inum z /\ y = taken z \/ i_ref z = 0 /\ y = recycled dev inum z).
Proof.
  intros (y & Hy & Hz). unfold iget. erewrite bind_ok by reflexivity. pose proof (iget_scan_ok dev inum (inodes s) 0 None) as Hs.
  destruct (iget_scan _ _ _ _ _) as [j|r].
  - destruct Hs as (z & _ & Ej & Hcz). rewrite Nat.sub_0_r in Ej. exists j, (taken z).
    split_and!; [by erewrite bind_ok by (apply set_ip; exact Ej)|apply Hcz..|]. exists z. auto.
  - destruct Hs as [_ ->]. destruct (list_find_elem_of (fun y => i_ref y = 0) (inodes s) y Hy Hz) as [[k z] Hk]. rewrite Hk.
    apply list_find_Some in Hk as (Ek & Hr & _). exists k, (recycled dev inum z).
    split_and!; [cbn [fmap option_fmap option_map fst]; rewrite Nat.add_0_l; by erewrite bind_ok by (apply set_ip; exact Ek)|done..|].
    exists z. auto.
Qed.

(** [iput] of an inode that has links, or other references. *)
Definition dropped (y : inode) : inode := { y with i_lock := 0; i_ref := s32 (i_ref y - 1) }.

Lemma iput_ok (s : fsys S) ip y :
  inodes s !! ip = Some y -> i_lock y = 0 -> i_valid y = 0 \/ i_nlink y <> 0 \/ i_ref y <> 1 ->
  iput ip s = Ok tt (with_ip s ip (dropped y)).
Proof.
  intros Hy Hl Hk. unfold iput. erewrite bind_ok by (apply acquiresleep_ok; done).
  pose proof (lookup_with_ip s ip (locked y) y Hy) as H1'. erewrite bind_ok by (apply getip_ok; exact H1').
  assert (ctrue (i_valid (locked y)) && (i_nlink (locked y) =? 0) && (i_ref (locked y) =? 1) = false) as ->.
  { unfold ctrue. cbn. destruct (Z.eqb_spec (i_valid y) 0), (Z.eqb_spec (i_nlink y) 0), (Z.eqb_spec (i_ref y) 1); try done. tauto. }
  cbn [when]. erewrite bind_ok by reflexivity. erewrite bind_ok by (apply set_ip; exact H1').
  erewrite set_ip by (eapply lookup_with_ip; exact H1'). by rewrite !with_ip_twice.
Qed.

Lemma iunlock_ok (s : fsys S) ip y :
  inodes s !! ip = Some y -> i_lock y = 1 -> 1 <= i_ref y -> iunlock ip s = Ok tt (with_ip s ip { y with i_lock := 0 }).
Proof.
  intros Hy Hl Hr. unfold iunlock. erewrite bind_ok by (apply getip_ok; exact Hy). rewrite Hl, (proj2 (Z.ltb_ge _ _)) by lia.
  apply set_ip. exact Hy.
Qed.

(** [dirlookup] as a lookup, when the inode cache has room. *)
Lemma dirlookup_inum s v dp x E nm :
  dir_at s v dp x E -> room sb 0 v -> i_size x = 16 * Z.of_nat (length E) -> (exists y, y ∈ inodes s /\ i_ref y = 0) ->
  match dir_inum nm E with
  | Some i => exists ip off y s', dirlookup dp nm s = Ok (Some (ip, off)) s' /\ inodes s' !! ip = Some y /\ i_dev y = 1 /\ i_inum y = i
  | None => exists s', dirlookup dp nm s = Ok None s'
  end.
Proof.
  intros HD Hr Es Hfree. pose proof (dirlookup_ok s v dp x E nm HD Hr) as HL. unfold dir_inum.
  destruct (dir_find nm E) as [[k de]|]; cbn [fmap option_fmap option_map compose snd].
  - destruct HL as (t & _ & HL). destruct (iget_ok 1 (de_inum de) (with_store s t) Hfree) as (ip & y & E1 & Hd & Hi & z & Hz & _).
    exists ip, (16 * Z.of_nat k), y, (with_ip (with_store s t) ip y). split_and!; [by apply HL|by eapply lookup_with_ip|done|done].
  - destruct (HL Es) as (t & E1 & _). by exists (with_store s t).
Qed.

(** C12: a directory is a partial map from names to inode numbers, and [dirlink]
    is insertion.  In a transaction with enough room, [dirlink] of a name the
    directory does not have succeeds; it reuses the first free entry or appends
    one; afterwards [dirlookup] of any name finds the new inode number for the
    new name and what it found before for every other name, where names that
    agree on [DIRSIZ] characters are the same; no block in use changes but those
    of the directory, of its inode and of the free map. *)
Theorem dirlink_is_insertion s v dp x E name inum :
  dir_at s v dp x E -> i_size x = 16 * Z.of_nat (length E) -> valid_inum sb x -> 1 <= ops v ->
  16 * Z.of_nat (length E) + 16 <= maxbytes -> room sb 5 v -> has_free sb v 4 ->
  0 < inum < 2 ^ 16 -> dir_inum name E = None -> (exists j y, j <> dp /\ inodes s !! j = Some y /\ i_ref y = 0) ->
  exists s' v' x' E', dirlink dp name inum s = Ok 0 s' /\ dir_at s' v' dp x' E' /\ i_size x' = 16 * Z.of_nat (length E')
    /\ (forall nm, dir_inum nm E' = if decide (dname nm = dname name) then Some inum else dir_inum nm E)
    /\ (forall nm, match dir_inum nm E' with
         | Some i => exists ip off y s'', dirlookup dp nm s' = Ok (Some (ip, off)) s''
                       /\ inodes s'' !! ip = Some y /\ i_dev y = 1 /\ i_inum y = i
         | None => exists s'', dirlookup dp nm s' = Ok None s''
         end)
    /\ (forall m, 0 < m < sb_size sb -> ~ is_map sb m -> m <> iblock sb x -> used sb v m = true ->
          (forall q, valid_loc q -> node (cont v) (i_addrs x) q <> m) -> cont v' m = cont v m).
Proof.
  intros HD Es Hv Ho Hmax Hr Hfr Hi HN (j & y & Hj & Hy & Hz).
  destruct (dirlink_ok s v dp x E name inum) as (s' & v' & x' & E1 & W & HD' & Es'); auto; [by apply dir_inum_None|].
  exists s', v', x', (put_entry (free_slot E) (dirent_bytes inum name) E). pose proof W as [_ _ _ _ Hin St _ Hframe _ Hp _].
  rewrite dirent_spans in Hp. assert (room sb 0 v') as Hr' by (apply (room_count sb v v' 5); [apply St|lia|done]).
  split_and!; auto.
  - intros nm. by apply dir_inum_put.
  - intros nm. apply (dirlookup_inum s' v' dp x'); auto. exists y. split; [|done]. rewrite Hin. apply list_elem_of_lookup. exists j.
    by rewrite list_lookup_insert_ne.
Qed.

(** C28: linking to [.] never returns.  [dirlink] drops the inode that [dirlookup]
    finds with [iput], which waits for the lock of the inode.  When the name
    stands for the directory itself, as [.] does, that is the lock the caller
    holds: the process waits for itself inside a transaction, which then never
    ends. *)
Theorem dirlink_dot_blocks s v dp x E name inum :
  dir_at s v dp x E -> room sb 0 v -> i_lock x = 1 -> 1 <= i_ref x -> dir_inum name E = Some (i_inum x) ->
  (forall j z, inodes s !! j = Some z -> cached 1 (i_inum x) z -> j = dp) ->
  dirlink dp name inum s = Blocked.
Proof.
  intros HD Hr Hl Href Hi Hu. pose proof (dirlookup_ok s v dp x E name HD Hr) as HL. unfold dir_inum in Hi.
  destruct (dir_find name E) as [[k de]|]; [|done]. injection Hi as Ei. cbn [compose snd] in Ei. destruct HL as (t & _ & HL).
  pose proof (da_file _ _ _ _ _ HD) as Hf. pose proof (fa_ip _ _ _ _ _ Hf) as Hip.
  assert (iget 1 (de_inum de) (with_store s t) = Ok dp (with_ip (with_store s t) dp (taken x))) as E1.
  { rewrite Ei. apply iget_hit; [done| |done]. split_and!; [lia|apply Hf|done]. }
  unfold dirlink. erewrite bind_ok by (by apply HL). cbv beta iota. unfold iput, i_acquiresleep.
  set (s1 := with_ip _ _ _). assert (inodes s1 !! dp = Some (taken x)) as Hs1 by (by eapply lookup_with_ip).
  assert ((x ← getip dp; if ctrue (i_lock x) then blocked else setip dp (fun x => { x with i_lock := 1 })) s1 = Blocked) as Eb.
  { erewrite bind_ok by (apply getip_ok; exact Hs1). change (i_lock (taken x)) with (i_lock x). by rewrite Hl. }
  by apply bind_blocked, bind_blocked.
Qed.
End Dir.
