(* ===== verification/FsWitness.v ===== *)
(** * A small file system

    A freshly formatted disk of 34 blocks, booted, inside a transaction: the
    theorems about the file system apply to it. *)

From S2P Require Import Prelude CString Bio BioTheory Log LogTheory LogCrash BlockStore Transaction.
From S2P Require Import Fs FsBlocks FsTree FsContent FsInode FsFile FsDir.
Open Scope Z_scope.

Definition mini_sb : superblock := mk_superblock 34 9 8 20 2 22 24.
Definition mini_sb_block : list Z :=
  le_bytes 4 34 ++ le_bytes 4 9 ++ le_bytes 4 8 ++ le_bytes 4 20 ++ le_bytes 4 2 ++ le_bytes 4 22
  ++ le_bytes 4 24 ++ replicate 484 0.
(** A regular file without blocks, and an unused entry of the inode cache. *)
Definition mini_inode (size : Z) : inode :=
  mk_inode 1 1 1 1 1 T_FILE 0 0 1 size (replicate 13 0).
Definition stale_inode : inode := mk_inode 1 1 1 0 0 0 0 0 0 0 [].

(** Inode 1 on the disk has size 4096 and no blocks; blocks 0 to 24 are in use. *)
Definition mini_inodes : list Z :=
  put_dinode (replicate BSIZE 0) 1 (to_dinode (mini_inode 4096)).
Definition mini_map : list Z := 255 :: 255 :: 255 :: 1 :: replicate 508 0.
Definition mini_disk : list (list Z) :=
  replicate BSIZE 0 :: mini_sb_block :: replicate 20 (replicate BSIZE 0)
  ++ mini_inodes :: replicate BSIZE 0 :: mini_map :: replicate 9 (replicate BSIZE 0).

Lemma length_mini : Z.of_nat (length mini_disk) = 34.
Proof. reflexivity. Qed.

Lemma mini_crash : crash_disk 2 20 mini_disk /\ hdr_n (blk mini_disk 2) = 0.
Proof.
  assert (hdr_n (blk mini_disk 2) = 0) as E by (vm_compute; reflexivity).
  split; [|done]. assert (hdr_list (blk mini_disk 2) = []) as El by (unfold hdr_list; by rewrite E).
  split; rewrite ?El, ?E, ?length_mini; unfold LOGSIZE; try lia; try (vm_compute; reflexivity).
  - unfold mini_disk. apply list.Forall_cons. split; [apply length_replicate|].
    apply list.Forall_cons. split; [vm_compute; reflexivity|].
    apply Forall_app_2; [apply Forall_replicate, length_replicate|].
    apply list.Forall_cons. split; [vm_compute; reflexivity|].
    apply list.Forall_cons. split; [apply length_replicate|].
    apply list.Forall_cons. split; [vm_compute; reflexivity|]. apply Forall_replicate, length_replicate.
  - constructor.
  - constructor.
Qed.

(** A disk with an empty log is shown as it is. *)
Lemma recover_fresh L nlog d :
  crash_disk L nlog d -> hdr_n (blk d L) = 0 ->
  exists r, recover d = Ok tt r /\ disksize (dbio r) = Z.of_nat (length d)
    /\ in_trans r (booted L nlog r)
    /\ forall n, n = 1 \/ home_block L nlog (Z.of_nat (length d)) n -> content (dbio r) n = blk d n.
Proof.
  intros Hd He. destruct (recover_in_trans L nlog d Hd) as (r & E & Hsz & Hr).
  destruct (recover_disk L nlog d Hd) as (r' & E' & _ & _ & _ & Hk & Hrec).
  assert (r' = r) as -> by congruence. exists r. split; [exact E|]. clear E E'. split; [done|]. split; [done|].
  intros n Hn. assert (0 <= n < disksize (dbio r)) as Hr'.
  { rewrite Hsz. destruct Hd. destruct Hn as [->|[? _]]; lia. }
  change (content (dbio r) n) with (cont (booted L nlog r) n).
  rewrite <- (in_trans_clean r _ n Hr Hr' ltac:(apply not_elem_of_nil)). cbn.
  assert (hdr_list (blk d L) = []) as El by (unfold hdr_list; by rewrite He).
  destruct Hn as [->|Hn].
  - rewrite Hk. unfold installs. rewrite El. cbn. apply blk_write1_ne; destruct Hd; cbn; lia.
  - rewrite Hrec by done. unfold recovered. by rewrite El.
Qed.

(** The view of the small file system inside a transaction. *)
Record mini_view (v : sview) : Prop := {
  mv_ops : ops v = 1;
  mv_hold : hold v = [];
  mv_pend : pend v = [];
  mv_nblk : nblk v = 34;
  mv_cap : cap v = 19%nat;
  mv_wr : forall n, wr v n <-> home_block 2 20 34 n;
  mv_cont : forall n, n = 1 \/ home_block 2 20 34 n -> cont v n = blk mini_disk n;
}.

Lemma mini_boot : exists r v, in_trans r v /\ mini_view v.
Proof.
  destruct mini_crash as [Hd He]. destruct (recover_fresh 2 20 mini_disk Hd He) as (r & _ & Hsz & Hr & Hc).
  rewrite length_mini in Hsz, Hc. pose proof (Hr : stands r (booted 2 20 r)) as Hr'.
  destruct (law_begin_op r _ Hr') as (r1 & _ & H1); [done|].
  exists r1. eexists. split; [exact H1|]. split; cbn; rewrite ?Hsz; auto.
Qed.

Lemma mini_block n : 22 <= n < 34 \/ n = 1 -> n = 1 \/ home_block 2 20 34 n.
Proof. unfold home_block. lia. Qed.

Section Mini.
Context (v : sview) (Hv : mini_view v).

Lemma mini_used n : 0 <= n < 34 -> used mini_sb v n = (n <? 25).
Proof.
  intros Hn. unfold used. cbn [sb_bmapstart mini_sb].
  rewrite (Z.div_small n bpb) by (unfold bpb, BPB; lia).
  rewrite (mv_cont v Hv) by (apply mini_block; lia). rewrite (Z.mod_small n bpb) by (unfold bpb, BPB; lia).
  assert (Forall (fun k => map_bit (blk mini_disk 24) k = (Z.of_nat k <? 25)) (seq 0 34)) as H.
  { apply (bool_decide_unpack _). vm_compute. exact I. }
  rewrite list.Forall_forall in H. change (24 + 0) with 24. rewrite (H (Z.to_nat n)).
  - by rewrite Z2Nat.id by lia.
  - apply elem_of_seq. lia.
Qed.

Lemma mini_nmap : nmap mini_sb = 1.
Proof. reflexivity. Qed.

Lemma mini_fs_ok : fs_ok mini_sb v.
Proof.
  assert (forall n, is_map mini_sb n <-> n = 24) as Hm.
  { intros n. unfold is_map. rewrite mini_nmap. cbn. lia. }
  assert (forall n, is_iblock mini_sb n <-> 22 <= n <= 23) as Hi.
  { intros n. unfold is_iblock. change (sb_inodestart mini_sb) with 22.
    change (sb_ninodes mini_sb / IPB) with 1. lia. }
  split.
  - split; rewrite ?mini_nmap, ?(mv_nblk v Hv).
    + cbn. lia.
    + done.
    + cbn. lia.
    + intros n ->%(proj1 (Hm n)). apply (mv_wr v Hv). unfold home_block. lia.
    + vm_compute. split; reflexivity.
    + cbn. lia.
    + intros n Hn%(proj1 (Hi n)). rewrite Hm. split; [|lia]. apply (mv_wr v Hv). unfold home_block. lia.
  - intros n Hn Hu. cbn in Hn. rewrite mini_used in Hu by done. zbool. unfold is_data.
    rewrite Hm, Hi, (mv_wr v Hv). unfold home_block. cbn. lia.
  - rewrite (mv_cont v Hv) by auto. vm_compute. reflexivity.
Qed.

Lemma mini_room k : (k <= 17)%nat -> room mini_sb k v.
Proof.
  intros Hk. unfold room, pcount. rewrite (mv_pend v Hv), (mv_cap v Hv), mini_nmap. cbn. unfold NBUF. lia.
Qed.

Lemma mini_free k : (k <= 9)%nat -> has_free mini_sb v k.
Proof.
  intros Hk. apply (has_free_le mini_sb v 9); [done|]. exists [25; 26; 27; 28; 29; 30; 31; 32; 33].
  split_and!; [|done|].
  - apply (bool_decide_unpack _). vm_compute. exact I.
  - intros n Hn. assert (25 <= n < 34) as Hr.
    { repeat (apply elem_of_cons in Hn as [->|Hn]; [lia|]). by apply not_elem_of_nil in Hn. }
    cbn. split; [lia|]. rewrite mini_used by lia. lia.
Qed.
End Mini.

(** ** Files of the small file system *)
#[local] Instance no_devices : Devsw dsys :=
  {| devsw_read := fun _ => None; devsw_write := fun _ => None |}.

Definition mini_fs (r : dsys) (size : Z) : fsys dsys :=
  mk_fsys r mini_sb [mini_inode size; stale_inode].

Lemma node_empty C q : valid_loc q -> node C (replicate 13 0) q = 0.
Proof.
  intros (H1 & _ & _). unfold node. rewrite (list_lookup_total_correct _ _ 0).
  - apply no_child.
  - by apply lookup_replicate_2.
Qed.

Lemma mini_file r v size :
  in_trans r v -> mini_view v -> file_at mini_sb (mini_fs r size) v 0 (mini_inode size).
Proof.
  intros Hr Hv. split; auto using mini_fs_ok, mv_hold. split; [done|..].
  - intros q Hq []. by apply node_empty.
  - intros q q' Hq _ []. by apply node_empty.
Qed.

Lemma mini_fs_at r v size : in_trans r v -> mini_view v -> fs_at mini_sb (mini_fs r size) v.
Proof. intros Hr Hv. split; auto using mini_fs_ok, mv_hold. Qed.

Lemma writei_then_readi_witness :
  exists (s s' s'' : fsys dsys), writei 0 [1; 2; 3] 70000 3 s = Ok 3 s'
    /\ readi 0 70000 3 s' = Ok (3, [1; 2; 3]) s''.
Proof.
  destruct mini_boot as (r & v & Hr & Hv).
  assert (room mini_sb (4 * spans 70000 3 + 1) v) as Hroom by (apply mini_room; [done|vm_compute; lia]).
  assert (has_free mini_sb v (4 * spans 70000 3)) as Hfree by (apply mini_free; [done|vm_compute; lia]).
  destruct (writei_then_readi mini_sb (mini_fs r 0) v 0 (mini_inode 0) [1; 2; 3] 70000 3)
    as (s' & v' & x' & s'' & E1 & _ & _ & E2 & _); [by apply mini_file|done|done| |lia|lia| | |done|done|done|].
  - rewrite (mv_ops v Hv). lia.
  - cbn. lia.
  - vm_compute. discriminate.
  - exists (mini_fs r 0), s', s''. split; [exact E1|exact E2].
Defined.

Lemma mini_ops v : mini_view v -> 1 <= ops v.
Proof. intros Hv. rewrite (mv_ops v Hv). lia. Qed.

Lemma mini_marked v : mini_view v -> inodes_marked mini_sb v.
Proof.
  intros Hv m k b Hm Hk Hb Hne. exfalso. apply Hne.
  unfold is_iblock in Hm. change (sb_inodestart mini_sb) with 22 in Hm. change (sb_ninodes mini_sb / IPB) with 1 in Hm.
  rewrite (mv_cont v Hv) in Hb by (apply mini_block; lia).
  assert (Forall (fun m => Forall (fun k => Forall (fun b => b = 0) (d_addrs (get_dinode (blk mini_disk m) k))) (seq 0 8))
            [22; 23]) as H by (apply (bool_decide_unpack _); vm_compute; exact I).
  rewrite list.Forall_forall in H. assert (m ∈ [22; 23]) as Hin by (rewrite !elem_of_cons; lia).
  specialize (H m Hin). rewrite list.Forall_forall in H. specialize (H k).
  rewrite list.Forall_forall in H. apply H; [|done]. apply elem_of_seq. change (Z.to_nat IPB) with 8%nat in Hk. lia.
Qed.

Lemma writei_hole_not_recorded_witness :
  exists (s s' : fsys dsys) x' a, writei 0 [1; 2; 3] 1030 3 s = Ok 3 s'
    /\ inodes s' !! 0%nat = Some x' /\ i_addrs x' !! 2%nat = Some a /\ a <> 0.
Proof.
  destruct mini_boot as (r & v & Hr & Hv).
  destruct (writei_hole_not_recorded mini_sb (mini_fs r 4096) v 0 (mini_inode 4096) [1; 2; 3] 1030 3 1031 (2%nat, []))
    as (s' & v' & x' & a & E & _ & Hx & Ha & Hne & _);
    [by apply mini_file|done|done|by apply mini_ops|lia|done|done|lia|done|done|by apply mini_marked| | |].
  - apply mini_room; [done|vm_compute; lia].
  - apply mini_free; [done|vm_compute; lia].
  - exists (mini_fs r 4096), s', x', a. split; [exact E|]. split; [exact Hx|]. split; [exact Ha|exact Hne].
Defined.

Lemma bmap_injective_and_stable_witness :
  exists (s s1 s2 s3 : fsys dsys) b1 b2, bmap 0 3 s = Ok b1 s1 /\ bmap 0 20000 s1 = Ok b2 s2
    /\ bmap 0 3 s2 = Ok b1 s3 /\ b1 <> b2.
Proof.
  destruct mini_boot as (r & v & Hr & Hv).
  destruct (bmap_injective_and_stable mini_sb (mini_fs r 0) v 0 (mini_inode 0) 3 20000)
    as (b1 & b2 & s1 & s2 & s3 & E1 & E2 & E3 & Hne & _);
    [by apply mini_file|done|done|done|by apply mini_ops| | |].
  - apply mini_room; [done|]. lia.
  - apply mini_free; [done|lia].
  - exists (mini_fs r 0), s1, s2, s3, b1, b2. split; [exact E1|]. split; [exact E2|]. split; [exact E3|exact Hne].
Defined.

Lemma mini_holds v : mini_view v -> holds_ok mini_sb v.
Proof.
  intros Hv. unfold holds_ok. rewrite (mv_hold v Hv). split; [cbn; lia|]. by intros k ?%not_elem_of_nil.
Qed.

Lemma balloc_allocates_witness :
  exists (r : dsys) b t, balloc 1 (mini_fs r 0) = Ok b (with_store (mini_fs r 0) t) /\ 25 <= b.
Proof.
  destruct mini_boot as (r & v & Hr & Hv).
  destruct (balloc_allocates (mini_fs r 0) mini_sb v 30) as (b & t & v' & E & _ & _ & (Hb & Hu & _) & _);
    [exact Hr|done|by apply mini_fs_ok|by apply mini_holds|apply mini_room; [done|lia]
    |by apply mini_ops|cbn; lia|by rewrite mini_used by (done || lia)|].
  exists r, b, t. split; [exact E|]. rewrite mini_used in Hu by done. lia.
Defined.

Lemma bfree_undoes_balloc_witness :
  exists (r t2 : dsys) b s1, balloc 1 (mini_fs r 0) = Ok b s1
    /\ bfree 1 b s1 = Ok tt (with_store (mini_fs r 0) t2).
Proof.
  destruct mini_boot as (r & v & Hr & Hv).
  destruct (bfree_undoes_balloc (mini_fs r 0) mini_sb v 30) as (b & s1 & t2 & v2 & E1 & E2 & _);
    [exact Hr|done|by apply mini_fs_ok|by apply mv_hold|apply mini_room; [done|lia]
    |by apply mini_ops|cbn; lia|by rewrite mini_used by (done || lia)|].
  exists r, t2, b, s1. split; [exact E1|exact E2].
Defined.

Lemma iupdate_then_ilock_witness :
  exists (r : dsys) s1 s2 y, iupdate 0 (mini_fs r 77) = Ok tt s1 /\ ilock 1 s1 = Ok tt s2
    /\ inodes s2 !! 1%nat = Some y /\ i_size y = 77.
Proof.
  destruct mini_boot as (r & v & Hr & Hv).
  destruct (iupdate_then_ilock mini_sb (mini_fs r 77) v 0 (mini_inode 77) 1 stale_inode)
    as (s1 & s2 & E1 & E2 & Hy);
    [by apply mini_fs_at|done| | |done|by apply mini_ops|apply mini_room; [done|lia]
    |done|done|done|cbn; lia|done|done|].
  - split; [reflexivity|cbn; lia].
  - split; try (cbn; unfold T_FILE; lia). repeat (constructor; [lia|]). constructor.
  - eexists r, s1, s2, _. split; [exact E1|]. split; [exact E2|]. split; [exact Hy|reflexivity].
Defined.

(** ** A directory without entries *)
Definition mini_dir : inode := mk_inode 1 1 1 1 1 T_DIR 0 0 1 0 (replicate 13 0).
Definition free_inode : inode := mk_inode 0 0 0 0 0 0 0 0 0 0 [].
Definition mini_dirs (r : dsys) : fsys dsys := mk_fsys r mini_sb [mini_dir; free_inode].

Lemma mini_dir_at r v : in_trans r v -> mini_view v -> dir_at mini_sb (mini_dirs r) v 0 mini_dir [].
Proof.
  intros Hr Hv. split; [|done|cbn; done|done|intros off Hoff; cbn in Hoff; lia]. split; auto using mini_fs_ok, mv_hold. split; [done|..].
  - intros q Hq []. by apply node_empty.
  - intros q q' Hq _ []. by apply node_empty.
Qed.

(** The name [a] for inode 2. *)
Lemma dirlink_is_insertion_witness :
  exists (s s' s'' : fsys dsys) ip off, dirlink 0 [97] 2 s = Ok 0 s' /\ dirlookup 0 [97] s' = Ok (Some (ip, off)) s''.
Proof.
  destruct mini_boot as (r & v & Hr & Hv).
  destruct (dirlink_is_insertion mini_sb (mini_dirs r) v 0 mini_dir [] [97] 2) as (s' & v' & x' & E' & E1 & _ & _ & Hput & Hget & _);
    [by apply mini_dir_at|done| |by apply mini_ops|vm_compute; discriminate|apply mini_room; [done|lia]|apply mini_free; [done|lia]
    |lia|done| |].
  - split; [reflexivity|cbn; lia].
  - exists 1%nat, free_inode. split; [discriminate|]. split; reflexivity.
  - specialize (Hget [97]). rewrite Hput, decide_True in Hget by reflexivity.
    destruct Hget as (ip & off & y & s'' & E2 & _). exists (mini_dirs r), s', s'', ip, off. split; [exact E1|exact E2].
Defined.

(** The entry [.] of the directory itself. *)
Lemma dirlink_dot_blocks_witness : exists (s : fsys dsys) x, inodes s !! 0%nat = Some x /\ dirlink 0 [46] 2 s = Blocked.
Proof.
  destruct mini_boot as (r & v & Hr & Hv).
  destruct (dirlink_ok mini_sb (mini_dirs r) v 0 mini_dir [] [46] 1) as (s' & v' & x' & E1 & W & HD & _);
    [by apply mini_dir_at|done| |by apply mini_ops|vm_compute; discriminate|apply mini_room; [done|lia]|apply mini_free; [done|lia]|done|].
  { split; [reflexivity|cbn; lia]. }
  assert (room mini_sb 0 v') as Hr0.
  { apply (room_count mini_sb v v' 5); [apply W| |apply mini_room; [done|lia]]. pose proof (wf_count _ _ _ _ _ _ _ _ _ _ _ W) as Hp.
    rewrite dirent_spans in Hp. lia. }
  exists s', x'. split; [apply HD|].
  apply (dirlink_dot_blocks mini_sb s' v' 0 x' (put_entry (free_slot []) (dirent_bytes 1 [46]) []) [46] 2);
    [exact HD|exact Hr0|by rewrite (wf_meta _ _ _ _ _ _ _ _ _ _ _ W)|by rewrite (wf_meta _ _ _ _ _ _ _ _ _ _ _ W)
    |by rewrite (wf_meta _ _ _ _ _ _ _ _ _ _ _ W)|].
  intros j z Hz Hc. rewrite (wf_inodes _ _ _ _ _ _ _ _ _ _ _ W) in Hz. destruct j as [|[|j]]; [done| |done].
  injection Hz as <-. destruct Hc as [Hc _]. cbn in Hc. lia.
Defined.
