(* ===== verification/Sleep.v ===== *)
(** * Sleeping and waking up

    Models [sleep], [wakeup1], [wakeup] and [kill] of proc.c.  A sleeping process
    gives up the CPU in [sched]; the theorem about [sleep] describes the state in
    which it does and what happens when it is resumed. *)

From S2P Require Import Prelude Double Spinlock ProcState Sched SchedClock.
Open Scope Z_scope.

Section Sleep.
Context {W : Type}.
#[local] Abbreviation K := (kernel W).

Definition sleep (ch : channel) (lk : option lockid) : M K unit :=
  p ← kmyproc;
  match p, lk with
  | None, _ => panic "sleep"
  | _, None => panic "sleep without lk"
  | Some p, Some lk =>
      (if bool_decide (lk = lk_ptable) then mret tt
       else kacquire lk_ptable;; krelease lk);;
      (* Go to sleep. *)
      setp p (fun p => { p with chan := ch });;
      setp p (fun p => { p with state := SLEEPING });;
      sched;;
      (* Tidy up. *)
      setp p (fun p => { p with chan := ch_null });;
      (* Reacquire original lock. *)
      (if bool_decide (lk = lk_ptable) then mret tt
       else krelease lk_ptable;; kacquire lk)
  end.

(** The ptable lock must be held. *)
Definition wakeup1 (ch : channel) : M K unit :=
  for_each slots (fun i =>
    p ← getp i;
    when (bool_decide (state p = SLEEPING) && bool_decide (chan p = ch))
      (setp i (fun p => { p with state := RUNNABLE }))).

Definition wakeup (ch : channel) : M K unit :=
  kacquire lk_ptable;;
  wakeup1 ch;;
  krelease lk_ptable.

(** Every slot with the pid is marked; the result is 0 even when there is none
    (the code that returns -1 is not reachable). *)
Definition kill (pd : Z) : M K Z :=
  kacquire lk_ptable;;
  for_each slots (fun i =>
    p ← getp i;
    when (pid p =? pd)
      (setp i (fun p => { p with killed := 1 });;
       p ← getp i;
       (* Wake process from sleep if necessary. *)
       when (bool_decide (state p = SLEEPING)) (setp i (fun p => { p with state := RUNNABLE }))));;
  krelease lk_ptable;;
  mret 0.

(** ** Loops that update every slot of the process table *)
Lemma each_slot (body : nat -> M K unit) (f : proc -> proc) k :
  length (ptable k) = NPROC ->
  (forall i p (k : K), ptable k !! i = Some p ->
     body i k = Ok tt { k with ptable := <[i := f p]> (ptable k) }) ->
  for_each slots body k = Ok tt { k with ptable := f <$> ptable k }.
Proof.
  intros Hlen Hb. unfold slots. rewrite <- Hlen.
  assert (forall done rest k, ptable k = (f <$> done) ++ rest ->
    for_each (seq (length done) (length rest)) body k
    = Ok tt { k with ptable := f <$> (done ++ rest) }) as Hloop.
  { clear k Hlen. intros done rest. revert done. induction rest as [|p rest IH]; intros done k Hk; cbn [length seq for_each].
    - rewrite app_nil_r in *. rewrite <- Hk. by destruct k.
    - rewrite (bind_ok _ _ _ _ _ (Hb (length done) p k ltac:(by rewrite Hk, lookup_app_r, length_fmap, Nat.sub_diag by (by rewrite length_fmap)))).
      replace (S (length done)) with (length (done ++ [p])) by (rewrite length_app; cbn; lia).
      rewrite IH.
      + by rewrite <- (assoc_L (++)).
      + cbn. rewrite Hk, insert_app_r_alt, length_fmap, Nat.sub_diag by (by rewrite length_fmap).
        rewrite fmap_app, <- (assoc_L (++)). done. }
  specialize (Hloop [] (ptable k) k eq_refl). cbn in Hloop. exact Hloop.
Qed.

(** ** What they do *)
Definition wake (ch : channel) (p : proc) : proc :=
  if bool_decide (state p = SLEEPING) && bool_decide (chan p = ch) then { p with state := RUNNABLE } else p.

Lemma store_same (k : K) i p : ptable k !! i = Some p -> k = { k with ptable := <[i := p]> (ptable k) }.
Proof. intros Hp. rewrite list_insert_id by done. by destruct k. Qed.

Lemma wakeup1_ok ch (k : K) :
  length (ptable k) = NPROC -> wakeup1 ch k = Ok tt { k with ptable := wake ch <$> ptable k }.
Proof.
  intros Hlen. unfold wakeup1. apply each_slot; [done|]. intros i p k' Hp. mstep Hp. unfold wake, when.
  destruct (bool_decide (state p = SLEEPING) && bool_decide (chan p = ch)).
  - by apply setp_ok.
  - by rewrite <- (store_same k' i p Hp).
Qed.

Definition kill_mark (pd : Z) (p : proc) : proc :=
  if pid p =? pd
  then { p with killed := 1; state := if bool_decide (state p = SLEEPING) then RUNNABLE else state p }
  else p.

Lemma kill_slot pd i p (k : K) :
  ptable k !! i = Some p ->
  (p ← getp i;
   when (pid p =? pd)
     (setp i (fun p => { p with killed := 1 });;
      p ← getp i;
      when (bool_decide (state p = SLEEPING)) (setp i (fun p => { p with state := RUNNABLE })))) k
  = Ok tt { k with ptable := <[i := kill_mark pd p]> (ptable k) }.
Proof.
  intros Hp. mstep Hp. unfold kill_mark, when. destruct (pid p =? pd); [|by rewrite <- (store_same k i p Hp)].
  mstep Hp. erewrite bind_ok by (apply getp_ok; plookup). change (state { p with killed := 1 }) with (state p).
  destruct (bool_decide (state p = SLEEPING)).
  - rewrite (setp_ok _ _ _ _ (lookup_stored _ _ _ _ Hp)). rewrite (store_twice _ i). done.
  - destruct p. done.
Qed.

Lemma wakeup_ok ch (k : K) c p hs :
  on (mach k) c p hs -> lk_ptable ∉ hs -> (length hs < 100)%nat -> length (ptable k) = NPROC ->
  exists m', wakeup ch k = Ok tt { k with ptable := wake ch <$> ptable k; mach := m' } /\ on m' c p hs.
Proof.
  intros Hon Hnin Hl Hlen. unfold wakeup.
  destruct (kacquire_ok k c _ _ lk_ptable Hon Hnin Hl) as (m1 & H1 & Hon1). mstep H1.
  erewrite bind_ok by (apply wakeup1_ok; exact Hlen).
  match goal with |- context [krelease _ ?st] =>
    destruct (krelease_ok st c p [] hs lk_ptable Hon1) as (m2 & H2 & Hon2) end.
  exists m2. split; [|done]. rewrite H2. done.
Qed.

(** [wakeup] makes every process that sleeps on the channel RUNNABLE, and
    changes nothing else; the locks are as before. *)
Theorem wakeup_wakes ch (k : K) c p hs :
  on (mach k) c p hs -> lk_ptable ∉ hs -> (length hs < 100)%nat -> length (ptable k) = NPROC ->
  exists m', wakeup ch k = Ok tt { k with ptable := wake ch <$> ptable k; mach := m' } /\ on m' c p hs.
Proof. apply wakeup_ok. Qed.

(** [kill] marks every process and thread with the pid as killed, makes those
    of them that sleep RUNNABLE, and changes no other process.  It returns 0
    also when no process has the pid. *)
Theorem kill_marks pd (k : K) c p :
  on (mach k) c p [] -> length (ptable k) = NPROC ->
  exists m', kill pd k = Ok 0 { k with ptable := kill_mark pd <$> ptable k; mach := m' } /\ on m' c p [].
Proof.
  intros Hon Hlen. unfold kill.
  destruct (kacquire_ok k c _ _ lk_ptable Hon ltac:(set_solver) ltac:(cbn; lia)) as (m1 & H1 & Hon1). mstep H1.
  erewrite bind_ok by (apply (each_slot _ (kill_mark pd)); [exact Hlen|intros; by apply kill_slot]).
  match goal with |- context [krelease _ ≫= _] => idtac end.
  mstate ltac:(fun st => destruct (krelease_ok st c p [] [] lk_ptable Hon1) as (m2 & H2 & Hon2)).
  exists m2. split; [|done]. mstep H2. done.
Qed.

(** No wakeup is lost.  A process that calls [sleep] holding [lk] gives up the
    CPU in a state in which it is already marked as SLEEPING on the channel,
    still owns the process table and has released [lk]: a process that acquires
    [lk] from then on and calls [wakeup], which needs the process table, finds
    it asleep.  When the process is resumed, [sleep] clears the channel and
    returns with [lk] held and the process table free. *)
Theorem sleep_gives_up ch lk (k : K) c i pr :
  on (mach k) c (Some i) [lk] -> lk <> lk_ptable -> ptable k !! i = Some pr ->
  exists m' kont,
    sleep ch (Some lk) k
    = Swtch { k with ptable := <[i := { pr with chan := ch; state := SLEEPING }]> (ptable k); mach := m' } kont
    /\ on m' c (Some i) [lk_ptable]
    /\ forall s' pr', on (mach s') c (Some i) [lk_ptable] -> ptable s' !! i = Some pr' ->
         exists m'', kont s' = Ok tt { s' with ptable := <[i := { pr' with chan := ch_null }]> (ptable s'); mach := m'' }
           /\ on m'' c (Some i) [lk].
Proof.
  intros Hon Hne Hp. unfold sleep.
  destruct (kmyproc_ok k c _ _ Hon) as (m1 & H1 & Hon1). mstep H1. rewrite bool_decide_eq_false_2 by done.
  mstate ltac:(fun st => destruct (kacquire_ok st c _ _ lk_ptable Hon1 ltac:(set_solver) ltac:(cbn; lia)) as (m2 & H2 & Hon2)).
  match type of H2 with _ = Ok _ ?st =>
    destruct (krelease_ok st c (Some i) [lk_ptable] [] lk Hon2) as (m3 & H3 & Hon3) end.
  erewrite bind_ok by (erewrite bind_ok by exact H2; exact H3).
  mstep Hp. erewrite bind_ok by (apply setp_ok; plookup). rewrite (store_twice _ i).
  mstate ltac:(fun st => destruct (sched_ok st c i { pr with chan := ch; state := SLEEPING } Hon3) as (m4 & kont & H4 & Hon4 & Hk));
    [plookup|done|].
  eexists m4, _. split; [by apply bind_swtch|]. split; [done|].
  intros s' pr' Hs' Hp'. destruct (Hk s' Hs') as (m5 & H5 & Hon5). rewrite H5. cbn [bind_result].
  mstep Hp'.
  mstate ltac:(fun st => destruct (krelease_ok st c (Some i) [] [] lk_ptable Hon5) as (m6 & H6 & Hon6)).
  erewrite bind_ok by exact H6.
  match goal with |- context [kacquire _ ?st] =>
    destruct (kacquire_ok st c _ _ lk Hon6 ltac:(set_solver) ltac:(cbn; lia)) as (m7 & H7 & Hon7) end.
  exists m7. split; [|done]. rewrite H7. done.
Qed.
End Sleep.
