(* ===== verification/ConsoleDev.v ===== *)
(** * The console's devices

    Models the output half of console.c ([cgaputc], [consputc]), uart.c and the
    keyboard driver kbd.c with the tables of kbd.h.  The hardware is part of the
    state: the memory of the display adapter as 16-bit words, the two cursor
    registers of its controller, the bytes sent over and received from the
    serial line, and the scan codes the keyboard has delivered.  Waiting for the
    serial line to be ready ([microdelay]) has no effect on the state.

    The theorem describes the display by the text in front of the cursor. *)

From S2P Require Import Prelude CString.
From Stdlib Require Import Ascii.
Open Scope Z_scope.

Definition INPUT_BUF : Z := 128.

Record console := mk_console {
  crt : Z -> Z;             (* CGA memory *)
  crt14 : Z;                (* cursor position, high byte *)
  crt15 : Z;                (* cursor position, low byte *)
  panicked : Z;
  locking : Z;              (* cons.locking *)
  uart : Z;                 (* is there a uart? *)
  serial_out : list Z;      (* bytes sent over the serial line *)
  serial_in : list Z;       (* bytes received and not read *)
  scancodes : list Z;       (* data in the keyboard controller *)
  shift : Z;                (* the static variable of kbdgetc *)
  ibuf : list Z;            (* input.buf *)
  ir : Z;                   (* input.r: Read index *)
  iw : Z;                   (* input.w: Write index *)
  ie : Z;                   (* input.e: Edit index *)
}.

(** ** The display *)
Definition BACKSPACE : Z := 256.
Definition NEWLINE : Z := 10.
Definition ATTR : Z := 1792.    (* 0x0700, black on white *)

(** [crt[i] = w] *)
Definition setw (i w : Z) (m : Z -> Z) : Z -> Z := fun j => if j =? i then w else m j.
(** [memmove] and [memset], counted in words *)
Definition movew (dst src n : Z) (m : Z -> Z) : Z -> Z :=
  fun j => if (dst <=? j) && (j <? dst + n) then m (j - dst + src) else m j.
Definition fillw (dst w n : Z) (m : Z -> Z) : Z -> Z :=
  fun j => if (dst <=? j) && (j <? dst + n) then w else m j.

Definition cgaputc (c : Z) : M console unit :=
  s ← get;
  (* Cursor position: col + 80*row. *)
  let pos := Z.lor (Z.shiftl (crt14 s) 8) (crt15 s) in
  let '(pos, m) :=
    if c =? NEWLINE then (pos + (80 - pos mod 80), crt s)
    else if c =? BACKSPACE then (if 0 <? pos then pos - 1 else pos, crt s)
    else (pos + 1, setw pos (Z.lor (Z.land c 255) ATTR) (crt s)) in
  if (pos <? 0) || (25 * 80 <? pos) then panic "pos under/overflow"
  else
    let '(pos, m) :=
      if 24 <=? pos / 80 then (* Scroll up. *)
        (pos - 80, fillw (pos - 80) 0 (24 * 80 - (pos - 80)) (movew 0 80 (23 * 80) m))
      else (pos, m) in
    modify (fun s => { s with crt14 := u8 (Z.shiftr pos 8); crt15 := u8 pos;
                              crt := setw pos (Z.lor 32 ATTR) m }).

(** ** The serial line *)
Definition uartputc (c : Z) : M console unit :=
  s ← get;
  when (ctrue (uart s)) (modify (fun s => { s with serial_out := serial_out s ++ [u8 c] })).

Definition uartgetc : M console Z :=
  s ← get;
  if uart s =? 0 then mret (-1)
  else
    match serial_in s with
    | [] => mret (-1)
    | c :: rest => modify (fun s => { s with serial_in := rest });; mret (u8 c)
    end.


(** [status] is the line status register; [inb(COM1+0)] drops a byte that was
    received before. *)
Definition uartinit (status : Z) : M console unit :=
  if status =? 255 then mret tt
  else
    modify (fun s => { s with uart := 1 });;
    modify (fun s => { s with serial_in := tail (serial_in s) });;
    for_each (chars "xv6..." ++ [NEWLINE]) uartputc.

(** A CPU that prints after another one has panicked stops. *)
Definition consputc (c : Z) : M console unit :=
  s ← get;
  if ctrue (panicked s) then blocked
  else
    (if c =? BACKSPACE then uartputc 8;; uartputc 32;; uartputc 8
     else uartputc c);;
    cgaputc c.

(** ** The keyboard *)
Definition SHIFT : Z := 1.
Definition CTL : Z := 2.
Definition ALT : Z := 4.
Definition CAPSLOCK : Z := 8.
Definition NUMLOCK : Z := 16.
Definition SCROLLLOCK : Z := 32.
Definition E0ESC : Z := 64.

Definition NO : Z := 0.
Definition KEY_HOME : Z := 224.
Definition KEY_END : Z := 225.
Definition KEY_UP : Z := 226.
Definition KEY_DN : Z := 227.
Definition KEY_LF : Z := 228.
Definition KEY_RT : Z := 229.
Definition KEY_PGUP : Z := 230.
Definition KEY_PGDN : Z := 231.
Definition KEY_INS : Z := 232.
Definition KEY_DEL : Z := 233.

(** [C('A') == Control-A] *)
Definition C (x : Z) : Z := x - 64.

(** Tables of 256 entries with a few that are not 0. *)
Definition table (first : list Z) (rest : list (Z * Z)) : list Z :=
  foldl (fun t '(i, c) => <[Z.to_nat i := c]> t) (first ++ replicate (256 - length first) NO) rest.

Definition shiftcode : list Z :=
  table [] [(29, CTL); (42, SHIFT); (54, SHIFT); (56, ALT); (157, CTL); (184, ALT)].
Definition togglecode : list Z :=
  table [] [(58, CAPSLOCK); (69, NUMLOCK); (70, SCROLLLOCK)].

(** The keys behind an E0 escape, the same in all maps but for the first two. *)
Definition escaped (enter div : Z) : list (Z * Z) :=
  [(156, enter); (181, div); (200, KEY_UP); (208, KEY_DN); (201, KEY_PGUP); (209, KEY_PGDN);
   (203, KEY_LF); (205, KEY_RT); (151, KEY_HOME); (207, KEY_END); (210, KEY_INS); (211, KEY_DEL)].

Definition keypad : list Z :=
  [NO; 32] ++ replicate 13 NO ++ chars "789-456+1230.".

Definition normalmap : list Z :=
  table ([NO; 27] ++ chars "1234567890-=" ++ [8; 9] ++ chars "qwertyuiop[]" ++ [NEWLINE; NO]
         ++ chars "asdfghjkl;'`" ++ [NO] ++ chars "\zxcvbnm,./" ++ [NO; 42] ++ keypad)
        (escaped NEWLINE 47).

Definition shiftmap : list Z :=
  table ([NO; 27] ++ chars "!@#$%^&*()_+" ++ [8; 9] ++ chars "QWERTYUIOP{}" ++ [NEWLINE; NO]
         ++ chars "ASDFGHJKL:" ++ [34; 126; NO] ++ chars "|ZXCVBNM<>?" ++ [NO; 42] ++ keypad)
        (escaped NEWLINE 47).

Definition ctlmap : list Z :=
  table (replicate 16 NO ++ (C <$> chars "QWERTYUIOP") ++ [NO; NO; 13; NO]
         ++ (C <$> chars "ASDFGHJKL") ++ [NO; NO; NO; NO] ++ (C <$> chars "\ZXCVBNM")
         ++ [NO; NO; u8 (C 47); NO; NO])
        (escaped 13 (u8 (C 47))).

Definition charcode (i : Z) : list Z :=
  if i =? 0 then normalmap else if i =? 1 then shiftmap else ctlmap.

(** The character of a key that is pressed, with the modifiers as they are
    after it. *)
Definition key_char (sh data : Z) : Z :=
  let c := charcode (Z.land sh (Z.lor CTL SHIFT)) !!! Z.to_nat data in
  if ctrue (Z.land sh CAPSLOCK) then
    if (97 <=? c) && (c <=? 122) then c + (65 - 97)
    else if (65 <=? c) && (c <=? 90) then c + (97 - 65)
    else c
  else c.

(** What a scan code does: the character and the new [shift]. *)
Definition kbd_code (sh data : Z) : Z * Z :=
  if data =? 224 then (0, Z.lor sh E0ESC)
  else if ctrue (Z.land data 128) then
    (* Key released *)
    let data := if ctrue (Z.land sh E0ESC) then data else Z.land data 127 in
    (0, Z.land sh (Z.lnot (Z.lor (shiftcode !!! Z.to_nat data) E0ESC)))
  else
    (* Last character was an E0 escape; or with 0x80 *)
    let '(data, sh) :=
      if ctrue (Z.land sh E0ESC) then (Z.lor data 128, Z.land sh (Z.lnot E0ESC)) else (data, sh) in
    let sh := Z.lxor (Z.lor sh (shiftcode !!! Z.to_nat data)) (togglecode !!! Z.to_nat data) in
    (key_char sh data, sh).

Definition kbdgetc : M console Z :=
  s ← get;
  match scancodes s with
  | [] => mret (-1)
  | data :: rest =>
      modify (fun s => { s with scancodes := rest });;
      let '(c, sh) := kbd_code (shift s) (u8 data) in
      modify (fun s => { s with shift := sh });;
      mret c
  end.

(** ** What the display shows *)
Definition cursor (s : console) : Z := Z.lor (Z.shiftl (crt14 s) 8) (crt15 s).
Definition cells (m : Z -> Z) (a n : Z) : list Z := m <$> seqZ a n.

(** The text in front of the cursor, in cells of the display. *)
Definition shown (s : console) : list Z := cells (crt s) 0 (cursor s).

(** The cursor is in the first 24 rows. *)
Record display_ok (s : console) : Prop := {
  dk_high : 0 <= crt14 s < 256;
  dk_low : 0 <= crt15 s < 256;
  dk_cursor : cursor s < 24 * 80;
}.

(** The text after the character [c], before scrolling: a newline takes in the
    rest of the row as it is. *)
Definition typed (c : Z) (s : console) : list Z :=
  if c =? NEWLINE then shown s ++ cells (crt s) (cursor s) (80 - cursor s mod 80)
  else if c =? BACKSPACE then removelast (shown s)
  else shown s ++ [Z.lor (Z.land c 255) ATTR].

Definition scrolled (text : list Z) : list Z :=
  if (24 * 80 <=? length text)%nat then drop 80 text else text.

(** A 16-bit number from its bytes. *)
Lemma bytes_lor hi lo : 0 <= hi -> 0 <= lo < 256 -> Z.lor (Z.shiftl hi 8) lo = 256 * hi + lo.
Proof.
  intros H1 H2. rewrite <- Z.add_nocarry_lor; [rewrite Z.shiftl_mul_pow2; lia|].
  apply Z.bits_inj'. intros n Hn. rewrite Z.land_spec, Z.bits_0. destruct (Z.ltb_spec n 8).
  - by rewrite Z.shiftl_spec_low.
  - rewrite (Z.bits_above_log2 lo); [by rewrite andb_false_r|lia|].
    destruct (Z.eq_dec lo 0) as [->|]; [cbn; lia|]. apply Z.log2_lt_pow2; [lia|].
    apply Z.lt_le_trans with (2 ^ 8); [lia|]. apply Z.pow_le_mono_r; lia.
Qed.

Lemma cursor_nonneg s : display_ok s -> 0 <= cursor s.
Proof. intros [? ? _]. unfold cursor. rewrite bytes_lor; lia. Qed.

(** Storing the cursor and reading it back. *)
Lemma cursor_stored s pos m :
  0 <= pos < 24 * 80 ->
  let s' := { s with crt14 := u8 (Z.shiftr pos 8); crt15 := u8 pos; crt := m } in
  display_ok s' /\ cursor s' = pos.
Proof.
  intros H s'.
  assert (0 <= crt14 s' < 256 /\ 0 <= crt15 s' < 256) as [H1 H2]
    by (unfold s', u8; cbn; split; apply Z.mod_pos_bound; lia).
  assert (cursor s' = pos) as Ec.
  { unfold cursor. rewrite bytes_lor by lia. unfold s', u8. cbn. rewrite Z.shiftr_div_pow2 by lia.
    change (2 ^ 8) with 256. pose proof (Z.div_mod pos 256). pose proof (Z.mod_pos_bound pos 256).
    rewrite (Z.mod_small (pos / 256)); lia. }
  split; [|done]. split; [done..|lia].
Qed.

(** *** Cells *)
Lemma cells_ext m m' a n : (forall i, a <= i < a + n -> m i = m' i) -> cells m a n = cells m' a n.
Proof. intros H. apply list_fmap_ext. intros i x Hx. apply lookup_seqZ in Hx. apply H. lia. Qed.

Lemma cells_app m a n n' : 0 <= n -> 0 <= n' -> cells m a (n + n') = cells m a n ++ cells m (a + n) n'.
Proof. intros H H'. unfold cells. by rewrite seqZ_app, fmap_app by lia. Qed.

Lemma length_cells m a n : length (cells m a n) = Z.to_nat n.
Proof. unfold cells. by rewrite length_fmap, length_seqZ. Qed.

Lemma cells_one m a : cells m a 1 = [m a].
Proof. reflexivity. Qed.

Lemma cells_removelast m a n : 0 < n -> removelast (cells m a n) = cells m a (n - 1).
Proof.
  intros H. replace n with (n - 1 + 1) at 1 by lia. by rewrite cells_app, cells_one, removelast_last by lia.
Qed.

(** *** [cgaputc] on the text in front of the cursor *)
Lemma setw_other i w m j : j <> i -> setw i w m j = m j.
Proof. intros H. unfold setw. by rewrite (proj2 (Z.eqb_neq _ _) H). Qed.

Lemma cells_moved m a n : 0 <= n -> cells (fun i => m (i + a)) 0 n = cells m a n.
Proof.
  intros H. unfold cells. replace (seqZ a n) with (Z.add a <$> seqZ 0 n) by (rewrite fmap_add_seqZ; f_equal; lia). rewrite <- list_fmap_compose.
  apply list_fmap_ext. intros i x _. cbn. f_equal. lia.
Qed.

Lemma cells_scrolled m :
  cells (fillw 1840 0 80 (movew 0 80 1840 m)) 0 1840 = drop 80 (cells m 0 1920).
Proof.
  change 1920 with (80 + 1840). rewrite (cells_app m 0 80 1840), drop_app_length' by (rewrite ?length_cells; lia).
  rewrite <- (cells_moved m (0 + 80) 1840) by lia. apply cells_ext. intros i Hi. unfold fillw, movew.
  rewrite (proj2 (Z.leb_gt 1840 i)), (proj2 (Z.leb_le 0 i)), (proj2 (Z.ltb_lt i (0 + 1840))) by lia.
  cbn. f_equal. lia.
Qed.

(** The last part of [cgaputc]: scroll if need be and store the cursor. *)
Lemma cga_finish s pos m :
  0 <= pos <= 24 * 80 ->
  exists s',
    (if (pos <? 0) || (25 * 80 <? pos) then panic "pos under/overflow"
     else
       let '(pos, m) :=
         if 24 <=? pos / 80
         then (pos - 80, fillw (pos - 80) 0 (24 * 80 - (pos - 80)) (movew 0 80 (23 * 80) m))
         else (pos, m) in
       modify (fun s => { s with crt14 := u8 (Z.shiftr pos 8); crt15 := u8 pos;
                                 crt := setw pos (Z.lor 32 ATTR) m })) s = Ok tt s'
    /\ (exists h l m', s' = { s with crt14 := h; crt15 := l; crt := m' })
    /\ display_ok s' /\ shown s' = scrolled (cells m 0 pos) /\ crt s' (cursor s') = Z.lor 32 ATTR.
Proof.
  intros H. rewrite (proj2 (Z.ltb_ge pos 0)), (proj2 (Z.ltb_ge (25 * 80) pos)) by lia. cbn [orb].
  unfold scrolled. rewrite length_cells. destruct (Z.leb_spec 24 (pos / 80)) as [Hs|Hs].
  - assert (pos = 1920) as -> by (pose proof (Z.div_mod pos 80); pose proof (Z.mod_pos_bound pos 80); lia).
    destruct (cursor_stored s 1840 (setw 1840 (Z.lor 32 ATTR) (fillw 1840 0 80 (movew 0 80 1840 m)))) as [Hd Hc]; [lia|].
    match type of Hd with display_ok ?s' => exists s' end. split; [reflexivity|]. split; [by eexists _, _, _|]. split; [exact Hd|]. split.
    + unfold shown. rewrite Hc. cbn [crt]. rewrite <- (cells_scrolled m). apply cells_ext. intros i Hi.
      apply setw_other. lia.
    + by rewrite Hc.
  - assert (pos < 1920) by (pose proof (Z.div_le_lower_bound pos 80 24); lia).
    destruct (cursor_stored s pos (setw pos (Z.lor 32 ATTR) m)) as [Hd Hc]; [lia|].
    eexists. split; [reflexivity|]. split; [by eexists _, _, _|]. split; [exact Hd|]. split.
    + unfold shown. rewrite Hc. cbn [crt]. rewrite (proj2 (Nat.leb_gt _ _)) by lia.
      apply cells_ext. intros i Hi. apply setw_other. lia.
    + rewrite Hc. cbn. unfold setw. by rewrite Z.eqb_refl.
Qed.

Lemma cgaputc_ok c s :
  display_ok s ->
  exists s', cgaputc c s = Ok tt s'
    /\ (exists h l m', s' = { s with crt14 := h; crt15 := l; crt := m' })
    /\ display_ok s' /\ shown s' = scrolled (typed c s) /\ crt s' (cursor s') = Z.lor 32 ATTR.
Proof.
  intros Hd. pose proof (cursor_nonneg s Hd) as H0. pose proof (dk_cursor s Hd) as H1.
  unfold cgaputc. erewrite bind_ok by reflexivity. fold (cursor s). unfold typed, shown.
  destruct (c =? NEWLINE) eqn:En; [|destruct (c =? BACKSPACE) eqn:Eb].
  - pose proof (Z.mod_pos_bound (cursor s) 80). pose proof (Z.div_mod (cursor s) 80).
    assert (cursor s + (80 - cursor s mod 80) <= 24 * 80) by (assert (cursor s / 80 < 24) by (apply Z.div_lt_upper_bound; lia); lia).
    rewrite <- (cells_app (crt s) 0) by lia. apply cga_finish. lia.
  - destruct (Z.ltb_spec 0 (cursor s)) as [Hp|Hp].
    + rewrite cells_removelast by lia. apply cga_finish. lia.
    + assert (cursor s = 0) as -> by lia. apply (cga_finish s 0 (crt s)). lia.
  - replace (cells (crt s) 0 (cursor s) ++ [Z.lor (Z.land c 255) ATTR])
      with (cells (setw (cursor s) (Z.lor (Z.land c 255) ATTR) (crt s)) 0 (cursor s + 1)).
    + apply cga_finish. lia.
    + rewrite cells_app, cells_one by lia. f_equal.
      * apply cells_ext. intros i Hi. apply setw_other. lia.
      * f_equal. unfold setw. by rewrite Z.eqb_refl.
Qed.

(** [consputc] changes nothing but the display and what has been sent. *)
Lemma uartputc_ok c s : exists o, uartputc c s = Ok tt { s with serial_out := o }.
Proof. unfold uartputc. msimpl. destruct (ctrue (uart s)); [by eexists|]. exists (serial_out s). by destruct s. Qed.

Lemma consputc_ok c s :
  display_ok s -> panicked s = 0 ->
  exists s', consputc c s = Ok tt s' /\ display_ok s'
    /\ exists h l m o, s' = { s with crt14 := h; crt15 := l; crt := m; serial_out := o }.
Proof.
  intros Hd Hp. unfold consputc. erewrite bind_ok by reflexivity. rewrite Hp. cbv iota beta delta [ctrue negb Z.eqb].
  assert (exists o, (if c =? BACKSPACE then uartputc 8;; uartputc 32;; uartputc 8 else uartputc c) s
    = Ok tt { s with serial_out := o }) as [o Ho].
  { destruct (c =? BACKSPACE); [|apply uartputc_ok]. destruct (uartputc_ok 8 s) as [o1 H1]. rewrite (bind_ok _ _ _ _ _ H1).
    destruct (uartputc_ok 32 { s with serial_out := o1 }) as [o2 H2]. rewrite (bind_ok _ _ _ _ _ H2).
    destruct (uartputc_ok 8 { s with serial_out := o2 }) as [o3 H3]. by exists o3. }
  rewrite (bind_ok _ _ _ _ _ Ho). destruct (cgaputc_ok c { s with serial_out := o }) as (s' & E & (h & l & m & ->) & Hd' & _).
  { by destruct Hd. }
  rewrite E. eexists. split; [reflexivity|]. split; [done|]. by eexists _, _, _, _.
Qed.

(** [cgaputc] never leaves the display: from any cursor in the first 24 rows
    it does not panic and the cursor is again in the first 24 rows, on a blank.
    The text in front of the cursor becomes the old text with the character
    appended, its last character erased for a backspace, or filled to the end of
    the row for a newline; when the 24 rows are full the first one is scrolled
    off. *)
Theorem cgaputc_shows c s :
  display_ok s ->
  exists s', cgaputc c s = Ok tt s'
    /\ (exists h l m', s' = { s with crt14 := h; crt15 := l; crt := m' })
    /\ display_ok s' /\ shown s' = scrolled (typed c s) /\ crt s' (cursor s') = Z.lor 32 ATTR.
Proof. apply cgaputc_ok. Qed.
