(* ===== verification/Kernel.v ===== *)
(** * The state of the whole kernel

    The scheduler of Sched.v runs over a state [W] it does not look at.  Here it
    is filled in: the memory and page tables (Kalloc.v, Vm.v), the file system
    (Fs.v, over any block store [S]), the table of open files (file.h, file.c),
    the pipes (pipe.c) and the console (ConsoleDev.v).  A pipe is found by the address of the page
    [pipealloc] got from [kalloc]. *)

From stdpp Require Export gmap.
From S2P Require Import Prelude CString Kalloc Double Spinlock ProcState Bio Log BlockStore Fs ConsoleDev.
Open Scope Z_scope.

Definition NFILE : nat := 100.
Definition PIPESIZE : nat := 512.

Record pipe := mk_pipe {
  p_data : list Z;
  nread : Z;                (* number of bytes read *)
  nwrite : Z;               (* number of bytes written *)
  readopen : Z;             (* read fd is still open *)
  writeopen : Z;            (* write fd is still open *)
}.

Inductive ftype := FD_NONE | FD_PIPE | FD_INODE.
#[export] Instance ftype_eq_dec : EqDecision ftype.
Proof. solve_decision. Defined.

Record file := mk_file {
  f_type : ftype;
  f_ref : Z;                (* reference count *)
  readable : Z;
  writable : Z;
  f_pipe : Z;
  f_ip : option nat;
  f_off : Z;
}.

Record World (S : Type) := mk_World {
  wmem : kmem;
  wfs : fsys S;
  ftab : list file;         (* ftable.file *)
  pipes : gmap Z pipe;
  first : Z;                (* the static variable of forkret *)
  wcons : console;
}.
Arguments mk_World {_} _ _ _ _ _ _.
Arguments wmem {_} _.
Arguments wfs {_} _.
Arguments ftab {_} _.
Arguments pipes {_} _.
Arguments first {_} _.
Arguments wcons {_} _.

Section Ops.
Context {S : Type}.
#[local] Abbreviation K := (kernel (World S)).

Definition upd_world (f : World S -> World S) (k : K) : K := { k with world ::= f }.

Definition on_mem {A} (m : M kmem A) : M K A :=
  zoom (fun k => wmem (world k)) (fun t => upd_world (fun w => { w with wmem := t })) m.
Definition on_fs {A} (m : M (fsys S) A) : M K A :=
  zoom (fun k => wfs (world k)) (fun t => upd_world (fun w => { w with wfs := t })) m.

Definition on_cons {A} (m : M console A) : M K A :=
  zoom (fun k => wcons (world k)) (fun t => upd_world (fun w => { w with wcons := t })) m.

(** [*f] for a pointer into [ftable.file], and [f->field = ...] *)
Definition getf (f : nat) : M K file := k ← get; deref (ftab (world k) !! f).
Definition setf (f : nat) (g : file -> file) : M K unit :=
  k ← get;
  _ ← deref (ftab (world k) !! f);
  modify (upd_world (fun w => { w with ftab ::= alter g f })).

(** [*p] for a pipe, and [p->field = ...] *)
Definition getpipe (p : Z) : M K pipe := k ← get; deref (pipes (world k) !! p).
Definition setpipe (p : Z) (g : pipe -> pipe) : M K unit :=
  k ← get;
  _ ← deref (pipes (world k) !! p);
  modify (upd_world (fun w => { w with pipes ::= alter g p })).

(** *** Running these operations *)
Lemma on_mem_ok {A} (m : M kmem A) (k : K) a t :
  m (wmem (world k)) = Ok a t -> on_mem m k = Ok a (upd_world (fun w => { w with wmem := t }) k).
Proof. intros H. unfold on_mem, zoom. by rewrite H. Qed.

Lemma on_fs_ok {A} (m : M (fsys S) A) (k : K) a t :
  m (wfs (world k)) = Ok a t -> on_fs m k = Ok a (upd_world (fun w => { w with wfs := t }) k).
Proof. intros H. unfold on_fs, zoom. by rewrite H. Qed.

Lemma on_cons_ok {A} (m : M console A) (k : K) a t :
  m (wcons (world k)) = Ok a t -> on_cons m k = Ok a (upd_world (fun w => { w with wcons := t }) k).
Proof. intros H. unfold on_cons, zoom. by rewrite H. Qed.

Lemma getpipe_ok p pp (k : K) : pipes (world k) !! p = Some pp -> getpipe p k = Ok pp k.
Proof. intros H. unfold getpipe. msimpl. by rewrite H. Qed.

(** The kernel with the pipe [p] replaced. *)
Definition with_pipe (p : Z) (pp : pipe) (k : K) : K :=
  upd_world (fun w => { w with pipes := <[p := pp]> (pipes w) }) k.

Lemma setpipe_ok p pp g (k : K) :
  pipes (world k) !! p = Some pp -> setpipe p g k = Ok tt (with_pipe p (g pp) k).
Proof.
  intros H. unfold setpipe. msimpl. rewrite H. msimpl. unfold with_pipe, upd_world. cbn.
  do 3 f_equal. apply map_eq. intros q. destruct (decide (q = p)) as [->|Hne].
  - rewrite lookup_alter, lookup_insert, H. by rewrite !decide_True.
  - by rewrite lookup_alter_ne, lookup_insert_ne.
Qed.

Lemma getf_ok f x (k : K) : ftab (world k) !! f = Some x -> getf f k = Ok x k.
Proof. intros H. unfold getf. msimpl. by rewrite H. Qed.

Definition with_file (f : nat) (x : file) (k : K) : K :=
  upd_world (fun w => { w with ftab := <[f := x]> (ftab w) }) k.

Lemma setf_ok f x g (k : K) :
  ftab (world k) !! f = Some x -> setf f g k = Ok tt (with_file f (g x) k).
Proof.
  intros H. unfold setf. msimpl. rewrite H. msimpl. unfold with_file, upd_world. cbn.
  by rewrite (alter_insert _ _ _ x).
Qed.
End Ops.
