(* ===== verification/Pipe.v ===== *)
(** * Pipes

    Models pipe.c without [pipealloc], which is in File.v.  A reader or writer
    that has to wait sleeps, so the loops of [pipewrite] and [piperead] that
    sleep take fuel: the number of times the process may be woken up to find
    that it has to sleep again.  The bytes a user buffer holds are passed as a
    list.

    The theorems show that a pipe is a queue of at most [PIPESIZE] bytes, also
    when the counters [nread] and [nwrite] wrap around. *)

From S2P Require Import Prelude Ring CString Kalloc Double Spinlock ProcState Sched SchedClock Sleep Bio Log BlockStore Fs Kernel.
Open Scope Z_scope.

(** Offsets in [struct pipe]: the lock takes 52 bytes, then [data], [nread],
    [nwrite]. *)
Definition pipe_data (p : Z) : Z := p + 52.
Definition ch_nread (p : Z) : channel := ch_addr (p + 52 + Z.of_nat PIPESIZE).
Definition ch_nwrite (p : Z) : channel := ch_addr (p + 52 + Z.of_nat PIPESIZE + 4).
Definition lk_pipe (p : Z) : lockid := lk_addr p.

(** [p->data[p->nwrite++ % PIPESIZE] = b] *)
Definition pipe_put (b : Z) (pp : pipe) : pipe :=
  { pp with p_data := <[Z.to_nat (nwrite pp mod Z.of_nat PIPESIZE) := b]> (p_data pp);
            nwrite := u32 (nwrite pp + 1) }.
(** [p->data[p->nread++ % PIPESIZE]] *)
Definition pipe_byte (pp : pipe) : Z := p_data pp !!! Z.to_nat (nread pp mod Z.of_nat PIPESIZE).
Definition pipe_get (pp : pipe) : pipe := { pp with nread := u32 (nread pp + 1) }.

Section Pipe.
Context {S : Type} `{Linker}.
#[local] Abbreviation K := (kernel (World S)).

Definition pipeclose (p : Z) (writable : bool) : M K unit :=
  kacquire (lk_pipe p);;
  (if writable then
     setpipe p (fun pp => { pp with writeopen := 0 });;
     wakeup (ch_nread p)
   else
     setpipe p (fun pp => { pp with readopen := 0 });;
     wakeup (ch_nwrite p));;
  pp ← getpipe p;
  if (readopen pp =? 0) && (writeopen pp =? 0) then
    krelease (lk_pipe p);;
    modify (upd_world (fun w => { w with pipes ::= delete p }));;
    on_mem (kfree p)
  else krelease (lk_pipe p).

(** [while(p->nwrite == p->nread + PIPESIZE)]: [false] when the writer has to
    return -1. *)
Fixpoint wait_space (p : Z) (fuel : nat) : M K bool :=
  match fuel with
  | O => no_fuel
  | Datatypes.S f =>
      pp ← getpipe p;
      if nwrite pp =? u32 (nread pp + Z.of_nat PIPESIZE) then
        stop ← (if readopen pp =? 0 then mret true
                else i ← curproc; pr ← getp i; mret (ctrue (killed pr)));
        if (stop : bool) then mret false
        else
          wakeup (ch_nread p);;
          sleep (ch_nwrite p) (Some (lk_pipe p));;
          wait_space p f
      else mret true
  end.

(** The [for] loop of [pipewrite]; [false] when it is left with -1. *)
Fixpoint pipewrite_loop (p : Z) (bs : list Z) (fuel : nat) : M K bool :=
  match bs with
  | [] => mret true
  | b :: bs' =>
      ok ← wait_space p fuel;
      if (ok : bool) then
        setpipe p (pipe_put b);;
        pipewrite_loop p bs' fuel
      else mret false
  end.

Definition pipewrite (p : Z) (addr : list Z) (n : Z) (fuel : nat) : M K Z :=
  kacquire (lk_pipe p);;
  ok ← pipewrite_loop p (take (Z.to_nat n) addr) fuel;
  if (ok : bool) then
    wakeup (ch_nread p);;
    krelease (lk_pipe p);;
    mret n
  else
    krelease (lk_pipe p);;
    mret (-1).

(** [while(p->nread == p->nwrite && p->writeopen)] *)
Fixpoint wait_data (p : Z) (fuel : nat) : M K bool :=
  match fuel with
  | O => no_fuel
  | Datatypes.S f =>
      pp ← getpipe p;
      if (nread pp =? nwrite pp) && ctrue (writeopen pp) then
        i ← curproc;
        pr ← getp i;
        if ctrue (killed pr) then mret false
        else
          sleep (ch_nread p) (Some (lk_pipe p));;
          wait_data p f
      else mret true
  end.

(** The [for] loop of [piperead], with [n] bytes still wanted: the bytes read *)
Fixpoint piperead_loop (p : Z) (n : nat) : M K (list Z) :=
  match n with
  | O => mret []
  | Datatypes.S n' =>
      pp ← getpipe p;
      if nread pp =? nwrite pp then mret []
      else
        setpipe p pipe_get;;
        rest ← piperead_loop p n';
        mret (pipe_byte pp :: rest)
  end.

(** Returns the result and the bytes stored at [addr]. *)
Definition piperead (p : Z) (n : Z) (fuel : nat) : M K (Z * list Z) :=
  kacquire (lk_pipe p);;
  ok ← wait_data p fuel;
  if (ok : bool) then
    bs ← piperead_loop p (Z.to_nat n);
    wakeup (ch_nwrite p);;
    krelease (lk_pipe p);;
    mret (Z.of_nat (length bs), bs)
  else
    krelease (lk_pipe p);;
    mret (-1, []).
End Pipe.

(** ** Pipes are queues *)
Record pipe_ok (pp : pipe) : Prop := {
  pk_data : length (p_data pp) = PIPESIZE;
  pk_nread : 0 <= nread pp < 2 ^ 32;
  pk_nwrite : 0 <= nwrite pp < 2 ^ 32;
  pk_full : u32 (nwrite pp - nread pp) <= Z.of_nat PIPESIZE;
}.

(** The bytes in the pipe, oldest first. *)
Definition qlen (pp : pipe) : nat := Z.to_nat (u32 (nwrite pp - nread pp)).
Definition queue (pp : pipe) : list Z := ring PIPESIZE (p_data pp) (nread pp) (qlen pp).

Lemma length_queue pp : length (queue pp) = qlen pp.
Proof. apply length_ring. Qed.

(** 512 divides 2^32. *)
Lemma pipe_slot_eq z z' : u32 z = u32 z' -> slot PIPESIZE z = slot PIPESIZE z'.
Proof. apply (slot_eq_u32 PIPESIZE (2 ^ 23)); unfold PIPESIZE; lia. Qed.

Lemma qlen_put b pp :
  pipe_ok pp -> (qlen pp < PIPESIZE)%nat -> qlen (pipe_put b pp) = S (qlen pp).
Proof.
  intros [_ _ _ Hf] Hlt. unfold qlen in *. cbn. rewrite u32_sub_l.
  replace (nwrite pp + 1 - nread pp) with (nwrite pp - nread pp + 1) by lia. rewrite <- u32_add_l.
  pose proof (u32_range (nwrite pp - nread pp)). unfold PIPESIZE in *. rewrite u32_small by lia. lia.
Qed.

Lemma queue_put b pp :
  pipe_ok pp -> (qlen pp < PIPESIZE)%nat -> queue (pipe_put b pp) = queue pp ++ [b].
Proof.
  intros Hok Hlt. assert (slot PIPESIZE (nwrite pp) = slot PIPESIZE (nread pp + Z.of_nat (qlen pp))) as E.
  { apply pipe_slot_eq. unfold qlen. pose proof (u32_range (nwrite pp - nread pp)).
    rewrite Z2Nat.id, u32_add_r by lia. f_equal. lia. }
  unfold queue. rewrite qlen_put, <- (ring_put PIPESIZE) by (try apply Hok; unfold PIPESIZE in *; lia || done).
  by rewrite <- E.
Qed.

Lemma pipe_ok_put b pp : pipe_ok pp -> (qlen pp < PIPESIZE)%nat -> pipe_ok (pipe_put b pp).
Proof.
  intros Hok Hlt. pose proof (qlen_put b pp Hok Hlt) as Hq. unfold qlen in *. destruct Hok. split; cbn.
  - by rewrite length_insert.
  - done.
  - apply u32_range.
  - pose proof (u32_range (nwrite (pipe_put b pp) - nread (pipe_put b pp))). cbn in *. lia.
Qed.

Lemma pipe_get_ok pp :
  pipe_ok pp -> (0 < qlen pp)%nat ->
  pipe_ok (pipe_get pp) /\ queue pp = pipe_byte pp :: queue (pipe_get pp).
Proof.
  intros [Hd Hr Hw Hf] Hlt. assert (u32 (nwrite pp - u32 (nread pp + 1)) = u32 (nwrite pp - nread pp) - 1) as Eq.
  { rewrite u32_sub_r. replace (nwrite pp - (nread pp + 1)) with (nwrite pp - nread pp - 1) by lia.
    rewrite <- u32_sub_l. apply u32_small. unfold qlen in Hlt. pose proof (u32_range (nwrite pp - nread pp)). lia. }
  split.
  - split; cbn; [done|apply u32_range|done|]. rewrite Eq. lia.
  - unfold queue. assert (qlen pp = S (qlen (pipe_get pp))) as ->.
    { unfold qlen in *. cbn. rewrite Eq. pose proof (u32_range (nwrite pp - nread pp)). lia. }
    rewrite ring_cons by (unfold PIPESIZE; lia). apply (f_equal (cons _)).
    apply (ring_eq_u32 _ (2 ^ 23)); [unfold PIPESIZE; lia..|]. cbn. by rewrite u32_u32.
Qed.

(** ** Reading and writing *)
Section Queue.
Context {S : Type} `{Linker}.
#[local] Abbreviation K := (kernel (World S)).

Lemma pipe_room pp :
  pipe_ok pp -> (qlen pp < PIPESIZE)%nat -> (nwrite pp =? u32 (nread pp + Z.of_nat PIPESIZE)) = false.
Proof.
  intros [_ Hr Hw Hf] Hlt. apply Z.eqb_neq. intros E. unfold qlen in Hlt. rewrite E, u32_sub_l in Hlt.
  replace (nread pp + Z.of_nat PIPESIZE - nread pp) with 512 in Hlt by (unfold PIPESIZE; lia).
  rewrite u32_small in Hlt by lia. unfold PIPESIZE in Hlt. lia.
Qed.

Lemma pipe_empty pp : pipe_ok pp -> (nread pp =? nwrite pp) = (qlen pp =? 0)%nat.
Proof.
  intros [_ Hr Hw _]. unfold qlen. destruct (Z.eqb_spec (nread pp) (nwrite pp)) as [E|E].
  - rewrite E, Z.sub_diag. done.
  - symmetry. apply Nat.eqb_neq. intros E0. apply E. assert (u32 (nwrite pp - nread pp) = 0) as E1
      by (pose proof (u32_range (nwrite pp - nread pp)); lia). unfold u32 in E1.
    pose proof (Z.div_mod (nwrite pp - nread pp) (2 ^ 32)). lia.
Qed.

Lemma lookup_with_pipe p pp (k : K) : pipes (world (with_pipe p pp k)) !! p = Some pp.
Proof. cbn. apply lookup_insert_eq. Qed.

Lemma with_pipe_twice p pp pp' (k : K) : with_pipe p pp' (with_pipe p pp k) = with_pipe p pp' k.
Proof. unfold with_pipe, upd_world. cbn. by rewrite insert_insert_eq. Qed.

(** The state of the pipe after the bytes have been put in and taken out. *)
Definition puts (bs : list Z) (pp : pipe) : pipe := foldl (fun pp b => pipe_put b pp) pp bs.

Lemma puts_ok bs pp :
  pipe_ok pp -> (qlen pp + length bs <= PIPESIZE)%nat ->
  pipe_ok (puts bs pp) /\ queue (puts bs pp) = queue pp ++ bs.
Proof.
  revert pp. induction bs as [|b bs IH]; intros pp Hok Hl; cbn [length] in Hl.
  { change (puts [] pp) with pp. by rewrite app_nil_r. }
  change (puts (b :: bs) pp) with (puts bs (pipe_put b pp)).
  assert (qlen pp < PIPESIZE)%nat as Hlt by lia.
  destruct (IH (pipe_put b pp)) as [H1 H2]; [by apply pipe_ok_put|rewrite qlen_put by done; lia|].
  split; [done|]. rewrite H2, queue_put, <- (assoc_L (++)) by done. done.
Qed.

Lemma pipewrite_loop_ok p bs pp (k : K) fuel :
  pipes (world k) !! p = Some pp -> pipe_ok pp -> (qlen pp + length bs <= PIPESIZE)%nat -> (1 <= fuel)%nat ->
  pipewrite_loop p bs fuel k = Ok true (with_pipe p (puts bs pp) k).
Proof.
  intros Hp Hok Hl Hf. revert k pp Hp Hok Hl. induction bs as [|b bs IH]; intros k pp Hp Hok Hl; cbn [pipewrite_loop].
  - cbn. unfold with_pipe, upd_world. destruct k as [? ? ? ? ? ? ? ? ? ? ? ? ? ? ? []]. cbn in *.
    by rewrite insert_id.
  - cbn [length] in Hl. assert (qlen pp < PIPESIZE)%nat as Hlt by lia.
    assert (wait_space p fuel k = Ok true k) as Ew.
    { destruct fuel as [|fuel]; [lia|]. cbn [wait_space]. rewrite (bind_ok _ _ _ _ _ (getpipe_ok _ _ _ Hp)).
      by rewrite pipe_room. }
    rewrite (bind_ok _ _ _ _ _ Ew), (bind_ok _ _ _ _ _ (setpipe_ok _ _ _ _ Hp)).
    rewrite (IH _ (pipe_put b pp)); [|apply lookup_with_pipe|by apply pipe_ok_put|rewrite qlen_put by done; lia].
    by rewrite with_pipe_twice.
Qed.

Lemma piperead_loop_ok p n pp (k : K) :
  pipes (world k) !! p = Some pp -> pipe_ok pp ->
  exists pp', piperead_loop p n k = Ok (take n (queue pp)) (with_pipe p pp' k)
    /\ pipe_ok pp' /\ queue pp' = drop n (queue pp).
Proof.
  revert k pp. induction n as [|n IH]; intros k pp Hp Hok; cbn [piperead_loop].
  - exists pp. split_and!; [|done|by rewrite drop_0]. rewrite take_0.
    unfold with_pipe, upd_world. destruct k as [? ? ? ? ? ? ? ? ? ? ? ? ? ? ? []]. cbn in *. by rewrite insert_id.
  - rewrite (bind_ok _ _ _ _ _ (getpipe_ok _ _ _ Hp)), pipe_empty by done. destruct (Nat.eqb_spec (qlen pp) 0) as [E|E].
    + exists pp. assert (queue pp = []) as Eq by (apply nil_length_inv; by rewrite length_queue). rewrite Eq.
      split_and!; [|done|done].
      unfold with_pipe, upd_world. destruct k as [? ? ? ? ? ? ? ? ? ? ? ? ? ? ? []]. cbn in *. by rewrite insert_id.
    + destruct (pipe_get_ok pp Hok) as [Hok' Eq]; [lia|].
      rewrite (bind_ok _ _ _ _ _ (setpipe_ok _ _ _ _ Hp)).
      destruct (IH (with_pipe p (pipe_get pp) k) (pipe_get pp)) as (pp' & E' & Hok'' & Hq);
        [apply lookup_with_pipe|done|].
      exists pp'. rewrite (bind_ok _ _ _ _ _ E'), with_pipe_twice. rewrite Eq. cbn. by rewrite Hq.
Qed.

(** Whose locks and process table do not see the pipe. *)
Lemma with_pipe_frame p pp (k : K) :
  mach (with_pipe p pp k) = mach k /\ ptable (with_pipe p pp k) = ptable k.
Proof. done. Qed.

Lemma pipewrite_ok p bs pp (k : K) c q fuel :
  on (mach k) c q [] -> length (ptable k) = NPROC ->
  pipes (world k) !! p = Some pp -> pipe_ok pp -> (qlen pp + length bs <= PIPESIZE)%nat -> (1 <= fuel)%nat ->
  exists m', pipewrite p bs (Z.of_nat (length bs)) fuel k
    = Ok (Z.of_nat (length bs))
        { with_pipe p (puts bs pp) k with ptable := wake (ch_nread p) <$> ptable k; mach := m' }
    /\ on m' c q [].
Proof.
  intros Hon Hlen Hp Hok Hl Hf. unfold pipewrite. rewrite Nat2Z.id, take_ge by lia.
  destruct (kacquire_ok k c _ _ (lk_pipe p) Hon ltac:(set_solver) ltac:(cbn; lia)) as (m1 & H1 & Hon1). mstep H1.
  erewrite bind_ok by (apply pipewrite_loop_ok; [exact Hp|done|done|done]). cbv iota.
  mstate ltac:(fun st => destruct (wakeup_ok (ch_nread p) st c q [lk_pipe p] Hon1) as (m2 & H2 & Hon2));
    [set_solver|cbn; lia|exact Hlen|].
  mstep H2.
  mstate ltac:(fun st => destruct (krelease_ok st c q [] [] (lk_pipe p) Hon2) as (m3 & H3 & Hon3)). mstep H3.
  exists m3. split; [|done]. done.
Qed.

Lemma piperead_ok p n pp (k : K) c q fuel :
  on (mach k) c q [] -> length (ptable k) = NPROC ->
  pipes (world k) !! p = Some pp -> pipe_ok pp -> (0 < qlen pp)%nat \/ writeopen pp = 0 -> (1 <= fuel)%nat ->
  exists m' pp', piperead p n fuel k
    = Ok (Z.of_nat (length (take (Z.to_nat n) (queue pp))), take (Z.to_nat n) (queue pp))
        { with_pipe p pp' k with ptable := wake (ch_nwrite p) <$> ptable k; mach := m' }
    /\ on m' c q [] /\ pipe_ok pp' /\ queue pp' = drop (Z.to_nat n) (queue pp).
Proof.
  intros Hon Hlen Hp Hok Hne Hf. unfold piperead.
  destruct (kacquire_ok k c _ _ (lk_pipe p) Hon ltac:(set_solver) ltac:(cbn; lia)) as (m1 & H1 & Hon1). mstep H1.
  assert (forall k' : K, pipes (world k') !! p = Some pp -> wait_data p fuel k' = Ok true k') as Ew.
  { intros k' Hp'. destruct fuel as [|fuel]; [lia|]. cbn [wait_data]. rewrite (bind_ok _ _ _ _ _ (getpipe_ok _ _ _ Hp')).
    rewrite pipe_empty by done. destruct Hne as [Hne|Hw].
    - by rewrite (proj2 (Nat.eqb_neq _ _)) by lia.
    - by rewrite Hw, andb_false_r. }
  erewrite bind_ok by (apply Ew; exact Hp). cbv iota.
  mstate ltac:(fun st => destruct (piperead_loop_ok p (Z.to_nat n) pp st Hp Hok) as (pp' & E & Hok' & Hq)). mstep E.
  mstate ltac:(fun st => destruct (wakeup_ok (ch_nwrite p) st c q [lk_pipe p] Hon1) as (m2 & H2 & Hon2));
    [set_solver|cbn; lia|exact Hlen|].
  mstep H2.
  mstate ltac:(fun st => destruct (krelease_ok st c q [] [] (lk_pipe p) Hon2) as (m3 & H3 & Hon3)). mstep H3.
  exists m3, pp'. split; [done|]. done.
Qed.

(** C25: a pipe is a queue of bytes.  Writing bytes that fit succeeds, appends them
    to the bytes in the pipe and wakes the readers; reading [n] bytes then
    returns the oldest bytes, in order, as many as there are up to [n], leaves
    the others in the pipe and wakes the writers.  The counters may wrap around
    on the way. *)
Theorem pipe_write_then_read p bs n pp (k : K) c q fuel :
  on (mach k) c q [] -> length (ptable k) = NPROC ->
  pipes (world k) !! p = Some pp -> pipe_ok pp -> bs <> [] ->
  (length (queue pp) + length bs <= PIPESIZE)%nat -> (1 <= fuel)%nat ->
  let all := queue pp ++ bs in
  exists k1 k2 pp', pipewrite p bs (Z.of_nat (length bs)) fuel k = Ok (Z.of_nat (length bs)) k1
    /\ piperead p n fuel k1
       = Ok (Z.of_nat (length (take (Z.to_nat n) all)), take (Z.to_nat n) all) k2
    /\ pipes (world k2) = <[p := pp']> (pipes (world k)) /\ pipe_ok pp' /\ queue pp' = drop (Z.to_nat n) all
    /\ ptable k2 = wake (ch_nwrite p) <$> (wake (ch_nread p) <$> ptable k).
Proof.
  intros Hon Hlen Hp Hok Hne Hl Hf all. rewrite length_queue in Hl.
  destruct (pipewrite_ok p bs pp k c q fuel Hon Hlen Hp Hok Hl Hf) as (m1 & E1 & Hon1).
  destruct (puts_ok bs pp Hok Hl) as [Hok1 Hq1]. set (k1 := { with_pipe p (puts bs pp) k with ptable := _; mach := m1 }) in *.
  destruct (piperead_ok p n (puts bs pp) k1 c q fuel Hon1) as (m2 & pp' & E2 & _ & Hok2 & Hq2);
    [by cbn; rewrite length_fmap|apply lookup_with_pipe|done| |done|].
  { left. rewrite <- length_queue, Hq1, length_app. destruct bs; [done|cbn; lia]. }
  rewrite Hq1 in E2, Hq2. eexists k1, _, pp'. split; [exact E1|]. split; [exact E2|]. split_and!; auto.
  cbn. apply insert_insert_eq.
Qed.
End Queue.
