(* ===== verification/ProcWitness.v ===== *)
(** * Concrete kernels for the theorems on processes, pipes and system calls *)

From S2P Require Import Prelude CString Kalloc Vm VmWitness Double Spinlock ProcState Sched SchedWitness Sleep Bio Log BlockStore Fs ConsoleDev Kernel Pipe.
Open Scope Z_scope.

(** A kernel over the world [w], with the process table [ps] padded to its full
    length. *)
Definition kernel_of {W} (m : machine) (ps : list proc) (w : W) : kernel W :=
  mk_kernel m (ps ++ replicate (NPROC - length ps) free_proc)
    (replicate NPROC (mk_tident 0 UNUSED)) None 1 1 (f64_of_Z 0) (f64_of_Z 1) (f64_of_Z 100)
    0 0 0 0 0 4096 w.

(** ** Sleeping *)
Definition sleepers : list proc :=
  [{ some_proc with state := SLEEPING; chan := ch_ticks }; { some_proc with state := RUNNING; pid := 2 }].

Lemma wakeup_wakes_witness :
  let k := kernel_of (machine_at (Some 1%nat) [lk_ticks]) sleepers tt in
  exists m', wakeup ch_ticks k = Ok tt { k with ptable := wake ch_ticks <$> ptable k; mach := m' }
    /\ on m' 0 (Some 1%nat) [lk_ticks].
Proof.
  intros k. apply (wakeup_wakes ch_ticks k 0 (Some 1%nat) [lk_ticks]).
  - apply on_machine_at; [apply NoDup_singleton|cbn; lia].
  - by intros [=]%list_elem_of_singleton.
  - cbn. lia.
  - reflexivity.
Defined.

Lemma kill_marks_witness :
  let k := kernel_of (machine_at (Some 1%nat) []) sleepers tt in
  exists m', kill 1 k = Ok 0 { k with ptable := kill_mark 1 <$> ptable k; mach := m' }
    /\ on m' 0 (Some 1%nat) [].
Proof.
  intros k. apply (kill_marks 1 k 0 (Some 1%nat)).
  - apply on_machine_at; [apply NoDup_nil_2|cbn; lia].
  - reflexivity.
Defined.

Lemma sleep_gives_up_witness :
  let k := kernel_of (machine_at (Some 1%nat) [lk_ticks]) sleepers tt in
  let pr := { some_proc with state := RUNNING; pid := 2 } in
  exists m' kont,
    sleep ch_ticks (Some lk_ticks) k
    = Swtch { k with ptable := <[1%nat := { pr with chan := ch_ticks; state := SLEEPING }]> (ptable k); mach := m' } kont
    /\ on m' 0 (Some 1%nat) [lk_ptable]
    /\ forall s' pr', on (mach s') 0 (Some 1%nat) [lk_ptable] -> ptable s' !! 1%nat = Some pr' ->
         exists m'', kont s' = Ok tt { s' with ptable := <[1%nat := { pr' with chan := ch_null }]> (ptable s'); mach := m'' }
           /\ on m'' 0 (Some 1%nat) [lk_ticks].
Proof.
  intros k pr. apply (sleep_gives_up ch_ticks lk_ticks k 0 1%nat pr).
  - apply on_machine_at; [apply NoDup_singleton|cbn; lia].
  - discriminate.
  - reflexivity.
Defined.

(** ** Pipes *)
Definition no_sb : superblock := mk_superblock 0 0 0 0 0 0 0.
Definition blank_console : console :=
  mk_console (fun _ => 0) 0 0 0 1 1 [] [] [] 0 (replicate 128 0) 0 0 0.
Definition world_of (m : kmem) (ps : gmap Z pipe) : World unit :=
  mk_World m (mk_fsys tt no_sb []) [] ps 0 blank_console.

(** A pipe with one byte in it, whose counters are about to wrap around. *)
Definition wrap_pipe : pipe := mk_pipe (replicate PIPESIZE 7) (2 ^ 32 - 2) (2 ^ 32 - 1) 1 1.

Lemma pipe_write_then_read_witness :
  let k := kernel_of (machine_at (Some 1%nat) []) sleepers
             (world_of (mk_kmem (fun _ => 0) 1 0) {[ 4096 := wrap_pipe ]}) in
  exists k1 k2 pp', pipewrite 4096 [10; 20; 30] 3 1 k = Ok 3 k1
    /\ piperead 4096 2 1 k1 = Ok (2, [7; 10]) k2
    /\ pipes (world k2) = <[4096 := pp']> (pipes (world k)) /\ pipe_ok pp' /\ queue pp' = [20; 30]
    /\ ptable k2 = wake (ch_nwrite 4096) <$> (wake (ch_nread 4096) <$> ptable k).
Proof.
  intros k. apply (pipe_write_then_read 4096 [10; 20; 30] 2 wrap_pipe k 0 (Some 1%nat) 1).
  - apply on_machine_at; [apply NoDup_nil_2|cbn; lia].
  - reflexivity.
  - apply lookup_insert_eq.
  - split; vm_compute; done || lia.
  - discriminate.
  - vm_compute. lia.
  - lia.
Defined.
