(* ===== verification/Console.v ===== *)
(** * The console

    Models the input half of console.c: [consoleintr], [consoleread],
    [consolewrite] and [consoleinit], and the interrupt handlers [kbdintr] of
    kbd.c and [uartintr] of uart.c.  [consoleintr] reads until the device has no
    more data, so its fuel is one more than the amount of data there is.
    [procdump] of proc.c, which only prints, is an argument.

    The theorems show that the input buffer is a line editor: the lines typed and
    the line being edited are lists, and the counters of the buffer may wrap
    around. *)

From S2P Require Import Prelude Ring CString Kalloc Double Spinlock ProcState Sched SchedClock Sleep Bio Log BlockStore Fs ConsoleDev Kernel.
Open Scope Z_scope.

(** [input.buf[input.e++ % INPUT_BUF] = c] *)
Definition input_put (c : Z) (s : console) : console :=
  { s with ibuf := <[Z.to_nat (ie s mod INPUT_BUF) := u8 c]> (ibuf s); ie := u32 (ie s + 1) }.

Section Console.
Context {S : Type} `{BlockStore S}.
#[local] Abbreviation K := (kernel (World S)).

Definition getcons : M K console := gets (fun k => wcons (world k)).
Definition setcons (f : console -> console) : M K unit := on_cons (modify f).

(** [case C('U')] *)
Fixpoint kill_line (fuel : nat) : M K unit :=
  match fuel with
  | O => no_fuel
  | Datatypes.S fuel =>
      s ← getcons;
      if negb (ie s =? iw s)
         && negb (ibuf s !!! Z.to_nat (u32 (ie s - 1) mod INPUT_BUF) =? NEWLINE)
      then
        setcons (fun s => { s with ie := u32 (ie s - 1) });;
        on_cons (consputc BACKSPACE);;
        kill_line fuel
      else mret tt
  end.

(** The [switch] of [consoleintr]; the result says whether to dump the processes.
    The edit index is at most [INPUT_BUF] in front of the write index. *)
Definition console_char (c : Z) : M K bool :=
  if c =? C 80 (* P *) then mret true
  else if c =? C 85 (* U *) then kill_line (Datatypes.S (Z.to_nat INPUT_BUF));; mret false
  else if (c =? C 72 (* H *)) || (c =? 127) then
    s ← getcons;
    when (negb (ie s =? iw s))
      (setcons (fun s => { s with ie := u32 (ie s - 1) });;
       on_cons (consputc BACKSPACE));;
    mret false
  else
    s ← getcons;
    when (negb (c =? 0) && (u32 (ie s - ir s) <? INPUT_BUF))
      (let c := if c =? 13 then NEWLINE else c in
       setcons (input_put c);;
       on_cons (consputc c);;
       s ← getcons;
       when ((c =? NEWLINE) || (c =? C 68 (* D *)) || (ie s =? u32 (ir s + INPUT_BUF)))
         (setcons (fun s => { s with iw := ie s });;
          wakeup ch_input));;
    mret false.

Fixpoint consoleintr_loop (getc : M console Z) (doprocdump : bool) (fuel : nat) : M K bool :=
  match fuel with
  | O => no_fuel
  | Datatypes.S fuel =>
      c ← on_cons getc;
      if 0 <=? c then
        d ← console_char c;
        consoleintr_loop getc (doprocdump || d) fuel
      else mret doprocdump
  end.

Definition consoleintr (procdump : M K unit) (getc : M console Z) (fuel : nat) : M K unit :=
  kacquire lk_cons;;
  doprocdump ← consoleintr_loop getc false fuel;
  krelease lk_cons;;
  when doprocdump procdump.

Definition kbdintr (procdump : M K unit) : M K unit :=
  s ← getcons;
  consoleintr procdump kbdgetc (Datatypes.S (length (scancodes s))).

Definition uartintr (procdump : M K unit) : M K unit :=
  s ← getcons;
  consoleintr procdump uartgetc (Datatypes.S (length (serial_in s))).

(** [while(input.r == input.w)]: [false] when the process has been killed. *)
Fixpoint wait_input (fuel : nat) : M K bool :=
  match fuel with
  | O => no_fuel
  | Datatypes.S fuel =>
      s ← getcons;
      if ir s =? iw s then
        i ← curproc;
        p ← getp i;
        if ctrue (killed p) then mret false
        else
          sleep ch_input (Some lk_cons);;
          wait_input fuel
      else mret true
  end.

(** [while(n > 0)]: the bytes stored at [dst], and [false] when the process has
    been killed. *)
Fixpoint consoleread_loop (target n fuel : nat) : M K (list Z * bool) :=
  match n with
  | O => mret ([], true)
  | Datatypes.S n' =>
      ok ← wait_input fuel;
      if (ok : bool) then
        s ← getcons;
        let c := ibuf s !!! Z.to_nat (ir s mod INPUT_BUF) in
        setcons (fun s => { s with ir := u32 (ir s + 1) });;
        if c =? C 68 then
          (* EOF: save ^D for next time, to make sure caller gets a 0-byte result. *)
          when (n <? target)%nat (setcons (fun s => { s with ir := u32 (ir s - 1) }));;
          mret ([], true)
        else if c =? NEWLINE then mret ([c], true)
        else
          '(rest, ok) ← consoleread_loop target n' fuel;
          mret (c :: rest, ok)
      else mret ([], false)
  end.

(** Returns the result and the bytes stored at [dst]. *)
Definition consoleread (ip : nat) (n : Z) (fuel : nat) : M K (Z * list Z) :=
  on_fs (iunlock ip);;
  kacquire lk_cons;;
  '(bs, ok) ← consoleread_loop (Z.to_nat n) (Z.to_nat n) fuel;
  krelease lk_cons;;
  on_fs (ilock ip);;
  mret (if ok : bool then Z.of_nat (length bs) else -1, bs).

Definition consolewrite (ip : nat) (buf : list Z) (n : Z) : M K Z :=
  on_fs (iunlock ip);;
  kacquire lk_cons;;
  for_each (take (Z.to_nat n) buf) (fun c => on_cons (consputc (Z.land c 255)));;
  krelease lk_cons;;
  on_fs (ilock ip);;
  mret n.

(** The entries of the device table and the interrupt controller are set up
    elsewhere. *)
Definition consoleinit : M K unit :=
  on_mach (initlock lk_cons);;
  setcons (fun s => { s with locking := 1 }).
End Console.
