(* ===== verification/ConsoleTheory.v ===== *)
(** * The console is a line editor

    The input buffer of console.c holds the characters of the lines that have
    been completed and not been read, and then those of the line being edited.
    [consoleintr] acts on these two lists as [press] does, and [consoleread]
    takes its result from the first one. *)

From S2P Require Import Prelude Ring CString Kalloc Double Spinlock ProcState Sched SchedClock Sleep Bio Log BlockStore Fs ConsoleDev Kernel Console.
Open Scope Z_scope.

Definition BUFSIZE : nat := 128.

Definition n_done (s : console) : nat := Z.to_nat (u32 (iw s - ir s)).
Definition n_edit (s : console) : nat := Z.to_nat (u32 (ie s - iw s)).

(** The completed lines, and the line being edited. *)
Definition completed (s : console) : list Z := ring BUFSIZE (ibuf s) (ir s) (n_done s).
Definition edited (s : console) : list Z := ring BUFSIZE (ibuf s) (iw s) (n_edit s).

Record console_ok (s : console) : Prop := {
  ck_buf : length (ibuf s) = BUFSIZE;
  ck_r : 0 <= ir s < 2 ^ 32;
  ck_w : 0 <= iw s < 2 ^ 32;
  ck_e : 0 <= ie s < 2 ^ 32;
  ck_room : (n_done s + n_edit s <= BUFSIZE)%nat;
  ck_display : display_ok s;
  ck_alive : panicked s = 0;
}.

(** Between two characters, the line being edited has no end of line. *)
Definition editing (s : console) : Prop := console_ok s /\ NEWLINE ∉ edited s.

(** What a character does to the completed lines and the line being edited. *)
Definition press (st : list Z * list Z) (c : Z) : list Z * list Z :=
  let '(lines, line) := st in
  if c =? C 80 then st
  else if c =? C 85 then (lines, [])
  else if (c =? C 72) || (c =? 127) then (lines, removelast line)
  else if (c =? 0) || (BUFSIZE <=? length lines + length line)%nat then st
  else
    let c := if c =? 13 then NEWLINE else c in
    let line := line ++ [c] in
    if (c =? NEWLINE) || (c =? C 68) || (length lines + length line =? BUFSIZE)%nat
    then (lines ++ line, [])
    else (lines, line).

(** Whether the character completes a line. *)
Definition completes (st : list Z * list Z) (c : Z) : bool :=
  (length st.1 <? length (press st c).1)%nat.

(** What reading at most [n] characters takes, and what it leaves; [fresh] says
    that nothing has been taken yet. *)
Fixpoint read_line (n : nat) (fresh : bool) (lines : list Z) : list Z * list Z :=
  match n, lines with
  | O, _ | _, [] => ([], lines)
  | S n, c :: rest =>
      if c =? C 68 then ([], if fresh then rest else lines)
      else if c =? NEWLINE then ([c], rest)
      else let '(a, b) := read_line n false rest in (c :: a, b)
  end.

(** Reading [n] characters does not have to wait. *)
Definition served (n : nat) (lines : list Z) : Prop :=
  (n <= length lines)%nat \/ NEWLINE ∈ lines \/ C 68 ∈ lines.

(** ** The buffer *)
Lemma bufsize_pos : (0 < BUFSIZE)%nat.
Proof. unfold BUFSIZE. lia. Qed.
Lemma bufsize_divides : 2 ^ 32 = 2 ^ 25 * Z.of_nat BUFSIZE.
Proof. reflexivity. Qed.
#[local] Hint Resolve bufsize_pos bufsize_divides : core.

Lemma n_done_Z s : Z.of_nat (n_done s) = u32 (iw s - ir s).
Proof. unfold n_done. pose proof (u32_range (iw s - ir s)). lia. Qed.
Lemma n_edit_Z s : Z.of_nat (n_edit s) = u32 (ie s - iw s).
Proof. unfold n_edit. pose proof (u32_range (ie s - iw s)). lia. Qed.

Lemma length_completed s : length (completed s) = n_done s.
Proof. apply length_ring. Qed.
Lemma length_edited s : length (edited s) = n_edit s.
Proof. apply length_ring. Qed.

(** The write and edit indices, counted from the read index. *)
Lemma write_index s : u32 (iw s) = u32 (ir s + Z.of_nat (n_done s)).
Proof. rewrite n_done_Z, u32_add_r. f_equal. lia. Qed.
Lemma edit_index s : u32 (ie s) = u32 (iw s + Z.of_nat (n_edit s)).
Proof. rewrite n_edit_Z, u32_add_r. f_equal. lia. Qed.
Lemma edit_index' s : u32 (ie s) = u32 (ir s + Z.of_nat (n_done s + n_edit s)).
Proof.
  rewrite edit_index, <- u32_add_l, write_index, u32_add_l. f_equal. lia.
Qed.

Lemma total_length s : console_ok s -> u32 (ie s - ir s) = Z.of_nat (n_done s + n_edit s).
Proof.
  intros Hok. pose proof (ck_room s Hok). rewrite <- u32_sub_l, edit_index', u32_sub_l.
  unfold BUFSIZE in *. rewrite u32_small; lia.
Qed.

(** The buffer is one stretch from the read index on. *)
Lemma buffer_stretch s : completed s ++ edited s = ring BUFSIZE (ibuf s) (ir s) (n_done s + n_edit s).
Proof.
  rewrite ring_app by auto. f_equal. apply (ring_eq_u32 BUFSIZE (2 ^ 25)); auto. apply write_index.
Qed.

Lemma edit_empty s : console_ok s -> (ie s =? iw s) = (n_edit s =? 0)%nat.
Proof.
  intros Hok. destruct Hok as [_ _ Hw He _ _ _]. destruct (Z.eqb_spec (ie s) (iw s)) as [E|E].
  - unfold n_edit. by rewrite E, Z.sub_diag.
  - symmetry. apply Nat.eqb_neq. intros E0. apply E. pose proof (edit_index s) as Hi.
    rewrite E0, Z.add_0_r, !u32_small in Hi by lia. done.
Qed.

Lemma done_empty s : console_ok s -> (ir s =? iw s) = (n_done s =? 0)%nat.
Proof.
  intros Hok. destruct Hok as [_ Hr Hw _ _ _ _]. destruct (Z.eqb_spec (ir s) (iw s)) as [E|E].
  - unfold n_done. by rewrite E, Z.sub_diag.
  - symmetry. apply Nat.eqb_neq. intros E0. apply E. pose proof (write_index s) as Hi.
    rewrite E0, Z.add_0_r, !u32_small in Hi by lia. done.
Qed.

Lemma buffer_full s :
  console_ok s -> (ie s =? u32 (ir s + INPUT_BUF)) = (length (completed s) + length (edited s) =? BUFSIZE)%nat.
Proof.
  intros Hok. rewrite length_completed, length_edited. pose proof (total_length s Hok) as Ht.
  destruct (Z.eqb_spec (ie s) (u32 (ir s + INPUT_BUF))) as [E|E].
  - symmetry. apply Nat.eqb_eq. rewrite E, u32_sub_l in Ht. replace (ir s + INPUT_BUF - ir s) with 128 in Ht by (unfold INPUT_BUF; lia).
    rewrite u32_small in Ht by lia. unfold BUFSIZE. lia.
  - symmetry. apply Nat.eqb_neq. intros E0. apply E. rewrite <- (u32_small (ie s)) by apply Hok.
    rewrite edit_index', E0. done.
Qed.

(** *** Changing it *)
Lemma input_put_ok c s :
  console_ok s -> (n_done s + n_edit s < BUFSIZE)%nat ->
  let s' := input_put c s in
  console_ok s' /\ completed s' = completed s /\ edited s' = edited s ++ [u8 c].
Proof.
  intros Hok Hlt s'. assert (n_edit s' = S (n_edit s)) as En.
  { unfold n_edit at 1, s'. cbn. rewrite u32_sub_l. replace (ie s + 1 - iw s) with (ie s - iw s + 1) by lia.
    rewrite <- u32_add_l, <- n_edit_Z. unfold BUFSIZE in *. rewrite u32_small; lia. }
  assert (ibuf s' = <[slot BUFSIZE (ie s) := u8 c]> (ibuf s)) as Eb by done.
  split_and!.
  - destruct Hok as [Hb Hr Hw He Hroom Hd Ha]. split; try done.
    + rewrite Eb. by rewrite length_insert.
    + apply u32_range.
    + rewrite En. change (n_done s') with (n_done s). lia.
    + by destruct Hd.
  - unfold completed. rewrite Eb. change (n_done s') with (n_done s). change (ir s') with (ir s).
    rewrite (slot_eq_u32 BUFSIZE (2 ^ 25) ltac:(auto) ltac:(auto) _ _ (edit_index' s)). apply ring_insert_other; auto; lia.
  - unfold edited. rewrite En, Eb. change (iw s') with (iw s).
    rewrite (slot_eq_u32 BUFSIZE (2 ^ 25) ltac:(auto) ltac:(auto) _ _ (edit_index s)). apply ring_put; auto.
    + apply Hok.
    + lia.
Qed.

(** [input.e--] *)
Definition unput (s : console) : console := { s with ie := u32 (ie s - 1) }.

Lemma unput_ok s :
  console_ok s -> (0 < n_edit s)%nat ->
  let s' := unput s in
  console_ok s' /\ completed s' = completed s
  /\ edited s = edited s' ++ [ibuf s !!! Z.to_nat (u32 (ie s - 1) mod INPUT_BUF)].
Proof.
  intros Hok Hlt s'. assert (n_edit s = S (n_edit s')) as En.
  { enough (n_edit s' = (n_edit s - 1)%nat) by lia. unfold n_edit at 1, s'. cbn. rewrite u32_sub_l.
    replace (ie s - 1 - iw s) with (ie s - iw s - 1) by lia.
    rewrite <- u32_sub_l, <- n_edit_Z. pose proof (ck_room s Hok). unfold BUFSIZE in *.
    rewrite u32_small; lia. }
  split_and!.
  - destruct Hok as [Hb Hr Hw He Hroom Hd Ha]. split; try done.
    + apply u32_range.
    + change (n_done s') with (n_done s). lia.
    + by destruct Hd.
  - done.
  - unfold edited. rewrite En, ring_snoc by auto. apply (f_equal (app _)), (f_equal (fun x => [x])).
    apply (f_equal (fun i => ibuf s !!! i)). change (slot BUFSIZE (iw s + Z.of_nat (n_edit s')) = slot BUFSIZE (ie s')).
    apply (slot_eq_u32 BUFSIZE (2 ^ 25)); auto. symmetry. apply (edit_index s').
Qed.

(** [input.w = input.e] *)
Definition commit_line (s : console) : console := { s with iw := ie s }.

Lemma commit_line_ok s :
  console_ok s ->
  let s' := commit_line s in
  console_ok s' /\ completed s' = completed s ++ edited s /\ edited s' = [].
Proof.
  intros Hok s'. assert (n_edit s' = 0%nat) as En by (unfold n_edit, s'; cbn; by rewrite Z.sub_diag).
  assert (n_done s' = (n_done s + n_edit s)%nat) as Ed.
  { pose proof (total_length s Hok). unfold n_done at 1. cbn. lia. }
  split_and!.
  - destruct Hok as [Hb Hr Hw He Hroom Hd Ha]. split; try done.
    + lia.
    + by destruct Hd.
  - rewrite buffer_stretch, <- Ed. done.
  - unfold edited. by rewrite En.
Qed.

(** [input.r++], with a character to take *)
Definition taken (s : console) : console := { s with ir := u32 (ir s + 1) }.

Lemma taken_ok s :
  console_ok s -> (0 < n_done s)%nat ->
  let s' := taken s in
  console_ok s' /\ edited s' = edited s
  /\ completed s = (ibuf s !!! Z.to_nat (ir s mod INPUT_BUF)) :: completed s'.
Proof.
  intros Hok Hlt s'. assert (n_done s = S (n_done s')) as En.
  { enough (n_done s' = (n_done s - 1)%nat) by lia. unfold n_done at 1, s'. cbn. rewrite u32_sub_r.
    replace (iw s - (ir s + 1)) with (iw s - ir s - 1) by lia.
    rewrite <- u32_sub_l, <- n_done_Z. pose proof (ck_room s Hok). unfold BUFSIZE in *.
    rewrite u32_small; lia. }
  split_and!.
  - destruct Hok as [Hb Hr Hw He Hroom Hd Ha]. split; try done.
    + apply u32_range.
    + change (n_edit s') with (n_edit s). lia.
    + by destruct Hd.
  - done.
  - unfold completed. rewrite En, ring_cons by auto. apply (f_equal (cons _)).
    apply (ring_eq_u32 BUFSIZE (2 ^ 25)); auto. cbn. by rewrite u32_u32.
Qed.

(** ** [consoleintr] *)

(** What the devices have delivered. *)
Definition delivered (s : console) := (uart s, serial_in s, scancodes s, ConsoleDev.shift s).

(** [s'] is the console after a step from [s] that leaves the completed lines
    and the line being edited as [st]. *)
Record acts (s s' : console) (st : list Z * list Z) : Prop := {
  act_ok : console_ok s';
  act_done : completed s' = st.1;
  act_edit : edited s' = st.2;
  act_input : delivered s' = delivered s;
}.

Lemma acts_trans s s' s'' st st' : acts s s' st -> acts s' s'' st' -> acts s s'' st'.
Proof. intros [? ? ? H1] [? ? ? H2]. split; try done. by rewrite H2, H1. Qed.

Lemma echo_ok c s : console_ok s -> exists s', consputc c s = Ok tt s' /\ acts s s' (completed s, edited s).
Proof.
  intros Hok. destruct (consputc_ok c s) as (s' & E & Hd & h & l & m & o & ->); [apply Hok..|].
  eexists. split; [exact E|]. split; [|done..]. by destruct Hok.
Qed.

Section Intr.
Context {S : Type} `{BlockStore S}.
#[local] Abbreviation K := (kernel (World S)).

Definition with_cons (t : console) (k : K) : K := upd_world (fun w => { w with wcons := t }) k.

Lemma with_cons_same (k : K) : with_cons (wcons (world k)) k = k.
Proof. by destruct k as [? ? ? ? ? ? ? ? ? ? ? ? ? ? ? []]. Qed.

Lemma setcons_then {B} f (g : unit -> M K B) s (k : K) :
  wcons (world k) = s -> (setcons f ≫= g) k = g tt (with_cons (f s) k).
Proof. by intros <-. Qed.

Lemma getcons_then {B} (g : console -> M K B) s (k : K) :
  wcons (world k) = s -> (getcons ≫= g) k = g s k.
Proof. by intros <-. Qed.

Lemma on_cons_then {A B} (m : M console A) a t (g : A -> M K B) s (k : K) :
  m s = Ok a t -> wcons (world k) = s -> (on_cons m ≫= g) k = g a (with_cons t k).
Proof. intros E <-. by rewrite (bind_ok _ _ _ _ _ (on_cons_ok _ k _ _ E)). Qed.

Lemma with_cons_twice t t' (k : K) : with_cons t (with_cons t' k) = with_cons t k.
Proof. done. Qed.

(** [input.e--; consputc(BACKSPACE);] *)
Lemma erase_ok s (k : K) :
  console_ok s -> (0 < n_edit s)%nat ->
  exists s', on_cons (consputc BACKSPACE) (with_cons (unput s) k) = Ok tt (with_cons s' k)
    /\ acts s s' (completed s, removelast (edited s)).
Proof.
  intros Hok Hn. destruct (unput_ok s Hok Hn) as (Hok1 & Hd1 & He1).
  destruct (echo_ok BACKSPACE (unput s) Hok1) as (s' & E & Ha). exists s'. split.
  - exact (on_cons_ok _ (with_cons (unput s) k) _ _ E).
  - rewrite He1, removelast_last, <- Hd1. by destruct Ha.
Qed.

Lemma kill_line_ok fuel s (k : K) :
  wcons (world k) = s -> editing s -> (n_edit s < fuel)%nat ->
  exists s', kill_line fuel k = Ok tt (with_cons s' k) /\ acts s s' (completed s, []).
Proof.
  revert s k. induction fuel as [|fuel IH]; intros s k Hs [Hok Hl] Hf; [lia|]. cbn [kill_line].
  erewrite bind_ok by reflexivity. rewrite Hs, edit_empty by done. destruct (Nat.eqb_spec (n_edit s) 0) as [E|E]; cbn [negb andb].
  - exists s. rewrite <- Hs at 1. rewrite with_cons_same. split; [done|]. split; [done..| |done].
    apply nil_length_inv. by rewrite length_edited.
  - destruct (unput_ok s Hok ltac:(lia)) as (_ & _ & He1). set (b := ibuf s !!! _) in *.
    rewrite (proj2 (Z.eqb_neq b NEWLINE)) by (intros ->; apply Hl; rewrite He1; apply elem_of_app; right; by left).
    destruct (erase_ok s k Hok ltac:(lia)) as (s1 & E1 & Ha1). cbn [negb andb].
    rewrite (setcons_then _ _ s k Hs), (bind_ok _ _ _ _ _ E1).
    assert (length (edited s1) = (n_edit s - 1)%nat) as Hlen.
    { rewrite (act_edit _ _ _ Ha1). cbn. rewrite He1, removelast_last, <- length_edited, He1, length_app. cbn. lia. }
    destruct (IH s1 (with_cons s1 k)) as (s' & E' & Ha').
    + done.
    + split; [apply Ha1|]. rewrite (act_edit _ _ _ Ha1). cbn. rewrite He1, removelast_last.
      intros Hin. apply Hl. rewrite He1. apply elem_of_app. by left.
    + rewrite length_edited in Hlen. lia.
    + exists s'. rewrite E'. split; [done|]. rewrite (act_done _ _ _ Ha1) in Ha'. by apply (acts_trans _ _ _ _ _ Ha1).
Qed.

(** The default case of the [switch]: a character that is stored. *)
Definition stores (c : Z) : M K unit :=
  setcons (input_put c);;
  on_cons (consputc c);;
  s ← getcons;
  when ((c =? NEWLINE) || (c =? C 68) || (ie s =? u32 (ir s + INPUT_BUF)))
    (setcons (fun s => { s with iw := ie s });;
     wakeup ch_input).

Lemma stores_ok c s (k : K) cp p hs :
  wcons (world k) = s -> editing s -> 0 <= c < 256 -> (length (completed s) + length (edited s) < BUFSIZE)%nat ->
  on (mach k) cp p hs -> lk_ptable ∉ hs -> (length hs < 100)%nat -> length (ptable k) = NPROC ->
  let line := edited s ++ [c] in
  let b := (c =? NEWLINE) || (c =? C 68) || (length (completed s) + length line =? BUFSIZE)%nat in
  exists s' m', stores c k = Ok tt { with_cons s' k with
      ptable := if b then wake ch_input <$> ptable k else ptable k; mach := m' }
    /\ on m' cp p hs
    /\ acts s s' (if b then (completed s ++ line, []) else (completed s, line))
    /\ NEWLINE ∉ edited s'.
Proof.
  intros Hs [Hok Hl] Hc Hroom Hon Hnin Hhs Hpt line b. rewrite length_completed, length_edited in Hroom.
  destruct (input_put_ok c s Hok Hroom) as (Hok1 & Hd1 & He1). unfold u8 in He1. rewrite Z.mod_small in He1 by lia.
  destruct (echo_ok c (input_put c s) Hok1) as (s2 & E2 & Ha2). rewrite Hd1, He1 in Ha2. fold line in Ha2.
  assert (acts s s2 (completed s, line)) as Ha by (by destruct Ha2). clear Ha2.
  unfold stores. rewrite (setcons_then _ _ s k Hs). rewrite (on_cons_then _ _ _ _ _ _ E2), with_cons_twice by done.
  rewrite (getcons_then _ s2) by done. rewrite buffer_full by apply Ha.
  rewrite (act_done _ _ _ Ha), (act_edit _ _ _ Ha). cbn [fst snd]. fold b. destruct b eqn:Eb; unfold when.
  - destruct (commit_line_ok s2 ltac:(apply Ha)) as (Hok3 & Hd3 & He3).
    rewrite (setcons_then _ _ s2) by done.
    destruct (wakeup_ok ch_input (with_cons (commit_line s2) k) cp p hs Hon Hnin Hhs Hpt) as (m' & Ew & Hon').
    exists (commit_line s2), m'. split_and!; [exact Ew|done| |].
    + rewrite (act_done _ _ _ Ha), (act_edit _ _ _ Ha) in Hd3. split; try done. apply Ha.
    + rewrite He3. by apply not_elem_of_nil.
  - exists s2, (mach k). split_and!; [by destruct k|done..|].
    rewrite (act_edit _ _ _ Ha). apply orb_false_iff in Eb as [[Ec _]%orb_false_iff _].
    apply Z.eqb_neq in Ec. unfold line. cbn. rewrite not_elem_of_app, list_elem_of_singleton. naive_solver.
Qed.
Definition woken (b : bool) (ps : list proc) : list proc := if b then wake ch_input <$> ps else ps.

Lemma press_default st c :
  c <> C 80 -> c <> C 85 -> c <> C 72 -> c <> 127 ->
  press st c =
    if (c =? 0) || (BUFSIZE <=? length st.1 + length st.2)%nat then st
    else
      let c := if c =? 13 then NEWLINE else c in
      let line := st.2 ++ [c] in
      if (c =? NEWLINE) || (c =? C 68) || (length st.1 + length line =? BUFSIZE)%nat
      then (st.1 ++ line, []) else (st.1, line).
Proof.
  intros H1 H2 H3 H4. destruct st. unfold press.
  by rewrite (proj2 (Z.eqb_neq _ _) H1), (proj2 (Z.eqb_neq _ _) H2), (proj2 (Z.eqb_neq _ _) H3), (proj2 (Z.eqb_neq _ _) H4).
Qed.

Section Char.
Context (s : console) (k : K) (cp : nat) (p : option nat) (hs : list lockid).
Context (Hs : wcons (world k) = s) (Hed : editing s).
Context (Hon : on (mach k) cp p hs) (Hnin : lk_ptable ∉ hs) (Hhs : (length hs < 100)%nat).
Context (Hpt : length (ptable k) = NPROC).
#[local] Abbreviation st := (completed s, edited s).

(** [m] runs from [k] and does what pressing [c] does. *)
Definition reacts (c : Z) (m : M K bool) : Prop :=
  exists s' m', m k = Ok (c =? C 80) { with_cons s' k with
      ptable := woken (completes st c) (ptable k); mach := m' }
    /\ on m' cp p hs /\ acts s s' (press st c) /\ NEWLINE ∉ edited s'.

(** A step that completes no line. *)
Lemma reacts_quietly c s' (m : M K bool) :
  m k = Ok (c =? C 80) (with_cons s' k) -> acts s s' (press st c) ->
  (press st c).1 = completed s -> NEWLINE ∉ edited s' -> reacts c m.
Proof.
  intros Em Ha Ep Hl. exists s', (mach k). unfold completes. rewrite Ep. cbn [fst]. rewrite Nat.ltb_irrefl.
  split_and!; [|done..]. rewrite Em. by destruct k.
Qed.

Lemma reacts_kill : reacts (C 85) (kill_line (Datatypes.S (Z.to_nat INPUT_BUF));; mret false).
Proof.
  destruct (kill_line_ok (Datatypes.S (Z.to_nat INPUT_BUF)) s k Hs Hed) as (s' & E & Ha).
  { pose proof (ck_room s ltac:(apply Hed)). unfold BUFSIZE, INPUT_BUF in *. lia. }
  apply (reacts_quietly _ s'); [by rewrite (bind_ok _ _ _ _ _ E)|done..|].
  rewrite (act_edit _ _ _ Ha). by apply not_elem_of_nil.
Qed.

Lemma reacts_erase c :
  press st c = (completed s, removelast (edited s)) -> c <> C 80 ->
  reacts c (s ← getcons;
    when (negb (ie s =? iw s))
      (setcons (fun s => { s with ie := u32 (ie s - 1) });; on_cons (consputc BACKSPACE));;
    mret false).
Proof.
  intros Ep Hc. pose proof Hed as [Hok Hl]. destruct (Nat.eqb_spec (n_edit s) 0) as [E|E].
  - assert (edited s = []) as E0 by (apply nil_length_inv; by rewrite length_edited).
    apply (reacts_quietly _ s); rewrite ?Ep, ?E0; [|by split|done|by apply not_elem_of_nil].
    rewrite (getcons_then _ s _ Hs), edit_empty, E, (proj2 (Z.eqb_neq _ _) Hc) by done. by rewrite <- Hs, with_cons_same.
  - destruct (erase_ok s k Hok ltac:(lia)) as (s' & E' & Ha). apply (reacts_quietly _ s'); rewrite ?Ep; [|done..|].
    + rewrite (getcons_then _ s _ Hs), edit_empty, (proj2 (Nat.eqb_neq _ _) E), (proj2 (Z.eqb_neq _ _) Hc) by done.
      cbn [negb when]. erewrite bind_ok; [done|]. rewrite (setcons_then _ _ s k Hs). exact E'.
    + rewrite (act_edit _ _ _ Ha). destruct (unput_ok s Hok ltac:(lia)) as (_ & _ & He). cbn.
      rewrite He, removelast_last in *. rewrite not_elem_of_app in Hl. by apply Hl.
Qed.

Lemma reacts_default c :
  0 <= c < 256 -> c <> C 80 -> c <> C 85 -> c <> C 72 -> c <> 127 ->
  reacts c (s ← getcons;
    when (negb (c =? 0) && (u32 (ie s - ir s) <? INPUT_BUF)) (stores (if c =? 13 then NEWLINE else c));;
    mret false).
Proof.
  intros Hc H1 H2 H3 H4. pose proof Hed as [Hok Hl]. pose proof (press_default st c H1 H2 H3 H4) as Ep. cbn [fst snd] in Ep.
  assert ((u32 (ie s - ir s) <? INPUT_BUF) = negb (BUFSIZE <=? length (completed s) + length (edited s))%nat) as Er.
  { rewrite length_completed, length_edited, total_length by done. unfold BUFSIZE, INPUT_BUF.
    destruct (Nat.leb_spec 128 (n_done s + n_edit s)); [apply Z.ltb_ge|apply Z.ltb_lt]; lia. }
  destruct ((c =? 0) || (BUFSIZE <=? length (completed s) + length (edited s))%nat) eqn:Eb.
  - apply (reacts_quietly _ s); rewrite ?Ep; [|by split|done..].
    rewrite (getcons_then _ s _ Hs), Er, <- negb_orb, Eb, (proj2 (Z.eqb_neq _ _) H1). by rewrite <- Hs, with_cons_same.
  - pose proof Eb as [_ Hroom%Nat.leb_gt]%orb_false_iff.
    destruct (stores_ok (if c =? 13 then NEWLINE else c) s k cp p hs) as (s' & m' & E' & Hon' & Ha & Hl'); try done.
    { destruct (c =? 13); unfold NEWLINE; lia. }
    exists s', m'. rewrite Ep. split_and!; [|done..]. rewrite (getcons_then _ s _ Hs), Er, <- negb_orb, Eb. cbn [negb when].
    rewrite (bind_ok _ _ _ _ _ E'), (proj2 (Z.eqb_neq _ _) H1). unfold completes, woken. rewrite Ep. cbn [fst].
    case_match; cbn [fst]; [|by rewrite Nat.ltb_irrefl].
    by rewrite (proj2 (Nat.ltb_lt _ _)) by (rewrite !length_app; cbn; lia).
Qed.

Lemma console_char_ok c : 0 <= c < 256 -> reacts c (console_char c).
Proof.
  intros Hc. unfold console_char. destruct (Z.eqb_spec c (C 80)) as [->|H1].
  { apply (reacts_quietly _ s); [by rewrite <- Hs, with_cons_same| |done|apply Hed]. split; try done. apply Hed. }
  destruct (Z.eqb_spec c (C 85)) as [->|H2]; [apply reacts_kill|].
  destruct ((c =? C 72) || (c =? 127)) eqn:E3.
  { apply reacts_erase; [|done]. unfold press.
    by rewrite (proj2 (Z.eqb_neq _ _) H1), (proj2 (Z.eqb_neq _ _) H2), E3. }
  apply orb_false_iff in E3 as [H3%Z.eqb_neq H4%Z.eqb_neq]. by apply reacts_default.
Qed.
End Char.
End Intr.

(** ** Input devices *)

(** [getc] delivers the characters [pending s], one by one, and then -1. *)
Class Input (getc : M console Z) (pending : console -> list Z) : Prop := {
  in_end s : pending s = [] -> getc s = Ok (-1) s;
  in_next s c cs :
    pending s = c :: cs ->
    0 <= c < 256 /\ exists rx codes sh,
      let s' := { s with serial_in := rx; scancodes := codes; ConsoleDev.shift := sh } in
      getc s = Ok c s' /\ pending s' = cs;
  in_frame s s' : delivered s' = delivered s -> pending s' = pending s;
}.

Definition uart_pending (s : console) : list Z := if uart s =? 0 then [] else u8 <$> serial_in s.

(** The characters of a sequence of scan codes. *)
Fixpoint kbd_chars (sh : Z) (codes : list Z) : list Z :=
  match codes with
  | [] => []
  | data :: codes => let '(c, sh) := kbd_code sh (u8 data) in c :: kbd_chars sh codes
  end.
Lemma length_kbd_chars sh codes : length (kbd_chars sh codes) = length codes.
Proof.
  revert sh. induction codes as [|x codes IH]; intros sh; [done|]. cbn [kbd_chars].
  destruct (kbd_code sh (u8 x)). cbn. by rewrite IH.
Qed.
Definition kbd_pending (s : console) : list Z := kbd_chars (ConsoleDev.shift s) (scancodes s).

#[export] Instance uart_input : Input uartgetc uart_pending.
Proof.
  split; intros s; unfold uart_pending, uartgetc.
  - intros E. msimpl. destruct (uart s =? 0); [done|]. by destruct (serial_in s).
  - intros c cs E. msimpl. destruct (uart s =? 0) eqn:Eu; [done|]. destruct (serial_in s) as [|x rest]; [done|].
    injection E as <- <-. split; [apply Z.mod_pos_bound; lia|].
    exists rest, (scancodes s), (ConsoleDev.shift s). cbn. rewrite Eu. split; [|done]. by destruct s.
  - by intros s' [= -> -> _ _].
Qed.

(** The maps hold characters. *)
Lemma charcode_byte i : Forall is_byte (charcode i).
Proof.
  unfold charcode. destruct (i =? 0); [|destruct (i =? 1)]; apply (bool_decide_unpack _); vm_compute; exact I.
Qed.

Lemma key_char_byte sh data : 0 <= key_char sh data < 256.
Proof.
  unfold key_char. set (m := charcode _).
  assert (0 <= m !!! Z.to_nat data < 256) as Hm.
  { rewrite list_lookup_total_alt. destruct (m !! Z.to_nat data) as [c|] eqn:E; [|cbn; lia].
    apply (Forall_lookup_1 _ _ _ _ (charcode_byte _) E). }
  destruct (ctrue _); [|done]. zcases; lia.
Qed.

#[export] Instance kbd_input : Input kbdgetc kbd_pending.
Proof.
  split; intros s; unfold kbd_pending, kbdgetc.
  - intros E. msimpl. destruct (scancodes s) as [|x rest]; [done|]. cbn in E. by destruct (kbd_code _ _).
  - intros c cs E. msimpl. destruct (scancodes s) as [|x rest]; [done|]. cbn [kbd_chars] in E.
    destruct (kbd_code (ConsoleDev.shift s) (u8 x)) as [c' sh] eqn:Ek. injection E as <- <-. split.
    + unfold kbd_code in Ek. repeat case_match; simplify_eq; lia || apply key_char_byte.
    + exists (serial_in s), rest, sh. split; [|done]. by destruct s.
  - by intros s' [= _ _ -> ->].
Qed.

(** ** A whole interrupt *)
Lemma press_grows st c : (length st.1 <= length (press st c).1)%nat.
Proof. destruct st as [lines line]. unfold press. repeat case_match; cbn [fst]; rewrite ?length_app; lia. Qed.

Lemma presses_grow st cs : (length st.1 <= length (foldl press st cs).1)%nat.
Proof.
  revert st. induction cs as [|c cs IH]; intros st; [done|]. cbn. pose proof (press_grows st c). pose proof (IH (press st c)). lia.
Qed.

(** Whether some of the characters complete a line. *)
Definition complete_some (st : list Z * list Z) (cs : list Z) : bool :=
  (length st.1 <? length (foldl press st cs).1)%nat.

Lemma wake_wake ch p : wake ch (wake ch p) = wake ch p.
Proof.
  unfold wake. destruct (bool_decide (state p = SLEEPING) && bool_decide (chan p = ch)) eqn:E; [done|by rewrite E].
Qed.

Lemma woken_step st c cs ps :
  woken (complete_some (press st c) cs) (woken (completes st c) ps) = woken (complete_some st (c :: cs)) ps.
Proof.
  unfold complete_some, completes. cbn [foldl]. pose proof (press_grows st c). pose proof (presses_grow (press st c) cs).
  destruct (Nat.ltb_spec (length st.1) (length (press st c).1));
    destruct (Nat.ltb_spec (length (press st c).1) (length (foldl press (press st c) cs).1));
    destruct (Nat.ltb_spec (length st.1) (length (foldl press (press st c) cs).1)); try lia; try done.
  cbn. rewrite <- list_fmap_compose. apply list_fmap_ext. intros i p _. apply wake_wake.
Qed.

Section Interrupt.
Context {S : Type} `{BlockStore S}.
#[local] Abbreviation K := (kernel (World S)).

(** The kernel [k'] is [k] after the console has handled the characters [cs]. *)
Definition handled (k k' : K) (cs : list Z) : Prop :=
  let st := (completed (wcons (world k)), edited (wcons (world k))) in
  exists s' m', k' = { with_cons s' k with ptable := woken (complete_some st cs) (ptable k); mach := m' }
    /\ editing s' /\ (completed s', edited s') = foldl press st cs.

Lemma intr_loop_ok getc pending `{Input getc pending} cs (k : K) cp p hs d fuel :
  pending (wcons (world k)) = cs -> editing (wcons (world k)) ->
  on (mach k) cp p hs -> lk_ptable ∉ hs -> (length hs < 100)%nat -> length (ptable k) = NPROC ->
  (length cs < fuel)%nat ->
  exists k', consoleintr_loop getc d fuel k = Ok (d || existsb (Z.eqb (C 80)) cs) k'
    /\ handled k k' cs /\ on (mach k') cp p hs.
Proof.
  revert k d fuel. induction cs as [|c cs IH]; intros k d fuel Hp Hed Hon Hnin Hhs Hpt Hf;
    (destruct fuel as [|fuel]; [cbn in Hf; lia|]); cbn [consoleintr_loop].
  - rewrite (on_cons_then _ _ _ _ _ k (in_end _ Hp)), with_cons_same by done. cbn [Z.leb Z.compare].
    exists k. rewrite orb_false_r. split_and!; [done| |done].
    exists (wcons (world k)), (mach k). split; [|done]. unfold complete_some. cbn [foldl]. rewrite Nat.ltb_irrefl, with_cons_same.
    by destruct k.
  - destruct (in_next _ _ _ Hp) as (Hc & rx & codes & sh & Eg & Hp1). set (s1 := { wcons (world k) with serial_in := _; scancodes := _; ConsoleDev.shift := _ }) in *.
    rewrite (on_cons_then _ _ _ _ _ k Eg), (proj2 (Z.leb_le 0 c)) by (done || lia).
    assert (editing s1) as Hed1 by (destruct Hed as [[? ? ? ? ? [] ?] ?]; split; [split; try done; by split|done]).
    destruct (console_char_ok s1 (with_cons s1 k) cp p hs eq_refl Hed1 Hon Hnin Hhs Hpt c Hc) as (s2 & m2 & E2 & Hon2 & Ha2 & Hl2).
    rewrite (bind_ok _ _ _ _ _ E2). match goal with |- context [consoleintr_loop _ _ fuel ?st] => set (k2 := st) end.
    assert (length (ptable k2) = NPROC) as Hpt2 by (cbn; unfold woken; case_match; by rewrite ?length_fmap).
    destruct (IH k2 (d || (c =? C 80)) fuel) as (k' & E' & (s' & m' & -> & Hed' & Est) & Hon'); try done.
    { rewrite <- Hp1. apply (in_frame s1). apply Ha2. }
    { split; [apply Ha2|done]. }
    { cbn in Hf. lia. }
    assert ((completed s2, edited s2) = press (completed s1, edited s1) c) as E12.
    { rewrite (act_done _ _ _ Ha2), (act_edit _ _ _ Ha2). by destruct (press _ c). }
    change (wcons (world k2)) with s2 in *. rewrite E12 in *.
    eexists. split_and!; [|exists s', m'|].
    + rewrite E'. cbn [existsb]. by rewrite (Z.eqb_sym (C 80) c), orb_assoc.
    + split; [|done]. rewrite <- (woken_step _ c cs). done.
    + done.
Qed.

Lemma consoleintr_ok procdump getc pending `{Input getc pending} cs (k : K) cp p hs fuel :
  pending (wcons (world k)) = cs -> editing (wcons (world k)) ->
  on (mach k) cp p hs -> lk_ptable ∉ hs -> lk_cons ∉ hs -> (length hs < 99)%nat -> length (ptable k) = NPROC ->
  (length cs < fuel)%nat ->
  exists k', consoleintr procdump getc fuel k = when (existsb (Z.eqb (C 80)) cs) procdump k'
    /\ handled k k' cs /\ on (mach k') cp p hs.
Proof.
  intros Hp Hed Hon Hnin Hnin' Hhs Hpt Hf. unfold consoleintr.
  destruct (kacquire_ok k cp p hs lk_cons Hon Hnin' ltac:(lia)) as (m1 & H1 & Hon1). mstep H1.
  destruct (intr_loop_ok getc pending cs { k with mach := m1 } cp p (lk_cons :: hs) false fuel)
    as (k2 & E2 & (s2 & m2 & -> & Hed2 & Est2) & Hon2); try done.
  { by apply not_elem_of_cons. }
  { cbn. lia. }
  rewrite (bind_ok _ _ _ _ _ E2). mstate ltac:(fun st => destruct (krelease_ok st cp p [] hs lk_cons Hon2) as (m3 & H3 & Hon3)).
  mstep H3. eexists. split; [reflexivity|]. split; [|done]. by exists s2, m3.
Qed.
End Interrupt.

(** ** Reading *)
Section Read.
Context {S : Type} `{BlockStore S}.
#[local] Abbreviation K := (kernel (World S)).

Lemma served_next n c rest : served (Datatypes.S n) (c :: rest) -> c <> NEWLINE -> c <> C 68 -> served n rest.
Proof.
  unfold served. cbn [length]. rewrite !elem_of_cons. intros [?|[[->|?]|[->|?]]] ??; try done; [left; lia|by right; left|by right; right].
Qed.

(** A character that was taken can be put back. *)
Lemma put_back s : console_ok s -> { taken s with ir := u32 (ir (taken s) - 1) } = s.
Proof.
  intros [_ Hr _ _ _ _ _]. unfold taken. cbn. rewrite u32_sub_l. replace (ir s + 1 - 1) with (ir s) by lia.
  rewrite u32_small by done. by destruct s.
Qed.

Lemma wait_input_ok fuel s (k : K) :
  wcons (world k) = s -> console_ok s -> (0 < n_done s)%nat -> (0 < fuel)%nat -> wait_input fuel k = Ok true k.
Proof.
  intros Hs Hok Hn Hf. destruct fuel as [|fuel]; [lia|]. cbn [wait_input].
  by rewrite (getcons_then _ s k Hs), done_empty, (proj2 (Nat.eqb_neq _ _)) by (done || lia).
Qed.

Lemma consoleread_loop_ok target n fuel s (k : K) :
  wcons (world k) = s -> console_ok s -> served n (completed s) -> (n <= target)%nat -> (0 < fuel)%nat ->
  let r := read_line n (negb (n <? target)%nat) (completed s) in
  exists s', consoleread_loop target n fuel k = Ok (r.1, true) (with_cons s' k)
    /\ console_ok s' /\ completed s' = r.2 /\ edited s' = edited s.
Proof.
  revert s k. induction n as [|n IH]; intros s k Hs Hok Hsv Hn Hf r; cbn [consoleread_loop].
  - exists s. split_and!; try done. by rewrite <- Hs, with_cons_same.
  - assert (0 < n_done s)%nat as Hpos.
    { rewrite <- length_completed. destruct (completed s) eqn:E; [|cbn; lia].
      destruct Hsv as [?|[?|?]]; [cbn in *; lia|by apply elem_of_nil in H0..]. }
    destruct (taken_ok s Hok Hpos) as (Hok1 & He1 & Hd1). set (c := ibuf s !!! _) in *.
    rewrite (bind_ok _ _ _ _ _ (wait_input_ok fuel s k Hs Hok Hpos Hf)), (getcons_then _ s k Hs). cbv zeta. fold c.
    rewrite (setcons_then _ _ s k Hs). unfold r. rewrite Hd1. cbn [read_line].
    destruct (Z.eqb_spec c (C 68)) as [Ec|Ec]; [|destruct (Z.eqb_spec c NEWLINE) as [Ec'|Ec']].
    + destruct (Datatypes.S n <? target)%nat; cbn [negb when].
      * exists s. rewrite <- Hd1. split_and!; try done. rewrite (setcons_then _ _ (taken s)) by done.
        rewrite with_cons_twice. by rewrite put_back.
      * exists (taken s). done.
    + by exists (taken s).
    + destruct (IH (taken s) (with_cons (taken s) k)) as (s' & E' & Hok' & Hd' & He'); try done.
      { rewrite Hd1 in Hsv. by apply (served_next n c). }
      { lia. }
      rewrite (proj2 (Nat.ltb_lt n target)) in * by lia. cbn [negb] in *.
      exists s'. rewrite (bind_ok _ _ _ _ _ E'). destruct (read_line n false (completed (taken s))). cbn in *.
      by rewrite He'.
Qed.

Lemma consoleread_ok ip n fuel (k : K) f1 f2 cp p :
  on (mach k) cp p [] -> console_ok (wcons (world k)) ->
  iunlock ip (wfs (world k)) = Ok tt f1 -> ilock ip f1 = Ok tt f2 ->
  served (Z.to_nat n) (completed (wcons (world k))) -> (0 < fuel)%nat ->
  let r := read_line (Z.to_nat n) true (completed (wcons (world k))) in
  exists s' m', consoleread ip n fuel k
    = Ok (Z.of_nat (length r.1), r.1) { with_cons s' (upd_world (fun w => { w with wfs := f2 }) k) with mach := m' }
    /\ on m' cp p [] /\ console_ok s' /\ completed s' = r.2 /\ edited s' = edited (wcons (world k)).
Proof.
  intros Hon Hok Hu Hl Hsv Hf r. unfold consoleread. mstep (on_fs_ok _ k _ _ Hu).
  mstate ltac:(fun st => destruct (kacquire_ok st cp p [] lk_cons Hon ltac:(set_solver) ltac:(cbn; lia)) as (m1 & H1 & Hon1)).
  mstep H1.
  mstate ltac:(fun st => destruct (consoleread_loop_ok (Z.to_nat n) (Z.to_nat n) fuel (wcons (world k)) st) as (s' & E' & Hok' & Hd' & He'));
    try done.
  rewrite Nat.ltb_irrefl in *. cbn [negb] in *. fold r in E', Hd'. rewrite (bind_ok _ _ _ _ _ E').
  mstate ltac:(fun st => destruct (krelease_ok st cp p [] [] lk_cons Hon1) as (m2 & H2 & Hon2)). mstep H2.
  mstate ltac:(fun st => mstep (on_fs_ok (ilock ip) st tt f2 Hl)).
  exists s', m2. done.
Qed.
End Read.

(** C22: typing on the keyboard and then reading the console.  The interrupt
    handler turns the scan codes into characters and edits the line with them:
    backspace erases a character, control-U the line, and end of line or
    control-D completes it, which wakes up the readers; nothing is lost or
    reordered also when the counters of the buffer wrap around.  Reading [n]
    characters then returns the first line, or its first [n] characters, and
    leaves the rest; control-D ends the line and is not part of it. *)
Theorem typing_then_reading {S} `{BlockStore S} procdump ip n fuel (k : kernel (World S)) f1 f2 cp p :
  let s := wcons (world k) in
  let cs := kbd_chars (ConsoleDev.shift s) (scancodes s) in
  let st := foldl press (completed s, edited s) cs in
  let r := read_line (Z.to_nat n) true st.1 in
  on (mach k) cp p [] -> length (ptable k) = NPROC -> editing s ->
  iunlock ip (wfs (world k)) = Ok tt f1 -> ilock ip f1 = Ok tt f2 ->
  C 80 ∉ cs -> served (Z.to_nat n) st.1 -> (0 < fuel)%nat ->
  exists k1 k2, kbdintr procdump k = Ok tt k1
    /\ ptable k1 = (if (length (completed s) <? length st.1)%nat then wake ch_input <$> ptable k else ptable k)
    /\ consoleread ip n fuel k1 = Ok (Z.of_nat (length r.1), r.1) k2
    /\ completed (wcons (world k2)) = r.2 /\ edited (wcons (world k2)) = st.2 /\ ptable k2 = ptable k1.
Proof.
  intros s cs st r Hon Hpt Hed Hu Hl HP Hsv Hf. unfold kbdintr.
  assert (length cs = length (scancodes s)) as Hlen by apply length_kbd_chars.
  destruct (consoleintr_ok procdump kbdgetc kbd_pending cs k cp p [] (Datatypes.S (length (scancodes s))))
    as (k1 & E1 & (s1 & m1 & -> & Hed1 & Est) & Hon1); try done; try set_solver; try (cbn; lia).
  assert (existsb (Z.eqb (C 80)) cs = false) as Ex.
  { apply not_true_iff_false. intros (x & Hx & Ec%Z.eqb_eq)%existsb_exists. apply HP. rewrite Ec. by apply list_elem_of_In. }
  rewrite Ex in E1. rewrite (getcons_then _ s k eq_refl).
  assert (completed s1 = st.1) as Ec1 by (by apply (f_equal fst) in Est).
  assert (edited s1 = st.2) as Ee1 by (by apply (f_equal snd) in Est).
  match type of E1 with _ = when false _ ?k1 => set (k1' := k1) in * end.
  destruct (consoleread_ok ip n fuel k1' f1 f2 cp p) as (s2 & m2 & E2 & _ & _ & Hd2 & He2); try done.
  { apply Hed1. }
  { change (wcons (world k1')) with s1. by rewrite Ec1. }
  change (wcons (world k1')) with s1 in *. rewrite Ec1 in *. rewrite Ee1 in *. eexists k1', _. split; [exact E1|]. split; [done|]. split; [exact E2|]. done.
Qed.
