(* ===== verification/ConsoleWitness.v ===== *)
(** * Concrete consoles for the theorems on the console *)

From S2P Require Import Prelude CString Kalloc Double Spinlock ProcState Sched SchedWitness Sleep Bio Log BlockStore Fs ConsoleDev Kernel ProcWitness Console ConsoleTheory.
Open Scope Z_scope.

(** The last cell of the last row. *)
Lemma cgaputc_shows_witness :
  let s := { blank_console with crt14 := 7; crt15 := 127 } in
  exists s', cgaputc 65 s = Ok tt s'
    /\ (exists h l m', s' = { s with crt14 := h; crt15 := l; crt := m' })
    /\ display_ok s' /\ shown s' = scrolled (typed 65 s) /\ crt s' (cursor s') = Z.lor 32 ATTR.
Proof. intros s. apply (cgaputc_shows 65 s). split; vm_compute; done || lia. Defined.

(** The file system is not used, but for the lock of the console's inode. *)
#[local] Instance no_store : BlockStore unit := {|
  st_bread := fun _ _ => blocked; st_data := fun _ => blocked; st_set := fun _ _ => blocked;
  st_log_write := fun _ => blocked;
  st_brelse := fun _ => blocked; st_begin_op := blocked; st_end_op := blocked |}.

(** The keys h, i, backspace, shift and o, enter; the counters of the buffer are
    about to wrap around. *)
Definition typed_console : console :=
  { blank_console with scancodes := [35; 23; 14; 42; 24; 170; 28];
                       ir := 2 ^ 32 - 1; iw := 2 ^ 32 - 1; ie := 2 ^ 32 - 1 }.

Definition console_inode : inode := mk_inode 1 7 1 1 1 3 1 1 1 0 [].
Definition console_world : World unit :=
  { (world_of (mk_kmem (fun _ => 0) 1 0) ∅) with wfs := mk_fsys tt no_sb [console_inode]; wcons := typed_console }.

Lemma typing_then_reading_witness :
  let k := kernel_of (machine_at (Some 1%nat) []) sleepers console_world in
  exists k1 k2, kbdintr (mret tt) k = Ok tt k1
    /\ ptable k1 = wake ch_input <$> ptable k
    /\ consoleread 0 100 1 k1 = Ok (3, [104; 79; 10]) k2
    /\ completed (wcons (world k2)) = [] /\ edited (wcons (world k2)) = [] /\ ptable k2 = ptable k1.
Proof.
  intros k.
  apply (typing_then_reading (mret tt) 0 100 1 k (mk_fsys tt no_sb [{ console_inode with i_lock := 0 }])
           (mk_fsys tt no_sb [console_inode]) 0 (Some 1%nat)).
  - apply on_machine_at; [apply NoDup_nil_2|cbn; lia].
  - reflexivity.
  - split; [split; try (vm_compute; done || lia)|by apply not_elem_of_nil].
  - reflexivity.
  - reflexivity.
  - apply (bool_decide_unpack _). vm_compute. exact I.
  - right. left. apply (bool_decide_unpack _). vm_compute. exact I.
  - lia.
Defined.
