(* ===== verification/File.v ===== *)
(** * Open files

    Models file.c, and [pipealloc] of pipe.c.  The sections under
    [ftable.lock] are single steps.  The bytes of user buffers are passed and
    returned as lists; [fuel] bounds how often a process that sleeps on a pipe
    is woken up in vain, as in Pipe.v. *)

From S2P Require Import Prelude CString Kalloc Double Spinlock ProcState Sched Sleep Bio Log BlockStore Fs Kernel Pipe.
Open Scope Z_scope.

Section File.
Context {S : Type} `{Linker, BlockStore S, Devsw S}.
#[local] Abbreviation K := (kernel (World S)).

Definition begin_op : M K unit := on_fs (on_store st_begin_op).
Definition end_op : M K unit := on_fs (on_store st_end_op).

Definition filealloc : M K (option nat) :=
  for_loop (seq 0 NFILE) (fun f =>
    x ← getf f;
    if f_ref x =? 0 then
      setf f (fun x => { x with f_ref := 1 });;
      mret (Some f)
    else mret None).

Definition filedup (f : nat) : M K nat :=
  x ← getf f;
  if f_ref x <? 1 then panic "filedup"
  else
    setf f (fun x => { x with f_ref := s32 (f_ref x + 1) });;
    mret f.

Definition fileclose (f : nat) : M K unit :=
  x ← getf f;
  if f_ref x <? 1 then panic "fileclose"
  else
    setf f (fun x => { x with f_ref := s32 (f_ref x - 1) });;
    ff ← getf f;
    if 0 <? f_ref ff then mret tt
    else
      setf f (fun x => { x with f_ref := 0; f_type := FD_NONE });;
      match f_type ff with
      | FD_PIPE => pipeclose (f_pipe ff) (ctrue (writable ff))
      | FD_INODE =>
          begin_op;;
          ip ← deref (f_ip ff);
          on_fs (iput ip);;
          end_op
      | FD_NONE => mret tt
      end.

(** The [struct stat] filled in, when the result is 0. *)
Definition filestat (f : nat) : M K (Z * option stat) :=
  x ← getf f;
  match f_type x with
  | FD_INODE =>
      ip ← deref (f_ip x);
      on_fs (ilock ip);;
      st ← on_fs (stati ip);
      on_fs (iunlock ip);;
      mret (0, Some st)
  | _ => mret (-1, None)
  end.

(** Returns the result and the bytes stored at [addr]. *)
Definition fileread (f : nat) (n : Z) (fuel : nat) : M K (Z * list Z) :=
  x ← getf f;
  if readable x =? 0 then mret (-1, [])
  else
    match f_type x with
    | FD_PIPE => piperead (f_pipe x) n fuel
    | FD_INODE =>
        ip ← deref (f_ip x);
        on_fs (ilock ip);;
        '(r, bs) ← on_fs (readi ip (f_off x) (u32 n));
        when (0 <? r) (setf f (fun x => { x with f_off := u32 (f_off x + r) }));;
        on_fs (iunlock ip);;
        mret (r, bs)
    | FD_NONE => panic "fileread"
    end.

(** [int max = ((MAXOPBLOCKS-1-1-2) / 2) * 512] *)
Definition max_write : Z := Z.quot (MAXOPBLOCKS - 1 - 1 - 2) 2 * 512.

(** One round of the loop of [filewrite]: a transaction that writes [bs] at the
    offset of the file. *)
Definition write_round (f : nat) (bs : list Z) (n1 : Z) : M K Z :=
  begin_op;;
  x ← getf f;
  ip ← deref (f_ip x);
  on_fs (ilock ip);;
  r ← on_fs (writei ip bs (f_off x) (u32 n1));
  when (0 <? r) (setf f (fun x => { x with f_off := u32 (f_off x + r) }));;
  on_fs (iunlock ip);;
  end_op;;
  mret r.

(** The loop of [filewrite], with [i] bytes written; returns the final [i]. *)
Fixpoint filewrite_loop (f : nat) (addr : list Z) (i n : Z) (fuel : nat) : M K Z :=
  match fuel with
  | O => no_fuel
  | Datatypes.S fuel =>
      if i <? n then
        let n1 := if max_write <? n - i then max_write else n - i in
        r ← write_round f (drop (Z.to_nat i) addr) n1;
        if r <? 0 then mret i
        else if negb (r =? n1) then panic "short filewrite"
        else filewrite_loop f addr (i + r) n fuel
      else mret i
  end.

(** Every round but the last writes [max_write] bytes. *)
Definition write_fuel (n : Z) : nat := Z.to_nat (n / max_write) + 2.

Definition filewrite (f : nat) (addr : list Z) (n : Z) (fuel : nat) : M K Z :=
  x ← getf f;
  if writable x =? 0 then mret (-1)
  else
    match f_type x with
    | FD_PIPE => pipewrite (f_pipe x) addr n fuel
    | FD_INODE =>
        i ← filewrite_loop f addr 0 n (write_fuel n);
        mret (if i =? n then n else -1)
    | FD_NONE => panic "filewrite"
    end.

(** The same with an offset of the caller, which the loop does not advance. *)
Definition pwrite_round (f : nat) (bs : list Z) (n1 off : Z) : M K Z :=
  begin_op;;
  x ← getf f;
  ip ← deref (f_ip x);
  on_fs (ilock ip);;
  r ← on_fs (writei ip bs (u32 off) (u32 n1));
  on_fs (iunlock ip);;
  end_op;;
  mret r.

Fixpoint pfilewrite_loop (f : nat) (addr : list Z) (i n off : Z) (fuel : nat) : M K Z :=
  match fuel with
  | O => no_fuel
  | Datatypes.S fuel =>
      if i <? n then
        let n1 := if max_write <? n - i then max_write else n - i in
        r ← pwrite_round f (drop (Z.to_nat i) addr) n1 off;
        if r <? 0 then mret i
        else if negb (r =? n1) then panic "short filewrite"
        else pfilewrite_loop f addr (i + r) n off fuel
      else mret i
  end.

Definition pfilewrite (f : nat) (addr : list Z) (n off : Z) (fuel : nat) : M K Z :=
  x ← getf f;
  if writable x =? 0 then mret (-1)
  else
    match f_type x with
    | FD_PIPE => pipewrite (f_pipe x) addr n fuel
    | FD_INODE =>
        i ← pfilewrite_loop f addr 0 n off (write_fuel n);
        mret (if i =? n then n else -1)
    | FD_NONE => panic "filewrite"
    end.

Definition pfileread (f : nat) (n off : Z) (fuel : nat) : M K (Z * list Z) :=
  x ← getf f;
  if readable x =? 0 then mret (-1, [])
  else
    match f_type x with
    | FD_PIPE => piperead (f_pipe x) n fuel
    | FD_INODE =>
        ip ← deref (f_ip x);
        on_fs (ilock ip);;
        '(r, bs) ← on_fs (readi ip (u32 off) (u32 n));
        on_fs (iunlock ip);;
        mret (r, bs)
    | FD_NONE => panic "fileread"
    end.

(** [bad:] of [pipealloc], with the files allocated so far *)
Definition pipe_bad (f0 f1 : option nat) : M K (option (nat * nat)) :=
  match f0 with Some f => fileclose f | None => mret tt end;;
  match f1 with Some f => fileclose f | None => mret tt end;;
  mret None.

(** The read end and the write end; [None] is the result -1. *)
Definition pipealloc : M K (option (nat * nat)) :=
  f0 ← filealloc;
  match f0 with
  | None => pipe_bad None None
  | Some r =>
      f1 ← filealloc;
      match f1 with
      | None => pipe_bad f0 None
      | Some w =>
          p ← on_mem kalloc;
          if p =? 0 then pipe_bad f0 f1
          else
            modify (fun k => upd_world (fun t => { t with pipes ::=
              <[p := mk_pipe (bytes_at (kmemory (wmem t)) (pipe_data p) PIPESIZE) 0 0 1 1]> }) k);;
            on_mach (initlock (lk_pipe p));;
            setf r (fun x => { x with f_type := FD_PIPE; readable := 1; writable := 0; f_pipe := p });;
            setf w (fun x => { x with f_type := FD_PIPE; readable := 0; writable := 1; f_pipe := p });;
            mret (Some (r, w))
      end
  end.
End File.
