(* ===== verification/Proc.v ===== *)
(** * Life of a process

    Models the operations of proc.c that create, end and reap processes and
    threads: [allocproc], [userinit], [growproc], [fork], [thread_create],
    [exit], [thread_exit], [killsamepid], [wait], [thread_join] and [forkret].
    They run over the whole kernel state of Kernel.v.  The trap frame of a process
    is a field of its slot; a fresh one holds what the kernel stack page held.
    Stores through a pointer of the user go through the page table.  [fuel]
    bounds how often a parent that waits is woken up in vain. *)

From S2P Require Import Prelude CString Kalloc Vm Double Spinlock ProcState Sched Sleep Bio Log BlockStore Fs Kernel Pipe File.
Open Scope Z_scope.

Definition SEG_UCODE : Z := 3.
Definition SEG_UDATA : Z := 4.
Definition DPL_USER : Z := 3.
Definition FL_IF : Z := 0x200.

Definition TFSIZE : Z := 76.                (* sizeof(struct trapframe) *)
Definition CTXSIZE : Z := 20.               (* sizeof(struct context) *)

(** The trap frame stored at [a]. *)
Definition trapframe_at (m : mem) (a : Z) : trapframe :=
  let w i := load32 m (a + 4 * i) in
  mk_trapframe (w 0) (w 1) (w 2) (w 3) (w 4) (w 5) (w 6) (w 7)
    (u16 (w 8)) (u16 (w 9)) (u16 (w 10)) (u16 (w 11)) (w 12)
    (w 13) (w 14) (u16 (w 15)) (w 16) (w 17) (u16 (w 18)).

(** [safestrcpy(s, t, sizeof(s))] on arrays: at most [length s - 1] bytes of the
    string [t], then a 0; what follows it in [s] stays. *)
Fixpoint cstring (t : list Z) (n : nat) : list Z :=
  match n, t with
  | Datatypes.S n, c :: t => if c =? 0 then [] else c :: cstring t n
  | _, _ => []
  end.
Definition safestrcpy_list (s t : list Z) : list Z :=
  let c := cstring t (length s - 1) in
  c ++ [0] ++ drop (length c + 1) s.

(** The resets [killsamepid], [wait] and [thread_join] share. *)
Definition reset_sched (p : proc) : proc :=
  { p with pass := f64_of_Z 0; stride := f64_of_Z 0; share := f64_of_Z 0;
           pticks := 0; ptotalticks := 0; priority := 0; isMLFQ := 0; tid := 0 }.
Definition reset_slot (p : proc) : proc :=
  { p with pid := 0; parent := None; pname ::= <[0%nat := 0]>; killed := 0; state := UNUSED }.

Section Proc.
Context {S : Type} `{Linker, BlockStore S, Devsw S}.
#[local] Abbreviation K := (kernel (World S)).

Definition pinit : M K unit := on_mach (initlock lk_ptable).

(** vm.c: the kernel page table *)
Definition kvmalloc : M K unit :=
  pd ← on_mem setupkvm;
  modify (fun k => { k with kpgdir := pd });;
  switchkvm.

(** The first unused entry of the thread table becomes the tid of [p]. *)
Definition alloc_tid (p : nat) : M K (option unit) :=
  for_loop slots (fun index =>
    k ← get;
    t ← deref (ttable k !! index);
    if bool_decide (tstate t = UNUSED) then
      setp p (fun q => { q with tid := Z.of_nat index });;
      modify (fun k => { k with ttable ::= <[index := mk_tident (Z.of_nat index) EMBRYO]> });;
      mret (Some tt)
    else mret None).

Definition allocproc : M K (option nat) :=
  kacquire lk_ptable;;
  found ← for_loop slots (fun i =>
    p ← getp i;
    mret (if bool_decide (state p = UNUSED) then Some i else None));
  match found with
  | None => krelease lk_ptable;; mret None
  | Some p =>
      k ← get;
      setp p (fun q => { q with state := EMBRYO; pid := nextpid k });;
      modify (fun k => { k with nextpid := s32 (nextpid k + 1) });;
      setp p (fun q => { q with isMLFQ := 1; pticks := 0; ptotalticks := 0; priority := 0;
                                share := f64_of_Z 0; stride := f64_of_Z 0; pass := f64_of_Z 0;
                                isThread := 0; tid := 0 });;
      kacquire lk_ttable;;
      alloc_tid p;;
      krelease lk_ttable;;
      setp p (fun q => { q with isMainThread := 1; cntThread := 1 });;
      krelease lk_ptable;;
      (* Allocate kernel stack. *)
      stack ← on_mem kalloc;
      setp p (fun q => { q with kstack := stack });;
      if stack =? 0 then
        setp p (fun q => { q with state := UNUSED });;
        mret None
      else
        let sp := stack + KSTACKSIZE - TFSIZE in
        k ← get;
        setp p (fun q => { q with tf := trapframe_at (kmemory (wmem (world k))) sp });;
        on_mem (store (sp - 4) ktrapret);;
        setp p (fun q => { q with ctx := mk_context 0 0 0 0 kforkret });;
        mret (Some p)
  end.

(** [namei] and [nameiparent] start relative paths at the working directory of
    the current process. *)
Definition start_dir (path : list Z) : M K nat :=
  if hd 0 path =? SLASH then mret 0%nat
  else
    p ← curproc;
    pr ← getp p;
    deref (cwd pr).
Definition namei_cur (path : list Z) : M K (option nat) :=
  d ← start_dir path;
  on_fs (namei d path).
Definition nameiparent_cur (path name : list Z) : M K (option (nat * list Z)) :=
  d ← start_dir path;
  on_fs (nameiparent d path name).

(** [init] is the binary of initcode.S. *)
Definition userinit (init : list Z) : M K unit :=
  op ← allocproc;
  modify (fun k => { k with initproc := op });;
  p ← deref op;
  pd ← on_mem setupkvm;
  setp p (fun q => { q with pgdir := pd });;
  if pd =? 0 then panic "userinit: out of memory?"
  else
    on_mem (inituvm pd init);;
    let ucode := Z.lor (Z.shiftl SEG_UCODE 3) DPL_USER in
    let udata := Z.lor (Z.shiftl SEG_UDATA 3) DPL_USER in
    setp p (fun q => { q with sz := PGSIZE;
      tf := { zero_trapframe with cs := ucode; ds := udata; es := udata; ss := udata;
                eflags := FL_IF; esp := PGSIZE; eip := 0 };
      pname ::= fun n => safestrcpy_list n [105; 110; 105; 116; 99; 111; 100; 101] });;
    d ← on_fs (namei 0 [SLASH]);
    setp p (fun q => { q with cwd := d });;
    kacquire lk_ptable;;
    setp p (fun q => { q with state := RUNNABLE });;
    krelease lk_ptable.

Definition growproc (n : Z) : M K Z :=
  c ← curproc;
  cp ← getp c;
  sz' ← (if 0 <? n then on_mem (allocuvm (pgdir cp) (sz cp) (u32 (sz cp + n)))
         else if n <? 0 then on_mem (deallocuvm (pgdir cp) (sz cp) (u32 (sz cp + n)))
         else mret (sz cp));
  if negb (n =? 0) && (sz' =? 0) then mret (-1)
  else
    (* updates the size of the processes with the same pid *)
    kacquire lk_ptable;;
    for_each slots (fun p =>
      if bool_decide (p = c) then mret tt
      else
        pr ← getp p;
        cp ← getp c;
        when (pid pr =? pid cp) (setp p (fun q => { q with sz := u32 (sz q + n) })));;
    krelease lk_ptable;;
    setp c (fun q => { q with sz := sz' });;
    switchuvm (Some c);;
    mret 0.

(** [for(i = 0; i < NOFILE; i++) if(curproc->ofile[i]) np->ofile[i] = filedup(...)],
    the working directory and the name *)
Definition inherit_files (np c : nat) : M K unit :=
  for_each (seq 0 NOFILE) (fun i =>
    cp ← getp c;
    o ← deref (ofile cp !! i);
    match o with
    | Some f => f' ← filedup f; setp np (fun q => { q with ofile ::= <[i := Some f']> })
    | None => mret tt
    end);;
  cp ← getp c;
  d ← deref (cwd cp);
  d' ← on_fs (idup d);
  setp np (fun q => { q with cwd := Some d'; pname ::= fun n => safestrcpy_list n (pname cp) }).

(** The rest of [fork], once a slot has been allocated. *)
Definition fork_child (np c : nat) : M K Z :=
  cp ← getp c;
  pd ← on_mem (copyuvm (pgdir cp) (sz cp));
  setp np (fun q => { q with pgdir := pd });;
  if pd =? 0 then
    q ← getp np;
    on_mem (kfree (kstack q));;
    setp np (fun q => { q with kstack := 0; state := UNUSED });;
    mret (-1)
  else
    cp ← getp c;
    (* Clear %eax so that fork returns 0 in the child. *)
    setp np (fun q => { q with sz := sz cp; usz := usz cp; parent := Some c;
                               tf := { (tf cp) with eax := 0 } });;
    inherit_files np c;;
    q ← getp np;
    kacquire lk_ptable;;
    setp np (fun q => { q with state := RUNNABLE });;
    krelease lk_ptable;;
    mret (pid q).

Definition fork : M K Z :=
  c ← curproc;
  onp ← allocproc;
  match onp with
  | None => mret (-1)
  | Some np => fork_child np c
  end.

(** [*thread] is a [thread_t], an int, at a user address. *)
Definition thread_create (thread start_routine arg : Z) : M K Z :=
  c ← curproc;
  tmp ← findMinPass;
  cp ← getp c;
  if ctrue (isThread cp) then mret (-1)
  else
    onp ← allocproc;
    match onp with
    | None => mret (-1)
    | Some np =>
        setp np (fun q => { q with pid := pid cp });;
        setp c (fun q => { q with cntThread := s32 (cntThread q + 1) });;
        cp ← getp c;
        when (isMLFQ cp =? 0)
          (kacquire lk_ptable;;
           for_each slots (fun p =>
             pr ← getp p;
             cp ← getp c;
             when (pid pr =? pid cp)
               (setp p (fun q => { q with isMLFQ := 0;
                  share := f64_div (f64_of_Z (totalshare cp)) (f64_of_Z (cntThread cp)) });;
                setp p (fun q => { q with stride := f64_div (f64_of_Z STRIDENUM) (share q) });;
                t ← deref tmp;
                tp ← getp t;
                setp p (fun q => { q with pass := pass tp })));;
           krelease lk_ptable);;
        setp np (fun q => { q with isThread := 1; isMainThread := 0 });;
        cp ← getp c;
        setp np (fun q => { q with pgdir := pgdir cp; parent := Some c;
                                   tf := { (tf cp) with eax := 0 } });;
        inherit_files np c;;
        cp ← getp c;
        q ← getp np;
        let sz' := u32 (usz cp + tid q * 2 * PGSIZE) in
        let sp := u32 (sz' - 8) in
        (* fake return PC and the argument of start_routine *)
        r ← on_mem (copyout (pgdir q) sp (le_bytes 4 0xffffffff ++ le_bytes 4 (u32 arg)));
        if r <? 0 then
          setp np (fun q => { q with state := UNUSED; kstack := 0 });;
          modify (fun k => { k with nexttid := s32 (nexttid k - 1) });;
          mret (-1)
        else
          cp ← getp c;
          setp np (fun q => { q with tf := { (tf cp) with esp := sp; eip := u32 start_routine };
                                     usz := sz'; sz := sz cp });;
          setp np (fun q => { q with state := RUNNABLE });;
          q ← getp np;
          on_mem (ustore_bytes (pgdir cp) (u32 thread) (le_bytes 4 (u32 (tid q))));;
          mret 0
    end.

(** Close all open files of the slot [p], and drop its working directory. *)
Definition drop_files (p : nat) : M K unit :=
  for_each (seq 0 NOFILE) (fun fd =>
    pr ← getp p;
    o ← deref (ofile pr !! fd);
    match o with
    | Some f => fileclose f;; setp p (fun q => { q with ofile ::= <[fd := None]> })
    | None => mret tt
    end);;
  begin_op;;
  pr ← getp p;
  d ← deref (cwd pr);
  on_fs (iput d);;
  end_op;;
  setp p (fun q => { q with cwd := None }).

(** Pass abandoned children to init. *)
Definition abandon_children (c : nat) : M K unit :=
  for_each slots (fun p =>
    pr ← getp p;
    when (bool_decide (parent pr = Some c))
      (k ← get;
       setp p (fun q => { q with parent := initproc k });;
       when (bool_decide (state pr = ZOMBIE)) (wakeup1 (chan_of (initproc k))))).

Definition exit : M K unit :=
  c ← curproc;
  k ← get;
  if bool_decide (Some c = initproc k) then panic "init exiting"
  else
    drop_files c;;
    (* the threads with the same pid *)
    for_each slots (fun p =>
      pr ← getp p;
      cp ← getp c;
      when ((pid pr =? pid cp) && negb (bool_decide (p = c)))
        (drop_files p;; setp p (fun q => { q with state := ZOMBIE })));;
    setp c (fun q => { q with state := ZOMBIE });;
    kacquire lk_ptable;;
    (* Parent might be sleeping in wait(). *)
    cp ← getp c;
    (if ctrue (isThread cp) then
       q ← deref (parent cp);
       qp ← getp q;
       wakeup1 (chan_of (parent qp))
     else wakeup1 (chan_of (parent cp)));;
    abandon_children c;;
    (* Jump into the scheduler, never to return. *)
    sched;;
    panic "zombie exit".

Definition thread_exit (rv : Z) : M K unit :=
  c ← curproc;
  k ← get;
  if bool_decide (Some c = initproc k) then panic "init exiting"
  else
    drop_files c;;
    kacquire lk_ptable;;
    setp c (fun q => { q with retval := s32 rv });;
    cp ← getp c;
    (* Parent might be sleeping in thread_join(). *)
    wakeup1 (chan_of (parent cp));;
    abandon_children c;;
    setp c (fun q => { q with state := ZOMBIE });;
    sched;;
    panic "zombie exit".

(** Frees the zombie threads of a process; the main thread stays. *)
Definition killsamepid (pd : Z) : M K Z :=
  for_each slots (fun p =>
    pr ← getp p;
    if negb (pid pr =? pd) then mret tt
    else if ctrue (isMainThread pr) then mret tt
    else
      when (bool_decide (state pr = ZOMBIE))
        (set_tstate (tid pr) UNUSED;;
         setp p reset_sched;;
         on_mem (kfree (kstack pr));;
         setp p (fun q => { q with kstack := 0 });;
         setp p reset_slot));;
  mret 0.

(** [wait] reaps the zombie child [p], and returns its pid. *)
Definition reap (p : nat) : M K Z :=
  pr ← getp p;
  set_tstate (tid pr) UNUSED;;
  when (isMLFQ pr =? 0)
    (modify (fun k => { k with leftShare := f64_add (leftShare k) (f64_of_Z (totalshare pr)) });;
     modify (fun k => { k with MLFQStrideVal := f64_div (f64_of_Z STRIDENUM) (leftShare k) }));;
  setp p (fun q => { q with totalshare := 0 });;
  setp p reset_sched;;
  on_mem (kfree (kstack pr));;
  setp p (fun q => { q with kstack := 0 });;
  when (ctrue (isMainThread pr)) (on_mem (freevm (pgdir pr)));;
  setp p reset_slot;;
  mret (pid pr).

(** One scan of the table for an exited child: its pid if one was reaped, and
    [havekids]. *)
Fixpoint wait_scan (c : nat) (l : list nat) (havekids : bool) : M K (option Z * bool) :=
  match l with
  | [] => mret (None, havekids)
  | p :: l =>
      pr ← getp p;
      if negb (bool_decide (parent pr = Some c)) then wait_scan c l havekids
      else if ctrue (isThereExec pr) then
        setp p (fun q => { q with isThereExec := 0 });;
        wait_scan c l havekids
      else if bool_decide (state pr = ZOMBIE) then
        r ← killsamepid (pid pr);
        if negb (r =? 0) then panic "killsamepid error"
        else
          pr ← getp p;
          if ctrue (isThread pr) && negb (ctrue (isMainThread pr)) then wait_scan c l true
          else pd ← reap p; mret (Some pd, true)
      else wait_scan c l true
  end.

Fixpoint wait_loop (c : nat) (fuel : nat) : M K Z :=
  match fuel with
  | O => no_fuel
  | Datatypes.S fuel =>
      '(r, havekids) ← wait_scan c slots false;
      match r with
      | Some pd => krelease lk_ptable;; mret pd
      | None =>
          cp ← getp c;
          if negb havekids || ctrue (killed cp) then krelease lk_ptable;; mret (-1)
          else
            sleep (ch_proc c) (Some lk_ptable);;
            wait_loop c fuel
      end
  end.

Definition wait (fuel : nat) : M K Z :=
  c ← curproc;
  kacquire lk_ptable;;
  wait_loop c fuel.

(** [while(p->state != ZOMBIE && p->pid == curproc->pid && p->tid == thread) sleep(...)] *)
Fixpoint join_wait (c p : nat) (thread : Z) (fuel : nat) : M K unit :=
  match fuel with
  | O => no_fuel
  | Datatypes.S fuel =>
      pr ← getp p;
      cp ← getp c;
      if negb (bool_decide (state pr = ZOMBIE)) && (pid pr =? pid cp) && (tid pr =? thread)
      then sleep (ch_proc c) (Some lk_ptable);; join_wait c p thread fuel
      else mret tt
  end.

(** The loop of [thread_join] ends at the first child in the table, which it
    reaps; [*ret] is a pointer at a user address. *)
Definition thread_join (thread ret : Z) (fuel : nat) : M K Z :=
  c ← curproc;
  kacquire lk_ptable;;
  r ← for_loop slots (fun p =>
    pr ← getp p;
    if negb (bool_decide (parent pr = Some c)) then mret None
    else
      join_wait c p thread fuel;;
      pr ← getp p;
      cp ← getp c;
      on_mem (ustore_bytes (pgdir cp) (u32 ret) (le_bytes 4 (u32 (retval pr))));;
      set_tstate (tid pr) UNUSED;;
      when (isMLFQ pr =? 0)
        (modify (fun k => { k with leftShare := f64_add (leftShare k) (share pr) });;
         modify (fun k => { k with MLFQStrideVal := f64_div (f64_of_Z STRIDENUM) (leftShare k) }));;
      setp p reset_sched;;
      on_mem (kfree (kstack pr));;
      setp p (fun q => { q with kstack := 0 });;
      setp p reset_slot;;
      krelease lk_ptable;;
      mret (Some 0));
  match r with
  | Some v => mret v
  | None => krelease lk_ptable;; mret (-1)
  end.

(** [initlog] is the one of log.c for the block store at hand. *)
Definition forkret (initlog : Z -> M S unit) : M K unit :=
  krelease lk_ptable;;
  k ← get;
  when (ctrue (first (world k)))
    (modify (upd_world (fun w => { w with first := 0 }));;
     on_fs (iinit ROOTDEV);;
     on_fs (on_store (initlog ROOTDEV))).
End Proc.
