(* ===== verification/Syscall.v ===== *)
(** * Arguments of system calls

    Models [fetchint], [fetchstr], [argint], [argptr] and [argstr] of syscall.c.
    An argument that is returned through a pointer is the result, and the result
    -1 is [None].  The kernel reads the memory of the process through its page
    table. *)

From S2P Require Import Prelude CString Kalloc Vm VmTheory Double Spinlock ProcState Fs Kernel.
Open Scope Z_scope.

Section Syscall.
Context {S : Type}.
#[local] Abbreviation K := (kernel (World S)).

Definition myprocp : M K proc := c ← curproc; getp c.

Definition fetchint (addr : Z) : M K (option Z) :=
  p ← myprocp;
  if (sz p <=? addr) || (sz p <? u32 (addr + 4)) then mret None
  else
    bs ← on_mem (uload_bytes (pgdir p) addr 4);
    mret (Some (s32 (le_value bs))).

(** [for(s = *pp; s < ep; s++) if( *s == 0) return s - *pp;] over [n] bytes: the
    characters before the NUL. *)
Fixpoint fetch_loop (pd s : Z) (n : nat) : M kmem (option (list Z)) :=
  match n with
  | O => mret None
  | Datatypes.S n =>
      b ← uload pd s;
      if b =? 0 then mret (Some [])
      else
        r ← fetch_loop pd (s + 1) n;
        mret (cons b <$> r)
  end.

(** The string at [addr]. *)
Definition fetchstr (addr : Z) : M K (option (list Z)) :=
  p ← myprocp;
  if sz p <=? addr then mret None
  else on_mem (fetch_loop (pgdir p) addr (Z.to_nat (sz p - addr))).

Definition argint (n : Z) : M K (option Z) :=
  p ← myprocp;
  fetchint (u32 (esp (tf p) + 4 + 4 * n)).

Definition argptr (n size : Z) : M K (option Z) :=
  p ← myprocp;
  i ← argint n;
  match i with
  | None => mret None
  | Some i =>
      if (size <? 0) || (sz p <=? u32 i) || (sz p <? u32 (u32 i + size)) then mret None
      else mret (Some (u32 i))
  end.

Definition argstr (n : Z) : M K (option (list Z)) :=
  addr ← argint n;
  match addr with
  | None => mret None
  | Some addr => fetchstr (u32 addr)
  end.
End Syscall.
