(* ===== verification/SyscallTheory.v ===== *)
(** * The kernel checks the arguments of system calls

    For a process whose memory below [sz] is mapped, [argptr] and [argstr] never
    fault, and what they return lies in that memory: the handlers can access it
    without faulting either. *)

From S2P Require Import Prelude CString Kalloc Vm VmTheory VmAlloc Double Spinlock ProcState Fs Kernel Syscall.
Open Scope Z_scope.

(** ** Reading user memory *)
Definition mapped_below (m : mem) (pd sz : Z) : Prop := forall x, 0 <= x < sz -> present m pd x = true.

(** The [n] bytes at user address [a]. *)
Definition user_read (m : mem) (pd a : Z) (n : nat) : list Z :=
  (fun i => m (frame m pd (a + Z.of_nat i) + (a + Z.of_nat i) mod PGSIZE)) <$> seq 0 n.

Lemma user_read_S m pd a n :
  user_read m pd a (S n) = m (frame m pd a + a mod PGSIZE) :: user_read m pd (a + 1) n.
Proof.
  unfold user_read. cbn [seq fmap list_fmap]. rewrite Z.add_0_r. f_equal.
  rewrite <- fmap_S_seq, <- list_fmap_compose. apply list_fmap_ext. intros _ i _. cbn.
  replace (a + Z.of_nat (S i)) with (a + 1 + Z.of_nat i) by lia. done.
Qed.

Lemma length_user_read m pd a n : length (user_read m pd a n) = n.
Proof. unfold user_read. by rewrite length_fmap, length_seq. Qed.

Lemma has_PTE_P e : (Z.land e PTE_P =? PTE_P) = has e PTE_P.
Proof.
  unfold has, ctrue, PTE_P. change 0x001 with (Z.ones 1). rewrite Z.land_ones by lia. change (2 ^ 1) with 2.
  pose proof (Z.mod_pos_bound e 2 ltac:(lia)). change (Z.ones 1) with 1.
  destruct (Z.eqb_spec (e mod 2) 1), (Z.eqb_spec (e mod 2) 0); try done; lia.
Qed.

Lemma translate_present m pd va :
  present m pd va = true -> translate PTE_P m pd va = Some (frame m pd va + va mod PGSIZE).
Proof.
  intros Hp. pose proof (present_tab m pd va Hp) as Ht. unfold present, frame, entry in *. rewrite Ht in *.
  unfold has_tab, tab, pde in *. unfold translate. rewrite !has_PTE_P, Ht. by rewrite Hp.
Qed.

Lemma uload_ok s pd va :
  present (kmemory s) pd va = true ->
  uload pd va s = Ok (kmemory s (frame (kmemory s) pd va + va mod PGSIZE)) s.
Proof. intros Hp. unfold uload. msimpl. by rewrite translate_present. Qed.

Lemma uload_bytes_ok n s pd a sz :
  mapped_below (kmemory s) pd sz -> 0 <= a -> a + Z.of_nat n <= sz ->
  uload_bytes pd a n s = Ok (user_read (kmemory s) pd a n) s.
Proof.
  intros Hm. revert a. induction n as [|n IH]; intros a Ha Hn; cbn [uload_bytes]; [done|].
  rewrite (bind_ok _ _ _ _ _ (uload_ok s pd a (Hm a ltac:(lia)))).
  rewrite (bind_ok _ _ _ _ _ (IH (a + 1) ltac:(lia) ltac:(lia))). by rewrite user_read_S.
Qed.

(** The string that starts a sequence of bytes. *)
Fixpoint until_nul (bs : list Z) : option (list Z) :=
  match bs with
  | [] => None
  | b :: bs => if b =? 0 then Some [] else cons b <$> until_nul bs
  end.

Lemma fetch_loop_ok n s pd a sz :
  mapped_below (kmemory s) pd sz -> 0 <= a -> a + Z.of_nat n <= sz ->
  fetch_loop pd a n s = Ok (until_nul (user_read (kmemory s) pd a n)) s.
Proof.
  intros Hm. revert a. induction n as [|n IH]; intros a Ha Hn; cbn [fetch_loop]; [done|].
  rewrite (bind_ok _ _ _ _ _ (uload_ok s pd a (Hm a ltac:(lia)))). rewrite user_read_S. cbn [until_nul].
  case_match; [done|]. by rewrite (bind_ok _ _ _ _ _ (IH (a + 1) ltac:(lia) ltac:(lia))).
Qed.

Section Arguments.
Context {S : Type}.
#[local] Abbreviation K := (kernel (World S)).
#[local] Abbreviation memory k := (kmemory (wmem (world k))).

(** The process [pr] in slot [i] runs on CPU [c] without locks, and its memory is
    mapped. *)
Record runs (k : K) (c i : nat) (pr : proc) : Prop := {
  ru_on : on (mach k) c (Some i) [];
  ru_slot : ptable k !! i = Some pr;
  ru_size : 0 <= sz pr <= KERNBASE;
  ru_mapped : mapped_below (memory k) (pgdir pr) (sz pr);
}.

Lemma myprocp_ok (k : K) c i pr :
  runs k c i pr -> exists m', myprocp k = Ok pr { k with mach := m' } /\ runs { k with mach := m' } c i pr.
Proof.
  intros [Hon Hp Hs Hm]. destruct (curproc_ok k c i [] Hon) as (m' & E & Hon').
  exists m'. split; [|by split]. unfold myprocp. rewrite (bind_ok _ _ _ _ _ E). by apply getp_ok.
Qed.

Lemma on_mem_same {A} (m : M kmem A) (k : K) a : m (wmem (world k)) = Ok a (wmem (world k)) -> on_mem m k = Ok a k.
Proof. intros H. rewrite (on_mem_ok _ _ _ _ H). unfold upd_world. by destruct k as [? ? ? ? ? ? ? ? ? ? ? ? ? ? ? []]. Qed.

(** The int at user address [a], if it is in the memory of the process. *)
Definition user_int (m : mem) (pr : proc) (a : Z) : option Z :=
  if a + 4 <=? sz pr then Some (s32 (le_value (user_read m (pgdir pr) a 4))) else None.

Lemma fetchint_ok (k : K) c i pr a :
  runs k c i pr -> 0 <= a < 2 ^ 32 ->
  exists m', fetchint a k = Ok (user_int (memory k) pr a) { k with mach := m' } /\ runs { k with mach := m' } c i pr.
Proof.
  intros Hr Ha. destruct (myprocp_ok k c i pr Hr) as (m' & E & Hr'). exists m'. split; [|done]. destruct Hr as [_ _ Hs Hm].
  unfold fetchint, user_int. rewrite (bind_ok _ _ _ _ _ E). pose proof user_range as HK. unfold PGSIZE in HK.
  destruct (Z.leb_spec (a + 4) (sz pr)).
  - rewrite u32_small by lia. rewrite (proj2 (Z.leb_gt _ _)), (proj2 (Z.ltb_ge _ _)) by lia. cbn [orb].
    erewrite bind_ok; [|apply on_mem_same; apply (uload_bytes_ok 4 _ _ _ (sz pr)); [exact Hm|lia|cbn; lia]]. done.
  - destruct (Z.leb_spec (sz pr) a); [done|]. rewrite u32_small by lia. by rewrite (proj2 (Z.ltb_lt _ _)) by lia.
Qed.

(** The [n]-th word on the user stack above the return address. *)
Definition arg_addr (pr : proc) (n : Z) : Z := u32 (esp (tf pr) + 4 + 4 * n).

Lemma argint_ok (k : K) c i pr n :
  runs k c i pr ->
  exists m', argint n k = Ok (user_int (memory k) pr (arg_addr pr n)) { k with mach := m' }
    /\ runs { k with mach := m' } c i pr.
Proof.
  intros Hr. destruct (myprocp_ok k c i pr Hr) as (m1 & E1 & Hr1).
  destruct (fetchint_ok { k with mach := m1 } c i pr (arg_addr pr n) Hr1 (u32_range _)) as (m2 & E2 & Hr2).
  exists m2. split; [|done]. unfold argint. rewrite (bind_ok _ _ _ _ _ E1). exact E2.
Qed.

(** C32: [argptr] keeps system calls inside the memory of their process.  For a
    process whose memory below [sz] is mapped it never faults; it returns the
    [n]-th argument exactly if the argument itself lies in that memory and the
    [size] bytes it points to do, the size being nonnegative, and -1 otherwise;
    when it returns a pointer the kernel can load all of the bytes. *)
Theorem argptr_checks (k : K) c i pr n size :
  runs k c i pr -> size < 2 ^ 31 ->
  exists m', argptr n size k
    = Ok (p ← user_int (memory k) pr (arg_addr pr n);
          if (0 <=? size) && (u32 p <? sz pr) && (u32 p + size <=? sz pr) then Some (u32 p) else None)
        { k with mach := m' }
    /\ on m' c (Some i) []
    /\ forall p, p + size <= sz pr -> 0 <= p ->
         on_mem (uload_bytes (pgdir pr) p (Z.to_nat size)) { k with mach := m' }
         = Ok (user_read (memory k) (pgdir pr) p (Z.to_nat size)) { k with mach := m' }.
Proof.
  intros Hr Hsize. destruct (myprocp_ok k c i pr Hr) as (m1 & E1 & Hr1).
  destruct (argint_ok { k with mach := m1 } c i pr n Hr1) as (m2 & E2 & Hr2). exists m2.
  pose proof user_range as HK. unfold PGSIZE in HK. destruct Hr as [_ _ Hs Hm]. split_and!; [|apply Hr2|].
  - unfold argptr. rewrite (bind_ok _ _ _ _ _ E1), (bind_ok _ _ _ _ _ E2). cbn [mbind option_bind].
    change (memory { k with mach := m1 }) with (memory k).
    destruct (user_int (memory k) pr (arg_addr pr n)) as [p|]; [|done]. cbn [mbind option_bind].
    pose proof (u32_range p). destruct (Z.ltb_spec size 0); [by rewrite (proj2 (Z.leb_gt 0 size)) by lia|].
    rewrite (proj2 (Z.leb_le 0 size)) by lia. cbn [orb andb].
    destruct (Z.leb_spec (sz pr) (u32 p)); [by rewrite (proj2 (Z.ltb_ge (u32 p) (sz pr))) by lia|].
    rewrite (proj2 (Z.ltb_lt (u32 p) (sz pr))) by lia. cbn [orb andb].
    rewrite (u32_small (u32 p + size)) by (unfold KERNBASE in *; lia).
    destruct (Z.ltb_spec (sz pr) (u32 p + size)); [by rewrite (proj2 (Z.leb_gt _ _)) by lia|].
    by rewrite (proj2 (Z.leb_le _ _)) by lia.
  - intros p Hp H0. apply on_mem_same. destruct (decide (0 <= size)).
    + apply (uload_bytes_ok _ _ _ _ (sz pr)); [exact Hm|lia|lia].
    + replace (Z.to_nat size) with 0%nat by lia. done.
Qed.

(** [argstr] returns the string its argument points to exactly if a NUL ends
    it within the memory of the process, and -1 otherwise; it reads nothing
    behind that memory and never faults. *)
Theorem argstr_checks (k : K) c i pr n :
  runs k c i pr ->
  exists m', argstr n k
    = Ok (a ← user_int (memory k) pr (arg_addr pr n);
          if u32 a <? sz pr
          then until_nul (user_read (memory k) (pgdir pr) (u32 a) (Z.to_nat (sz pr - u32 a))) else None)
        { k with mach := m' }
    /\ on m' c (Some i) [].
Proof.
  intros Hr. destruct (argint_ok k c i pr n Hr) as (m1 & E1 & Hr1). unfold argstr. rewrite (bind_ok _ _ _ _ _ E1).
  destruct (user_int (memory k) pr (arg_addr pr n)) as [a|]; cbn [mbind option_bind]; [|exists m1; split; [done|apply Hr1]].
  destruct (myprocp_ok { k with mach := m1 } c i pr Hr1) as (m2 & E2 & Hr2). exists m2. split; [|apply Hr2].
  unfold fetchstr. rewrite (bind_ok _ _ _ _ _ E2). destruct Hr as [_ _ Hs Hm]. pose proof (u32_range a).
  destruct (Z.leb_spec (sz pr) (u32 a)); [by rewrite (proj2 (Z.ltb_ge _ _)) by lia|].
  rewrite (proj2 (Z.ltb_lt _ _)) by lia. erewrite on_mem_same; [done|]. apply (fetch_loop_ok _ _ _ _ (sz pr)); [exact Hm|lia|lia].
Qed.
End Arguments.
