(* ===== verification/Sysfile.v ===== *)
(** * File system calls

    Models sysfile.c except [sys_exec] (in Exec.v).  A handler takes its arguments
    from the stack of the process with Syscall.v.  The bytes of a buffer are
    taken from, and put into, the memory of the process at the [argptr] address:
    before the file is written, and after it has been read. *)

From S2P Require Import Prelude CString Kalloc Vm VmTheory Double Spinlock ProcState Sched Sleep Bio Log BlockStore Fs Kernel Pipe File Proc Syscall.
Open Scope Z_scope.

Definition O_RDONLY : Z := 0x000.
Definition O_WRONLY : Z := 0x001.
Definition O_RDWR : Z := 0x002.
Definition O_CREATE : Z := 0x200.

Definition DOT : list Z := [46].
Definition DOTDOT : list Z := [46; 46].

Section Sysfile.
Context {S : Type} `{Linker, BlockStore S, Devsw S}.
#[local] Abbreviation K := (kernel (World S)).

(** The descriptor and its file. *)
Definition argfd (n : Z) : M K (option (nat * nat)) :=
  fd ← argint n;
  match fd with
  | None => mret None
  | Some fd =>
      if (fd <? 0) || (Z.of_nat NOFILE <=? fd) then mret None
      else
        p ← myprocp;
        f ← deref (ofile p !! Z.to_nat fd);
        mret (f ← f; Some (Z.to_nat fd, f))
  end.

Definition fdalloc (f : nat) : M K Z :=
  c ← curproc;
  r ← for_loop (seq 0 NOFILE) (fun fd =>
    p ← getp c;
    o ← deref (ofile p !! fd);
    match o with
    | None => setp c (fun p => { p with ofile ::= <[fd := Some f]> });; mret (Some (Z.of_nat fd))
    | Some _ => mret None
    end);
  mret (default (-1) r).

Definition sys_dup : M K Z :=
  a ← argfd 0;
  match a with
  | None => mret (-1)
  | Some (_, f) =>
      fd ← fdalloc f;
      if fd <? 0 then mret (-1)
      else filedup f;; mret fd
  end.

(** [argfd(0, 0, &f) < 0 || argint(2, &n) < 0 || argptr(1, &p, n) < 0] *)
Definition rw_args : M K (option (nat * Z * Z)) :=
  a ← argfd 0;
  match a with
  | None => mret None
  | Some (_, f) =>
      n ← argint 2;
      match n with
      | None => mret None
      | Some n =>
          p ← argptr 1 n;
          mret (p ← p; Some (f, n, p))
      end
  end.

(** [n] bytes of the process at [p], and bytes stored there *)
Definition user_bytes (p n : Z) : M K (list Z) :=
  c ← myprocp;
  on_mem (uload_bytes (pgdir c) p (Z.to_nat n)).
Definition to_user (p : Z) (bs : list Z) : M K unit :=
  c ← myprocp;
  on_mem (ustore_bytes (pgdir c) p bs).

Definition sys_read (fuel : nat) : M K Z :=
  a ← rw_args;
  match a with
  | None => mret (-1)
  | Some (f, n, p) =>
      '(r, bs) ← fileread f n fuel;
      to_user p bs;;
      mret r
  end.

Definition sys_write (fuel : nat) : M K Z :=
  a ← rw_args;
  match a with
  | None => mret (-1)
  | Some (f, n, p) =>
      bs ← user_bytes p n;
      filewrite f bs n fuel
  end.

Definition sys_pwrite (fuel : nat) : M K Z :=
  a ← rw_args;
  match a with
  | None => mret (-1)
  | Some (f, n, p) =>
      off ← argint 3;
      match off with
      | None => mret (-1)
      | Some off =>
          bs ← user_bytes p n;
          pfilewrite f bs n off fuel
      end
  end.

Definition sys_pread (fuel : nat) : M K Z :=
  a ← rw_args;
  match a with
  | None => mret (-1)
  | Some (f, n, p) =>
      off ← argint 3;
      match off with
      | None => mret (-1)
      | Some off =>
          '(r, bs) ← pfileread f n off fuel;
          to_user p bs;;
          mret r
      end
  end.

Definition sys_close : M K Z :=
  a ← argfd 0;
  match a with
  | None => mret (-1)
  | Some (fd, f) =>
      c ← curproc;
      setp c (fun p => { p with ofile ::= <[fd := None]> });;
      fileclose f;;
      mret 0
  end.

(** The fields of [struct stat], which has two bytes of padding after each
    [short]. *)
Definition put_stat (p : Z) (st : stat) : M K unit :=
  to_user p (le_bytes 2 (st_type st));;
  to_user (p + 4) (le_bytes 4 (st_dev st));;
  to_user (p + 8) (le_bytes 4 (st_ino st));;
  to_user (p + 12) (le_bytes 2 (st_nlink st));;
  to_user (p + 16) (le_bytes 4 (st_size st)).

Definition sys_fstat : M K Z :=
  a ← argfd 0;
  match a with
  | None => mret (-1)
  | Some (_, f) =>
      p ← argptr 1 20;
      match p with
      | None => mret (-1)
      | Some p =>
          '(r, st) ← filestat f;
          match st with Some st => put_stat p st | None => mret tt end;;
          mret r
      end
  end.

(** [char name[DIRSIZ]] on the stack *)
Definition name_buf : list Z := replicate DIRSIZ 0.

(** [bad:] of [sys_link] *)
Definition link_bad (ip : nat) : M K Z :=
  on_fs (ilock ip);;
  on_fs (setip ip (fun x => { x with i_nlink := s16 (i_nlink x - 1) }));;
  on_fs (iupdate ip);;
  on_fs (iunlockput ip);;
  end_op;;
  mret (-1).

Definition sys_link : M K Z :=
  old ← argstr 0;
  match old with
  | None => mret (-1)
  | Some old =>
  new ← argstr 1;
  match new with
  | None => mret (-1)
  | Some new =>
  begin_op;;
  r ← namei_cur old;
  match r with
  | None => end_op;; mret (-1)
  | Some ip =>
      on_fs (ilock ip);;
      x ← on_fs (getip ip);
      if i_type x =? T_DIR then
        on_fs (iunlockput ip);;
        end_op;;
        mret (-1)
      else
        on_fs (setip ip (fun x => { x with i_nlink := s16 (i_nlink x + 1) }));;
        on_fs (iupdate ip);;
        on_fs (iunlock ip);;
        r ← nameiparent_cur new name_buf;
        match r with
        | None => link_bad ip
        | Some (dp, name) =>
            on_fs (ilock dp);;
            d ← on_fs (getip dp);
            x ← on_fs (getip ip);
            r ← (if negb (i_dev d =? i_dev x) then mret (-1)
                 else on_fs (dirlink dp name (i_inum x)));
            if r <? 0 then
              on_fs (iunlockput dp);;
              link_bad ip
            else
              on_fs (iunlockput dp);;
              on_fs (iput ip);;
              end_op;;
              mret 0
        end
  end
  end
  end.

(** The directory holds nothing but [.] and [..]. *)
Definition isdirempty (dp : nat) : M (fsys S) bool :=
  x ← getip dp;
  r ← for_loop (drop 2 (dir_offs (i_size x))) (fun off =>
    de ← read_dirent "isdirempty: readi" dp off;
    mret (if negb (de_inum de =? 0) then Some tt else None));
  mret (match r with Some _ => false | None => true end).

(** [bad:] of [sys_unlink] *)
Definition unlink_bad (dp : nat) : M K Z :=
  on_fs (iunlockput dp);;
  end_op;;
  mret (-1).

Definition sys_unlink : M K Z :=
  path ← argstr 0;
  match path with
  | None => mret (-1)
  | Some path =>
  begin_op;;
  r ← nameiparent_cur path name_buf;
  match r with
  | None => end_op;; mret (-1)
  | Some (dp, name) =>
      on_fs (ilock dp);;
      if (namecmp name DOT =? 0) || (namecmp name DOTDOT =? 0) then unlink_bad dp
      else
        r ← on_fs (dirlookup dp name);
        match r with
        | None => unlink_bad dp
        | Some (ip, off) =>
            on_fs (ilock ip);;
            x ← on_fs (getip ip);
            if i_nlink x <? 1 then panic "unlink: nlink < 1"
            else
              full ← (if i_type x =? T_DIR then e ← on_fs (isdirempty ip); mret (negb e)
                      else mret false);
              if full : bool then
                on_fs (iunlockput ip);;
                unlink_bad dp
              else
                w ← on_fs (writei dp (replicate DIRENT 0) off (Z.of_nat DIRENT));
                if negb (w =? Z.of_nat DIRENT) then panic "unlink: writei"
                else
                  when (i_type x =? T_DIR)
                    (on_fs (setip dp (fun d => { d with i_nlink := s16 (i_nlink d - 1) }));;
                     on_fs (iupdate dp));;
                  on_fs (iunlockput dp);;
                  on_fs (setip ip (fun x => { x with i_nlink := s16 (i_nlink x - 1) }));;
                  on_fs (iupdate ip);;
                  on_fs (iunlockput ip);;
                  end_op;;
                  mret 0
        end
  end
  end.

(** Returns the inode, locked. *)
Definition create (path : list Z) (type major minor : Z) : M K (option nat) :=
  r ← nameiparent_cur path name_buf;
  match r with
  | None => mret None
  | Some (dp, name) =>
      on_fs (ilock dp);;
      r ← on_fs (dirlookup dp name);
      match r with
      | Some (ip, _) =>
          on_fs (iunlockput dp);;
          on_fs (ilock ip);;
          x ← on_fs (getip ip);
          if (type =? T_FILE) && (i_type x =? T_FILE) then mret (Some ip)
          else on_fs (iunlockput ip);; mret None
      | None =>
          d ← on_fs (getip dp);
          ip ← on_fs (ialloc (i_dev d) type);
          on_fs (ilock ip);;
          on_fs (setip ip (fun x => { x with i_major := major; i_minor := minor; i_nlink := 1 }));;
          on_fs (iupdate ip);;
          x ← on_fs (getip ip);
          when (type =? T_DIR)
            (on_fs (setip dp (fun d => { d with i_nlink := s16 (i_nlink d + 1) }));;
             on_fs (iupdate dp);;
             r1 ← on_fs (dirlink ip DOT (i_inum x));
             if r1 <? 0 then panic "create dots"
             else
               d ← on_fs (getip dp);
               r2 ← on_fs (dirlink ip DOTDOT (i_inum d));
               if r2 <? 0 then panic "create dots" else mret tt);;
          r ← on_fs (dirlink dp name (i_inum x));
          if r <? 0 then panic "create: dirlink"
          else
            on_fs (iunlockput dp);;
            mret (Some ip)
      end
  end.

(** The inode of [sys_open], locked; when there is none, the transaction has
    been ended. *)
Definition open_inode (path : list Z) (omode : Z) : M K (option nat) :=
  if ctrue (Z.land omode O_CREATE) then
    ip ← create path T_FILE 0 0;
    match ip with
    | None => end_op;; mret None
    | Some ip => mret (Some ip)
    end
  else
    r ← namei_cur path;
    match r with
    | None => end_op;; mret None
    | Some ip =>
        on_fs (ilock ip);;
        x ← on_fs (getip ip);
        if (i_type x =? T_DIR) && negb (omode =? O_RDONLY) then
          on_fs (iunlockput ip);;
          end_op;;
          mret None
        else mret (Some ip)
    end.

Definition sys_open : M K Z :=
  path ← argstr 0;
  match path with
  | None => mret (-1)
  | Some path =>
  omode ← argint 1;
  match omode with
  | None => mret (-1)
  | Some omode =>
  begin_op;;
  r ← open_inode path omode;
  match r with
  | None => mret (-1)
  | Some ip =>
      f ← filealloc;
      fd ← (match f with Some f => fdalloc f | None => mret (-1) end);
      match f with
      | Some f =>
          if fd <? 0 then
            fileclose f;;
            on_fs (iunlockput ip);;
            end_op;;
            mret (-1)
          else
            on_fs (iunlock ip);;
            end_op;;
            setf f (fun x => { x with f_type := FD_INODE; f_ip := Some ip; f_off := 0;
              readable := cbool (negb (ctrue (Z.land omode O_WRONLY)));
              writable := cbool (ctrue (Z.land omode O_WRONLY) || ctrue (Z.land omode O_RDWR)) });;
            mret fd
      | None =>
          on_fs (iunlockput ip);;
          end_op;;
          mret (-1)
      end
  end
  end
  end.

(** What [sys_mkdir] and [sys_mknod] do with the inode of [create]. *)
Definition finish_create (ip : option nat) : M K Z :=
  match ip with
  | None => end_op;; mret (-1)
  | Some ip =>
      on_fs (iunlockput ip);;
      end_op;;
      mret 0
  end.

Definition sys_mkdir : M K Z :=
  begin_op;;
  path ← argstr 0;
  ip ← (match path with Some path => create path T_DIR 0 0 | None => mret None end);
  finish_create ip.

Definition sys_mknod : M K Z :=
  begin_op;;
  path ← argstr 0;
  ip ← (match path with
        | None => mret None
        | Some path =>
            major ← argint 1;
            match major with
            | None => mret None
            | Some major =>
                minor ← argint 2;
                match minor with
                | None => mret None
                | Some minor => create path T_DEV (s16 major) (s16 minor)
                end
            end
        end);
  finish_create ip.

Definition sys_chdir : M K Z :=
  c ← curproc;
  begin_op;;
  path ← argstr 0;
  ip ← (match path with Some path => namei_cur path | None => mret None end);
  match ip with
  | None => end_op;; mret (-1)
  | Some ip =>
      on_fs (ilock ip);;
      x ← on_fs (getip ip);
      if negb (i_type x =? T_DIR) then
        on_fs (iunlockput ip);;
        end_op;;
        mret (-1)
      else
        on_fs (iunlock ip);;
        p ← getp c;
        old ← deref (cwd p);
        on_fs (iput old);;
        end_op;;
        setp c (fun p => { p with cwd := Some ip });;
        mret 0
  end.

Definition sys_pipe : M K Z :=
  fd ← argptr 0 8;
  match fd with
  | None => mret (-1)
  | Some fd =>
      r ← pipealloc;
      match r with
      | None => mret (-1)
      | Some (rf, wf) =>
          fd0 ← fdalloc rf;
          fd1 ← (if fd0 <? 0 then mret (-1) else fdalloc wf);
          if (fd0 <? 0) || (fd1 <? 0) then
            c ← curproc;
            when (0 <=? fd0) (setp c (fun p => { p with ofile ::= <[Z.to_nat fd0 := None]> }));;
            fileclose rf;;
            fileclose wf;;
            mret (-1)
          else
            to_user fd (le_bytes 4 (u32 fd0));;
            to_user (fd + 4) (le_bytes 4 (u32 fd1));;
            mret 0
      end
  end.
End Sysfile.
