(* ===== verification/Exec.v ===== *)
(** * Running a program

    Models exec.c, [loaduvm] of vm.c, the structures of elf.h and [sys_exec] of
    sysfile.c.  The argument strings are lists of characters without the NUL;
    they are read from the old address space and copied into the new one. *)

From S2P Require Import Prelude CString Kalloc Vm VmTheory Double Spinlock ProcState Sched Sleep Bio Log BlockStore Fs Kernel Pipe File Proc Syscall.
Open Scope Z_scope.

Definition MAXARG : nat := 32.
Definition ELF_MAGIC : Z := 0x464C457F.
Definition ELF_PROG_LOAD : Z := 1.

(** The fields of [struct elfhdr] and [struct proghdr] that exec uses. *)
Record elfhdr := mk_elfhdr { e_magic : Z; e_entry : Z; e_phoff : Z; e_phnum : Z }.
Definition ELFHDR : Z := 52.                (* sizeof(struct elfhdr) *)
Definition get_elfhdr (d : list Z) : elfhdr :=
  mk_elfhdr (get32 d 0) (get32 d 24) (get32 d 28) (get16 d 44).

Record proghdr := mk_proghdr {
  ph_type : Z; ph_off : Z; ph_vaddr : Z; ph_filesz : Z; ph_memsz : Z;
}.
Definition PROGHDR : Z := 32.               (* sizeof(struct proghdr) *)
Definition get_proghdr (d : list Z) : proghdr :=
  mk_proghdr (get32 d 0) (get32 d 4) (get32 d 8) (get32 d 16) (get32 d 20).

(** What follows the last slash of a path. *)
Fixpoint last_elem (path last : list Z) : list Z :=
  match path with
  | [] => last
  | c :: path => last_elem path (if c =? SLASH then path else last)
  end.

Section Exec.
Context {S : Type} `{Linker, BlockStore S, Devsw S}.
#[local] Abbreviation K := (kernel (World S)).

(** The loop of [loaduvm]; every round loads a page. *)
Fixpoint load_loop (pgdir addr : Z) (ip : nat) (offset size i : Z) (fuel : nat) : M K Z :=
  if i <? size then
    match fuel with
    | O => no_fuel
    | Datatypes.S fuel =>
        pte ← on_mem (walkpgdir pgdir (u32 (addr + i)) false);
        if pte =? 0 then panic "loaduvm: address should exist"
        else
          e ← on_mem (load pte);
          let pa := PTE_ADDR e in
          let n := if size - i <? PGSIZE then size - i else PGSIZE in
          '(r, bs) ← on_fs (readi ip (u32 (offset + i)) n);
          on_mem (put_bytes (P2V pa) bs);;
          if negb (u32 r =? n) then mret (-1)
          else load_loop pgdir addr ip offset size (u32 (i + PGSIZE)) fuel
    end
  else mret 0.

Definition loaduvm (pgdir addr : Z) (ip : nat) (offset size : Z) : M K Z :=
  if negb (addr mod PGSIZE =? 0) then panic "loaduvm: addr must be page aligned"
  else load_loop pgdir addr ip offset size 0 (Z.to_nat (size / PGSIZE) + 1).

(** Load program into memory: the program headers [l] from offset [off] on.
    [None] is [goto bad]. *)
Fixpoint load_segments (ip : nat) (pgdir : Z) (l : list nat) (off sz : Z) : M K (option Z) :=
  match l with
  | [] => mret (Some sz)
  | _ :: l =>
      '(r, d) ← on_fs (readi ip (u32 off) PROGHDR);
      if negb (r =? PROGHDR) then mret None
      else
        let ph := get_proghdr d in
        if negb (ph_type ph =? ELF_PROG_LOAD) then load_segments ip pgdir l (s32 (off + PROGHDR)) sz
        else if ph_memsz ph <? ph_filesz ph then mret None
        else if u32 (ph_vaddr ph + ph_memsz ph) <? ph_vaddr ph then mret None
        else
          sz ← on_mem (allocuvm pgdir sz (u32 (ph_vaddr ph + ph_memsz ph)));
          if sz =? 0 then mret None
          else if negb (ph_vaddr ph mod PGSIZE =? 0) then mret None
          else
            r ← loaduvm pgdir (ph_vaddr ph) ip (ph_off ph) (ph_filesz ph);
            if r <? 0 then mret None
            else load_segments ip pgdir l (s32 (off + PROGHDR)) sz
  end.

(** Push argument strings: the stack pointer and the addresses of the strings. *)
Fixpoint push_args (pgdir : Z) (argv : list (list Z)) (argc : nat) (sp : Z)
    : M kmem (option (Z * list Z)) :=
  match argv with
  | [] => mret (Some (sp, []))
  | s :: argv =>
      if (MAXARG <=? argc)%nat then mret None
      else
        let sp := Z.land (u32 (sp - (Z.of_nat (length s) + 1))) (Z.lnot 3) in
        r ← copyout pgdir sp (s ++ [0]);
        if r <? 0 then mret None
        else
          rest ← push_args pgdir argv (argc + 1) sp;
          mret ('(sp', us) ← rest; Some (sp', sp :: us))
  end.

(** The stack of the new image below [size]: the stack pointer. *)
Definition build_stack (pgdir size : Z) (argv : list (list Z)) : M kmem (option Z) :=
  r ← push_args pgdir argv 0 size;
  match r with
  | None => mret None
  | Some (sp, us) =>
      let argc := Z.of_nat (length argv) in
      let ustack := [0xffffffff; argc; u32 (sp - (argc + 1) * 4)] ++ us ++ [0] in
      let sp := u32 (sp - (3 + argc + 1) * 4) in
      r ← copyout pgdir sp (ustack ≫= le_bytes 4);
      mret (if r <? 0 then None else Some sp)
  end.

(** Two pages of stack for each of [n] future LWPs; 0 when memory runs out. *)
Fixpoint lwp_stacks (pgdir size : Z) (n : nat) : M kmem Z :=
  match n with
  | O => mret size
  | Datatypes.S n =>
      sz ← allocuvm pgdir size (u32 (size + 2 * PGSIZE));
      if sz =? 0 then mret 0 else lwp_stacks pgdir sz n
  end.

(** [bad:], before and after the inode has been released *)
Definition exec_bad (pgdir : Z) (ip : option nat) : M K Z :=
  when (ctrue pgdir) (on_mem (freevm pgdir));;
  match ip with
  | Some ip => on_fs (iunlockput ip);; end_op
  | None => mret tt
  end;;
  mret (-1).

(** From the commit to the new image on. *)
Definition exec_commit (c : nat) (path : list Z) (pgdir' size sp entry : Z) : M K Z :=
  setp c (fun p => { p with pname ::= fun n => safestrcpy_list n (last_elem path path) });;
  cp ← getp c;
  let oldpgdir := pgdir cp in
  setp c (fun p => { p with pgdir := pgdir'; usz := size });;
  size ← on_mem (lwp_stacks pgdir' size NPROC);
  if size =? 0 then mret (-1)
  else
    setp c (fun p => { p with sz := size; tf := { (tf p) with eip := entry; esp := sp } });;
    cp ← getp c;
    (if ctrue (isThread cp) then
       (* case when LWP call exec(). *)
       q ← deref (parent cp);
       setp q (fun p => { p with isMainThread := 0 });;
       setp c (fun p => { p with isMainThread := 1 });;
       setp q (fun p => { p with isThereExec := 1 });;
       qp ← getp q;
       setp c (fun p => { p with parent := parent qp; isThread := 0 })
     else setp c (fun p => { p with tid := 0 }));;
    (* make other processes that has same pid zombie *)
    kacquire lk_ptable;;
    for_each slots (fun p =>
      pr ← getp p;
      cp ← getp c;
      when ((pid pr =? pid cp) && negb (bool_decide (p = c)))
        (when (negb (isMainThread pr =? 1))
           (q ← deref (parent pr);
            qp ← getp q;
            setp p (fun p => { p with parent := parent qp }));;
         setp p (fun p => { p with state := ZOMBIE })));;
    krelease lk_ptable;;
    switchuvm (Some c);;
    on_mem (freevm oldpgdir);;
    mret 0.

Definition exec (path : list Z) (argv : list (list Z)) : M K Z :=
  c ← curproc;
  begin_op;;
  r ← namei_cur path;
  match r with
  | None => end_op;; mret (-1)
  | Some ip =>
      on_fs (ilock ip);;
      '(r, d) ← on_fs (readi ip 0 ELFHDR);
      if negb (r =? ELFHDR) then exec_bad 0 (Some ip)
      else
        let elf := get_elfhdr d in
        if negb (e_magic elf =? ELF_MAGIC) then exec_bad 0 (Some ip)
        else
          pgdir ← on_mem setupkvm;
          if pgdir =? 0 then exec_bad 0 (Some ip)
          else
            r ← load_segments ip pgdir (seq 0 (Z.to_nat (e_phnum elf))) (s32 (e_phoff elf)) 0;
            match r with
            | None => exec_bad pgdir (Some ip)
            | Some size =>
                on_fs (iunlockput ip);;
                end_op;;
                (* Allocate two pages at the next page boundary. *)
                let size := PGROUNDUP size in
                size ← on_mem (allocuvm pgdir size (u32 (size + 2 * PGSIZE)));
                if size =? 0 then exec_bad pgdir None
                else
                  on_mem (clearpteu pgdir (size - 2 * PGSIZE));;
                  r ← on_mem (build_stack pgdir size argv);
                  match r with
                  | None => exec_bad pgdir None
                  | Some sp => exec_commit c path pgdir size sp (e_entry elf)
                  end
            end
  end.

(** The loop of [sys_exec], with [n] entries of [argv] left from the [i]-th on. *)
Fixpoint fetch_argv (uargv i : Z) (n : nat) : M K (option (list (list Z))) :=
  match n with
  | O => mret None
  | Datatypes.S n =>
      uarg ← fetchint (u32 (uargv + 4 * i));
      match uarg with
      | None => mret None
      | Some uarg =>
          if uarg =? 0 then mret (Some [])
          else
            s ← fetchstr (u32 uarg);
            match s with
            | None => mret None
            | Some s =>
                rest ← fetch_argv uargv (i + 1) n;
                mret (cons s <$> rest)
            end
      end
  end.

Definition sys_exec : M K Z :=
  path ← argstr 0;
  match path with
  | None => mret (-1)
  | Some path =>
      uargv ← argint 1;
      match uargv with
      | None => mret (-1)
      | Some uargv =>
          argv ← fetch_argv (u32 uargv) 0 MAXARG;
          match argv with
          | None => mret (-1)
          | Some argv => exec path argv
          end
      end
  end.
End Exec.
