(* ===== verification/Trap.v ===== *)
(** * System calls and traps

    Models sysproc.c, [sys_set_cpu_share] of set_cpu_share.c, the table of system
    calls and [syscall] of syscall.c, and [trap] of trap.c.  The handlers of the
    keyboard and of the serial line are in Console.v; [procdump], which the first
    one may call and which only prints, is an argument.  [ideintr] of memide.c is empty.  The bound [fuel] of the calls that sleep in
    a loop is passed through. *)

From S2P Require Import Prelude CString Kalloc Vm VmTheory Double Spinlock ProcState Sched Sleep Bio Log BlockStore Fs Kernel Pipe Console File Proc Syscall Sysfile Exec.
Open Scope Z_scope.

Definition T_SYSCALL : Z := 64.
Definition T_IRQ0 : Z := 32.
Definition IRQ_TIMER : Z := 0.
Definition IRQ_KBD : Z := 1.
Definition IRQ_COM1 : Z := 4.
Definition IRQ_IDE : Z := 14.
Definition IRQ_SPURIOUS : Z := 31.

Section Trap.
Context {S : Type} `{Linker, BlockStore S, Devsw S}.
#[local] Abbreviation K := (kernel (World S)).

(** ** sysproc.c *)
Definition sys_thread_create : M K Z :=
  n ← argint 0;
  match n with
  | None => mret (-1)
  | Some thread =>
      sr ← argint 1;
      match sr with
      | None => mret (-1)
      | Some start_routine =>
          a ← argint 2;
          match a with
          | None => mret (-1)
          | Some arg => thread_create thread start_routine arg
          end
      end
  end.

Definition sys_thread_exit : M K Z :=
  r ← argint 0;
  match r with
  | None => mret (-1)
  | Some rv => thread_exit rv;; mret 0
  end.

Definition sys_thread_join (fuel : nat) : M K Z :=
  t ← argint 0;
  match t with
  | None => mret (-1)
  | Some thread =>
      r ← argint 1;
      match r with
      | None => mret (-1)
      | Some ret => thread_join thread ret fuel
      end
  end.

Definition sys_fork : M K Z := fork.
Definition sys_exit : M K Z := exit;; mret 0.
Definition sys_wait (fuel : nat) : M K Z := wait fuel.

Definition sys_kill : M K Z :=
  p ← argint 0;
  match p with
  | None => mret (-1)
  | Some pid => kill pid
  end.

Definition sys_getpid : M K Z := p ← myprocp; mret (pid p).

Definition sys_sbrk : M K Z :=
  n ← argint 0;
  match n with
  | None => mret (-1)
  | Some n =>
      p ← myprocp;
      r ← growproc n;
      if r <? 0 then mret (-1) else mret (s32 (sz p))
  end.

(** [while(ticks - ticks0 < n)]: the comparison is unsigned. *)
Fixpoint sleep_loop (ticks0 n : Z) (fuel : nat) : M K Z :=
  match fuel with
  | O => no_fuel
  | Datatypes.S fuel =>
      k ← get;
      if u32 (ticks k - ticks0) <? u32 n then
        p ← myprocp;
        if ctrue (killed p) then krelease lk_ticks;; mret (-1)
        else
          sleep ch_ticks (Some lk_ticks);;
          sleep_loop ticks0 n fuel
      else krelease lk_ticks;; mret 0
  end.

Definition sys_sleep (fuel : nat) : M K Z :=
  n ← argint 0;
  match n with
  | None => mret (-1)
  | Some n =>
      kacquire lk_ticks;;
      k ← get;
      sleep_loop (ticks k) n fuel
  end.

Definition sys_uptime : M K Z :=
  kacquire lk_ticks;;
  k ← get;
  krelease lk_ticks;;
  mret (s32 (ticks k)).

Definition sys_set_cpu_share : M K Z :=
  a ← argint 0;
  match a with
  | None => mret (-1)
  | Some share => set_cpu_share share
  end.

(** ** Dispatch *)
Definition syscalls (num : Z) (fuel : nat) : option (M K Z) :=
  match num with
  | 1 => Some sys_fork
  | 2 => Some sys_exit
  | 3 => Some (sys_wait fuel)
  | 4 => Some sys_pipe
  | 5 => Some (sys_read fuel)
  | 6 => Some sys_kill
  | 7 => Some sys_exec
  | 8 => Some sys_fstat
  | 9 => Some sys_chdir
  | 10 => Some sys_dup
  | 11 => Some sys_getpid
  | 12 => Some sys_sbrk
  | 13 => Some (sys_sleep fuel)
  | 14 => Some sys_uptime
  | 15 => Some sys_open
  | 16 => Some (sys_write fuel)
  | 17 => Some sys_mknod
  | 18 => Some sys_unlink
  | 19 => Some sys_link
  | 20 => Some sys_mkdir
  | 21 => Some sys_close
  | 22 => Some sys_getlev
  | 23 => Some sys_yield
  | 24 => Some sys_set_cpu_share
  | 25 => Some sys_thread_create
  | 26 => Some sys_thread_exit
  | 27 => Some (sys_thread_join fuel)
  | 28 => Some (sys_pwrite fuel)
  | 29 => Some (sys_pread fuel)
  | _ => None
  end.

Definition syscall (fuel : nat) : M K unit :=
  c ← curproc;
  p ← getp c;
  match syscalls (s32 (eax (tf p))) fuel with
  | Some call =>
      r ← call;
      setp c (fun p => { p with tf := { (tf p) with eax := u32 r } })
  | None => setp c (fun p => { p with tf := { (tf p) with eax := u32 (-1) } })
  end.

(** ** Traps *)

(** [if(myproc() && myproc()->killed && (tf->cs&3) == DPL_USER) exit();] *)
Definition exit_if_killed (f : trapframe) : M K unit :=
  o ← kmyproc;
  match o with
  | None => mret tt
  | Some c =>
      p ← getp c;
      when (ctrue (killed p) && (Z.land (cs f) 3 =? DPL_USER)) exit
  end.

(** The [switch] of [trap]; the acknowledgement of the interrupt has no effect on
    the state. *)
Definition trap_switch (procdump : M K unit) (f : trapframe) : M K unit :=
  let n := trapno f in
  if n =? T_IRQ0 + IRQ_TIMER then
    id ← on_mach cpuid;
    when (id =? 0)%nat
      (kacquire lk_ticks;;
       modify (fun k => { k with ticks := u32 (ticks k + 1) });;
       wakeup ch_ticks;;
       krelease lk_ticks)
  else if n =? T_IRQ0 + IRQ_IDE then mret tt
  else if n =? T_IRQ0 + IRQ_IDE + 1 then mret tt
  else if n =? T_IRQ0 + IRQ_KBD then kbdintr procdump
  else if n =? T_IRQ0 + IRQ_COM1 then uartintr procdump
  else if (n =? T_IRQ0 + 7) || (n =? T_IRQ0 + IRQ_SPURIOUS) then mret tt
  else
    o ← kmyproc;
    match o with
    | None => panic "trap"
    | Some c =>
        if Z.land (cs f) 3 =? 0 then panic "trap"
        else setp c (fun p => { p with killed := 1 })
    end.

Definition trap (procdump : M K unit) (f : trapframe) (fuel : nat) : M K unit :=
  if trapno f =? T_SYSCALL then
    c ← curproc;
    p ← getp c;
    when (ctrue (killed p)) exit;;
    setp c (fun p => { p with tf := f });;
    syscall fuel;;
    c ← curproc;
    p ← getp c;
    when (ctrue (killed p)) exit
  else
    trap_switch procdump f;;
    (* Force process exit if it has been killed and is in user space. *)
    exit_if_killed f;;
    (* Force process to give up CPU on clock tick. *)
    when (trapno f =? T_IRQ0 + IRQ_TIMER) trap_tick;;
    (* Check if the process has been killed since we yielded *)
    exit_if_killed f.
End Trap.
