(* ===== verification/Grep.v ===== *)
(** * The user program grep

    Models grep.c: the matcher ([matchhere], [matchstar], [match]) and the loop
    that reads a file and prints the lines that match.  A C string is a list of
    characters; its end stands for the NUL. *)

From S2P Require Import Prelude.
Open Scope Z_scope.

Definition CARET : Z := 94.
Definition STAR : Z := 42.
Definition DOLLAR : Z := 36.
Definition PERIOD : Z := 46.
Definition NEWLINE : Z := 10.

(** [here] is [matchhere] for the rest of the pattern. *)
Fixpoint matchstar (c : Z) (here : list Z -> bool) (text : list Z) : bool :=
  here text ||
  match text with
  | [] => false
  | t :: text => ((t =? c) || (c =? PERIOD)) && matchstar c here text
  end.

Fixpoint matchhere (re text : list Z) : bool :=
  match re with
  | [] => true
  | c :: re1 =>
      let rest _ :=
        if (c =? DOLLAR) && bool_decide (re1 = []) then bool_decide (text = [])
        else
          match text with
          | [] => false
          | t :: text => ((c =? PERIOD) || (c =? t)) && matchhere re1 text
          end in
      match re1 with
      | d :: re2 => if d =? STAR then matchstar c (matchhere re2) text else rest tt
      | [] => rest tt
      end
  end.

(** [do { if(matchhere(re, text)) return 1; } while( *text++ != 0)] *)
Fixpoint match_any (re text : list Z) : bool :=
  matchhere re text ||
  match text with
  | [] => false
  | _ :: text => match_any re text
  end.

Definition match_ (re text : list Z) : bool :=
  match re with
  | c :: re' => if c =? CARET then matchhere re' text else match_any re text
  | [] => match_any re text
  end.

(** [strchr(p, '\n')]: the line before the newline, and what follows it. *)
Fixpoint cut_line (p : list Z) : option (list Z * list Z) :=
  match p with
  | [] => None
  | c :: p =>
      if c =? NEWLINE then Some ([], p)
      else if c =? 0 then None
      else '(l, r) ← cut_line p; Some (c :: l, r)
  end.

(** The inner loop: the output, and the rest of the buffer. *)
Fixpoint grep_lines (pattern p : list Z) (fuel : nat) : list Z * list Z :=
  match fuel with
  | O => ([], p)
  | S fuel =>
      match cut_line p with
      | None => ([], p)
      | Some (line, p) =>
          let '(out, rest) := grep_lines pattern p fuel in
          ((if match_ pattern line then line ++ [NEWLINE] else []) ++ out, rest)
      end
  end.

Definition GREPBUF : nat := 1024.

(** The outer loop over what is left of the file, with [buf] the bytes kept from
    the last round.  A read of a file returns as many bytes as there are, up to
    the room in the buffer.  [None]: out of fuel. *)
Fixpoint grep_loop (pattern buf file : list Z) (fuel : nat) : option (list Z) :=
  match fuel with
  | O => None
  | S fuel =>
      let n := (GREPBUF - length buf - 1)%nat in
      let chunk := take n file in
      if bool_decide (chunk = []) then Some []
      else
        let buf := buf ++ chunk in
        let '(out, p) := grep_lines pattern buf (S (length buf)) in
        (* a buffer without a newline is dropped *)
        let keep := if (length p =? length buf)%nat then [] else p in
        more ← grep_loop pattern keep (drop n file) fuel;
        Some (out ++ more)
  end.

Definition grep (pattern file : list Z) : option (list Z) :=
  grep_loop pattern [] file (S (length file)).

(** ** Regular expressions

    A pattern is a sequence of items, each a character class or a repeated one,
    perhaps anchored at the end. *)
Inductive item := One (c : Z) | Many (c : Z).

(** The class of a pattern character: the period is every character. *)
Definition in_class (c x : Z) : bool := (c =? PERIOD) || (c =? x).

(** The strings a sequence of items describes. *)
Inductive lang : list item -> list Z -> Prop :=
| lang_nil : lang [] []
| lang_one c x l s : in_class c x = true -> lang l s -> lang (One c :: l) (x :: s)
| lang_many c l s1 s2 :
    Forall (fun x => in_class c x = true) s1 -> lang l s2 -> lang (Many c :: l) (s1 ++ s2).

(** The items of a pattern after the caret, and whether it ends in a dollar. *)
Fixpoint items (re : list Z) : list item * bool :=
  match re with
  | [] => ([], false)
  | c :: re1 =>
      match re1 with
      | d :: re2 =>
          if d =? STAR then let '(l, e) := items re2 in (Many c :: l, e)
          else let '(l, e) := items re1 in (One c :: l, e)
      | [] => if c =? DOLLAR then ([], true) else ([One c], false)
      end
  end.

Definition anchored (re : list Z) : bool := match re with c :: _ => c =? CARET | [] => false end.
Definition body (re : list Z) : list Z := if anchored re then tl re else re.

(** The pattern [re] occurs in the text. *)
Definition occurs (re text : list Z) : Prop :=
  let '(l, e) := items (body re) in
  exists pre mid post, text = pre ++ mid ++ post /\ lang l mid
    /\ (anchored re = true -> pre = []) /\ (e = true -> post = []).

(** ** The matcher is correct *)

(** A prefix of the text is in the language; the whole of it when [e] is set. *)
Definition starts (l : list item) (e : bool) (text : list Z) : Prop :=
  exists mid post, text = mid ++ post /\ lang l mid /\ (e = true -> post = []).

Lemma starts_nil e text : starts [] e text <-> (e = true -> text = []).
Proof.
  split.
  - intros (mid & post & -> & Hl & He). inversion Hl. subst. done.
  - intros He. exists [], text. split_and!; [done|constructor|done].
Qed.

Lemma starts_one c l e text :
  starts (One c :: l) e text <-> exists x t, text = x :: t /\ in_class c x = true /\ starts l e t.
Proof.
  split.
  - intros (mid & post & -> & Hl & He). inversion Hl as [|? x ? s Hc Hs|]; subst. exists x, (s ++ post). split_and!; auto.
    by exists s, post.
  - intros (x & t & -> & Hc & mid & post & -> & Hl & He). exists (x :: mid), post. split_and!; auto. by constructor.
Qed.

Lemma starts_many c l e text :
  starts (Many c :: l) e text
  <-> exists s t, text = s ++ t /\ Forall (fun x => in_class c x = true) s /\ starts l e t.
Proof.
  split.
  - intros (mid & post & -> & Hl & He). inversion Hl as [| |? ? s1 s2 Hc Hs]; subst. exists s1, (s2 ++ post).
    rewrite (assoc_L (++)). split_and!; auto. by exists s2, post.
  - intros (s & t & -> & Hc & mid & post & -> & Hl & He). exists (s ++ mid), post. rewrite (assoc_L (++)).
    split_and!; auto. by constructor.
Qed.

Lemma matchstar_iff c here (P : list Z -> Prop) text :
  (forall t, here t = true <-> P t) ->
  matchstar c here text = true
  <-> exists s t, text = s ++ t /\ Forall (fun x => in_class c x = true) s /\ P t.
Proof.
  intros Hh. induction text as [|x text IH]; cbn.
  - rewrite orb_false_r, Hh. split; [intros; by exists [], []|].
    intros (s & t & E & _ & Ht). by destruct s, t.
  - rewrite orb_true_iff, andb_true_iff, IH, Hh. split.
    + intros [Hp|[Hx (s & t & -> & Hs & Ht)]]; [by exists [], (x :: text)|]. exists (x :: s), t. split_and!; auto.
      constructor; [|done]. unfold in_class. rewrite orb_comm. by rewrite (Z.eqb_sym c x).
    + intros (s & t & E & Hs & Ht). destruct s as [|y s]; cbn in E; [left; by subst|]. injection E as <- ->. right.
      inversion Hs as [|? ? Hx Hs']; subst. split; [|by exists s, t].
      unfold in_class in Hx. rewrite orb_comm, (Z.eqb_sym x c). done.
Qed.

Lemma matchhere_iff re text :
  matchhere re text = true <-> starts (items re).1 (items re).2 text.
Proof.
  revert text. induction re as [re IH] using (induction_ltof1 _ (@length Z)). unfold ltof in IH. intros text.
  destruct re as [|c re1]; [cbn; rewrite starts_nil; naive_solver|].
  assert (items (c :: re1) = (One c :: (items re1).1, (items re1).2) ->
    match text with [] => false | t :: text => ((c =? PERIOD) || (c =? t)) && matchhere re1 text end = true
    <-> starts (items (c :: re1)).1 (items (c :: re1)).2 text) as Hone.
  { intros ->. cbn [fst snd]. rewrite starts_one. destruct text as [|t text].
    - split; [done|]. by intros (? & ? & ? & _).
    - rewrite andb_true_iff, IH by (cbn; lia). split; [intros []; eauto|].
      intros (? & ? & [= <- <-] & ? & ?). by split. }
  destruct re1 as [|d re2]; cbn [matchhere].
  - destruct (c =? DOLLAR) eqn:Ec; cbn [andb].
    + rewrite bool_decide_eq_true_2 by done. cbn. rewrite Ec. cbn. rewrite starts_nil, bool_decide_eq_true. naive_solver.
    + apply Hone. cbn. by rewrite Ec.
  - destruct (d =? STAR) eqn:Ed.
    + rewrite (matchstar_iff c (matchhere re2) (starts (items re2).1 (items re2).2)) by (intros; apply IH; cbn; lia).
      cbn. rewrite Ed. destruct (items re2) as [l e]. cbn. by rewrite starts_many.
    + rewrite (bool_decide_eq_false_2 (d :: re2 = [])), andb_false_r by done.
      apply Hone. change (items (c :: d :: re2)) with
        (if d =? STAR then let '(l, e) := items re2 in (Many c :: l, e)
         else let '(l, e) := items (d :: re2) in (One c :: l, e)).
      rewrite Ed. by destruct (items (d :: re2)).
Qed.

Lemma match_any_iff re text :
  match_any re text = true <-> exists pre t, text = pre ++ t /\ matchhere re t = true.
Proof.
  induction text as [|x text IH]; cbn.
  - rewrite orb_false_r. split; [intros; by exists [], []|]. intros (s & t & E & Ht). by destruct s, t.
  - rewrite orb_true_iff, IH. split.
    + intros [H|(pre & t & -> & H)]; [by exists [], (x :: text)|by exists (x :: pre), t].
    + intros (pre & t & E & H). destruct pre as [|y pre]; cbn in E; [left; by subst|]. injection E as -> ->. right. eauto.
Qed.

Lemma match_iff re text : match_ re text = true <-> occurs re text.
Proof.
  assert (forall re', (exists pre t, text = pre ++ t /\ matchhere re' t = true)
    <-> let '(l, e) := items re' in exists pre mid post, text = pre ++ mid ++ post /\ lang l mid /\ (false = true -> pre = [])
          /\ (e = true -> post = [])) as Hany.
  { intros re'. destruct (items re') as [l e] eqn:Ei. split.
    - intros (pre & t & -> & H). rewrite matchhere_iff, Ei in H. destruct H as (mid & post & -> & H). exists pre, mid, post. naive_solver.
    - intros (pre & mid & post & -> & Hl & _ & He). exists pre, (mid ++ post). rewrite matchhere_iff, Ei.
      split; [done|]. by exists mid, post. }
  unfold match_, occurs, body, anchored. destruct re as [|c re]; [rewrite match_any_iff; apply Hany|].
  destruct (c =? CARET) eqn:Ec; [|rewrite match_any_iff; apply Hany].
  cbn [tl]. rewrite matchhere_iff. destruct (items re) as [l e]. cbn. unfold starts. split.
  - intros (mid & post & -> & Hl & He). by exists [], mid, post.
  - intros (pre & mid & post & -> & Hl & Hp & He). rewrite Hp by done. by exists mid, post.
Qed.

(** C38: the matcher of grep decides whether a pattern occurs in a text: it
    answers yes exactly if some part of the text is in the language of the
    pattern, where the part starts the text if the pattern starts with a caret
    and ends it if the pattern ends in a dollar. *)
Theorem match_correct re text : match_ re text = true <-> occurs re text.
Proof. apply match_iff. Qed.

(** ** grep prints the lines that match *)

(** A line has neither a newline nor a NUL. *)
Definition clean (l : list Z) : Prop := Forall (fun c => c <> NEWLINE /\ c <> 0) l.
Definition text_of (lines : list (list Z)) : list Z := lines ≫= (fun l => l ++ [NEWLINE]).
Definition printed (pattern : list Z) (lines : list (list Z)) : list Z :=
  text_of (filter (fun l => match_ pattern l = true) lines).

Lemma text_of_cons l ls : text_of (l :: ls) = l ++ NEWLINE :: text_of ls.
Proof. unfold text_of. cbn. by rewrite <- (assoc_L (++)). Qed.

Lemma printed_cons pattern l ls :
  printed pattern (l :: ls) = (if match_ pattern l then l ++ [NEWLINE] else []) ++ printed pattern ls.
Proof.
  unfold printed. rewrite filter_cons. destruct (match_ pattern l); [|done].
  rewrite decide_True by done. by rewrite text_of_cons, <- (assoc_L (++)).
Qed.

Lemma printed_app pattern ls1 ls2 : printed pattern (ls1 ++ ls2) = printed pattern ls1 ++ printed pattern ls2.
Proof. unfold printed, text_of. by rewrite list.filter_app, bind_app. Qed.

Lemma cut_line_text l r : clean l -> cut_line (l ++ NEWLINE :: r) = Some (l, r).
Proof.
  induction 1 as [|c l [Hn H0] Hl IH]; [done|]. cbn. rewrite IH.
  by rewrite (proj2 (Z.eqb_neq c NEWLINE)), (proj2 (Z.eqb_neq c 0)).
Qed.

Lemma cut_line_clean l : clean l -> cut_line l = None.
Proof.
  induction 1 as [|c l [Hn H0] Hl IH]; [done|]. cbn. rewrite IH.
  by rewrite (proj2 (Z.eqb_neq c NEWLINE)), (proj2 (Z.eqb_neq c 0)).
Qed.

Lemma grep_lines_text pattern ls rest fuel :
  Forall clean ls -> clean rest -> (length (text_of ls ++ rest) < fuel)%nat ->
  grep_lines pattern (text_of ls ++ rest) fuel = (printed pattern ls, rest).
Proof.
  intros Hls Hr. revert fuel. induction Hls as [|l ls Hl Hls IH]; intros [|fuel] Hf; try lia; cbn [grep_lines].
  - cbn. by rewrite cut_line_clean.
  - rewrite text_of_cons in *. rewrite <- (assoc_L (++)) in *. cbn [app] in *. rewrite cut_line_text by done.
    rewrite IH; [by rewrite printed_cons|]. rewrite length_app in Hf. cbn in Hf. lia.
Qed.

(** The lines that are complete in the first [k] bytes, and the start of the
    next one. *)
Lemma split_text ls k :
  Forall clean ls ->
  exists ls1 ls2 rest, ls = ls1 ++ ls2 /\ take k (text_of ls) = text_of ls1 ++ rest /\ clean rest
    /\ text_of ls2 = rest ++ drop k (text_of ls)
    /\ (ls1 = [] -> forall l, head ls2 = Some l -> (k <= length l)%nat).
Proof.
  intros Hls. revert k. induction Hls as [|l ls Hl Hls IH]; intros k.
  - exists [], [], []. change (text_of []) with ([] : list Z). rewrite take_nil, drop_nil. split_and!; done || constructor.
  - rewrite text_of_cons. destruct (decide (length l + 1 <= k)%nat) as [Hk|Hk].
    + destruct (IH (k - (length l + 1))%nat) as (ls1 & ls2 & rest & -> & Et & Hc & Ed & _).
      exists (l :: ls1), ls2, rest. rewrite text_of_cons.
      change (NEWLINE :: text_of (ls1 ++ ls2)) with ([NEWLINE] ++ text_of (ls1 ++ ls2)).
      rewrite !(assoc_L (++) l [NEWLINE]). split_and!; try done.
      * rewrite take_app_ge by (rewrite length_app; cbn; lia). rewrite length_app. cbn [length]. rewrite Et.
        by rewrite <- !(assoc_L (++)).
      * rewrite drop_app_ge by (rewrite length_app; cbn; lia). by rewrite length_app.
    + exists [], (l :: ls), (take k l). rewrite text_of_cons. cbn [text_of app]. split_and!; [done| | | |].
      * by rewrite take_app_le by lia.
      * by apply Forall_take.
      * rewrite drop_app_le by lia. rewrite (assoc_L (++)), take_drop. done.
      * intros _ l' [= <-]. lia.
Qed.

Lemma text_of_clean_nil ls : Forall clean ls -> clean (text_of ls) -> ls = [].
Proof.
  intros _. destruct ls as [|l ls]; [done|]. rewrite text_of_cons. intros H.
  apply Forall_app in H as [_ H]. inversion H as [|? ? [Hn _]]. done.
Qed.

Lemma grep_loop_ok pattern fuel ls buf file :
  Forall clean ls -> Forall (fun l => (length l <= GREPBUF - 2)%nat) ls -> clean buf ->
  buf ++ file = text_of ls -> (length buf <= GREPBUF - 2)%nat -> (length file < fuel)%nat ->
  grep_loop pattern buf file fuel = Some (printed pattern ls).
Proof.
  revert ls buf file. induction fuel as [|fuel IH]; intros ls buf file Hls Hlen Hb E Hlb Hf; [lia|]. cbn [grep_loop].
  set (n := (GREPBUF - length buf - 1)%nat). assert (1 <= n)%nat by (unfold n, GREPBUF in *; lia).
  case_bool_decide as Hc.
  - assert (file = []) as -> by (destruct file, n; done || lia). rewrite app_nil_r in E. subst buf.
    by rewrite (text_of_clean_nil ls Hls Hb).
  - assert (buf ++ take n file = take (GREPBUF - 1) (text_of ls)) as ->.
    { rewrite <- E, take_app_ge by (unfold GREPBUF in *; lia). do 2 f_equal. unfold n. lia. }
    assert (drop n file = drop (GREPBUF - 1) (text_of ls)) as ->.
    { rewrite <- E, drop_app_ge by (unfold GREPBUF in *; lia). f_equal. unfold n. lia. }
    destruct (split_text ls (GREPBUF - 1) Hls) as (ls1 & ls2 & rest & -> & -> & Hr & E2 & Hne).
    apply Forall_app in Hls as [Hl1 Hl2]. apply Forall_app in Hlen as [Hn1 Hn2].
    rewrite grep_lines_text by (done || lia).
    assert (ls1 <> []) as Hne1.
    { intros ->. destruct ls2 as [|l ls2].
      - cbn in E. apply app_eq_nil in E as [_ ->]. by rewrite take_nil in Hc.
      - specialize (Hne eq_refl l eq_refl). inversion Hn2. unfold GREPBUF in *. lia. }
    rewrite (proj2 (Nat.eqb_neq _ _)); [|destruct ls1; [done|]; rewrite text_of_cons, !length_app; cbn; lia].
    rewrite (IH ls2); [by rewrite printed_app|done..| | |].
    + by symmetry.
    + destruct ls2 as [|l ls2].
      * cbn in E2. symmetry in E2. apply app_eq_nil in E2 as [-> _]. cbn. lia.
      * rewrite text_of_cons in E2. inversion Hn2; subst.
        destruct (decide (length rest <= length l)%nat); [lia|]. exfalso.
        assert (rest !! length l = Some NEWLINE) as Hx.
        { assert ((rest ++ drop (GREPBUF - 1) (text_of (ls1 ++ l :: ls2))) !! length l = Some NEWLINE) as Hx.
          { rewrite <- E2. by rewrite lookup_app_r, Nat.sub_diag by lia. }
          by rewrite lookup_app_l in Hx by lia. }
        unfold clean in Hr. rewrite list.Forall_forall in Hr. destruct (Hr _ (list_elem_of_lookup_2 _ _ _ Hx)) as [Hn _]. done.
    + rewrite <- E, length_drop, length_app. destruct file; [by rewrite take_nil in Hc|]. cbn in *. unfold GREPBUF in *. lia.
Qed.

(** Grep prints the lines of a file that match the pattern, in order.  The
    file consists of lines that end in a newline, none longer than the buffer
    has room for; the loops of grep end. *)
Theorem grep_prints pattern ls :
  Forall clean ls -> Forall (fun l => (length l <= GREPBUF - 2)%nat) ls ->
  grep pattern (text_of ls) = Some (printed pattern ls).
Proof. intros Hc Hl. apply grep_loop_ok; try done; [constructor|cbn; unfold GREPBUF; lia|lia]. Qed.

(** The pattern [^a.*b$] and a file of four lines. *)
Lemma grep_prints_witness :
  grep [94; 97; 46; 42; 98; 36] (text_of [[97; 98]; [98; 97; 98]; [97; 120; 98]; [97; 98; 99]])
  = Some (text_of [[97; 98]; [97; 120; 98]]).
Proof.
  apply (grep_prints [94; 97; 46; 42; 98; 36] [[97; 98]; [98; 97; 98]; [97; 120; 98]; [97; 98; 99]]).
  - unfold clean. apply (bool_decide_unpack _). vm_compute. exact I.
  - apply (bool_decide_unpack _). vm_compute. exact I.
Defined.
