(* ===== verification/Printf.v ===== *)
(** * Formatted output

    Models printf.c of the user library, and [printint] and [cprintf] of
    console.c.  The output is the list of characters written; the arguments
    after the format are the words on the stack, and the strings of [%s] are
    read from memory.  [None] stands for reading behind the arguments or a
    string that does not end. *)

From S2P Require Import Prelude CString.
Open Scope Z_scope.

(** [digits[x % base]], with upper case letters in printf.c and lower case ones
    in console.c *)
Definition digit (lower : bool) (d : Z) : Z :=
  if d <? 10 then 48 + d else (if lower then 97 else 65) + (d - 10).

(** [do{ buf[i++] = digits[x % base]; } while((x /= base) != 0);]: the contents
    of [buf]. *)
Fixpoint print_digits (lower : bool) (x base : Z) (fuel : nat) : list Z :=
  match fuel with
  | O => []
  | S fuel =>
      digit lower (x mod base)
      :: (if x / base =? 0 then [] else print_digits lower (x / base) base fuel)
  end.

(** A 32-bit number has at most 32 digits. *)
Definition digit_fuel : nat := 32.

Definition print_number (lower : bool) (xx base : Z) (sgn : bool) : list Z :=
  let neg := sgn && (xx <? 0) in
  let x := if neg then u32 (- xx) else u32 xx in
  let buf := print_digits lower x base digit_fuel ++ (if neg then [45] else []) in
  reverse buf.

Definition printint (xx base : Z) (sgn : bool) : list Z := print_number false xx base sgn.

(** The string at address [s]. *)
Fixpoint string_at (m : mem) (s : Z) (fuel : nat) : option (list Z) :=
  match fuel with
  | O => None
  | S fuel =>
      if m s =? 0 then Some []
      else cons (m s) <$> string_at m (s + 1) fuel
  end.

Definition null_text : list Z := [40; 110; 117; 108; 108; 41].

Definition PERCENT : Z := 37.

(** [%s] *)
Definition print_string (m : mem) (s : Z) (fuel : nat) : option (list Z) :=
  if s =? 0 then Some null_text else string_at m s fuel.

(** The loop of [printf]; [pct] is [state == '%']. *)
Fixpoint printf_loop (m : mem) (fmt : list Z) (pct : bool) (ap : list Z) (fuel : nat)
    : option (list Z) :=
  match fmt with
  | [] => Some []
  | c :: fmt =>
      if negb pct then
        if c =? PERCENT then printf_loop m fmt true ap fuel
        else cons c <$> printf_loop m fmt false ap fuel
      else if c =? 100 (* d *) then
        '(a, ap) ← match ap with a :: ap => Some (a, ap) | [] => None end;
        app (printint (s32 a) 10 true) <$> printf_loop m fmt false ap fuel
      else if (c =? 120) || (c =? 112) (* x, p *) then
        '(a, ap) ← match ap with a :: ap => Some (a, ap) | [] => None end;
        app (printint (s32 a) 16 false) <$> printf_loop m fmt false ap fuel
      else if c =? 115 (* s *) then
        '(a, ap) ← match ap with a :: ap => Some (a, ap) | [] => None end;
        s ← print_string m a fuel;
        app s <$> printf_loop m fmt false ap fuel
      else if c =? 99 (* c *) then
        '(a, ap) ← match ap with a :: ap => Some (a, ap) | [] => None end;
        cons (u8 a) <$> printf_loop m fmt false ap fuel
      else if c =? PERCENT then cons c <$> printf_loop m fmt false ap fuel
      else app [PERCENT; c] <$> printf_loop m fmt false ap fuel
  end.

Definition printf (m : mem) (fmt ap : list Z) (fuel : nat) : option (list Z) :=
  printf_loop m fmt false ap fuel.

(** ** console.c *)
Definition cons_printint (xx base : Z) (sign : bool) : list Z := print_number true xx base sign.

Fixpoint cprintf_loop (m : mem) (fmt : list Z) (argp : list Z) (fuel : nat) : option (list Z) :=
  match fmt with
  | [] => Some []
  | c :: fmt =>
      if negb (c =? PERCENT) then cons c <$> cprintf_loop m fmt argp fuel
      else
        match fmt with
        | [] => Some []
        | c :: fmt =>
            if c =? 100 then
              '(a, argp) ← match argp with a :: argp => Some (a, argp) | [] => None end;
              app (cons_printint (s32 a) 10 true) <$> cprintf_loop m fmt argp fuel
            else if (c =? 120) || (c =? 112) then
              '(a, argp) ← match argp with a :: argp => Some (a, argp) | [] => None end;
              app (cons_printint (s32 a) 16 false) <$> cprintf_loop m fmt argp fuel
            else if c =? 115 then
              '(a, argp) ← match argp with a :: argp => Some (a, argp) | [] => None end;
              s ← print_string m a fuel;
              app s <$> cprintf_loop m fmt argp fuel
            else if c =? PERCENT then cons PERCENT <$> cprintf_loop m fmt argp fuel
            else app [PERCENT; c] <$> cprintf_loop m fmt argp fuel
        end
  end.

Definition cprintf (m : mem) (fmt argp : list Z) (fuel : nat) : option (list Z) :=
  cprintf_loop m fmt argp fuel.

(** ** What is printed *)

(** The digits of [x], as numbers, the least significant first. *)
Fixpoint digits_of (x base : Z) (fuel : nat) : list Z :=
  match fuel with
  | O => []
  | S fuel => x mod base :: (if x / base =? 0 then [] else digits_of (x / base) base fuel)
  end.

Lemma print_digits_of lower x base fuel :
  print_digits lower x base fuel = digit lower <$> digits_of x base fuel.
Proof.
  revert x. induction fuel as [|fuel IH]; intros x; [done|]. cbn. f_equal.
  destruct (x / base =? 0); [done|]. apply IH.
Qed.

Lemma digits_of_ok base fuel x :
  2 <= base -> 0 <= x < base ^ Z.of_nat fuel -> (0 < fuel)%nat ->
  Forall (fun d => 0 <= d < base) (digits_of x base fuel)
  /\ foldl (fun n d => n * base + d) 0 (reverse (digits_of x base fuel)) = x.
Proof.
  intros Hb. revert x. induction fuel as [|fuel IH]; intros x Hx Hf; [lia|]. cbn [digits_of].
  pose proof (Z.mod_pos_bound x base ltac:(lia)) as Hm. pose proof (Z.div_mod x base ltac:(lia)) as Hd.
  destruct (Z.eqb_spec (x / base) 0) as [E|E].
  - split; [constructor; [done|constructor]|]. cbn. lia.
  - assert (0 <= x / base < base ^ Z.of_nat fuel) as Hq.
    { split; [apply Z.div_pos; lia|]. apply Z.div_lt_upper_bound; [lia|].
      rewrite <- Z.pow_succ_r by lia. rewrite <- Nat2Z.inj_succ. lia. }
    destruct (IH (x / base) Hq) as [IH1 IH2]; [destruct fuel; cbn in *; lia|].
    split; [by constructor|]. rewrite reverse_cons, foldl_app. cbn [foldl]. rewrite IH2. lia.
Qed.

Lemma digits_of_length base fuel x k :
  2 <= base -> 0 <= x < base ^ Z.of_nat (S k) -> (length (digits_of x base fuel) <= S k)%nat.
Proof.
  intros Hb. revert x k. induction fuel as [|fuel IH]; intros x k Hx; cbn [digits_of length]; [lia|].
  destruct (Z.eqb_spec (x / base) 0) as [E|E]; [cbn; lia|]. destruct k as [|k].
  - exfalso. apply E. apply Z.div_small. lia.
  - specialize (IH (x / base) k). apply le_n_S, IH. split; [apply Z.div_pos; lia|].
    apply Z.div_lt_upper_bound; [lia|]. rewrite <- Z.pow_succ_r by lia.
    rewrite <- Nat2Z.inj_succ. lia.
Qed.

Lemma digits_value_digits lower ds :
  Forall (fun d => 0 <= d < 10) ds ->
  Forall is_digit (digit lower <$> ds) /\ digits_value (digit lower <$> ds) = foldl (fun n d => n * 10 + d) 0 ds.
Proof.
  intros Hds. unfold digits_value. generalize 0. induction Hds as [|d ds Hd Hds IH]; intros n; [done|].
  destruct (IH (n * 10 + d)) as [IH1 IH2]. cbn. unfold digit. rewrite (proj2 (Z.ltb_lt d 10)) by lia. split.
  - constructor; [unfold is_digit; lia|done].
  - rewrite <- IH2. f_equal. lia.
Qed.

Lemma printint_decimal x :
  - 2 ^ 31 <= x < 2 ^ 31 ->
  exists ds, printint x 10 true = (if x <? 0 then [45] else []) ++ ds
    /\ Forall is_digit ds /\ digits_value ds = Z.abs x /\ (length ds <= 10)%nat.
Proof.
  intros Hx. unfold printint, print_number. cbn [andb].
  assert ((if x <? 0 then u32 (- x) else u32 x) = Z.abs x) as ->.
  { destruct (Z.ltb_spec x 0); rewrite u32_small by lia; lia. }
  destruct (digits_of_ok 10 digit_fuel (Z.abs x)) as [H1 H2]; [lia|unfold digit_fuel; lia|unfold digit_fuel; lia|].
  pose proof (digits_of_length 10 digit_fuel (Z.abs x) 9 ltac:(lia) ltac:(lia)) as H3.
  rewrite print_digits_of, reverse_app. exists (digit false <$> reverse (digits_of (Z.abs x) 10 digit_fuel)).
  destruct (digits_value_digits false (reverse (digits_of (Z.abs x) 10 digit_fuel))) as [H4 H5]; [by apply Forall_reverse|].
  split_and!; [|done|by rewrite H5|by rewrite length_fmap, length_reverse].
  rewrite fmap_reverse. by destruct (x <? 0).
Qed.

(** [printf("%d")] of an [int] writes a minus sign if the number is negative
    and then decimal digits, from which [atoi] reads the number back; with the
    sign they fit the buffer of 16 characters of [printint]. *)
Theorem printint_then_atoi m m' s x :
  - 2 ^ 31 < x < 2 ^ 31 ->
  m' = store_bytes m s (printint x 10 true ++ [0]) ->
  let sign := if x <? 0 then 1%nat else 0%nat in
  (length (printint x 10 true) <= 16)%nat
  /\ (x < 0 -> m' s = 45)
  /\ Ulib.atoi m' (s + Z.of_nat sign) (S (length (printint x 10 true) - sign)) = Some (Z.abs x).
Proof.
  intros Hx -> sign. destruct (printint_decimal x) as (ds & -> & Hds & Hv & Hl); [lia|].
  assert (length ((if x <? 0 then [45] else []) : list Z) = sign) as Hs by (unfold sign; by destruct (x <? 0)).
  set (pre := (if x <? 0 then [45] else []) : list Z) in *. rewrite length_app, Hs.
  assert (sign <= 1)%nat by (unfold sign; destruct (x <? 0); lia). split_and!; [lia| |].
  - intros Hn. unfold pre. rewrite (proj2 (Z.ltb_lt x 0)) by lia. rewrite store_bytes_at, inside_true by (cbn; lia).
    by rewrite Z.sub_diag.
  - replace (sign + length ds - sign)%nat with (length ds) by lia. rewrite <- Hv.
    assert (forall i, (i <= length ds)%nat ->
      store_bytes m s ((pre ++ ds) ++ [0]) (s + Z.of_nat sign + Z.of_nat i) = (ds ++ [0]) !!! i) as Hat.
    { intros i Hi. rewrite store_bytes_at, inside_true by (rewrite !length_app, Hs; cbn; lia). rewrite <- (assoc_L (++)).
      rewrite lookup_total_app_r by lia. f_equal. lia. }
    apply atoi_reads; [done| | |lia].
    + intros i d Hi. pose proof (lookup_lt_Some _ _ _ Hi). rewrite Hat, lookup_total_app_l by lia.
      by apply list_lookup_total_correct.
    + rewrite Hat, lookup_total_app_r, Nat.sub_diag by lia. unfold is_digit. cbn. lia.
Qed.

Lemma printint_then_atoi_witness :
  let m' := store_bytes (fun _ => 9) 100 (printint (-2018) 10 true ++ [0]) in
  (length (printint (-2018) 10 true) <= 16)%nat
  /\ (-2018 < 0 -> m' 100 = 45)
  /\ Ulib.atoi m' 101 5 = Some 2018.
Proof.
  intros m'. apply (printint_then_atoi (fun _ => 9) m' 100 (-2018)).
  - lia.
  - reflexivity.
Defined.
