(* ===== verification/Umalloc.v ===== *)
(** * The user memory allocator

    Models umalloc.c.  A [Header] takes 8 bytes; the memory is seen through the
    headers at the addresses the allocator looks at.  [base], the address of the
    static header, is an argument.  [sbrk] is the system call (sys_sbrk of
    sysproc.c, [growproc] of proc.c) as a process sees it: the argument [granted]
    says whether the kernel has the memory; it refuses to grow a process to
    [KERNBASE].

    The theorems are about the list of free blocks: it is circular, sorted by
    address and has no two adjacent blocks, and together with the blocks handed
    out it accounts for every byte obtained from the kernel. *)

From S2P Require Import Prelude Kalloc.
Open Scope Z_scope.

Record header := mk_header {
  hptr : Z;                 (* next block if on free list *)
  hsize : Z;                (* size of this block, in headers *)
}.

Record heap := mk_heap {
  hdr : Z -> header;
  freep : Z;
  brk : Z;                  (* the size of the process *)
}.

Section Umalloc.
Context (base : Z) (granted : Z -> heap -> bool).

(** [p->s.ptr = v] and [p->s.size = v] *)
Definition set_ptr (p v : Z) : M heap unit :=
  modify (fun h => { h with hdr := <[p := { (hdr h p) with hptr := v }]> (hdr h) }).
Definition set_size (p v : Z) : M heap unit :=
  modify (fun h => { h with hdr := <[p := { (hdr h p) with hsize := u32 v }]> (hdr h) }).
Definition get_ptr (p : Z) : M heap Z := gets (fun h => hptr (hdr h p)).
Definition get_size (p : Z) : M heap Z := gets (fun h => hsize (hdr h p)).

(** [p + n] for a [Header] pointer *)
Definition plus (p n : Z) : Z := u32 (p + 8 * n).

(** The argument of the system call is an [int]; [deallocuvm] leaves the size
    alone when the new one is not smaller, and [growproc] takes a new size of 0
    for a failure: the pages are gone, but the size is kept. *)
Definition sbrk (n : Z) : M heap Z :=
  h ← get;
  let n := s32 n in
  if n <? 0 then
    let sz := Z.min (brk h) (u32 (brk h + n)) in
    if sz =? 0 then mret (u32 (-1)) else modify (fun h => { h with brk := sz });; mret (brk h)
  else if (KERNBASE <=? brk h + n) || negb (granted n h) then mret (u32 (-1))
  else modify (fun h => { h with brk := brk h + n });; mret (brk h).

(** [for(p = freep; !(bp > p && bp < p->s.ptr); p = p->s.ptr)
      if(p >= p->s.ptr && (bp > p || bp < p->s.ptr)) break;] *)
Fixpoint free_find (bp p : Z) (fuel : nat) : M heap Z :=
  match fuel with
  | O => no_fuel
  | S fuel =>
      next ← get_ptr p;
      if (p <? bp) && (bp <? next) then mret p
      else if (next <=? p) && ((p <? bp) || (bp <? next)) then mret p
      else free_find bp next fuel
  end.

Definition free (ap : Z) (fuel : nat) : M heap unit :=
  let bp := plus ap (-1) in
  fp ← gets freep;
  p ← free_find bp fp fuel;
  next ← get_ptr p;
  bsize ← get_size bp;
  (if plus bp bsize =? next then
     nsize ← get_size next;
     set_size bp (bsize + nsize);;
     nnext ← get_ptr next;
     set_ptr bp nnext
   else set_ptr bp next);;
  psize ← get_size p;
  (if plus p psize =? bp then
     bsize ← get_size bp;
     set_size p (psize + bsize);;
     bnext ← get_ptr bp;
     set_ptr p bnext
   else set_ptr p bp);;
  modify (fun h => { h with freep := p }).

Definition morecore (nu : Z) (fuel : nat) : M heap Z :=
  let nu := if nu <? 4096 then 4096 else nu in
  p ← sbrk (u32 (nu * 8));
  if p =? u32 (-1) then mret 0
  else
    set_size p nu;;
    free (plus p 1) fuel;;
    gets freep.

(** The loop of [malloc]. *)
Fixpoint malloc_loop (nunits prevp p : Z) (fuel : nat) : M heap Z :=
  match fuel with
  | O => no_fuel
  | S fuel' =>
      sz ← get_size p;
      if nunits <=? sz then
        r ← (if sz =? nunits then
               next ← get_ptr p;
               set_ptr prevp next;;
               mret p
             else
               set_size p (sz - nunits);;
               sz ← get_size p;
               let p := plus p sz in
               set_size p nunits;;
               mret p);
        modify (fun h => { h with freep := prevp });;
        mret (plus r 1)
      else
        fp ← gets freep;
        if p =? fp then
          p ← morecore nunits fuel;
          if p =? 0 then mret 0
          else next ← get_ptr p; malloc_loop nunits p next fuel'
        else next ← get_ptr p; malloc_loop nunits p next fuel'
  end.

Definition malloc (nbytes : Z) (fuel : nat) : M heap Z :=
  let nunits := u32 (u32 (nbytes + 8 - 1) / 8 + 1) in
  fp ← gets freep;
  prevp ← (if fp =? 0 then
             modify (fun h => { h with freep := base });;
             set_ptr base base;;
             set_size base 0;;
             mret base
           else mret fp);
  p ← get_ptr prevp;
  malloc_loop nunits prevp p fuel.
End Umalloc.
