(* ===== verification/UmallocTheory.v ===== *)
(** * The allocator's free list

    A free block is a pair of its address and its size in headers.  The list of
    free blocks is kept in memory as a circular list that starts with [base]. *)

From S2P Require Import Prelude Kalloc Umalloc.
Open Scope Z_scope.

#[local] Abbreviation blk := (Z * Z)%type.

Definition head_addr (l : list blk) (last : Z) : Z :=
  match l with [] => last | (x, _) :: _ => x end.

(** The headers in memory link the blocks, and the last one to [last]. *)
Fixpoint chain (h : Z -> header) (l : list blk) (last : Z) : Prop :=
  match l with
  | [] => True
  | (x, sz) :: l => h x = mk_header (head_addr l last) sz /\ chain h l last
  end.

(** The blocks lie between [lo] and [hi] in this order, no two adjacent. *)
Fixpoint apart (lo : Z) (l : list blk) (hi : Z) : Prop :=
  match l with
  | [] => lo <= hi
  | (x, sz) :: l => lo < x /\ 0 <= sz /\ apart (x + 8 * sz) l hi
  end.

Fixpoint end_of (lo : Z) (l : list blk) : Z :=
  match l with [] => lo | (x, sz) :: l => end_of (x + 8 * sz) l end.

Definition covers (l : list blk) (a : Z) : Prop :=
  exists x sz, (x, sz) ∈ l /\ x <= a < x + 8 * sz.

(** ** Chains *)
Lemma head_addr_app A B last : head_addr (A ++ B) last = head_addr A (head_addr B last).
Proof. by destruct A as [|[]]. Qed.

Lemma chain_app h A B last : chain h (A ++ B) last <-> chain h A (head_addr B last) /\ chain h B last.
Proof.
  induction A as [|[x sz] A IH]; cbn [chain app]; [naive_solver|]. rewrite IH, head_addr_app. naive_solver.
Qed.

(** A chain depends on the headers of its blocks only. *)
Lemma header_chain_ext h h' l last : (forall x, x ∈ l.*1 -> h' x = h x) -> chain h l last -> chain h' l last.
Proof.
  induction l as [|[x sz] l IH]; cbn; [done|]. intros He [H1 H2]. split.
  - rewrite He; [done|by left].
  - apply IH; [|done]. intros y Hy. apply He. by right.
Qed.

Lemma chain_insert h l last a v : a ∉ l.*1 -> chain h l last -> chain (<[a := v]> h) l last.
Proof. intros Ha. apply header_chain_ext. intros x Hx. apply fn_lookup_insert_ne. intros ->. done. Qed.

(** Turning the circle. *)
Lemma chain_rotate h A B last :
  head_addr (A ++ B) last = last -> B <> [] ->
  chain h (A ++ B) last -> chain h (B ++ A) (head_addr B last).
Proof.
  intros Hh HB [HA HC]%chain_app. apply chain_app. split; [|done].
  destruct A as [|a A]; [|cbn in Hh; destruct a; cbn; by subst].
  cbn in Hh |- *. by rewrite Hh.
Qed.

(** ** Blocks in order *)
Lemma apart_app lo A B hi : apart lo (A ++ B) hi <-> apart lo A (end_of lo A) /\ apart (end_of lo A) B hi.
Proof.
  revert lo. induction A as [|[x sz] A IH]; intros lo; cbn [apart app end_of].
  - split; [|naive_solver]. intros H. split; [lia|done].
  - rewrite IH. naive_solver.
Qed.

Lemma end_of_app lo A B : end_of lo (A ++ B) = end_of (end_of lo A) B.
Proof. revert lo. induction A as [|[x sz] A IH]; intros lo; cbn; [done|apply IH]. Qed.

Lemma apart_le lo l hi : apart lo l hi -> lo <= end_of lo l <= hi.
Proof.
  revert lo. induction l as [|[x sz] l IH]; intros lo; cbn; [lia|]. intros (H1 & H2 & H3). apply IH in H3. lia.
Qed.

Lemma apart_in lo l hi x sz : apart lo l hi -> (x, sz) ∈ l -> lo < x /\ 0 <= sz /\ x + 8 * sz <= hi.
Proof.
  intros Ha (A & B & ->)%list_elem_of_split. apply apart_app in Ha as [H1 H2]. cbn in H2.
  pose proof (apart_le _ _ _ H1). pose proof (apart_le _ _ _ (proj2 (proj2 H2))). lia.
Qed.

Lemma apart_mono lo lo' l hi hi' : apart lo l hi -> lo' <= lo -> hi <= hi' -> apart lo' l hi'.
Proof.
  revert lo lo'. induction l as [|[x sz] l IH]; intros lo lo'; cbn; [lia|].
  intros (H1 & H2 & H3) Hl Hh. split_and!; [lia|done|]. by apply (IH (x + 8 * sz)).
Qed.

(** In front of an address, and behind it. *)
Lemma apart_before lo A B hi x : apart lo (A ++ B) hi -> x ∈ A.*1 -> x <= end_of lo A.
Proof.
  intros [H _]%apart_app ([y sz] & -> & Hin)%list_elem_of_fmap. apply (apart_in _ _ _ _ _ H) in Hin. cbn. lia.
Qed.
Lemma apart_after lo A B hi x : apart lo (A ++ B) hi -> x ∈ B.*1 -> end_of lo A < x.
Proof.
  intros [_ H]%apart_app ([y sz] & -> & Hin)%list_elem_of_fmap. apply (apart_in _ _ _ _ _ H) in Hin. cbn. lia.
Qed.

Lemma apart_nodup lo l hi : apart lo l hi -> NoDup l.*1.
Proof.
  revert lo. induction l as [|[x sz] l IH]; intros lo; cbn; [constructor|]. intros (H1 & H2 & H3).
  constructor; [|by apply IH in H3]. intros Hx. pose proof (apart_after (x + 8 * sz) [] l hi x H3 Hx). cbn in *. lia.
Qed.

(** A block disjoint from the others has its place between two of them. *)
Lemma place lo l hi b n :
  apart lo l hi -> lo <= b -> b + 8 * n <= hi -> 0 < n ->
  (forall x sz, (x, sz) ∈ l -> b + 8 * n <= x \/ x + 8 * sz <= b) ->
  exists A B, l = A ++ B /\ end_of lo A <= b /\ b + 8 * n <= head_addr B hi.
Proof.
  revert lo. induction l as [|[x sz] l IH]; intros lo Ha Hl Hh Hn Hd.
  - by exists [], [].
  - cbn in Ha. destruct Ha as (H1 & H2 & H3). destruct (Hd x sz ltac:(by left)) as [Hb|Hb].
    + exists [], ((x, sz) :: l). done.
    + destruct (IH (x + 8 * sz)) as (A & B & -> & HA & HB); try done.
      { intros y s Hy. apply Hd. by right. }
      by exists ((x, sz) :: A), B.
Qed.

(** ** The free list in memory *)
Section Heap.
Context (base : Z).

(** The blocks of the circle, in order. *)
Definition circle (L : list blk) : list blk := (base, 0) :: L.

Record wf (h : heap) (L : list blk) : Prop := {
  wf_base : 0 < base;
  wf_chain : chain (hdr h) (circle L) base;
  wf_apart : apart (base - 1) (circle L) (brk h);
  wf_pos : Forall (fun b => 0 < b.2) L;
  wf_freep : freep h ∈ (circle L).*1;
  wf_low : base < brk h;
  wf_brk : brk h < KERNBASE;
}.

(** *** [free] finds the place of a block *)
Lemma free_find_there h bp C p ps B lo hi fuel :
  chain (hdr h) (C ++ (p, ps) :: B) base -> apart lo (C ++ (p, ps) :: B) hi ->
  base <= p < bp -> bp < head_addr B (bp + 1) -> (length C < fuel)%nat ->
  free_find bp (head_addr (C ++ (p, ps) :: B) base) fuel h = Ok p h.
Proof.
  revert lo fuel. induction C as [|[q qs] C IH]; intros lo fuel Hc Ha Hp Hb Hf; (destruct fuel as [|fuel]; [cbn in Hf; lia|]).
  - cbn [app head_addr free_find]. destruct Hc as [Hc _]. unfold get_ptr. msimpl. rewrite Hc. cbn [hptr].
    rewrite (proj2 (Z.ltb_lt p bp)) by lia. destruct B as [|[y ys] B]; cbn [head_addr] in *.
    + rewrite (proj2 (Z.leb_le base p)) by lia. by destruct (bp <? base).
    + by rewrite (proj2 (Z.ltb_lt bp y)) by lia.
  - cbn [app head_addr free_find]. destruct Hc as [Hq Hc]. unfold get_ptr. msimpl. rewrite Hq. cbn [hptr].
    destruct Ha as (H1 & H2 & H3). assert (q < head_addr (C ++ (p, ps) :: B) base <= p) as Hn.
    { destruct C as [|[y ys] C]; cbn in *; [lia|]. destruct H3 as (H3 & H4 & H5).
      pose proof (apart_in _ _ _ p ps H5 ltac:(apply elem_of_app; right; by left)). lia. }
    rewrite (proj2 (Z.ltb_ge bp _)), (proj2 (Z.leb_gt _ q)), andb_false_r by lia. cbn [andb].
    apply (IH (q + 8 * qs)); try done. cbn in Hf. lia.
Qed.

Lemma free_find_around h bp D lo hi fuel :
  chain (hdr h) D base -> apart lo D hi -> bp < head_addr D (bp + 1) -> base <= bp ->
  free_find bp (head_addr D base) (length D + fuel) h = free_find bp base fuel h.
Proof.
  revert lo. induction D as [|[q qs] D IH]; intros lo Hc Ha Hb Hba; [done|]. cbn [head_addr length Nat.add free_find] in *.
  destruct Hc as [Hq Hc]. unfold get_ptr. msimpl. rewrite Hq. cbn [hptr]. destruct Ha as (H1 & H2 & H3).
  rewrite (proj2 (Z.ltb_ge q bp)) by lia. cbn [andb orb]. replace ((_ <=? q) && _) with false.
  - apply (IH (q + 8 * qs)); [done..| |done]. destruct D as [|[y ys] D]; cbn in *; lia.
  - destruct D as [|[y ys] D]; cbn [head_addr] in *.
    + by rewrite (proj2 (Z.ltb_ge bp base)), andb_false_r by lia.
    + destruct H3. by rewrite (proj2 (Z.leb_gt y q)) by lia.
Qed.

(** A block of a list, by its address. *)
Lemma addr_split (l : list blk) x : x ∈ l.*1 -> exists A sz B, l = A ++ (x, sz) :: B.
Proof. intros ([y sz] & -> & (A & B & ->)%list_elem_of_split)%list_elem_of_fmap. by exists A, sz, B. Qed.

Lemma free_find_ok h L A p ps B bp fuel :
  wf h L -> circle L = A ++ (p, ps) :: B -> p < bp -> bp < head_addr B (bp + 1) ->
  (length (circle L) < fuel)%nat -> free_find bp (freep h) fuel h = Ok p h.
Proof.
  intros Hwf E Hp Hb Hf. pose proof (wf_chain h L Hwf) as Hc. pose proof (wf_apart h L Hwf) as Ha.
  assert (base <= p) as Hbp.
  { pose proof (apart_in _ _ _ p ps Ha ltac:(rewrite E; apply elem_of_app; right; by left)). lia. }
  assert (forall fuel, (length A < fuel)%nat -> free_find bp base fuel h = Ok p h) as Hbase.
  { intros f Hfl. rewrite E in Hc, Ha. pose proof (free_find_there h bp A p ps B (base - 1) (brk h) f Hc Ha ltac:(lia) Hb Hfl) as Hr.
    rewrite <- E in Hr. exact Hr. }
  pose proof (wf_freep h L Hwf) as Hin. rewrite E, fmap_app, elem_of_app in Hin. cbn [fmap list_fmap] in Hin.
  rewrite elem_of_cons in Hin. rewrite E in Hc, Ha, Hf. rewrite length_app in Hf. cbn [length] in Hf.
  destruct Hin as [Hin|[Hin|Hin]].
  - apply addr_split in Hin as (A1 & fs & A2 & ->). rewrite <- (assoc_L (++)) in Hc, Ha. apply chain_app in Hc as [_ Hc].
    apply apart_app in Ha as [_ Ha]. apply (free_find_there h bp ((freep h, fs) :: A2) p ps B _ _ fuel Hc Ha); [lia|done|].
    rewrite length_app in Hf. cbn in *. lia.
  - apply chain_app in Hc as [_ Hc]. apply apart_app in Ha as [_ Ha]. cbn in Hin. rewrite Hin.
    apply (free_find_there h bp [] p ps B _ _ fuel Hc Ha); [lia|done|cbn; lia].
  - apply addr_split in Hin as (B1 & fs & B2 & ->). apply chain_app in Hc as [_ [_ Hc]]. apply chain_app in Hc as [_ Hc].
    apply apart_app in Ha as [_ (_ & _ & Ha)]. rewrite length_app in Hf. cbn [length] in Hf.
    replace fuel with (length ((freep h, fs) :: B2) + (fuel - length ((freep h, fs) :: B2)))%nat by (cbn; lia).
    assert (bp < freep h) as Hfp.
    { destruct B1 as [|[y ys] B1]; cbn in Hb, Ha; [lia|]. destruct Ha as (_ & ? & Ha).
      apply (apart_in _ _ _ (freep h) fs) in Ha; [lia|]. apply elem_of_app. right. by left. }
    apply apart_app in Ha as [_ Ha]. etrans; [apply (free_find_around h bp ((freep h, fs) :: B2) _ _ _ Hc Ha); [done|lia]|].
    apply Hbase. cbn [length]. lia.
Qed.
(** *** [free] links it in *)

(** [h'] is [h] with the header at [a] changed to [v]. *)
Record updates (h h' : heap) (a : Z) (v : header) : Prop := {
  up_at : hdr h' a = v;
  up_other : forall q, q <> a -> hdr h' q = hdr h q;
  up_freep : freep h' = freep h;
  up_brk : brk h' = brk h;
}.

Lemma set_ptr_ok a v h :
  exists h', set_ptr a v h = Ok tt h' /\ updates h h' a (mk_header v (hsize (hdr h a))).
Proof.
  eexists. split; [reflexivity|]. split; cbn; [by rewrite fn_lookup_insert| |done..].
  intros q Hq. by rewrite fn_lookup_insert_ne.
Qed.

Lemma set_size_ok a v h :
  exists h', set_size a v h = Ok tt h' /\ updates h h' a (mk_header (hptr (hdr h a)) (u32 v)).
Proof.
  eexists. split; [reflexivity|]. split; cbn; [by rewrite fn_lookup_insert| |done..].
  intros q Hq. by rewrite fn_lookup_insert_ne.
Qed.

Lemma set_both_ok a v b h :
  b <> a -> exists h', (set_size a v;; x ← get_ptr b; set_ptr a x) h = Ok tt h'
    /\ updates h h' a (mk_header (hptr (hdr h b)) (u32 v)).
Proof.
  intros Hne. destruct (set_size_ok a v h) as (h1 & E1 & U1). rewrite (bind_ok _ _ _ _ _ E1). msimpl.
  destruct (set_ptr_ok a (hptr (hdr h1 b)) h1) as (h2 & E2 & U2). exists h2. split; [exact E2|].
  destruct U1 as [A1 O1 F1 B1], U2 as [A2 O2 F2 B2]. split; [|by intros q Hq; rewrite O2, O1|congruence..].
  by rewrite A2, A1, O1.
Qed.

Lemma chain_updates h h' a v l last : updates h h' a v -> a ∉ l.*1 -> chain (hdr h) l last -> chain (hdr h') l last.
Proof. intros U Ha. apply header_chain_ext. intros x Hx. apply (up_other _ _ _ _ U). by intros ->. Qed.

(** Joining a block with the one behind it if they are adjacent. *)
Definition join (b n : Z) (B : list blk) : list blk :=
  match B with
  | (y, ys) :: B' => if b + 8 * n =? y then (b, n + ys) :: B' else (b, n) :: B
  | [] => [(b, n)]
  end.

Lemma join_apart lo b n B hi :
  lo < b -> 0 <= n -> apart (b + 8 * n - 1) B hi -> b + 8 * n <= hi -> apart lo (join b n B) hi.
Proof.
  intros Hl Hn Ha Hh. destruct B as [|[y ys] B]; cbn in *; [lia|]. destruct Ha as (H1 & H2 & H3).
  destruct (Z.eqb_spec (b + 8 * n) y) as [<-|Hne]; cbn; [|split_and!; [done..|lia|done|done]].
  split_and!; [done|lia|]. by replace (b + 8 * (n + ys)) with (b + 8 * n + 8 * ys) by lia.
Qed.

Lemma join_covers b n B lo hi a :
  0 <= n -> apart lo B hi -> covers (join b n B) a <-> covers B a \/ b <= a < b + 8 * n.
Proof.
  intros Hn Ha. unfold covers. destruct B as [|[y ys] B]; cbn [join].
  - setoid_rewrite list_elem_of_singleton. setoid_rewrite elem_of_nil. naive_solver.
  - destruct Ha as (_ & H2 & _). destruct (Z.eqb_spec (b + 8 * n) y) as [<-|Hne]; setoid_rewrite elem_of_cons; split.
    + intros (x & sz & [[= -> ->]|Hin] & Hx); [|left; by exists x, sz; auto].
      destruct (Z.lt_ge_cases a (b + 8 * n)); [right; lia|]. left. exists (b + 8 * n), ys. split; [by left|lia].
    + intros [(x & sz & [[= -> ->]|Hin] & Hx)|Hx]; [exists b, (n + ys)|exists x, sz|exists b, (n + ys)]; (split; [auto|lia]).
    + intros (x & sz & [[= -> ->]|Hin] & Hx); [by right|]. left. exists x, sz. by rewrite elem_of_cons in Hin.
    + intros [(x & sz & Hin & Hx)|Hx]; [exists x, sz|exists b, n]; rewrite ?elem_of_cons; auto.
Qed.

Lemma join_pos b n B : 0 < n -> Forall (fun b => 0 < b.2) B -> Forall (fun b => 0 < b.2) (join b n B).
Proof.
  intros Hn HB. destruct B as [|[y ys] B]; cbn [join]; [by repeat constructor|]. inversion HB. cbn in *.
  destruct (_ =? _); repeat constructor; cbn; auto; lia.
Qed.

Lemma join_length b n B : (length (join b n B) <= S (length B))%nat.
Proof. destruct B as [|[y ys] B]; cbn [join]; [done|]. destruct (_ =? _); cbn; lia. Qed.

(** Its first block begins with [b] and is at least as long. *)
Lemma join_head b n B lo hi : apart lo B hi -> exists s B', join b n B = (b, s) :: B' /\ n <= s.
Proof.
  intros Ha. destruct B as [|[y ys] B]; cbn [join]; [by exists n, []|]. destruct Ha as (_ & ? & _).
  destruct (_ =? _); [exists (n + ys), B|exists n, ((y, ys) :: B)]; split; auto; lia.
Qed.

Lemma plus_small p n : 0 <= p + 8 * n < 2 ^ 32 -> plus p n = p + 8 * n.
Proof. apply u32_small. Qed.

(** The first half of [free]: [bp] and the block behind it, if there is one. *)
Lemma link_next h bp bs B hi :
  chain (hdr h) B base -> apart (bp + 8 * bs - 1) B hi -> hsize (hdr h bp) = bs ->
  0 < bs -> 0 <= bp -> hi < 2 ^ 31 -> base < bp ->
  exists h' nx s B', (if plus bp bs =? head_addr B base then
       nsize ← get_size (head_addr B base);
       set_size bp (bs + nsize);;
       nnext ← get_ptr (head_addr B base);
       set_ptr bp nnext
     else set_ptr bp (head_addr B base)) h = Ok tt h'
    /\ updates h h' bp (mk_header nx s) /\ join bp bs B = (bp, s) :: B'
    /\ chain (hdr h') ((bp, s) :: B') base.
Proof.
  intros Hc Ha Hs Hpos Hbp Hhi Hb. pose proof (apart_le _ _ _ Ha) as Hle. rewrite plus_small by lia.
  destruct B as [|[y ys] B]; cbn [head_addr join].
  - rewrite (proj2 (Z.eqb_neq _ _)) by lia. destruct (set_ptr_ok bp base h) as (h' & E & U).
    exists h', base, bs, []. rewrite Hs in U. split_and!; [done..|]. split; [apply (up_at _ _ _ _ U)|done].
  - destruct Ha as (H1 & H2 & H3). pose proof (apart_le _ _ _ H3). destruct Hc as [Hy Hc].
    assert (bp ∉ B.*1) as HnB.
    { intros Hin. pose proof (apart_after (y + 8 * ys) [] B hi bp H3 Hin). cbn in *. lia. }
    destruct (Z.eqb_spec (bp + 8 * bs) y) as [Ey|Ey].
    + erewrite bind_ok by reflexivity. rewrite Hy. cbn [hsize]. destruct (set_both_ok bp (bs + ys) y h) as (h' & E & U); [lia|].
      rewrite Hy, u32_small in U by lia. exists h', (head_addr B base), (bs + ys), B. split_and!; [exact E|done..|].
      split; [apply (up_at _ _ _ _ U)|]. by apply (chain_updates _ _ _ _ _ _ U).
    + destruct (set_ptr_ok bp y h) as (h' & E & U). rewrite Hs in U. exists h', y, bs, ((y, ys) :: B).
      split_and!; [exact E|done..|]. split; [apply (up_at _ _ _ _ U)|].
      apply (chain_updates _ _ _ _ _ _ U); [|done]. cbn. apply not_elem_of_cons. split; [lia|done].
Qed.

(** The second half: the block in front of [bp]. *)
Lemma link_prev h p ps bp s B pn :
  chain (hdr h) ((bp, s) :: B) base -> hdr h p = mk_header pn ps -> p ∉ bp :: B.*1 ->
  0 <= p -> 0 <= ps -> p + 8 * ps <= bp -> 0 <= s -> bp + 8 * s < 2 ^ 31 ->
  exists h' v, (if plus p ps =? bp then
       bsize ← get_size bp;
       set_size p (ps + bsize);;
       bnext ← get_ptr bp;
       set_ptr p bnext
     else set_ptr p bp) h = Ok tt h'
    /\ updates h h' p v /\ chain (hdr h') (join p ps ((bp, s) :: B)) base.
Proof.
  intros [Hbp Hc] Hp Hnin H1 H2 H3 H4 H5. rewrite plus_small by lia. cbn [join].
  apply not_elem_of_cons in Hnin as [Hne Hnin]. destruct (Z.eqb_spec (p + 8 * ps) bp) as [E|E].
  - erewrite bind_ok by reflexivity. rewrite Hbp. cbn [hsize].
    destruct (set_both_ok p (ps + s) bp h) as (h' & E' & U); [done|]. rewrite Hbp, u32_small in U by lia.
    eexists h', _. split_and!; [exact E'|exact U|]. split; [apply (up_at _ _ _ _ U)|]. by apply (chain_updates _ _ _ _ _ _ U).
  - destruct (set_ptr_ok p bp h) as (h' & E' & U). rewrite Hp in U. eexists h', _. split_and!; [exact E'|exact U|].
    split; [apply (up_at _ _ _ _ U)|]. apply (chain_updates _ _ _ _ _ _ U); [|by split]. cbn. by apply not_elem_of_cons.
Qed.

(** A block that is not on the free list. *)
Record loose (h : heap) (L : list blk) (b n : Z) : Prop := {
  lo_size : hsize (hdr h b) = n;
  lo_pos : 0 < n;
  lo_low : base < b;
  lo_high : b + 8 * n <= brk h;
  lo_apart : forall x sz, (x, sz) ∈ L -> b + 8 * n <= x \/ x + 8 * sz <= b;
}.

(** The place of a loose block on the circle. *)
Lemma loose_place h L b n :
  wf h L -> loose h L b n ->
  exists A p ps B, circle L = A ++ (p, ps) :: B /\ p + 8 * ps <= b /\ b + 8 * n <= head_addr B (brk h)
    /\ apart (base - 1) (A ++ [(p, ps)]) (p + 8 * ps) /\ apart (b + 8 * n - 1) B (brk h)
    /\ p < b /\ 0 <= ps.
Proof.
  intros Hwf [_ Hn Hl Hh Hd]. pose proof (wf_apart h L Hwf) as Ha. unfold circle in *.
  assert (apart (base + 8 * 0) L (brk h)) as HL by apply Ha.
  destruct (place _ _ _ b n HL) as (A & B & -> & HA & HB); try done; [lia|].
  assert ((base, 0) :: A <> []) as Hne by done. destruct (exists_last Hne) as (A' & [p ps] & EA).
  exists A', p, ps, B. change ((base, 0) :: A ++ B) with (((base, 0) :: A) ++ B) in *. rewrite EA in *.
  apply apart_app in Ha as [Ha1 Ha2]. assert (end_of (base - 1) (A' ++ [(p, ps)]) = p + 8 * ps) as Ee by apply end_of_app.
  assert (p + 8 * ps <= b) as Hp. { rewrite <- Ee, <- EA. exact HA. }
  rewrite Ee in Ha1, Ha2. pose proof (apart_in _ _ _ p ps Ha1 ltac:(apply elem_of_app; right; by left)) as (? & ? & _).
  split_and!; [by rewrite <- (assoc_L (++))|done|done|done| | |done].
  - destruct B as [|[y ys] B]; cbn in *; [lia|]. destruct Ha2 as (? & ? & ?). split_and!; [lia|done..].
  - destruct (Z.eq_dec p b) as [->|]; [|lia]. exfalso. assert (ps = 0) by lia. subst.
    destruct A' as [|c A']; cbn in EA; [injection EA as -> _; lia|].
    injection EA as _ EA. pose proof (wf_pos h _ Hwf) as Hpos. rewrite EA in Hpos.
    rewrite !Forall_app in Hpos. destruct Hpos as [[_ Hp0] _]. inversion Hp0. cbn in *. lia.
Qed.

(** The circle after [free] has linked in a block. *)
Lemma circle_linked A p ps B b n L :
  circle L = A ++ (p, ps) :: B -> base < b -> 0 < n -> Forall (fun c => 0 < c.2) L ->
  exists L', circle L' = A ++ join p ps (join b n B) /\ Forall (fun c => 0 < c.2) L'
    /\ (length L' <= S (length L))%nat.
Proof.
  intros E Hb Hn HL. destruct A as [|c A]; cbn in E.
  - injection E as <- <- ->. exists (join b n B). split_and!; [|by apply join_pos|apply join_length].
    cbn [app]. destruct B as [|[y ys] B]; cbn [join]; [|destruct (_ =? _); cbn [join]];
      by rewrite (proj2 (Z.eqb_neq _ _)) by lia.
  - injection E as <- ->. apply Forall_app in HL as [HA HB]. inversion HB as [|? ? Hp HB']. cbn in Hp.
    exists (A ++ join p ps (join b n B)). split_and!; [done| |].
    + apply Forall_app. split; [done|]. by apply join_pos, join_pos.
    + rewrite !length_app. cbn. pose proof (join_length p ps (join b n B)). pose proof (join_length b n B).
      destruct B as [|[y ys] B]; cbn [join length] in *; [destruct (_ =? _); cbn; lia|].
      destruct (b + 8 * n =? y); cbn [join length] in *; destruct (_ =? _); cbn; lia.
Qed.

Lemma free_run h L b n A p ps B fuel :
  wf h L -> loose h L b n -> (length (circle L) < fuel)%nat ->
  circle L = A ++ (p, ps) :: B -> p + 8 * ps <= b -> p < b -> 0 <= ps ->
  b + 8 * n <= head_addr B (brk h) -> apart (b + 8 * n - 1) B (brk h) -> apart (base - 1) (A ++ [(p, ps)]) (p + 8 * ps) ->
  exists h', free (b + 8) fuel h = Ok tt h' /\ chain (hdr h') (A ++ join p ps (join b n B)) base
    /\ freep h' = p /\ brk h' = brk h /\ (forall q, q <> p -> q <> b -> hdr h' q = hdr h q).
Proof.
  intros Hwf Hlo Hf E H1 Hpb Hps H2 HaB HaA. pose proof Hlo as [Hs Hn Hl Hh _]. pose proof (wf_brk h L Hwf) as Hk.
  unfold KERNBASE in Hk. pose proof (wf_base h L Hwf) as H0.
  pose proof (wf_chain h L Hwf) as Hc. rewrite E in Hc. apply chain_app in Hc as [HcA [Hhp HcB]].
  pose proof (apart_in _ _ _ p ps HaA ltac:(apply elem_of_app; right; by left)) as (Hpl & _ & _).
  assert (apart p (join b n B) (brk h)) as HaJ by (apply join_apart; [done|lia|done|lia]).
  unfold free. rewrite plus_small by lia. replace (b + 8 + 8 * -1) with b by lia.
  erewrite bind_ok by reflexivity. rewrite (bind_ok _ _ _ _ _ (free_find_ok h L A p ps B b fuel Hwf E Hpb ltac:(destruct B as [|[]]; cbn in *; lia) Hf)).
  erewrite bind_ok by reflexivity. rewrite Hhp. cbn [hptr]. erewrite bind_ok by reflexivity. rewrite Hs.
  destruct (link_next h b n B (brk h) HcB HaB Hs Hn ltac:(lia) ltac:(lia) Hl) as (h1 & nx & s & B' & E1 & U1 & Ej & Hc1).
  rewrite (bind_ok _ _ _ _ _ E1). erewrite bind_ok by reflexivity. rewrite (up_other _ _ _ _ U1 p ltac:(lia)), Hhp. cbn [hsize].
  rewrite Ej in HaJ |- *. destruct HaJ as (_ & Hs0 & HaB'). pose proof (apart_le _ _ _ HaB') as Hle.
  assert (p ∉ b :: B'.*1) as Hnin.
  { apply not_elem_of_cons. split; [lia|]. intros Hin. pose proof (apart_after _ [] _ _ p HaB' Hin). cbn in *. lia. }
  destruct (link_prev h1 p ps b s B' (head_addr B base) Hc1) as (h2 & v & E2 & U2 & Hc2); try done; try lia.
  { by rewrite (up_other _ _ _ _ U1) by lia. }
  rewrite (bind_ok _ _ _ _ _ E2). eexists. split; [reflexivity|].
  split_and!; [|done|cbn; by rewrite (up_brk _ _ _ _ U2), (up_brk _ _ _ _ U1)|].
  - apply chain_app. split; [|done]. assert (head_addr (join p ps ((b, s) :: B')) base = p) as ->.
    { cbn [join]. by destruct (p + 8 * ps =? b). }
    assert (forall q, q ∈ A.*1 -> q < p) as HA.
    { intros q Hq. pose proof (apart_before _ _ _ _ q HaA Hq). apply apart_app in HaA as [_ [? _]]. lia. }
    cbn. apply (chain_updates _ _ _ _ _ _ U2); [intros Hq%HA; lia|]. apply (chain_updates _ _ _ _ _ _ U1); [intros Hq%HA; lia|done].
  - intros q Hq Hq'. cbn. by rewrite (up_other _ _ _ _ U2), (up_other _ _ _ _ U1).
Qed.

Lemma covers_app A B a : covers (A ++ B) a <-> covers A a \/ covers B a.
Proof. unfold covers. setoid_rewrite elem_of_app. naive_solver. Qed.
Lemma covers_cons x sz B a : covers ((x, sz) :: B) a <-> covers B a \/ x <= a < x + 8 * sz.
Proof.
  unfold covers. setoid_rewrite elem_of_cons. split.
  - intros (y & s & [[= -> ->]|Hin] & Hy); eauto.
  - intros [(y & s & Hin & Hy)|Hy]; eauto 6.
Qed.
Lemma covers_circle L a : covers (circle L) a <-> covers L a.
Proof. unfold circle. rewrite covers_cons. split; [|auto]. intros [?|?]; [done|lia]. Qed.

(** [free] gives the block back: the free list is in order again and covers the
    bytes it covered and those of the block. *)
Lemma free_ok h L b n fuel :
  wf h L -> loose h L b n -> (length (circle L) < fuel)%nat ->
  exists h' L', free (b + 8) fuel h = Ok tt h' /\ wf h' L' /\ brk h' = brk h /\ (length L' <= S (length L))%nat
    /\ (forall a, covers L' a <-> covers L a \/ b <= a < b + 8 * n)
    /\ (exists x sz, (x, sz) ∈ L' /\ n <= sz)
    /\ (forall q, q ∉ (circle L).*1 -> q <> b -> hdr h' q = hdr h q).
Proof.
  intros Hwf Hlo Hf. pose proof (loose_place h L b n Hwf Hlo) as (A & p & ps & B & E & H1 & H2 & HaA & HaB & Hpb & Hps).
  destruct (free_run h L b n A p ps B fuel) as (h' & E' & Hc & Hfp & Hbrk & Hq); try done.
  pose proof Hlo as [_ Hn Hl Hh _].
  destruct (circle_linked A p ps B b n L E Hl Hn (wf_pos h L Hwf)) as (L' & EL & Hpos & Hlen).
  assert (apart (p + 8 * ps - 1) (join b n B) (brk h)) as HaJ by (apply join_apart; lia || done).
  destruct (join_head b n B _ _ HaB) as (s & B' & Ej & Hs).
  exists h', L'. split_and!; try done.
  - split; [apply Hwf|by rewrite EL|rewrite EL, Hbrk|done|rewrite EL, Hfp|rewrite Hbrk; apply Hwf..].
    + apply apart_app. apply apart_app in HaA as [HA1 (HA2 & _ & _)]. split; [done|]. apply join_apart; lia || done.
    + rewrite fmap_app. apply elem_of_app. right. destruct (join_head p ps _ _ _ HaJ) as (s' & B'' & -> & _). by left.
  - intros a. rewrite <- covers_circle, EL, <- (covers_circle L), E, !covers_app, covers_cons.
    rewrite (join_covers p ps _ _ _ a Hps HaJ), (join_covers b n B _ _ a ltac:(lia) HaB). tauto.
  - assert (exists x sz, (x, sz) ∈ join p ps (join b n B) /\ n <= sz) as (x & sz & Hin & Hsz).
    { rewrite Ej. cbn [join]. destruct (_ =? _); [exists p, (ps + s)|exists b, s]; rewrite ?elem_of_cons; split; auto; lia. }
    exists x, sz. split; [|done]. assert ((x, sz) ∈ circle L') as Hin' by (rewrite EL; apply elem_of_app; by right).
    apply elem_of_cons in Hin' as [[= -> ->]|Hin']; [lia|done].
  - intros q Hq1 Hq2. apply Hq; [|done]. intros ->. apply Hq1. rewrite E, fmap_app. apply elem_of_app. right. by left.
Qed.

(** ** [malloc] *)
Context (granted : Z -> heap -> bool).

(** *** Walking around the circle *)
Fixpoint last_addr (prev : Z) (l : list blk) : Z :=
  match l with [] => prev | (x, _) :: l => last_addr x l end.

Lemma last_addr_snoc prev l x sz : last_addr prev (l ++ [(x, sz)]) = x.
Proof. revert prev. by induction l as [|[y s] l IH]; intros prev; cbn. Qed.

Lemma malloc_walk h n prev R1 R2 last fuel :
  chain (hdr h) (R1 ++ R2) last -> Forall (fun b => b.2 < n /\ b.1 <> freep h) R1 ->
  malloc_loop granted n prev (head_addr (R1 ++ R2) last) (length R1 + fuel) h
  = malloc_loop granted n (last_addr prev R1) (head_addr R2 last) fuel h.
Proof.
  revert prev. induction R1 as [|[x sz] R1 IH]; intros prev Hc HR; [done|].
  cbn [last_addr app head_addr length Nat.add malloc_loop]. destruct Hc as [Hx Hc]. inversion HR as [|? ? [Hsz Hne] HR']. cbn in Hsz, Hne.
  erewrite bind_ok by reflexivity. rewrite Hx. cbn [hsize]. rewrite (proj2 (Z.leb_gt n sz)) by done.
  erewrite bind_ok by reflexivity. rewrite (proj2 (Z.eqb_neq x _)) by done.
  erewrite bind_ok by reflexivity. rewrite Hx. by apply IH.
Qed.

Lemma first_fit (R : list blk) n :
  (exists R1 x sz R2, R = R1 ++ (x, sz) :: R2 /\ Forall (fun b => b.2 < n) R1 /\ n <= sz)
  \/ Forall (fun b => b.2 < n) R.
Proof.
  induction R as [|[x sz] R [(R1 & y & s & R2 & -> & H1 & H2)|IH]]; [by right| |].
  - left. destruct (Z.lt_ge_cases sz n).
    + exists ((x, sz) :: R1), y, s, R2. split_and!; [done|by constructor|done].
    + exists [], x, sz, (R1 ++ (y, s) :: R2). by split_and!.
  - destruct (Z.lt_ge_cases sz n); [right; by constructor|]. left. by exists [], x, sz, R.
Qed.

(** The circle from the block behind [freep] on, once around. *)
Definition tour (A : list blk) (fp fs : Z) (B : list blk) : list blk := B ++ A ++ [(fp, fs)].

Lemma tour_chain h L A fs B :
  wf h L -> circle L = A ++ (freep h, fs) :: B ->
  chain (hdr h) (tour A (freep h) fs B) (head_addr (tour A (freep h) fs B) 0)
  /\ (forall d, hptr (hdr h (freep h)) = head_addr (tour A (freep h) fs B) d)
  /\ Forall (fun b => b.1 <> freep h) (B ++ A).
Proof.
  intros Hwf E. pose proof (wf_chain h L Hwf) as Hc. pose proof (apart_nodup _ _ _ (wf_apart h L Hwf)) as Hnd. rewrite E in Hc, Hnd.
  apply chain_rotate in Hc; [|by rewrite <- E|done]. destruct Hc as [Hf Hc].
  assert (forall d, head_addr (tour A (freep h) fs B) d = head_addr (B ++ A) (freep h)) as Eh.
  { intros d. unfold tour. by rewrite (assoc_L (++)), head_addr_app. }
  rewrite Eh. split_and!.
  - unfold tour. rewrite (assoc_L (++)). apply chain_app. split; [done|]. by split.
  - intros d. by rewrite Hf, Eh.
  - rewrite fmap_app in Hnd. cbn in Hnd. apply list.NoDup_app in Hnd as (_ & Hd & Hnd). apply list.NoDup_cons in Hnd as [Hnd _].
    apply list.Forall_forall. intros [x sz] Hin Ex. cbn in Ex. subst x. apply elem_of_app in Hin as [Hin|Hin].
    + apply Hnd. apply list_elem_of_fmap. by exists (freep h, sz).
    + apply (Hd (freep h)); [|by left]. apply list_elem_of_fmap. by exists (freep h, sz).
Qed.

(** The block in front of another one on the tour is the one in front of it on the
    free list. *)
Lemma tour_prev L A fp fs B R1 x sz R2 :
  circle L = A ++ (fp, fs) :: B -> tour A fp fs B = R1 ++ (x, sz) :: R2 -> x <> base ->
  exists P ys Q, circle L = P ++ (last_addr fp R1, ys) :: (x, sz) :: Q.
Proof.
  intros E Et Hx. unfold tour in Et.
  assert (circle L = (A ++ [(fp, fs)]) ++ B) as E' by (by rewrite E, <- (assoc_L (++))).
  assert (forall R, A ++ [(fp, fs)] = (x, sz) :: R -> False) as Hhead.
  { intros R ER. rewrite ER in E'. injection E' as E1 _. congruence. }
  apply app_eq_inv in Et as [(k & -> & Ek)|(k & -> & Ek)].
  - destruct k as [|c k]; cbn in Ek; [by symmetry in Ek; apply Hhead in Ek|]. injection Ek as <- ->.
    destruct (exists_last (l := (fp, fs) :: R1)) as (P & [y ys] & EP); [done|].
    exists (A ++ P), ys, k. assert (last_addr fp R1 = y) as ->.
    { change (last_addr fp R1) with (last_addr 0 ((fp, fs) :: R1)). by rewrite EP, last_addr_snoc. }
    rewrite E. change ((fp, fs) :: R1 ++ (x, sz) :: k) with (((fp, fs) :: R1) ++ (x, sz) :: k). rewrite EP.
    by rewrite <- !(assoc_L (++)).
  - destruct (exists_last (l := k)) as (P & [y ys] & ->); [intros ->; by apply Hhead in Ek|].
    exists P, ys, (R2 ++ B). rewrite (assoc_L (++)), last_addr_snoc, E', Ek. by rewrite <- !(assoc_L (++)).
Qed.

(** *** Taking a block *)

(** What is left of the block [(x, sz)] and those behind it when its last [n]
    headers are taken. *)
Definition left_over (x sz n : Z) (Q : list blk) : list blk :=
  if sz =? n then Q else (x, sz - n) :: Q.

Lemma take_run h P y ys x sz Q n fuel lo hi :
  chain (hdr h) (P ++ (y, ys) :: (x, sz) :: Q) base -> apart lo (P ++ (y, ys) :: (x, sz) :: Q) hi ->
  0 < n <= sz -> -1 <= lo -> hi < KERNBASE ->
  let r := x + 8 * (sz - n) in
  exists h', malloc_loop granted n y x (S fuel) h = Ok (r + 8) h'
    /\ chain (hdr h') (P ++ (y, ys) :: left_over x sz n Q) base
    /\ hsize (hdr h' r) = n /\ freep h' = y /\ brk h' = brk h
    /\ (forall q, q <> y -> q <> x -> q <> r -> hdr h' q = hdr h q).
Proof.
  intros Hc Ha Hn Hlo Hhi r. unfold KERNBASE in Hhi. pose proof (apart_nodup _ _ _ Ha) as Hnd.
  apply chain_app in Hc as [HcP (Hy & Hx & HcQ)]. apply apart_app in Ha as [HaP (H1 & H2 & H3 & H4 & HaQ)].
  pose proof (apart_le _ _ _ HaP) as HlP. pose proof (apart_le _ _ _ HaQ) as HlQ.
  assert (forall q, q ∈ P.*1 -> q < y) as HP.
  { intros q Hq. rewrite <- (app_nil_r P) in HaP. pose proof (apart_before _ _ _ _ q HaP Hq). rewrite app_nil_r in *. lia. }
  assert (forall q, q ∈ Q.*1 -> x + 8 * sz < q) as HQ.
  { intros q Hq. pose proof (apart_after _ [] _ _ q HaQ Hq). cbn in *. lia. }
  cbn [malloc_loop]. erewrite bind_ok by reflexivity. rewrite Hx. cbn [hsize]. rewrite (proj2 (Z.leb_le n sz)) by lia.
  unfold left_over. destruct (Z.eqb_spec sz n) as [->|Hne].
  - assert (r = x) as -> by (unfold r; lia). destruct (set_ptr_ok y (head_addr Q base) h) as (h1 & E1 & U1). rewrite Hy in U1.
    eexists. split.
    { erewrite bind_ok; [|erewrite bind_ok by reflexivity; rewrite Hx; erewrite bind_ok by exact E1; reflexivity].
      erewrite bind_ok by reflexivity. rewrite plus_small by lia. reflexivity. }
    cbn. split_and!; [|by rewrite (up_other _ _ _ _ U1), Hx by lia|done|apply U1|].
    + apply chain_app. split; [apply (chain_updates _ _ _ _ _ _ U1); [by intros ?%HP; lia|done]|].
      split; [apply (up_at _ _ _ _ U1)|]. apply (chain_updates _ _ _ _ _ _ U1); [by intros ?%HQ; lia|done].
    + intros q Hq1 Hq2 _. by rewrite (up_other _ _ _ _ U1).
  - destruct (set_size_ok x (sz - n) h) as (h1 & E1 & U1). rewrite Hx, u32_small in U1 by lia.
    destruct (set_size_ok r n h1) as (h2 & E2 & U2). rewrite u32_small in U2 by lia.
    assert (r <> x /\ x < r < x + 8 * sz) as [Hrx Hr] by (unfold r; lia). eexists. split.
    { erewrite bind_ok; [|erewrite bind_ok by exact E1; erewrite bind_ok by reflexivity; rewrite (up_at _ _ _ _ U1); cbn [hsize];
        rewrite plus_small by lia; erewrite bind_ok by exact E2; reflexivity].
      erewrite bind_ok by reflexivity. rewrite plus_small by lia. reflexivity. }
    cbn. split_and!; [|by rewrite (up_at _ _ _ _ U2)|done|by rewrite (up_brk _ _ _ _ U2), (up_brk _ _ _ _ U1)|].
    + assert (forall l, r ∉ l.*1 -> x ∉ l.*1 -> forall last, chain (hdr h) l last -> chain (hdr h2) l last) as Hk.
      { intros l Hl1 Hl2 last Hl. by apply (chain_updates _ _ _ _ _ _ U2), (chain_updates _ _ _ _ _ _ U1). }
      apply chain_app. split; [apply Hk; [intros ?%HP; lia..|done]|]. cbn [chain]. split_and!; [| |apply Hk; [intros ?%HQ; lia..|done]].
      * by rewrite (up_other _ _ _ _ U2), (up_other _ _ _ _ U1) by lia.
      * rewrite (up_other _ _ _ _ U2) by lia. apply (up_at _ _ _ _ U1).
    + intros q Hq1 Hq2 Hq3. by rewrite (up_other _ _ _ _ U2), (up_other _ _ _ _ U1).
Qed.

(** What [malloc] leaves: the block of [n] headers at [r] is off the free list,
    which otherwise covers what it covered. *)
Record took (h h' : heap) (L L' : list blk) (r n : Z) : Prop := {
  tk_wf : wf h' L';
  tk_brk : brk h' = brk h;
  tk_loose : loose h' L' r n;
  tk_covers : forall a, covers L a <-> covers L' a \/ r <= a < r + 8 * n;
  tk_other : forall q, q ∉ (circle L).*1 -> q <> r -> hdr h' q = hdr h q;
}.

Lemma left_over_circle L P y ys x sz Q n :
  circle L = P ++ (y, ys) :: (x, sz) :: Q -> Forall (fun c => 0 < c.2) L -> 0 < n <= sz ->
  exists L', circle L' = P ++ (y, ys) :: left_over x sz n Q /\ Forall (fun c => 0 < c.2) L'.
Proof.
  intros E HL Hn. assert (0 < sz -> Forall (fun c => 0 < c.2) Q -> Forall (fun c => 0 < c.2) (left_over x sz n Q)) as HT.
  { intros _ HQ. unfold left_over. destruct (Z.eqb_spec sz n); [done|]. constructor; [cbn; lia|done]. }
  destruct P as [|c P]; cbn in E.
  - injection E as <- <- ->. exists (left_over x sz n Q). split; [done|]. inversion HL. auto.
  - injection E as <- ->. exists (P ++ (y, ys) :: left_over x sz n Q). split; [done|].
    apply Forall_app in HL as [HP HL]. inversion HL as [|? ? Hy HL']. inversion HL'. apply Forall_app. auto.
Qed.

Lemma left_over_covers x sz n Q a : 0 < n <= sz ->
  covers ((x, sz) :: Q) a <-> covers (left_over x sz n Q) a \/ x + 8 * (sz - n) <= a < x + 8 * (sz - n) + 8 * n.
Proof.
  intros Hn. unfold left_over. rewrite covers_cons. destruct (Z.eqb_spec sz n) as [->|Hne].
  - replace (x + 8 * (n - n)) with x by lia. tauto.
  - rewrite covers_cons. split.
    + intros [H|H]; [by left; left|]. destruct (Z.lt_ge_cases a (x + 8 * (sz - n))); [left; right; lia|right; lia].
    + intros [[H|H]|H]; [by left|right; lia..].
Qed.

Lemma malloc_takes h L P y ys x sz Q n fuel :
  wf h L -> circle L = P ++ (y, ys) :: (x, sz) :: Q -> 0 < n <= sz ->
  let r := x + 8 * (sz - n) in
  exists h' L', malloc_loop granted n y x (S fuel) h = Ok (r + 8) h' /\ took h h' L L' r n.
Proof.
  intros Hwf E Hn r. pose proof (wf_chain h L Hwf) as Hc. pose proof (wf_apart h L Hwf) as Ha. pose proof (wf_base h L Hwf).
  rewrite E in Hc, Ha. destruct (take_run h P y ys x sz Q n fuel _ _ Hc Ha Hn ltac:(lia) (wf_brk h L Hwf)) as (h' & E' & Hc' & Hs' & Hf' & Hb' & Hq').
  destruct (left_over_circle L P y ys x sz Q n E (wf_pos h L Hwf) Hn) as (L' & EL & Hpos).
  exists h', L'. split; [exact E'|]. pose proof (proj1 (apart_app _ _ _ _) Ha) as [HaP (Hy & Hys & Hx & Hsz & HaQ)].
  pose proof (apart_le _ _ _ HaP). pose proof (apart_le _ _ _ HaQ).
  assert (apart (base - 1) (circle L') (brk h)) as Ha'.
  { rewrite EL. apply apart_app. split; [done|]. cbn. split_and!; [done..|]. unfold left_over. destruct (Z.eqb_spec sz n).
    - apply (apart_mono _ _ _ _ _ HaQ); lia.
    - cbn. split_and!; [done|lia|]. apply (apart_mono _ _ _ _ _ HaQ); lia. }
  split.
  - split; [done|by rewrite EL|by rewrite Hb'|done| |rewrite Hb'; apply Hwf..].
    rewrite EL, Hf', fmap_app. apply elem_of_app. right. by left.
  - done.
  - split; [done|lia|lia|rewrite Hb'; lia|]. intros z s Hin. assert ((z, s) ∈ circle L') as Hin' by (by right).
    rewrite EL in Hin'. apply elem_of_app in Hin' as [Hin'|Hin'].
    { apply (apart_in _ _ _ _ _ HaP) in Hin'. unfold r. lia. }
    apply elem_of_cons in Hin' as [[= -> ->]|Hin']; [unfold r; lia|]. unfold left_over in Hin'.
    destruct (Z.eqb_spec sz n); [|apply elem_of_cons in Hin' as [[= -> ->]|Hin']; [unfold r; lia|]];
      apply (apart_in _ _ _ _ _ HaQ) in Hin'; unfold r; lia.
  - intros a. rewrite <- covers_circle, E, <- (covers_circle L'), EL, !covers_app, (covers_cons y ys), (covers_cons y ys).
    rewrite (left_over_covers x sz n Q a Hn). tauto.
  - intros q Hq Hqr. rewrite E, fmap_app, not_elem_of_app in Hq. cbn in Hq. rewrite !not_elem_of_cons in Hq. apply Hq'; tauto.
Qed.

(** *** Searching *)
Lemma wf_freep_split h L : wf h L -> exists A fs B, circle L = A ++ (freep h, fs) :: B.
Proof. intros Hwf. apply addr_split, (wf_freep h L Hwf). Qed.

Lemma tour_length L A fp fs B : circle L = A ++ (fp, fs) :: B -> length (tour A fp fs B) = length (circle L).
Proof. intros ->. unfold tour. rewrite !length_app. cbn. lia. Qed.

Lemma tour_prefix R1 x sz R2 A fp fs B :
  tour A fp fs B = R1 ++ (x, sz) :: R2 -> exists R', B ++ A = R1 ++ R'.
Proof.
  unfold tour. rewrite (assoc_L (++)). intros E. destruct R2 as [|c R2 _] using rev_ind.
  - apply app_inj_tail in E as [-> _]. exists []. by rewrite app_nil_r.
  - exists ((x, sz) :: R2). change (R1 ++ (x, sz) :: R2 ++ [c]) with (R1 ++ ((x, sz) :: R2) ++ [c]) in E.
    rewrite (assoc_L (++)) in E. by apply app_inj_tail in E as [-> _].
Qed.

(** There is a block that is large enough. *)
Lemma malloc_search h L n fuel :
  wf h L -> (exists x sz, (x, sz) ∈ L /\ n <= sz) -> 0 < n -> (length (circle L) < fuel)%nat ->
  exists h' L' r, malloc_loop granted n (freep h) (hptr (hdr h (freep h))) fuel h = Ok (r + 8) h' /\ took h h' L L' r n.
Proof.
  intros Hwf (x & sz & Hin & Hsz) Hn Hf. destruct (wf_freep_split h L Hwf) as (A & fs & B & E).
  destruct (tour_chain h L A fs B Hwf E) as (Hc & Hp & Hne).
  destruct (first_fit (tour A (freep h) fs B) n) as [(R1 & y & s & R2 & ER & HR1 & Hs)|Hall].
  - assert (y <> base) as Hy.
    { intros ->. assert ((base, s) ∈ circle L) as Hb.
      { assert ((base, s) ∈ tour A (freep h) fs B) as Ht by (rewrite ER; apply elem_of_app; right; by left).
        rewrite E. unfold tour in Ht. rewrite !elem_of_app, list_elem_of_singleton in Ht. rewrite elem_of_app, elem_of_cons. tauto. }
      apply elem_of_cons in Hb as [[= ->]|Hb]; [lia|]. pose proof (wf_apart h L Hwf) as (_ & _ & Ha).
      apply (apart_in _ _ _ _ _ Ha) in Hb. lia. }
    destruct (tour_prev L A _ fs B R1 y s R2 E ER Hy) as (P & ys & Q & EP).
    rewrite ER in Hc, Hp. destruct (tour_prefix _ _ _ _ _ _ _ _ ER) as [R' ER'].
    assert (Forall (fun b => b.2 < n /\ b.1 <> freep h) R1) as HR.
    { apply Forall_and; [done|]. rewrite ER' in Hne. by apply Forall_app in Hne as [Hne _]. }
    pose proof (tour_length L A (freep h) fs B E) as Hlen. rewrite ER, length_app in Hlen. cbn [length] in Hlen.
    rewrite (Hp (head_addr (R1 ++ (y, s) :: R2) 0)). replace fuel with (length R1 + S (fuel - length R1 - 1))%nat by lia.
    rewrite (malloc_walk h n (freep h) R1 ((y, s) :: R2) _ _ Hc HR). cbn [head_addr].
    destruct (malloc_takes h L P _ ys y s Q n (fuel - length R1 - 1) Hwf EP ltac:(lia)) as (h' & L' & E' & Ht). eauto.
  - exfalso. rewrite list.Forall_forall in Hall. assert ((x, sz) ∈ circle L) as Hin' by (by right). rewrite E in Hin'.
    enough (sz < n) by lia. apply (Hall (x, sz)). unfold tour. rewrite !elem_of_app, list_elem_of_singleton.
    rewrite elem_of_app, elem_of_cons in Hin'. tauto.
Qed.

(** There is none: the search ends at [freep] and asks for more. *)
Lemma malloc_none h L n fuel :
  wf h L -> Forall (fun b => b.2 < n) L -> 0 < n -> (length L <= fuel)%nat ->
  let f := (fuel - length L)%nat in
  malloc_loop granted n (freep h) (hptr (hdr h (freep h))) (S fuel) h
  = (p ← morecore granted n (S f);
     if p =? 0 then mret 0 else next ← get_ptr p; malloc_loop granted n p next f) h.
Proof.
  intros Hwf Hall Hn Hf f. destruct (wf_freep_split h L Hwf) as (A & fs & B & E).
  destruct (tour_chain h L A fs B Hwf E) as (Hc & Hp & Hne).
  assert (Forall (fun b => b.2 < n) (A ++ (freep h, fs) :: B)) as Hall' by (rewrite <- E; by constructor).
  apply Forall_app in Hall' as [HA HB]. inversion HB as [|? ? Hfs HB']. cbn in Hfs.
  assert (length (B ++ A) = length L) as Hlen.
  { apply (f_equal length) in E. rewrite length_app in E. cbn in E. rewrite length_app. lia. }
  assert (tour A (freep h) fs B = (B ++ A) ++ [(freep h, fs)]) as Et by (unfold tour; by rewrite (assoc_L (++))).
  rewrite Et in Hc, Hp. rewrite (Hp (head_addr ((B ++ A) ++ [(freep h, fs)]) 0)).
  replace (S fuel) with (length (B ++ A) + S f)%nat by lia.
  rewrite (malloc_walk h n (freep h) (B ++ A) _ _ _ Hc) by (apply Forall_and; [by apply Forall_app|done]).
  apply chain_app in Hc as [_ [Hfp _]]. cbn [head_addr malloc_loop]. erewrite bind_ok by reflexivity. rewrite Hfp. cbn [hsize].
  rewrite (proj2 (Z.leb_gt n fs)) by done. erewrite bind_ok by reflexivity. by rewrite Z.eqb_refl.
Qed.

(** *** Asking for more *)
Lemma circle_covers h L q : wf h L -> q ∈ (circle L).*1 -> q = base \/ covers L q.
Proof.
  intros Hwf. cbn. rewrite elem_of_cons. intros [->|([x sz] & -> & Hin)%list_elem_of_fmap]; [by left|right].
  exists x, sz. split; [done|]. pose proof (wf_pos h L Hwf) as Hpos. rewrite list.Forall_forall in Hpos.
  apply Hpos in Hin. cbn in *. lia.
Qed.

Lemma covers_below h L a : wf h L -> covers L a -> base < a < brk h.
Proof.
  intros Hwf (x & sz & Hin & Ha). pose proof (wf_apart h L Hwf) as (_ & _ & HL).
  apply (apart_in _ _ _ _ _ HL) in Hin. lia.
Qed.

Lemma sbrk_ok n h :
  0 <= n < 2 ^ 31 ->
  sbrk granted n h = if (KERNBASE <=? brk h + n) || negb (granted n h) then Ok (u32 (-1)) h
                     else Ok (brk h) { h with brk := brk h + n }.
Proof.
  intros Hn. unfold sbrk. erewrite bind_ok by reflexivity. rewrite s32_small, (proj2 (Z.ltb_ge n 0)) by lia.
  by destruct (_ || _).
Qed.

(** The new memory as a loose block at the old break. *)
Lemma grown h h' L n :
  wf h L -> 0 < n -> brk h + 8 * n < KERNBASE ->
  updates { h with brk := brk h + 8 * n } h' (brk h) (mk_header (hptr (hdr h (brk h))) n) ->
  wf h' L /\ loose h' L (brk h) n.
Proof.
  intros Hwf Hn Hk U. assert (brk h' = brk h + 8 * n) as Hb by apply U. pose proof (wf_low h L Hwf).
  assert (brk h ∉ (circle L).*1) as Hnin.
  { intros [Hq|Hq%(covers_below h L _ Hwf)]%(circle_covers h L _ Hwf); lia. }
  split; split; try rewrite Hb; try lia.
  - apply Hwf.
  - apply (chain_updates _ _ _ _ _ _ U); [done|apply Hwf].
  - apply (apart_mono _ _ _ _ _ (wf_apart h L Hwf)); lia.
  - apply Hwf.
  - rewrite (up_freep _ _ _ _ U). apply Hwf.
  - by rewrite (up_at _ _ _ _ U).
  - intros x sz Hin. pose proof (wf_apart h L Hwf) as (_ & _ & HL). apply (apart_in _ _ _ _ _ HL) in Hin. lia.
Qed.

Lemma morecore_ok h L n fuel :
  wf h L -> 0 < n -> 8 * n < 2 ^ 31 -> (length (circle L) < fuel)%nat ->
  let nu := Z.max n 4096 in
  (morecore granted n fuel h = Ok 0 h /\ (KERNBASE <= brk h + 8 * nu \/ granted (8 * nu) h = false))
  \/ exists h' L', morecore granted n fuel h = Ok (freep h') h' /\ wf h' L' /\ brk h' = brk h + 8 * nu
       /\ (length L' <= S (length L))%nat
       /\ (forall a, covers L' a <-> covers L a \/ brk h <= a < brk h + 8 * nu)
       /\ (exists x sz, (x, sz) ∈ L' /\ n <= sz)
       /\ (forall q, q ∉ (circle L).*1 -> q <> brk h -> hdr h' q = hdr h q).
Proof.
  intros Hwf Hn H8 Hf nu. assert ((if n <? 4096 then 4096 else n) = nu) as Enu by (unfold nu; destruct (Z.ltb_spec n 4096); lia).
  pose proof (wf_brk h L Hwf) as Hk. pose proof (wf_base h L Hwf). pose proof (wf_low h L Hwf).
  unfold morecore. rewrite Enu, (u32_small (nu * 8)), (Z.mul_comm nu 8) by lia.
  pose proof (sbrk_ok (8 * nu) h ltac:(lia)) as Es.
  destruct ((KERNBASE <=? brk h + 8 * nu) || negb (granted (8 * nu) h)) eqn:Eg.
  - left. rewrite (bind_ok _ _ _ _ _ Es). split; [done|].
    apply orb_true_iff in Eg as [?%Z.leb_le|?%negb_true_iff]; auto.
  - right. rewrite (bind_ok _ _ _ _ _ Es). apply orb_false_iff in Eg as [Hlt%Z.leb_gt _]. unfold KERNBASE in *.
    rewrite (proj2 (Z.eqb_neq (brk h) (u32 (-1)))) by (change (u32 (-1)) with (2 ^ 32 - 1); lia).
    destruct (set_size_ok (brk h) nu { h with brk := brk h + 8 * nu }) as (h1 & E1 & U1). rewrite (bind_ok _ _ _ _ _ E1).
    rewrite u32_small in U1 by lia. destruct (grown h h1 L nu Hwf ltac:(lia) Hlt U1) as [Hwf1 Hlo1].
    destruct (free_ok h1 L (brk h) nu fuel Hwf1 Hlo1 Hf) as (h' & L' & E' & Hwf' & Hb' & Hl' & Hc' & (x & sz & Hin & Hsz) & Hq').
    rewrite plus_small by lia. replace (brk h + 8 * 1) with (brk h + 8) by lia.
    exists h', L'. split_and!; [by rewrite (bind_ok _ _ _ _ _ E')|done| |done|done|exists x, sz; split; [done|lia]|].
    + by rewrite Hb', (up_brk _ _ _ _ U1).
    + intros q Hq1 Hq2. by rewrite Hq', (up_other _ _ _ _ U1).
Qed.

Lemma malloc_loop_ok h L n fuel :
  wf h L -> 0 < n -> 8 * n < 2 ^ 31 -> (2 * length L + 4 < fuel)%nat ->
  let nu := Z.max n 4096 in
  (malloc_loop granted n (freep h) (hptr (hdr h (freep h))) fuel h = Ok 0 h
   /\ (KERNBASE <= brk h + 8 * nu \/ granted (8 * nu) h = false))
  \/ exists h' L' r, malloc_loop granted n (freep h) (hptr (hdr h (freep h))) fuel h = Ok (r + 8) h'
       /\ wf h' L' /\ loose h' L' r n /\ brk h <= brk h'
       /\ (forall a, covers L a \/ brk h <= a < brk h' <-> covers L' a \/ r <= a < r + 8 * n)
       /\ (forall q, q <> base -> q < brk h -> ~ covers L q -> hdr h' q = hdr h q).
Proof.
  intros Hwf Hn H8 Hf nu. assert (forall q, q <> base -> ~ covers L q -> q ∉ (circle L).*1) as Hout.
  { intros q Hq1 Hq2 [?|?]%(circle_covers h L q Hwf); done. }
  destruct (first_fit L n) as [(R1 & x & sz & R2 & E & _ & Hsz)|Hall].
  - right. destruct (malloc_search h L n fuel Hwf) as (h' & L' & r & E' & [Hwf' Hb' Hlo' Hc' Hq']).
    { exists x, sz. split; [|done]. rewrite E. apply elem_of_app. right. by left. }
    { done. }
    { cbn. lia. }
    exists h', L', r. split_and!; [done..|lia| |].
    + intros a. rewrite Hb', <- (Hc' a). split; [|auto]. intros [?|?]; [done|lia].
    + intros q Hq1 Hq2 Hq3. apply Hq'; [auto|]. intros ->. apply Hq3, Hc'. right. lia.
  - destruct fuel as [|fuel]; [lia|]. rewrite (malloc_none h L n fuel Hwf Hall Hn ltac:(lia)).
    destruct (morecore_ok h L n (S (fuel - length L)) Hwf Hn H8 ltac:(cbn; lia))
      as [[E Hr]|(h1 & L1 & E1 & Hwf1 & Hb1 & Hl1 & Hc1 & Hbig & Hq1)].
    + left. by rewrite (bind_ok _ _ _ _ _ E).
    + right. rewrite (bind_ok _ _ _ _ _ E1). assert (freep h1 <> 0) as Hne.
      { pose proof (wf_base h1 L1 Hwf1). intros Hz. destruct (circle_covers h1 L1 (freep h1) Hwf1 (wf_freep h1 L1 Hwf1)) as [?|Hcv]; [lia|].
        apply (covers_below h1 L1 _ Hwf1) in Hcv. lia. }
      rewrite (proj2 (Z.eqb_neq _ _) Hne). erewrite bind_ok by reflexivity.
      destruct (malloc_search h1 L1 n (fuel - length L) Hwf1 Hbig Hn ltac:(cbn; lia)) as (h' & L' & r & E' & [Hwf' Hb' Hlo' Hc' Hq']).
      exists h', L', r. fold nu in Hb1, Hc1. split_and!; [done..|lia| |].
      * intros a. rewrite Hb', Hb1, <- (Hc' a), (Hc1 a). done.
      * intros q Hq2 Hq3 Hq4. assert (~ covers L1 q) as Hnc by (intros [?|?]%Hc1; [done|lia]).
        rewrite Hq'; [apply Hq1; [auto|lia]| |].
        { intros [?|?]%(circle_covers h1 L1 q Hwf1); done. }
        { intros ->. apply Hnc, Hc'. right. lia. }
Qed.
End Heap.

(** ** The whole heap *)
Section Program.
Context (base start : Z).

(** Two blocks do not overlap. *)
Definition separate (b c : blk) : Prop := b.1 + 8 * b.2 <= c.1 \/ c.1 + 8 * c.2 <= b.1.

(** The free blocks [L] and the blocks handed out [live] divide the memory from
    [start] to the break among them. *)
Record heap_ok (h : heap) (L live : list blk) : Prop := {
  hk_wf : wf base h L;
  hk_start : base < start <= brk h;
  hk_live : forall x n, (x, n) ∈ live -> hsize (hdr h x) = n /\ 0 < n;
  hk_apart : ForallOrdPairs separate live;
  hk_free : forall a, covers live a -> covers L a -> False;
  hk_all : forall a, covers live a \/ covers L a <-> start <= a < brk h;
}.

(** Before the first call of [malloc] the list is empty and not set up. *)
Definition set_up (h : heap) : heap :=
  let h := { h with freep := base } in
  let h := { h with hdr := <[base := { (hdr h base) with hptr := base }]> (hdr h) } in
  { h with hdr := <[base := { (hdr h base) with hsize := u32 0 }]> (hdr h) }.
Definition ready (h : heap) : heap := if freep h =? 0 then set_up h else h.

Lemma heap_ok_start h : 0 < base < start -> brk h = start -> start < KERNBASE -> heap_ok (set_up h) [] [].
Proof.
  intros Hb Hs Hk. assert (forall a, covers [] a -> False) as Hn by (intros a (x & sz & []%elem_of_nil & _)).
  split; [split; cbn; try lia|cbn; lia|by intros x n ?%elem_of_nil|apply FOP_nil|by intros a ?%Hn|].
  - by rewrite !fn_lookup_insert.
  - constructor.
  - by left.
  - intros a. cbn. split; [intros [[]%Hn|[]%Hn]|lia].
Qed.

(** Blocks without a common byte are separate. *)
Lemma separate_covers x n y m :
  0 < n -> 0 < m -> (forall a, x <= a < x + 8 * n -> y <= a < y + 8 * m -> False) -> separate (x, n) (y, m).
Proof. intros Hn Hm H. unfold separate. cbn. specialize (H (Z.max x y)). lia. Qed.

(** The order of the live blocks does not matter. *)
Lemma pairs_permutation l l' : l ≡ₚ l' -> ForallOrdPairs separate l -> ForallOrdPairs separate l'.
Proof.
  induction 1 as [|x l l' Hp IH|x y l|l1 l2 l3 _ IH1 _ IH2]; [done| |..].
  - inversion_clear 1 as [|? ? Hx Hl]. constructor; [|auto]. by rewrite <- Hp.
  - inversion_clear 1 as [|? ? Hx Hl]. inversion_clear Hl as [|? ? Hy Hl']. inversion_clear Hx as [|? ? Hxy Hx'].
    constructor; [constructor; [|done]|by constructor]. destruct Hxy; [by right|by left].
  - auto.
Qed.

Lemma covers_permutation l l' a : l ≡ₚ l' -> covers l a <-> covers l' a.
Proof. intros Hp. unfold covers. by setoid_rewrite Hp. Qed.

Lemma heap_ok_permutation h L live live' : live ≡ₚ live' -> heap_ok h L live -> heap_ok h L live'.
Proof.
  intros Hp [H1 H2 H3 H4 H5 H6]. split; [done|done| | | |].
  - intros x n Hin. apply H3. by rewrite Hp.
  - by apply (pairs_permutation live).
  - intros a Ha. apply H5. by rewrite (covers_permutation _ _ a Hp).
  - intros a. by rewrite <- (covers_permutation _ _ a Hp).
Qed.

Lemma covers_one x n a : covers [(x, n)] a <-> x <= a < x + 8 * n.
Proof. rewrite covers_cons. split; [|auto]. intros [(? & ? & []%elem_of_nil & _)|?]; done. Qed.

(** A block on a list has its bytes covered. *)
Lemma covers_in (l : list blk) x n a : (x, n) ∈ l -> x <= a < x + 8 * n -> covers l a.
Proof. intros ? ?. by exists x, n. Qed.

(** Live blocks are in memory. *)
Lemma live_bounds h L live x n :
  heap_ok h L live -> (x, n) ∈ live -> 0 < n /\ start <= x /\ x + 8 * n <= brk h /\ ~ covers L x.
Proof.
  intros Hok Hin. destruct (hk_live _ _ _ Hok x n Hin) as [_ Hn].
  assert (forall a, x <= a < x + 8 * n -> start <= a < brk h) as Hb.
  { intros a Ha. apply (hk_all _ _ _ Hok). left. by apply (covers_in _ x n). }
  pose proof (Hb x ltac:(lia)). pose proof (Hb (x + 8 * n - 1) ltac:(lia)). split_and!; [lia..|].
  intros Hc. apply (hk_free _ _ _ Hok x); [|done]. apply (covers_in _ x n); [done|lia].
Qed.

(** A new block, of bytes that were free or behind the break. *)
Lemma heap_ok_new h h' L L' live r n :
  heap_ok h L live -> wf base h' L' -> loose base h' L' r n -> brk h <= brk h' ->
  (forall a, covers L a \/ brk h <= a < brk h' <-> covers L' a \/ r <= a < r + 8 * n) ->
  (forall q, q <> base -> q < brk h -> ~ covers L q -> hdr h' q = hdr h q) ->
  heap_ok h' L' ((r, n) :: live).
Proof.
  intros Hok Hwf Hlo Hb Hc Hq. pose proof Hlo as [Hs Hn Hl Hh Hd]. pose proof (hk_start _ _ _ Hok).
  assert (forall a, covers live a -> start <= a < brk h /\ ~ covers L a) as Hlive.
  { intros a Ha. split; [apply (hk_all _ _ _ Hok); by left|]. intros Ha'. by apply (hk_free _ _ _ Hok a). }
  assert (forall a, covers live a -> ~ (covers L' a \/ r <= a < r + 8 * n)) as Hno.
  { intros a Ha%Hlive Hx%Hc. destruct Hx as [?|?]; [by apply Ha|lia]. }
  split; [done|lia| | | |].
  - intros x m [[= -> ->]|Hin]%elem_of_cons; [done|]. destruct (live_bounds h L live x m Hok Hin) as (Hm & ? & ? & ?).
    rewrite Hq by (done || lia). by apply (hk_live _ _ _ Hok).
  - constructor; [|apply Hok]. apply list.Forall_forall. intros [x m] Hin. apply separate_covers; [done|by apply (hk_live _ _ _ Hok x)|].
    intros a Ha Ha'. apply (Hno a); [by apply (covers_in _ x m)|by right].
  - intros a. rewrite covers_cons. intros [Ha|Ha] Ha'; [apply (Hno a Ha); by left|].
    destruct Ha' as (x & m & Hin & Hx). destruct (Hd x m Hin); lia.
  - intros a. rewrite covers_cons. pose proof (hk_all _ _ _ Hok a) as Ha. specialize (Hc a). split.
    + intros H1. assert (covers live a \/ covers L a \/ brk h <= a < brk h') as H2 by tauto.
      destruct H2 as [H2|[H2|H2]]; [assert (start <= a < brk h) by tauto; lia..|lia].
    + intros H1. destruct (Z.lt_ge_cases a (brk h)) as [H2|H2].
      * assert (covers live a \/ covers L a) by (apply Ha; lia). tauto.
      * assert (covers L' a \/ r <= a < r + 8 * n) by (apply Hc; right; lia). tauto.
Qed.

(** C20: [malloc] hands out memory nobody else has.  For every request below 2 GB it
    returns, within a number of steps twice the length of the free list, and
    either the kernel has no more memory for the process and the result is null
    with the heap as it was, or the result is the address behind the header of a
    block of [n] headers that holds the request: the block is disjoint from all
    blocks handed out before and from the free list, their headers have not been
    touched, and together they still account for every byte up to the break.
    The first call sets the free list up. *)
Theorem malloc_hands_out (granted : Z -> heap -> bool) h L live nbytes fuel :
  heap_ok (ready h) L live -> 0 <= nbytes < 2 ^ 31 - 16 -> (2 * length L + 4 < fuel)%nat ->
  let n := (nbytes + 7) / 8 + 1 in
  let nu := Z.max n 4096 in
  exists r h', malloc base granted nbytes fuel h = Ok r h'
    /\ (r = 0 /\ h' = ready h /\ (KERNBASE <= brk h + 8 * nu \/ granted (8 * nu) (ready h) = false)
        \/ exists L', heap_ok h' L' ((r - 8, n) :: live) /\ nbytes <= 8 * (n - 1)).
Proof.
  intros Hok Hn Hf n nu. pose proof (Z.div_mod (nbytes + 7) 8). pose proof (Z.mod_pos_bound (nbytes + 7) 8).
  assert (0 < n /\ 8 * n < 2 ^ 31 /\ nbytes <= 8 * (n - 1)) as (Hn0 & Hn8 & Hfit) by (unfold n; lia).
  assert (malloc base granted nbytes fuel h = malloc_loop granted n (freep (ready h)) (hptr (hdr (ready h) (freep (ready h)))) fuel (ready h)) as Em.
  { unfold malloc. replace (nbytes + 8 - 1) with (nbytes + 7) by lia. rewrite (u32_small (nbytes + 7)) by lia.
    fold n. rewrite (u32_small n) by lia. unfold ready. erewrite bind_ok by reflexivity. by destruct (freep h =? 0). }
  assert (brk (ready h) = brk h) as Hb by (unfold ready; by destruct (freep h =? 0)).
  rewrite Em. destruct (malloc_loop_ok base granted (ready h) L n fuel (hk_wf _ _ _ Hok) Hn0 Hn8 Hf)
    as [[E Hr]|(h' & L' & r & E & Hwf' & Hlo' & Hb' & Hc' & Hq')].
  - exists 0, (ready h). split; [done|]. left. by rewrite Hb in Hr.
  - exists (r + 8), h'. split; [done|]. right. exists L'. split; [|done]. replace (r + 8 - 8) with r by lia.
    by apply (heap_ok_new (ready h) h' L).
Qed.

(** Blocks in order that cover an interval are one block. *)
Lemma one_block lo L hi :
  apart lo L hi -> Forall (fun b => 0 < b.2) L -> start < hi ->
  (forall a, covers L a <-> start <= a < hi) -> L = [(start, (hi - start) / 8)].
Proof.
  intros Ha Hpos Hne Hc. destruct L as [|[x sz] L].
  { destruct (proj2 (Hc start) ltac:(lia)) as (? & ? & []%elem_of_nil & _). }
  destruct Ha as (H1 & H2 & H3). inversion Hpos as [|? ? Hsz _]. cbn in Hsz.
  assert (x = start) as ->.
  { assert (start <= x) by (apply (proj1 (Hc x)), covers_cons; right; lia).
    destruct (proj2 (Hc start) ltac:(lia)) as (y & s & [[= -> ->]|Hin]%elem_of_cons & Hy); [lia|].
    apply (apart_in _ _ _ _ _ H3) in Hin. lia. }
  destruct L as [|[y s] L].
  - assert (hi = start + 8 * sz) as ->.
    { assert (forall a, start <= a < start + 8 * sz <-> start <= a < hi) as Hb by (intros a; by rewrite <- covers_one, Hc).
      pose proof (proj1 (Hb (start + 8 * sz - 1))). pose proof (proj2 (Hb (hi - 1))). lia. }
    do 2 f_equal. rewrite Z.add_simpl_l, Z.mul_comm, Z.div_mul; lia.
  - exfalso. destruct H3 as (H3 & H4 & H5). pose proof (apart_le _ _ _ H5).
    destruct (proj2 (Hc (start + 8 * sz)) ltac:(lia)) as (z & t & [[= -> ->]|[[= -> ->]|Hin]%elem_of_cons]%elem_of_cons & Hz); [lia..|].
    apply (apart_in _ _ _ _ _ H5) in Hin. lia.
Qed.

(** C21: [free] takes a block back.  For any of the blocks handed out it returns,
    within a number of steps the length of the free list, the block is joined with
    the free blocks next to it, and the other blocks are still handed out and
    untouched.  No byte is lost: when the last block is given back, the free list
    is one block of all the memory that was ever obtained. *)
Theorem free_takes_back h L live b n rest fuel :
  heap_ok h L live -> live ≡ₚ (b, n) :: rest -> (S (length L) < fuel)%nat ->
  exists h' L', free (b + 8) fuel h = Ok tt h' /\ heap_ok h' L' rest /\ brk h' = brk h
    /\ (rest = [] -> L' = [(start, (brk h' - start) / 8)]).
Proof.
  intros Hok0 Hp Hf. pose proof (heap_ok_permutation h L _ _ Hp Hok0) as Hok. clear Hok0 Hp.
  pose proof (hk_start _ _ _ Hok) as Hst. assert ((b, n) ∈ (b, n) :: rest) as Hin by (by left).
  destruct (live_bounds h L _ b n Hok Hin) as (Hn & Hlow & Hhigh & _).
  assert (forall a, b <= a < b + 8 * n -> ~ covers L a) as Hbl.
  { intros a Ha Hc. apply (hk_free _ _ _ Hok a); [|done]. by apply (covers_in _ b n). }
  assert (loose base h L b n) as Hlo.
  { split; [by apply (hk_live _ _ _ Hok)|done|lia|done|]. intros x sz Hx.
    pose proof (wf_pos _ _ _ (hk_wf _ _ _ Hok)) as Hpos. rewrite list.Forall_forall in Hpos. apply Hpos in Hx as Hsz. cbn in Hsz.
    apply (separate_covers b n x sz Hn Hsz). intros a Ha Ha'. apply (Hbl a Ha). by apply (covers_in _ x sz). }
  destruct (free_ok base h L b n fuel (hk_wf _ _ _ Hok) Hlo ltac:(cbn; lia)) as (h' & L' & E & Hwf' & Hb' & _ & Hc' & _ & Hq').
  pose proof (hk_apart _ _ _ Hok) as Hap. inversion_clear Hap as [|? ? Hfirst Hrest].
  assert (forall a, covers rest a -> ~ (b <= a < b + 8 * n)) as Hdis.
  { intros a (x & m & Hx & Ha) Hba. rewrite list.Forall_forall in Hfirst. destruct (Hfirst _ Hx); cbn in *; lia. }
  assert (heap_ok h' L' rest) as Hok'.
  { split; [done|lia| |done| |].
    - intros x m Hx. assert ((x, m) ∈ (b, n) :: rest) as Hx' by (by right). destruct (live_bounds h L _ x m Hok Hx') as (Hm & Hxl & ? & Hnc).
      rewrite Hq'; [by apply (hk_live _ _ _ Hok)| |].
      + intros [?|?]%(circle_covers base h L x (hk_wf _ _ _ Hok)); [lia|done].
      + intros ->. apply (Hdis b); [apply (covers_in _ b m); [done|lia]|lia].
    - intros a Ha [Hc|Hc]%Hc'; [|by apply (Hdis a)]. apply (hk_free _ _ _ Hok a); [|done]. apply covers_cons. by left.
    - intros a. rewrite Hb', <- (hk_all _ _ _ Hok a), covers_cons, (Hc' a). tauto. }
  exists h', L'. split_and!; [done..|]. intros ->. pose proof (wf_apart _ _ _ Hwf') as (_ & _ & Ha').
  apply (one_block _ _ _ Ha' (wf_pos _ _ _ Hwf')); [lia|]. intros a. rewrite <- (hk_all _ _ _ Hok' a). split; [auto|].
  intros [(? & ? & []%elem_of_nil & _)|?]; done.
Qed.
End Program.

(** ** Concrete heaps *)
Definition new_heap : heap := mk_heap (fun _ => mk_header 0 0) 0 8192.

Lemma malloc_hands_out_witness :
  exists r h', malloc 4096 (fun _ _ => true) 100 5 new_heap = Ok r h'
    /\ (r = 0 /\ h' = ready 4096 new_heap
        /\ (KERNBASE <= 8192 + 8 * 4096 \/ (fun _ _ => true) (8 * 4096) (ready 4096 new_heap) = false)
        \/ exists L', heap_ok 4096 8192 h' L' [(r - 8, 14)] /\ 100 <= 8 * (14 - 1)).
Proof.
  apply (malloc_hands_out 4096 8192 (fun _ _ => true) new_heap [] [] 100 5).
  - apply heap_ok_start; [lia|reflexivity|reflexivity].
  - lia.
  - cbn. lia.
Defined.

(** Two blocks, of 4 and of 6 headers, are handed out, and nothing is free. *)
Definition used_heap : heap :=
  mk_heap (fun a => if a =? 4096 then mk_header 4096 0 else if a =? 8192 then mk_header 0 4 else mk_header 0 6) 4096 8272.

Lemma used_heap_ok : heap_ok 4096 8192 used_heap [] [(8192, 4); (8224, 6)].
Proof.
  split.
  - split; cbn; first [lia|done|by constructor|by left].
  - cbn. lia.
  - intros x n. rewrite !elem_of_cons. intros [[= -> ->]|[[= -> ->]|[]%elem_of_nil]]; cbn; lia.
  - constructor; [constructor; [left; cbn; lia|constructor]|constructor; constructor].
  - intros a _ (? & ? & []%elem_of_nil & _).
  - intros a. rewrite !covers_cons. cbn. split; [|lia].
    intros [[[(? & ? & []%elem_of_nil & _)|?]|?]|(? & ? & []%elem_of_nil & _)]; lia.
Qed.

Lemma free_takes_back_witness :
  exists h' L', free (8224 + 8) 2 used_heap = Ok tt h' /\ heap_ok 4096 8192 h' L' [(8192, 4)] /\ brk h' = 8272
    /\ ([(8192, 4)] = [] -> L' = [(8192, (brk h' - 8192) / 8)]).
Proof.
  apply (free_takes_back 4096 8192 used_heap [] [(8192, 4); (8224, 6)] 8224 6 [(8192, 4)] 2).
  - apply used_heap_ok.
  - apply Permutation_swap.
  - cbn. lia.
Defined.
