(* ===== verification/Sh.v ===== *)
(** * The parser of the shell

    Models the second half of sh.c: the commands, [gettoken], [peek],
    [parsecmd], [parseline], [parsepipe], [parseredirs], [parseblock],
    [parseexec] and [nulterminate].  A pointer into the line is the part of the
    line that starts there, so that [es] is the empty list and the NUL at the
    end is what is read there.  The parser is a state monad over the pointer
    [*ps]; [panic] is its own failure. *)

From S2P Require Import Prelude.
Open Scope Z_scope.

Definition MAXARGS : nat := 10.
Definition whitespace : list Z := [32; 9; 13; 10; 11].
Definition symbols : list Z := [60; 124; 62; 38; 59; 40; 41].   (* <|>&;() *)

Definition LT : Z := 60.
Definition GT : Z := 62.
Definition BAR : Z := 124.
Definition AMP : Z := 38.
Definition SEMI : Z := 59.
Definition LPAR : Z := 40.
Definition RPAR : Z := 41.
Definition PLUS : Z := 43.
Definition WORD : Z := 97.                  (* 'a' *)

(** fcntl.h *)
Definition SH_RDONLY : Z := 0.
Definition SH_WRONLY_CREATE : Z := Z.lor 1 0x200.

(** Where a word starts and where it ends. *)
Definition word : Type := list Z * list Z.

Inductive cmd :=
| EXEC (argv : list word)
| REDIR (c : cmd) (file : word) (mode fd : Z)
| PIPE (left right : cmd)
| LIST (left right : cmd)
| BACK (c : cmd).

Definition is_white (c : Z) : bool := bool_decide (c ∈ whitespace).
Definition is_symbol (c : Z) : bool := bool_decide (c ∈ symbols).

(** [while(s < es && strchr(whitespace, *s)) s++;] *)
Fixpoint skip_white (s : list Z) : list Z :=
  match s with
  | c :: s' => if is_white c then skip_white s' else s
  | [] => []
  end.
(** [while(s < es && !strchr(whitespace, *s) && !strchr(symbols, *s)) s++;] *)
Fixpoint skip_word (s : list Z) : list Z :=
  match s with
  | c :: s' => if is_white c || is_symbol c then s else skip_word s'
  | [] => []
  end.

(** The token at the pointer, and what follows it. *)
Definition token (s : list Z) : Z * list Z :=
  match s with
  | [] => (0, [])
  | c :: s' =>
      if bool_decide (c ∈ [BAR; LPAR; RPAR; SEMI; AMP; LT]) then (c, s')
      else if c =? GT then
        if hd 0 s' =? GT then (PLUS, tl s') else (c, s')
      else (WORD, skip_word s)
  end.

(** The kind of the token, its start [*q] and its end [*eq]. *)
Definition gettoken : M (list Z) (Z * word) :=
  s ← get;
  let q := skip_white s in
  let '(ret, eq) := token q in
  put (skip_white eq);;
  mret (ret, (q, eq)).

Definition peek (toks : list Z) : M (list Z) bool :=
  s ← get;
  let s := skip_white s in
  put s;;
  mret (match s with c :: _ => bool_decide (c ∈ toks) | [] => false end).

(** The loop of [parseredirs]; every round passes over two tokens. *)
Fixpoint redirs_loop (c : cmd) (fuel : nat) : M (list Z) cmd :=
  match fuel with
  | O => no_fuel
  | S fuel =>
      b ← peek [LT; GT];
      if b : bool then
        '(tok, _) ← gettoken;
        '(t, w) ← gettoken;
        if negb (t =? WORD) then panic "missing file for redirection"
        else
          let c :=
            if tok =? LT then REDIR c w SH_RDONLY 0
            else if tok =? GT then REDIR c w SH_WRONLY_CREATE 1
            else if tok =? PLUS then REDIR c w SH_WRONLY_CREATE 1
            else c in
          redirs_loop c fuel
      else mret c
  end.
Definition parseredirs (c : cmd) : M (list Z) cmd :=
  s ← get;
  redirs_loop c (S (length s)).

(** [cmd->argv = args] for the command at the bottom of the redirections *)
Fixpoint set_args (c : cmd) (args : list word) : cmd :=
  match c with
  | EXEC _ => EXEC args
  | REDIR c f m d => REDIR (set_args c args) f m d
  | _ => c
  end.

(** The loop of [parseexec], with the arguments so far. *)
Fixpoint args_loop (ret : cmd) (args : list word) (fuel : nat) : M (list Z) cmd :=
  match fuel with
  | O => no_fuel
  | S fuel =>
      b ← peek [BAR; RPAR; AMP; SEMI];
      if b : bool then mret (set_args ret args)
      else
        '(tok, w) ← gettoken;
        if tok =? 0 then mret (set_args ret args)
        else if negb (tok =? WORD) then panic "syntax"
        else
          let args := args ++ [w] in
          if (MAXARGS <=? length args)%nat then panic "too many args"
          else
            ret ← parseredirs ret;
            args_loop ret args fuel
  end.

(** [while(peek(ps, es, "&")) { gettoken(ps, es, 0, 0); cmd = backcmd(cmd); }] *)
Fixpoint back_loop (c : cmd) (fuel : nat) : M (list Z) cmd :=
  match fuel with
  | O => no_fuel
  | S fuel =>
      b ← peek [AMP];
      if b : bool then gettoken;; back_loop (BACK c) fuel
      else mret c
  end.

Fixpoint parseline (fuel : nat) : M (list Z) cmd :=
  match fuel with
  | O => no_fuel
  | S fuel =>
      c ← parsepipe fuel;
      s ← get;
      c ← back_loop c (S (length s));
      b ← peek [SEMI];
      if b : bool then
        gettoken;;
        r ← parseline fuel;
        mret (LIST c r)
      else mret c
  end
with parsepipe (fuel : nat) : M (list Z) cmd :=
  match fuel with
  | O => no_fuel
  | S fuel =>
      c ← parseexec fuel;
      b ← peek [BAR];
      if b : bool then
        gettoken;;
        r ← parsepipe fuel;
        mret (PIPE c r)
      else mret c
  end
with parseexec (fuel : nat) : M (list Z) cmd :=
  match fuel with
  | O => no_fuel
  | S fuel =>
      b ← peek [LPAR];
      if b : bool then parseblock fuel
      else
        ret ← parseredirs (EXEC []);
        s ← get;
        args_loop ret [] (S (length s))
  end
with parseblock (fuel : nat) : M (list Z) cmd :=
  match fuel with
  | O => no_fuel
  | S fuel =>
      b ← peek [LPAR];
      if negb b then panic "parseblock"
      else
        gettoken;;
        c ← parseline fuel;
        b ← peek [RPAR];
        if negb b then panic "syntax - missing )"
        else
          gettoken;;
          parseredirs c
  end.

(** Four calls are nested for every character at most. *)
Definition parse_fuel (s : list Z) : nat := 4 * length s + 4.

(** [*p = 0] for a pointer [p] into the line [buf] *)
Definition put_nul (p buf : list Z) : list Z :=
  <[(length buf - length p - 1)%nat := 0]> buf.

(** NUL-terminate all the counted strings.  [buf] is the line with its NUL. *)
Fixpoint nulterminate (c : cmd) (buf : list Z) : list Z :=
  match c with
  | EXEC argv => foldl (fun buf w => put_nul w.2 buf) buf argv
  | REDIR c file _ _ => put_nul file.2 (nulterminate c buf)
  | PIPE l r => nulterminate r (nulterminate l buf)
  | LIST l r => nulterminate r (nulterminate l buf)
  | BACK c => nulterminate c buf
  end.

(** The command and the line after it. *)
Definition parsecmd (s : list Z) : result (list Z) (cmd * list Z) :=
  (c ← parseline (parse_fuel s);
   _ ← peek [];
   rest ← get;
   if negb (bool_decide (rest = [])) then panic "syntax"
   else mret (c, nulterminate c (s ++ [0]))) s.
