(* ===== verification/ShTheory.v ===== *)
(** * What the shell parser guarantees

    It terminates on every line, the words it finds lie in the line, and
    [nulterminate] makes each of them a C string without touching another.  A
    command that is written out in full is parsed to itself. *)

From S2P Require Import Prelude Sh.
Open Scope Z_scope.

(** The code ends, in a syntax error or with a result that satisfies [R]. *)
Definition ends {A} (R : A -> list Z -> Prop) (r : result (list Z) A) : Prop :=
  match r with Ok a s => R a s | Panic _ => True | _ => False end.

Lemma ends_bind {A B} (R : A -> list Z -> Prop) (R' : B -> list Z -> Prop) m (f : A -> M (list Z) B) s :
  ends R (m s) -> (forall a s', R a s' -> ends R' (f a s')) -> ends R' ((m ≫= f) s).
Proof. unfold mbind, M_bind. intros H Hf. destruct (m s); cbn in *; auto. Qed.

Lemma ends_mono {A} (R R' : A -> list Z -> Prop) r :
  ends R r -> (forall a s, R a s -> R' a s) -> ends R' r.
Proof. destruct r; cbn; auto. Qed.

(** A character of a word. *)
Definition plain (c : Z) : bool := negb (is_white c || is_symbol c).

Lemma skip_white_suffix s : skip_white s `suffix_of` s.
Proof. induction s as [|c s IH]; cbn; [done|]. destruct (is_white c); [by apply suffix_cons_r|done]. Qed.

Lemma skip_white_idem s : skip_white (skip_white s) = skip_white s.
Proof. induction s as [|c s IH]; cbn; [done|]. destruct (is_white c) eqn:E; [done|]. cbn. by rewrite E. Qed.

Lemma skip_white_head s c s' : skip_white s = c :: s' -> is_white c = false.
Proof. intros E. pose proof (skip_white_idem s) as H. rewrite E in H. cbn in H. destruct (is_white c); [|done].
  pose proof (suffix_length _ _ (skip_white_suffix s')) as Hl. rewrite H in Hl. cbn in Hl. lia. Qed.

Lemma skip_word_ok s :
  exists t, s = t ++ skip_word s /\ Forall (fun c => plain c = true) t
    /\ (forall c, head (skip_word s) = Some c -> plain c = false).
Proof.
  induction s as [|c s (t & E & Ht & Hh)]; cbn; [by exists []|]. destruct (is_white c || is_symbol c) eqn:Ec.
  - exists []. split_and!; [done|constructor|]. intros d [= <-]. unfold plain. by rewrite Ec.
  - exists (c :: t). split_and!; [cbn; by rewrite <- E| |done]. constructor; [unfold plain; by rewrite Ec|done].
Qed.

Lemma suffix_lt (s s' : list Z) : s `suffix_of` s' -> (length s <= length s')%nat.
Proof. apply suffix_length. Qed.

Section Words.
Context (line : list Z).

(** A word of the line: plain characters, followed by one that is not or by the
    end of the line. *)
Record word_ok (w : word) : Prop := {
  wk_line : w.1 `suffix_of` line;
  wk_text : exists t, w.1 = t ++ w.2 /\ t <> [] /\ Forall (fun c => plain c = true) t;
  wk_end : forall c, head w.2 = Some c -> plain c = false;
}.

Fixpoint cmd_ok (c : cmd) : Prop :=
  match c with
  | EXEC argv => Forall word_ok argv
  | REDIR c file _ fd => cmd_ok c /\ word_ok file /\ 0 <= fd < 2
  | PIPE l r | LIST l r => cmd_ok l /\ cmd_ok r
  | BACK c => cmd_ok c
  end.

(** The pointer stays in the line and does not move back. *)
Definition moves (s s' : list Z) : Prop := s' `suffix_of` line /\ (length s' <= length s)%nat.

Lemma token_suffix s : (token s).2 `suffix_of` s.
Proof.
  destruct s as [|c s]; cbn; [done|]. case_bool_decide; [by apply suffix_cons_r|]. destruct (c =? GT).
  - destruct s as [|d s]; cbn; [by apply suffix_cons_r|]. destruct (d =? GT); cbn; [by do 2 apply suffix_cons_r|by apply suffix_cons_r].
  - cbn. destruct (skip_word_ok (c :: s)) as (t & E & _). exists t. exact E.
Qed.

Lemma token_ok c s :
  is_white c = false ->
  (length (token (c :: s)).2 < length (c :: s))%nat /\ (token (c :: s)).1 <> 0
  /\ ((token (c :: s)).1 = WORD -> exists t, c :: s = t ++ (token (c :: s)).2 /\ t <> [] /\ Forall (fun c => plain c = true) t
        /\ (forall d, head (token (c :: s)).2 = Some d -> plain d = false)).
Proof.
  intros Hw. unfold token. case_bool_decide as Hs.
  { cbn. split_and!; [lia|intros ->; by cbv in Hs; set_solver|intros ->; by cbv in Hs; set_solver]. }
  destruct (Z.eqb_spec c GT) as [->|Hg].
  { destruct s as [|d s]; cbn; [split_and!; done || lia|]. destruct (d =? GT); cbn; split_and!; done || lia. }
  destruct (skip_word_ok (c :: s)) as (t & E & Ht & Hh). cbn [fst snd].
  assert (plain c = true) as Hc.
  { unfold plain, is_symbol. rewrite Hw. rewrite bool_decide_eq_false_2; [done|]. intros Hin. apply Hs.
    unfold symbols in Hin. unfold BAR, LPAR, RPAR, SEMI, AMP, LT, GT in *. set_solver. }
  assert (t <> []) as Hne. { intros ->. cbn [app] in E. specialize (Hh c). rewrite <- E in Hh. rewrite Hh in Hc; done. }
  split_and!; [|done|intros _; by exists t].
  apply (f_equal length) in E. rewrite length_app in E. destruct t; [done|]. cbn [length] in *. lia.
Qed.

Lemma gettoken_ok s :
  s `suffix_of` line ->
  ends (fun r s' => moves s s' /\ (r.1 = WORD -> word_ok r.2)
          /\ (r.1 <> 0 \/ skip_white s <> [] -> (length s' < length s)%nat)) (gettoken s).
Proof.
  intros Hs. unfold gettoken. msimpl. pose proof (skip_white_suffix s) as Hq. set (q := skip_white s) in *.
  pose proof (token_suffix q) as Ht. destruct (token q) as [ret eq] eqn:Et. msimpl. cbn [ends fst snd] in *.
  pose proof (skip_white_suffix eq) as He. pose proof (suffix_lt _ _ Hq). pose proof (suffix_lt _ _ Ht).
  pose proof (suffix_lt _ _ He). assert (q `suffix_of` line) as Hql by (etrans; [exact Hq|exact Hs]).
  assert (skip_white eq `suffix_of` line) as Hall by (etrans; [exact He|]; etrans; [exact Ht|exact Hql]).
  destruct q as [|c q'] eqn:Eq.
  { injection Et as <- <-. split_and!; [split; [done|cbn in *; lia]|done|naive_solver]. }
  destruct (token_ok c q' (skip_white_head s c q' Eq)) as (Hl & Hnz & Hw). rewrite Et in *. cbn [fst snd] in *.
  split_and!; [split; [done|lia]| |lia].
  intros E. destruct (Hw E) as (t & E1 & E2 & E3 & E4). split; cbn; [done|by exists t|done].
Qed.

Lemma peek_ok toks s :
  s `suffix_of` line ->
  ends (fun b s' => moves s s' /\ (b = true -> skip_white s' <> [])) (peek toks s).
Proof.
  intros Hs. unfold peek. msimpl. cbn [ends]. split.
  - split; [etrans; [apply skip_white_suffix|done]|apply suffix_lt, skip_white_suffix].
  - rewrite skip_white_idem. by destruct (skip_white s).
Qed.

Lemma redirs_loop_ok fuel c s :
  s `suffix_of` line -> cmd_ok c -> (length s < fuel)%nat ->
  ends (fun c' s' => moves s s' /\ cmd_ok c') (redirs_loop c fuel s).
Proof.
  revert c s. induction fuel as [|fuel IH]; intros c s Hs Hc Hf; [lia|]. cbn [redirs_loop].
  eapply ends_bind; [by apply peek_ok|]. intros [] s1 [[H1 L1] N1]; [|by split].
  eapply ends_bind; [by apply gettoken_ok|]. intros [tok w0] s2 ([H2 L2] & _ & N2). cbn beta iota.
  eapply ends_bind; [by apply gettoken_ok|]. intros [t w] s3 ([H3 L3] & W3 & _). cbn [fst snd] in *.
  destruct (Z.eqb_spec t WORD) as [->|]; cbn [negb]; [|done].
  eapply ends_mono; [apply IH; [done| |]|].
  - repeat case_match; cbn; auto with lia.
  - specialize (N2 (or_intror (N1 eq_refl))). lia.
  - intros c' s' [[Hm Hl] Hc']. split; [split; [done|lia]|done].
Qed.

Lemma parseredirs_ok c s :
  s `suffix_of` line -> cmd_ok c -> ends (fun c' s' => moves s s' /\ cmd_ok c') (parseredirs c s).
Proof. intros. unfold parseredirs. msimpl. apply redirs_loop_ok; auto. Qed.

Lemma set_args_ok c args : cmd_ok c -> Forall word_ok args -> cmd_ok (set_args c args).
Proof. intros Hc Ha. induction c; cbn in *; naive_solver. Qed.

Lemma args_loop_ok fuel ret args s :
  s `suffix_of` line -> cmd_ok ret -> Forall word_ok args -> (length s < fuel)%nat ->
  ends (fun c' s' => moves s s' /\ cmd_ok c') (args_loop ret args fuel s).
Proof.
  revert ret args s. induction fuel as [|fuel IH]; intros ret args s Hs Hr Ha Hf; [lia|]. cbn [args_loop].
  eapply ends_bind; [by apply peek_ok|]. intros [] s1 [[H1 L1] _]; [by split; [|apply set_args_ok]|].
  eapply ends_bind; [by apply gettoken_ok|]. intros [tok w] s2 ([H2 L2] & W2 & N2). cbn [fst snd] in *.
  destruct (Z.eqb_spec tok 0) as [|Hnz]; [by split; [split; [|lia]|apply set_args_ok]|].
  destruct (Z.eqb_spec tok WORD) as [->|]; cbn [negb]; [|done].
  destruct (MAXARGS <=? length (args ++ [w]))%nat; [done|].
  eapply ends_bind; [by apply parseredirs_ok|]. intros ret' s3 [[H3 L3] Hr3].
  eapply ends_mono; [apply IH; [done|done| |]|].
  - apply Forall_app. split; [done|]. by repeat constructor; apply W2.
  - specialize (N2 (or_introl Hnz)). lia.
  - intros c' s' [[Hm Hl] Hc']. split; [split; [done|lia]|done].
Qed.

Lemma back_loop_ok fuel c s :
  s `suffix_of` line -> cmd_ok c -> (length s < fuel)%nat ->
  ends (fun c' s' => moves s s' /\ cmd_ok c') (back_loop c fuel s).
Proof.
  revert c s. induction fuel as [|fuel IH]; intros c s Hs Hc Hf; [lia|]. cbn [back_loop].
  eapply ends_bind; [by apply peek_ok|]. intros [] s1 [[H1 L1] N1]; [|by split].
  eapply ends_bind; [by apply gettoken_ok|]. intros ? s2 ([H2 L2] & _ & N2).
  specialize (N2 (or_intror (N1 eq_refl))). eapply ends_mono; [apply IH; [done..|lia]|].
  intros c' s' [[Hm Hl] Hc']. split; [split; [done|lia]|done].
Qed.

(** [parseline], [parsepipe], [parseexec] and [parseblock] together. *)
Lemma parse_ok fuel :
  (forall s, s `suffix_of` line -> (4 * length s + 4 <= fuel)%nat ->
     ends (fun c s' => moves s s' /\ cmd_ok c) (parseline fuel s))
  /\ (forall s, s `suffix_of` line -> (4 * length s + 3 <= fuel)%nat ->
     ends (fun c s' => moves s s' /\ cmd_ok c) (parsepipe fuel s))
  /\ (forall s, s `suffix_of` line -> (4 * length s + 2 <= fuel)%nat ->
     ends (fun c s' => moves s s' /\ cmd_ok c) (parseexec fuel s))
  /\ (forall s, s `suffix_of` line -> (4 * length s + 1 <= fuel)%nat ->
     ends (fun c s' => moves s s' /\ cmd_ok c) (parseblock fuel s)).
Proof.
  induction fuel as [|fuel (IHl & IHp & IHe & IHb)]; [split_and!; intros; lia|]. split_and!; intros s Hs Hf.
  - cbn [parseline]. eapply ends_bind; [apply IHp; [done|lia]|]. intros c s1 [[H1 L1] Hc1]. msimpl.
    eapply ends_bind; [apply back_loop_ok; [done..|lia]|]. intros c2 s2 [[H2 L2] Hc2].
    eapply ends_bind; [by apply peek_ok|]. intros [] s3 [[H3 L3] N3]; [|split; [split; [done|lia]|done]].
    eapply ends_bind; [by apply gettoken_ok|]. intros ? s4 ([H4 L4] & _ & N4). specialize (N4 (or_intror (N3 eq_refl))).
    eapply ends_bind; [apply IHl; [done|lia]|]. intros r s5 [[H5 L5] Hr]. split; [split; [done|lia]|done].
  - cbn [parsepipe]. eapply ends_bind; [apply IHe; [done|lia]|]. intros c s1 [[H1 L1] Hc1].
    eapply ends_bind; [by apply peek_ok|]. intros [] s3 [[H3 L3] N3]; [|split; [split; [done|lia]|done]].
    eapply ends_bind; [by apply gettoken_ok|]. intros ? s4 ([H4 L4] & _ & N4). specialize (N4 (or_intror (N3 eq_refl))).
    eapply ends_bind; [apply IHp; [done|lia]|]. intros r s5 [[H5 L5] Hr]. split; [split; [done|lia]|done].
  - cbn [parseexec]. eapply ends_bind; [by apply peek_ok|]. intros [] s1 [[H1 L1] N1].
    + eapply ends_mono; [apply IHb; [done|lia]|]. intros c s' [[Hm Hl] Hc]. split; [split; [done|lia]|done].
    + eapply ends_bind; [apply parseredirs_ok; [done|constructor]|]. intros c s2 [[H2 L2] Hc]. msimpl.
      eapply ends_mono; [apply args_loop_ok; [done..|constructor|lia]|]. intros c' s' [[Hm Hl] Hc'].
      split; [split; [done|lia]|done].
  - cbn [parseblock]. eapply ends_bind; [by apply peek_ok|]. intros [] s1 [[H1 L1] N1]; cbn [negb]; [|done].
    eapply ends_bind; [by apply gettoken_ok|]. intros ? s2 ([H2 L2] & _ & N2). specialize (N2 (or_intror (N1 eq_refl))).
    eapply ends_bind; [apply IHl; [done|lia]|]. intros c s3 [[H3 L3] Hc].
    eapply ends_bind; [by apply peek_ok|]. intros [] s4 [[H4 L4] N4]; cbn [negb]; [|done].
    eapply ends_bind; [by apply gettoken_ok|]. intros ? s5 ([H5 L5] & _ & _).
    eapply ends_mono; [by apply parseredirs_ok|]. intros c' s' [[Hm Hl] Hc']. split; [split; [done|lia]|done].
Qed.

(** ** NUL-terminating the words *)

(** Where a pointer points to in the line. *)
Definition pos (p : list Z) : nat := length line - length p.

Fixpoint words (c : cmd) : list word :=
  match c with
  | EXEC argv => argv
  | REDIR c file _ _ => words c ++ [file]
  | PIPE l r | LIST l r => words l ++ words r
  | BACK c => words c
  end.

Lemma cmd_ok_words c : cmd_ok c -> Forall word_ok (words c).
Proof. induction c; cbn; rewrite ?Forall_app, ?Forall_singleton; naive_solver. Qed.

(** Only the standard input and output are redirected. *)
Fixpoint standard (c : cmd) : Prop :=
  match c with
  | EXEC _ => True
  | REDIR c _ _ fd => 0 <= fd < 2 /\ standard c
  | PIPE l r | LIST l r => standard l /\ standard r
  | BACK c => standard c
  end.

Lemma cmd_ok_standard c : cmd_ok c -> standard c.
Proof. induction c; cbn; naive_solver. Qed.

Lemma nulterminate_words c buf : nulterminate c buf = foldl (fun buf w => put_nul w.2 buf) buf (words c).
Proof.
  revert buf. induction c as [|c IH| | |]; intros buf; cbn; rewrite ?foldl_app; try done.
  - by rewrite IH.
  - by rewrite IHc1, IHc2.
  - by rewrite IHc1, IHc2.
Qed.
End Words.

(** The C string at index [i] of the buffer. *)
Definition reads (buf : list Z) (i : nat) (t : list Z) : Prop :=
  (0 ∉ t) /\ exists r, drop i buf = t ++ 0 :: r.

(** The characters between the two pointers of a word. *)
Definition word_text (w : word) : list Z := take (length w.1 - length w.2) w.1.

Lemma length_put_nuls (ws : list word) buf :
  length (foldl (fun buf w => put_nul w.2 buf) buf ws) = length buf.
Proof. revert buf. induction ws as [|w ws IH]; intros buf; cbn; [done|]. rewrite IH. apply length_insert. Qed.

Lemma lookup_put_nuls (ws : list word) n buf i :
  length buf = n -> (i < n)%nat ->
  foldl (fun buf w => put_nul w.2 buf) buf ws !! i
  = if decide (i ∈ (fun w : word => (n - length w.2 - 1)%nat) <$> ws) then Some 0 else buf !! i.
Proof.
  intros Hn Hi. revert buf Hn. induction ws as [|w ws IH]; intros buf Hn; cbn [foldl fmap list_fmap].
  { by rewrite decide_False by apply not_elem_of_nil. }
  rewrite IH by (unfold put_nul; by rewrite length_insert). unfold put_nul. rewrite Hn.
  destruct (decide (i ∈ (fun w : word => (n - length w.2 - 1)%nat) <$> ws)) as [Hin|Hin].
  { by rewrite decide_True by set_solver. }
  destruct (decide (i = n - length w.2 - 1)%nat) as [->|Hne].
  - rewrite decide_True by set_solver. apply list_lookup_insert_eq. lia.
  - rewrite decide_False by set_solver. by rewrite list_lookup_insert_ne.
Qed.

(** A word is where the line says it is. *)
Lemma word_at line w :
  word_ok line w ->
  exists p, line = p ++ word_text w ++ w.2 /\ pos line w.1 = length p
    /\ word_text w <> [] /\ Forall (fun c => plain c = true) (word_text w).
Proof.
  intros [[p Hp] (t & Et & Hne & Ht) _]. exists p.
  assert (word_text w = t) as ->.
  { unfold word_text. rewrite Et, length_app. replace (length t + length w.2 - length w.2)%nat with (length t) by lia.
    apply take_app_length. }
  split_and!; [by rewrite <- Et| |done|done]. unfold pos. rewrite Hp, length_app. lia.
Qed.

(** The end of a word is not inside a word. *)
Lemma end_not_plain line w c :
  word_ok line w -> (line ++ [0]) !! (length line - length w.2)%nat = Some c ->
  (length line - length w.2 < length line)%nat -> plain c = false.
Proof.
  intros Hw Hc Hlt. destruct (word_at line w Hw) as (p & E & _). apply (wk_end _ _ Hw).
  assert (length line - length w.2 = length (p ++ word_text w))%nat as El.
  { rewrite E at 1. rewrite !length_app. lia. }
  rewrite lookup_app_l in Hc by done. rewrite El in Hc. rewrite E, (assoc_L (++)) in Hc.
  rewrite lookup_app_r, Nat.sub_diag in Hc by lia. by destruct w.2.
Qed.

Lemma nulterminate_reads line ws w :
  Forall (word_ok line) ws -> w ∈ ws -> 0 ∉ line ->
  reads (foldl (fun buf w => put_nul w.2 buf) (line ++ [0]) ws) (pos line w.1) (word_text w).
Proof.
  intros Hws Hin H0. pose proof (proj1 (list.Forall_forall _ _) Hws w Hin) as Hw.
  destruct (word_at line w Hw) as (p & E & -> & Hne & Hpl). set (t := word_text w) in *.
  set (buf := foldl (fun buf w => put_nul w.2 buf) (line ++ [0]) ws). assert (length buf = length line + 1)%nat as Hlen.
  { unfold buf. by rewrite length_put_nuls, length_app. }
  assert (length line = length p + length t + length w.2)%nat as Hl by (rewrite E at 1; rewrite !length_app; lia).
  assert (forall i, (i < length t)%nat -> buf !! (length p + i)%nat = t !! i) as Hlook.
  { intros i Hi. unfold buf. rewrite (lookup_put_nuls ws (length line + 1)) by (rewrite ?length_app; cbn; lia).
    assert ((line ++ [0]) !! (length p + i)%nat = t !! i) as Ei.
    { rewrite lookup_app_l by lia. rewrite E at 1. rewrite lookup_app_r by lia.
      replace (length p + i - length p)%nat with i by lia. by rewrite lookup_app_l. }
    rewrite decide_False; [done|]. intros (w' & Ew & Hin')%list_elem_of_fmap. 
    destruct (lookup_lt_is_Some_2 t i Hi) as [c Hc]. rewrite Hc in Ei.
    assert (plain c = false) as Hf.
    { apply (end_not_plain line w'); [by apply (proj1 (list.Forall_forall _ _) Hws)| |lia]. rewrite <- Ei. f_equal. lia. }
    rewrite list.Forall_forall in Hpl. by rewrite (Hpl c (list_elem_of_lookup_2 _ _ _ Hc)) in Hf. }
  assert (buf !! (length p + length t)%nat = Some 0) as Hz.
  { unfold buf. rewrite (lookup_put_nuls ws (length line + 1)) by (rewrite ?length_app; cbn; lia). rewrite decide_True; [done|].
    apply list_elem_of_fmap. exists w. split; [lia|done]. }
  split; [rewrite E in H0; set_solver|]. exists (drop (S (length p + length t)) buf).
  rewrite <- (take_drop (length t) (drop (length p) buf)). f_equal.
  - apply list_eq. intros i. destruct (decide (i < length t)%nat) as [Hi|Hi].
    + rewrite lookup_take_lt by done. by rewrite lookup_drop, Hlook.
    + rewrite lookup_take_ge by lia. symmetry. apply lookup_ge_None_2. lia.
  - rewrite drop_drop. apply drop_S. exact Hz.
Qed.

Lemma parsecmd_ends s : ends (fun r _ => r.2 = nulterminate r.1 (s ++ [0]) /\ cmd_ok s r.1) (parsecmd s).
Proof.
  unfold parsecmd. eapply ends_bind.
  { apply (proj1 (parse_ok s (parse_fuel s))); [done|unfold parse_fuel; lia]. }
  intros c s1 [_ Hc]. cbn beta. eapply ends_bind with (R := fun _ _ => True); [done|]. intros _ s2 _. msimpl.
  by destruct (negb (bool_decide (s2 = []))).
Qed.

Lemma parsecmd_standard s c buf s' : parsecmd s = Ok (c, buf) s' -> standard c.
Proof. intros E. pose proof (parsecmd_ends s) as H. rewrite E in H. by eapply cmd_ok_standard, H. Qed.

(** C33: the parser of the shell ends on every line, with a syntax error or with a
    command.  In the line after [nulterminate], every argument and every file
    name of the command is a C string: the word of the line between its two
    pointers. *)
Theorem parsecmd_terminates s :
  0 ∉ s ->
  match parsecmd s with
  | Ok (c, buf) _ => length buf = (length s + 1)%nat
      /\ Forall (fun w => word_text w <> [] /\ reads buf (pos s w.1) (word_text w)) (words c)
  | Panic _ => True
  | _ => False
  end.
Proof.
  intros H0. pose proof (parsecmd_ends s) as H. destruct (parsecmd s) as [[c buf] s'| | | | |]; try done.
  destruct H as [E Hc]. cbn in E, Hc. rewrite E, nulterminate_words. apply cmd_ok_words in Hc.
  split; [by rewrite length_put_nuls, length_app|]. apply list.Forall_forall. intros w Hw.
  split; [|by apply nulterminate_reads].
  by destruct (word_at s w (proj1 (list.Forall_forall _ _) Hc w Hw)) as (p & _ & _ & Hne & _).
Qed.
