(* ===== verification/ShRoundtrip.v ===== *)
(** * Parsing what has been written out

    A command, as text without pointers, is written with every part in
    parentheses; the parser of the shell reads it back. *)

From S2P Require Import Prelude Sh ShTheory.
Open Scope Z_scope.

Inductive scmd :=
| SExec (args : list (list Z))
| SRedir (c : scmd) (file : list Z) (mode fd : Z)
| SPipe (left right : scmd)
| SList (left right : scmd)
| SBack (c : scmd).

(** A parsed command with the text of its words in place of the pointers. *)
Fixpoint view (c : cmd) : scmd :=
  match c with
  | EXEC argv => SExec (word_text <$> argv)
  | REDIR c file mode fd => SRedir (view c) (word_text file) mode fd
  | PIPE l r => SPipe (view l) (view r)
  | LIST l r => SList (view l) (view r)
  | BACK c => SBack (view c)
  end.

Definition SPACE : Z := 32.
Definition paren (s : list Z) : list Z := LPAR :: s ++ [RPAR].

Fixpoint show (c : scmd) : list Z :=
  match c with
  | SExec args => args ≫= (fun w => w ++ [SPACE])
  | SRedir c file mode _ => paren (show c) ++ (if mode =? SH_RDONLY then LT else GT) :: file ++ [SPACE]
  | SPipe l r => paren (show l) ++ BAR :: paren (show r)
  | SList l r => paren (show l) ++ SEMI :: paren (show r)
  | SBack c => paren (show c) ++ [AMP]
  end.

Definition is_word (w : list Z) : Prop := w <> [] /\ Forall (fun c => plain c = true) w.

(** Commands the shell can represent: nine arguments at most, and the two kinds
    of redirection. *)
Fixpoint writable (c : scmd) : Prop :=
  match c with
  | SExec args => Forall is_word args /\ (length args < MAXARGS)%nat
  | SRedir c file mode fd => writable c /\ is_word file
      /\ (mode = SH_RDONLY /\ fd = 0 \/ mode = SH_WRONLY_CREATE /\ fd = 1)
  | SPipe l r | SList l r => writable l /\ writable r
  | SBack c => writable c
  end.

(** ** Running the lexer *)

(** No white space in front. *)
Definition tight (s : list Z) : Prop := skip_white s = s.

Lemma tight_cons c s : is_white c = false -> tight (c :: s).
Proof. intros H. unfold tight. cbn. by rewrite H. Qed.

Lemma tight_word w s : is_word w -> tight (w ++ s).
Proof.
  intros [Hne Hw]. destruct w as [|c w]; [done|]. inversion Hw as [|? ? Hc _]. subst. apply tight_cons.
  unfold plain in Hc. by destruct (is_white c).
Qed.

Definition head_in (toks s : list Z) : bool := match s with c :: _ => bool_decide (c ∈ toks) | [] => false end.

Lemma peek_run toks s : tight s -> peek toks s = Ok (head_in toks s) s.
Proof. intros H. unfold peek. msimpl. rewrite H. by destruct s. Qed.

Lemma gettoken_symbol c s :
  c ∈ [BAR; LPAR; RPAR; SEMI; AMP; LT] -> gettoken (c :: s) = Ok (c, (c :: s, s)) (skip_white s).
Proof.
  intros Hc. assert (tight (c :: s)) as Ht.
  { apply tight_cons. unfold is_white. apply bool_decide_eq_false_2. unfold whitespace.
    unfold BAR, LPAR, RPAR, SEMI, AMP, LT in Hc. set_solver. }
  unfold gettoken. msimpl. rewrite Ht. unfold token. by rewrite bool_decide_eq_true_2.
Qed.

Lemma gettoken_gt s : head s <> Some GT -> gettoken (GT :: s) = Ok (GT, (GT :: s, s)) (skip_white s).
Proof.
  intros Hs. unfold gettoken. msimpl. change (skip_white (GT :: s)) with (GT :: s).
  assert ((hd 0 s =? GT) = false) as Hh. { destruct s as [|c s]; [done|]. apply Z.eqb_neq. cbn in *. congruence. }
  unfold token. rewrite bool_decide_eq_false_2 by (cbv; set_solver). by rewrite Z.eqb_refl, Hh.
Qed.

Lemma skip_word_app w s :
  Forall (fun c => plain c = true) w -> (forall c, head s = Some c -> plain c = false) -> skip_word (w ++ s) = s.
Proof.
  intros Hw Hs. induction Hw as [|c w Hc Hw IH]; cbn.
  - destruct s as [|c s]; [done|]. cbn. specialize (Hs c eq_refl). unfold plain in Hs.
    by destruct (is_white c || is_symbol c).
  - unfold plain in Hc. by destruct (is_white c || is_symbol c).
Qed.

Lemma plain_not_symbol c (toks : list Z) :
  plain c = true -> (forall d, d ∈ toks -> d ∈ symbols) -> bool_decide (c ∈ toks) = false.
Proof.
  intros Hc Ht. apply bool_decide_eq_false_2. intros Hin. unfold plain, is_symbol in Hc.
  rewrite (bool_decide_eq_true_2 _ (Ht c Hin)), orb_true_r in Hc. done.
Qed.

Lemma gettoken_word w s :
  is_word w -> (forall c, head s = Some c -> plain c = false) ->
  gettoken (w ++ s) = Ok (WORD, (w ++ s, s)) (skip_white s).
Proof.
  intros Hw Hs. unfold gettoken. msimpl. rewrite (tight_word w s Hw). destruct Hw as [Hne Hw].
  assert (token (w ++ s) = (WORD, s)) as ->; [|done].
  destruct w as [|c w]; [done|]. cbn [app token]. inversion Hw as [|? ? Hc _]. subst.
  rewrite (plain_not_symbol c) by (done || (cbv; set_solver)).
  destruct (Z.eqb_spec c GT) as [->|]; [done|]. change (c :: w ++ s) with ((c :: w) ++ s). by rewrite skip_word_app.
Qed.

Lemma word_text_app w s : word_text (w ++ s, s) = w.
Proof.
  unfold word_text. cbn. rewrite length_app. replace (length w + length s - length s)%nat with (length w) by lia.
  apply take_app_length.
Qed.

(** ** Running the parser *)
Lemma parseredirs_none c s : tight s -> head_in [LT; GT] s = false -> parseredirs c s = Ok c s.
Proof. intros Ht Hh. unfold parseredirs. msimpl. cbn [redirs_loop]. erewrite bind_ok by (by apply peek_run). by rewrite Hh. Qed.

Lemma back_loop_none c s fuel : tight s -> head_in [AMP] s = false -> back_loop c (S fuel) s = Ok c s.
Proof. intros Ht Hh. cbn [back_loop]. erewrite bind_ok by (by apply peek_run). by rewrite Hh. Qed.

(** What may follow a command: its end, or a closing parenthesis. *)
Definition closing (s : list Z) : Prop := s = [] \/ head s = Some RPAR.

Lemma closing_rpar s : closing (RPAR :: s).
Proof. by right. Qed.

Lemma closing_tight s : closing s -> tight s.
Proof. intros [->|H]; [done|]. destruct s; [done|]. injection H as ->. by apply tight_cons. Qed.

Lemma closing_head (toks s : list Z) : closing s -> (RPAR ∉ toks) -> head_in toks s = false.
Proof. intros [->|H] Hn; [done|]. destruct s; [done|]. injection H as ->. cbn. by apply bool_decide_eq_false_2. Qed.

(** A redirection that is followed by [s]. *)
Lemma parseredirs_one c file mode fd s :
  is_word file -> closing s -> mode = SH_RDONLY /\ fd = 0 \/ mode = SH_WRONLY_CREATE /\ fd = 1 ->
  exists w, parseredirs c ((if mode =? SH_RDONLY then LT else GT) :: file ++ SPACE :: s) = Ok (REDIR c w mode fd) s
    /\ word_text w = file.
Proof.
  intros Hf Hs Hm. set (ch := if mode =? SH_RDONLY then LT else GT).
  exists (file ++ SPACE :: s, SPACE :: s). split; [|apply word_text_app].
  assert (ch = LT \/ ch = GT) as Hch by (unfold ch; destruct (mode =? SH_RDONLY); auto).
  assert (tight (ch :: file ++ SPACE :: s)) as Ht by (apply tight_cons; destruct Hch as [-> | ->]; done).
  assert (gettoken (ch :: file ++ SPACE :: s) = Ok (ch, (ch :: file ++ SPACE :: s, file ++ SPACE :: s)) (file ++ SPACE :: s)) as Hg.
  { destruct Hch as [-> | ->].
    - rewrite gettoken_symbol by set_solver. by rewrite (tight_word file).
    - rewrite gettoken_gt. { by rewrite (tight_word file). }
      destruct Hf as [Hne Hp]. destruct file as [|x file]; [done|]. inversion Hp as [|? ? Hx _]. intros [= ->]. done. }
  unfold parseredirs. msimpl. cbn [length redirs_loop]. erewrite bind_ok by (by apply peek_run).
  assert (head_in [LT; GT] (ch :: file ++ SPACE :: s) = true) as -> by (apply bool_decide_eq_true_2; set_solver).
  erewrite bind_ok by exact Hg. cbn beta iota.
  erewrite bind_ok by (apply gettoken_word; [done|by intros ? [= <-]]). cbn beta iota. cbn [negb Z.eqb].
  change (WORD =? WORD) with true. cbn [negb].
  change (skip_white (SPACE :: s)) with (skip_white s). rewrite (closing_tight s Hs). rewrite length_app. cbn [length].
  destruct (length file + S (length s))%nat as [|n] eqn:En; [lia|]. cbn [redirs_loop].
  erewrite bind_ok by (apply peek_run, closing_tight, Hs). rewrite closing_head by (done || (cbv; set_solver)).
  unfold ch. by destruct Hm as [[-> ->]|[-> ->]].
Qed.

Lemma show_exec_cons w args s :
  show (SExec (w :: args)) ++ s = w ++ SPACE :: (show (SExec args) ++ s).
Proof. cbn. by rewrite <- !(assoc_L (++)). Qed.

Lemma show_exec_tight args s : Forall is_word args -> closing s -> tight (show (SExec args) ++ s).
Proof.
  intros Ha Hs. destruct Ha as [|w args Hw Ha]; [by apply closing_tight|].
  rewrite show_exec_cons. by apply tight_word.
Qed.

(** The text of the arguments does not start with a symbol. *)
Lemma show_exec_head (toks : list Z) args s :
  Forall is_word args -> closing s -> (forall d, d ∈ toks -> d ∈ symbols) -> (RPAR ∉ toks) \/ args <> [] ->
  head_in toks (show (SExec args) ++ s) = false.
Proof.
  intros Ha Hs Ht Hor. destruct Ha as [|w args [Hne Hw] Ha]; [apply closing_head; [done|by destruct Hor]|].
  rewrite show_exec_cons. destruct w as [|c w]; [done|]. inversion Hw. by apply plain_not_symbol.
Qed.

Lemma symbols_sub (toks : list Z) : bool_decide (Forall (fun d => d ∈ symbols) toks) = true -> forall d, d ∈ toks -> d ∈ symbols.
Proof. intros H%bool_decide_eq_true. by apply list.Forall_forall. Qed.

Lemma args_loop_run args ws s fuel :
  Forall is_word args -> closing s -> (length ws + length args < MAXARGS)%nat ->
  (length (show (SExec args) ++ s) < fuel)%nat ->
  exists ws', args_loop (EXEC []) ws fuel (show (SExec args) ++ s) = Ok (EXEC (ws ++ ws')) s
    /\ word_text <$> ws' = args.
Proof.
  intros Ha Hs. revert ws fuel. induction Ha as [|w args Hw Ha IH]; intros ws [|fuel] Hl Hf; try lia; cbn [args_loop].
  - exists []. split; [|done]. rewrite app_nil_r. change (show (SExec []) ++ s) with s.
    erewrite bind_ok by (apply peek_run, closing_tight, Hs). destruct Hs as [->|Hh]; [done|].
    destruct s; [done|]. by injection Hh as ->.
  - pose proof (show_exec_tight (w :: args) s ltac:(by constructor) Hs) as Ht.
    erewrite bind_ok by (by apply peek_run).
    rewrite show_exec_head by (done || (by constructor) || (by right) || (by apply symbols_sub)).
    rewrite show_exec_cons. pose proof (show_exec_tight args s Ha Hs) as Ht2.
    erewrite bind_ok by (apply gettoken_word; [done|by intros ? [= <-]]). cbn beta iota.
    change (WORD =? 0) with false. change (WORD =? WORD) with true. cbn [negb].
    change (skip_white (SPACE :: show (SExec args) ++ s)) with (skip_white (show (SExec args) ++ s)). rewrite Ht2.
    rewrite (proj2 (Nat.leb_gt _ _)) by (rewrite length_app; cbn in *; lia).
    erewrite bind_ok.
    2: { apply parseredirs_none; [done|]. apply show_exec_head; [done..|by apply symbols_sub|]. left. cbv. set_solver. }
    destruct (IH (ws ++ [(w ++ SPACE :: show (SExec args) ++ s, SPACE :: show (SExec args) ++ s)]) fuel) as (ws' & E & Ew).
    + rewrite length_app. cbn in *. lia.
    + rewrite show_exec_cons in Hf. rewrite length_app in Hf. cbn [length] in Hf. lia.
    + exists ((w ++ SPACE :: show (SExec args) ++ s, SPACE :: show (SExec args) ++ s) :: ws').
      split; [etrans; [exact E|]; by rewrite <- (assoc_L (++))|]. cbn [fmap list_fmap]. by rewrite word_text_app, Ew.
Qed.

(** A simple command. *)
Lemma parsepipe_exec args s fuel :
  Forall is_word args -> (length args < MAXARGS)%nat -> closing s ->
  exists c, parsepipe (S (S fuel)) (show (SExec args) ++ s) = Ok c s /\ view c = SExec args.
Proof.
  intros Ha Hl Hs. pose proof (show_exec_tight args s Ha Hs) as Ht.
  destruct (args_loop_run args [] s (S (length (show (SExec args) ++ s))) Ha Hs ltac:(cbn; lia) ltac:(lia)) as (ws & E & Ew).
  exists (EXEC ws). split; [|cbn; by rewrite Ew]. cbn [parsepipe].
  assert (forall (toks : list Z), bool_decide (Forall (fun d => d ∈ symbols) toks) = true -> bool_decide (RPAR ∈ toks) = false ->
    head_in toks (show (SExec args) ++ s) = false) as Hhd.
  { intros toks H1 H2%bool_decide_eq_false. apply show_exec_head; [done..|by apply symbols_sub|by left]. }
  erewrite bind_ok.
  2: { cbn [parseexec]. erewrite bind_ok by (by apply peek_run). rewrite Hhd by done.
       erewrite bind_ok by (by apply parseredirs_none; [|apply Hhd]). msimpl. exact E. }
  erewrite bind_ok by (apply peek_run, closing_tight, Hs). rewrite closing_head by (done || (cbv; set_solver)). done.
Qed.

(** What follows a command in parentheses. *)
Definition after_block (s : list Z) : Prop := closing s \/ exists c, head s = Some c /\ c ∈ [BAR; SEMI; AMP; LT; GT].

Lemma after_block_tight s : after_block s -> tight s.
Proof.
  intros [H|(c & Hh & Hc)]; [by apply closing_tight|]. destruct s; [done|]. injection Hh as ->. apply tight_cons.
  apply bool_decide_eq_false_2. unfold whitespace. unfold BAR, SEMI, AMP, LT, GT in Hc. set_solver.
Qed.

(** [parseline] reads the text of [c]. *)
Definition reads_back (c : scmd) : Prop :=
  forall s fuel, closing s -> (4 * length (show c) + 4 <= fuel)%nat ->
    exists c', parseline fuel (show c ++ s) = Ok c' s /\ view c' = c.

Lemma parseexec_block c s fuel :
  reads_back c -> tight (show c ++ RPAR :: s) -> after_block s -> (4 * length (show c) + 6 <= fuel)%nat ->
  exists c', parseexec fuel (paren (show c) ++ s) = parseredirs c' s /\ view c' = c.
Proof.
  intros Hc Ht Hs Hf. destruct fuel as [|[|fuel]]; try lia.
  destruct (Hc (RPAR :: s) fuel) as (c' & E & Ev); [by right|lia|]. exists c'. split; [|done].
  assert (paren (show c) ++ s = LPAR :: show c ++ RPAR :: s) as ->.
  { unfold paren. cbn. by rewrite <- (assoc_L (++)). }
  cbn [parseexec]. erewrite bind_ok by (apply peek_run, tight_cons; done). cbn [head_in].
  rewrite bool_decide_eq_true_2 by set_solver. cbn [parseblock].
  erewrite bind_ok by (apply peek_run, tight_cons; done). cbn [head_in]. rewrite bool_decide_eq_true_2 by set_solver. cbn [negb].
  erewrite bind_ok by (apply gettoken_symbol; set_solver). rewrite Ht. erewrite bind_ok by exact E.
  erewrite bind_ok by (apply peek_run, tight_cons; done). cbn [head_in]. rewrite bool_decide_eq_true_2 by set_solver. cbn [negb].
  erewrite bind_ok by (apply gettoken_symbol; set_solver). by rewrite (after_block_tight s Hs).
Qed.

Lemma show_tight c s : writable c -> closing s -> tight (show c ++ s).
Proof.
  intros Hc Hs. destruct c; cbn [writable] in Hc; [by apply show_exec_tight; [destruct Hc|]|..];
    cbn [show paren app]; by apply tight_cons.
Qed.

Lemma length_paren s : length (paren s) = (length s + 2)%nat.
Proof. unfold paren. cbn. rewrite length_app. cbn. lia. Qed.

(** A command in parentheses that nothing else follows in the pipe. *)
Lemma parsepipe_paren c s fuel :
  writable c -> reads_back c -> after_block s -> head_in [LT; GT; BAR] s = false ->
  (4 * length (show c) + 7 <= fuel)%nat ->
  exists c', parsepipe fuel (paren (show c) ++ s) = Ok c' s /\ view c' = c.
Proof.
  intros Hw Hc Hs Hh Hf. destruct fuel as [|fuel]; [lia|].
  destruct (parseexec_block c s fuel Hc (show_tight c _ Hw (closing_rpar _)) Hs ltac:(lia)) as (c' & E & Ev).
  exists c'. split; [|done]. cbn [parsepipe]. pose proof (after_block_tight s Hs) as Ht.
  assert (head_in [LT; GT] s = false /\ head_in [BAR] s = false) as [H1 H2].
  { destruct s as [|x s]; [done|]. cbn in *. apply bool_decide_eq_false in Hh. split; apply bool_decide_eq_false_2; set_solver. }
  erewrite bind_ok by (rewrite E; by apply parseredirs_none). erewrite bind_ok by (by apply peek_run). by rewrite H2.
Qed.

Lemma parseline_end c t s fuel :
  parsepipe fuel t = Ok c s -> closing s -> parseline (S fuel) t = Ok c s.
Proof.
  intros E Hs. cbn [parseline]. erewrite bind_ok by exact E. erewrite bind_ok by reflexivity. pose proof (closing_tight s Hs) as Ht.
  erewrite bind_ok by (apply back_loop_none; [done|apply closing_head; [done|cbv; set_solver]]).
  erewrite bind_ok by (by apply peek_run). by rewrite closing_head by (done || (cbv; set_solver)).
Qed.

Lemma parseline_redir c file mode fd :
  reads_back c -> writable (SRedir c file mode fd) -> reads_back (SRedir c file mode fd).
Proof.
  intros Hc (Hw & Hf & Hm) s fuel Hs Hl. cbn [show] in *. rewrite length_app, length_paren in Hl. cbn [length] in Hl.
  destruct fuel as [|[|fuel]]; try lia. set (ch := if mode =? SH_RDONLY then LT else GT) in *.
  assert (after_block (ch :: file ++ SPACE :: s)) as Hab.
  { right. exists ch. split; [done|]. unfold ch. destruct (mode =? SH_RDONLY); set_solver. }
  destruct (parseexec_block c (ch :: file ++ SPACE :: s) fuel Hc (show_tight c _ Hw (closing_rpar _)) Hab ltac:(lia)) as (c' & E & Ev).
  destruct (parseredirs_one c' file mode fd s Hf Hs Hm) as (w & E2 & Ew). fold ch in E2.
  exists (REDIR c' w mode fd). split; [|cbn; by rewrite Ev, Ew]. apply parseline_end; [|done]. cbn [parsepipe].
  rewrite <- (assoc_L (++)). cbn [app]. rewrite <- (assoc_L (++)). cbn [app].
  erewrite bind_ok by (rewrite E; exact E2). erewrite bind_ok by (apply peek_run, closing_tight, Hs).
  by rewrite closing_head by (done || (cbv; set_solver)).
Qed.

Lemma parseline_pipe l r :
  reads_back l -> reads_back r -> writable (SPipe l r) -> reads_back (SPipe l r).
Proof.
  intros Hl Hr [Hwl Hwr] s fuel Hs Hf. cbn [show] in *. rewrite length_app, length_paren in Hf. cbn [length] in Hf.
  rewrite length_paren in Hf. destruct fuel as [|[|fuel]]; try lia.
  destruct (parseexec_block l (BAR :: paren (show r) ++ s) fuel Hl (show_tight l _ Hwl (closing_rpar _))) as (l' & El & Evl);
    [right; exists BAR; split; [done|set_solver]|lia|].
  destruct (parsepipe_paren r s fuel Hwr Hr (or_introl Hs)) as (r' & Er & Evr);
    [apply closing_head; [done|cbv; set_solver]|lia|].
  exists (PIPE l' r'). split; [|cbn; by rewrite Evl, Evr]. apply parseline_end; [|done]. cbn [parsepipe].
  rewrite <- (assoc_L (++)). cbn [app].
  erewrite bind_ok by (rewrite El; apply parseredirs_none; [by apply tight_cons|apply bool_decide_eq_false_2; cbv; set_solver]).
  erewrite bind_ok by (apply peek_run, tight_cons; done). cbn [head_in]. rewrite bool_decide_eq_true_2 by set_solver.
  erewrite bind_ok by (apply gettoken_symbol; set_solver). change (skip_white (paren (show r) ++ s)) with (paren (show r) ++ s).
  by erewrite bind_ok by exact Er.
Qed.

Lemma parseline_list l r :
  reads_back l -> reads_back r -> writable (SList l r) -> reads_back (SList l r).
Proof.
  intros Hl Hr [Hwl Hwr] s fuel Hs Hf. cbn [show] in *. rewrite length_app, length_paren in Hf. cbn [length] in Hf.
  rewrite length_paren in Hf. destruct fuel as [|[|fuel]]; try lia.
  destruct (parsepipe_paren l (SEMI :: paren (show r) ++ s) (S fuel) Hwl Hl) as (l' & El & Evl);
    [right; exists SEMI; split; [done|set_solver]|apply bool_decide_eq_false_2; cbv; set_solver|lia|].
  destruct (parsepipe_paren r s fuel Hwr Hr (or_introl Hs)) as (r' & Er & Evr);
    [apply closing_head; [done|cbv; set_solver]|lia|].
  exists (LIST l' r'). split; [|cbn; by rewrite Evl, Evr]. cbn [parseline].
  rewrite <- (assoc_L (++)). cbn [app]. erewrite bind_ok by exact El. erewrite bind_ok by reflexivity.
  erewrite bind_ok by (apply back_loop_none; [by apply tight_cons|apply bool_decide_eq_false_2; cbv; set_solver]).
  erewrite bind_ok by (apply peek_run, tight_cons; done). cbn [head_in]. rewrite bool_decide_eq_true_2 by set_solver.
  erewrite bind_ok by (apply gettoken_symbol; set_solver). change (skip_white (paren (show r) ++ s)) with (paren (show r) ++ s).
  by erewrite bind_ok by (by apply parseline_end).
Qed.

Lemma parseline_back c : reads_back c -> writable c -> reads_back (SBack c).
Proof.
  intros Hc Hw s fuel Hs Hf. cbn [show] in *. rewrite length_app, length_paren in Hf. cbn [length] in Hf.
  destruct fuel as [|fuel]; try lia.
  destruct (parsepipe_paren c (AMP :: s) fuel Hw Hc) as (c' & E & Ev);
    [right; exists AMP; split; [done|set_solver]|apply bool_decide_eq_false_2; cbv; set_solver|lia|].
  exists (BACK c'). split; [|cbn; by rewrite Ev]. cbn [parseline]. rewrite <- (assoc_L (++)). cbn [app].
  erewrite bind_ok by exact E. erewrite bind_ok by reflexivity. pose proof (closing_tight s Hs) as Ht. erewrite bind_ok.
  2: { cbn [length back_loop]. erewrite bind_ok by (apply peek_run, tight_cons; done). cbn [head_in].
       rewrite bool_decide_eq_true_2 by set_solver. erewrite bind_ok by (apply gettoken_symbol; set_solver).
       rewrite Ht. apply back_loop_none; [done|apply closing_head; [done|cbv; set_solver]]. }
  erewrite bind_ok by (by apply peek_run). by rewrite closing_head by (done || (cbv; set_solver)).
Qed.

Lemma parseline_show c : writable c -> reads_back c.
Proof.
  induction c as [args|c IH|l IHl r IHr|l IHl r IHr|c IH]; intros Hw.
  - intros s fuel Hs Hf. destruct Hw as [Ha Hl]. destruct fuel as [|[|[|fuel]]]; try lia.
    destruct (parsepipe_exec args s fuel Ha Hl Hs) as (c & E & Ev). exists c. split; [by apply parseline_end|done].
  - apply parseline_redir; [apply IH, Hw|done].
  - destruct Hw. by apply parseline_pipe; auto.
  - destruct Hw. by apply parseline_list; auto.
  - by apply parseline_back; auto.
Qed.

(** C34: the parser of the shell understands every command: a command that is
    written out, with parentheses around its parts, is parsed back to itself,
    be it a simple command with up to nine arguments, a redirection, a pipe, a
    list or a background command. *)
Theorem parsecmd_show c :
  writable c -> exists c' buf, parsecmd (show c) = Ok (c', buf) [] /\ view c' = c.
Proof.
  intros Hw. destruct (parseline_show c Hw [] (parse_fuel (show c))) as (c' & E & Ev); [by left|unfold parse_fuel; lia|].
  rewrite app_nil_r in E. eexists c', _. split; [|done]. unfold parsecmd. erewrite bind_ok by exact E. done.
Qed.

(** [((cat )<in )|((wc );((ls -l )&))] *)
Definition sample : scmd :=
  SPipe (SRedir (SExec [[99; 97; 116]]) [105; 110] SH_RDONLY 0)
        (SList (SExec [[119; 99]]) (SBack (SExec [[108; 115]; [45; 108]]))).

Lemma parsecmd_show_witness :
  exists c' buf, parsecmd (show sample) = Ok (c', buf) [] /\ view c' = sample.
Proof.
  apply (parsecmd_show sample). unfold sample, is_word. cbn -[MAXARGS].
  repeat match goal with |- _ /\ _ => split | |- is_word _ => split | |- _ <> [] => discriminate | |- (_ < _)%nat => vm_compute; lia
    | |- Forall _ _ => constructor | |- _ \/ _ => left end; reflexivity.
Defined.

Lemma parsecmd_terminates_witness :
  match parsecmd [108; 115; 62; 120] with
  | Ok (c, buf) _ => length buf = 5%nat
      /\ Forall (fun w => word_text w <> [] /\ reads buf (pos [108; 115; 62; 120] w.1) (word_text w)) (words c)
  | Panic _ => True
  | _ => False
  end.
Proof. apply (parsecmd_terminates [108; 115; 62; 120]). apply (bool_decide_unpack _). vm_compute. exact I. Defined.
