(* ===== verification/ProcTheory.v ===== *)
(** * Joining threads

    What [thread_join] does: it reaps the first child of the caller in the
    process table.  It returns what that child passed to [thread_exit], also when
    the caller asked for another thread. *)

From S2P Require Import Prelude CString Kalloc Vm VmTheory VmAlloc VmUser Double Spinlock ProcState Sched Sleep Bio Log BlockStore Fs Kernel Pipe File Proc.
Open Scope Z_scope.

Lemma slots_at j : (j < NPROC)%nat -> slots = seq 0 j ++ j :: seq (S j) (NPROC - S j).
Proof.
  intros Hj. unfold slots. replace NPROC with (j + S (NPROC - S j))%nat at 1 by lia. by rewrite seq_app.
Qed.

(** A page that neither the address space nor the free list holds. *)
Record private_page `{Linker} (s : kmem) (pd : Z) (free : list Z) (q : Z) : Prop := {
  pp_valid : valid_page q;
  pp_free : q ∉ free;
  pp_table : ~ owns (kmemory s) pd q;
  pp_frame : forall va, 0 <= va < KERNBASE -> present (kmemory s) pd va = true -> frame (kmemory s) pd va <> q;
}.

(** The slot of a child that has been joined. *)
Definition joined (p : proc) : proc := reset_slot { reset_sched p with kstack := 0 }.

Section Join.
Context {S : Type} `{LinkerOk, BlockStore S, Devsw S}.
#[local] Abbreviation K := (kernel (World S)).
#[local] Abbreviation memory k := (kmemory (wmem (world k))).

Lemma for_slots_first {A} (body : nat -> M K (option A)) (k : K) j a k' :
  length (ptable k) = NPROC -> (j < NPROC)%nat ->
  (forall i p, (i < j)%nat -> ptable k !! i = Some p -> body i k = Ok None k) ->
  body j k = Ok (Some a) k' -> for_loop slots body k = Ok (Some a) k'.
Proof.
  intros Hlen Hj Hb Ha. rewrite (slots_at j Hj). apply for_loop_first; [|done].
  intros i [_ Hi]%elem_of_seq. destruct (lookup_lt_is_Some_2 (ptable k) i ltac:(lia)) as [p Hp]. by apply (Hb i p).
Qed.

(** A share that is given back to the MLFQ changes two numbers. *)
Lemma give_back_ok (b : bool) x (k : K) :
  exists ls ms,
    when b (modify (fun k => { k with leftShare := f64_add (leftShare k) x });;
            modify (fun k => { k with MLFQStrideVal := f64_div (f64_of_Z STRIDENUM) (leftShare k) })) k
    = Ok tt { k with leftShare := ls; MLFQStrideVal := ms }.
Proof. destruct b; [by eexists _, _|]. exists (leftShare k), (MLFQStrideVal k). by destruct k. Qed.

(** The child [j] of [i] comes first in the table. *)
Definition first_child (k : K) (i j : nat) (pr : proc) : Prop :=
  ptable k !! j = Some pr /\ parent pr = Some i
  /\ forall j' q, (j' < j)%nat -> ptable k !! j' = Some q -> parent q <> Some i.

Lemma join_wait_done (k : K) i j cp pr thread fuel :
  ptable k !! i = Some cp -> ptable k !! j = Some pr -> (0 < fuel)%nat ->
  state pr = ZOMBIE \/ pid pr <> pid cp \/ tid pr <> thread ->
  join_wait i j thread fuel k = Ok tt k.
Proof.
  intros Hi Hj Hf Hor. destruct fuel; [lia|]. cbn [join_wait]. mstep Hj. mstep Hi.
  replace (negb (bool_decide (state pr = ZOMBIE)) && (pid pr =? pid cp) && (tid pr =? thread)) with false; [done|].
  symmetry. destruct Hor as [->|[Hp%Z.eqb_neq|Ht%Z.eqb_neq]]; [done|by rewrite Hp, andb_false_r|by rewrite Ht, andb_false_r].
Qed.

(** The process [cp] in slot [i], which runs on CPU [c] without locks, calls
    [thread_join] with the address [ret] of a word it may write. *)
Record joins (k : K) (c i : nat) (cp : proc) (free : list Z) (ret : Z) : Prop := {
  jo_on : on (mach k) c (Some i) [];
  jo_table : length (ptable k) = NPROC;
  jo_slot : ptable k !! i = Some cp;
  jo_space : space_ok (wmem (world k)) (pgdir cp) free;
  jo_ret : 0 <= ret /\ ret + 4 <= KERNBASE;
  jo_write : forall x, ret <= x < ret + 4 -> uwritable (memory k) (pgdir cp) x;
}.

(** The child [pr] in slot [j], first in the table, which can be reaped. *)
Record reapable (k : K) (i j : nat) (cp pr : proc) (free : list Z) : Prop := {
  re_first : first_child k i j pr;
  re_other : i <> j;
  re_tid : 0 <= tid pr < Z.of_nat NPROC;
  re_stack : private_page (wmem (world k)) (pgdir cp) free (kstack pr);
}.

(** The kernel after [pr] has been reaped and its return value stored. *)
Record has_joined (k k' : K) (c i j : nat) (cp pr : proc) (free : list Z) (ret : Z) : Prop := {
  hj_on : on (mach k') c (Some i) [];
  hj_slot : ptable k' = <[j := joined pr]> (ptable k);
  hj_tid : ttable k' = alter (fun e => { e with tstate := UNUSED }) (Z.to_nat (tid pr)) (ttable k);
  hj_stack : space_ok (wmem (world k')) (pgdir cp) (kstack pr :: free);
  hj_memory : forall x, 0 <= x < KERNBASE -> ubyte (memory k') (pgdir cp) x
    = if (ret <=? x) && (x <? ret + 4) then le_bytes 4 (u32 (retval pr)) !! Z.to_nat (x - ret)
      else ubyte (memory k) (pgdir cp) x;
}.

Lemma thread_join_run thread ret fuel (k : K) c i j cp pr free :
  joins k c i cp free ret -> reapable k i j cp pr free -> (0 < fuel)%nat ->
  state pr = ZOMBIE \/ pid pr <> pid cp \/ tid pr <> thread ->
  exists k', thread_join thread ret fuel k = Ok 0 k' /\ has_joined k k' c i j cp pr free ret.
Proof.
  intros [Hon Hlen Hi Hsp [Hret Hret'] Hw] [(Hj & Hpar & Hfirst) Hij Htid Hpp] Hf Hor.
  pose proof (lookup_lt_Some _ _ _ Hj) as Hjlt. rewrite Hlen in Hjlt.
  assert (KERNBASE < 2 ^ 32) as HK by (unfold KERNBASE; lia).
  destruct (curproc_ok k c i [] Hon) as (m1 & E1 & Hon1). set (k1 := { k with mach := m1 }) in *.
  destruct (kacquire_ok k1 c (Some i) [] lk_ptable Hon1 ltac:(set_solver) ltac:(cbn; lia)) as (m2 & E2 & Hon2).
  set (k2 := { k1 with mach := m2 }) in *.
  destruct (ustore_bytes_ok (le_bytes 4 (u32 (retval pr))) (wmem (world k2)) (pgdir cp) free ret Hsp)
    as (s1 & E3 & Hsp1 & He1 & Ho1 & Hu1); [done|by rewrite length_le_bytes|apply le_bytes_byte|by rewrite length_le_bytes|].
  set (k3 := upd_world (fun w => { w with wmem := s1 }) k2).
  assert (private_page s1 (pgdir cp) free (kstack pr)) as Hpp1.
  { destruct Hpp as [Hv Hn Ho Hfr]. split; [done|done| |].
    - by rewrite Ho1.
    - intros va Hva. unfold present, frame. rewrite He1. by apply Hfr. }
  destruct (space_kfree s1 (pgdir cp) free (kstack pr) Hsp1) as (s2 & E4 & Hsp2 & Hu2); [apply Hpp1..|].
  set (k4 := { k3 with ttable ::= alter (fun e => { e with tstate := UNUSED }) (Z.to_nat (tid pr)) }).
  destruct (give_back_ok (isMLFQ pr =? 0) (share pr) k4) as (ls & ms & E5).
  set (k5 := { k4 with leftShare := ls; MLFQStrideVal := ms }) in *.
  set (k6 := { k5 with ptable := <[j := reset_sched pr]> (ptable k5) }).
  set (k7 := upd_world (fun w => { w with wmem := s2 }) k6).
  set (k8 := { k7 with ptable := <[j := joined pr]> (ptable k7) }).
  destruct (krelease_ok k8 c (Some i) [] [] lk_ptable Hon2) as (m9 & E9 & Hon9).
  exists { k8 with mach := m9 }. unfold thread_join. mstep E1. mstep E2.
  erewrite bind_ok.
  2: { apply (for_slots_first _ k2 j 0 { k8 with mach := m9 }); [done|done| |].
       - intros j' q Hlt Hq. mstep Hq. rewrite bool_decide_eq_false_2; [done|]. by apply (Hfirst j').
       - mstep Hj. rewrite bool_decide_eq_true_2 by done. cbn [negb].
         erewrite bind_ok by (apply (join_wait_done k2 i j cp pr); done). mstep Hj. mstep Hi.
         erewrite bind_ok by (apply on_mem_ok; rewrite u32_small by lia; exact E3). fold k3.
         erewrite bind_ok by (by apply set_tstate_ok). fold k4.
         erewrite bind_ok by exact E5. fold k5.
         erewrite bind_ok by (by apply (setp_ok j pr)). fold k6.
         erewrite bind_ok by (apply on_mem_ok; exact E4). fold k7.
         assert (ptable k7 !! j = Some (reset_sched pr)) as Hj7 by (cbn; apply list_lookup_insert_eq; lia).
         mstep Hj7. erewrite bind_ok by (apply setp_ok; eapply lookup_stored, Hj7).
         rewrite (store_twice k7 j). fold (joined pr). fold k8. by mstep E9. }
  split; [done|]. split; [done| |done|done|].
  - cbn. by rewrite list_insert_insert_eq.
  - intros x Hx. cbn. rewrite Hu2, Hu1 by done. by rewrite length_le_bytes.
Qed.

(** C30: [thread_join] of a thread that has exited, and that is the first child of
    the caller in the process table, returns 0 with the value the thread passed
    to [thread_exit] in [*ret]; the slot, the thread id and the kernel stack of
    the thread are free again, and the rest of the caller's memory is as
    before. *)
Theorem thread_join_returns thread ret fuel (k : K) c i j cp pr free :
  joins k c i cp free ret -> reapable k i j cp pr free -> (0 < fuel)%nat ->
  state pr = ZOMBIE -> tid pr = thread ->
  exists k', thread_join thread ret fuel k = Ok 0 k' /\ has_joined k k' c i j cp pr free ret.
Proof. intros. apply thread_join_run; auto. Qed.

(** C31: [thread_join] does not look for its thread: if the first child of the
    caller in the process table is another one, it is reaped at once, even while
    it is still running, and its kernel stack is freed. *)
Theorem thread_join_reaps_other thread ret fuel (k : K) c i j cp pr free :
  joins k c i cp free ret -> reapable k i j cp pr free -> (0 < fuel)%nat ->
  state pr <> ZOMBIE -> tid pr <> thread ->
  exists k', thread_join thread ret fuel k = Ok 0 k' /\ has_joined k k' c i j cp pr free ret.
Proof. intros. apply thread_join_run; auto. Qed.
End Join.
