(* ===== verification/ForkTheory.v ===== *)
(** * Creating a process

    What [fork] makes: [allocproc] takes the first unused slot, a thread id and a
    kernel stack, [copyuvm] copies the memory of the caller, and the child shares
    its open files and its working directory. *)

From S2P Require Import Prelude CString Kalloc Vm VmTheory VmAlloc VmCopy Double Spinlock ProcState Sched Sleep Bio Log BlockStore Fs Kernel Pipe File Proc ProcTheory.
Open Scope Z_scope.

Section Fork.
Context {S : Type} `{LinkerOk, BlockStore S, Devsw S}.
#[local] Abbreviation K := (kernel (World S)).

(** ** Open files and the working directory *)
Definition dup_ref (y : file) : file := { y with f_ref := s32 (f_ref y + 1) }.

(** The descriptors of the child: those of the parent that are open. *)
Definition inherited (os rest : list (option nat)) : list (option nat) :=
  zip_with (fun o r => match o with Some f => Some f | None => r end) os rest.
Definition dup_files (os : list (option nat)) (ft : list file) : list file :=
  foldl (fun ft o => match o with Some f => alter dup_ref f ft | None => ft end) ft os.

Definition open_files (os : list (option nat)) (ft : list file) : Prop :=
  forall f, Some f ∈ os -> exists y, ft !! f = Some y /\ 1 <= f_ref y /\ f_ref y + Z.of_nat (length os) < 2 ^ 31.

Lemma open_files_dup o os ft :
  open_files (o :: os) ft -> open_files os (match o with Some f => alter dup_ref f ft | None => ft end).
Proof.
  intros Ho f Hf. destruct (Ho f ltac:(by right)) as (y & Hy & Hr1 & Hr2). cbn [length] in Hr2.
  destruct o as [f'|]; [|exists y; split_and!; [done..|lia]]. destruct (decide (f' = f)) as [->|Hne].
  - exists (dup_ref y). rewrite list_lookup_alter_eq, Hy. unfold dup_ref. cbn. rewrite s32_small by lia. split_and!; [done|lia..].
  - exists y. rewrite list_lookup_alter_ne by done. split_and!; [done..|lia].
Qed.

(** The number of descriptors of a file. *)
Definition times (f : nat) (os : list (option nat)) : Z := Z.of_nat (length (filter (fun o => o = Some f) os)).

Lemma dup_files_lookup os ft f :
  open_files os ft -> dup_files os ft !! f = (fun y => { y with f_ref := f_ref y + times f os }) <$> ft !! f.
Proof.
  revert ft. induction os as [|o os IH]; intros ft Ho.
  - cbn. unfold times. cbn. destruct (ft !! f) as [[]|]; [|done]. cbn. by rewrite Z.add_0_r.
  - change (dup_files (o :: os) ft) with (dup_files os (match o with Some f => alter dup_ref f ft | None => ft end)).
    rewrite IH by (by apply open_files_dup). unfold times. rewrite filter_cons. destruct o as [f'|].
    + destruct (decide (Some f' = Some f)) as [[= ->]|Hne].
      * destruct (Ho f ltac:(by left)) as (y & Hy & Hr1 & Hr2). rewrite list_lookup_alter_eq, Hy. cbn [length fmap option_fmap option_map] in *.
        unfold dup_ref. cbn. rewrite s32_small by lia. do 2 f_equal. lia.
      * by rewrite list_lookup_alter_ne by congruence.
    + by rewrite decide_False.
Qed.

Lemma idup_ok d y (fs : fsys S) :
  inodes fs !! d = Some y ->
  idup d fs = Ok d (mk_fsys (fstore fs) (fsb fs) (<[d := { y with i_ref := s32 (i_ref y + 1) }]> (inodes fs))).
Proof.
  intros Hy. unfold idup, setip. erewrite bind_ok; [reflexivity|]. erewrite bind_ok by reflexivity. rewrite Hy.
  erewrite bind_ok by reflexivity. unfold modify. by rewrite (Prelude.alter_insert _ _ _ y).
Qed.

(** ** The slot being filled

    While a new process is set up, only its slot, the machine, the thread table,
    the next process id and the world change. *)
Section Slot.
Context (k : K) (j : nat) (j_slot : (j < length (ptable k))%nat).

Definition filling (x : proc) (m : machine) (t : list tident) (n : Z) (w : World S) : K :=
  { k with ptable := <[j := x]> (ptable k); mach := m; ttable := t; nextpid := n; world := w }.

Lemma filling_start x : ptable k !! j = Some x -> k = filling x (mach k) (ttable k) (nextpid k) (world k).
Proof. intros Hx. unfold filling. rewrite list_insert_id by done. by destruct k. Qed.

Lemma setp_filled f x m t n w : setp j f (filling x m t n w) = Ok tt (filling (f x) m t n w).
Proof.
  rewrite (setp_ok j x) by (cbn; by apply list_lookup_insert_eq). unfold filling. cbn. by rewrite list_insert_insert_eq.
Qed.

Lemma setp_filling {B} f (g : unit -> M K B) x m t n w :
  (setp j f ≫= g) (filling x m t n w) = g tt (filling (f x) m t n w).
Proof. by rewrite (bind_ok _ _ _ _ _ (setp_filled f x m t n w)). Qed.

Lemma getp_filling {B} (g : proc -> M K B) x m t n w : (getp j ≫= g) (filling x m t n w) = g x (filling x m t n w).
Proof.
  assert (getp j (filling x m t n w) = Ok x (filling x m t n w)) as E; [|by rewrite (bind_ok _ _ _ _ _ E)].
  apply getp_ok. cbn. by apply list_lookup_insert_eq.
Qed.

Lemma getp_other {B} i cp (g : proc -> M K B) x m t n w :
  i <> j -> ptable k !! i = Some cp -> (getp i ≫= g) (filling x m t n w) = g cp (filling x m t n w).
Proof.
  intros Hij Hi. assert (getp i (filling x m t n w) = Ok cp (filling x m t n w)) as E; [|by rewrite (bind_ok _ _ _ _ _ E)].
  apply getp_ok. cbn. by rewrite list_lookup_insert_ne.
Qed.

Lemma on_mem_filling {A B} (op : M kmem A) a s (g : A -> M K B) x m t n w :
  op (wmem w) = Ok a s -> (on_mem op ≫= g) (filling x m t n w) = g a (filling x m t n { w with wmem := s }).
Proof. intros E. by rewrite (bind_ok _ _ _ _ _ (on_mem_ok _ (filling x m t n w) _ _ E)). Qed.

Lemma on_fs_filling {A B} (op : M (fsys S) A) a s (g : A -> M K B) x m t n w :
  op (wfs w) = Ok a s -> (on_fs op ≫= g) (filling x m t n w) = g a (filling x m t n { w with wfs := s }).
Proof. intros E. by rewrite (bind_ok _ _ _ _ _ (on_fs_ok _ (filling x m t n w) _ _ E)). Qed.

Lemma get_filling {B} (g : K -> M K B) x m t n w : (get ≫= g) (filling x m t n w) = g (filling x m t n w) (filling x m t n w).
Proof. done. Qed.

Lemma next_pid_filling {B} (g : unit -> M K B) x m t n w :
  (modify (fun k => { k with nextpid := s32 (nextpid k + 1) }) ≫= g) (filling x m t n w)
  = g tt (filling x m t (s32 (n + 1)) w).
Proof. done. Qed.

Lemma acquire_filling lk m c p hs :
  on m c p hs -> lk ∉ hs -> (length hs < 100)%nat ->
  exists m', on m' c p (lk :: hs) /\ forall B (g : unit -> M K B) x t n w,
    (kacquire lk ≫= g) (filling x m t n w) = g tt (filling x m' t n w).
Proof.
  intros Hon Hn Hl. destruct (on_acquire m c p hs lk Hon Hn ltac:(lia)) as (m' & E & Hon').
  exists m'. split; [done|]. intros B g x t n w. by rewrite (bind_ok _ _ _ _ _ (on_mach_ok _ (filling x m t n w) _ _ E)).
Qed.

Lemma release_filling lk m c p hs :
  on m c p (lk :: hs) ->
  exists m', on m' c p hs /\ forall B (g : unit -> M K B) x t n w,
    (krelease lk ≫= g) (filling x m t n w) = g tt (filling x m' t n w).
Proof.
  intros Hon. destruct (on_release m c p [] hs lk Hon) as (m' & E & Hon').
  exists m'. split; [done|]. intros B g x t n w. by rewrite (bind_ok _ _ _ _ _ (on_mach_ok _ (filling x m t n w) _ _ E)).
Qed.

(** ** [allocproc] *)
(** The slot of a new process, with thread id [t], kernel stack [stack] and
    trap frame [f]. *)
Definition embryo (x : proc) (t : nat) (stack : Z) (f : trapframe) : proc :=
  let x := { x with state := EMBRYO; pid := nextpid k } in
  let x := { x with isMLFQ := 1; pticks := 0; ptotalticks := 0; priority := 0;
                    share := f64_of_Z 0; stride := f64_of_Z 0; pass := f64_of_Z 0; isThread := 0; tid := 0 } in
  let x := { x with tid := Z.of_nat t } in
  let x := { x with isMainThread := 1; cntThread := 1 } in
  let x := { x with kstack := stack } in
  let x := { x with tf := f } in
  { x with ctx := mk_context 0 0 0 0 kforkret }.

(** The first free entry of the thread table. *)
Definition free_tid (t : nat) : Prop :=
  (t < NPROC)%nat /\ (exists e, ttable k !! t = Some e /\ tstate e = UNUSED)
  /\ forall i, (i < t)%nat -> exists e, ttable k !! i = Some e /\ tstate e <> UNUSED.

Lemma alloc_tid_ok {B} t (g : option unit -> M K B) x m n w :
  free_tid t ->
  (alloc_tid j ≫= g) (filling x m (ttable k) n w)
  = g (Some tt) (filling { x with tid := Z.of_nat t } m (<[t := mk_tident (Z.of_nat t) EMBRYO]> (ttable k)) n w).
Proof.
  intros (Ht & (e & He & Hu) & Hbefore).
  assert (alloc_tid j (filling x m (ttable k) n w) = Ok (Some tt)
    (filling { x with tid := Z.of_nat t } m (<[t := mk_tident (Z.of_nat t) EMBRYO]> (ttable k)) n w)) as E;
    [|by rewrite (bind_ok _ _ _ _ _ E)].
  unfold alloc_tid. rewrite (slots_at t Ht). apply for_loop_first.
  - intros i [_ Hi]%elem_of_seq. destruct (Hbefore i ltac:(lia)) as (e' & He' & Hn'). erewrite bind_ok by reflexivity.
    change (ttable (filling x m (ttable k) n w)) with (ttable k). rewrite He'. erewrite bind_ok by reflexivity.
    by rewrite bool_decide_eq_false_2.
  - erewrite bind_ok by reflexivity. change (ttable (filling x m (ttable k) n w)) with (ttable k). rewrite He.
    erewrite bind_ok by reflexivity. rewrite bool_decide_eq_true_2 by done. rewrite setp_filling. by erewrite bind_ok by reflexivity.
Qed.

(** The first unused slot is [j]. *)
Definition first_unused (x : proc) : Prop :=
  ptable k !! j = Some x /\ state x = UNUSED
  /\ forall j' q, (j' < j)%nat -> ptable k !! j' = Some q -> state q <> UNUSED.

Lemma find_unused {B} x (g : option nat -> M K B) m t n w :
  first_unused x -> length (ptable k) = NPROC ->
  (for_loop slots (fun i => p ← getp i; mret (if bool_decide (state p = UNUSED) then Some i else None)) ≫= g)
    (filling x m t n w) = g (Some j) (filling x m t n w).
Proof.
  intros (Hx & Hu & Hb) Hlen. erewrite bind_ok; [done|].
  apply (for_slots_first _ (filling x m t n w) j j (filling x m t n w)).
  - cbn. by rewrite length_insert.
  - lia.
  - intros i q Hi Hq. mstep Hq. cbn in Hq. rewrite list_lookup_insert_ne in Hq by lia.
    rewrite bool_decide_eq_false_2; [done|]. by apply (Hb i).
  - rewrite getp_filling. by rewrite bool_decide_eq_true_2.
Qed.

(** The stack page of the new process. *)
Definition stacked (s : kmem) (p : Z) : kmem :=
  { s with kmemory := store32 (kmemory s) (p + KSTACKSIZE - TFSIZE - 4) ktrapret }.

Lemma allocproc_ok x t stack s1 c p :
  first_unused x -> free_tid t -> length (ptable k) = NPROC -> on (mach k) c p [] ->
  kalloc (wmem (world k)) = Ok stack s1 -> stack <> 0 ->
  exists m' tf0, allocproc k
    = Ok (Some j) (filling (embryo x t stack tf0) m'
                    (<[t := mk_tident (Z.of_nat t) EMBRYO]> (ttable k)) (s32 (nextpid k + 1))
                    { (world k) with wmem := stacked s1 stack })
    /\ on m' c p [].
Proof.
  intros Hx Ht Hlen Hon Hk Hv. pose proof (filling_start x (proj1 Hx)) as Ek.
  assert (allocproc k = allocproc (filling x (mach k) (ttable k) (nextpid k) (world k))) as -> by (by rewrite <- Ek).
  clear Ek.
  destruct (acquire_filling lk_ptable _ c p _ Hon ltac:(set_solver) ltac:(cbn; lia)) as (m1 & Hon1 & E1).
  destruct (acquire_filling lk_ttable _ c p _ Hon1 ltac:(set_solver) ltac:(cbn; lia)) as (m2 & Hon2 & E2).
  destruct (release_filling lk_ttable _ c p _ Hon2) as (m3 & Hon3 & E3).
  destruct (release_filling lk_ptable _ c p _ Hon3) as (m4 & Hon4 & E4).
  exists m4, (trapframe_at (kmemory s1) (stack + KSTACKSIZE - TFSIZE)). split; [|done]. unfold allocproc. rewrite E1, find_unused by done. rewrite get_filling, setp_filling.
  rewrite next_pid_filling, setp_filling, E2.
  rewrite (alloc_tid_ok t) by exact Ht.
  rewrite E3, setp_filling, E4.
  rewrite (on_mem_filling _ _ _ _ _ _ _ _ _ Hk), setp_filling, (proj2 (Z.eqb_neq _ _) Hv).
  cbv zeta.
  rewrite get_filling, setp_filling.
  rewrite (on_mem_filling _ tt (stacked s1 stack)) by reflexivity.
  rewrite setp_filling. reflexivity.
Qed.

(** ** The files of the caller *)
Lemma filedup_filling {B} f y (g : nat -> M K B) x m t n w :
  ftab w !! f = Some y -> 1 <= f_ref y ->
  (filedup f ≫= g) (filling x m t n w) = g f (filling x m t n { w with ftab := alter dup_ref f (ftab w) }).
Proof.
  intros Hf Hr. assert (filedup f (filling x m t n w) = Ok f (filling x m t n { w with ftab := alter dup_ref f (ftab w) })) as E;
    [|by rewrite (bind_ok _ _ _ _ _ E)].
  unfold filedup. rewrite (bind_ok _ _ _ _ _ (getf_ok f y (filling x m t n w) Hf)), (proj2 (Z.ltb_ge _ _)) by lia.
  unfold setf. erewrite bind_ok; [reflexivity|]. erewrite bind_ok by reflexivity. change (ftab (world (filling x m t n w))) with (ftab w).
  rewrite Hf. by erewrite bind_ok by reflexivity.
Qed.

Context (i : nat) (cp : proc) (i_other : i <> j) (i_slot : ptable k !! i = Some cp).

Definition inherit_one (i' : nat) : M K unit :=
  cp ← getp i;
  o ← deref (ofile cp !! i');
  match o with
  | Some f => f' ← filedup f; setp j (fun q => { q with ofile ::= <[i' := Some f']> })
  | None => mret tt
  end.

Lemma inherit_step o a x old r rest m t n w os :
  ofile cp !! a = Some o -> ofile x = old ++ r :: rest -> length old = a -> open_files (o :: os) (ftab w) ->
  inherit_one a (filling x m t n w)
  = Ok tt (filling { x with ofile := old ++ match o with Some f => Some f | None => r end :: rest } m t n
             { w with ftab := match o with Some f => alter dup_ref f (ftab w) | None => ftab w end }).
Proof.
  intros Ho Hx Ha Hopen. unfold inherit_one. rewrite (getp_other i cp) by done. rewrite Ho. erewrite bind_ok by reflexivity.
  destruct o as [f|].
  - destruct (Hopen f ltac:(by left)) as (y & Hy & Hr1 & _). rewrite (filedup_filling f y) by done.
    rewrite setp_filled. cbn [mbind].
    change { x with ofile ::= <[a := Some f]> } with { x with ofile := <[a := Some f]> (ofile x) }.
    by rewrite Hx, <- Ha, insert_app_r_alt, Nat.sub_diag.
  - rewrite <- Hx. by destruct x, w.
Qed.


Lemma inherit_loop os a x old rest m t n w :
  drop a (ofile cp) = os -> ofile x = old ++ rest -> length old = a -> length rest = length os ->
  open_files os (ftab w) ->
  for_each (seq a (length os)) inherit_one (filling x m t n w)
  = Ok tt (filling { x with ofile := old ++ inherited os rest } m t n { w with ftab := dup_files os (ftab w) }).
Proof.
  revert a x old rest w. induction os as [|o os IH]; intros a x old rest w Hd Hx Ha Hl Hopen.
  - destruct rest; [|done]. cbn. rewrite <- Hx. destruct x, w. done.
  - destruct rest as [|r rest]; [done|]. cbn [length seq for_each].
    assert (ofile cp !! a = Some o) as Ho by (rewrite <- (Nat.add_0_r a), <- lookup_drop, Hd; done).
    assert (drop (Datatypes.S a) (ofile cp) = os) as Hd'.
    { replace (Datatypes.S a) with (a + 1)%nat by lia. by rewrite <- drop_drop, Hd. }
    rewrite (bind_ok _ _ _ _ _ (inherit_step o a x old r rest m t n w os Ho Hx Ha Hopen)).
    rewrite (IH (Datatypes.S a) _ (old ++ [match o with Some f => Some f | None => r end]) rest);
      [|done|by rewrite <- (assoc_L (++))|rewrite length_app; cbn; lia|by injection Hl|by apply open_files_dup].
    cbn [dup_files foldl inherited zip_with]. rewrite <- (assoc_L (++)). done.
Qed.

Definition with_parent_files (x : proc) (os : list (option nat)) (d : nat) : proc :=
  let x := { x with ofile := os } in
  { x with cwd := Some d; pname ::= fun n => safestrcpy_list n (pname cp) }.

Lemma inherit_files_ok {B} x m t n w d y (g : unit -> M K B) :
  length (ofile cp) = NOFILE -> length (ofile x) = NOFILE -> open_files (ofile cp) (ftab w) ->
  cwd cp = Some d -> inodes (wfs w) !! d = Some y ->
  exists fs', (inherit_files j i ≫= g) (filling x m t n w)
    = g tt (filling (with_parent_files x (inherited (ofile cp) (ofile x)) d) m t n
             { w with ftab := dup_files (ofile cp) (ftab w); wfs := fs' })
    /\ idup d (wfs w) = Ok d fs'.
Proof.
  intros Hl1 Hl2 Ho Hc Hy. eexists. split; [|by apply idup_ok].
  erewrite bind_ok; [reflexivity|]. unfold inherit_files.
  erewrite bind_ok. 2: { rewrite <- Hl1. apply (inherit_loop (ofile cp) 0 x [] (ofile x)); try done. by rewrite Hl1, Hl2. }
  rewrite (getp_other i cp) by done. rewrite Hc. erewrite bind_ok by reflexivity.
  etrans; [apply (on_fs_filling (idup d)); apply (idup_ok d y); exact Hy|]. rewrite setp_filled. reflexivity.
Qed.

(** ** The rest of [fork] *)
Definition forked_slot (x : proc) (pd : Z) (d : nat) : proc :=
  let x := { x with pgdir := pd } in
  let x := { x with sz := sz cp; usz := usz cp; parent := Some i; tf := { (tf cp) with eax := 0 } } in
  let x := with_parent_files x (inherited (ofile cp) (ofile x)) d in
  { x with state := RUNNABLE }.

Lemma fork_child_ok x m t n w pd s2 d y c p :
  copyuvm (pgdir cp) (sz cp) (wmem w) = Ok pd s2 -> pd <> 0 ->
  length (ofile cp) = NOFILE -> length (ofile x) = NOFILE -> open_files (ofile cp) (ftab w) ->
  cwd cp = Some d -> inodes (wfs w) !! d = Some y -> on m c p [] ->
  exists m' fs', fork_child j i (filling x m t n w)
    = Ok (pid x) (filling (forked_slot x pd d) m' t n { w with wmem := s2; ftab := dup_files (ofile cp) (ftab w); wfs := fs' })
    /\ on m' c p [].
Proof.
  intros Ec Hpd Hl1 Hl2 Ho Hd Hy Hon.
  destruct (acquire_filling lk_ptable m c p [] Hon ltac:(set_solver) ltac:(cbn; lia)) as (m2 & Hon2 & E2).
  destruct (release_filling lk_ptable m2 c p [] Hon2) as (m3 & Hon3 & E3).
  unfold fork_child. rewrite (getp_other i cp) by done.
  rewrite (on_mem_filling _ _ _ _ _ _ _ _ _ Ec), setp_filling, (proj2 (Z.eqb_neq _ _) Hpd).
  rewrite (getp_other i cp) by done. rewrite setp_filling.
  edestruct (inherit_files_ok (B := Z)) as (fs' & Ei & _); [exact Hl1| | | | |rewrite Ei]; [done..|].
  rewrite getp_filling, E2, setp_filling, E3. exists m3, fs'. split; [reflexivity|done].
Qed.
End Slot.

(** ** [fork] *)
#[local] Abbreviation memory k := (kmemory (wmem (world k))).

(** The process [cp] in slot [i] can fork: slot [j] with contents [q], thread id
    [t] and page [stack] are the next ones free, there is memory for its [n]
    pages, and its files are open. *)
Record can_fork (k : K) (c i j t : nat) (cp q : proc) (stack : Z) (free : list Z) (n : nat) : Prop := {
  cf_on : on (mach k) c (Some i) [];
  cf_table : length (ptable k) = NPROC;
  cf_slot : ptable k !! i = Some cp;
  cf_run : state cp <> UNUSED;
  cf_new : first_unused k j q;
  cf_tid : free_tid k t;
  cf_space : space_ok (wmem (world k)) (pgdir cp) (stack :: free);
  cf_sz : 0 <= sz cp < KERNBASE /\ sz cp <= PGSIZE * Z.of_nat n;
  cf_mapped : forall x, 0 <= x -> page_of x < sz cp -> present (memory k) (pgdir cp) x = true;
  cf_pages : (265 + 264 + 2 * n <= length free)%nat;
  cf_files : length (ofile cp) = NOFILE /\ length (ofile q) = NOFILE /\ open_files (ofile cp) (ftab (world k));
  cf_cwd : exists d y, cwd cp = Some d /\ inodes (wfs (world k)) !! d = Some y;
}.

(** The child. *)
Record child_of (k : K) (i t : nat) (cp q ch : proc) : Prop := {
  ch_state : state ch = RUNNABLE;
  ch_pid : pid ch = nextpid k;
  ch_tid : tid ch = Z.of_nat t;
  ch_parent : parent ch = Some i;
  ch_sz : sz ch = sz cp;
  ch_tf : tf ch = { (tf cp) with eax := 0 };
  ch_ofile : ofile ch = inherited (ofile cp) (ofile q);
  ch_cwd : cwd ch = cwd cp;
  ch_sched : isMLFQ ch = 1 /\ priority ch = 0;
}.

(** The stack page is no part of the address space, so that what is stored there
    does not show. *)
Lemma stacked_ok s pd stack free s1 :
  space_ok s pd (stack :: free) -> pool_ok s1 free -> kmemory s1 = kmemory s ->
  space_ok (stacked s1 stack) pd free
  /\ (forall va, entry (kmemory (stacked s1 stack)) pd va = entry (kmemory s) pd va)
  /\ (forall x, 0 <= x < KERNBASE -> ubyte (kmemory (stacked s1 stack)) pd x = ubyte (kmemory s) pd x).
Proof.
  intros Hs Hpool Hm. destruct (space_kalloc s s1 pd stack free Hs Hpool Hm) as (Hs1 & Hv & Hnin & Hno & Hnf).
  assert (forall x, page_of x <> stack -> kmemory (stacked s1 stack) x = kmemory s x) as Hout.
  { intros x Hx. cbn. rewrite store32_out, Hm; [done|]. intros Hr. apply Hx. apply page_of_in; [apply Hv|].
    unfold KSTACKSIZE, TFSIZE, PGSIZE in *. lia. }
  destruct (space_frame s1 (kmemory (stacked s1 stack)) pd free Hs1) as [Hs2 He].
  { intros x Hx. rewrite Hm in *. apply Hout. intros E. rewrite E in Hx. destruct Hx; contradiction. }
  assert (forall va, entry (kmemory (stacked s1 stack)) pd va = entry (kmemory s) pd va) as He' by (intros va; by rewrite He, Hm).
  split_and!; [exact Hs2|done|]. intros x Hx. apply ubyte_ext; [done|]. intros Hp. apply Hout.
  rewrite (frame_page s pd (stack :: free) x Hs Hx Hp). by apply Hnf.
Qed.

(** C23: [fork] creates a process.  It returns the new process id, and the child, in
    the first unused slot, is runnable, has the caller as its parent, returns 0
    from the system call, and starts at the top of the MLFQ whatever the caller's
    scheduling is.  A user program of the child reads in its memory exactly what
    the caller reads, in pages of its own, and the caller's memory is as before.
    The child has the caller's open files and working directory, and the reference
    count of every file has grown by the number of its descriptors.  No other
    slot of the table changes. *)
Theorem fork_creates (k : K) c i j t cp q stack free n :
  can_fork k c i j t cp q stack free n ->
  exists k' ch free', fork k = Ok (nextpid k) k'
    /\ ptable k' = <[j := ch]> (ptable k) /\ child_of k i t cp q ch
    /\ on (mach k') c (Some i) []
    /\ space_ok (wmem (world k')) (pgdir ch) free' /\ space_ok (wmem (world k')) (pgdir cp) free'
    /\ (forall x, 0 <= x < KERNBASE -> ubyte (memory k') (pgdir ch) x
          = if page_of x <? sz cp then ubyte (memory k) (pgdir cp) x else None)
    /\ (forall x, 0 <= x < KERNBASE -> ubyte (memory k') (pgdir cp) x = ubyte (memory k) (pgdir cp) x)
    /\ (forall x x', 0 <= x < KERNBASE -> 0 <= x' < KERNBASE -> present (memory k') (pgdir ch) x = true ->
          present (memory k') (pgdir cp) x' = true -> frame (memory k') (pgdir ch) x <> frame (memory k') (pgdir cp) x')
    /\ (forall f, ftab (world k') !! f
          = (fun y => { y with f_ref := f_ref y + times f (ofile cp) }) <$> ftab (world k) !! f).
Proof.
  intros [Hon Hlen Hi Hrun Hnew Htid Hsp [Hsz Hn] Hmap Hpages (Hl1 & Hl2 & Hopen) (d & y & Hd & Hy)].
  assert (i <> j) as Hij. { intros ->. destruct Hnew as (Hq & Hu & _). congruence. }
  assert (j < length (ptable k))%nat as Hj by (by eapply lookup_lt_Some, Hnew).
  destruct (kalloc_ok _ _ _ (vm_pool _ _ _ (sp_vm _ _ _ Hsp))) as (s1 & Ek & Hpool & Hm & _).
  destruct (space_kalloc _ s1 _ _ _ Hsp Hpool Hm) as (_ & Hv & _).
  destruct (stacked_ok _ _ _ _ s1 Hsp Hpool Hm) as (Hsp1 & He1 & Hu1).
  destruct (curproc_ok k c i [] Hon) as (m0 & E0 & Hon0). set (k0 := { k with mach := m0 }) in *.
  destruct (allocproc_ok k0 j Hj q t stack s1 c (Some i) Hnew Htid Hlen Hon0 Ek (valid_page_nz _ Hv)) as (m1 & tf0 & Ea & Hon1).
  destruct (copyuvm_ok (stacked s1 stack) (pgdir cp) free (sz cp) n Hsp1 Hsz) as (pd & s2 & free' & Ec & Hpd & Hsc & Hspp & Hcm & Hpm & Hap);
    [intros x Hx Hp; unfold present; rewrite He1; by apply Hmap|done|done|].
  set (w1 := { (world k0) with wmem := stacked s1 stack }) in Ea.
  assert (wmem w1 = stacked s1 stack) as Hw by reflexivity. rewrite <- Hw in Ec.
  destruct (fork_child_ok k0 j Hj i cp Hij Hi _ m1 (<[t := mk_tident (Z.of_nat t) EMBRYO]> (ttable k0)) (s32 (nextpid k0 + 1)) w1
    pd s2 d y c (Some i) Ec Hpd Hl1 (Hl2 : length (ofile (embryo k0 q t stack tf0)) = NOFILE) Hopen Hd Hy Hon1) as (m2 & fs' & Ef & Hon2).
  eexists _, (forked_slot i cp (embryo k0 q t stack tf0) pd d), free'. unfold fork. mstep E0. rewrite (bind_ok _ _ _ _ _ Ea), Ef.
  split_and!; [reflexivity|reflexivity| |exact Hon2|exact Hsc|exact Hspp| | |exact Hap|].
  - split; try reflexivity; [by symmetry|by split].
  - intros x Hx. rewrite <- (Hu1 x Hx). by apply Hcm.
  - intros x Hx. rewrite <- (Hu1 x Hx). by apply Hpm.
  - intros f. by apply dup_files_lookup.
Qed.
End Fork.
