(* ===== verification/ForkWitness.v ===== *)
(** * A process that forks *)

From S2P Require Import Prelude CString Kalloc Vm VmTheory VmAlloc VmCopy VmWitness Double Spinlock ProcState Sched SchedWitness Sleep Bio Log BlockStore Fs ConsoleDev Kernel Pipe ProcWitness ConsoleWitness File Proc ForkTheory.
Open Scope Z_scope.

#[local] Existing Instance mini_linker.
#[local] Existing Instance mini_linker_ok.
#[local] Existing Instance no_store.
#[local] Instance no_device : Devsw unit := {| devsw_read := fun _ => None; devsw_write := fun _ => None |}.

(** Two pages of memory, and two descriptors of one open file. *)
Definition forker (pd : Z) : proc :=
  { some_proc with state := RUNNING; pid := 1; pgdir := pd; sz := 8192; cwd := Some 0%nat;
                   ofile := [Some 0%nat; Some 0%nat] ++ replicate 14 None }.
Definition unused_proc : proc := { free_proc with ofile := replicate NOFILE None }.
Definition forker_world (s : kmem) : World unit :=
  { (world_of s ∅) with ftab := [mk_file FD_INODE 2 1 1 0 (Some 0%nat) 0]; wfs := mk_fsys tt no_sb [console_inode] }.
Definition forker_kernel (s : kmem) (pd : Z) : kernel (World unit) :=
  kernel_of (machine_at (Some 0%nat) []) [forker pd; unused_proc] (forker_world s).

Lemma forker_can_fork s pd stack free :
  space_ok s pd (stack :: free) -> (533 <= length free)%nat ->
  (forall x, 0 <= x < KERNBASE -> ubyte (kmemory s) pd x = if in_pages 0 8192 x then Some 0 else None) ->
  can_fork (forker_kernel s pd) 0 0 1 0 (forker pd) unused_proc stack free 2.
Proof.
  intros Hs Hl Hb. split.
  - apply on_machine_at; [apply NoDup_nil_2|cbn; lia].
  - reflexivity.
  - reflexivity.
  - discriminate.
  - split_and!; [reflexivity|reflexivity|]. intros j' q Hj Hq. assert (j' = 0)%nat as -> by lia. by injection Hq as <-.
  - split_and!; [unfold NPROC; lia|eexists; split; reflexivity|intros; lia].
  - exact Hs.
  - cbn. unfold KERNBASE, PGSIZE. lia.
  - intros x Hx Hp. apply (ubyte_some _ _ _ 0). destruct (page_split x) as [Ex Hr]. unfold page_of in Hp. cbn in Hp.
    assert (x < 8192) by (unfold PGSIZE in *; lia). cbn. rewrite Hb by (unfold KERNBASE; lia). by rewrite in_pages_low.
  - lia.
  - split_and!; [reflexivity|reflexivity|]. intros f Hf. exists (mk_file FD_INODE 2 1 1 0 (Some 0%nat) 0).
    cbn in Hf |- *. rewrite !elem_of_cons in Hf. destruct Hf as [[= ->]|[[= ->]|Hf]]; [split_and!; [reflexivity|cbn; lia..]..|].
    repeat (destruct Hf as [Hf|Hf]; [discriminate|]). by apply elem_of_nil in Hf.
  - eexists _, _. split; reflexivity.
Qed.

Lemma fork_creates_witness :
  exists (k k' : kernel (World unit)) ch, fork k = Ok 1 k' /\ ptable k' !! 1%nat = Some ch
    /\ state ch = RUNNABLE /\ ubyte (kmemory (wmem (world k'))) (pgdir ch) 8191 = Some 0
    /\ f_ref <$> ftab (world k') !! 0%nat = Some 4.
Proof.
  destruct mini_user as (s & pd & free & Hs & Hl & Hb). destruct free as [|stack free]; [cbn in Hl; lia|].
  destruct (fork_creates (forker_kernel s pd) 0 0 1 0 (forker pd) unused_proc stack free 2) as (k' & ch & free' & E & Hp & Hch & _ & _ & _ & Hm & _ & _ & Hf).
  { apply forker_can_fork; [done|cbn in Hl; lia|done]. }
  exists (forker_kernel s pd), k', ch. split_and!.
  - exact E.
  - by rewrite Hp.
  - apply Hch.
  - rewrite Hm by (unfold KERNBASE; lia). cbn. rewrite Hb by (unfold KERNBASE; lia). reflexivity.
  - by rewrite Hf.
Defined.
