(* ===== verification/Programs.v ===== *)
(** * User programs

    What the shells are written in: a program is a tree of system calls, with
    a branch for every result of a call.  A process is a program, a table of
    open files and a number of children it has not waited for; [advance] is
    what one call does to it, and [step] lets any process of the system go
    first.

    The result of a call that depends on the rest of the system (whether there
    is memory for another process, which bytes are read, ...) is told by an
    [env], which the theorems quantify over.  Processes and pipes are named by
    where they are created: [(who, n)] is call number [n] of process [who], and
    a process that is forked there is called [who ++ [n]].

    [any_schedule] shows that the order in which the processes run does not
    matter: every run ends, and what has happened then is what [meaning]
    says.  [run_visits] shows where the first process stands in between: every
    run comes to each of its states, and when it has no children left to wait
    for, only processes that [abandons] names are left beside it. *)

From S2P Require Import Prelude.
Open Scope Z_scope.

Definition name : Type := list nat * nat.

(** What a file descriptor refers to. *)
Inductive object :=
| Opened (path : list Z) (mode : Z)
| PipeRead (p : name)
| PipeWrite (p : name).

(** [proc->ofile] *)
Abbreviation fdtable := (list (option object)).

Inductive call :=
| close (fd : Z)
| dup (fd : Z)
| open (path : list Z) (mode : Z)
| write (fd : Z) (s : list Z)
| chdir (path : list Z).

(** [Pipe] passes the result and the two elements of the array; [Read] the
    bytes that are read from descriptor 0; [Wait] whether there was a child to
    wait for; [Exec] goes on only if it fails.  [Program] is a program that has
    been started by [Exec]. *)
Inductive prog :=
| Exit
| Program
| Sys (c : call) (k : Z -> prog)
| Read (k : list Z -> prog)
| Pipe (k : Z -> Z -> Z -> prog)
| Fork (k : Z -> prog)
| Exec (path : list Z) (argv : list (list Z)) (k : prog)
| Wait (k : bool -> prog).

(** What can be seen of a process: text it writes, directories it goes to, and
    the programs it turns into, with their descriptors. *)
Inductive event :=
| Wrote (o : object) (s : list Z)
| Moved (path : list Z)
| Ran (path : list Z) (argv : list (list Z)) (fds : fdtable).

#[export] Instance exit_dec (p : prog) : Decision (p = Exit).
Proof. destruct p; first [by left | by right]. Defined.

Record env := {
  grants : name -> bool;
  newpid : name -> Z;
  input : name -> list Z;
}.

Record task := Task {
  who : list nat;
  calls : nat;
  fds : fdtable;
  kids : nat;
  code : prog;
}.

(** ** Descriptors *)

Definition slot {A} (F : list (option A)) (fd : Z) : option A :=
  if fd <? 0 then None else mjoin (F !! Z.to_nat fd).

(** [fdalloc] *)
Definition lowest {A} (T : list (option A)) : option nat := fst <$> list_find (fun o => o = None) T.
Definition install (o : object) (F : fdtable) : Z * fdtable :=
  match lowest F with
  | Some i => (Z.of_nat i, <[i := Some o]> F)
  | None => (-1, F)
  end.

Section Env.
Context (e : env).

(** The result of a call, the descriptors after it, and what it shows. *)
Definition docall (n : name) (c : call) (F : fdtable) : Z * fdtable * list event :=
  match c with
  | close fd =>
      match slot F fd with
      | Some _ => (0, <[Z.to_nat fd := None]> F, [])
      | None => (-1, F, [])
      end
  | dup fd =>
      match slot F fd with
      | Some o => (install o F, [])
      | None => (-1, F, [])
      end
  | open path mode => if grants e n then (install (Opened path mode) F, []) else (-1, F, [])
  | write fd s =>
      match slot F fd with
      | Some o => (Z.of_nat (length s), F, [Wrote o s])
      | None => (-1, F, [])
      end
  | chdir path => if grants e n then (0, F, [Moved path]) else (-1, F, [])
  end.

Definition dopipe (n : name) (F : fdtable) : option (Z * Z * fdtable) :=
  if grants e n then
    let '(a, F1) := install (PipeRead n) F in
    let '(b, F2) := install (PipeWrite n) F1 in
    if (a <? 0) || (b <? 0) then None else Some (a, b, F2)
  else None.

(** Everything a process and its descendants show. *)
Fixpoint meaning (p : prog) (w : list nat) (n : nat) (F : fdtable) (ks : nat) : list event :=
  match p with
  | Exit | Program => []
  | Sys c k =>
      let '(r, F', ev) := docall (w, n) c F in
      ev ++ meaning (k r) w (S n) F' ks
  | Read k => meaning (k (input e (w, n))) w (S n) F ks
  | Pipe k =>
      match dopipe (w, n) F with
      | Some (a, b, F') => meaning (k 0 a b) w (S n) F' ks
      | None => meaning (k (-1) 0 0) w (S n) F ks
      end
  | Fork k =>
      if grants e (w, n) then
        meaning (k 0) (w ++ [n]) 0 F 0 ++ meaning (k (newpid e (w, n))) w (S n) F (S ks)
      else meaning (k (-1)) w (S n) F ks
  | Exec path argv k =>
      if grants e (w, n) then [Ran path argv F] else meaning k w (S n) F ks
  | Wait k => meaning (k (bool_decide (ks <> 0%nat))) w (S n) F (pred ks)
  end.

(** The processes that nobody waits for.  [K] are the children that may still
    be there; when there are several, [Wait] does not tell which of them it has
    found, so they are forgotten together when the last one has been found. *)
Fixpoint abandons (p : prog) (w : list nat) (n : nat) (F : fdtable) (ks : nat) (K : list (list nat)) : list (list nat) :=
  match p with
  | Exit | Program => K
  | Sys c k => let '(r, F', _) := docall (w, n) c F in abandons (k r) w (S n) F' ks K
  | Read k => abandons (k (input e (w, n))) w (S n) F ks K
  | Pipe k =>
      match dopipe (w, n) F with
      | Some (a, b, F') => abandons (k 0 a b) w (S n) F' ks K
      | None => abandons (k (-1) 0 0) w (S n) F ks K
      end
  | Fork k =>
      if grants e (w, n) then
        abandons (k 0) (w ++ [n]) 0 F 0 []
        ++ abandons (k (newpid e (w, n))) w (S n) F (S ks) (K ++ [w ++ [n]])
      else abandons (k (-1)) w (S n) F ks K
  | Exec path argv k => if grants e (w, n) then K else abandons k w (S n) F ks K
  | Wait k =>
      abandons (k (bool_decide (ks <> 0%nat))) w (S n) F (pred ks) (if decide (pred ks = 0%nat) then [] else K)
  end.

(** The number of steps they take. *)
Fixpoint work (p : prog) (w : list nat) (n : nat) (F : fdtable) (ks : nat) : nat :=
  match p with
  | Exit => 0
  | Program => 1
  | Sys c k =>
      let '(r, F', _) := docall (w, n) c F in S (work (k r) w (S n) F' ks)
  | Read k => S (work (k (input e (w, n))) w (S n) F ks)
  | Pipe k =>
      match dopipe (w, n) F with
      | Some (a, b, F') => S (work (k 0 a b) w (S n) F' ks)
      | None => S (work (k (-1) 0 0) w (S n) F ks)
      end
  | Fork k =>
      if grants e (w, n) then
        S (work (k 0) (w ++ [n]) 0 F 0 + work (k (newpid e (w, n))) w (S n) F (S ks))
      else S (work (k (-1)) w (S n) F ks)
  | Exec path argv k =>
      if grants e (w, n) then 2 else S (work k w (S n) F ks)
  | Wait k => S (work (k (bool_decide (ks <> 0%nat))) w (S n) F (pred ks))
  end.

(** ** Processes *)

(** One call of a process: the process after it, its new child, and what it
    shows.  A process that has exited, or has to wait for a child, does not go
    on by itself. *)
Definition advance (t : task) : option (task * list task * list event) :=
  let n := (who t, calls t) in
  let next p F := Task (who t) (S (calls t)) F (kids t) p in
  match code t with
  | Exit => None
  | Program => Some (Task (who t) (calls t) (fds t) (kids t) Exit, [], [])
  | Sys c k => let '(r, F, ev) := docall n c (fds t) in Some (next (k r) F, [], ev)
  | Read k => Some (next (k (input e n)) (fds t), [], [])
  | Pipe k =>
      match dopipe n (fds t) with
      | Some (a, b, F) => Some (next (k 0 a b) F, [], [])
      | None => Some (next (k (-1) 0 0) (fds t), [], [])
      end
  | Fork k =>
      if grants e n then
        Some (Task (who t) (S (calls t)) (fds t) (S (kids t)) (k (newpid e n)),
              [Task (who t ++ [calls t]) 0 (fds t) 0 (k 0)], [])
      else Some (next (k (-1)) (fds t), [], [])
  | Exec path argv k =>
      if grants e n then Some (next Program (fds t), [], [Ran path argv (fds t)])
      else Some (next k (fds t), [], [])
  | Wait k =>
      match kids t with
      | O => Some (next (k false) (fds t), [], [])
      | S _ => None
      end
  end.

Definition parent_of (w : list nat) : option (list nat) :=
  match w with [] => None | _ => Some (removelast w) end.

(** The processes of the system in no particular order, and what they have
    shown. *)
Definition system : Type := list task * list event.

Inductive step : system -> system -> Prop :=
| step_call P L t rest t' new ev :
    P ≡ₚ t :: rest -> advance t = Some (t', new, ev) ->
    step (P, L) (t' :: new ++ rest, L ++ ev)
| step_reap P L t z rest k m :
    P ≡ₚ t :: z :: rest -> code t = Wait k -> kids t = S m ->
    code z = Exit -> parent_of (who z) = Some (who t) ->
    step (P, L) (Task (who t) (S (calls t)) (fds t) m (k true) :: rest, L).

Definition finished (P : list task) : Prop := Forall (fun t => code t = Exit) P.

Definition task_meaning (t : task) : list event := meaning (code t) (who t) (calls t) (fds t) (kids t).
Definition task_work (t : task) : nat := work (code t) (who t) (calls t) (fds t) (kids t).
Definition total (P : list task) : nat := sum_list (task_work <$> P).

(** Every process has the children it counts, and names are not used again. *)
Record named (P : list task) : Prop := {
  nm_names : NoDup (who <$> P);
  nm_below : forall t u i r, t ∈ P -> u ∈ P -> who u = who t ++ i :: r -> (i < calls t)%nat;
  nm_kids : forall t, t ∈ P -> kids t = length (filter (fun u => parent_of (who u) = Some (who t)) P);
}.

(** ** The order does not matter *)

Lemma advance_meaning t t' new ev :
  advance t = Some (t', new, ev) ->
  ev ++ task_meaning t' ++ (new ≫= task_meaning) ≡ₚ task_meaning t.
Proof.
  unfold advance, task_meaning. destruct t as [w n F ks p]; cbn. intros E.
  destruct p as [| |c k|k|k|k|path argv k|k]; simplify_eq/=; try done.
  - destruct (docall (w, n) c F) as [[r F'] ev'] eqn:Ec. simplify_eq/=. by rewrite app_nil_r.
  - by rewrite app_nil_r.
  - destruct (dopipe (w, n) F) as [[[a b] F']|] eqn:Ec; simplify_eq/=; by rewrite app_nil_r.
  - destruct (grants e (w, n)); simplify_eq/=; rewrite app_nil_r; [apply Permutation_app_comm|done].
  - destruct (grants e (w, n)); simplify_eq/=; [done|by rewrite app_nil_r].
  - destruct ks; simplify_eq/=. by rewrite app_nil_r.
Qed.

Lemma advance_work t t' new ev :
  advance t = Some (t', new, ev) -> (task_work t' + total new < task_work t)%nat.
Proof.
  unfold advance, task_work, total. destruct t as [w n F ks p]; cbn. intros E.
  destruct p as [| |c k|k|k|k|path argv k|k]; simplify_eq/=; try lia.
  - destruct (docall (w, n) c F) as [[r F'] ev'] eqn:Ec. simplify_eq/=. lia.
  - destruct (dopipe (w, n) F) as [[[a b] F']|] eqn:Ec; simplify_eq/=; lia.
  - destruct (grants e (w, n)); simplify_eq/=; unfold task_work; cbn; lia.
  - destruct (grants e (w, n)); simplify_eq/=; lia.
  - destruct ks; simplify_eq/=. lia.
Qed.

Lemma step_meaning P L P' L' :
  step (P, L) (P', L') -> L' ++ (P' ≫= task_meaning) ≡ₚ L ++ (P ≫= task_meaning).
Proof.
  inversion 1 as [? ? t rest t' new ev HP Ha|? ? t z rest k m HP Hc Hk Hz]; subst.
  - rewrite HP. cbn. rewrite bind_app, <- (advance_meaning _ _ _ _ Ha). solve_Permutation.
  - rewrite HP. cbn. assert (task_meaning z = []) as -> by (unfold task_meaning; by rewrite Hz).
    assert (task_meaning t = meaning (k true) (who t) (S (calls t)) (fds t) m) as ->; [|done].
    unfold task_meaning. by rewrite Hc, Hk.
Qed.

Lemma total_perm P P' : P ≡ₚ P' -> total P = total P'.
Proof. intros HP. unfold total. by rewrite HP. Qed.

Lemma step_work P L P' L' : step (P, L) (P', L') -> (total P' < total P)%nat.
Proof.
  inversion 1 as [? ? t rest t' new ev HP Ha|? ? t z rest k m HP Hc Hk Hz]; subst; rewrite (total_perm _ _ HP).
  - apply advance_work in Ha. unfold total in *. cbn. rewrite fmap_app, sum_list_with_app. lia.
  - unfold total, task_work. cbn. rewrite Hc, Hz, Hk. cbn [work].
    change (bool_decide (S m <> 0%nat)) with true. cbn [pred]. lia.
Qed.

(** ** Somebody can always go on *)

Lemma parent_app w i : parent_of (w ++ [i]) = Some w.
Proof. unfold parent_of. rewrite removelast_last. by destruct w. Qed.

Lemma parent_some w v : parent_of w = Some v -> exists i, w = v ++ [i].
Proof.
  unfold parent_of. destruct w as [|x w]; [done|]. intros [= <-]. exists (List.last (x :: w) x).
  apply app_removelast_last. done.
Qed.

Lemma named_perm P P' : P ≡ₚ P' -> named P -> named P'.
Proof.
  intros HP [Hn Hb Hk]. split.
  - by rewrite <- HP.
  - intros t u i r Ht Hu. apply Hb; by rewrite HP.
  - intros t Ht. rewrite (Hk t) by (by rewrite HP). by rewrite HP.
Qed.

(** The names and the children are what counts. *)
Lemma named_go t t' rest :
  who t' = who t -> (calls t <= calls t')%nat -> kids t' = kids t ->
  named (t :: rest) -> named (t' :: rest).
Proof.
  intros Hw Hc Hk [Hn Hb Hd]. split.
  - cbn in *. by rewrite Hw.
  - intros a b i r Ha Hb' E.
    assert (forall x, x ∈ t' :: rest -> exists y, y ∈ t :: rest /\ who x = who y /\ (calls y <= calls x)%nat) as Hx.
    { intros x [->|Hx]%elem_of_cons; [exists t|exists x]; split; try done; [left|by right]. }
    destruct (Hx a Ha) as (a' & Ha' & Ea & Hca), (Hx b Hb') as (b' & Hb'' & Eb & _).
    rewrite Ea, Eb in E. pose proof (Hb _ _ _ _ Ha' Hb'' E). lia.
  - intros a Ha. apply elem_of_cons in Ha as [->|Ha].
    + pose proof (Hd t ltac:(left)) as E. rewrite filter_cons in *. rewrite Hk, E, !Hw. by destruct (decide _).
    + pose proof (Hd a ltac:(by right)) as E. rewrite filter_cons in *. rewrite E, !Hw. by destruct (decide _).
Qed.

Lemma named_fork t F p q rest :
  let t' := Task (who t) (S (calls t)) (fds t) (S (kids t)) p in
  let c := Task (who t ++ [calls t]) 0 F 0 q in
  named (t :: rest) -> named (t' :: c :: rest).
Proof.
  intros t' c [Hn Hb Hd]. split.
  - cbn in *. apply list.NoDup_cons in Hn as [Hn1 Hn2]. repeat apply NoDup_cons_2; [| |done].
    + intros [E|E]%elem_of_cons; [|done]. apply (f_equal length) in E. rewrite length_app in E. cbn in E. lia.
    + intros (u & E & Hu)%list_elem_of_fmap. assert (calls t < calls t)%nat; [|lia].
      apply (Hb t u _ []); [left|by right|done].
  - assert (forall x, x ∈ t' :: c :: rest -> x = c \/ exists y, y ∈ t :: rest /\ who x = who y /\ (calls y <= calls x)%nat
      /\ (who y = who t -> x = t')) as Hx.
    { intros x [->|[->|Hx]%elem_of_cons]%elem_of_cons; [right; exists t|by left|right; exists x]; split_and!; try done; [left|cbn; lia|by right|].
      intros E. apply list.NoDup_cons in Hn as [Hn _]. destruct Hn. apply list_elem_of_fmap. by exists x. }
    intros a b i r Ha Hb' E. destruct (Hx a Ha) as [->|(a' & Ha' & Ea & Hca & Hta)], (Hx b Hb') as [->|(b' & Hb'' & Eb & _)].
    + apply (f_equal length) in E. cbn in E. rewrite !length_app in E. cbn in E. lia.
    + rewrite Eb in E. cbn in E. rewrite <- (assoc_L (++)) in E. pose proof (Hb t b' _ _ ltac:(left) Hb'' E). lia.
    + rewrite Ea in E. cbn in E. destruct r as [|j r _] using rev_ind.
      * apply app_inj_tail in E as [E <-]. rewrite (Hta (eq_sym E)). cbn. lia.
      * rewrite app_comm_cons, (assoc_L (++)) in E. apply app_inj_tail in E as [E _].
        pose proof (Hb a' t _ _ Ha' ltac:(left) E). lia.
    + rewrite Ea, Eb in E. pose proof (Hb _ _ _ _ Ha' Hb'' E). lia.
  - intros a Ha. rewrite !filter_cons. cbn [who t' c]. rewrite parent_app.
    apply elem_of_cons in Ha as [->|Ha]; [|apply elem_of_cons in Ha as [->|Ha]]; cbn [who kids t' c].
    + pose proof (Hd t ltac:(left)) as E. rewrite filter_cons in E. rewrite (decide_True (P := Some (who t) = _)) by done. rewrite E. by destruct (decide _).
    + assert (forall u, u ∈ t :: rest -> parent_of (who u) <> Some (who t ++ [calls t])) as Hno.
      { intros u Hu (i & E)%parent_some. rewrite <- (assoc_L (++)) in E. pose proof (Hb t u _ _ ltac:(left) Hu E). lia. }
      rewrite (decide_False (P := parent_of (who t) = _)) by (apply Hno; left). rewrite decide_False.
      2:{ intros [= E]. apply (f_equal length) in E. rewrite length_app in E. cbn in E. lia. }
      symmetry. apply length_zero_iff_nil, elem_of_nil_inv. intros u [Hp Hu]%list_elem_of_filter.
      eapply Hno; [right; exact Hu|exact Hp].
    + pose proof (Hd a ltac:(by right)) as E. rewrite filter_cons in E. rewrite (decide_False (P := Some (who t) = _)); [rewrite E; by destruct (decide _)|].
      intros [= Et]. apply list.NoDup_cons in Hn as [Hn _]. destruct Hn. apply list_elem_of_fmap. by exists a.
Qed.

Lemma named_reap t z rest n F p m :
  (calls t <= n)%nat -> kids t = S m -> parent_of (who z) = Some (who t) ->
  named (t :: z :: rest) -> named (Task (who t) n F m p :: rest).
Proof.
  intros Hc Hk Hz Hn. apply (named_go (Task (who t) (calls t) F m p)); try done.
  destruct Hn as [Hn Hb Hd]. apply list.NoDup_cons in Hn as [Hn1 [Hn2 Hn3]%list.NoDup_cons]. split.
  - cbn in *. apply NoDup_cons_2; [set_solver|done].
  - intros a b i r Ha Hb' E.
    assert (forall x, x ∈ Task (who t) (calls t) F m p :: rest -> exists y, y ∈ t :: z :: rest /\ who x = who y /\ calls y = calls x) as Hx.
    { intros x [->|Hx]%elem_of_cons; [exists t|exists x]; split; try done; [left|by do 2 right]. }
    destruct (Hx a Ha) as (a' & Ha' & Ea & <-), (Hx b Hb') as (b' & Hb'' & Eb & _).
    rewrite Ea, Eb in E. by eapply Hb.
  - intros a Ha. apply elem_of_cons in Ha as [->|Ha].
    + pose proof (Hd t ltac:(left)) as E. rewrite !filter_cons in *. cbn [who kids]. rewrite Hz in E.
      rewrite (decide_True (P := Some (who t) = _)) in E by done. destruct (decide (parent_of (who t) = _)); cbn in *; lia.
    + pose proof (Hd a ltac:(by do 2 right)) as E. rewrite !filter_cons in *. cbn [who kids]. rewrite Hz in E.
      rewrite (decide_False (P := Some (who t) = _)) in E; [rewrite E; by destruct (decide _)|].
      intros [= Et]. destruct Hn1. apply elem_of_cons. right. apply list_elem_of_fmap. by exists a.
Qed.

Lemma advance_named t t' new ev rest :
  advance t = Some (t', new, ev) -> named (t :: rest) -> named (t' :: new ++ rest).
Proof.
  unfold advance. intros E Hn. destruct (code t) as [| |c k|k|k|k|path argv k|k]; simplify_eq/=.
  all: try (destruct (docall _ _ _) as [[??]?]).
  all: try (destruct (dopipe _ _) as [[[??]?]|]).
  all: try (destruct (grants e _)).
  all: try (destruct (kids t) eqn:Ek in E; [|done]).
  all: simplify_eq/=.
  all: first [by apply named_fork | by (eapply named_go; [..|exact Hn]; cbn; auto with lia)].
Qed.

Lemma step_named s s' : step s s' -> named s.1 -> named s'.1.
Proof.
  intros [P L t rest t' new ev HP Ha|P L t z rest k m HP Hc Hk Hz Hp] Hn%(named_perm _ _ HP); cbn in *.
  - by eapply advance_named.
  - eapply named_reap; [lia|done|done|exact Hn].
Qed.

(** A process that waits has a child in the system, and the deepest of the
    processes that have not exited has none that has not. *)
Lemma advance_none t :
  advance t = None -> code t <> Exit -> exists k m, code t = Wait k /\ kids t = S m.
Proof.
  unfold advance. intros E Hc. destruct (code t) as [| |c k|k|k|k|path argv k|k]; try done.
  - by destruct (docall _ _ _) as [[??]?].
  - by destruct (dopipe _ _) as [[[??]?]|].
  - by destruct (grants e _).
  - by destruct (grants e _).
  - destruct (kids t) as [|m]; [done|]. by exists k, m.
Qed.

Lemma descend P L d t :
  named P -> t ∈ P -> code t <> Exit -> (forall u, u ∈ P -> length (who u) <= length (who t) + d)%nat ->
  exists s', step (P, L) s'.
Proof.
  intros Hn. revert t. induction d as [|d IH]; intros t Ht Hc Hd.
  all: destruct (elem_of_Permutation P t) as [[rest HP] _]; [done|].
  all: destruct (advance t) as [[[t' new] ev]|] eqn:Ea; [eexists; by eapply step_call|].
  all: assert (exists k m, code t = Wait k /\ kids t = S m) as (k & m & Ek & Em).
  1, 3: by apply advance_none.
  all: assert (exists u, u ∈ P /\ parent_of (who u) = Some (who t)) as (u & Hu & Hp).
  1, 3: pose proof (nm_kids P Hn t Ht) as El; destruct (filter _ P) as [|u us] eqn:Ef; [by rewrite Em in El|];
    exists u; apply and_comm, (list_elem_of_filter (fun u => parent_of (who u) = Some (who t))); rewrite Ef; left.
  all: destruct (parent_some _ _ Hp) as [i Ei]; pose proof (Hd u Hu) as Hlen; rewrite Ei, length_app in Hlen; cbn in Hlen.
  1: lia.
  destruct (decide (code u = Exit)) as [Eu|Hne].
  - rewrite HP in Hu. apply elem_of_cons in Hu as [->|Hu].
    { apply (f_equal length) in Ei. rewrite length_app in Ei. cbn in Ei. lia. }
    apply elem_of_Permutation in Hu as [rest' Hr]. eexists. eapply step_reap; try done. by rewrite HP, Hr.
  - apply (IH u Hu Hne). intros v Hv. rewrite Ei, length_app. cbn. pose proof (Hd v Hv). lia.
Qed.

Lemma progress P L : named P -> finished P \/ exists s', step (P, L) s'.
Proof.
  intros Hn. destruct (decide (Forall (fun t => code t = Exit) P)) as [Hf|Hf]; [by left|right].
  apply not_Forall_Exists in Hf; [|apply _]. apply list.Exists_exists in Hf as (t & Ht & Hc).
  apply (descend P L (sum_list (length ∘ who <$> P)) t Hn Ht Hc). intros u Hu.
  apply elem_of_Permutation in Hu as [l ->]. cbn. lia.
Qed.

Definition start (p : prog) (F : fdtable) : system := ([Task [] 0 F 0 p], []).

Lemma start_named p F : named (start p F).1.
Proof.
  split.
  - apply NoDup_singleton.
  - intros t u i r ->%list_elem_of_singleton ->%list_elem_of_singleton E. done.
  - intros t ->%list_elem_of_singleton. done.
Qed.

Lemma run_kept s s' :
  rtc step s s' -> named s.1 ->
  named s'.1 /\ s'.2 ++ (s'.1 ≫= task_meaning) ≡ₚ s.2 ++ (s.1 ≫= task_meaning).
Proof.
  induction 1 as [s|[P L] [P' L'] s' Hs _ IH]; intros Hn; [done|].
  destruct (IH (step_named _ _ Hs Hn)) as [Hn' E]. split; [done|]. rewrite E. by apply step_meaning.
Qed.

Lemma finished_meaning P : finished P -> P ≫= task_meaning = [].
Proof.
  induction 1 as [|t P Et _ IH]; [done|]. cbn in *. rewrite IH. unfold task_meaning. by rewrite Et.
Qed.

Lemma run_ok p F :
  (forall n s, nsteps step n (start p F) s -> (n <= work p [] 0 F 0)%nat)
  /\ (forall P L, rtc step (start p F) (P, L) -> nf step (P, L) -> finished P /\ L ≡ₚ meaning p [] 0 F 0).
Proof.
  split.
  - assert (forall n s s', nsteps step n s s' -> (n + total s'.1 <= total s.1)%nat) as H.
    { induction 1 as [|n [P L] [P' L'] z Hs _ IH]; [lia|]. apply step_work in Hs. cbn [fst] in *. lia. }
    intros n s Hs%H. unfold total at 2, task_work in Hs. cbn in Hs. lia.
  - intros P L Hr Hf. destruct (run_kept _ _ Hr (start_named p F)) as [Hn E]. cbn in *.
    destruct (progress P L Hn) as [Hd|[s Hs]]; [|destruct Hf; by exists s]. split; [done|].
    rewrite app_nil_r in E. rewrite <- E. by rewrite (finished_meaning P Hd), app_nil_r.
Qed.

Lemma finished_nf P L : finished P -> nf (step) (P, L).
Proof.
  intros Hf [s' Hs]. assert (forall t rest, P ≡ₚ t :: rest -> code t = Exit) as Ht.
  { intros t rest HP. unfold finished in Hf. rewrite HP in Hf. by inversion Hf. }
  inversion Hs as [? ? t rest t' new ev HP Ha|? ? t z rest k m HP Hc]; subst; apply Ht in HP.
  - unfold advance in Ha. by rewrite HP in Ha.
  - by rewrite HP in Hc.
Qed.

(** There is a run to the end. *)
Lemma run_ends p F : exists P L, rtc step (start p F) (P, L) /\ nf step (P, L).
Proof.
  assert (forall b s, named s.1 -> (total s.1 < b)%nat -> exists P L, rtc step s (P, L) /\ nf step (P, L)) as H.
  { induction b as [|b IH]; intros [P L] Hn Hb; [lia|].
    destruct (progress P L Hn) as [Hf|[[P' L'] Hs]]; [exists P, L; split; [done|by apply finished_nf]|].
    destruct (IH (P', L')) as (Q & M & Hr & Hq); [by eapply step_named|apply step_work in Hs; cbn [fst] in *; lia|].
    exists Q, M. split; [by eapply rtc_l|done]. }
  eapply H; [apply start_named|apply Nat.lt_succ_diag_r].
Qed.

(** However the kernel schedules them, a program and the processes it
    forks reach a state in which all of them have exited, after a bounded
    number of steps, and show the same writes and program starts, with the
    same descriptors. *)
Theorem any_schedule p F :
  (forall n s, nsteps step n (start p F) s -> (n <= work p [] 0 F 0)%nat)
  /\ (forall P L, rtc step (start p F) (P, L) -> nf step (P, L) -> finished P /\ L ≡ₚ meaning p [] 0 F 0).
Proof. apply run_ok. Qed.

(** ** Who is left *)

Definition task_abandons (t : task) (K : list (list nat)) : list (list nat) :=
  abandons (code t) (who t) (calls t) (fds t) (kids t) K.

(** [K] tells for each process which of its children may still be there; every
    process is among them, or descends from one in [A]. *)
Record tended (A : list (list nat)) (P : list task) (K : list nat -> list (list nat)) : Prop := {
  td_code : forall t, t ∈ P -> task_abandons t (K (who t)) ⊆ A;
  td_none : forall t, t ∈ P -> kids t = 0%nat -> K (who t) = [];
  td_live : forall u, u ∈ P -> who u <> [] ->
    (exists a, a ∈ A /\ a `prefix_of` who u)
    \/ (exists t, t ∈ P /\ parent_of (who u) = Some (who t) /\ who u ∈ K (who t));
}.

Lemma tended_perm A P P' K : P ≡ₚ P' -> tended A P K -> tended A P' K.
Proof.
  intros HP [Hc Hz Hl]. split.
  - intros t Ht. apply Hc. by rewrite HP.
  - intros t Ht. apply Hz. by rewrite HP.
  - intros u Hu Hne. destruct (Hl u) as [?|(t & Ht & ?)]; [by rewrite HP|done|by left|].
    right. exists t. by rewrite <- HP.
Qed.

Lemma advance_who t t' new ev : advance t = Some (t', new, ev) -> who t' = who t.
Proof.
  unfold advance. intros E. destruct (code t) as [| |c k|k|k|k|path argv k|k]; simplify_eq/=; try done.
  all: try (destruct (docall _ _ _) as [[??]?]).
  all: try (destruct (dopipe _ _) as [[[??]?]|]).
  all: try (destruct (grants e _)).
  all: try (destruct (kids t) eqn:Ek in E; [|done]).
  all: by simplify_eq/=.
Qed.

(** A call that is no fork, and a fork. *)
Lemma advance_abandons t t' new ev K :
  advance t = Some (t', new, ev) -> (kids t = 0%nat -> K = []) ->
  (new = [] /\ kids t' = kids t /\ task_abandons t' K = task_abandons t K)
  \/ (exists c, new = [c] /\ who c = who t ++ [calls t] /\ kids c = 0%nat /\ kids t' = S (kids t)
       /\ task_abandons c [] ++ task_abandons t' (K ++ [who c]) = task_abandons t K).
Proof.
  unfold advance, task_abandons. destruct t as [w n F ks p]; cbn. intros E HK.
  destruct p as [| |c k|k|k|k|path argv k|k]; simplify_eq/=; try by left.
  - destruct (docall (w, n) c F) as [[r F'] ev'] eqn:Ec. simplify_eq/=. by left.
  - destruct (dopipe (w, n) F) as [[[a b] F']|] eqn:Ec; simplify_eq/=; by left.
  - destruct (grants e (w, n)); simplify_eq/=; [right; by eexists|by left].
  - destruct (grants e (w, n)); simplify_eq/=; by left.
  - destruct ks; simplify_eq/=. left. by rewrite HK.
Qed.

(** The other processes do not change. *)
Lemma tended_others A t t' rest K :
  who t' = who t -> tended A (t :: rest) K -> forall u, u ∈ t' :: rest -> who u <> [] ->
  (exists a, a ∈ A /\ a `prefix_of` who u)
  \/ (exists x, x ∈ t' :: rest /\ parent_of (who u) = Some (who x) /\ who u ∈ K (who x)).
Proof.
  intros Hw [_ _ Hl] u Hu Hne.
  assert (exists y, y ∈ t :: rest /\ who y = who u) as (y & Hy & Ey).
  { apply elem_of_cons in Hu as [->|Hu]; [exists t; split; [left|done]|exists u; split; [by right|done]]. }
  destruct (Hl y Hy) as [Ha|(x & Hx & Hp & HK)]; rewrite Ey in *; [done|by left|]. right.
  apply elem_of_cons in Hx as [->|Hx]; [exists t'; rewrite Hw; split_and!; [left|done..]|exists x; split; [by right|done]].
Qed.

Lemma fork_tended A t t' c rest K :
  who t' = who t -> who c = who t ++ [calls t] -> kids c = 0%nat -> kids t' = S (kids t) ->
  task_abandons c [] ++ task_abandons t' (K (who t) ++ [who c]) = task_abandons t (K (who t)) ->
  named (t' :: c :: rest) -> tended A (t :: rest) K ->
  exists K', tended A (t' :: c :: rest) K'.
Proof.
  intros Hw Hc Hk Hk' E Hn HA. pose proof (tended_others A t t' rest K Hw HA) as Ho. destruct HA as [Hcode Hz _].
  pose proof (nm_names _ Hn) as Hd. cbn in Hd. apply list.NoDup_cons in Hd as [Hd1 [Hd2 _]%list.NoDup_cons].
  set (K' := fun w => if decide (w = who t) then K (who t) ++ [who c] else if decide (w = who c) then [] else K w).
  assert (K' (who t) = K (who t) ++ [who c]) as K1 by (unfold K'; by rewrite decide_True).
  assert (K' (who c) = []) as K2.
  { unfold K'. rewrite decide_False, decide_True; [done..|]. intros E'. apply Hd1. rewrite Hw, <- E'. left. }
  assert (forall x, x ∈ rest -> K' (who x) = K (who x)) as K3.
  { intros x Hx. unfold K'. rewrite !decide_False; [done|..].
    - intros E'. apply Hd2. rewrite <- E'. by apply list_elem_of_fmap_2.
    - intros E'. apply Hd1. rewrite Hw, <- E'. right. by apply list_elem_of_fmap_2. }
  assert (task_abandons c [] ⊆ A /\ task_abandons t' (K (who t) ++ [who c]) ⊆ A) as [A1 A2].
  { pose proof (Hcode t ltac:(left)) as Ht. rewrite <- E in Ht. split; set_solver. }
  exists K'. split.
  - intros x [->|[->|Hx]%elem_of_cons]%elem_of_cons; [by rewrite Hw, K1|by rewrite K2|rewrite K3 by done].
    apply Hcode. by right.
  - intros x [->|[->|Hx]%elem_of_cons]%elem_of_cons Hx0; [lia|done|]. rewrite K3 by done. apply Hz; [by right|done].
  - intros u Hu Hne. assert (u = c \/ u ∈ t' :: rest) as [->|Hu'] by set_solver.
    { right. exists t'. split; [left|]. rewrite Hw, K1, Hc, parent_app. split; [done|]. apply elem_of_app. right. left. }
    destruct (Ho u Hu' Hne) as [?|(x & Hx & Hp & HK)]; [by left|right].
    exists x. split; [set_solver|]. split; [done|]. apply elem_of_cons in Hx as [->|Hx]; [|by rewrite K3].
    rewrite Hw, K1 in *. apply elem_of_app. by left.
Qed.

Lemma advance_tended A t t' new ev rest K :
  advance t = Some (t', new, ev) -> named (t :: rest) -> tended A (t :: rest) K ->
  exists K', tended A (t' :: new ++ rest) K'.
Proof.
  intros E Hn HA. pose proof (advance_who _ _ _ _ E) as Hw. pose proof (advance_named _ _ _ _ _ E Hn) as Hn'.
  destruct (advance_abandons _ _ _ _ (K (who t)) E (td_none _ _ _ HA t ltac:(left)))
    as [(-> & Hk & Ea)|(c & -> & Hc & Hk & Hk' & Ea)]; [|by eapply fork_tended].
  exists K. pose proof (tended_others A t t' rest K Hw HA) as Ho. destruct HA as [Hcode Hz _]. split; [..|done].
  - intros x [->|Hx]%elem_of_cons; [rewrite Hw, Ea; apply Hcode; left|apply Hcode; by right].
  - intros x [->|Hx]%elem_of_cons Hx0; [rewrite Hw; apply Hz; [left|lia]|apply Hz; [by right|done]].
Qed.

Lemma reap_tended A t z rest k m K :
  let t' := Task (who t) (S (calls t)) (fds t) m (k true) in
  code t = Wait k -> kids t = S m -> code z = Exit -> named (t' :: rest) ->
  tended A (t :: z :: rest) K -> exists K', tended A (t' :: rest) K'.
Proof.
  intros t' Hc Hk Hz Hn [Hcode Hnone Hlive].
  set (K' := fun w => if decide (w = who t) then (if decide (m = 0%nat) then [] else K w) else K w).
  pose proof (nm_names _ Hn) as Hd. cbn in Hd. apply list.NoDup_cons in Hd as [Hd _].
  assert (forall x, x ∈ rest -> K' (who x) = K (who x)) as K3.
  { intros x Hx. unfold K'. rewrite decide_False; [done|]. intros E. apply Hd. rewrite <- E. by apply list_elem_of_fmap_2. }
  assert (K' (who t) = if decide (m = 0%nat) then [] else K (who t)) as K1 by (unfold K'; by rewrite decide_True).
  exists K'. split.
  - intros x [->|Hx]%elem_of_cons; [|rewrite K3 by done; apply Hcode; by do 2 right].
    pose proof (Hcode t ltac:(left)) as Ht. unfold task_abandons in Ht. rewrite Hc, Hk in Ht.
    unfold task_abandons. cbn [who t']. rewrite K1. exact Ht.
  - intros x [->|Hx]%elem_of_cons Hx0; [cbn [who t'] in *; cbn in Hx0; rewrite K1; by rewrite decide_True|].
    rewrite K3 by done. apply Hnone; [by do 2 right|done].
  - intros u Hu Hne. assert (exists y, y ∈ t :: z :: rest /\ who y = who u) as (y & Hy & Ey).
    { apply elem_of_cons in Hu as [->|Hu]; [exists t; split; [left|done]|exists u; split; [by do 2 right|done]]. }
    destruct (Hlive y Hy) as [?|(x & Hx & Hp & HK)]; rewrite Ey in *; [done|by left|].
    apply elem_of_cons in Hx as [->|[->|Hx]%elem_of_cons].
    + destruct (decide (m = 0%nat)) as [Hm|Hm].
      * pose proof (nm_kids _ Hn t' ltac:(left)) as El. cbn [kids t'] in El. rewrite Hm in El. symmetry in El.
        apply length_zero_iff_nil in El. assert (u ∈ []) as []%not_elem_of_nil. rewrite <- El. by apply list_elem_of_filter.
      * right. exists t'. split; [left|]. cbn [who t']. by rewrite K1.
    + left. exists (who u). split; [|done]. pose proof (Hcode z ltac:(right; left)) as Hcz.
      unfold task_abandons in Hcz. rewrite Hz in Hcz. cbn in Hcz. set_solver.
    + right. exists x. split; [by right|]. by rewrite K3.
Qed.

Lemma step_tended A s s' K :
  step s s' -> named s.1 -> tended A s.1 K -> exists K', tended A s'.1 K'.
Proof.
  intros Hs Hn HA. pose proof (step_named _ _ Hs Hn) as Hn'.
  destruct Hs as [P L t rest t' new ev HP Ha|P L t z rest k m HP Hc Hk Hz Hp]; cbn in *;
    apply (named_perm _ _ HP) in Hn; apply (tended_perm _ _ _ _ HP) in HA.
  - by eapply advance_tended.
  - by eapply reap_tended.
Qed.

Lemma start_tended p F : tended (abandons p [] 0 F 0 []) (start p F).1 (fun _ => []).
Proof.
  split.
  - by intros t ->%list_elem_of_singleton.
  - done.
  - intros u ->%list_elem_of_singleton. done.
Qed.

Lemma run_tended A s s' K :
  rtc step s s' -> named s.1 -> tended A s.1 K -> exists K', tended A s'.1 K'.
Proof.
  intros Hr. revert K. induction Hr as [s|s s1 s' Hs _ IH]; intros K Hn HA; [by exists K|].
  destruct (step_tended _ _ _ _ Hs Hn HA) as [K1 H1]. eapply IH; [by eapply step_named|exact H1].
Qed.

(** When the first process has no children, the others are abandoned ones and
    their descendants. *)
Lemma only_abandoned A P K t u :
  named P -> tended A P K -> t ∈ P -> who t = [] -> kids t = 0%nat -> u ∈ P -> who u <> [] ->
  exists a, a ∈ A /\ a `prefix_of` who u.
Proof.
  intros Hn [_ _ Hl] Ht Ht0 Hk. remember (length (who u)) as d eqn:Ed. revert u Ed.
  induction d as [|d IH]; intros u Ed Hu Hne; [by destruct (who u)|].
  destruct (Hl u Hu Hne) as [?|(x & Hx & Hp & _)]; [done|].
  destruct (parent_some _ _ Hp) as [i Ei]. destruct (decide (who x = [])) as [Ex|Ex].
  - pose proof (nm_kids P Hn t Ht) as El. rewrite Hk in El. symmetry in El. apply length_zero_iff_nil in El.
    assert (u ∈ []) as []%not_elem_of_nil. rewrite <- El. apply list_elem_of_filter. by rewrite Hp, Ex, Ht0.
  - destruct (IH x) as (a & Ha & Hpre); auto.
    { rewrite Ei, length_app in Ed. cbn in Ed. lia. }
    exists a. split; [done|]. rewrite Ei. by apply prefix_app_r.
Qed.

(** ** Where the first process goes *)

(** A process goes on, with whatever child it finds. *)
Definition proceeds (t t' : task) : Prop :=
  (exists new ev, advance t = Some (t', new, ev))
  \/ (exists k m, code t = Wait k /\ kids t = S m /\ t' = Task (who t) (S (calls t)) (fds t) m (k true)).

Lemma proceeds_det t t1 t2 : proceeds t t1 -> proceeds t t2 -> t1 = t2.
Proof.
  intros [(n1 & e1 & H1)|(k1 & m1 & C1 & M1 & ->)] [(n2 & e2 & H2)|(k2 & m2 & C2 & M2 & ->)]; [congruence| |..|congruence].
  - unfold advance in H1. by rewrite C2, M2 in H1.
  - unfold advance in H2. by rewrite C1, M1 in H2.
Qed.

Lemma named_root P t u : named P -> t ∈ P -> u ∈ P -> who t = who u -> t = u.
Proof.
  intros Hn [i Hi]%list_elem_of_lookup [j Hj]%list_elem_of_lookup E.
  assert (i = j) as <-; [|congruence].
  apply (NoDup_lookup (who <$> P) i j (who t)); [apply Hn| |]; rewrite list_lookup_fmap; [by rewrite Hi|].
  by rewrite Hj, E.
Qed.

Lemma step_root s s' t :
  step s s' -> named s.1 -> t ∈ s.1 -> who t = [] ->
  exists t', t' ∈ s'.1 /\ who t' = [] /\ (t' = t \/ proceeds t t').
Proof.
  intros [P L u rest t' new ev HP Ha|P L u z rest k m HP Hc Hk Hz Hp] Hn Ht Ht0; cbn in *;
    pose proof (Ht : t ∈ P) as Ht'; rewrite HP in Ht'; apply elem_of_cons in Ht' as [<-|Ht'].
  - exists t'. split; [left|]. rewrite (advance_who _ _ _ _ Ha). split; [done|]. right. left. by exists new, ev.
  - exists t. split; [right; apply elem_of_app; by right|]. split; [done|by left].
  - eexists. split; [left|]. split; [done|]. right. right. by exists k, m.
  - apply elem_of_cons in Ht' as [<-|Ht']; [by rewrite Ht0 in Hp|]. exists t. split; [by right|]. split; [done|by left].
Qed.

(** A run that ends comes to every state of its first process. *)
Lemma passes s s' t x :
  rtc step s s' -> named s.1 -> t ∈ s.1 -> who t = [] -> finished s'.1 -> rtc proceeds t x ->
  exists s1, rtc step s s1 /\ rtc step s1 s' /\ x ∈ s1.1.
Proof.
  intros Hr. revert t. induction Hr as [s|s s1 s' Hs Hr IH]; intros t Hn Ht Ht0 Hf Hx.
  - exists s. split_and!; [done..|]. inversion Hx as [|? y ? Hy]; subst; [done|].
    unfold finished in Hf. rewrite list.Forall_forall in Hf. specialize (Hf t Ht).
    destruct Hy as [(new & ev & E)|(k & m & E & _)]; [unfold advance in E|]; by rewrite Hf in E.
  - destruct (step_root _ _ _ Hs Hn Ht Ht0) as (t' & Ht' & Ht0' & Hor).
    inversion Hx as [|? y ? Hy Hyx]; subst; [exists s; split_and!; [done|by eapply rtc_l|done]|].
    destruct (IH t' (step_named _ _ Hs Hn) Ht' Ht0' Hf) as (s2 & R1 & R2 & Hin).
    { destruct Hor as [->|Hp]; [done|]. by rewrite (proceeds_det _ _ _ Hp Hy). }
    exists s2. split_and!; [by eapply rtc_l|done..].
Qed.

(** Every run to the end comes to each state of the first process; if it has no
    children then, it is alone but for processes nobody waits for. *)
Lemma run_visits p F x P L :
  rtc step (start p F) (P, L) -> nf step (P, L) -> rtc proceeds (Task [] 0 F 0 p) x -> who x = [] -> kids x = 0%nat ->
  exists P1 L1 rest, rtc step (start p F) (P1, L1) /\ rtc step (P1, L1) (P, L) /\ P1 ≡ₚ x :: rest
    /\ L1 ++ task_meaning x ++ (rest ≫= task_meaning) ≡ₚ meaning p [] 0 F 0
    /\ Forall (fun u => (exists a, a ∈ abandons p [] 0 F 0 [] /\ a `prefix_of` who u)
         /\ forall i r, who u = i :: r -> (i < calls x)%nat) rest.
Proof.
  intros Hr Hnf Hx Hx0 Hk. destruct (proj2 (run_ok p F) P L Hr Hnf) as [Hf _].
  destruct (passes _ _ (Task [] 0 F 0 p) x Hr (start_named p F)) as ([P1 L1] & R1 & R2 & Hin); [left|done|done|done|].
  destruct (run_kept _ _ R1 (start_named p F)) as [Hn1 E]. cbn in Hin, Hn1, E. rewrite app_nil_r in E.
  destruct (run_tended _ _ _ _ R1 (start_named p F) (start_tended p F)) as [K HK]. cbn in HK.
  pose proof Hin as [rest HP]%elem_of_Permutation. exists P1, L1, rest. split_and!; [done..| |].
  - rewrite <- E. by rewrite HP.
  - apply list.Forall_forall. intros u Hu. assert (u ∈ P1) as Hu1 by (rewrite HP; by right). split.
    2:{ intros i r E'. apply (nm_below _ Hn1 x u i r Hin Hu1). by rewrite Hx0, E'. }
    apply (only_abandoned _ P1 K x u); auto.
    intros Hu0. apply (named_perm _ _ HP) in Hn1. pose proof (nm_names _ Hn1) as Hd. cbn in Hd.
    apply list.NoDup_cons in Hd as [Hd _]. apply Hd. rewrite Hx0, <- Hu0. by apply list_elem_of_fmap_2.
Qed.

(** ** A process by itself *)

Definition waiting (p : prog) : bool := match p with Wait _ => true | _ => false end.

(** Calls that are no forks and no waits, and what they show. *)
Inductive goes : task -> list event -> task -> Prop :=
| goes_refl t : goes t [] t
| goes_call t t1 ev t2 ev' :
    waiting (code t) = false -> advance t = Some (t1, [], ev) -> goes t1 ev' t2 -> goes t (ev ++ ev') t2.

Lemma goes_trans t ev t1 ev' t2 : goes t ev t1 -> goes t1 ev' t2 -> goes t (ev ++ ev') t2.
Proof. intros H. revert ev' t2. induction H; intros ? ? H'; [done|]. rewrite <- (assoc_L (++)). econstructor; eauto. Qed.

Lemma goes_ok t ev t' :
  goes t ev t' ->
  task_meaning t = ev ++ task_meaning t' /\ (forall K, task_abandons t K = task_abandons t' K) /\ rtc proceeds t t'.
Proof.
  induction 1 as [t|t t1 ev t2 ev' Hw Ha _ (E1 & E2 & E3)]; [done|]. split_and!.
  - rewrite <- (assoc_L (++)), <- E1. clear - Hw Ha. unfold advance, task_meaning in *. destruct t as [w n F ks p]; cbn in *.
    destruct p as [| |c k|k|k|k|path argv k|k]; simplify_eq/=; try done.
    all: try (destruct (docall _ _ _) as [[??]?]).
    all: try (destruct (dopipe _ _) as [[[??]?]|]).
    all: try (destruct (grants e _)).
    all: by simplify_eq/=.
  - intros K. rewrite <- E2. clear - Hw Ha. unfold advance, task_abandons in *. destruct t as [w n F ks p]; cbn in *.
    destruct p as [| |c k|k|k|k|path argv k|k]; simplify_eq/=; try done.
    all: try (destruct (docall _ _ _) as [[??]?]).
    all: try (destruct (dopipe _ _) as [[[??]?]|]).
    all: try (destruct (grants e _)).
    all: by simplify_eq/=.
  - eapply rtc_l; [|exact E3]. left. by exists [], ev.
Qed.

(** A process goes from [t] to [t'], and its calls and the children it forks on
    the way show [ev] and leave nobody behind. *)
Definition leads (t : task) (ev : list event) (t' : task) : Prop :=
  task_meaning t = ev ++ task_meaning t'
  /\ (forall K, (kids t = 0%nat -> K = []) ->
       exists K', (kids t' = 0%nat -> K' = []) /\ task_abandons t K = task_abandons t' K')
  /\ rtc proceeds t t'.

Lemma leads_refl t : leads t [] t.
Proof. split_and!; [done|eauto|done]. Qed.

Lemma leads_trans t ev t1 ev' t2 : leads t ev t1 -> leads t1 ev' t2 -> leads t (ev ++ ev') t2.
Proof.
  intros (M1 & A1 & R1) (M2 & A2 & R2). split_and!; [by rewrite <- (assoc_L (++)), <- M2| |by etrans].
  intros K HK. destruct (A1 K HK) as (K1 & H1 & ->), (A2 K1 H1) as (K2 & H2 & ->). by exists K2.
Qed.

Lemma leads_sys c k w n F ks r F' ev :
  docall (w, n) c F = (r, F', ev) -> leads (Task w n F ks (Sys c k)) ev (Task w (S n) F' ks (k r)).
Proof.
  intros E. split_and!.
  - unfold task_meaning. cbn. by rewrite E.
  - intros K HK. exists K. split; [done|]. unfold task_abandons. cbn. by rewrite E.
  - apply rtc_once. left. unfold advance. cbn. rewrite E. by eexists _, _.
Qed.

Lemma leads_read k w n F ks : leads (Task w n F ks (Read k)) [] (Task w (S n) F ks (k (input e (w, n)))).
Proof. split_and!; [done|eauto|]. apply rtc_once. left. by eexists _, _. Qed.

Lemma leads_fork k w n F ks ev :
  grants e (w, n) = true -> meaning (k 0) (w ++ [n]) 0 F 0 = ev -> abandons (k 0) (w ++ [n]) 0 F 0 [] = [] ->
  leads (Task w n F ks (Fork k)) ev (Task w (S n) F (S ks) (k (newpid e (w, n)))).
Proof.
  intros G <- EA. split_and!.
  - unfold task_meaning. cbn. by rewrite G.
  - intros K HK. exists (K ++ [w ++ [n]]). split; [done|]. unfold task_abandons. cbn. by rewrite G, EA.
  - apply rtc_once. left. unfold advance. cbn. rewrite G. by eexists _, _.
Qed.

Lemma leads_wait k w n F ks :
  leads (Task w n F ks (Wait k)) [] (Task w (S n) F (pred ks) (k (bool_decide (ks <> 0%nat)))).
Proof.
  split_and!; [done| |].
  - intros K HK. eexists. split; [|done]. cbn. intros E. by rewrite decide_True.
  - apply rtc_once. destruct ks as [|m]; [left; by eexists _, _|right]. by exists k, m.
Qed.
End Env.
