(* ===== verification/ShRun.v ===== *)
(** * Running commands

    Models the first half of sh.c, [runcmd], [getcmd], [main], [panic] and
    [fork1], and [gets] of ulib.c, as programs in the sense of Programs.v.

    The theorems show that every program of a command line is started with the
    descriptors that the line asks for, and no others, also when some of the
    calls fail, and that the shell takes one line after the other. *)

From S2P Require Import Prelude Sh ShTheory ShRoundtrip Programs.
Open Scope Z_scope.

Definition SH_RDWR : Z := 2.
Definition NL : Z := 10.
Definition CR : Z := 13.

(** [printf(fd, ...)] of the text [s], as one write *)
Definition print (fd : Z) (s : list Z) (k : prog) : prog := Sys (write fd s) (fun _ => k).

(** [panic] of sh.c *)
Definition sh_panic (s : string) : prog := print 2 (chars s ++ [NL]) Exit.

Definition fork1 (k : Z -> prog) : prog :=
  Fork (fun pid => if pid =? -1 then sh_panic "fork" else k pid).

(** [close(fd);], and so on, where the result is not used *)
Definition do (c : call) (k : prog) : prog := Sys c (fun _ => k).

(** A command is never null here: [parsecmd] returns one or panics. *)
Fixpoint runcmd (c : cmd) : prog :=
  match c with
  | EXEC argv =>
      match argv with
      | [] => Exit
      | a :: _ =>
          Exec (word_text a) (word_text <$> argv)
            (print 2 (chars "exec " ++ word_text a ++ chars " failed" ++ [NL]) Exit)
      end
  | REDIR c file mode fd =>
      do (close fd)
        (Sys (open (word_text file) mode) (fun r =>
          if r <? 0 then print 2 (chars "open " ++ word_text file ++ chars " failed" ++ [NL]) Exit
          else runcmd c))
  | LIST l r =>
      fork1 (fun pid =>
        if pid =? 0 then runcmd l
        else Wait (fun _ => runcmd r))
  | PIPE l r =>
      Pipe (fun st p0 p1 =>
        if st <? 0 then sh_panic "pipe"
        else
          fork1 (fun pid =>
            if pid =? 0 then
              do (close 1) (do (dup p1) (do (close p0) (do (close p1) (runcmd l))))
            else
              fork1 (fun pid =>
                if pid =? 0 then
                  do (close 0) (do (dup p0) (do (close p0) (do (close p1) (runcmd r))))
                else
                  do (close p0) (do (close p1) (Wait (fun _ => Wait (fun _ => Exit)))))))
  | BACK c => fork1 (fun pid => if pid =? 0 then runcmd c else Exit)
  end.

(** [gets(buf, max)] of ulib.c: [m] characters can still be stored, [buf] holds
    those so far; [k] gets the characters in front of the final NUL. *)
Fixpoint gets_loop (m : nat) (buf : list Z) (k : list Z -> prog) : prog :=
  match m with
  | O => k buf
  | S m =>
      Read (fun cs =>
        match cs with
        | [] => k buf
        | c :: _ =>
            let buf := buf ++ [c] in
            if (c =? NL) || (c =? CR) then k buf else gets_loop m buf k
        end)
  end.
Definition ulib_gets (max : nat) (k : list Z -> prog) : prog := gets_loop (max - 1) [] k.

(** The string in a buffer that holds [s] and then NULs *)
Fixpoint cstr (s : list Z) : list Z :=
  match s with
  | c :: s => if c =? 0 then [] else c :: cstr s
  | [] => []
  end.

(** [k] gets the result and the characters in the buffer. *)
Definition getcmd (nbuf : nat) (k : Z -> list Z -> prog) : prog :=
  print 2 (chars "$ ")
    (ulib_gets nbuf (fun buf => if hd 0 buf =? 0 then k (-1) buf else k 0 buf)).

(** [runcmd(parsecmd(buf))] *)
Definition run_line (s : list Z) : prog :=
  match parsecmd s with
  | Ok (c, _) _ => runcmd c
  | Panic msg => sh_panic msg
  | _ => Exit
  end.

(** The loop that reads and runs commands, for [fuel] lines; [Program] stands
    for the lines after them. *)
Fixpoint command_loop (fuel : nat) : prog :=
  match fuel with
  | O => Program
  | S fuel =>
      getcmd 100 (fun r buf =>
        if r <? 0 then Exit
        else if (hd 0 buf =? 99) && (nth 1 buf 0 =? 100) && (nth 2 buf 0 =? 32) then
          let dir := drop 3 (take (length (cstr buf) - 1) buf) in
          Sys (chdir (cstr dir)) (fun r =>
            if r <? 0 then print 2 (chars "cannot cd " ++ cstr dir ++ [NL]) (command_loop fuel)
            else command_loop fuel)
        else
          fork1 (fun pid =>
            if pid =? 0 then run_line (cstr buf)
            else Wait (fun _ => command_loop fuel)))
  end.

(** [while((fd = open("console", SH_RDWR)) >= 0) ...]: descriptor 3 is the
    fourth to be given out at the latest. *)
Fixpoint console_loop (fuel : nat) (k : prog) : prog :=
  match fuel with
  | O => k
  | S fuel =>
      Sys (open (chars "console") SH_RDWR) (fun fd =>
        if fd <? 0 then k
        else if 3 <=? fd then do (close fd) k
        else console_loop fuel k)
  end.
Definition sh_main (fuel : nat) : prog := console_loop 4 (command_loop fuel).

(** ** Descriptors *)

Definition full (A : fdtable) : Prop := Forall is_Some A.

(** The standard descriptors are open, and there is room for a pipe. *)
Inductive ready : fdtable -> Prop :=
| ready_intro A B C : full A -> full B -> (3 <= length A)%nat -> ready (A ++ None :: B ++ None :: C).

Lemma lowest_app A B : full A -> lowest (A ++ None :: B) = Some (length A).
Proof.
  unfold lowest, full. intros HA. induction HA as [|o A [x ->] _ IH]; [done|]. cbn in *.
  destruct (list_find _ (A ++ None :: B)) as [[i o]|]; cbn in *; by simplify_eq.
Qed.

Lemma install_app o A B : full A -> install o (A ++ None :: B) = (Z.of_nat (length A), A ++ Some o :: B).
Proof. intros HA. unfold install. rewrite lowest_app by done. by rewrite insert_app_r_alt, Nat.sub_diag by lia. Qed.

Lemma slot_app {X} (o : X) A B : slot (A ++ Some o :: B) (Z.of_nat (length A)) = Some o.
Proof. unfold slot. rewrite (proj2 (Z.ltb_ge _ _)) by lia. by rewrite Nat2Z.id, list_lookup_middle. Qed.

Lemma slot_app2 {X} (o o' : X) A B C : slot (A ++ Some o :: B ++ Some o' :: C) (Z.of_nat (length A + S (length B))) = Some o'.
Proof.
  change (A ++ Some o :: B ++ Some o' :: C) with (A ++ (Some o :: B) ++ Some o' :: C). rewrite (assoc_L (++)).
  replace (length A + S (length B))%nat with (length (A ++ Some o :: B)) by (rewrite length_app; cbn; lia). apply slot_app.
Qed.

Lemma close_app e n o A B : docall e n (close (Z.of_nat (length A))) (A ++ Some o :: B) = (0, A ++ None :: B, []).
Proof. unfold docall. rewrite slot_app, Nat2Z.id. by rewrite insert_app_r_alt, Nat.sub_diag by lia. Qed.

Lemma dup_app e n fd o A B :
  full A -> slot (A ++ None :: B) fd = Some o ->
  docall e n (dup fd) (A ++ None :: B) = (Z.of_nat (length A), A ++ Some o :: B, []).
Proof. intros HA E. unfold docall. by rewrite E, install_app. Qed.

(** A descriptor in the full part of the table. *)
Lemma full_split A i : full A -> (i < length A)%nat -> exists A1 o A2, A = A1 ++ Some o :: A2 /\ length A1 = i /\ full A1 /\ full A2.
Proof.
  intros HA Hi. destruct (lookup_lt_is_Some_2 A i Hi) as [x Hx].
  destruct (Forall_lookup_1 _ _ _ _ HA Hx) as [o ->].
  exists (take i A), o, (drop (S i) A). split_and!; [by rewrite take_drop_middle|rewrite length_take; lia| |].
  - by apply Forall_take.
  - by apply Forall_drop.
Qed.

Lemma insert_full A i o : full A -> full (<[i := Some o]> A).
Proof. intros HA. apply Forall_insert; [done|by eexists]. Qed.

Lemma slot_insert_ne {X} (F : list (option X)) i x fd : fd <> Z.of_nat i -> slot (<[i := x]> F) fd = slot F fd.
Proof.
  intros Hne. unfold slot. destruct (Z.ltb_spec fd 0); [done|]. rewrite list_lookup_insert_ne by lia. done.
Qed.

Section Wiring.
Context (e : env).

Lemma goes_sys c k w n F ks r F' ev :
  docall e (w, n) c F = (r, F', ev) -> goes e (Task w n F ks (Sys c k)) ev (Task w (S n) F' ks (k r)).
Proof.
  intros E. rewrite <- (app_nil_r ev). eapply goes_call; [done| |apply goes_refl]. unfold advance. cbn. by rewrite E.
Qed.

(** The next call shows nothing. *)
Lemma goes_do c k w n F ks r F' ev t :
  docall e (w, n) c F = (r, F', []) -> goes e (Task w (S n) F' ks k) ev t -> goes e (Task w n F ks (do c k)) ev t.
Proof. intros E H. change ev with ([] ++ ev). eapply goes_trans; [by apply goes_sys|exact H]. Qed.

(** A descriptor below 3 is replaced: it is the lowest one after it has been
    closed. *)
Lemma replace_low A B i :
  full A -> (i < length A)%nat ->
  exists F1, (forall n, docall e n (close (Z.of_nat i)) (A ++ B) = (0, F1, []))
    /\ (forall p, install p F1 = (Z.of_nat i, <[i := Some p]> A ++ B))
    /\ (forall fd, fd <> Z.of_nat i -> slot F1 fd = slot (A ++ B) fd).
Proof.
  intros HA Hi. destruct (full_split A i HA Hi) as (A1 & x & A2 & -> & <- & H1 & H2).
  rewrite <- (assoc_L (++)). cbn [app]. eexists (A1 ++ None :: A2 ++ B). split_and!.
  - intros n. apply close_app.
  - intros p. rewrite install_app by done. rewrite insert_app_r_alt, Nat.sub_diag by lia. cbn. by rewrite <- (assoc_L (++)).
  - intros fd Hne. rewrite <- ?(assoc_L (++)). cbn [app]. rewrite <- (slot_insert_ne (A1 ++ Some x :: A2 ++ B) (length A1) None) by done.
    by rewrite insert_app_r_alt, Nat.sub_diag by lia.
Qed.

(** What the processes of a pipeline do with the pipe. *)
Lemma close_ends A B C r w' k w n ks :
  goes e (Task w n (A ++ Some r :: B ++ Some w' :: C) ks
            (do (close (Z.of_nat (length A))) (do (close (Z.of_nat (length A + S (length B)))) k)))
    [] (Task w (S (S n)) (A ++ None :: B ++ None :: C) ks k).
Proof.
  eapply goes_do; [apply close_app|]. eapply goes_do; [|apply goes_refl].
  replace (length A + S (length B))%nat with (length (A ++ None :: B)) by (rewrite length_app; cbn; lia).
  change (A ++ None :: B ++ Some w' :: C) with (A ++ (None :: B) ++ Some w' :: C).
  rewrite (assoc_L (++)), close_app, <- (assoc_L (++)). done.
Qed.

Lemma replumb A B C r w' fd o i k w n ks :
  let T := A ++ Some r :: B ++ Some w' :: C in
  full A -> (i < length A)%nat -> fd <> Z.of_nat i -> slot T fd = Some o ->
  goes e (Task w n T ks (do (close (Z.of_nat i)) (do (dup fd)
            (do (close (Z.of_nat (length A))) (do (close (Z.of_nat (length A + S (length B)))) k)))))
    [] (Task w (4 + n) (<[i := Some o]> A ++ None :: B ++ None :: C) ks k).
Proof.
  intros T HA Hi Hne Hs. subst T. destruct (replace_low A (Some r :: B ++ Some w' :: C) i HA Hi) as (F1 & Hc & Hp & Hs1).
  eapply goes_do; [apply Hc|]. eapply goes_do; [unfold docall; rewrite Hs1 by done; by rewrite Hs, Hp|].
  rewrite <- (length_insert A i (Some o)). apply close_ends.
Qed.

(** A text on descriptor 2, and a message there. *)
Definition tell (F : fdtable) (s : list Z) : list event :=
  match slot F 2 with Some o => [Wrote o s] | None => [] end.
Definition say (F : fdtable) (s : list Z) : list event := tell F (s ++ [NL]).

(** What the shell promises of a command that process [w] runs at its call
    number [n] with the descriptors [F]: the programs that are started, and the
    messages about the calls that failed. *)
Fixpoint wired (c : scmd) (w : list nat) (n : nat) (F : fdtable) : list event :=
  match c with
  | SExec [] => []
  | SExec (a :: args) =>
      if grants e (w, n) then [Ran a (a :: args) F] else say F (chars "exec " ++ a ++ chars " failed")
  | SRedir c file mode fd =>
      if grants e (w, S n) then wired c w (2 + n) (<[Z.to_nat fd := Some (Opened file mode)]> F)
      else say F (chars "open " ++ file ++ chars " failed")
  | SList l r =>
      if grants e (w, n) then wired l (w ++ [n]) 0 F ++ wired r w (2 + n) F else say F (chars "fork")
  | SPipe l r =>
      if grants e (w, n) then
        if grants e (w, S n) then
          wired l (w ++ [S n]) 4 (<[1%nat := Some (PipeWrite (w, n))]> F)
          ++ (if grants e (w, S (S n)) then wired r (w ++ [S (S n)]) 4 (<[0%nat := Some (PipeRead (w, n))]> F)
              else say F (chars "fork"))
        else say F (chars "fork")
      else say F (chars "pipe")
  | SBack c => if grants e (w, n) then wired c (w ++ [n]) 0 F else say F (chars "fork")
  end.

(** The processes nobody waits for: the commands in front of [&], and the left
    side of a pipe if the right side could not be forked. *)
Fixpoint detached (c : scmd) (w : list nat) (n : nat) : list (list nat) :=
  match c with
  | SExec _ => []
  | SRedir c _ _ _ => if grants e (w, S n) then detached c w (2 + n) else []
  | SList l r => if grants e (w, n) then detached l (w ++ [n]) 0 ++ detached r w (2 + n) else []
  | SPipe l r =>
      if grants e (w, n) then
        if grants e (w, S n) then
          detached l (w ++ [S n]) 4
          ++ (if grants e (w, S (S n)) then detached r (w ++ [S (S n)]) 4 else [w ++ [S n]])
        else []
      else []
  | SBack c => if grants e (w, n) then detached c (w ++ [n]) 0 ++ [w ++ [n]] else []
  end.

Lemma ready_insert F i o : ready F -> (i < 3)%nat -> ready (<[i := Some o]> F).
Proof.
  intros [A B C HA HB Hl] Hi. rewrite insert_app_l by lia. split; [by apply insert_full|done|by rewrite length_insert].
Qed.

(** What a process shows, and whom it leaves behind. *)
Definition outcome (t : task) : list event * list (list nat) := (task_meaning e t, task_abandons e t []).

Lemma outcome_goes t ev t' r :
  goes e t ev t' -> outcome t' = r -> outcome t = (ev ++ r.1, r.2).
Proof. intros (E1 & E2 & _)%goes_ok <-. unfold outcome. by rewrite E1, E2. Qed.

Lemma goes_print s k w n F ks : goes e (Task w n F ks (print 2 s k)) (tell F s) (Task w (S n) F ks k).
Proof.
  unfold print, tell. destruct (slot F 2) as [o|] eqn:E; eapply (goes_sys (write 2 s) (fun _ => k)); unfold docall; by rewrite E.
Qed.

Lemma goes_message a b c k w n F ks :
  goes e (Task w n F ks (print 2 (a ++ b ++ c ++ [NL]) k)) (say F (a ++ b ++ c)) (Task w (S n) F ks k).
Proof. unfold say. rewrite <- !(assoc_L (++)). apply goes_print. Qed.

(** A call that fails, and the message about it. *)
Lemma exec_fails path argv a b c w n F :
  grants e (w, n) = false ->
  outcome (Task w n F 0 (Exec path argv (print 2 (a ++ b ++ c ++ [NL]) Exit))) = (say F (a ++ b ++ c), []).
Proof.
  intros G. rewrite (outcome_goes _ (say F (a ++ b ++ c)) (Task w (2 + n) F 0 Exit) ([], [])); [by rewrite app_nil_r| |done].
  eapply (goes_trans e _ []); [|apply goes_message]. change (@nil event) with (@nil event ++ []).
  eapply goes_call; [done| |apply goes_refl]. unfold advance. cbn [code who calls fds kids]. by rewrite G.
Qed.

Lemma goes_panic msg w n F ks : goes e (Task w n F ks (sh_panic msg)) (say F (chars msg)) (Task w (S n) F ks Exit).
Proof. apply goes_print. Qed.

Lemma goes_fork1_fails k w n F ks :
  grants e (w, n) = false -> goes e (Task w n F ks (fork1 k)) (say F (chars "fork")) (Task w (2 + n) F ks Exit).
Proof.
  intros E. change (say F (chars "fork")) with ([] ++ say F (chars "fork")). eapply goes_call; [done| |apply goes_panic].
  unfold advance, fork1. cbn. by rewrite E.
Qed.

Lemma outcome_exit w n F : outcome (Task w n F 0 Exit) = ([], []).
Proof. done. Qed.

Lemma fork1_fails k w n F :
  grants e (w, n) = false -> outcome (Task w n F 0 (fork1 k)) = (say F (chars "fork"), []).
Proof. intros E. erewrite (outcome_goes _ _ _ _ (goes_fork1_fails k w n F 0 E)) by apply outcome_exit. cbn. by rewrite app_nil_r. Qed.

Context (pids : forall n, 0 < newpid e n).

(** A child, and what its parent does. *)
Lemma fork1_ok k w n F r :
  grants e (w, n) = true -> outcome (Task (w ++ [n]) 0 F 0 (k 0)) = r ->
  outcome (Task w n F 0 (fork1 k))
  = (r.1 ++ meaning e (k (newpid e (w, n))) w (S n) F 1, r.2 ++ abandons e (k (newpid e (w, n))) w (S n) F 1 [w ++ [n]]).
Proof.
  intros E <-. unfold outcome, task_meaning, task_abandons, fork1. cbn [code who calls fds kids meaning abandons].
  rewrite E, (proj2 (Z.eqb_neq (newpid e (w, n)) (-1))) by (pose proof (pids (w, n)); lia). done.
Qed.

Lemma pid_nonzero w n : (newpid e (w, n) =? 0) = false.
Proof. apply Z.eqb_neq. pose proof (pids (w, n)). lia. Qed.

(** A child its parent waits for before it goes on with [q]. *)
Lemma fork1_wait p q w n F r r' :
  grants e (w, n) = true ->
  outcome (Task (w ++ [n]) 0 F 0 p) = r -> outcome (Task w (2 + n) F 0 q) = r' ->
  outcome (Task w n F 0 (fork1 (fun pid => if pid =? 0 then p else Wait (fun _ => q)))) = (r.1 ++ r'.1, r.2 ++ r'.2).
Proof. intros E Hr <-. rewrite (fork1_ok _ w n F r) by done. rewrite pid_nonzero. done. Qed.

Lemma dopipe_ready A B C n :
  full A -> full B -> grants e n = true ->
  dopipe e n (A ++ None :: B ++ None :: C)
  = Some (Z.of_nat (length A), Z.of_nat (length A + S (length B)), A ++ Some (PipeRead n) :: B ++ Some (PipeWrite n) :: C).
Proof.
  intros HA HB Hg. unfold dopipe. rewrite Hg, install_app by done.
  change (A ++ Some (PipeRead n) :: B ++ None :: C) with (A ++ (Some (PipeRead n) :: B) ++ None :: C).
  rewrite (assoc_L (++)), install_app. 2:{ apply list.Forall_app; split; [done|]. constructor; [by eexists|done]. }
  rewrite length_app, <- (assoc_L (++)). cbn [length]. rewrite !(proj2 (Z.ltb_ge _ _)) by lia. done.
Qed.

Lemma say_app A B C s : (3 <= length A)%nat -> say (A ++ B) s = say (A ++ C) s.
Proof. intros Hl. unfold say, tell, slot. cbn. by rewrite !lookup_app_l by lia. Qed.

(** The parent of a pipeline, once its first child runs. *)
Lemma second_child A B C r w n l p w0 n0 :
  full A -> full B -> (3 <= length A)%nat -> grants e (w, n) = true ->
  let F := A ++ None :: B ++ None :: C in
  let T := A ++ Some (PipeRead (w0, n0)) :: B ++ Some (PipeWrite (w0, n0)) :: C in
  let q := fork1 (fun pid => if pid =? 0 then
             do (close 0) (do (dup (Z.of_nat (length A))) (do (close (Z.of_nat (length A))) (do (close (Z.of_nat (length A + S (length B)))) p)))
           else do (close (Z.of_nat (length A))) (do (close (Z.of_nat (length A + S (length B)))) (Wait (fun _ => Wait (fun _ => Exit))))) in
  outcome (Task (w ++ [n]) 4 (<[0%nat := Some (PipeRead (w0, n0))]> F) 0 p) = r ->
  meaning e q w n T 1 = r.1 /\ abandons e q w n T 1 [l] = r.2.
Proof.
  intros HA HB Hl Hg F T q Hr. unfold q, fork1. cbn [meaning abandons]. rewrite Hg.
  rewrite (proj2 (Z.eqb_neq (newpid e (w, n)) (-1))) by (pose proof (pids (w, n)); lia). rewrite pid_nonzero. cbn [Z.eqb].
  destruct (goes_ok _ _ _ _ (close_ends A B C (PipeRead (w0, n0)) (PipeWrite (w0, n0)) (Wait (fun _ => Wait (fun _ => Exit))) w (S n) 2)) as (M1 & N1 & _).
  unfold task_meaning, task_abandons in M1, N1. cbn [code who calls fds kids app] in M1, N1. fold T in M1, N1. rewrite M1, N1.
  assert (goes e (Task (w ++ [n]) 0 T 0 (do (close 0) (do (dup (Z.of_nat (length A)))
      (do (close (Z.of_nat (length A))) (do (close (Z.of_nat (length A + S (length B)))) p)))))
    [] (Task (w ++ [n]) 4 (<[0%nat := Some (PipeRead (w0, n0))]> F) 0 p)) as G.
  { unfold F. rewrite insert_app_l by lia. apply (replumb A B C _ _ _ (PipeRead (w0, n0)) 0); [done|lia|lia|apply slot_app]. }
  pose proof (outcome_goes _ _ _ _ G Hr) as E. unfold outcome, task_meaning, task_abandons in E.
  cbn [code who calls fds kids] in E. pose proof (f_equal fst E) as E1. pose proof (f_equal snd E) as E2.
  cbn [fst snd app] in E1, E2. rewrite E1, E2. cbn. by rewrite !app_nil_r.
Qed.

Lemma runcmd_pipe l r w n F :
  ready F ->
  (forall w n F, ready F -> outcome (Task w n F 0 (runcmd l)) = (wired (view l) w n F, detached (view l) w n)) ->
  (forall w n F, ready F -> outcome (Task w n F 0 (runcmd r)) = (wired (view r) w n F, detached (view r) w n)) ->
  outcome (Task w n F 0 (runcmd (PIPE l r))) = (wired (view (PIPE l r)) w n F, detached (view (PIPE l r)) w n).
Proof.
  intros HF Hleft Hright. pose proof (fun i o => ready_insert F i o HF) as HI. destruct HF as [A B C HA HB Hl].
  set (F := A ++ None :: B ++ None :: C) in *. set (T := A ++ Some (PipeRead (w, n)) :: B ++ Some (PipeWrite (w, n)) :: C).
  cbn [runcmd view wired detached]. set (g := fun st p0 p1 => if st <? 0 then _ else _).
  destruct (grants e (w, n)) eqn:G0.
  2:{ assert (goes e (Task w n F 0 (Pipe g)) (say F (chars "pipe")) (Task w (2 + n) F 0 Exit)) as Hg.
      { change (say F (chars "pipe")) with ([] ++ say F (chars "pipe")). eapply goes_call; [done| |apply goes_panic].
        unfold advance, dopipe. cbn. by rewrite G0. }
      rewrite (outcome_goes _ _ _ _ Hg (outcome_exit _ _ _)). cbn [fst snd]. by rewrite app_nil_r. }
  assert (goes e (Task w n F 0 (Pipe g)) [] (Task w (S n) T 0 (g 0 (Z.of_nat (length A)) (Z.of_nat (length A + S (length B)))))) as Hg.
  { change (@nil event) with (@nil event ++ []). eapply goes_call; [done| |apply goes_refl].
    unfold advance. cbn. by rewrite (dopipe_ready A B C) by done. }
  rewrite (outcome_goes _ _ _ _ Hg eq_refl). unfold g. clear Hg g. cbn [Z.ltb Z.compare app].
  assert (say T (chars "fork") = say F (chars "fork")) as Es by (by apply say_app).
  destruct (grants e (w, S n)) eqn:G1; [|rewrite fork1_fails by done; cbn [fst snd]; by rewrite Es].
  assert (goes e (Task (w ++ [S n]) 0 T 0 (do (close 1) (do (dup (Z.of_nat (length A + S (length B))))
      (do (close (Z.of_nat (length A))) (do (close (Z.of_nat (length A + S (length B)))) (runcmd l))))))
    [] (Task (w ++ [S n]) 4 (<[1%nat := Some (PipeWrite (w, n))]> F) 0 (runcmd l))) as Gl.
  { unfold F. rewrite insert_app_l by lia. apply (replumb A B C _ _ _ (PipeWrite (w, n)) 1); [done|lia|lia|apply slot_app2]. }
  rewrite (fork1_ok _ w (S n) T _ G1 (outcome_goes _ _ _ _ Gl (Hleft _ _ _ (HI 1%nat _ ltac:(lia))))). rewrite pid_nonzero. cbn [fst snd app].
  destruct (grants e (w, S (S n))) eqn:G2.
  - destruct (second_child A B C _ w (S (S n)) (w ++ [S n]) (runcmd r) w n HA HB Hl G2 (Hright _ _ _ (HI 0%nat _ ltac:(lia)))) as [M N].
    fold T in M, N. rewrite M, N. done.
  - destruct (goes_ok _ _ _ _ (goes_fork1_fails (fun pid => if pid =? 0 then
        do (close 0) (do (dup (Z.of_nat (length A))) (do (close (Z.of_nat (length A)))
          (do (close (Z.of_nat (length A + S (length B)))) (runcmd r))))
      else do (close (Z.of_nat (length A))) (do (close (Z.of_nat (length A + S (length B)))) (Wait (fun _ => Wait (fun _ => Exit)))))
      w (S (S n)) T 1 G2)) as (M & N & _). unfold task_meaning, task_abandons in M, N. cbn [code who calls fds kids] in M, N.
    rewrite M, N. cbn [meaning abandons]. by rewrite Es, app_nil_r.
Qed.

Lemma runcmd_ok c w n F :
  standard c -> ready F -> outcome (Task w n F 0 (runcmd c)) = (wired (view c) w n F, detached (view c) w n).
Proof.
  revert w n F. induction c as [argv|c IH file mode fd|l IHl r IHr|l IHl r IHr|c IH]; intros w n F Hst HF.
  - destruct argv as [|a argv]; [done|]. cbn [runcmd view wired detached fmap list_fmap]. destruct (grants e (w, n)) eqn:G.
    + unfold outcome, task_meaning, task_abandons. cbn. by rewrite G.
    + by apply exec_fails.
  - destruct Hst as [Hfd Hst]. cbn [runcmd view wired detached]. pose proof (ready_insert F (Z.to_nat fd) (Opened (word_text file) mode) HF ltac:(lia)) as HI.
    destruct HF as [A B C HA HB Hl]. set (F := A ++ None :: B ++ None :: C) in *.
    destruct (replace_low A (None :: B ++ None :: C) (Z.to_nat fd)) as (F1 & Hc & Hp & Hs); [done|lia|]. rewrite Z2Nat.id in Hc, Hp, Hs by lia.
    destruct (grants e (w, S n)) eqn:G.
    + rewrite (outcome_goes _ [] (Task w (2 + n) (<[Z.to_nat fd := Some (Opened (word_text file) mode)]> F) 0 (runcmd c))
        (wired (view c) w (2 + n) (<[Z.to_nat fd := Some (Opened (word_text file) mode)]> F), detached (view c) w (2 + n)));
        [done| |by apply IH].
      eapply goes_do; [apply Hc|]. unfold F. rewrite insert_app_l by lia.
      set (k := fun r => if r <? 0 then _ else _). assert (runcmd c = k fd) as -> by (unfold k; by rewrite (proj2 (Z.ltb_ge _ _)) by lia).
      apply goes_sys. unfold docall. by rewrite G, Hp.
    + rewrite (outcome_goes _ (say F (chars "open " ++ word_text file ++ chars " failed")) (Task w (3 + n) F1 0 Exit) ([], [])); [by rewrite app_nil_r| |done].
      eapply goes_do; [apply Hc|]. replace (say F _) with (say F1 (chars "open " ++ word_text file ++ chars " failed"))
        by (unfold say, tell; by rewrite Hs by lia).
      eapply (goes_trans e _ []); [apply goes_sys with (r := -1) (F' := F1); unfold docall; by rewrite G|]. apply goes_message.
  - destruct Hst. apply runcmd_pipe; auto.
  - destruct Hst. cbn [runcmd view wired detached]. destruct (grants e (w, n)) eqn:G; [|by apply fork1_fails].
    by rewrite (fork1_wait _ _ w n F _ _ G (IHl _ _ _ ltac:(done) HF) (IHr _ _ _ ltac:(done) HF)).
  - cbn [runcmd view wired detached]. destruct (grants e (w, n)) eqn:G; [|by apply fork1_fails].
    rewrite (fork1_ok _ w n F _ G (IH _ _ _ Hst HF)), pid_nonzero. cbn. by rewrite app_nil_r.
Qed.

(** Whoever is left behind was forked at call [n] or later. *)
Lemma detached_later c w n a : a ∈ detached c w n -> exists i r, a = w ++ i :: r /\ (n <= i)%nat.
Proof.
  assert (forall d w n j m, (forall w n, a ∈ detached d w n -> exists i r, a = w ++ i :: r /\ (n <= i)%nat) ->
    a ∈ detached d (w ++ [j]) m -> (n <= j)%nat -> exists i r, a = w ++ i :: r /\ (n <= i)%nat) as Hsub.
  { intros d w' n' j m IH (i & r & -> & _)%IH Hj. exists j, (i :: r). by rewrite <- (assoc_L (++)). }
  assert (forall d w n m, (forall w n, a ∈ detached d w n -> exists i r, a = w ++ i :: r /\ (n <= i)%nat) ->
    a ∈ detached d w m -> (n <= m)%nat -> exists i r, a = w ++ i :: r /\ (n <= i)%nat) as Hown.
  { intros d w' n' m IH (i & r & -> & ?)%IH Hj. exists i, r. split; [done|lia]. }
  revert w n. induction c as [argv|c IH file mode fd|l IHl r IHr|l IHl r IHr|c IH]; intros w n Ha; cbn [detached] in Ha.
  all: repeat match type of Ha with context [grants e ?x] => destruct (grants e x) end.
  all: rewrite ?elem_of_app, ?list_elem_of_singleton in Ha; destruct_or?; try by apply not_elem_of_nil in Ha.
  all: try (by eapply Hsub; [..|exact Ha|lia]); try (by eapply Hown; [..|exact Ha|lia]).
  all: subst a; eexists _, []; split; [done|lia].
Qed.

(** ** A session *)

Definition is_cd (s : list Z) : bool := (hd 0 s =? 99) && (nth 1 s 0 =? 100) && (nth 2 s 0 =? 32).

(** A line that fits into the buffer, with its newline. *)
Definition input_line (s : list Z) : Prop :=
  exists body, s = body ++ [NL] /\ Forall (fun c => c <> 0 /\ c <> NL /\ c <> CR) body /\ (length s <= 99)%nat.

(** The reads of process [w] from its call number [n] on give the characters of [s]. *)
Definition typed (w : list nat) (n : nat) (s : list Z) : Prop :=
  forall i c, s !! i = Some c -> input e (w, n + i)%nat = [c].

(** The call number of the shell after it has run the line [s] at call [n];
    [cd] takes a second call if it fails.  The shell exits if it cannot fork. *)
Definition next_prompt (s : list Z) (w : list nat) (n : nat) : nat :=
  (if is_cd s && grants e (w, n) then 1 else 2) + n.
Definition stays (s : list Z) (w : list nat) (n : nat) : bool := is_cd s || grants e (w, n).

(** The lines are typed one after the other, then the end of the input. *)
Fixpoint typed_lines (ls : list (list Z)) (w : list nat) (n : nat) : Prop :=
  match ls with
  | [] => input e (w, S n) = []
  | s :: ls => input_line s /\ typed w (S n) s /\ typed_lines ls w (next_prompt s w (S n + length s))
  end.

(** What a line makes the shell and its children do, and whom it leaves behind. *)
Definition line_events (s : list Z) (w : list nat) (n : nat) (F : fdtable) : list event :=
  if is_cd s then
    if grants e (w, n) then [Moved (drop 3 (removelast s))] else say F (chars "cannot cd " ++ drop 3 (removelast s))
  else if grants e (w, n) then
    match parsecmd s with
    | Ok (c, _) _ => wired (view c) (w ++ [n]) 0 F
    | Panic msg => say F (chars msg)
    | _ => []
    end
  else say F (chars "fork").
Definition line_detached (s : list Z) (w : list nat) (n : nat) : list (list nat) :=
  if is_cd s then []
  else if grants e (w, n) then
    match parsecmd s with
    | Ok (c, _) _ => detached (view c) (w ++ [n]) 0
    | _ => []
    end
  else [].

(** The whole session, with a prompt for each line. *)
Fixpoint session (ls : list (list Z)) (w : list nat) (n : nat) (F : fdtable) : list event :=
  tell F (chars "$ ") ++
  match ls with
  | [] => []
  | s :: ls =>
      let m := (S n + length s)%nat in
      line_events s w m F ++ if stays s w m then session ls w (next_prompt s w m) F else []
  end.

(** The part of the session that the lines [ls] make up, if the shell gets
    through them: the number of the call that prints the next prompt, the
    events, and the processes left behind. *)
Fixpoint handled (ls : list (list Z)) (w : list nat) (n : nat) : option nat :=
  match ls with
  | [] => Some n
  | s :: ls =>
      let m := (S n + length s)%nat in
      if stays s w m then handled ls w (next_prompt s w m) else None
  end.
Fixpoint transcript (ls : list (list Z)) (w : list nat) (n : nat) (F : fdtable) : list event :=
  match ls with
  | [] => []
  | s :: ls =>
      let m := (S n + length s)%nat in
      tell F (chars "$ ") ++ line_events s w m F ++ transcript ls w (next_prompt s w m) F
  end.
Fixpoint background (ls : list (list Z)) (w : list nat) (n : nat) : list (list nat) :=
  match ls with
  | [] => []
  | s :: ls =>
      let m := (S n + length s)%nat in
      line_detached s w m ++ if stays s w m then background ls w (next_prompt s w m) else []
  end.

Lemma session_app l1 l2 w n m F :
  handled l1 w n = Some m -> session (l1 ++ l2) w n F = transcript l1 w n F ++ session l2 w m F.
Proof.
  revert n. induction l1 as [|s l1 IH]; intros n H; cbn [handled] in H; [by injection H as ->|].
  destruct (stays s w (S n + length s)) eqn:E; [|done]. cbn [app session transcript]. rewrite E, IH by done.
  by rewrite <- !(assoc_L (++)).
Qed.

Lemma background_app l1 l2 w n m :
  handled l1 w n = Some m -> background (l1 ++ l2) w n = background l1 w n ++ background l2 w m.
Proof.
  revert n. induction l1 as [|s l1 IH]; intros n H; cbn [handled] in H; [by injection H as ->|].
  destruct (stays s w (S n + length s)) eqn:E; [|done]. cbn [app background]. rewrite E, IH by done.
  by rewrite <- !(assoc_L (++)).
Qed.

Lemma line_detached_later s w n a : a ∈ line_detached s w n -> exists r, a = w ++ n :: r.
Proof.
  unfold line_detached. intros Ha. destruct (is_cd s); [by apply not_elem_of_nil in Ha|].
  destruct (grants e (w, n)); [|by apply not_elem_of_nil in Ha].
  destruct (parsecmd s) as [[c buf] s'| | | | |]; try by apply not_elem_of_nil in Ha.
  apply detached_later in Ha as (i & r & -> & _). exists (i :: r). by rewrite <- (assoc_L (++)).
Qed.

Lemma background_later ls w n a : a ∈ background ls w n -> exists i r, a = w ++ i :: r /\ (n < i)%nat.
Proof.
  revert n. induction ls as [|s ls IH]; intros n Ha; cbn [background] in Ha; [by apply not_elem_of_nil in Ha|].
  apply elem_of_app in Ha as [(r & ->)%line_detached_later|Ha].
  - exists (S n + length s)%nat, r. split; [done|lia].
  - destruct (stays s w _); [|by apply not_elem_of_nil in Ha]. apply IH in Ha as (i & r & -> & Hi).
    exists i, r. split; [done|]. unfold next_prompt in Hi. lia.
Qed.

Lemma cstr_ok s : Forall (fun c => c <> 0) s -> cstr s = s.
Proof. induction 1 as [|c s Hc _ IH]; [done|]. cbn. rewrite (proj2 (Z.eqb_neq c 0)) by done. by rewrite IH. Qed.

Lemma input_line_cstr s : input_line s -> Forall (fun c => c <> 0) s.
Proof.
  intros (body & -> & Hb & _). apply list.Forall_app. split; [|by repeat constructor].
  eapply list.Forall_impl; [exact Hb|]. cbn. naive_solver.
Qed.

Lemma goes_read k w n F ks ev t :
  goes e (Task w (S n) F ks (k (input e (w, n)))) ev t -> goes e (Task w n F ks (Read k)) ev t.
Proof. intros H. change ev with ([] ++ ev). by eapply goes_call. Qed.

Lemma goes_gets m buf body k w n F ks :
  Forall (fun c => c <> 0 /\ c <> NL /\ c <> CR) body -> (length body < m)%nat -> typed w n (body ++ [NL]) ->
  goes e (Task w n F ks (gets_loop m buf k)) [] (Task w (n + length (body ++ [NL])) F ks (k (buf ++ body ++ [NL]))).
Proof.
  intros Hb. revert m buf n. induction Hb as [|c body (_ & H1 & H2) _ IH]; intros m buf n Hm Ht; (destruct m as [|m]; [cbn in Hm; lia|]).
  - pose proof (Ht 0%nat NL eq_refl) as E. rewrite Nat.add_0_r in E. apply goes_read. rewrite E. cbn. rewrite Nat.add_1_r. apply goes_refl.
  - pose proof (Ht 0%nat c eq_refl) as E. rewrite Nat.add_0_r in E. apply goes_read. rewrite E.
    rewrite (proj2 (Z.eqb_neq c NL)), (proj2 (Z.eqb_neq c CR)) by done. cbn [orb app length]. rewrite <- plus_n_Sm.
    change (buf ++ c :: body ++ [NL]) with (buf ++ [c] ++ body ++ [NL]). rewrite (assoc_L (++) buf). apply IH.
    + cbn in Hm. lia.
    + intros i d Hi. rewrite <- (Ht (S i) d Hi). f_equal. f_equal. lia.
Qed.

(** The prompt and a line, and the prompt and the end of the input. *)
Lemma goes_getcmd s k w n F ks :
  input_line s -> typed w (S n) s ->
  goes e (Task w n F ks (getcmd 100 k)) (tell F (chars "$ ")) (Task w (S n + length s) F ks (k 0 s)).
Proof.
  intros Hl Ht. pose proof (input_line_cstr s Hl) as H0. destruct Hl as (body & -> & Hb & Hlen).
  rewrite <- (app_nil_r (tell F _)). eapply goes_trans; [apply goes_print|].
  set (q := fun buf => if hd 0 buf =? 0 then k (-1) buf else k 0 buf).
  assert (k 0 (body ++ [NL]) = q ([] ++ body ++ [NL])) as ->.
  { unfold q. destruct body as [|c body]; [done|]. cbn [app hd] in *. inversion_clear H0. by rewrite (proj2 (Z.eqb_neq c 0)). }
  apply goes_gets; [done|rewrite length_app in Hlen; cbn in *; lia|done].
Qed.

Lemma goes_eof k w n F ks :
  input e (w, S n) = [] ->
  goes e (Task w n F ks (getcmd 100 k)) (tell F (chars "$ ")) (Task w (2 + n) F ks (k (-1) [])).
Proof.
  intros E. rewrite <- (app_nil_r (tell F _)). eapply goes_trans; [apply goes_print|].
  apply goes_read. rewrite E. apply goes_refl.
Qed.

Lemma run_line_ok s w n F :
  ready F -> is_cd s = false -> grants e (w, n) = true ->
  outcome (Task (w ++ [n]) 0 F 0 (run_line s)) = (line_events s w n F, line_detached s w n).
Proof.
  intros HF Hcd Hg. unfold run_line, line_events, line_detached. rewrite Hcd, Hg.
  destruct (parsecmd s) as [[c buf] s'|msg| | | |] eqn:E; try done.
  - apply runcmd_ok; [by eapply parsecmd_standard|done].
  - rewrite (outcome_goes _ _ _ _ (goes_panic msg _ _ _ _) (outcome_exit _ _ _)). cbn [fst snd]. by rewrite app_nil_r.
Qed.

Lemma cd_dir body :
  Forall (fun c => c <> 0 /\ c <> NL /\ c <> CR) body ->
  cstr (drop 3 (take (length (cstr (body ++ [NL])) - 1) (body ++ [NL]))) = drop 3 body.
Proof.
  intros Hb. assert (Forall (fun c => c <> 0) body) as H0 by (eapply list.Forall_impl; [exact Hb|]; cbn; naive_solver).
  rewrite (cstr_ok (body ++ [NL])) by (apply list.Forall_app; split; [done|by repeat constructor]).
  rewrite length_app. cbn [length]. rewrite Nat.add_sub, take_app_length. apply cstr_ok. by apply Forall_drop.
Qed.

(** [cd] *)
Lemma goes_cd fuel s w n F ks :
  input_line s -> is_cd s = true ->
  goes e (Task w n F ks (Sys (chdir (cstr (drop 3 (take (length (cstr s) - 1) s)))) (fun r =>
            if r <? 0 then print 2 (chars "cannot cd " ++ cstr (drop 3 (take (length (cstr s) - 1) s)) ++ [NL]) (command_loop fuel)
            else command_loop fuel)))
    (line_events s w n F) (Task w (next_prompt s w n) F ks (command_loop fuel)).
Proof.
  intros (body & -> & Hb & _) Hcd. unfold line_events, next_prompt. rewrite Hcd, cd_dir, removelast_last by done.
  destruct (grants e (w, n)) eqn:G; cbn [andb].
  - set (k := fun r => if r <? 0 then _ else _). change (command_loop fuel) with (k 0). apply goes_sys. unfold docall. by rewrite G.
  - eapply (goes_trans e _ []); [apply goes_sys with (r := -1) (F' := F); unfold docall; by rewrite G|].
    change (if -1 <? 0 then ?a else _) with a. unfold say. rewrite (assoc_L (++)). apply goes_print.
Qed.

(** One round of the loop. *)
Lemma command_loop_line fuel s w n F :
  let m := (S n + length s)%nat in let t := Task w (next_prompt s w m) F 0 (command_loop fuel) in
  ready F -> input_line s -> typed w (S n) s ->
  outcome (Task w n F 0 (command_loop (S fuel)))
    = (tell F (chars "$ ") ++ line_events s w m F ++ (if stays s w m then (outcome t).1 else []),
       line_detached s w m ++ (if stays s w m then (outcome t).2 else []))
  /\ (stays s w m = true -> rtc (proceeds e) (Task w n F 0 (command_loop (S fuel))) t).
Proof.
  intros m t HF Hl Ht. cbn [command_loop]. set (k := fun r buf => if r <? 0 then Exit else _).
  pose proof (goes_getcmd s k w n F 0 Hl Ht) as G. fold m in G.
  destruct (is_cd s) eqn:Ecd.
  - pose proof (goes_trans e _ _ _ _ _ G (eq_rect_r (fun p => goes e (Task w m F 0 p) _ _) (goes_cd fuel s w m F 0 Hl Ecd)
      (ltac:(unfold k; fold (is_cd s); by rewrite Ecd) : k 0 s = _))) as G2. fold t in G2. unfold stays. rewrite Ecd. cbn [orb]. split.
    + rewrite (outcome_goes _ _ _ _ G2 eq_refl). unfold line_detached. rewrite Ecd. by rewrite <- (assoc_L (++)).
    + intros _. by apply goes_ok in G2 as (_ & _ & ?).
  - assert (k 0 s = fork1 (fun pid => if pid =? 0 then run_line s else Wait (fun _ => command_loop fuel))) as Ek.
    { unfold k. fold (is_cd s). rewrite Ecd. by rewrite cstr_ok by (by apply input_line_cstr). }
    rewrite Ek in G. unfold t, next_prompt, stays. rewrite Ecd. cbn [orb andb]. destruct (grants e (w, m)) eqn:Eg.
    + split.
      * rewrite (outcome_goes _ _ _ _ G (fork1_wait _ _ w m F _ _ Eg (run_line_ok s w m F HF Ecd Eg) eq_refl)). done.
      * intros _. apply goes_ok in G as (_ & _ & G). etrans; [exact G|].
        eapply rtc_l; [left; unfold advance, fork1; cbn [code who calls fds kids]; rewrite Eg; by eexists _, _|].
        rewrite (proj2 (Z.eqb_neq (newpid e (w, m)) (-1))) by (pose proof (pids (w, m)); lia). rewrite pid_nonzero.
        eapply rtc_l; [right; by eexists _, _|]. done.
    + split; [|done]. rewrite (outcome_goes _ _ _ _ G (fork1_fails _ w m F Eg)). unfold line_events, line_detached.
      rewrite Ecd, Eg. cbn [fst snd]. by rewrite app_nil_r.
Qed.

Lemma command_loop_ok ls w n F :
  ready F -> typed_lines ls w n ->
  outcome (Task w n F 0 (command_loop (S (length ls)))) = (session ls w n F, background ls w n).
Proof.
  intros HF. revert n. induction ls as [|s ls IH]; intros n Ht.
  - cbn in Ht. cbn [length command_loop]. rewrite (outcome_goes _ _ _ _ (goes_eof _ w n F 0 Ht) eq_refl). done.
  - destruct Ht as (Hl & Ht & Hrest). destruct (command_loop_line (S (length ls)) s w n F HF Hl Ht) as [E _].
    cbn [length]. rewrite E, IH by done. cbn [session background fst snd]. done.
Qed.

(** The shell comes to the prompt behind the lines it gets through. *)
Lemma command_loop_visits l1 l2 w n m F :
  ready F -> typed_lines (l1 ++ l2) w n -> handled l1 w n = Some m ->
  typed_lines l2 w m
  /\ rtc (proceeds e) (Task w n F 0 (command_loop (S (length (l1 ++ l2))))) (Task w m F 0 (command_loop (S (length l2)))).
Proof.
  intros HF. revert n. induction l1 as [|s l1 IH]; intros n Ht Hh; cbn [handled] in Hh; [by injection Hh as <-|].
  destruct Ht as (Hl & Ht & Hrest). destruct (command_loop_line (S (length (l1 ++ l2))) s w n F HF Hl Ht) as [_ R].
  destruct (stays s w (S n + length s)); [|done]. destruct (IH _ Hrest Hh) as [H1 H2].
  split; [done|]. etrans; [by apply R|exact H2].
Qed.

(** The console is opened once more, and closed again. *)
Definition first_prompt : nat := if grants e ([], 0%nat) then 2 else 1.
Lemma goes_sh_main fuel F :
  ready F -> goes e (Task [] 0 F 0 (sh_main fuel)) [] (Task [] first_prompt F 0 (command_loop fuel)).
Proof.
  intros [A B C HA HB Hl]. unfold sh_main, first_prompt. cbn [console_loop].
  set (k := fun fd => if fd <? 0 then _ else _). destruct (grants e ([], 0%nat)) eqn:G.
  - eapply (goes_trans e _ []); [apply goes_sys with (r := Z.of_nat (length A)); unfold docall; rewrite G, install_app by done; done|].
    unfold k. rewrite (proj2 (Z.ltb_ge _ _)) by lia. rewrite (proj2 (Z.leb_le _ _)) by lia.
    eapply goes_do; [apply close_app|apply goes_refl].
  - change (command_loop fuel) with (k (-1)). apply goes_sys. unfold docall. by rewrite G.
Qed.
End Wiring.

Section Theorems.
Context (e : env).

(** C24: on a line that parses, whatever the order in which the processes run
    and whichever calls of [fork], [pipe], [open] and [exec] fail, all processes
    have exited after a bounded number of steps, and each program of the line that could be started is
    started with exactly the descriptors the line asks for: redirections replace
    descriptor 0 or 1, the two sides of a pipe share one pipe, and no end of a
    pipe is left open in any of them.  A call that fails is reported on
    descriptor 2, and the command it was made for is not run; if only the right
    side of a pipe cannot be forked, the left side still runs.  [fork] is taken to
    return a positive number in the parent; the first three descriptors are open
    to begin with, and two others are free. *)
Theorem shell_wires s c buf s' F :
  parsecmd s = Ok (c, buf) s' -> ready F -> (forall n, 0 < newpid e n) ->
  (forall n x, nsteps (step e) n (start (run_line s) F) x -> (n <= work e (run_line s) [] 0 F 0)%nat)
  /\ forall P L, rtc (step e) (start (run_line s) F) (P, L) -> nf (step e) (P, L) ->
     finished P /\ L ≡ₚ wired e (view c) [] 0 F.
Proof.
  intros E HF Hp. split; [apply run_ok|]. intros P L Hr Hn. destruct (proj2 (run_ok e (run_line s) F) P L Hr Hn) as [Hd HL]. split; [done|]. rewrite HL.
  unfold run_line. rewrite E. assert (meaning e (runcmd c) [] 0 F 0 = wired e (view c) [] 0 F) as Ew
    by exact (f_equal fst (runcmd_ok e Hp c [] 0 F (parsecmd_standard _ _ _ _ E) HF)). by rewrite Ew.
Qed.

End Theorems.
