(* ===== verification/ProjShell.v ===== *)
(** * The shell of the first project

    Models proj_shell/src/shell.c: [GetCommand], the two functions that split a
    line, [ExecuteCommand] and the loop of [main], as programs in the sense of
    Programs.v.  A [Read] is a call of [fgets]: it gives the next line of the
    input with its newline, and nothing at the end of the input.  The text of
    [perror] behind the colon, and what a fresh buffer holds, are parameters. *)

From S2P Require Import Prelude Programs.
Open Scope Z_scope.

Definition NEWLN : Z := 10.
Definition SEMICOLON : Z := 59.
Definition BLANK : Z := 32.

(** [fprintf(stdout, ...)] and [fprintf(stderr, ...)] *)
Definition fprintf (fd : Z) (s : list Z) (k : prog) : prog := Sys (write fd s) (fun _ => k).

(** ** Splitting *)

(** [strtok] with one delimiter: leading delimiters are skipped, the token ends at
    the next one, which is overwritten; the next call goes on behind it. *)
Fixpoint skip_delims (d : Z) (s : list Z) : list Z :=
  match s with
  | c :: s' => if c =? d then skip_delims d s' else s
  | [] => []
  end.
Fixpoint token_at (d : Z) (s : list Z) : list Z * list Z :=
  match s with
  | c :: s' => if c =? d then ([], s') else let '(t, r) := token_at d s' in (c :: t, r)
  | [] => ([], [])
  end.
Definition strtok (d : Z) (s : list Z) : option (list Z * list Z) :=
  match skip_delims d s with
  | [] => None
  | s => Some (token_at d s)
  end.

(** The loop that fills [splits], which has [room] elements; a store behind the
    last one is [None].  The NULL at the end takes one of them. *)
Fixpoint split_loop (d : Z) (room : nat) (s : list Z) : option (list (list Z)) :=
  match room with
  | O => None
  | S room =>
      match strtok d s with
      | None => Some []
      | Some (t, s) => cons t <$> split_loop d room s
      end
  end.
Definition SplitCommandBySemiColon (command : list Z) : option (list (list Z)) := split_loop SEMICOLON 256 command.
Definition SplitCommandBySpace (command : list Z) : option (list (list Z)) := split_loop BLANK 128 command.

Section Shell.
(** What [perror] prints behind the name, and the string a fresh buffer holds. *)
Context (errmsg garbage : list Z).

Definition perror (s : string) (k : prog) : prog := fprintf 2 (chars s ++ errmsg) k.

(** The string [GetCommand] returns if [fgets] stores [line]; at the end of the
    input the buffer is what [malloc] returned.  Without characters in it, the
    NUL is written in front of the buffer. *)
Definition GetCommand (line : list Z) : list Z :=
  let buf := match line with [] => garbage | _ => line end in
  if hd 0 buf =? NEWLN then buf else removelast buf.

(** [while( wait(&status) > 0 );] *)
Fixpoint wait_all (fuel : nat) (k : prog) : prog :=
  match fuel with
  | O => Program
  | S fuel => Wait (fun b => if b then wait_all fuel k else k)
  end.

(** The loop of [ExecuteCommand]; behind it, [rest] is run.  A child whose
    [execvp] fails goes on with the loop. *)
Fixpoint execute_loop (commands : list (list Z)) (rest : prog) : prog :=
  match commands with
  | [] => rest
  | tmp_command :: commands =>
      Fork (fun pid =>
        let go :=
          match SplitCommandBySpace tmp_command with
          | None => Program
          | Some execute_command =>
              if pid =? 0 then
                match execute_command with
                | [] => perror "execvp" (execute_loop commands rest)
                | file :: _ => Exec file execute_command (perror "execvp" (execute_loop commands rest))
                end
              else execute_loop commands rest
          end in
        if pid <? 0 then perror "fork" go else go)
  end.
Definition ExecuteCommand (commands : list (list Z)) (k : prog) : prog :=
  execute_loop commands (wait_all (S (length commands)) k).

(** The loop of [main] for [fuel] lines. *)
Fixpoint main_loop (batch : bool) (fuel : nat) : prog :=
  match fuel with
  | O => Program
  | S fuel =>
      let prompt k := if batch then k else fprintf 1 (chars "prompt> ") k in
      prompt (Read (fun line =>
        let cmd_full_line := GetCommand line in
        let echo k := if batch then fprintf 1 (cmd_full_line ++ [NEWLN]) k else k in
        echo (if hd 0 cmd_full_line =? NEWLN then main_loop batch fuel
              else if hd 0 cmd_full_line =? 0 then Exit
              else if bool_decide (cmd_full_line = chars "quit" \/ cmd_full_line = chars "QUIT") then Exit
              else
                match SplitCommandBySemiColon cmd_full_line with
                | None => Program
                | Some each_cmd_array => ExecuteCommand each_cmd_array (main_loop batch fuel)
                end)))
  end.
End Shell.

(** ** What splitting means *)

(** The pieces of [s] between the delimiters, also the empty ones. *)
Fixpoint pieces (d : Z) (s : list Z) : list (list Z) :=
  match s with
  | [] => [[]]
  | c :: s =>
      if c =? d then [] :: pieces d s
      else match pieces d s with p :: ps => (c :: p) :: ps | [] => [[c]] end
  end.
Definition fields (d : Z) (s : list Z) : list (list Z) := filter (fun p => p <> []) (pieces d s).


Lemma skip_delims_fields d s : fields d (skip_delims d s) = fields d s.
Proof.
  induction s as [|c s IH]; [done|]. unfold fields in *. cbn. destruct (c =? d) eqn:E; cbn; [done|by rewrite E].
Qed.

Lemma token_at_pieces d s t r :
  token_at d s = (t, r) -> exists ps, pieces d s = t :: ps /\ filter (fun p => p <> []) ps = fields d r.
Proof.
  revert t r. induction s as [|c s IH]; intros t r E; cbn in *; [injection E as <- <-; by exists []|].
  destruct (c =? d); [injection E as <- <-; by eexists|].
  destruct (token_at d s) as [t' r'] eqn:Et. injection E as <- <-. destruct (IH t' r' eq_refl) as (ps & -> & Hp). by exists ps.
Qed.

Lemma skip_delims_head d s c s' : skip_delims d s = c :: s' -> c <> d.
Proof. induction s as [|x s IH]; cbn; [done|]. destruct (Z.eqb_spec x d); [done|]. by intros [= <- <-]. Qed.

(** One call of [strtok] takes the first field. *)
Lemma strtok_fields d s :
  fields d s = match strtok d s with None => [] | Some (t, r) => t :: fields d r end.
Proof.
  rewrite <- skip_delims_fields. unfold strtok. destruct (skip_delims d s) as [|c s'] eqn:Es; [done|].
  apply skip_delims_head in Es. destruct (token_at d (c :: s')) as [t r] eqn:Et.
  destruct (token_at_pieces d _ _ _ Et) as (ps & Ep & Hp). unfold fields at 1. rewrite Ep, filter_cons, Hp.
  rewrite decide_True; [done|]. intros ->. cbn in Et. rewrite (proj2 (Z.eqb_neq c d)) in Et by done.
  by destruct (token_at d s').
Qed.

Lemma split_ok d room s :
  split_loop d room s = if decide (length (fields d s) < room)%nat then Some (fields d s) else None.
Proof.
  revert s. induction room as [|room IH]; intros s; cbn [split_loop]; [by rewrite decide_False by lia|].
  rewrite (strtok_fields d s). destruct (strtok d s) as [[t r]|]; [|by rewrite decide_True by (cbn; lia)].
  rewrite IH. cbn [length]. destruct (decide (length (fields d r) < room)%nat).
  - by rewrite decide_True by lia.
  - by rewrite decide_False by lia.
Qed.

(** [SplitCommandBySemiColon] and [SplitCommandBySpace] return the nonempty
    pieces of the line between the delimiters, in order, if there are at most 255
    and 127 of them; otherwise they write behind their arrays. *)
Theorem splits_into_fields s :
  SplitCommandBySemiColon s
    = (if decide (length (fields SEMICOLON s) <= 255)%nat then Some (fields SEMICOLON s) else None)
  /\ SplitCommandBySpace s
    = (if decide (length (fields BLANK s) <= 127)%nat then Some (fields BLANK s) else None).
Proof.
  unfold SplitCommandBySemiColon, SplitCommandBySpace. rewrite !split_ok.
  split; repeat destruct (decide _); done || lia.
Qed.

(** A line that fits into the buffer of [GetCommand] can have more commands. *)
Lemma split_overflows : SplitCommandBySemiColon (concat (replicate 256 [97; SEMICOLON])) = None.
Proof. vm_compute. reflexivity. Qed.

(** ** Running commands *)

Definition runnable (c : list Z) : Prop := (0 < length (fields BLANK c) <= 127)%nat.
Definition started (F : fdtable) (c : list Z) : event := Ran (hd [] (fields BLANK c)) (fields BLANK c) F.

Section Running.
Context (errmsg garbage : list Z) (e : env).
Hypothesis newpid_pos : forall n, 0 < newpid e n.

Lemma wait_all_ok fuel k w n F ks :
  (ks < fuel)%nat -> leads e (Task w n F ks (wait_all fuel k)) [] (Task w (n + S ks) F 0 k).
Proof.
  revert n ks. induction fuel as [|fuel IH]; intros n ks Hf; [lia|]. cbn [wait_all].
  eapply (leads_trans e _ [] _ []); [apply leads_wait|]. destruct ks as [|ks].
  - cbn. rewrite Nat.add_1_r. apply leads_refl.
  - change (bool_decide (S ks <> 0%nat)) with true. cbn [pred]. replace (n + S (S ks))%nat with (S n + S ks)%nat by lia. apply IH. lia.
Qed.

(** One command: the child starts it, or goes on with the others itself. *)
Lemma execute_one c cs rest w n F ks :
  runnable c -> grants e (w, n) = true ->
  meaning e (execute_loop errmsg (c :: cs) rest) w n F ks
  = (if grants e (w ++ [n], 0%nat) then [started F c]
     else meaning e (perror errmsg "execvp" (execute_loop errmsg cs rest)) (w ++ [n]) 1 F 0)
    ++ meaning e (execute_loop errmsg cs rest) w (S n) F (S ks).
Proof.
  intros [H0 H1] Hg. cbn [execute_loop meaning]. rewrite Hg. unfold SplitCommandBySpace. rewrite split_ok.
  rewrite decide_True by lia. pose proof (newpid_pos (w, n)). rewrite (proj2 (Z.ltb_ge (newpid e (w, n)) 0)) by lia.
  rewrite (proj2 (Z.eqb_neq (newpid e (w, n)) 0)) by lia. f_equal. unfold started.
  destruct (fields BLANK c) as [|f fs]; [cbn in H0; lia|]. cbn [Z.ltb Z.compare Z.eqb meaning]. by destruct (grants e _).
Qed.

Lemma execute_loop_ok cs rest w n F ks :
  Forall runnable cs -> (forall m, (n <= m)%nat -> grants e (w, m) = true /\ grants e (w ++ [m], 0%nat) = true) ->
  leads e (Task w n F ks (execute_loop errmsg cs rest)) (started F <$> cs)
    (Task w (n + length cs) F (ks + length cs) rest).
Proof.
  intros Hc. revert n ks. induction Hc as [|c cs [H0 H1] _ IH]; intros n ks Hg.
  { cbn. rewrite !Nat.add_0_r. apply leads_refl. }
  destruct (Hg n (le_n n)) as [Hg1 Hg2]. pose proof (newpid_pos (w, n)) as Hp.
  cbn [length fmap list_fmap]. rewrite <- !plus_n_Sm. change (started F c :: ?l) with ([started F c] ++ l).
  eapply leads_trans; [|apply (IH (S n) (S ks)); intros m Hm; apply Hg; lia].
  cbn [execute_loop]. unfold SplitCommandBySpace. rewrite split_ok, decide_True by lia. set (k := fun pid => if pid <? 0 then _ else _).
  assert (execute_loop errmsg cs rest = k (newpid e (w, n))) as ->.
  { unfold k. by rewrite (proj2 (Z.ltb_ge _ _)), (proj2 (Z.eqb_neq _ _)) by lia. }
  unfold started. destruct (fields BLANK c) as [|f fs] eqn:Ef; [cbn in H0; lia|].
  apply leads_fork; [done|unfold k; cbn; by rewrite Hg2..].
Qed.

(** What they show. *)
Lemma wait_all_meaning fuel k w n F ks :
  (ks < fuel)%nat -> meaning e (wait_all fuel k) w n F ks = meaning e k w (n + S ks) F 0.
Proof. intros Hf. exact (proj1 (wait_all_ok fuel k w n F ks Hf)). Qed.

Lemma execute_loop_meaning cs rest w n F ks :
  Forall runnable cs -> (forall m, (n <= m)%nat -> grants e (w, m) = true /\ grants e (w ++ [m], 0%nat) = true) ->
  meaning e (execute_loop errmsg cs rest) w n F ks
  = (started F <$> cs) ++ meaning e rest w (n + length cs) F (ks + length cs).
Proof. intros Hc Hg. exact (proj1 (execute_loop_ok cs rest w n F ks Hc Hg)). Qed.

Lemma execute_ok cs k w n F :
  Forall runnable cs -> (forall m, grants e m = true) ->
  leads e (Task w n F 0 (ExecuteCommand errmsg cs k)) (started F <$> cs) (Task w (n + 2 * length cs + 1) F 0 k).
Proof.
  intros Hc Hg. unfold ExecuteCommand. rewrite <- (app_nil_r (started F <$> cs)).
  eapply leads_trans; [apply execute_loop_ok; [done|intros; split; apply Hg]|].
  replace (n + 2 * length cs + 1)%nat with (n + length cs + S (0 + length cs))%nat by lia. apply wait_all_ok. lia.
Qed.

(** ** A session *)
Section Session.
Context (batch : bool).

(** A line without its newline that is not the last one. *)
Record command_line (l : list Z) : Prop := {
  cl_chars : Forall (fun c => c <> 0 /\ c <> NEWLN) l;
  cl_goes_on : l <> chars "quit" /\ l <> chars "QUIT";
  cl_fields : (length (fields SEMICOLON l) <= 255)%nat;
  cl_runnable : Forall runnable (fields SEMICOLON l);
}.

(** The calls of the shell for a line: its prompt or echo, the read, a fork for
    each command and the waits. *)
Definition line_calls (l : list Z) : nat :=
  match l with [] => 2 | _ => 2 + (2 * length (fields SEMICOLON l) + 1) end.
Definition read_call (n : nat) : nat := if batch then n else S n.

(** The input from call number [n] on: the lines, and then quit. *)
Fixpoint input_lines (ls : list (list Z)) (w : list nat) (n : nat) : Prop :=
  match ls with
  | [] => input e (w, read_call n) = chars "quit" ++ [NEWLN]
  | l :: ls => input e (w, read_call n) = l ++ [NEWLN] /\ command_line l /\ input_lines ls w (n + line_calls l)
  end.

Definition mark (out : object) (l : list Z) : event :=
  Wrote out (if batch then match l with [] => [NEWLN] | _ => l end ++ [NEWLN] else chars "prompt> ").
Definition line_shows (out : object) (F : fdtable) (l : list Z) : list event :=
  mark out l :: (started F <$> fields SEMICOLON l).
Fixpoint shell_events (out : object) (ls : list (list Z)) (F : fdtable) : list event :=
  match ls with
  | [] => [mark out (chars "quit")]
  | l :: ls => line_shows out F l ++ shell_events out ls F
  end.

Lemma GetCommand_line l :
  Forall (fun c => c <> 0 /\ c <> NEWLN) l ->
  GetCommand garbage (l ++ [NEWLN]) = match l with [] => [NEWLN] | _ => l end.
Proof.
  intros Hl. destruct l as [|c l]; [done|]. unfold GetCommand. cbn [app hd]. inversion_clear Hl.
  rewrite (proj2 (Z.eqb_neq c NEWLN)) by naive_solver. change (c :: l ++ [NEWLN]) with ((c :: l) ++ [NEWLN]). by rewrite removelast_last.
Qed.

(** What [main] does with the line it has read. *)
Definition handle (fuel : nat) (cmd : list Z) : prog :=
  if hd 0 cmd =? NEWLN then main_loop errmsg garbage batch fuel
  else if hd 0 cmd =? 0 then Exit
  else if bool_decide (cmd = chars "quit" \/ cmd = chars "QUIT") then Exit
  else match SplitCommandBySemiColon cmd with
       | None => Program
       | Some cs => ExecuteCommand errmsg cs (main_loop errmsg garbage batch fuel)
       end.

Lemma main_loop_eq fuel :
  main_loop errmsg garbage batch (S fuel)
  = (if batch then Read (fun line => fprintf 1 (GetCommand garbage line ++ [NEWLN]) (handle fuel (GetCommand garbage line)))
     else fprintf 1 (chars "prompt> ") (Read (fun line => handle fuel (GetCommand garbage line)))).
Proof. unfold handle. by destruct batch. Qed.

Lemma main_loop_round fuel l w n F ks out :
  slot F 1 = Some out -> Forall (fun c => c <> 0 /\ c <> NEWLN) l -> input e (w, read_call n) = l ++ [NEWLN] ->
  leads e (Task w n F ks (main_loop errmsg garbage batch (S fuel))) [mark out l]
    (Task w (S (S n)) F ks (handle fuel (match l with [] => [NEWLN] | _ => l end))).
Proof.
  intros Hs Hl Hi. rewrite main_loop_eq. unfold read_call, mark, fprintf in *. rewrite <- (GetCommand_line l Hl), <- Hi.
  destruct batch.
  - eapply (leads_trans e _ [] _ [_]); [apply leads_read|].
    apply (leads_sys e (write 1 _) (fun _ => handle fuel (GetCommand garbage (input e (w, n)))) _ _ _ _ (Z.of_nat (length (GetCommand garbage (input e (w, n)) ++ [NEWLN])))).
    unfold docall. by rewrite Hs.
  - eapply (leads_trans e _ [_] _ []); [|apply (leads_read e (fun line => handle fuel (GetCommand garbage line)))].
    apply (leads_sys e (write 1 _) (fun _ => Read _) _ _ _ _ (Z.of_nat (length (chars "prompt> ")))). unfold docall. by rewrite Hs.
Qed.

Lemma main_loop_line fuel l w n F out :
  (forall m, grants e m = true) -> slot F 1 = Some out -> command_line l -> input e (w, read_call n) = l ++ [NEWLN] ->
  leads e (Task w n F 0 (main_loop errmsg garbage batch (S fuel))) (line_shows out F l)
    (Task w (n + line_calls l) F 0 (main_loop errmsg garbage batch fuel)).
Proof.
  intros Hg Hs [Hc [Hq1 Hq2] Hn Hr] Hi. unfold line_shows. change (mark out l :: ?x) with ([mark out l] ++ x).
  eapply leads_trans; [by apply main_loop_round|]. unfold line_calls. destruct l as [|c l].
  - cbn. replace (n + 2)%nat with (S (S n)) by lia. apply leads_refl.
  - unfold handle. inversion Hc as [|? ? [Hc0 Hc1] _]; subst. cbn [hd]. rewrite (proj2 (Z.eqb_neq c NEWLN)), (proj2 (Z.eqb_neq c 0)) by done.
    rewrite bool_decide_eq_false_2 by naive_solver. unfold SplitCommandBySemiColon. rewrite split_ok, decide_True by lia.
    match goal with |- leads _ _ _ (Task _ ?m _ _ _) => replace m with (S (S n) + 2 * length (fields SEMICOLON (c :: l)) + 1)%nat by lia end.
    by apply execute_ok.
Qed.

(** The calls for several lines. *)
Fixpoint calls_after (ls : list (list Z)) (n : nat) : nat :=
  match ls with [] => n | l :: ls => calls_after ls (n + line_calls l) end.

Lemma main_loop_lines l1 l2 w n F out :
  (forall m, grants e m = true) -> slot F 1 = Some out -> input_lines (l1 ++ l2) w n ->
  leads e (Task w n F 0 (main_loop errmsg garbage batch (S (length (l1 ++ l2))))) (l1 ≫= line_shows out F)
    (Task w (calls_after l1 n) F 0 (main_loop errmsg garbage batch (S (length l2))))
  /\ input_lines l2 w (calls_after l1 n).
Proof.
  intros Hg Hs. revert n. induction l1 as [|l l1 IH]; intros n Hi; [split; [apply leads_refl|done]|].
  destruct Hi as (Hi & Hl & Hrest). destruct (IH _ Hrest) as [H1 H2]. split; [|done].
  eapply leads_trans; [by apply main_loop_line|exact H1].
Qed.

Lemma main_loop_quit w n F out :
  slot F 1 = Some out -> input_lines [] w n ->
  leads e (Task w n F 0 (main_loop errmsg garbage batch 1)) [mark out (chars "quit")] (Task w (S (S n)) F 0 Exit).
Proof. intros Hs Hi. apply (main_loop_round 0 (chars "quit")); [done| |done]. by repeat constructor. Qed.

Lemma shell_events_lines out ls F : shell_events out ls F = (ls ≫= line_shows out F) ++ [mark out (chars "quit")].
Proof. induction ls as [|l ls IH]; [done|]. cbn [shell_events]. rewrite IH. cbn. by rewrite <- (assoc_L (++)). Qed.
End Session.
End Running.

Section Theorems.
Context (errmsg garbage : list Z) (e : env).


(** When a command cannot be executed, its child process stays in the loop
    of [ExecuteCommand]: it runs the rest of the commands as well, and then
    goes on reading lines like its parent. *)
Theorem failed_execvp_runs_the_rest c cs k w n F o :
  Forall runnable (c :: cs) -> (forall m, 0 < newpid e m) -> slot F 2 = Some o ->
  (forall m, grants e m = negb (bool_decide (m = (w ++ [n], 0%nat)))) ->
  meaning e (ExecuteCommand errmsg (c :: cs) k) w n F 0
  = Wrote o (chars "execvp" ++ errmsg) :: (started F <$> cs)
      ++ meaning e k (w ++ [n]) (3 + 2 * length cs) F 0
      ++ (started F <$> cs) ++ meaning e k w (n + 2 * length cs + 3) F 0.
Proof.
  intros Hc Hpid Ho Hg. inversion Hc as [|? ? Hc1 Hc2]; subst.
  assert (forall m, m <> (w ++ [n], 0%nat) -> grants e m = true) as Hg1.
  { intros m Hm. by rewrite Hg, bool_decide_eq_false_2. }
  unfold ExecuteCommand. rewrite execute_one; [|done|done|apply Hg1; intros [= E _]; apply (f_equal length) in E; rewrite length_app in E; cbn in E; lia].
  rewrite Hg, bool_decide_eq_true_2 by done. cbn [negb]. unfold perror, fprintf. cbn [meaning docall]. rewrite Ho. cbn [app].
  f_equal. rewrite !execute_loop_meaning; try done.
  - rewrite !wait_all_meaning by (cbn; lia). cbn [length]. rewrite <- (assoc_L (++)). do 2 f_equal; [f_equal; lia|]. do 2 f_equal. lia.
  - intros m Hm. split; apply Hg1; intros [= E].
    + apply (f_equal length) in E. rewrite length_app in E. cbn in E. lia.
    + apply app_inj_tail in E as [_ E]. lia.
  - intros m Hm. split; apply Hg1; intros [= E]; [lia|]. apply (f_equal length) in E. rewrite length_app in E. cbn in E. lia.
Qed.
End Theorems.
