(* ===== verification/ShellWitness.v ===== *)
(** * The shell at work

    A command line and a session of each of the two shells. *)

From S2P Require Import Prelude Sh ShTheory ShRoundtrip Programs ShRun ProjShell.
Open Scope Z_scope.

Definition tty : object := Opened (chars "console") SH_RDWR.
Definition console_fds : fdtable := replicate 3 (Some tty) ++ replicate 13 None.

Lemma console_ready : ready console_fds.
Proof.
  apply (ready_intro (replicate 3 (Some tty)) [] (replicate 11 None)); [|constructor|cbn; lia].
  repeat constructor; by eexists.
Qed.

(** What is typed at the shell, which makes its first two calls to open the
    console. *)
Definition session_lines : list (list Z) :=
  [chars "cd usr" ++ [NL]; chars "(ls ; cat x) | wc -l > out &" ++ [NL]; chars "ls >" ++ [NL]].
(** The calls of the shell before each read. *)
Fixpoint keystrokes (ls : list (list Z)) : list (option Z) :=
  match ls with
  | [] => []
  | s :: ls => None :: (Some <$> s) ++ replicate (if is_cd s then 1 else 2) None ++ keystrokes ls
  end.
Definition session_env : env := {|
  grants _ := true;
  newpid _ := 7;
  input n := match n with
             | ([], S (S i)) => match mjoin (keystrokes session_lines !! i) with Some c => [c] | None => [] end
             | _ => []
             end;
|}.

Definition piped : list Z := chars "(ls ; cat x) | wc -l > out &".
Definition piped_cmd : cmd := match parsecmd piped with Ok (c, _) _ => c | _ => EXEC [] end.

Lemma shell_wires_witness :
  exists P L, rtc (step session_env) (start (run_line piped) console_fds) (P, L) /\ finished P
    /\ L ≡ₚ wired session_env (view piped_cmd) [] 0 console_fds.
Proof.
  destruct (run_ends session_env (run_line piped) console_fds) as (P & L & Hr & Hn). exists P, L. split; [done|].
  eapply (shell_wires session_env piped _ _ _ console_fds); [vm_compute; reflexivity|apply console_ready|done|exact Hr|exact Hn].
Defined.

Lemma wired_piped :
  let F := <[1%nat := Some (PipeWrite ([0%nat], 0%nat))]> console_fds in
  wired session_env (view piped_cmd) [] 0 console_fds
  = [Ran (chars "ls") [chars "ls"] F; Ran (chars "cat") [chars "cat"; chars "x"] F;
     Ran (chars "wc") [chars "wc"; chars "-l"]
       (<[1%nat := Some (Opened (chars "out") SH_WRONLY_CREATE)]>
          (<[0%nat := Some (PipeRead ([0%nat], 0%nat))]> console_fds))].
Proof. vm_compute. reflexivity. Qed.

Lemma typed_check e w n s :
  forallb (fun ic => bool_decide (input e (w, n + ic.1)%nat = [ic.2])) (imap pair s) = true -> typed e w n s.
Proof.
  intros H i c Hi. rewrite forallb_forall in H. specialize (H (i, c)). apply bool_decide_eq_true in H; [done|].
  apply list_elem_of_In, list_elem_of_lookup. exists i. rewrite list_lookup_imap, Hi. done.
Qed.

Lemma input_line_check s :
  (List.last s 0 =? NL) && forallb (fun c => negb (c =? 0) && negb (c =? NL) && negb (c =? CR)) (removelast s)
    && (length s <=? 99)%nat = true -> s <> [] -> input_line s.
Proof.
  intros H Hne. apply andb_true_iff in H as [[Hl Hb]%andb_true_iff Hn]. exists (removelast s). split_and!.
  - rewrite (app_removelast_last 0 Hne) at 1. do 2 f_equal. by apply Z.eqb_eq.
  - apply list.Forall_forall. intros c Hc%list_elem_of_In. rewrite forallb_forall in Hb. apply Hb in Hc.
    rewrite !andb_true_iff, !negb_true_iff, !Z.eqb_neq in Hc. tauto.
  - by apply Nat.leb_le.
Qed.

Lemma session_typed : typed_lines session_env session_lines [] (first_prompt session_env).
Proof.
  change (first_prompt session_env) with 2%nat.
  repeat match goal with |- _ /\ _ => split | |- typed_lines _ _ _ _ => cbn [typed_lines session_lines] end;
    first [apply typed_check; vm_compute; reflexivity | apply input_line_check; [vm_compute; reflexivity|done] | vm_compute; reflexivity].
Qed.


(** The second line leaves its pipeline behind, and nothing else. *)
Lemma background_piped :
  background session_env (take 2 session_lines) [] 2 = [[41%nat; 0%nat]].
Proof. vm_compute. reflexivity. Qed.

(** ** The shell of the first project *)
Definition batch_lines : list (list Z) := [chars "ls -l ; cat x;"; []; chars "date"].
Definition batch_env : env := {|
  grants _ := true;
  newpid _ := 7;
  input n := match n with
             | ([], O) => chars "ls -l ; cat x;" ++ [NEWLN]
             | ([], 7%nat) => [NEWLN]
             | ([], 9%nat) => chars "date" ++ [NEWLN]
             | _ => chars "quit" ++ [NEWLN]
             end;
|}.


(** [nosuch] is not there. *)
Lemma failed_execvp_runs_the_rest_witness :
  let e := {| grants m := negb (bool_decide (m = ([0%nat], 0%nat))); newpid _ := 7; input _ := [] |} in
  let date := Ran (chars "date") [chars "date"] console_fds in
  meaning e (ExecuteCommand [] [chars "nosuch"; chars "date"] Exit) [] 0 console_fds 0
  = [Wrote tty (chars "execvp"); date; date].
Proof.
  intros e date. etrans.
  - apply (failed_execvp_runs_the_rest [] e (chars "nosuch") [chars "date"] Exit [] 0 console_fds tty);
      [repeat constructor; vm_compute; lia|done|done|done].
  - reflexivity.
Defined.
