(* ===== verification/Descriptors.v ===== *)
(** * The kernel's descriptor tables

    The descriptor table of a process in the kernel, seen through the files its
    entries refer to, is the table that Programs.v uses: [sys_dup] does to it
    what [docall] says. *)

From S2P Require Import Prelude CString Kalloc Vm VmTheory VmAlloc Double Spinlock ProcState Sched Sleep Bio Log BlockStore Fs Kernel Pipe File Proc Syscall SyscallTheory Sysfile ForkTheory Programs.
Open Scope Z_scope.

Lemma lowest_some {A} (T : list (option A)) fd :
  lowest T = Some fd -> T !! fd = Some None /\ forall j, (j < fd)%nat -> exists x, T !! j = Some (Some x).
Proof.
  unfold lowest. intros E. destruct (list_find _ T) as [[i o]|] eqn:El; [|done]. injection E as <-.
  apply list_find_Some in El as (Hi & -> & Hb). split; [done|]. intros j Hj.
  assert (i < length T)%nat by (by eapply lookup_lt_Some). destruct (lookup_lt_is_Some_2 T j ltac:(lia)) as [[x|] Hx]; [by exists x|].
  by destruct (Hb j None Hx).
Qed.

Lemma lowest_none {A} (T : list (option A)) j : lowest T = None -> (j < length T)%nat -> exists x, T !! j = Some (Some x).
Proof.
  unfold lowest. intros E Hj. destruct (list_find _ T) eqn:El; [done|]. apply list_find_None in El.
  destruct (lookup_lt_is_Some_2 T j Hj) as [[x|] Hx]; [by exists x|]. by apply (Forall_lookup_1 _ _ _ _ El) in Hx.
Qed.

(** The table as user programs see it. *)
Definition visible (obj : nat -> object) (T : list (option nat)) : fdtable := fmap (M := option) obj <$> T.

Lemma visible_lowest obj T : lowest (visible obj T) = lowest T.
Proof.
  unfold lowest, visible. induction T as [|[x|] T IH]; cbn in *; [done| |done].
  destruct (list_find _ (fmap (M := option) obj <$> T)) as [[]|], (list_find _ T) as [[]|]; cbn in *; simplify_eq; done.
Qed.

Lemma visible_slot obj T fd : slot (visible obj T) fd = obj <$> slot T fd.
Proof.
  unfold slot, visible. destruct (fd <? 0); [done|]. rewrite list_lookup_fmap. by destruct (T !! Z.to_nat fd) as [[]|].
Qed.
Lemma visible_insert obj T i f : visible obj (<[i := Some f]> T) = <[i := Some (obj f)]> (visible obj T).
Proof. unfold visible. by rewrite list_fmap_insert. Qed.

Section Descriptors.
Context {S : Type} `{Linker, BlockStore S, Devsw S}.
#[local] Abbreviation K := (kernel (World S)).
#[local] Abbreviation memory k := (kmemory (wmem (world k))).

Lemma fdalloc_ok (k : K) c i pr f hs :
  on (mach k) c (Some i) hs -> ptable k !! i = Some pr -> length (ofile pr) = NOFILE ->
  exists m', on m' c (Some i) hs /\
  fdalloc f k = match lowest (ofile pr) with
                | Some fd => Ok (Z.of_nat fd) { k with mach := m'; ptable := <[i := { pr with ofile ::= <[fd := Some f]> }]> (ptable k) }
                | None => Ok (-1) { k with mach := m' }
                end.
Proof.
  intros Hon Hp Hl. destruct (curproc_ok k c i hs Hon) as (m' & E & Hon'). exists m'. split; [done|].
  unfold fdalloc. rewrite (bind_ok _ _ _ _ _ E). destruct (lowest (ofile pr)) as [fd|] eqn:El.
  - destruct (lowest_some _ _ El) as [Hfd Hb]. assert (fd < NOFILE)%nat by (rewrite <- Hl; by eapply lookup_lt_Some).
    erewrite bind_ok; [|replace NOFILE with (fd + Datatypes.S (NOFILE - Datatypes.S fd))%nat by lia; rewrite seq_app; apply for_loop_first].
    + reflexivity.
    + intros j [_ Hj]%elem_of_seq. mstep Hp. destruct (Hb j Hj) as [x Hx]. rewrite Hx. done.
    + mstep Hp.
      rewrite Nat.add_0_l, Hfd. mstep. cbn beta iota. erewrite bind_ok by (apply setp_ok; exact Hp). reflexivity.
  - erewrite bind_ok; [|apply for_loop_skip]; [done|].
    intros j [_ Hj]%elem_of_seq. mstep Hp. destruct (lowest_none _ j El ltac:(lia)) as [x Hx].
    rewrite Hx. done.
Qed.

Lemma argfd_ok (k : K) c i pr fd :
  runs k c i pr -> length (ofile pr) = NOFILE -> user_int (memory k) pr (arg_addr pr 0) = Some fd ->
  exists m', argfd 0 k = Ok (pair (Z.to_nat fd) <$> slot (ofile pr) fd) { k with mach := m' } /\ runs { k with mach := m' } c i pr.
Proof.
  intros Hr Hl Hi. destruct (argint_ok k c i pr 0 Hr) as (m1 & E1 & Hr1). unfold argfd, slot. rewrite (bind_ok _ _ _ _ _ E1), Hi.
  destruct (Z.ltb_spec fd 0); [by exists m1|]. cbn [orb]. destruct (Z.leb_spec (Z.of_nat NOFILE) fd).
  - exists m1. rewrite lookup_ge_None_2 by lia. done.
  - destruct (myprocp_ok _ c i pr Hr1) as (m2 & E2 & Hr2). exists m2. split; [|done]. rewrite (bind_ok _ _ _ _ _ E2).
    destruct (lookup_lt_is_Some_2 (ofile pr) (Z.to_nat fd) ltac:(lia)) as [o Ho]. rewrite Ho. by destruct o.
Qed.

(** [sys_dup] does to the table of the process, as a program sees it, what
    [docall] of Programs.v says: it fails for a descriptor that is not open or if
    there is no room, and otherwise takes the lowest free one; the file has one
    more reference then. *)
Theorem sys_dup_refines (k : K) c i pr fd obj e n :
  runs k c i pr -> length (ofile pr) = NOFILE -> open_files (ofile pr) (ftab (world k)) ->
  user_int (memory k) pr (arg_addr pr 0) = Some fd ->
  exists r k' pr', sys_dup k = Ok r k' /\ ptable k' !! i = Some pr'
    /\ docall e n (dup fd) (visible obj (ofile pr)) = (r, visible obj (ofile pr'), [])
    /\ ftab (world k') = if r <? 0 then ftab (world k)
                         else match mjoin (ofile pr !! Z.to_nat fd) with
                              | Some f => alter dup_ref f (ftab (world k))
                              | None => ftab (world k)
                              end.
Proof.
  intros Hr Hl Ho Hi. destruct (argfd_ok k c i pr fd Hr Hl Hi) as (m1 & E1 & Hr1). unfold sys_dup, docall. rewrite (bind_ok _ _ _ _ _ E1).
  rewrite visible_slot. destruct (slot (ofile pr) fd) as [f|] eqn:Es; cbn [fmap option_fmap option_map].
  2:{ eexists _, _, pr. split_and!; [reflexivity|apply Hr1|done|done]. }
  destruct (fdalloc_ok { k with mach := m1 } c i pr f [] (ru_on _ _ _ _ Hr1) (ru_slot _ _ _ _ Hr1) Hl) as (m2 & _ & E2).
  unfold install. rewrite visible_lowest. destruct (lowest (ofile pr)) as [d|] eqn:Ed; rewrite (bind_ok _ _ _ _ _ E2).
  2:{ eexists _, _, pr. split_and!; [reflexivity|apply Hr1|done|done]. }
  assert (Some f ∈ ofile pr /\ mjoin (ofile pr !! Z.to_nat fd) = Some f) as [Hin Hj].
  { unfold slot in Es. destruct (fd <? 0); [done|]. destruct (ofile pr !! Z.to_nat fd) as [[f'|]|] eqn:E; [|done..].
    cbn in Es. injection Es as ->. split; [by eapply list_elem_of_lookup_2|done]. }
  destruct (Ho f Hin) as (y & Hy & Hy1 & _). rewrite (proj2 (Z.ltb_ge _ _)) by lia.
  erewrite bind_ok; [|unfold filedup; erewrite bind_ok by (apply getf_ok; exact Hy);
    rewrite (proj2 (Z.ltb_ge _ _)) by lia; erewrite bind_ok by (apply setf_ok; exact Hy); reflexivity].
  eexists _, _, { pr with ofile ::= <[d := Some f]> }. split_and!; [reflexivity| | |].
  - unfold with_file, upd_world. cbn. apply list_lookup_insert_eq. eapply lookup_lt_Some, Hr.
  - change (ofile { pr with ofile ::= <[d := Some f]> }) with (<[d := Some f]> (ofile pr)). by rewrite visible_insert.
  - rewrite Hj, (proj2 (Z.ltb_ge _ _)) by lia. cbn. symmetry. etrans; [apply (Prelude.alter_insert dup_ref _ f y Hy)|done].
Qed.
End Descriptors.
