(* ===== verification/Mkfs.v ===== *)
(** * The first disk image

    Models mkfs.c, the program that builds the disk image with the superblock,
    the root directory and the files it is given.  The image is a function from
    block numbers to blocks together with the length of the image file; a failed
    assertion and [exit(1)] are [Panic].  What mkfs prints is not modelled.  The
    host is little-endian, as [xint] and [xshort] show: they are the identity
    there.  The files of the host are a parameter. *)

From S2P Require Import Prelude CString Bio Log Fs.
Open Scope Z_scope.

Definition FSSIZE : Z := 40000.
Definition LOGSIZE : Z := 30.
Definition NINODES : Z := 200.

Definition nbitmap : Z := FSSIZE / (Z.of_nat BSIZE * 8) + 1.
Definition ninodeblocks : Z := NINODES / IPB + 1.
Definition nlog : Z := LOGSIZE.
Definition nmeta : Z := 2 + nlog + ninodeblocks + nbitmap.
Definition nblocks : Z := FSSIZE - nmeta.

Definition zeroes : list Z := replicate BSIZE 0.

(** convert to intel byte order *)
Definition xshort (x : Z) : Z := le_value (le_bytes 2 x).
Definition xint (x : Z) : Z := le_value (le_bytes 4 x).

(** The image, its length in blocks, and the variables of the program. *)
Record mkfs := mk_mkfs {
  img : Z -> list Z;
  isize : Z;
  sb : superblock;
  freeinode : Z;
  freeblock : Z;
}.

(** The block at offset [sec * BSIZE], an unsigned 32-bit number. *)
Definition sector (sec : Z) : Z := u32 (sec * Z.of_nat BSIZE) / Z.of_nat BSIZE.

Definition wsect (sec : Z) (buf : list Z) : M mkfs unit :=
  modify (fun s => { s with img ::= <[sector sec := buf]>; isize ::= Z.max (sector sec + 1) }).

Definition rsect (sec : Z) : M mkfs (list Z) :=
  s ← get;
  if sector sec <? isize s then mret (img s (sector sec)) else panic "read".

Definition winode (inum : Z) (ip : dinode) : M mkfs unit :=
  s ← get;
  let bn := IBLOCK inum (sb s) in
  buf ← rsect bn;
  wsect bn (put_dinode buf (Z.to_nat (inum mod IPB)) ip).

Definition rinode (inum : Z) : M mkfs dinode :=
  s ← get;
  let bn := IBLOCK inum (sb s) in
  buf ← rsect bn;
  mret (get_dinode buf (Z.to_nat (inum mod IPB))).

(** [inum = freeinode++] and [freeblock++] *)
Definition next_inode : M mkfs Z :=
  s ← get;
  put { s with freeinode := u32 (freeinode s + 1) };;
  mret (freeinode s).
Definition next_block : M mkfs Z :=
  s ← get;
  put { s with freeblock := u32 (freeblock s + 1) };;
  mret (freeblock s).

Definition mk_ialloc (type : Z) : M mkfs Z :=
  inum ← next_inode;
  winode inum (mk_dinode (xshort type) 0 0 (xshort 1) (xint 0) (replicate 13 0));;
  mret inum.

Definition mk_balloc (used : Z) : M mkfs unit :=
  if negb (used <? Z.of_nat BSIZE * 8) then panic "assert"
  else
    s ← get;
    let buf := foldl set_bit zeroes (seq 0 (Z.to_nat used)) in
    wsect (sb_bmapstart (sb s)) buf.

(** The block [x] of file block [fbn], and the inode with it. *)
Definition direct_block (din : dinode) (fbn : nat) : M mkfs (dinode * Z) :=
  din ← (if xint (d_addrs din !!! fbn) =? 0 then
           b ← next_block;
           mret { din with d_addrs ::= <[fbn := xint b]> }
         else mret din);
  mret (din, xint (d_addrs din !!! fbn)).

(** Entry [j] of the indirect block, which is given a block if it has none;
    [indirect] is an array of [NINDIRECT] entries on the stack. *)
Definition entry_of (din : dinode) (j : nat) : M mkfs (dinode * Z) :=
  let table := xint (d_addrs din !!! NDIRECT) in
  indirect ← rsect table;
  if negb (j <? NINDIRECT)%nat then fault
  else
    indirect ← (if get32 indirect (4 * j) =? 0 then
                  b ← next_block;
                  let indirect := put32 indirect (4 * j) (xint b) in
                  wsect table indirect;;
                  mret indirect
                else mret indirect);
    mret (din, xint (get32 indirect (4 * j))).
Definition indirect_block (din : dinode) (fbn : nat) : M mkfs (dinode * Z) :=
  din ← (if xint (d_addrs din !!! NDIRECT) =? 0 then
           b ← next_block;
           mret { din with d_addrs ::= <[NDIRECT := xint b]> }
         else mret din);
  entry_of din (fbn - NDIRECT).

(** The loop of [iappend]: every round appends at least a byte. *)
Fixpoint append_loop (din : dinode) (off : Z) (p : list Z) (fuel : nat) : M mkfs (dinode * Z) :=
  match fuel with
  | O => no_fuel
  | S fuel =>
      match p with
      | [] => mret (din, off)
      | _ =>
          let fbn := off / Z.of_nat BSIZE in
          if negb (fbn <? MAXFILE) then panic "assert"
          else
            '(din, x) ← (if fbn <? Z.of_nat NDIRECT then direct_block din (Z.to_nat fbn)
                         else indirect_block din (Z.to_nat fbn));
            let n1 := Z.min (Z.of_nat (length p)) ((fbn + 1) * Z.of_nat BSIZE - off) in
            buf ← rsect x;
            wsect x (splice (Z.to_nat (off - fbn * Z.of_nat BSIZE)) (take (Z.to_nat n1) p) buf);;
            append_loop din (off + n1) (drop (Z.to_nat n1) p) fuel
      end
  end.
Definition iappend (inum : Z) (p : list Z) : M mkfs unit :=
  din ← rinode inum;
  '(din, off) ← append_loop din (xint (d_size din)) p (S (length p));
  winode inum { din with d_size := xint off }.

(** [read(fd, buf, sizeof(buf))] until the end of the file *)
Fixpoint chunks (bytes : list Z) (fuel : nat) : list (list Z) :=
  match fuel with
  | O => []
  | S fuel => match bytes with [] => [] | _ => take BSIZE bytes :: chunks (drop BSIZE bytes) fuel end
  end.
Definition file_chunks (bytes : list Z) : list (list Z) := chunks bytes (length bytes).

(** [bzero(&de, sizeof(de)); de.inum = xshort(inum); strcpy(de.name, name);] for a
    name that fits, and the same with [strncpy]. *)
Definition de_strcpy (inum : Z) (name : list Z) : list Z :=
  le_bytes 2 (xshort inum) ++ splice 0 (name ++ [0]) (replicate DIRSIZ 0).
Definition de_strncpy (inum : Z) (name : list Z) : list Z :=
  le_bytes 2 (xshort inum) ++ strncpy_list name DIRSIZ.

Definition UNDERSCORE : Z := 95.

Definition add_file (host : list Z -> option (list Z)) (rootino : Z) (arg : list Z) : M mkfs unit :=
  if bool_decide (47 ∈ arg) then panic "assert"
  else
    match host arg with
    | None => panic "open"
    | Some bytes =>
        let name := if hd 0 arg =? UNDERSCORE then tl arg else arg in
        inum ← mk_ialloc T_FILE;
        iappend rootino (de_strncpy inum name);;
        for_each (file_chunks bytes) (iappend inum)
    end.

Definition superblock_bytes (x : superblock) : list Z :=
  le_bytes 4 (sb_size x) ++ le_bytes 4 (sb_nblocks x) ++ le_bytes 4 (sb_ninodes x) ++ le_bytes 4 (sb_nlog x)
  ++ le_bytes 4 (sb_logstart x) ++ le_bytes 4 (sb_inodestart x) ++ le_bytes 4 (sb_bmapstart x).

(** [main] after the image has been opened, for the files [args]. *)
Definition mkfs_main (host : list Z -> option (list Z)) (args : list (list Z)) : M mkfs unit :=
  modify (fun s => { s with
    sb := mk_superblock (xint FSSIZE) (xint nblocks) (xint NINODES) (xint nlog) (xint 2) (xint (2 + nlog))
            (xint (2 + nlog + ninodeblocks));
    freeblock := nmeta });;
  for_each (seq 0 (Z.to_nat FSSIZE)) (fun i => wsect (Z.of_nat i) zeroes);;
  s ← get;
  wsect 1 (splice 0 (superblock_bytes (sb s)) zeroes);;
  rootino ← mk_ialloc T_DIR;
  if negb (rootino =? ROOTINO) then panic "assert"
  else
    iappend rootino (de_strcpy rootino [46]);;
    iappend rootino (de_strcpy rootino [46; 46]);;
    for_each args (add_file host rootino);;
    (* fix size of root inode dir *)
    din ← rinode rootino;
    let off := xint (d_size din) in
    let off := u32 ((off / Z.of_nat BSIZE + 1) * Z.of_nat BSIZE) in
    winode rootino { din with d_size := xint off };;
    s ← get;
    mk_balloc (freeblock s).

(** The state at the start: an empty file, and the initial values. *)
Definition mkfs_start : mkfs := mk_mkfs (fun _ => []) 0 (mk_superblock 0 0 0 0 0 0 0) 1 0.
