(* ===== verification/MkfsTheory.v ===== *)
(** * The image is a file system

    mkfs.c and the kernel agree: the image that mkfs builds is one that the
    theorems about fs.c apply to, and its files have the contents they had on
    the host.

    [forest] is the invariant on the blocks: the inodes with the addresses [A]
    have the contents [B], and every block of them is used once and lies between
    the metadata and the first free block. *)

From S2P Require Import Prelude CString Bio Log LogTheory BlockStore Fs FsBlocks FsTree FsContent FsInode FsFile Mkfs.
Open Scope Z_scope.

Record forest (C : Z -> list Z) (fb : Z) (A B : list (list Z)) : Prop := {
  f_len : length A = length B;
  f_block : forall n, 0 <= n < FSSIZE -> length (C n) = BSIZE;
  f_zero : forall n, fb <= n < FSSIZE -> C n = zeroes;
  f_first : nmeta <= fb;
  f_addrs : forall i a, A !! i = Some a -> length a = 13%nat /\ a !!! 11%nat = 0 /\ a !!! 12%nat = 0;
  f_range : forall i a q, A !! i = Some a -> valid_loc q -> node C a q <> 0 -> nmeta <= node C a q < fb;
  f_inj : forall i j a b q q', A !! i = Some a -> A !! j = Some b -> valid_loc q -> valid_loc q' ->
    node C a q <> 0 -> node C a q = node C b q' -> i = j /\ q = q';
  f_cont : forall i a bs k c, A !! i = Some a -> B !! i = Some bs -> bs !! k = Some c ->
    exists q, route (Z.of_nat k / bsize) = Some q /\ node C a q <> 0 /\ C (node C a q) !! (k mod BSIZE)%nat = Some c;
}.

(** Where the blocks of small files are. *)
Lemma small_loc (C : Z -> list Z) a q :
  valid_loc q -> a !!! 11%nat = 0 -> a !!! 12%nat = 0 -> node C a q <> 0 ->
  (exists s, (s < 11)%nat /\ q = (s, [])) \/ exists j, (j < NINDIRECT)%nat /\ q = (10%nat, [j]).
Proof.
  destruct q as [s js]. intros (H1 & H2 & H3) E1 E2 Hn. unfold depth in *. cbn [fst snd] in *.
  destruct (decide (s = 11)%nat) as [->|]; [unfold node in Hn; cbn in Hn; by rewrite E1, no_child in Hn|].
  destruct (decide (s = 12)%nat) as [->|]; [unfold node in Hn; cbn in Hn; by rewrite E2, no_child in Hn|].
  destruct js as [|j [|j' js]]; [left; exists s; split; [lia|done]| |cbn in H2; lia].
  right. assert (s = 10)%nat as -> by (cbn in H2; lia). exists j. split; [by inversion H3|done].
Qed.

Lemma valid_slot s : (s < 13)%nat -> valid_loc (s, []).
Proof. intros Hs. split_and!; [done|cbn; lia|constructor]. Qed.
Lemma valid_entry j : (j < NINDIRECT)%nat -> valid_loc (10%nat, [j]).
Proof. intros Hj. split_and!; [cbn; lia|cbn; unfold depth; lia|by apply Forall_singleton]. Qed.

Lemma route_below n q : route n = Some q -> n < MAXFILE.
Proof.
  unfold route, MAXFILE, NTRIPINDIRECT, NDOUBINDIRECT. intros H. repeat case_match; zbool; try done; lia.
Qed.
Lemma route_valid n q : 0 <= n -> route n = Some q -> valid_loc q /\ is_leaf q.
Proof.
  intros Hn Hq. pose proof (route_below n q Hq). destruct (route_some n) as (q' & E & Hv & Hl); [lia|].
  rewrite Hq in E. by injection E as <-.
Qed.

Lemma nmeta_eq : nmeta = 68.
Proof. reflexivity. Qed.

Section Forest.
Context (C : Z -> list Z) (fb : Z) (A B : list (list Z)) (HF : forest C fb A B).

(** ** A new block

    The first free block appears at one location of one file. *)
Lemma grow C' A' i q0 :
  length A' = length A ->
  (forall n, 0 <= n < FSSIZE -> length (C' n) = BSIZE) ->
  (forall n, fb + 1 <= n < FSSIZE -> C' n = zeroes) ->
  (forall j b, A' !! j = Some b -> length b = 13%nat /\ b !!! 11%nat = 0 /\ b !!! 12%nat = 0) ->
  (forall a, A !! i = Some a -> node C a q0 = 0) ->
  (forall j b', A' !! j = Some b' -> exists b, A !! j = Some b
     /\ forall q, valid_loc q -> node C' b' q = if decide (j = i /\ q = q0) then fb else node C b q) ->
  (forall j b k q, A !! j = Some b -> 0 <= k < MAXFILE -> route k = Some q -> node C b q <> 0 ->
     C' (node C b q) = C (node C b q)) ->
  forest C' (fb + 1) A' B.
Proof.
  intros Hlen Hblk Hz Haddrs Hold Hnode Hdata. pose proof (f_first _ _ _ _ HF) as Hfirst. split; try done.
  - by rewrite Hlen, (f_len _ _ _ _ HF).
  - lia.
  - intros j b' q Hj Hq Hn. destruct (Hnode j b' Hj) as (b & Hb & E). rewrite E in * by done.
    destruct (decide _); [lia|]. pose proof (f_range _ _ _ _ HF j b q Hb Hq Hn). lia.
  - intros j k b' c' q q' Hj Hk Hq Hq' Hn E. destruct (Hnode j b' Hj) as (b & Hb & Eb), (Hnode k c' Hk) as (c & Hc & Ec).
    rewrite Eb in Hn, E by done. rewrite Ec in E by done.
    destruct (decide (j = i /\ q = q0)) as [[-> ->]|Hd1], (decide (k = i /\ q' = q0)) as [[-> ->]|Hd2]; [done| | |].
    + pose proof (f_range _ _ _ _ HF k c q' Hc Hq'). lia.
    + pose proof (f_range _ _ _ _ HF j b q Hb Hq Hn). lia.
    + by apply (f_inj _ _ _ _ HF j k b c).
  - intros j b' bs k x Hj Hbs Hk. destruct (Hnode j b' Hj) as (b & Hb & Eb).
    destruct (f_cont _ _ _ _ HF j b bs k x Hb Hbs Hk) as (q & Hq & Hn & Hx). exists q. split; [done|].
    assert (0 <= Z.of_nat k / bsize) as Hk0 by (apply Z.div_pos; [lia|done]).
    pose proof (route_below _ _ Hq) as Hr. pose proof (route_valid _ _ Hk0 Hq) as [Hv _].
    rewrite Eb by done. destruct (decide (j = i /\ q = q0)) as [[-> ->]|_]; [by rewrite (Hold b Hb) in Hn|].
    rewrite (Hdata j b _ q Hb (conj Hk0 Hr) Hq Hn). done.
Qed.

(** In the inode. *)
Section Slot.
Context (i s : nat) (a : list Z) (Ha : A !! i = Some a) (Hs : (s < 11)%nat) (H0 : a !!! s = 0) (Hfb : fb < FSSIZE).
Let a' : list Z := <[s := fb]> a.

Lemma slot_node q : valid_loc q -> node C a' q = if decide (q = (s, [])) then fb else node C a q.
Proof.
  intros Hq. destruct q as [s' js]. destruct (f_addrs _ _ _ _ HF i a Ha) as (Hl & _). unfold node, a'. cbn [fst snd].
  destruct (decide (s = s')) as [<-|Hne].
  - rewrite list_lookup_total_insert_eq by lia. destruct js as [|j js]; [by rewrite decide_True|].
    rewrite decide_False by congruence. cbn [foldl]. rewrite H0. unfold child at 2 4. cbn [Z.eqb].
    pose proof (f_first _ _ _ _ HF). rewrite nmeta_eq in *. rewrite (proj2 (Z.eqb_neq fb 0)) by lia.
    rewrite (f_zero _ _ _ _ HF) by lia. unfold zeroes. by rewrite get32_zeros.
  - rewrite list_lookup_total_insert_ne by done. by rewrite decide_False by congruence.
Qed.

Lemma slot_forest : forest C (fb + 1) (<[i := a']> A) B.
Proof.
  pose proof (lookup_lt_Some _ _ _ Ha) as Hi. destruct (f_addrs _ _ _ _ HF i a Ha) as (Hl & E11 & E12).
  apply (grow C _ i (s, [])); try done.
  - by rewrite length_insert.
  - apply (f_block _ _ _ _ HF).
  - intros n Hn. apply (f_zero _ _ _ _ HF). lia.
  - intros j b Hj. destruct (decide (i = j)) as [<-|Hne].
    + rewrite list_lookup_insert_eq in Hj by done. injection Hj as <-. unfold a'.
      rewrite length_insert, !list_lookup_total_insert_ne by lia. done.
    + rewrite list_lookup_insert_ne in Hj by done. by apply (f_addrs _ _ _ _ HF j).
  - intros b Hb. rewrite Ha in Hb. by injection Hb as <-.
  - intros j b Hj. destruct (decide (i = j)) as [<-|Hne].
    + rewrite list_lookup_insert_eq in Hj by done. injection Hj as <-. exists a. split; [done|]. intros q Hq.
      rewrite slot_node by done. by destruct (decide (q = (s, []))); [rewrite decide_True|rewrite decide_False by tauto].
    + rewrite list_lookup_insert_ne in Hj by done. exists b. split; [done|]. intros q Hq. by rewrite decide_False by naive_solver.
Qed.
End Slot.

(** In the indirect block. *)
Section Entry.
Context (i j : nat) (a : list Z) (Ha : A !! i = Some a) (Hj : (j < NINDIRECT)%nat) (Hfb : fb < FSSIZE).
Let t : Z := a !!! 10%nat.
Context (Ht : t <> 0) (H0 : get32 (C t) (4 * j) = 0).
Let C' : Z -> list Z := <[t := put32 (C t) (4 * j) fb]> C.

Lemma table_range : nmeta <= t < fb.
Proof. apply (f_range _ _ _ _ HF i a (10%nat, []) Ha); [by apply valid_slot; lia|done]. Qed.

Lemma entry_node k b q :
  A !! k = Some b -> valid_loc q -> node C' b q = if decide (k = i /\ q = (10%nat, [j])) then fb else node C b q.
Proof.
  pose proof table_range as Hr. rewrite nmeta_eq in Hr. intros Hb Hq.
  assert (k = i -> b = a) as Hka by (intros ->; rewrite Ha in Hb; by injection Hb).
  destruct q as [s [|j' js]]; [by rewrite decide_False by naive_solver|]. destruct Hq as (Hq1 & Hq2 & Hq3). unfold depth in Hq2. cbn in Hq1, Hq2.
  destruct (f_addrs _ _ _ _ HF k b Hb) as (_ & E11 & E12). unfold node. cbn [fst snd foldl].
  destruct (decide (s = 10)%nat) as [->|Hs].
  2:{ rewrite decide_False by naive_solver. assert (b !!! s = 0) as ->.
      2: { change (child C' 0 j') with 0. change (child C 0 j') with 0. by rewrite !no_child. }
      destruct (decide (s = 11)%nat) as [->|]; [done|].
      by replace s with 12%nat by lia. }
  destruct js; [|cbn in Hq2; lia]. cbn [foldl]. unfold child. destruct (Z.eqb_spec (b !!! 10%nat) 0) as [E0|Hne].
  { rewrite decide_False; [done|]. intros [Hki _]. rewrite (Hka Hki) in E0. done. }
  unfold C'. destruct (decide (b !!! 10%nat = t)) as [Et|Et].
  - destruct (f_inj _ _ _ _ HF k i b a (10%nat, []) (10%nat, []) Hb Ha) as [-> _]; [apply valid_slot; lia..|exact Hne|exact Et|].
    rewrite Et, fn_lookup_insert. assert (length (C t) = BSIZE) as Hl by (apply (f_block _ _ _ _ HF); lia).
    destruct (decide (j' = j)) as [->|Hj'].
    + rewrite decide_True by done. rewrite get32_put32_same by (rewrite Hl; unfold BSIZE, NINDIRECT in *; lia).
      apply u32_small. unfold FSSIZE in *. lia.
    + rewrite decide_False by naive_solver. apply get32_put32_other; [rewrite Hl; unfold BSIZE, NINDIRECT in *; lia|lia].
  - rewrite fn_lookup_insert_ne by done. rewrite decide_False; [done|]. intros [Hki _]. by rewrite (Hka Hki) in Et.
Qed.

Lemma entry_forest : forest C' (fb + 1) A B.
Proof.
  pose proof table_range as Hr. rewrite nmeta_eq in Hr. apply (grow C' A i (10%nat, [j])); try done.
  - intros n Hn. unfold C'. destruct (decide (t = n)) as [<-|Hne]; [rewrite fn_lookup_insert|rewrite fn_lookup_insert_ne by done; by apply (f_block _ _ _ _ HF)].
    pose proof (f_block _ _ _ _ HF t Hn) as Hl. rewrite length_put32; [done|]. rewrite Hl. unfold BSIZE, NINDIRECT in *. lia.
  - intros n Hn. unfold C'. rewrite fn_lookup_insert_ne by lia. apply (f_zero _ _ _ _ HF). lia.
  - apply (f_addrs _ _ _ _ HF).
  - intros b Hb. rewrite Ha in Hb. injection Hb as <-. unfold node. cbn. unfold child. fold t. by rewrite (proj2 (Z.eqb_neq t 0)).
  - intros k b Hb. exists b. split; [done|]. intros q Hq. by apply entry_node.
  - intros k b n q Hb Hn Hq Hnz. unfold C'. rewrite fn_lookup_insert_ne; [done|]. intros E.
    destruct (route_some n Hn) as (q' & Hq' & Hv & Hlf). rewrite Hq in Hq'. injection Hq' as <-.
    destruct (f_inj _ _ _ _ HF i k a b (10%nat, []) q Ha Hb) as [_ <-]; [apply valid_slot; lia|done|exact Ht|exact E|done].
Qed.
End Entry.

(** ** Data *)
Section Data.
Context (i n : nat) (a bs bs' d : list Z) (q : loc) (Ha : A !! i = Some a) (Hbs : B !! i = Some bs).
Context (Hn : Z.of_nat n < MAXFILE) (Hq : route (Z.of_nat n) = Some q).
Let x : Z := node C a q.
Context (Hx : x <> 0) (Hd : length d = BSIZE).
Context (Hin : forall k c, bs' !! k = Some c -> (k / BSIZE)%nat = n -> d !! (k mod BSIZE)%nat = Some c).
Context (Hout : forall k c, bs' !! k = Some c -> (k / BSIZE)%nat <> n -> bs !! k = Some c).
Let C' : Z -> list Z := <[x := d]> C.

Lemma data_loc : valid_loc q /\ is_leaf q.
Proof. destruct (route_some (Z.of_nat n)) as (q' & E & Hv & Hl); [lia|]. rewrite Hq in E. by injection E as <-. Qed.

Lemma data_block_range : nmeta <= x < fb.
Proof. apply (f_range _ _ _ _ HF i a q Ha); [apply data_loc|done]. Qed.

Lemma data_node j b p : A !! j = Some b -> valid_loc p -> node C' b p = node C b p.
Proof.
  intros Hb Hp. apply node_ext; [done|]. intros p' Hp' Hlf Hnz. unfold C'. rewrite fn_lookup_insert_ne; [done|]. intros E.
  destruct data_loc as [Hv Hl]. destruct (f_inj _ _ _ _ HF i j a b q p' Ha Hb Hv Hp' Hx E) as [_ <-]. done.
Qed.

Lemma data_forest : forest C' fb A (<[i := bs']> B).
Proof.
  pose proof data_block_range as Hr. rewrite nmeta_eq in Hr. destruct data_loc as [Hv Hl]. destruct HF as [F1 F2 F3 F4 F5 F6 F7 F8]. split; try done.
  - by rewrite length_insert.
  - intros m Hm. unfold C'. destruct (decide (x = m)) as [<-|Hne]; [by rewrite fn_lookup_insert|rewrite fn_lookup_insert_ne by done; auto].
  - intros m Hm. unfold C'. rewrite fn_lookup_insert_ne by lia. auto.
  - intros j b p Hb Hp Hnz. rewrite (data_node j b p) in Hnz |- * by done. eauto.
  - intros j k b c p p' Hb Hc Hp Hp' Hnz E. rewrite (data_node j b p) in Hnz, E by done. rewrite (data_node k c p') in E by done. eauto.
  - intros j b cs k c Hb Hcs Hk.
    assert (Z.of_nat k / bsize = Z.of_nat (k / BSIZE)) as Ek by (unfold bsize; by rewrite Nat2Z.inj_div).
    (* a byte that was there before, in another block *)
    assert (forall cs0, B !! j = Some cs0 -> cs0 !! k = Some c -> (j = i -> (k / BSIZE)%nat <> n) ->
      exists p, route (Z.of_nat k / bsize) = Some p /\ node C' b p <> 0 /\ C' (node C' b p) !! (k mod BSIZE)%nat = Some c) as Hkeep.
    { intros cs0 Hcs0 Hk0 Hne. destruct (F8 j b cs0 k c Hb Hcs0 Hk0) as (p & Hp & Hnp & Hc). exists p.
      assert (valid_loc p) as Hvp by (eapply (route_valid _ p); [|exact Hp]; apply Z.div_pos; [lia|done]). rewrite (data_node j b p) by done. split_and!; [done|done|].
      unfold C'. rewrite fn_lookup_insert_ne; [done|]. intros E. destruct (F7 i j a b q p Ha Hb Hv Hvp Hx E) as [<- <-].
      apply (Hne eq_refl). rewrite Ek in Hp. pose proof (route_inj _ _ _ (Nat2Z.is_nonneg _) (Nat2Z.is_nonneg _) Hq Hp). lia. }
    destruct (decide (i = j)) as [<-|Hne].
    + rewrite list_lookup_insert_eq in Hcs by (by eapply lookup_lt_Some). injection Hcs as <-. rewrite Ha in Hb. injection Hb as <-.
      destruct (decide ((k / BSIZE)%nat = n)) as [Ekn|Hkn]; [|by apply (Hkeep bs); eauto].
      rewrite Ek, Ekn. exists q. rewrite (data_node i a q) by done. split_and!; [done|done|]. unfold C'. fold x. rewrite fn_lookup_insert. auto.
    + rewrite list_lookup_insert_ne in Hcs by done. apply (Hkeep cs); [done|done|]. intros ->. done.
Qed.
End Data.
End Forest.

(** ** How many blocks there are

    [N] are the numbers of data blocks of the files.  A file of more than ten
    blocks has an indirect block, too. *)
Definition SMALL : nat := NDIRECT + NINDIRECT.
Definition cost (n : nat) : nat := if (NDIRECT <? n)%nat then S n else n.

Record allotted (C : Z -> list Z) (fb : Z) (A : list (list Z)) (N : list nat) : Prop := {
  al_len : length N = length A;
  al_small : forall i n, N !! i = Some n -> (n <= SMALL)%nat;
  al_node : forall i a n m q, A !! i = Some a -> N !! i = Some n -> (m < SMALL)%nat -> route (Z.of_nat m) = Some q ->
    node C a q <> 0 <-> (m < n)%nat;
  al_table : forall i a n, A !! i = Some a -> N !! i = Some n -> a !!! NDIRECT <> 0 <-> (NDIRECT < n)%nat;
  al_count : fb = nmeta + Z.of_nat (sum_list (cost <$> N));
}.

Lemma sum_insert (l : list nat) i x y :
  l !! i = Some x -> (sum_list (<[i := y]> l) + x = sum_list l + y)%nat.
Proof.
  revert i. induction l as [|z l IH]; intros [|i] Hi; [done..| |].
  - injection Hi as ->. cbn. lia.
  - pose proof (IH i Hi). change (<[S i := y]> (z :: l)) with (z :: <[i := y]> l). cbn [sum_list_with]. lia.
Qed.

Lemma small_route m : (m < SMALL)%nat -> 0 <= Z.of_nat m < MAXFILE.
Proof. unfold SMALL, NDIRECT, NINDIRECT, MAXFILE, NTRIPINDIRECT, NDOUBINDIRECT. lia. Qed.

Lemma allot_grow C fb A N C' fb' A' i n q0 x :
  allotted C fb A N -> N !! i = Some n -> (n < SMALL)%nat -> route (Z.of_nat n) = Some q0 -> x <> 0 ->
  length A' = length A ->
  (forall j b', A' !! j = Some b' -> exists b, A !! j = Some b
     /\ (forall q, valid_loc q -> is_leaf q -> node C' b' q = if decide (j = i /\ q = q0) then x else node C b q)
     /\ (b' !!! NDIRECT <> 0 <-> b !!! NDIRECT <> 0 \/ (j = i /\ NDIRECT <= n)%nat)) ->
  fb' = fb + Z.of_nat (cost (S n)) - Z.of_nat (cost n) ->
  allotted C' fb' A' (<[i := S n]> N).
Proof.
  intros [L1 L2 L3 L4 L5] Hn Hsm Hq0 Hx Hlen Hnode Hfb. pose proof (lookup_lt_Some _ _ _ Hn) as Hi.
  assert (forall j m, <[i := S n]> N !! j = Some m -> exists m', N !! j = Some m' /\ (j = i -> m' = n /\ m = S n) /\ (j <> i -> m = m')) as HN.
  { intros j m Hm. destruct (decide (i = j)) as [<-|Hne].
    - rewrite list_lookup_insert_eq in Hm by done. injection Hm as <-. by exists n.
    - rewrite list_lookup_insert_ne in Hm by done. exists m. split_and!; [done|by intros ->|done]. }
  split.
  - by rewrite length_insert, Hlen.
  - intros j m Hm. destruct (HN j m Hm) as (m' & Hm' & E1 & E2). destruct (decide (j = i)) as [->|Hne]; [destruct E1; [done|lia]|].
    rewrite E2 by done. eauto.
  - intros j b' m' m q Hb' Hm' Hm Hq. destruct (Hnode j b' Hb') as (b & Hb & E & _). destruct (HN j m' Hm') as (m0 & Hm0 & E1 & E2).
    destruct (route_valid _ _ (Nat2Z.is_nonneg m) Hq) as [Hv Hl]. rewrite E by done. pose proof (L3 j b m0 m q Hb Hm0 Hm Hq) as Hold.
    destruct (decide (j = i /\ q = q0)) as [[-> ->]|Hd].
    + destruct E1 as [-> ->]; [done|]. pose proof (route_inj _ _ _ (Nat2Z.is_nonneg m) (Nat2Z.is_nonneg n) Hq Hq0). split; [lia|done].
    + rewrite Hold. destruct (decide (j = i)) as [->|Hne]; [|by rewrite E2].
      destruct E1 as [-> ->]; [done|]. assert (m <> n) by (intros ->; rewrite Hq in Hq0; naive_solver). lia.
  - intros j b' m' Hb' Hm'. destruct (Hnode j b' Hb') as (b & Hb & _ & E). destruct (HN j m' Hm') as (m0 & Hm0 & E1 & E2).
    rewrite E, (L4 j b m0 Hb Hm0). destruct (decide (j = i)) as [->|Hne]; [destruct E1 as [-> ->]; [done|lia]|].
    rewrite E2 by done. naive_solver.
  - rewrite Hfb, L5. rewrite list_fmap_insert.
    pose proof (sum_insert (cost <$> N) i (cost n) (cost (S n))) as Hsum. rewrite list_lookup_fmap, Hn in Hsum. specialize (Hsum eq_refl). lia.
Qed.

Section Allot.
Context (C : Z -> list Z) (fb : Z) (A B : list (list Z)) (N : list nat) (HF : forest C fb A B) (HA : allotted C fb A N).
Context (i : nat) (a : list Z) (Ha : A !! i = Some a) (Hfb : fb < FSSIZE).

Lemma fb_nonzero : fb <> 0.
Proof. pose proof (f_first _ _ _ _ HF). rewrite nmeta_eq in *. lia. Qed.

Lemma slot_allotted n :
  N !! i = Some n -> (n < NDIRECT)%nat -> a !!! n = 0 ->
  allotted C (fb + 1) (<[i := <[n := fb]> a]> A) (<[i := S n]> N).
Proof.
  intros Hn Hd H0. pose proof (lookup_lt_Some _ _ _ Ha) as Hi. unfold NDIRECT in Hd.
  assert (route (Z.of_nat n) = Some (n, [])) as Hq.
  { unfold route. rewrite (proj2 (Z.ltb_lt _ _)) by lia. by rewrite Nat2Z.id. }
  eapply (allot_grow C fb A N _ _ _ i n (n, []) fb HA Hn); [unfold SMALL, NDIRECT; lia|done|apply fb_nonzero|by rewrite length_insert| |].
  - intros j b' Hb'. destruct (decide (i = j)) as [<-|Hne].
    + rewrite list_lookup_insert_eq in Hb' by done. injection Hb' as <-. exists a. split_and!; [done|..].
      * intros q Hv _. rewrite (slot_node C fb A B HF i n a Ha ltac:(lia) H0 Hfb) by done.
        by destruct (decide (q = (n, []))); [rewrite decide_True|rewrite decide_False by tauto].
      * rewrite list_lookup_total_insert_ne by (unfold NDIRECT; lia). unfold NDIRECT. split; [tauto|]. intros [?|[_ ?]]; [done|lia].
    + rewrite list_lookup_insert_ne in Hb' by done. exists b'. split_and!; [done|..].
      * intros q _ _. by rewrite decide_False by naive_solver.
      * naive_solver.
  - unfold cost, NDIRECT. rewrite !(proj2 (Nat.ltb_ge _ _)) by lia. lia.
Qed.

Lemma entry_allotted n j :
  let t := a !!! NDIRECT in
  N !! i = Some n -> n = (NDIRECT + j)%nat -> (0 < j < NINDIRECT)%nat -> get32 (C t) (4 * j) = 0 ->
  allotted (<[t := put32 (C t) (4 * j) fb]> C) (fb + 1) A (<[i := S n]> N).
Proof.
  intros t Hn En Hj H0. unfold NDIRECT, NINDIRECT in *.
  assert (t <> 0) as Ht by (apply (al_table _ _ _ _ HA i a n Ha Hn); unfold NDIRECT; lia).
  assert (route (Z.of_nat n) = Some (10%nat, [j])) as Hq.
  { unfold route. rewrite (proj2 (Z.ltb_ge _ _)) by lia. rewrite (proj2 (Z.ltb_lt _ _)) by lia. do 3 f_equal. lia. }
  eapply (allot_grow C fb A N _ _ _ i n (10%nat, [j]) fb HA Hn); [unfold SMALL, NDIRECT, NINDIRECT; lia|done|apply fb_nonzero|done| |].
  - intros k b Hb. exists b. split_and!; [done|..].
    + intros q Hv _. apply (entry_node C fb A B HF i j a Ha); unfold NINDIRECT; done || lia.
    + split; [tauto|]. intros [?|[-> _]]; [done|]. rewrite Ha in Hb. by injection Hb as <-.
  - unfold cost, NDIRECT. rewrite !(proj2 (Nat.ltb_lt _ _)) by lia. lia.
Qed.

(** The indirect block and its first entry. *)
Lemma table_allotted :
  fb + 1 < FSSIZE -> N !! i = Some NDIRECT -> a !!! NDIRECT = 0 ->
  allotted (<[fb := put32 zeroes 0 (fb + 1)]> C) (fb + 1 + 1) (<[i := <[NDIRECT := fb]> a]> A) (<[i := S NDIRECT]> N).
Proof.
  intros Hfb1 Hn H0. pose proof (lookup_lt_Some _ _ _ Ha) as Hi. pose proof fb_nonzero as Hz. unfold NDIRECT in *.
  destruct (f_addrs _ _ _ _ HF i a Ha) as (Hl & _).
  pose proof (slot_forest C fb A B HF i 10 a Ha ltac:(lia) H0 Hfb) as HF1. set (a1 := <[10%nat := fb]> a) in *.
  assert (<[i := a1]> A !! i = Some a1) as Ha1 by (by rewrite list_lookup_insert_eq).
  assert (a1 !!! 10%nat = fb) as Et by (apply list_lookup_total_insert_eq; lia).
  assert (C fb = zeroes) as Ez by (apply (f_zero _ _ _ _ HF); lia).
  pose proof (entry_node C (fb + 1) _ B HF1 i 0 a1 Ha1 ltac:(unfold NINDIRECT; lia) Hfb1) as Hentry.
  rewrite Et, Ez in Hentry. specialize (Hentry Hz). change (4 * 0)%nat with 0%nat in Hentry.
  eapply (allot_grow C fb A N _ _ _ i 10 (10%nat, [0%nat]) (fb + 1) HA Hn);
    [unfold SMALL, NDIRECT, NINDIRECT; lia|done|pose proof (f_first _ _ _ _ HF1); rewrite nmeta_eq in *; lia|by rewrite length_insert| |].
  - intros j b' Hb'. destruct (decide (i = j)) as [<-|Hne].
    + rewrite Ha1 in Hb'. injection Hb' as <-. exists a. split_and!; [done|..].
      * intros q Hv Hlf. rewrite (Hentry i a1 q Ha1 Hv). destruct (decide _); [done|].
        unfold a1. rewrite (slot_node C fb A B HF i 10 a Ha ltac:(lia) H0 Hfb) by done. rewrite decide_False; [done|]. intros ->. done.
      * unfold NDIRECT. rewrite Et. split; [|done]. intros _. right. split; [done|lia].
    + pose proof Hb' as Hb. rewrite list_lookup_insert_ne in Hb by done. exists b'. split_and!; [done|..].
      * intros q Hv _. rewrite (Hentry j b' q Hb' Hv). done.
      * naive_solver.
  - unfold cost, NDIRECT. cbn. lia.
Qed.
End Allot.

(** ** The state of mkfs *)
Definition the_sb : superblock := mk_superblock FSSIZE nblocks NINODES nlog 2 (2 + nlog) (2 + nlog + ninodeblocks).
Definition super_block : list Z := splice 0 (superblock_bytes the_sb) zeroes.
Definition dinode_at (C : Z -> list Z) (inum : nat) : dinode :=
  get_dinode (C (Z.of_nat inum / IPB + sb_inodestart the_sb)) (inum mod 8)%nat.
Definition no_dinode : dinode := mk_dinode 0 0 0 0 0 (replicate 13 0).

(** The blocks of the log and of the free map. *)
Definition log_or_map (n : Z) : Prop := 2 <= n < sb_inodestart the_sb \/ is_map the_sb n.

(** Inode [i + 1] is [D !! i] on the disk. *)
Record disk (s : mkfs) (D : list dinode) (A B : list (list Z)) (N : list nat) : Prop := {
  dk_size : isize s = FSSIZE;
  dk_sb : sb s = the_sb;
  dk_super : img s 1 = super_block;
  dk_map : forall n, log_or_map n -> img s n = zeroes;
  dk_forest : forest (img s) (freeblock s) A B;
  dk_allot : allotted (img s) (freeblock s) A N;
  dk_inodes : forall i d, D !! i = Some d -> dinode_at (img s) (S i) = d;
  dk_free : forall k, (length D < k < 208)%nat -> dinode_at (img s) k = no_dinode;
  dk_next : freeinode s = Z.of_nat (S (length D)) /\ (length D < 208)%nat;
}.

Lemma xint_small x : 0 <= x < 2 ^ 32 -> xint x = x.
Proof. apply u32_le. Qed.

Lemma sector_small n : 0 <= n < FSSIZE -> sector n = n.
Proof.
  unfold sector, FSSIZE, BSIZE. intros Hn. rewrite u32_small by lia. by rewrite Z.div_mul.
Qed.

Lemma inode_block k : (k < 208)%nat -> 1 < Z.of_nat k / IPB + sb_inodestart the_sb < nmeta.
Proof.
  intros Hk. rewrite nmeta_eq. unfold IPB. change (sb_inodestart the_sb) with 32.
  pose proof (Z.div_pos (Z.of_nat k) 8). pose proof (Z.div_lt_upper_bound (Z.of_nat k) 8 26). lia.
Qed.

Lemma the_map n : is_map the_sb n <-> 58 <= n < 68.
Proof. unfold is_map. change (sb_bmapstart the_sb) with 58. change (nmap the_sb) with 10. lia. Qed.

Lemma log_or_map_eq n : log_or_map n <-> 2 <= n < 32 \/ 58 <= n < 68.
Proof. unfold log_or_map. rewrite the_map. done. Qed.

Lemma inode_no_map k : (k < 208)%nat -> ~ log_or_map (Z.of_nat k / IPB + sb_inodestart the_sb).
Proof.
  intros Hk. rewrite log_or_map_eq. unfold IPB. change (sb_inodestart the_sb) with 32. pose proof (Z.div_pos (Z.of_nat k) 8).
  pose proof (Z.div_lt_upper_bound (Z.of_nat k) 8 26). lia.
Qed.

Lemma disk_keep s s' D A B N A' B' N' :
  disk s D A B N -> isize s' = FSSIZE -> sb s' = sb s -> freeinode s' = freeinode s ->
  (forall n, 0 <= n < nmeta -> img s' n = img s n) ->
  forest (img s') (freeblock s') A' B' -> allotted (img s') (freeblock s') A' N' -> (length D <= 207)%nat ->
  disk s' D A' B' N'.
Proof.
  intros [] Es Eb Ei Hm HF HA Hl. split; try done; try congruence.
  - rewrite Hm; [done|]. rewrite nmeta_eq. lia.
  - intros n Hn. rewrite Hm; [auto|]. pose proof (proj1 (log_or_map_eq n) Hn). rewrite nmeta_eq. lia.
  - intros i d Hd. rewrite <- (dk_inodes0 i d Hd). unfold dinode_at. rewrite Hm; [done|].
    pose proof (lookup_lt_Some _ _ _ Hd). pose proof (inode_block (S i)). lia.
  - intros k Hk. rewrite <- (dk_free0 k Hk). unfold dinode_at. rewrite Hm; [done|]. pose proof (inode_block k). lia.
Qed.

Lemma next_block_ok s : next_block s = Ok (freeblock s) { s with freeblock := u32 (freeblock s + 1) }.
Proof. done. Qed.

Lemma rsect_ok s n : isize s = FSSIZE -> 0 <= n < FSSIZE -> rsect n s = Ok (img s n) s.
Proof. intros Es Hn. unfold rsect. msimpl. rewrite sector_small, Es by done. by rewrite (proj2 (Z.ltb_lt _ _)) by lia. Qed.

Lemma wsect_ok s n d :
  isize s = FSSIZE -> 0 <= n < FSSIZE -> wsect n d s = Ok tt { s with img := <[n := d]> (img s) }.
Proof.
  intros Es Hn. unfold wsect. msimpl. rewrite sector_small by done. destruct s as [c z b fi f]. cbn in *. subst z.
  by rewrite Z.max_r by lia.
Qed.

(** A table with an entry for the block, or without one. *)
Lemma entry_there s C a din t j :
  isize s = FSSIZE -> img s = C -> d_addrs din = a -> a !!! NDIRECT = t -> 0 < t < FSSIZE -> (j < NINDIRECT)%nat ->
  get32 (C t) (4 * j) <> 0 -> 0 <= get32 (C t) (4 * j) < FSSIZE ->
  entry_of din j s = Ok (din, get32 (C t) (4 * j)) s.
Proof.
  intros Es <- <- <- Ht Hj Hn Hr. unfold entry_of. rewrite xint_small by (unfold FSSIZE in *; lia).
  erewrite bind_ok by (apply rsect_ok; [done|lia]). rewrite (proj2 (Nat.ltb_lt _ _)) by done. cbn [negb].
  rewrite (proj2 (Z.eqb_neq _ _)) by done. cbn match. erewrite bind_ok by reflexivity.
  by rewrite xint_small by (unfold FSSIZE in *; lia).
Qed.

Lemma entry_new s C a din t j fb :
  isize s = FSSIZE -> img s = C -> d_addrs din = a -> a !!! NDIRECT = t -> 0 < t < FSSIZE -> (j < NINDIRECT)%nat ->
  length (C t) = BSIZE -> get32 (C t) (4 * j) = 0 -> freeblock s = fb -> 0 <= fb < FSSIZE ->
  entry_of din j s = Ok (din, fb) { s with img := <[t := put32 (C t) (4 * j) fb]> C; freeblock := fb + 1 }.
Proof.
  intros Es <- <- <- Ht Hj Hl Hn <- Hr. unfold entry_of. rewrite xint_small by (unfold FSSIZE in *; lia).
  erewrite bind_ok by (apply rsect_ok; [done|lia]). rewrite (proj2 (Nat.ltb_lt _ _)) by done. cbn [negb].
  rewrite Hn. change (0 =? 0) with true. cbn match.
  erewrite bind_ok. 2: { erewrite bind_ok by apply next_block_ok. rewrite xint_small, u32_small by (unfold FSSIZE in *; lia).
    erewrite bind_ok by (apply wsect_ok; [done|lia]). reflexivity. }
  rewrite get32_put32_same by (rewrite Hl; unfold BSIZE, NINDIRECT in *; lia). rewrite u32_small, xint_small by (unfold FSSIZE in *; lia). done.
Qed.

Section Find.
Context (s : mkfs) (D : list dinode) (A B : list (list Z)) (N : list nat) (HD : disk s D A B N).
Context (i fbn : nat) (a : list Z) (din : dinode) (Ha : A !! i = Some a) (Hdin : d_addrs din = a) (Hsm : (fbn < SMALL)%nat).

(** The block of the file is found, or given to it. *)
Definition found (r : result mkfs (dinode * Z)) (N' : list nat) : Prop :=
  exists s' a' x q, r = Ok ({ din with d_addrs := a' }, x) s' /\ disk s' D (<[i := a']> A) B N'
    /\ route (Z.of_nat fbn) = Some q /\ x = node (img s') a' q /\ x <> 0.

Lemma found_here r q :
  route (Z.of_nat fbn) = Some q -> node (img s) a q <> 0 -> r = Ok (din, node (img s) a q) s -> found r N.
Proof.
  intros Hq Hn ->. exists s, a, (node (img s) a q), q. split_and!; [|by rewrite list_insert_id|done..].
  subst a. by destruct din.
Qed.

Lemma direct_found n :
  N !! i = Some n -> (fbn < NDIRECT)%nat -> n = fbn \/ n = S fbn -> freeblock s < FSSIZE ->
  found (direct_block din fbn s) (<[i := S fbn]> N).
Proof.
  intros Hn Hd Hor Hfb. pose proof (dk_forest _ _ _ _ _ HD) as HF. pose proof (dk_allot _ _ _ _ _ HD) as HA.
  assert (route (Z.of_nat fbn) = Some (fbn, [])) as Hq.
  { unfold route. rewrite (proj2 (Z.ltb_lt _ _)) by (unfold NDIRECT in *; lia). by rewrite Nat2Z.id. }
  pose proof (al_node _ _ _ _ HA i a n fbn _ Ha Hn Hsm Hq) as Hnode. unfold node in Hnode. cbn in Hnode.
  destruct (f_addrs _ _ _ _ HF i a Ha) as (Hl & _). pose proof (f_first _ _ _ _ HF). rewrite nmeta_eq in *.
  unfold direct_block. rewrite Hdin. destruct Hor as [En|En].
  - assert (a !!! fbn = 0) as E0 by (destruct (decide (a !!! fbn = 0)) as [|Hz]; [done|]; apply Hnode in Hz; lia).
    rewrite E0. change (xint 0 =? 0) with true. cbn match.
    erewrite bind_ok by (erewrite bind_ok by apply next_block_ok; reflexivity).
    rewrite xint_small, u32_small by (unfold FSSIZE in *; lia).
    exists { s with freeblock := freeblock s + 1 }, (<[fbn := freeblock s]> a), (freeblock s), (fbn, []).
    split_and!; [|apply (disk_keep s _ D A B N); try done|exact Hq|unfold node; cbn|lia].
    + subst a. unfold NDIRECT in *. unfold mret, M_ret. do 2 f_equal. cbn. rewrite list_lookup_total_insert_eq by lia. apply xint_small. unfold FSSIZE in *. lia.
    + apply HD.
    + apply slot_forest; try done. unfold NDIRECT in *. lia.
    + subst n. by apply (slot_allotted _ _ _ B).
    + pose proof (dk_next _ _ _ _ _ HD). lia.
    + rewrite list_lookup_total_insert_eq; [done|]. unfold NDIRECT in *. lia.
  - assert (a !!! fbn <> 0) as E0 by (apply Hnode; lia).
    pose proof (f_range _ _ _ _ HF i a (fbn, []) Ha (valid_slot fbn ltac:(unfold NDIRECT in *; lia)) E0) as Hr. unfold node in Hr. cbn [fst snd foldl] in Hr. rewrite nmeta_eq in Hr.
    rewrite xint_small by (unfold FSSIZE in *; lia). rewrite (proj2 (Z.eqb_neq _ _)) by done. cbn match.
    erewrite bind_ok by reflexivity. rewrite Hdin, xint_small by (unfold FSSIZE in *; lia).
    rewrite list_insert_id by (by rewrite Hn, En). by apply (found_here _ (fbn, [])).
Qed.

Lemma indirect_route : (NDIRECT <= fbn)%nat -> route (Z.of_nat fbn) = Some (10%nat, [(fbn - NDIRECT)%nat]).
Proof.
  unfold SMALL, NDIRECT, NINDIRECT in *. intros Hd. unfold route. rewrite (proj2 (Z.ltb_ge _ _)) by lia.
  rewrite (proj2 (Z.ltb_lt _ _)) by lia. do 3 f_equal. lia.
Qed.

Lemma indirect_found n :
  N !! i = Some n -> (NDIRECT <= fbn)%nat -> n = fbn \/ n = S fbn ->
  freeblock s + Z.of_nat (cost (S fbn)) - Z.of_nat (cost n) <= FSSIZE ->
  found (indirect_block din fbn s) (<[i := S fbn]> N).
Proof.
  intros Hn Hd Hor Hfb. pose proof (dk_forest _ _ _ _ _ HD) as HF. pose proof (dk_allot _ _ _ _ _ HD) as HA.
  pose proof (indirect_route Hd) as Hq. destruct (Nat.le_exists_sub NDIRECT fbn Hd) as (j & Ej & _).
  assert (j < NINDIRECT)%nat as Hj by (unfold SMALL in *; lia). replace (fbn - NDIRECT)%nat with j in Hq by lia.
  pose proof (al_node _ _ _ _ HA i a n fbn _ Ha Hn Hsm Hq) as Hnode. pose proof (al_table _ _ _ _ HA i a n Ha Hn) as Htab.
  destruct (f_addrs _ _ _ _ HF i a Ha) as (Hl & _). pose proof (f_first _ _ _ _ HF). rewrite nmeta_eq in *.
  pose proof (dk_size _ _ _ _ _ HD) as Es. pose proof (dk_next _ _ _ _ _ HD) as [_ Hdk].
  unfold indirect_block. rewrite Hdin. replace (fbn - NDIRECT)%nat with j by lia.
  destruct (decide (n = NDIRECT)) as [En|Hne].
  - assert (fbn = NDIRECT) as Ef by lia. assert (j = 0)%nat as E by lia. rewrite E in *. clear E.
    assert (a !!! NDIRECT = 0) as E0 by (destruct (decide (a !!! NDIRECT = 0)) as [|Hz]; [done|]; apply Htab in Hz; lia).
    assert (freeblock s + 1 < FSSIZE) as Hfb1 by (rewrite En, Ef in Hfb; cbn in Hfb; lia).
    assert (img s (freeblock s) = zeroes) as Ez by (apply (f_zero _ _ _ _ HF); lia).
    pose proof (slot_forest _ _ _ _ HF i NDIRECT a Ha ltac:(unfold NDIRECT; lia) E0 ltac:(lia)) as HF1. set (a1 := <[NDIRECT := freeblock s]> a) in *.
    pose proof (lookup_lt_Some _ _ _ Ha) as Hi.
    assert (<[i := a1]> A !! i = Some a1) as Ha1 by (by rewrite list_lookup_insert_eq).
    assert (a1 !!! NDIRECT = freeblock s) as Et by (apply list_lookup_total_insert_eq; unfold NDIRECT; lia).
    pose proof (entry_node _ _ _ _ HF1 i 0 a1 Ha1 Hj Hfb1) as Hentry. pose proof (entry_forest _ _ _ _ HF1 i 0 a1 Ha1 Hj Hfb1) as HF2.
    change 10%nat with NDIRECT in Hentry, HF2. rewrite Et in Hentry, HF2. rewrite Ez in HF2 at 1.
    specialize (HF2 ltac:(lia) (get32_zeros _ _)). specialize (Hentry ltac:(lia)).
    rewrite E0. change (xint 0 =? 0) with true. cbn match.
    erewrite bind_ok by (erewrite bind_ok by apply next_block_ok; reflexivity).
    rewrite xint_small, u32_small by (unfold FSSIZE in *; lia).
    rewrite (entry_new _ (img s) a1 _ (freeblock s) 0 (freeblock s + 1));
      [|first [done | lia | cbn; by rewrite Hdin | by rewrite Ez | rewrite Ez; apply get32_zeros]..].
    eexists _, a1, (freeblock s + 1), (10%nat, [0%nat]). split_and!; [subst a; reflexivity| |done| |lia].
    + eapply (disk_keep s _ D A B N); try done.
      * intros m Hm. cbn. rewrite fn_lookup_insert_ne; [done|]. rewrite nmeta_eq in Hm. lia.
      * cbn. rewrite Ez, Ef. apply (table_allotted _ _ _ B); try done; [lia|by rewrite Hn, En].
      * lia.
    + cbn [img]. symmetry. etrans; [apply (Hentry i a1); [done|by apply valid_entry]|by rewrite decide_True].
  - assert (a !!! NDIRECT <> 0) as Ht by (apply Htab; lia).
    assert (68 <= a !!! NDIRECT < freeblock s) as Hr.
    { apply (f_range _ _ _ _ HF i a (10%nat, []) Ha); [apply valid_slot; lia|done]. }
    unfold cost in Hfb. rewrite !(proj2 (Nat.ltb_lt _ _)) in Hfb by lia.
    assert (node (img s) a (10%nat, [j]) = get32 (img s (a !!! NDIRECT)) (4 * j)) as Eg.
    { unfold node. cbn [fst snd foldl]. unfold child. by rewrite (proj2 (Z.eqb_neq (a !!! 10%nat) 0)). }
    assert (length (img s (a !!! NDIRECT)) = BSIZE) as Hlt by (apply (f_block _ _ _ _ HF); lia).
    rewrite xint_small by (unfold FSSIZE in *; lia). rewrite (proj2 (Z.eqb_neq _ _)) by done. cbn match.
    erewrite bind_ok by reflexivity. rewrite Eg in Hnode. destruct Hor as [E|E].
    + assert (get32 (img s (a !!! NDIRECT)) (4 * j) = 0) as Hz
        by (destruct (decide (get32 (img s (a !!! NDIRECT)) (4 * j) = 0)) as [|Hz]; [done|]; apply Hnode in Hz; lia).
      rewrite (entry_new s (img s) a din (a !!! NDIRECT) j (freeblock s)); [|first [done | lia]..].
      pose proof (entry_node _ _ _ _ HF i j a Ha Hj ltac:(lia) Ht) as Hentry. pose proof (entry_forest _ _ _ _ HF i j a Ha Hj ltac:(lia) Ht Hz) as HF2.
      assert ({ din with d_addrs := a } = din) as Ed by (subst a; by destruct din).
      eexists _, a, (freeblock s), (10%nat, [j]). split_and!; [rewrite Ed; reflexivity| |done| |lia].
      * rewrite list_insert_id by done. eapply (disk_keep s _ D A B N); try done; [..|lia].
        -- intros m Hm. cbn. rewrite fn_lookup_insert_ne; [done|]. rewrite nmeta_eq in Hm.
           unfold NDIRECT in *. lia.
        -- cbn. rewrite <- E. apply (entry_allotted _ _ _ B); try done; lia.
      * symmetry. etrans; [apply (Hentry i a); [done|by apply valid_entry]|by rewrite decide_True].
    + assert (get32 (img s (a !!! NDIRECT)) (4 * j) <> 0) as Hnz by (apply Hnode; lia).
      pose proof (f_range _ _ _ _ HF i a (10%nat, [j]) Ha (valid_entry j Hj)) as Hr2. rewrite Eg, nmeta_eq in Hr2. specialize (Hr2 Hnz).
      rewrite list_insert_id by (by rewrite Hn, E). apply (found_here _ (10%nat, [j])); [done|by rewrite Eg|]. rewrite Eg.
      apply (entry_there s (img s) a); try done; lia.
Qed.
End Find.

(** ** Appending *)
Definition ceil (len : nat) : nat := ((len + 511) / 512)%nat.

Lemma ceil_cases len : (ceil len = len / 512 /\ len mod 512 = 0 \/ ceil len = S (len / 512) /\ 0 < len mod 512)%nat.
Proof.
  unfold ceil. pose proof (Nat.div_mod_eq len 512) as E. pose proof (Nat.mod_upper_bound len 512 ltac:(lia)).
  set (q := (len / 512)%nat) in *. set (r := (len mod 512)%nat) in *.
  destruct (decide (r = 0)%nat); [left|right]; (split; [|lia]); symmetry.
  - apply (Nat.div_unique _ _ _ 511); lia.
  - apply (Nat.div_unique _ _ _ (r - 1)); lia.
Qed.

Lemma ceil_same len n1 : (0 < n1 -> len mod 512 + n1 <= 512 -> ceil (len + n1) = S (len / 512))%nat.
Proof.
  intros H1 H2. unfold ceil. pose proof (Nat.div_mod_eq len 512) as E. symmetry.
  apply (Nat.div_unique _ _ _ (len mod 512 + n1 - 1)); lia.
Qed.

Lemma ceil_mono m n : (m <= n)%nat -> (ceil m <= ceil n)%nat.
Proof. intros H. unfold ceil. apply Nat.Div0.div_le_mono. lia. Qed.
Lemma cost_mono m n : (m <= n)%nat -> (cost m <= cost n)%nat.
Proof. intros H. unfold cost. destruct (Nat.ltb_spec NDIRECT m), (Nat.ltb_spec NDIRECT n); lia. Qed.

Lemma allotted_ext C C' fb A N :
  (forall j b q, A !! j = Some b -> valid_loc q -> node C' b q = node C b q) ->
  allotted C fb A N -> allotted C' fb A N.
Proof.
  intros Hn [L1 L2 L3 L4 L5]. split; try done. intros i a n m q Ha HN Hm Hq. rewrite (Hn i a q Ha); [by eapply L3|].
  by apply (route_valid _ _ (Nat2Z.is_nonneg m) Hq).
Qed.

Section Append.
Context (i : nat).

(** A piece that ends in the block it starts in. *)
Lemma piece_in C fb A B a bs p1 q x :
  forest C fb A B -> A !! i = Some a -> B !! i = Some bs -> route (Z.of_nat (length bs / 512)) = Some q -> node C a q = x ->
  length (C x) = BSIZE -> (length bs mod 512 + length p1 <= 512)%nat ->
  let d := splice (length bs mod 512) p1 (C x) in
  (forall k c, (bs ++ p1) !! k = Some c -> (k / BSIZE)%nat = (length bs / 512)%nat -> d !! (k mod BSIZE)%nat = Some c)
  /\ (forall k c, (bs ++ p1) !! k = Some c -> (k / BSIZE)%nat <> (length bs / 512)%nat -> bs !! k = Some c).
Proof.
  intros HF Ha Hbs Hq Hx Hl Hp d. change BSIZE with 512%nat in *.
  pose proof (Nat.div_mod_eq (length bs) 512) as E. pose proof (Nat.mod_upper_bound (length bs) 512 ltac:(lia)) as Hm.
  split; intros k c Hk Hd; pose proof (Nat.div_mod_eq k 512) as Ek; pose proof (Nat.mod_upper_bound k 512 ltac:(lia)) as Hmk.
  - rewrite lookup_app in Hk. destruct (bs !! k) as [c'|] eqn:Ebs.
    + injection Hk as ->. pose proof (lookup_lt_Some _ _ _ Ebs) as Hlt.
      destruct (f_cont _ _ _ _ HF i a bs k c Ha Hbs Ebs) as (q' & Hq' & _ & Hc). change BSIZE with 512%nat in Hc.
      assert (Z.of_nat k / bsize = Z.of_nat (k / 512)) as E' by (unfold bsize; by rewrite Nat2Z.inj_div).
      rewrite E', Hd, Hq in Hq'. injection Hq' as <-. rewrite Hx in Hc. unfold d. rewrite lookup_splice_out; [done|rewrite Hl; lia|lia].
    + apply lookup_ge_None in Ebs. pose proof (lookup_lt_Some _ _ _ Hk).
      unfold d. rewrite lookup_splice_in; [|rewrite Hl; lia|lia]. rewrite <- Hk. f_equal. lia.
  - rewrite lookup_app in Hk. destruct (bs !! k) as [c'|] eqn:Ebs; [done|].
    apply lookup_ge_None in Ebs. pose proof (lookup_lt_Some _ _ _ Hk). destruct Hd.
    symmetry. apply (Nat.div_unique _ _ _ (k - 512 * (length bs / 512))); lia.
Qed.

(** One round of the loop. *)
Lemma round_ok s D A B N a bs din p1 :
  disk s D A B N -> A !! i = Some a -> B !! i = Some bs -> N !! i = Some (ceil (length bs)) -> d_addrs din = a ->
  (0 < length p1)%nat -> (length bs mod 512 + length p1 <= 512)%nat -> (length bs + length p1 <= SMALL * 512)%nat ->
  freeblock s + Z.of_nat (cost (S (length bs / 512))) - Z.of_nat (cost (ceil (length bs))) < FSSIZE ->
  let fbn := (length bs / 512)%nat in
  exists s1 a' x, (if Z.of_nat fbn <? Z.of_nat NDIRECT then direct_block din fbn else indirect_block din fbn) s
      = Ok ({ din with d_addrs := a' }, x) s1
    /\ rsect x s1 = Ok (img s1 x) s1
    /\ exists s2, wsect x (splice (length bs mod 512) p1 (img s1 x)) s1 = Ok tt s2
    /\ disk s2 D (<[i := a']> A) (<[i := bs ++ p1]> B) (<[i := ceil (length (bs ++ p1))]> N).
Proof.
  intros HD Ha Hbs HN Hdin Hp0 Hp1 Hsm Hfb fbn. fold fbn in Hfb.
  assert (fbn < SMALL)%nat as Hf by (apply Nat.Div0.div_lt_upper_bound; lia).
  assert (ceil (length bs) = fbn \/ ceil (length bs) = S fbn) as Hor by (destruct (ceil_cases (length bs)) as [[? _]|[? _]]; auto).
  assert (cost (ceil (length bs)) <= cost (S fbn))%nat by (apply cost_mono; destruct Hor; lia).
  assert (found D A B i fbn din ((if Z.of_nat fbn <? Z.of_nat NDIRECT then direct_block din fbn else indirect_block din fbn) s) (<[i := S fbn]> N)) as Hfd.
  { destruct (Z.ltb_spec (Z.of_nat fbn) (Z.of_nat NDIRECT)).
    - eapply direct_found; try done; lia.
    - eapply indirect_found; try done; try lia. }
  destruct Hfd as (s1 & a' & x & q & E & HD1 & Hq & Ex & Hx). exists s1, a', x. pose proof (dk_forest _ _ _ _ _ HD1) as HF1.
  assert (<[i := a']> A !! i = Some a') as Ha' by (apply list_lookup_insert_eq; by eapply lookup_lt_Some).
  destruct (route_valid _ _ (Nat2Z.is_nonneg fbn) Hq) as [Hv _].
  assert (68 <= x < freeblock s1) as Hr. { rewrite Ex in *. by apply (f_range _ _ _ _ HF1 i a' q). }
  assert (freeblock s1 <= FSSIZE) as Hfs.
  { rewrite (al_count _ _ _ _ (dk_allot _ _ _ _ _ HD1)). rewrite (al_count _ _ _ _ (dk_allot _ _ _ _ _ HD)) in Hfb.
    rewrite list_fmap_insert. pose proof (sum_insert (cost <$> N) i (cost (ceil (length bs))) (cost (S fbn))) as Hs.
    rewrite list_lookup_fmap, HN in Hs. specialize (Hs eq_refl). lia. }
  pose proof (dk_size _ _ _ _ _ HD1) as Es1. assert (length (img s1 x) = BSIZE) as Hlx by (apply (f_block _ _ _ _ HF1); lia).
  split_and!; [done|apply rsect_ok; [done|lia]|]. eexists. split; [apply wsect_ok; [done|lia]|].
  destruct (piece_in _ _ _ _ a' bs p1 q x HF1 Ha' Hbs Hq (eq_sym Ex) Hlx Hp1) as [Hin Hout].
  assert (length (splice (length bs mod 512) p1 (img s1 x)) = BSIZE) as Hld by (rewrite length_splice; rewrite Hlx; [done|unfold BSIZE; lia]).
  pose proof (small_route fbn Hf) as Hmax. rewrite length_app, ceil_same by done. fold fbn. rewrite Ex in *.
  eapply (disk_keep s1 _ D _ B (<[i := S fbn]> N)); try done.
  - intros m Hm. cbn. rewrite fn_lookup_insert_ne; [done|]. rewrite nmeta_eq in Hm. lia.
  - apply (data_forest _ _ _ _ HF1 i fbn a' bs); try done; lia.
  - eapply allotted_ext; [|apply HD1]. intros j b p Hb Hp. apply (data_node _ _ _ _ HF1 i fbn a' (splice (length bs mod 512) p1 (img s1 (node (img s1) a' q))) q Ha' ltac:(lia) Hq Hx Hld j b p Hb Hp).
  - pose proof (dk_next _ _ _ _ _ HD1). lia.
Qed.

(** The numbers of the loop. *)
Lemma loop_numbers (len n : nat) :
  (0 < n)%nat ->
  let n1 := Nat.min n (512 - len mod 512) in
  Z.of_nat len / Z.of_nat BSIZE = Z.of_nat (len / 512)
  /\ Z.min (Z.of_nat n) ((Z.of_nat (len / 512) + 1) * Z.of_nat BSIZE - Z.of_nat len) = Z.of_nat n1
  /\ Z.of_nat len - Z.of_nat (len / 512) * Z.of_nat BSIZE = Z.of_nat (len mod 512)
  /\ (0 < n1 <= n)%nat /\ (len mod 512 + n1 <= 512)%nat.
Proof.
  intros Hn n1. change BSIZE with 512%nat. pose proof (Nat.div_mod_eq len 512). pose proof (Nat.mod_upper_bound len 512 ltac:(lia)).
  split_and!; [by rewrite Nat2Z.inj_div|lia..].
Qed.

Lemma append_loop_ok fuel s D A B N a bs din p :
  disk s D A B N -> A !! i = Some a -> B !! i = Some bs -> N !! i = Some (ceil (length bs)) -> d_addrs din = a ->
  (length bs + length p <= SMALL * 512)%nat -> (length p < fuel)%nat ->
  freeblock s + Z.of_nat (cost (ceil (length bs + length p))) - Z.of_nat (cost (ceil (length bs))) < FSSIZE ->
  exists s' a', append_loop din (Z.of_nat (length bs)) p fuel s = Ok ({ din with d_addrs := a' }, Z.of_nat (length bs + length p)) s'
    /\ disk s' D (<[i := a']> A) (<[i := bs ++ p]> B) (<[i := ceil (length bs + length p)]> N).
Proof.
  revert s A B N a bs din p. induction fuel as [|fuel IH]; intros s A B N a bs din p HD Ha Hbs HN Hdin Hsm Hf Hfb; [lia|].
  destruct p as [|c p]; [|set (p0 := c :: p) in *].
  { exists s, a. cbn [append_loop length]. rewrite Nat.add_0_r, app_nil_r, !list_insert_id by done. split; [|done]. subst a. by destruct din. }
  assert (0 < length p0)%nat as Hp0 by (cbn; lia). destruct (loop_numbers (length bs) (length p0) Hp0) as (E1 & E2 & E3 & Hn1 & Hm).
  set (n1 := Nat.min (length p0) (512 - length bs mod 512)) in *.
  assert (length (take n1 p0) = n1) as Hl1 by (rewrite length_take; lia).
  assert (length bs / 512 < SMALL)%nat as Hfbn by (apply Nat.Div0.div_lt_upper_bound; lia).
  assert (S (length bs / 512) <= ceil (length bs + length p0))%nat as Hce.
  { rewrite <- (ceil_same (length bs) n1) by lia. apply ceil_mono. lia. }
  pose proof (cost_mono _ _ Hce). pose proof (small_route _ Hfbn) as Hmax.
  destruct (round_ok s D A B N a bs din (take n1 p0)) as (s1 & a1 & x & Er & Ers & s2 & Ews & HD2); try done; [lia|lia|lia|lia|].
  assert (append_loop din (Z.of_nat (length bs)) p0 (S fuel) s
    = append_loop { din with d_addrs := a1 } (Z.of_nat (length (bs ++ take n1 p0))) (drop n1 p0) fuel s2) as ->.
  { unfold p0. cbn [append_loop]. fold p0. rewrite E1, (proj2 (Z.ltb_lt _ _)) by lia. cbn [negb].
    rewrite Nat2Z.id. erewrite bind_ok by exact Er. rewrite E2, E3, !Nat2Z.id. erewrite bind_ok by exact Ers.
    erewrite bind_ok by exact Ews. do 2 f_equal. rewrite length_app, Hl1. lia. }
  assert (length (bs ++ take n1 p0) + length (drop n1 p0) = length bs + length p0)%nat as El by (rewrite length_app, length_drop; lia).
  destruct (IH s2 _ _ _ a1 (bs ++ take n1 p0) { din with d_addrs := a1 } (drop n1 p0) HD2) as (s' & a' & E & HD').
  - apply list_lookup_insert_eq. by eapply lookup_lt_Some.
  - apply list_lookup_insert_eq. by eapply lookup_lt_Some.
  - apply list_lookup_insert_eq. by eapply lookup_lt_Some.
  - done.
  - lia.
  - rewrite length_drop. lia.
  - rewrite El. rewrite (al_count _ _ _ _ (dk_allot _ _ _ _ _ HD2)). rewrite (al_count _ _ _ _ (dk_allot _ _ _ _ _ HD)) in Hfb.
    rewrite list_fmap_insert. pose proof (sum_insert (cost <$> N) i (cost (ceil (length bs))) (cost (ceil (length (bs ++ take n1 p0))))) as Hs.
    rewrite list_lookup_fmap, HN in Hs. specialize (Hs eq_refl). lia.
  - exists s', a'. rewrite E, El in *. split; [done|]. rewrite <- (assoc_L (++)), take_drop in HD'. by rewrite !list_insert_insert_eq in HD'.
Qed.
End Append.

(** ** Inodes on the disk *)
Lemma get_put_dinode_other d k k' x :
  length d = BSIZE -> (k < 8)%nat -> (k' < 8)%nat -> k <> k' -> length (d_addrs x) = 13%nat ->
  get_dinode (put_dinode d k x) k' = get_dinode d k'.
Proof.
  intros Hd Hk Hk' Hne Hx. pose proof (length_dinode x Hx) as Hl.
  assert (forall i n, (i + n <= 64)%nat -> slice (64 * k' + i) n (put_dinode d k x) = slice (64 * k' + i) n d) as Hs.
  { intros i n Hi. unfold put_dinode. apply slice_splice_disjoint; rewrite Hl; unfold BSIZE in *; lia. }
  unfold get_dinode, get16, get32. cbv zeta. rewrite <- (Nat.add_0_r (64 * k')) at 1 6. rewrite !Hs by lia. f_equal.
  apply list_fmap_ext. intros j y Hj. apply lookup_seq in Hj as [-> Hj]. unfold NDIRECT in Hj. rewrite <- !Nat.add_assoc. rewrite Hs by lia. done.
Qed.

Lemma forest_meta C C' fb A B N :
  (forall n, nmeta <= n -> C' n = C n) -> (forall n, 0 <= n < FSSIZE -> length (C' n) = BSIZE) ->
  forest C fb A B -> allotted C fb A N -> forest C' fb A B /\ allotted C' fb A N.
Proof.
  intros HC Hl HF HA.
  assert (forall j b q, A !! j = Some b -> valid_loc q -> node C' b q = node C b q) as Hn.
  { intros j b q Hb Hq. apply node_ext; [done|]. intros p Hp _ Hnz. apply HC. by apply (f_range _ _ _ _ HF j b p). }
  split; [|by eapply allotted_ext]. destruct HF as [F1 F2 F3 F4 F5 F6 F7 F8]. split; try done.
  - intros n Hr. rewrite HC by lia. auto.
  - intros j b q Hb Hq Hnz. rewrite (Hn j b q) in Hnz |- * by done. eauto.
  - intros j k b c q q' Hb Hc Hq Hq' Hnz E. rewrite (Hn j b q) in Hnz, E by done. rewrite (Hn k c q') in E by done. eauto.
  - intros j b bs k c Hb Hbs Hk. destruct (F8 j b bs k c Hb Hbs Hk) as (q & Hq & Hnz & Hc). exists q.
    assert (valid_loc q) as Hv by (eapply (route_valid _ q); [|exact Hq]; apply Z.div_pos; [lia|done]).
    rewrite (Hn j b q) by done. rewrite HC by (by eapply F6). done.
Qed.

Lemma inode_slot k : Z.to_nat (Z.of_nat k mod IPB) = (k mod 8)%nat.
Proof. unfold IPB. change 8 with (Z.of_nat 8). by rewrite <- Nat2Z.inj_mod, Nat2Z.id. Qed.

Section Access.
Context (s : mkfs) (Hsb : sb s = the_sb) (Hsize : isize s = FSSIZE).

Lemma mk_IBLOCK_eq k : (k < 208)%nat -> IBLOCK (Z.of_nat k) (sb s) = Z.of_nat k / IPB + sb_inodestart the_sb.
Proof.
  intros Hk. rewrite Hsb. unfold IBLOCK. pose proof (inode_block k Hk). rewrite nmeta_eq in *. apply u32_small. lia.
Qed.

Lemma rinode_ok k : (k < 208)%nat -> rinode (Z.of_nat k) s = Ok (dinode_at (img s) k) s.
Proof.
  intros Hk. pose proof (inode_block k Hk) as Hb. rewrite nmeta_eq in Hb. unfold rinode. erewrite bind_ok by reflexivity.
  rewrite mk_IBLOCK_eq, inode_slot by done. erewrite bind_ok by (apply rsect_ok; [done|unfold FSSIZE; lia]). done.
Qed.

Lemma winode_ok k d :
  (k < 208)%nat ->
  let b := Z.of_nat k / IPB + sb_inodestart the_sb in
  winode (Z.of_nat k) d s = Ok tt { s with img := <[b := put_dinode (img s b) (k mod 8) d]> (img s) }.
Proof.
  intros Hk b. pose proof (inode_block k Hk) as Hb. rewrite nmeta_eq in Hb. unfold winode. erewrite bind_ok by reflexivity.
  rewrite mk_IBLOCK_eq, inode_slot by done.
  erewrite bind_ok by (apply rsect_ok; [done|unfold FSSIZE; lia]). apply wsect_ok; [done|unfold FSSIZE; lia].
Qed.
End Access.

Section Inodes.
Context (s : mkfs) (D : list dinode) (A B : list (list Z)) (N : list nat) (HD : disk s D A B N).

(** Where the other inodes are. *)
Lemma put_inode_at k k' d :
  (k < 208)%nat -> (k' < 208)%nat -> dinode_ok d ->
  let b := Z.of_nat k / IPB + sb_inodestart the_sb in
  dinode_at (<[b := put_dinode (img s b) (k mod 8) d]> (img s)) k' = if decide (k' = k) then d else dinode_at (img s) k'.
Proof.
  intros Hk Hk' Hd b. pose proof (inode_block k Hk) as Hb. rewrite nmeta_eq in Hb. fold b in Hb.
  assert (length (img s b) = BSIZE) as Hl by (apply (f_block _ _ _ _ (dk_forest _ _ _ _ _ HD)); unfold FSSIZE; lia).
  unfold dinode_at. set (b' := Z.of_nat k' / IPB + sb_inodestart the_sb).
  destruct (decide (b' = b)) as [E|E].
  - rewrite E, fn_lookup_insert. destruct (decide (k' = k)) as [->|Hne]; [apply get_put_dinode; [done|apply Nat.mod_upper_bound; lia|done]|].
    apply get_put_dinode_other; [done|apply Nat.mod_upper_bound; lia..| |apply Hd].
    intros Em. apply Hne. unfold b, b', IPB in E. rewrite (Nat.div_mod_eq k 8), (Nat.div_mod_eq k' 8), Em.
    assert (Z.of_nat (k' / 8) = Z.of_nat (k / 8)); [rewrite !Nat2Z.inj_div; change (Z.of_nat 8) with 8; lia|lia].
  - rewrite fn_lookup_insert_ne by done. rewrite decide_False; [done|]. intros ->. done.
Qed.

Lemma inode_written k d :
  (k < 208)%nat -> dinode_ok d ->
  let b := Z.of_nat k / IPB + sb_inodestart the_sb in
  let C' := <[b := put_dinode (img s b) (k mod 8) d]> (img s) in
  forest C' (freeblock s) A B /\ allotted C' (freeblock s) A N /\ C' 1 = super_block
  /\ (forall n, log_or_map n -> C' n = zeroes).
Proof.
  intros Hk Hd b C'. pose proof (inode_block k Hk) as Hb. fold b in Hb. pose proof (dk_forest _ _ _ _ _ HD) as HF.
  assert (length (img s b) = BSIZE) as Hl by (apply (f_block _ _ _ _ HF); rewrite nmeta_eq in Hb; unfold FSSIZE; lia).
  destruct (forest_meta (img s) C' (freeblock s) A B N) as [HF' HA']; [..|done|apply HD|].
  - intros n Hn. unfold C'. by rewrite fn_lookup_insert_ne by lia.
  - intros n Hn. unfold C'. destruct (decide (b = n)) as [<-|Hne]; [|rewrite fn_lookup_insert_ne by done; by apply (f_block _ _ _ _ HF)].
    rewrite fn_lookup_insert. apply length_put_dinode; [done|apply Nat.mod_upper_bound; lia|apply Hd].
  - split_and!; [done|done|unfold C'; rewrite fn_lookup_insert_ne by lia; apply HD|].
    intros n Hn. unfold C'. rewrite fn_lookup_insert_ne; [by apply HD|]. intros <-. by apply (inode_no_map k Hk).
Qed.

(** [winode] of an inode in use. *)
Lemma winode_disk i d :
  (i < length D)%nat -> dinode_ok d ->
  exists s', winode (Z.of_nat (S i)) d s = Ok tt s' /\ disk s' (<[i := d]> D) A B N /\ freeblock s' = freeblock s.
Proof.
  intros Hi Hd. destruct (dk_next _ _ _ _ _ HD) as [Hnext Hlt]. assert (S i < 208)%nat as Hk by lia.
  eexists. split_and!; [apply winode_ok; [apply HD..|done]| |done]. destruct (inode_written (S i) d Hk Hd) as (HF & HA & H1 & Hmap).
  split; try done; try apply HD.
  - intros j x Hj. pose proof (lookup_lt_Some _ _ _ Hj) as Hjl. rewrite length_insert in Hjl.
    etrans; [apply (put_inode_at (S i) (S j) d); done || lia|]. destruct (decide (S j = S i)) as [[= ->]|Hne].
    + rewrite list_lookup_insert_eq in Hj by done. by injection Hj as <-.
    + rewrite list_lookup_insert_ne in Hj by congruence. by apply (dk_inodes _ _ _ _ _ HD).
  - intros k Hk'. rewrite length_insert in Hk'. etrans; [apply (put_inode_at (S i) k d); done || lia|]. rewrite decide_False by lia.
    by apply (dk_free _ _ _ _ _ HD).
  - by rewrite length_insert.
Qed.

(** An inode without blocks. *)
Lemma node_none C q : valid_loc q -> node C (replicate 13 0) q = 0.
Proof.
  intros (Hq & _). unfold node. rewrite (list_lookup_total_correct _ _ 0) by (by apply lookup_replicate_2). apply no_child.
Qed.

Lemma empty_file C fb : forest C fb A B -> allotted C fb A N -> forest C fb (A ++ [replicate 13 0]) (B ++ [[]]) /\ allotted C fb (A ++ [replicate 13 0]) (N ++ [0%nat]).
Proof.
  intros [F1 F2 F3 F4 F5 F6 F7 F8] [L1 L2 L3 L4 L5].
  assert (forall j b, (A ++ [replicate 13 0]) !! j = Some b -> A !! j = Some b \/ (j = length A /\ b = replicate 13 0)) as HA.
  { intros j b [Hb|[Hj Hb]]%lookup_app_Some; [by left|right]. apply list_lookup_singleton_Some in Hb as [E <-]. split; [lia|done]. }
  split; split; try done.
  - rewrite !length_app. cbn. lia.
  - intros j b [Hb|[_ ->]]%HA; [eauto|done].
  - intros j b q [Hb|[_ ->]]%HA Hq Hn; [eauto|]. by rewrite node_none in Hn.
  - intros j k b c q q' [Hb|[_ ->]]%HA [Hc|[_ ->]]%HA Hq Hq' Hn E; [eauto|..]; exfalso;
      first [by rewrite node_none in Hn | by rewrite E, node_none in Hn].
  - intros j b bs k c [Hb|[-> ->]]%HA Hbs Hk.
    + apply (F8 j b bs k c Hb); [|done]. rewrite lookup_app_l in Hbs; [done|]. rewrite <- F1. by eapply lookup_lt_Some.
    + rewrite F1, lookup_app_r, Nat.sub_diag in Hbs by lia. injection Hbs as <-. done.
  - rewrite !length_app. cbn. lia.
  - intros j n [Hn|[_ Hn]]%lookup_app_Some; [eauto|]. apply list_lookup_singleton_Some in Hn as [_ <-]. lia.
  - intros j b n m q [Hb|[-> ->]]%HA Hn Hm Hq.
    + rewrite lookup_app_l in Hn by (rewrite L1; by eapply lookup_lt_Some). eauto.
    + rewrite <- L1, lookup_app_r, Nat.sub_diag in Hn by lia. injection Hn as <-.
      destruct (route_valid _ _ (Nat2Z.is_nonneg m) Hq). rewrite node_none by done. lia.
  - intros j b n [Hb|[-> ->]]%HA Hn.
    + rewrite lookup_app_l in Hn by (rewrite L1; by eapply lookup_lt_Some). eauto.
    + rewrite <- L1, lookup_app_r, Nat.sub_diag in Hn by lia. injection Hn as <-. cbn. lia.
  - rewrite fmap_app, sum_list_with_app. cbn. lia.
Qed.

Lemma ialloc_disk type :
  (length D < 199)%nat -> 0 <= type < 2 ^ 15 -> length D = length A ->
  exists s', mk_ialloc type s = Ok (Z.of_nat (S (length D))) s'
    /\ disk s' (D ++ [mk_dinode type 0 0 1 0 (replicate 13 0)]) (A ++ [replicate 13 0]) (B ++ [[]]) (N ++ [0%nat])
    /\ freeblock s' = freeblock s.
Proof.
  intros Hl Ht Hla. destruct (dk_next _ _ _ _ _ HD) as [Hnext _]. set (k := S (length D)) in *. assert (k < 208)%nat as Hk by lia.
  set (d := mk_dinode type 0 0 1 0 (replicate 13 0)).
  assert (dinode_ok d) as Hd.
  { split; cbn; try lia. repeat constructor; lia. }
  pose proof (inode_written k d Hk Hd) as (HF & HA & H1 & Hmap). destruct (empty_file _ _ HF HA) as [HF' HA'].
  unfold mk_ialloc. erewrite bind_ok by reflexivity. rewrite Hnext.
  assert (xshort type = type) as -> by (unfold xshort; rewrite le_value_bytes; apply Z.mod_small; change (256 ^ Z.of_nat 2) with 65536; lia).
  change (xshort 1) with 1. change (xint 0) with 0. fold d.
  erewrite bind_ok by (apply winode_ok; [apply HD..|done]).
  eexists. split_and!; [reflexivity| |done]. rewrite u32_small by lia.
  assert (length (D ++ [d]) = k) as Hlk by (rewrite length_app; cbn; lia).
  split; try done; try apply HD.
  - intros j x [Hj|[Hj Hx]]%lookup_app_Some.
    + pose proof (lookup_lt_Some _ _ _ Hj). etrans; [apply (put_inode_at k (S j) d); done || lia|].
      rewrite decide_False by lia. by apply (dk_inodes _ _ _ _ _ HD).
    + apply list_lookup_singleton_Some in Hx as [E <-]. etrans; [apply (put_inode_at k (S j) d); done || lia|]. by rewrite decide_True by lia.
  - intros j Hj. rewrite Hlk in Hj. etrans; [apply (put_inode_at k j d); done || lia|]. rewrite decide_False by lia.
    apply (dk_free _ _ _ _ _ HD). lia.
  - rewrite Hlk. cbn. lia.
Qed.
End Inodes.

(** ** Files

    The image holds the files [F], each with its type and its contents: file
    [i] is inode [i + 1]. *)
Definition file_blocks (f : Z * list Z) : nat := ceil (length f.2).
Definition inode_of (f : Z * list Z) (a : list Z) : dinode := mk_dinode f.1 0 0 1 (Z.of_nat (length f.2)) a.
Definition blocks (F : list (Z * list Z)) : nat := sum_list (cost ∘ file_blocks <$> F).

Record holds (s : mkfs) (F : list (Z * list Z)) (A : list (list Z)) : Prop := {
  ho_len : length A = length F;
  ho_types : Forall (fun f => 0 <= f.1 < 2 ^ 15 /\ (length f.2 <= SMALL * 512)%nat) F;
  ho_disk : disk s (zip_with inode_of F A) A F.*2 (file_blocks <$> F);
}.

Lemma holds_freeblock s F A : holds s F A -> freeblock s = nmeta + Z.of_nat (blocks F).
Proof. intros [_ _ HD]. rewrite (al_count _ _ _ _ (dk_allot _ _ _ _ _ HD)). unfold blocks. by rewrite <- list_fmap_compose. Qed.

Lemma addrs_range C fb A B i a :
  forest C fb A B -> fb <= FSSIZE -> A !! i = Some a -> Forall (fun x => 0 <= x < 2 ^ 32) a.
Proof.
  intros HF Hfb Ha. apply list.Forall_forall. intros x (k & Hk)%list_elem_of_lookup.
  destruct (f_addrs _ _ _ _ HF i a Ha) as (Hl & _). pose proof (lookup_lt_Some _ _ _ Hk).
  destruct (decide (x = 0)) as [->|Hx]; [lia|].
  pose proof (f_range _ _ _ _ HF i a (k, []) Ha (valid_slot k ltac:(lia))) as Hr. unfold node in Hr. cbn [fst snd foldl] in Hr.
  rewrite (list_lookup_total_correct _ _ _ Hk), nmeta_eq in Hr. unfold FSSIZE in *. specialize (Hr Hx). lia.
Qed.

Lemma inode_of_ok f a :
  0 <= f.1 < 2 ^ 15 -> (length f.2 <= SMALL * 512)%nat -> length a = 13%nat -> Forall (fun x => 0 <= x < 2 ^ 32) a ->
  dinode_ok (inode_of f a).
Proof.
  intros Ht Hl Ha Hr. unfold SMALL, NDIRECT, NINDIRECT in Hl. split; cbn; try done; lia.
Qed.

Lemma sum_le (l : list nat) i x : l !! i = Some x -> (x <= sum_list l)%nat.
Proof. revert i. induction l as [|y l IH]; intros [|i] Hi; [done..| |]; cbn in *; [injection Hi as ->; lia|]. apply IH in Hi. lia. Qed.

Lemma iappend_ok s F A i ty bs p :
  holds s F A -> F !! i = Some (ty, bs) -> (length bs + length p <= SMALL * 512)%nat ->
  nmeta + Z.of_nat (blocks (<[i := (ty, bs ++ p)]> F)) < FSSIZE ->
  exists s' A', iappend (Z.of_nat (S i)) p s = Ok tt s' /\ holds s' (<[i := (ty, bs ++ p)]> F) A'.
Proof.
  intros HH Hf Hl Hb. pose proof (holds_freeblock s F A HH) as Efb. destruct HH as [HLA HT HD].
  pose proof (lookup_lt_Some _ _ _ Hf) as Hi. destruct (lookup_lt_is_Some_2 A i ltac:(lia)) as [a Ha].
  pose proof (Forall_lookup_1 _ _ _ _ HT Hf) as [Hty _]. cbn in Hty.
  assert (length (zip_with inode_of F A) = length F) as HlD by (rewrite length_zip_with; lia).
  destruct (dk_next _ _ _ _ _ HD) as [_ Hlt]. rewrite HlD in Hlt.
  assert (zip_with inode_of F A !! i = Some (inode_of (ty, bs) a)) as Hd by (by rewrite lookup_zip_with, Hf; cbn; rewrite Ha).
  assert (blocks (<[i := (ty, bs ++ p)]> F) + cost (ceil (length bs)) = blocks F + cost (ceil (length bs + length p)))%nat as Hbl.
  { unfold blocks. rewrite list_fmap_insert. cbn [compose]. unfold file_blocks at 1. cbn [snd]. rewrite length_app.
    apply (sum_insert (cost ∘ file_blocks <$> F)). by rewrite list_lookup_fmap, Hf. }
  unfold iappend. erewrite bind_ok by (apply rinode_ok; [apply HD..|lia]). rewrite (dk_inodes _ _ _ _ _ HD i _ Hd).
  change (d_size (inode_of (ty, bs) a)) with (Z.of_nat (length bs)).
  rewrite xint_small by (unfold SMALL, NDIRECT, NINDIRECT in *; lia).
  destruct (append_loop_ok i (S (length p)) s _ A F.*2 (file_blocks <$> F) a bs (inode_of (ty, bs) a) p HD Ha)
    as (s1 & a' & E1 & HD1); try done; try lia; [by rewrite list_lookup_fmap, Hf..|].
  erewrite bind_ok by exact E1. cbn beta iota.
  assert (<[i := a']> A !! i = Some a') as Ha' by (apply list_lookup_insert_eq; lia).
  pose proof (dk_forest _ _ _ _ _ HD1) as HF1.
  assert (freeblock s1 = nmeta + Z.of_nat (blocks (<[i := (ty, bs ++ p)]> F))) as Efb1.
  { rewrite (al_count _ _ _ _ (dk_allot _ _ _ _ _ HD1)). do 2 f_equal. unfold blocks. rewrite list_fmap_compose, !list_fmap_insert.
    change (file_blocks (ty, bs ++ p)) with (ceil (length (bs ++ p))). by rewrite length_app. }
  assert (dinode_ok (inode_of (ty, bs ++ p) a')) as Hok.
  { apply inode_of_ok; cbn [fst snd]; [done|rewrite length_app; lia|apply (f_addrs _ _ _ _ HF1 i a' Ha')|eapply addrs_range; [done| |done]; lia]. }
  assert ({ inode_of (ty, bs) a with d_addrs := a'; d_size := xint (Z.of_nat (length bs + length p)) } = inode_of (ty, bs ++ p) a') as Ed.
  { rewrite xint_small by (unfold SMALL, NDIRECT, NINDIRECT in *; lia). unfold inode_of. cbn. by rewrite length_app. }
  rewrite Ed. destruct (winode_disk s1 _ _ _ _ HD1 i (inode_of (ty, bs ++ p) a')) as (s2 & E2 & HD2 & Efb2); [lia|done|].
  exists s2, (<[i := a']> A). split; [done|]. split.
  - by rewrite !length_insert.
  - apply Forall_insert; [done|]. cbn [fst snd]. rewrite length_app. split; [done|lia].
  - rewrite <- insert_zip_with, !list_fmap_insert. change (file_blocks (ty, bs ++ p)) with (ceil (length (bs ++ p))). rewrite length_app. exact HD2.
Qed.
