(* ===== verification/MkfsImage.v ===== *)
(** * What mkfs leaves on the disk

    The theorems about mkfs.c as a whole: the image is a file system for the
    kernel, and the kernel reads the files of the host from it. *)

From S2P Require Import Prelude CString Bio Log LogTheory BlockStore Fs FsBlocks FsTree FsContent FsInode FsFile FsDir Mkfs MkfsTheory.
Open Scope Z_scope.

(** ** The operations on files *)
Lemma ialloc_ok s F A type :
  holds s F A -> (length F < 199)%nat -> 0 <= type < 2 ^ 15 ->
  exists s' A', mk_ialloc type s = Ok (Z.of_nat (S (length F))) s' /\ holds s' (F ++ [(type, [])]) A'.
Proof.
  intros [HLA HT HD] Hl Ht. assert (length (zip_with inode_of F A) = length F) as HlD by (rewrite length_zip_with; lia).
  destruct (ialloc_disk s _ _ _ _ HD type) as (s' & E & HD' & _); [lia|done|lia|]. rewrite HlD in E.
  exists s', (A ++ [replicate 13 0]). split; [done|]. split.
  - rewrite !length_app. cbn. lia.
  - apply list.Forall_app. split; [done|]. apply Forall_singleton. cbn [fst snd length]. split; [done|lia].
  - rewrite zip_with_app by done. rewrite !fmap_app. exact HD'.
Qed.

Lemma blocks_insert F i f g :
  F !! i = Some f -> (blocks (<[i := g]> F) + cost (file_blocks f) = blocks F + cost (file_blocks g))%nat.
Proof.
  intros Hf. unfold blocks. rewrite list_fmap_insert. apply (sum_insert (cost ∘ file_blocks <$> F)). by rewrite list_lookup_fmap, Hf.
Qed.

Lemma file_blocks_mono ty bs p : (cost (file_blocks (ty, bs)) <= cost (file_blocks (ty, bs ++ p)))%nat.
Proof. apply cost_mono, ceil_mono. cbn [snd]. rewrite length_app. lia. Qed.

(** Copying a file piece by piece. *)
Lemma append_pieces s F A i ty bs ps :
  holds s F A -> F !! i = Some (ty, bs) -> (length bs + length (concat ps) <= SMALL * 512)%nat ->
  nmeta + Z.of_nat (blocks (<[i := (ty, bs ++ concat ps)]> F)) < FSSIZE ->
  exists s' A', for_each ps (iappend (Z.of_nat (S i))) s = Ok tt s' /\ holds s' (<[i := (ty, bs ++ concat ps)]> F) A'.
Proof.
  revert s F A bs. induction ps as [|p ps IH]; intros s F A bs HH Hf Hl Hb.
  { exists s, A. cbn [concat for_each]. rewrite app_nil_r, list_insert_id by done. done. }
  cbn [concat] in *. rewrite length_app in Hl. rewrite (assoc_L (++)) in *.
  pose proof (blocks_insert F i _ (ty, bs ++ p) Hf) as B1. pose proof (blocks_insert F i _ (ty, (bs ++ p) ++ concat ps) Hf) as B2.
  pose proof (file_blocks_mono ty (bs ++ p) (concat ps)) as Hm.
  destruct (iappend_ok s F A i ty bs p HH Hf) as (s1 & A1 & E1 & HH1); [lia|lia|].
  destruct (IH s1 (<[i := (ty, bs ++ p)]> F) A1 (bs ++ p) HH1) as (s2 & A2 & E2 & HH2).
  - apply list_lookup_insert_eq. by eapply lookup_lt_Some.
  - rewrite length_app. lia.
  - by rewrite list_insert_insert_eq.
  - rewrite list_insert_insert_eq in HH2. exists s2, A2. split; [|done]. cbn [for_each]. by erewrite bind_ok by exact E1.
Qed.

Lemma concat_chunks bs fuel : (length bs <= fuel)%nat -> concat (chunks bs fuel) = bs.
Proof.
  revert bs. induction fuel as [|fuel IH]; intros bs Hl; [by destruct bs; [|cbn in Hl; lia]|]. cbn [chunks].
  destruct bs as [|b bs]; [done|]. cbn [concat]. rewrite IH; [apply take_drop|].
  rewrite length_drop. unfold BSIZE. cbn [length] in *. lia.
Qed.

(** ** Adding files *)

(** The name in the directory: without a leading underscore. *)
Definition entry_name (arg : list Z) : list Z := if hd 0 arg =? UNDERSCORE then tl arg else arg.

Lemma length_de inum name : length (de_strncpy inum name) = 16%nat.
Proof. unfold de_strncpy. by rewrite length_app, length_le_bytes, length_strncpy_list. Qed.

Lemma blocks_cons f F : blocks (f :: F) = (cost (file_blocks f) + blocks F)%nat.
Proof. done. Qed.
Lemma blocks_app F G : blocks (F ++ G) = (blocks F + blocks G)%nat.
Proof. unfold blocks. by rewrite fmap_app, sum_list_with_app. Qed.

Lemma add_file_ok s F A root arg host bytes :
  holds s ((T_DIR, root) :: F) A -> host arg = Some bytes -> (47 ∉ arg) -> (length F < 198)%nat ->
  (length root + 16 <= SMALL * 512)%nat -> (length bytes <= SMALL * 512)%nat ->
  let F' := (T_DIR, root ++ de_strncpy (Z.of_nat (S (S (length F)))) (entry_name arg)) :: F ++ [(T_FILE, bytes)] in
  nmeta + Z.of_nat (blocks F') < FSSIZE ->
  exists s' A', add_file host 1 arg s = Ok tt s' /\ holds s' F' A'.
Proof.
  intros HH Hhost Hs Hlen Hroot Hbytes F' Hb. unfold F' in *. set (de := de_strncpy _ _) in *.
  rewrite blocks_cons, blocks_app, blocks_cons in Hb. change (blocks []) with 0%nat in Hb.
  unfold add_file. rewrite bool_decide_eq_false_2 by done. rewrite Hhost.
  destruct (ialloc_ok s _ A T_FILE HH) as (s1 & A1 & E1 & HH1); [cbn [length]; lia|done|].
  erewrite bind_ok by exact E1. cbn [length] in *. fold (entry_name arg). fold de.
  cbn [app] in HH1.
  destruct (iappend_ok s1 _ A1 0 T_DIR root de HH1 eq_refl) as (s2 & A2 & E2 & HH2).
  { unfold de. rewrite length_de. done. }
  { cbn [insert list_insert]. rewrite blocks_cons, blocks_app, blocks_cons. change (blocks []) with 0%nat. change (cost (file_blocks (T_FILE, []))) with 0%nat. lia. }
  change (Z.of_nat 1) with 1 in E2. erewrite bind_ok by exact E2. cbn [insert list_insert] in HH2.
  set (G := F ++ [(T_FILE, [])]) in *. set (f0 := (T_DIR, root ++ de)) in *.
  assert ((f0 :: G) !! S (length F) = Some (T_FILE, [])) as Hf.
  { change ((f0 :: G) !! S (length F)) with (G !! length F). unfold G. by rewrite lookup_app_r, Nat.sub_diag by lia. }
  assert (<[S (length F) := (T_FILE, bytes)]> (f0 :: G) = f0 :: F ++ [(T_FILE, bytes)]) as Eins.
  { change (<[S (length F) := (T_FILE, bytes)]> (f0 :: G)) with (f0 :: <[length F := (T_FILE, bytes)]> G).
    unfold G. by rewrite insert_app_r_alt, Nat.sub_diag by lia. }
  destruct (append_pieces s2 _ A2 (S (length F)) T_FILE [] (file_chunks bytes) HH2 Hf) as (s3 & A3 & E3 & HH3);
    unfold file_chunks in *; rewrite concat_chunks in * by lia; cbn [app length] in *; [lia| |].
  - rewrite Eins, blocks_cons, blocks_app, blocks_cons. change (blocks []) with 0%nat. lia.
  - rewrite Eins in HH3. by exists s3, A3.
Qed.

(** The entries of the root directory for the files [args], the first of which
    is file number [k]. *)
Fixpoint entries (k : nat) (args : list (list Z)) : list Z :=
  match args with
  | [] => []
  | arg :: args => de_strncpy (Z.of_nat (S k)) (entry_name arg) ++ entries (S k) args
  end.

(** A file of the host that mkfs can copy. *)
Definition on_host (host : list Z -> option (list Z)) (arg bytes : list Z) : Prop :=
  host arg = Some bytes /\ (47 ∉ arg) /\ (length bytes <= SMALL * 512)%nat.

Lemma add_files_ok host args bs s F A root :
  Forall2 (on_host host) args bs -> holds s ((T_DIR, root) :: F) A -> (length F + length args <= 198)%nat ->
  (length root + 16 * length args <= SMALL * 512)%nat ->
  let F' := (T_DIR, root ++ entries (S (length F)) args) :: F ++ (pair T_FILE <$> bs) in
  nmeta + Z.of_nat (blocks F') < FSSIZE ->
  exists s' A', for_each args (add_file host 1) s = Ok tt s' /\ holds s' F' A'.
Proof.
  intros Hbs. revert s F A root. induction Hbs as [|arg b args bs (H1 & H2 & H3) _ IH]; intros s F A root HH Hl Hr F' Hb; unfold F' in *.
  { exists s, A. cbn [for_each entries fmap list_fmap]. rewrite !app_nil_r. done. }
  cbn [entries fmap list_fmap length] in *. set (de := de_strncpy _ _) in *.
  rewrite (assoc_L (++)), (cons_middle (T_FILE, b) F), (assoc_L (++)) in Hb. rewrite (assoc_L (++)), (cons_middle (T_FILE, b) F), (assoc_L (++)).
  destruct (add_file_ok s F A root arg host b HH H1 H2) as (s1 & A1 & E1 & HH1); [lia|lia|done| |].
  - rewrite blocks_cons, blocks_app in Hb |- *. rewrite blocks_app in Hb. fold de.
    pose proof (file_blocks_mono T_DIR (root ++ de) (entries (S (S (length F))) args)). lia.
  - fold de in HH1. assert (length (F ++ [(T_FILE, b)]) = S (length F)) as El by (rewrite length_app; cbn [length]; lia).
    destruct (IH s1 (F ++ [(T_FILE, b)]) A1 (root ++ de) HH1) as (s2 & A2 & E2 & HH2).
    + lia.
    + rewrite length_app. unfold de. rewrite length_de. lia.
    + by rewrite El.
    + rewrite El in HH2. exists s2, A2. split; [|done]. cbn [for_each]. by erewrite bind_ok by exact E1.
Qed.

(** ** An empty image *)
Lemma clear_ok n k s :
  (Z.of_nat (k + n) <= FSSIZE) ->
  exists s', for_each (seq k n) (fun i => wsect (Z.of_nat i) zeroes) s = Ok tt s'
    /\ (forall m, img s' m = if decide (Z.of_nat k <= m < Z.of_nat (k + n)) then zeroes else img s m)
    /\ isize s' = (if decide (n = 0)%nat then isize s else Z.max (Z.of_nat (k + n)) (isize s))
    /\ sb s' = sb s /\ freeinode s' = freeinode s /\ freeblock s' = freeblock s.
Proof.
  revert k s. induction n as [|n IH]; intros k s Hk.
  { exists s. split_and!; try done. intros m. by rewrite decide_False by lia. }
  cbn [seq for_each].
  set (s1 := { s with img ::= <[Z.of_nat k := zeroes]>; isize ::= Z.max (Z.of_nat k + 1) }).
  assert (wsect (Z.of_nat k) zeroes s = Ok tt s1) as E1.
  { unfold wsect. msimpl. unfold s1. by rewrite sector_small by lia. }
  destruct (IH (S k) s1) as (s' & E & Hi & Hz & Hrest); [lia|]. exists s'. split_and!; try apply Hrest.
  - by erewrite bind_ok by exact E1.
  - intros m. rewrite Hi. change (img s1) with (<[Z.of_nat k := zeroes]> (img s)). destruct (decide (m = Z.of_nat k)) as [->|Hne].
    + rewrite decide_False, decide_True by lia. by rewrite fn_lookup_insert.
    + rewrite fn_lookup_insert_ne by done. destruct (decide (Z.of_nat (S k) <= m < Z.of_nat (S k + n))).
      * by rewrite decide_True by lia.
      * by rewrite decide_False by lia.
  - rewrite Hz, (decide_False (P := S n = 0%nat)) by lia. change (isize s1) with (Z.max (Z.of_nat k + 1) (isize s)).
    destruct (decide (n = 0%nat)); lia.
Qed.

Lemma zero_dinode k : (k < 8)%nat -> get_dinode zeroes k = no_dinode.
Proof. intros Hk. do 8 (destruct k as [|k]; [vm_compute; reflexivity|]). lia. Qed.

Lemma empty_holds s :
  isize s = FSSIZE -> sb s = the_sb -> freeinode s = 1 -> freeblock s = nmeta -> img s 1 = super_block ->
  (forall n, 0 <= n < FSSIZE -> n <> 1 -> img s n = zeroes) -> holds s [] [].
Proof.
  intros E1 E2 E3 E4 E5 Hz. split; [done|constructor|]. split; try done.
  - intros n Hn. pose proof (proj1 (log_or_map_eq n) Hn). apply Hz; unfold FSSIZE; lia.
  - split; try done.
    + intros n Hn. destruct (decide (n = 1)) as [->|Hne]; [by rewrite E5|by rewrite Hz].
    + intros n Hn. rewrite E4, nmeta_eq in Hn. apply Hz; lia.
    + by rewrite E4.
  - intros k Hk. cbn in Hk. unfold dinode_at. pose proof (inode_block k ltac:(lia)) as Hb. rewrite nmeta_eq in Hb.
    rewrite Hz by (unfold FSSIZE; lia). apply zero_dinode. apply Nat.mod_upper_bound. lia.
  - split; [done|]. cbn. lia.
Qed.

(** ** The whole program *)
Definition dots : list Z := de_strcpy 1 [46] ++ de_strcpy 1 [46; 46].

(** The files on the image: the root directory and the files of the host. *)
Definition image_files (args bs : list (list Z)) : list (Z * list Z) :=
  (T_DIR, dots ++ entries 1 args) :: (pair T_FILE <$> bs).

Definition start_sb (s : mkfs) : mkfs := { s with sb := the_sb; freeblock := nmeta }.

Lemma format_ok :
  exists s0, (modify (fun s => start_sb s);;
    for_each (seq 0 (Z.to_nat FSSIZE)) (fun i => wsect (Z.of_nat i) zeroes);;
    s ← get;
    wsect 1 (splice 0 (superblock_bytes (sb s)) zeroes)) mkfs_start = Ok tt s0 /\ holds s0 [] [].
Proof.
  assert (Z.of_nat (Z.to_nat FSSIZE) = FSSIZE) as Hn by (apply Z2Nat.id; unfold FSSIZE; lia).
  revert Hn. generalize (Z.to_nat FSSIZE). intros n Hn.
  destruct (clear_ok n 0 (start_sb mkfs_start)) as (s1 & E & Hi & Hz & Hsb & Hfi & Hfb); [rewrite Nat.add_0_l; lia|].
  rewrite Nat.add_0_l, Hn in Hz. rewrite decide_False in Hz by (intros ->; discriminate Hn).
  assert (isize s1 = FSSIZE) as Hsz by (rewrite Hz; reflexivity).
  eexists. split.
  - erewrite bind_ok by reflexivity. erewrite bind_ok by exact E. erewrite bind_ok by reflexivity.
    apply wsect_ok; [exact Hsz|unfold FSSIZE; lia].
  - assert (forall d, img { s1 with img := <[1 := d]> (img s1) } = <[1 := d]> (img s1)) as Ei by reflexivity.
    apply empty_holds; [exact Hsz|exact Hsb|exact Hfi|exact Hfb|..].
    + rewrite Ei, fn_lookup_insert, Hsb. reflexivity.
    + intros m Hm Hne. rewrite Ei, fn_lookup_insert_ne by done. rewrite Hi, Nat.add_0_l, Hn. by rewrite decide_True.
Qed.

(** After the files have been copied. *)
Lemma copied_ok host args bs s0 :
  Forall2 (on_host host) args bs -> (length args <= 198)%nat ->
  nmeta + Z.of_nat (blocks (image_files args bs)) < FSSIZE -> holds s0 [] [] ->
  exists s1 A,
    (rootino ← mk_ialloc T_DIR;
     if negb (rootino =? ROOTINO) then panic "assert"
     else
       iappend rootino (de_strcpy rootino [46]);;
       iappend rootino (de_strcpy rootino [46; 46]);;
       for_each args (add_file host rootino)) s0 = Ok tt s1
    /\ holds s1 (image_files args bs) A.
Proof.
  intros Hargs Hl Hb HH0. assert (length args = length bs) as Elen by (by eapply Forall2_length).
  destruct (ialloc_ok s0 [] [] T_DIR HH0) as (s1 & A1 & E1 & HH1); [cbn; lia|done|]. erewrite bind_ok by exact E1.
  change (Z.of_nat (S (length []))) with 1. change (negb (1 =? ROOTINO)) with false. cbv match. cbn [app] in HH1.
  assert (blocks (image_files args bs) >= cost (ceil (length dots)))%nat as Hdots.
  { unfold image_files. rewrite blocks_cons. pose proof (file_blocks_mono T_DIR dots (entries 1 args)). unfold file_blocks in *. cbn [snd] in *. lia. }
  destruct (iappend_ok s1 _ A1 0 T_DIR [] (de_strcpy 1 [46]) HH1 eq_refl) as (s2 & A2 & E2 & HH2).
  { apply Nat.leb_le. vm_compute. reflexivity. }
  { vm_compute. reflexivity. }
  change (Z.of_nat 1) with 1 in E2. erewrite bind_ok by exact E2. cbn [insert list_insert app] in HH2.
  destruct (iappend_ok s2 _ A2 0 T_DIR (de_strcpy 1 [46]) (de_strcpy 1 [46; 46]) HH2 eq_refl) as (s3 & A3 & E3 & HH3).
  { apply Nat.leb_le. vm_compute. reflexivity. }
  { vm_compute. reflexivity. }
  change (Z.of_nat 1) with 1 in E3. erewrite bind_ok by exact E3. cbn [insert list_insert] in HH3.
  destruct (add_files_ok host args bs s3 [] A3 dots Hargs HH3) as (s4 & A4 & E4 & HH4).
  - cbn [length]. lia.
  - change (length dots) with 32%nat. unfold SMALL, NDIRECT, NINDIRECT. lia.
  - exact Hb.
  - by exists s4, A4.
Qed.

(** The free map. *)
Definition first_bits (k : nat) : list Z := foldl set_bit zeroes (seq 0 k).

Lemma length_first_bits k : length (first_bits k) = BSIZE.
Proof.
  unfold first_bits. induction k as [|k IH]; [done|]. rewrite seq_S, foldl_app. cbn [foldl]. by rewrite length_set_bit.
Qed.

Lemma first_bits_ok k j : (k <= 4096)%nat -> (j < 4096)%nat -> map_bit (first_bits k) j = bool_decide (j < k)%nat.
Proof.
  intros Hk Hj. induction k as [|k IH].
  { rewrite bool_decide_eq_false_2 by lia. unfold first_bits, map_bit, map_byte, zeroes. cbn [seq foldl].
    rewrite zeros_lookup; [apply Z.bits_0|]. unfold BSIZE. apply Nat.Div0.div_lt_upper_bound. lia. }
  unfold first_bits. rewrite seq_S, foldl_app. cbn [foldl]. fold (first_bits k).
  rewrite map_bit_set, IH; [|lia|rewrite length_first_bits; apply Nat.Div0.div_lt_upper_bound; unfold BSIZE; lia].
  rewrite Nat.add_0_l. destruct (decide (j < k)%nat).
  - by rewrite (bool_decide_eq_true_2 (j < k)%nat), (bool_decide_eq_true_2 (j < S k)%nat) by lia.
  - rewrite (bool_decide_eq_false_2 (j < k)%nat) by done. apply bool_decide_ext. lia.
Qed.

(** The size that the inode of file [i] gets: that of the root directory is
    rounded up to blocks. *)
Definition disk_size (i : nat) (bytes : list Z) : Z :=
  match i with
  | O => (Z.of_nat (length bytes) / Z.of_nat BSIZE + 1) * Z.of_nat BSIZE
  | S _ => Z.of_nat (length bytes)
  end.

(** The image at the end. *)
Record image (C : Z -> list Z) (F : list (Z * list Z)) (A : list (list Z)) : Prop := {
  im_len : length A = length F;
  im_small : Forall (fun f => (length f.2 <= SMALL * 512)%nat) F;
  im_super : C 1 = super_block;
  im_forest : forest C (nmeta + Z.of_nat (blocks F)) A F.*2;
  im_log : forall n, 2 <= n < sb_inodestart the_sb -> C n = zeroes;
  im_map : forall n, is_map the_sb n ->
    C n = if decide (n = sb_bmapstart the_sb) then first_bits (Z.to_nat (nmeta + Z.of_nat (blocks F))) else zeroes;
  im_inodes : forall i f a, F !! i = Some f -> A !! i = Some a ->
    dinode_at C (S i) = mk_dinode f.1 0 0 1 (disk_size i f.2) a;
  im_free : forall k, (length F < k < 208)%nat -> dinode_at C k = no_dinode;
}.

(** The rest of [main]. *)
Definition finish : M mkfs unit :=
  din ← rinode ROOTINO;
  let off := xint (d_size din) in
  let off := u32 ((off / Z.of_nat BSIZE + 1) * Z.of_nat BSIZE) in
  winode ROOTINO { din with d_size := xint off };;
  s ← get;
  mk_balloc (freeblock s).

(** Writing the free map. *)
Lemma balloc_disk s D A B N :
  disk s D A B N -> freeblock s < 4096 ->
  exists s', mk_balloc (freeblock s) s = Ok tt s'
    /\ img s' = <[sb_bmapstart the_sb := first_bits (Z.to_nat (freeblock s))]> (img s)
    /\ forest (img s') (freeblock s) A B
    /\ (forall k, (k < 208)%nat -> dinode_at (img s') k = dinode_at (img s) k).
Proof.
  intros HD Hb. pose proof (dk_forest _ _ _ _ _ HD) as HF. eexists. split_and!.
  - unfold mk_balloc. rewrite (proj2 (Z.ltb_lt _ _)) by (unfold BSIZE; lia). cbn [negb]. erewrite bind_ok by reflexivity.
    rewrite (dk_sb _ _ _ _ _ HD). apply wsect_ok; [apply HD|]. change (sb_bmapstart the_sb) with 58. unfold FSSIZE. lia.
  - reflexivity.
  - eapply (forest_meta (img s)); [..|exact HF|apply HD].
    + intros n Hn. rewrite nmeta_eq in Hn. apply fn_lookup_insert_ne. change (sb_bmapstart the_sb) with 58. lia.
    + intros n Hn. change (length (<[58 := first_bits (Z.to_nat (freeblock s))]> (img s) n) = BSIZE).
      destruct (decide (58 = n)) as [<-|Hne]; [by rewrite fn_lookup_insert, length_first_bits|].
      rewrite fn_lookup_insert_ne by done. by apply (f_block _ _ _ _ HF).
  - intros k Hk. unfold dinode_at. f_equal. apply fn_lookup_insert_ne. intros E. apply (inode_no_map k Hk). right. rewrite <- E. apply the_map. change (sb_bmapstart the_sb) with 58. lia.
Qed.

Lemma finish_ok s F A ty root :
  holds s ((ty, root) :: F) A -> nmeta + Z.of_nat (blocks ((ty, root) :: F)) < 4096 ->
  exists s', finish s = Ok tt s' /\ image (img s') ((ty, root) :: F) A.
Proof.
  intros HH Hb. pose proof (holds_freeblock _ _ _ HH) as Efb. destruct HH as [HLA HT HD]. set (G := (ty, root) :: F) in *.
  destruct (lookup_lt_is_Some_2 A 0) as [a Ha]; [rewrite HLA; cbn; lia|].
  pose proof (Forall_lookup_1 _ _ 0 _ HT eq_refl) as [Hty Hlr]. cbn [fst snd] in Hty, Hlr.
  assert (zip_with inode_of G A !! 0%nat = Some (inode_of (ty, root) a)) as Hd by (rewrite lookup_zip_with; cbn; by rewrite Ha).
  assert (length (zip_with inode_of G A) = length G) as HlD by (rewrite length_zip_with; lia).
  set (sz := disk_size 0 root). assert (0 <= sz < 2 ^ 32) as Hsz.
  { unfold sz, disk_size, BSIZE, SMALL, NDIRECT, NINDIRECT in *. pose proof (Z.div_pos (Z.of_nat (length root)) (Z.of_nat 512)).
    pose proof (Z.div_le_upper_bound (Z.of_nat (length root)) (Z.of_nat 512) 138). lia. }
  set (d := mk_dinode ty 0 0 1 sz a). pose proof (dk_forest _ _ _ _ _ HD) as HF.
  destruct (winode_disk s _ A G.*2 (file_blocks <$> G) HD 0 d) as (s1 & E1 & HD1 & Efb1).
  { rewrite HlD. cbn. lia. }
  { destruct (f_addrs _ _ _ _ HF 0%nat a Ha) as (Hl & _). split; cbn; try done; try lia.
    eapply addrs_range; [exact HF| |exact Ha]. unfold FSSIZE. lia. }
  assert (finish s = mk_balloc (freeblock s1) s1) as ->.
  { unfold finish. erewrite bind_ok by (apply (rinode_ok s) with (k := 1%nat); [apply HD..|lia]).
    rewrite (dk_inodes _ _ _ _ _ HD 0 _ Hd). change (d_size (inode_of (ty, root) a)) with (Z.of_nat (length root)).
    rewrite (xint_small (Z.of_nat _)) by (unfold SMALL, NDIRECT, NINDIRECT in *; lia). fold (disk_size 0 root). fold sz.
    rewrite u32_small, xint_small by done. change { inode_of (ty, root) a with d_size := sz } with d.
    erewrite bind_ok by exact E1. done. }
  rewrite Efb in Efb1. destruct (balloc_disk s1 _ _ _ _ HD1) as (s2 & E2 & Ei & HF2 & Hk2); [lia|]. exists s2. split; [done|].
  rewrite Efb1 in *. destruct (dk_next _ _ _ _ _ HD1) as [_ Hlt]. rewrite length_insert, HlD in Hlt. split; try done.
  - eapply list.Forall_impl; [exact HT|]. by intros f [_ Hf].
  - rewrite Ei, fn_lookup_insert_ne by done. apply HD1.
  - intros n Hn. change (sb_inodestart the_sb) with 32 in Hn. rewrite Ei, fn_lookup_insert_ne by (change (sb_bmapstart the_sb) with 58; lia).
    apply HD1, log_or_map_eq. lia.
  - intros n Hn. rewrite Ei. destruct (decide _) as [->|Hne]; [by rewrite fn_lookup_insert|].
    rewrite fn_lookup_insert_ne by done. apply HD1. by right.
  - intros i f b Hf Hfb. pose proof (lookup_lt_Some _ _ _ Hf). rewrite Hk2 by lia. apply (dk_inodes _ _ _ _ _ HD1).
    destruct i as [|i].
    + rewrite list_lookup_insert_eq by lia. injection Hf as <-. rewrite Ha in Hfb. by injection Hfb as <-.
    + rewrite list_lookup_insert_ne by lia. rewrite lookup_zip_with, Hf. cbn. cbn in Hfb. by rewrite Hfb.
  - intros k Hk. rewrite Hk2 by lia. apply (dk_free _ _ _ _ _ HD1). rewrite length_insert, HlD. done.
Qed.

(** [main] as a whole. *)
Lemma mkfs_main_ok host args bs :
  Forall2 (on_host host) args bs -> (length args <= 198)%nat -> nmeta + Z.of_nat (blocks (image_files args bs)) < 4096 ->
  exists s A, mkfs_main host args mkfs_start = Ok tt s /\ image (img s) (image_files args bs) A.
Proof.
  intros Hargs Hl Hb. destruct format_ok as (s0 & E0 & HH0).
  destruct (copied_ok host args bs s0 Hargs Hl) as (s1 & A & E1 & HH1); [unfold FSSIZE; lia|done|].
  destruct (finish_ok s1 _ A T_DIR _ HH1 Hb) as (s2 & E2 & HI). exists s2, A. split; [|exact HI]. clear HI HH0 HH1.
  unfold mkfs_main. change (modify _) with (modify (fun s => start_sb s)). revert E0. generalize (Z.to_nat FSSIZE). intros n E0.
  apply bind_inv_ok in E0 as ([] & u1 & E01 & E0). apply bind_inv_ok in E0 as ([] & u2 & E02 & E0).
  apply bind_inv_ok in E0 as (u3 & u4 & E03 & E04). do 2 erewrite bind_ok by eassumption. injection E03 as <- <-.
  erewrite bind_ok by reflexivity. erewrite bind_ok by exact E04.
  apply bind_inv_ok in E1 as (r & w1 & E11 & E1). erewrite bind_ok by exact E11. destruct (Z.eqb_spec r ROOTINO) as [->|]; [|done]. cbn [negb] in *.
  apply bind_inv_ok in E1 as ([] & w2 & E12 & E1). apply bind_inv_ok in E1 as ([] & w3 & E13 & E14).
  do 3 erewrite bind_ok by eassumption. exact E2.
Qed.

(** ** The image as a file system of the kernel *)

(** A disk with the image on it, whose blocks from the inodes on can be logged. *)
Record mounted (C : Z -> list Z) (v : sview) : Prop := {
  mo_size : nblk v = FSSIZE;
  mo_cont : forall n, n = 1 \/ sb_inodestart the_sb <= n < FSSIZE -> cont v n = C n;
  mo_wr : forall n, sb_inodestart the_sb <= n < FSSIZE -> wr v n;
}.

Lemma the_geometry C v : mounted C v -> geometry the_sb v.
Proof.
  intros [E _ Hw]. change (sb_inodestart the_sb) with 32 in Hw. split.
  - rewrite E. change (sb_size the_sb) with FSSIZE. unfold FSSIZE. lia.
  - rewrite E. done.
  - change (sb_bmapstart the_sb) with 58. change (nmap the_sb) with 10. change (sb_size the_sb) with FSSIZE. unfold FSSIZE. lia.
  - intros n Hn. pose proof (proj1 (the_map n) Hn). apply Hw. unfold FSSIZE. lia.
  - change (sb_inodestart the_sb) with 32. change (sb_ninodes the_sb / IPB) with 25. change (sb_size the_sb) with FSSIZE. unfold FSSIZE. lia.
  - done.
  - unfold is_iblock. change (sb_ninodes the_sb / IPB) with 25. change (sb_inodestart the_sb) with 32. intros n Hn.
    split; [apply Hw; unfold FSSIZE; lia|rewrite the_map; lia].
Qed.

Section Image.
Context (C : Z -> list Z) (F : list (Z * list Z)) (A : list (list Z)) (HI : image C F A) (v : sview) (HM : mounted C v).
Context (Hfew : nmeta + Z.of_nat (blocks F) < 4096).

Lemma image_used n : 0 <= n < FSSIZE -> used the_sb v n = bool_decide (n < nmeta + Z.of_nat (blocks F)).
Proof.
  intros Hn. unfold used. set (k := n / bpb). set (j := n mod bpb). assert (n = bpb * k + j) as En by (apply Z.div_mod; done).
  pose proof (Z.mod_pos_bound n bpb ltac:(done)) as Hj. fold j in Hj. change bpb with 4096 in *. unfold FSSIZE in Hn.
  change (sb_bmapstart the_sb) with 58. rewrite (mo_cont _ _ HM) by (change (sb_inodestart the_sb) with 32; unfold FSSIZE; lia).
  rewrite (im_map _ _ _ HI) by (apply the_map; lia). change (sb_bmapstart the_sb) with 58. rewrite nmeta_eq in *. destruct (decide (58 + k = 58)).
  - rewrite first_bits_ok by lia. apply bool_decide_ext. lia.
  - rewrite bool_decide_eq_false_2 by lia. unfold map_bit, map_byte, zeroes. rewrite zeros_lookup; [apply Z.bits_0|].
    unfold BSIZE. apply Nat.Div0.div_lt_upper_bound. lia.
Qed.

Lemma image_fs : fs_ok the_sb v.
Proof.
  pose proof (the_geometry C v HM) as HG. split; [done| |].
  - intros n Hn Hu. change (sb_size the_sb) with FSSIZE in Hn. rewrite image_used in Hu by done. apply bool_decide_eq_false in Hu. rewrite nmeta_eq in Hu.
    unfold is_data. rewrite the_map. unfold is_iblock. change (sb_ninodes the_sb / IPB) with 25. change (sb_inodestart the_sb) with 32.
    change (sb_size the_sb) with FSSIZE. split_and!; try lia. apply (mo_wr _ _ HM). change (sb_inodestart the_sb) with 32. lia.
  - rewrite (mo_cont _ _ HM) by (change (sb_inodestart the_sb) with 32; unfold FSSIZE; lia). rewrite (im_super _ _ _ HI). vm_compute. reflexivity.
Qed.

Lemma image_node i a q : A !! i = Some a -> valid_loc q -> node (cont v) a q = node C a q.
Proof.
  intros Ha Hq. apply node_ext; [done|]. intros p Hp _ Hnz. apply (mo_cont _ _ HM).
  pose proof (f_range _ _ _ _ (im_forest _ _ _ HI) i a p Ha Hp Hnz). rewrite nmeta_eq in *. change (sb_inodestart the_sb) with 32. unfold FSSIZE. lia.
Qed.

Lemma image_tree i a : A !! i = Some a -> tree_ok the_sb v a.
Proof.
  intros Ha. pose proof (im_forest _ _ _ HI) as HF. split; [apply (f_addrs _ _ _ _ HF i a Ha)|..].
  - intros q Hq. rewrite (image_node i a q Ha Hq). intros Hnz. pose proof (f_range _ _ _ _ HF i a q Ha Hq Hnz) as Hr. pose proof Hfew as Hs. rewrite nmeta_eq in Hr, Hs.
    split; [|rewrite image_used, nmeta_eq by (unfold FSSIZE; lia); apply bool_decide_eq_true_2; lia].
    unfold is_data. rewrite the_map. unfold is_iblock. change (sb_ninodes the_sb / IPB) with 25. change (sb_inodestart the_sb) with 32.
    change (sb_size the_sb) with FSSIZE. unfold FSSIZE. split_and!; try lia. apply (mo_wr _ _ HM). change (sb_inodestart the_sb) with 32. unfold FSSIZE. lia.
  - intros q q' Hq Hq'. rewrite (image_node i a q Ha Hq), (image_node i a q' Ha Hq'). intros Hnz E.
    by destruct (f_inj _ _ _ _ HF i i a a q q' Ha Ha Hq Hq' Hnz E).
Qed.

(** Every byte of a file is where the kernel looks for it. *)
Lemma image_byte i f a k c :
  F !! i = Some f -> A !! i = Some a -> f.2 !! k = Some c ->
  fbyte (cont v) a (Z.of_nat k) = c /\ exists q, route (Z.of_nat k / bsize) = Some q /\ node (cont v) a q <> 0.
Proof.
  intros Hf Ha Hk. pose proof (im_forest _ _ _ HI) as HF.
  destruct (f_cont _ _ _ _ HF i a f.2 k c Ha) as (q & Hq & Hnz & Hc); [by rewrite list_lookup_fmap, Hf|done|].
  assert (valid_loc q) as Hv by (eapply (route_valid _ q); [|exact Hq]; apply Z.div_pos; [lia|done]).
  pose proof (f_range _ _ _ _ HF i a q Ha Hv Hnz) as Hr. pose proof Hfew as Hs. rewrite nmeta_eq in Hr, Hs.
  unfold fbyte. rewrite Hq. rewrite (image_node i a q Ha Hv). rewrite (proj2 (Z.eqb_neq _ _)) by done. split; [|by exists q; rewrite (image_node i a q Ha Hv)].
  rewrite (mo_cont _ _ HM) by (change (sb_inodestart the_sb) with 32; unfold FSSIZE; lia). apply list_lookup_total_correct. rewrite <- Hc. f_equal.
  change bsize with (Z.of_nat BSIZE). rewrite <- Nat2Z.inj_mod. apply Nat2Z.id.
Qed.

Lemma image_bytes i f a : F !! i = Some f -> A !! i = Some a -> frange (cont v) a 0 (Z.of_nat (length f.2)) = f.2.
Proof.
  intros Hf Ha. unfold frange. rewrite Nat2Z.id. apply list_eq_same_length with (n := length f.2); [done|by rewrite length_fmap, length_seq|].
  intros k x y Hk. rewrite list_lookup_fmap, lookup_seq_lt by done. cbn [fmap option_fmap option_map]. rewrite Z.add_0_l, Nat.add_0_l. intros [= <-] Hy.
  by destruct (image_byte i f a k y Hf Ha Hy).
Qed.

Lemma image_no_hole i f a : F !! i = Some f -> A !! i = Some a -> no_hole (cont v) a 0 (Z.of_nat (length f.2)).
Proof.
  intros Hf Ha off Hoff. destruct (lookup_lt_is_Some_2 f.2 (Z.to_nat off)) as [c Hc]; [lia|].
  destruct (image_byte i f a _ c Hf Ha Hc) as [_ Hq]. by rewrite Z2Nat.id in Hq by lia.
Qed.
End Image.

(** ** The properties of mkfs *)

(** C13: mkfs makes a file system.  Given at most 198 files of the host, none
    larger than the direct and indirect blocks of an inode and together small
    enough for one block of the free map, mkfs does not fail, and the image is a
    file system as the kernel expects it: the super block describes it, the log
    is empty, exactly the blocks before [freeblock] are marked in use; the root
    directory and every file have an inode whose blocks form a tree, are marked
    in use and hold the contents, no two files share a block, and all other
    inodes are free. *)
Theorem mkfs_builds host args bs :
  Forall2 (on_host host) args bs -> (length args <= 198)%nat -> nmeta + Z.of_nat (blocks (image_files args bs)) < 4096 ->
  exists s A, mkfs_main host args mkfs_start = Ok tt s /\ length A = length (image_files args bs)
    /\ (forall n, 2 <= n < 2 + nlog -> img s n = zeroes)
    /\ forall v, mounted (img s) v ->
        fs_ok the_sb v
        /\ (forall n, 0 <= n < FSSIZE -> used the_sb v n = bool_decide (n < nmeta + Z.of_nat (blocks (image_files args bs))))
        /\ (forall i f a, image_files args bs !! i = Some f -> A !! i = Some a ->
             dinode_at (img s) (S i) = mk_dinode f.1 0 0 1 (disk_size i f.2) a
             /\ tree_ok the_sb v a /\ frange (cont v) a 0 (Z.of_nat (length f.2)) = f.2)
        /\ (forall i j a b q q', A !! i = Some a -> A !! j = Some b -> i <> j -> valid_loc q -> valid_loc q' ->
             node (cont v) a q <> 0 -> node (cont v) a q <> node (cont v) b q')
        /\ (forall k, (length (image_files args bs) < k < 208)%nat -> dinode_at (img s) k = no_dinode).
Proof.
  intros Hargs Hl Hb. destruct (mkfs_main_ok host args bs Hargs Hl Hb) as (s & A & E & HI). exists s, A.
  split; [exact E|]. split; [exact (im_len _ _ _ HI)|]. split; [exact (im_log _ _ _ HI)|]. intros v HM.
  split; [exact (image_fs _ _ _ HI v HM Hb)|]. split; [exact (image_used _ _ _ HI v HM Hb)|]. split; [|split].
  - intros i f a Hf Ha. split; [exact (im_inodes _ _ _ HI i f a Hf Ha)|].
    split; [exact (image_tree _ _ _ HI v HM Hb i a Ha)|exact (image_bytes _ _ _ HI v HM Hb i f a Hf Ha)].
  - intros i j a c q q' Ha Hc Hne Hq Hq'. rewrite (image_node _ _ _ HI v HM Hb i a q), (image_node _ _ _ HI v HM Hb j c q') by done.
    intros Hnz Eq. destruct (f_inj _ _ _ _ (im_forest _ _ _ HI) i j a c q q' Ha Hc Hq Hq' Hnz Eq) as [Eij _]. exact (Hne Eij).
  - exact (im_free _ _ _ HI).
Qed.
