(* ===== verification/MkfsBoot.v ===== *)
(** * From mkfs to an open file

    The composition of mkfs.c with the kernel: a kernel that boots from the image
    finds the files by their names and reads what the host had in them. *)

From S2P Require Import Prelude CString Bio BioTheory Log LogTheory LogCrash BlockStore Transaction.
From S2P Require Import Fs FsBlocks FsTree FsContent FsInode FsFile FsDir FsWitness Mkfs MkfsTheory MkfsImage.
Open Scope Z_scope.

(** ** Names in paths *)
Lemma strncpy_take t n : strncpy_list (take n t) n = strncpy_list t n.
Proof.
  revert t. induction n as [|n IH]; intros t; [done|]. destruct t as [|c t]; [done|]. cbn [take strncpy_list hd tl]. by rewrite IH.
Qed.

Lemma strncpy_nul e r n : (0 ∉ e) -> strncpy_list (e ++ 0 :: r) n = strncpy_list e n.
Proof.
  revert e. induction n as [|n IH]; intros e He; [done|]. destruct e as [|c e]; [done|]. cbn [app strncpy_list hd tl].
  apply not_elem_of_cons in He as [_ He]. by rewrite IH.
Qed.

(** A name that can be an element of a path. *)
Definition is_name (nm : list Z) : Prop := nm <> [] /\ (0 ∉ nm) /\ (SLASH ∉ nm).

Lemma skip_elem_name nm : (0 ∉ nm) -> (SLASH ∉ nm) -> skip_elem nm = (nm, []).
Proof.
  induction nm as [|c nm IH]; intros H0 Hs; [done|]. apply not_elem_of_cons in H0 as [H0 H0']. apply not_elem_of_cons in Hs as [Hs Hs'].
  cbn [skip_elem]. rewrite !(proj2 (Z.eqb_neq _ _)) by congruence. cbn [orb]. by rewrite IH.
Qed.

(** [skipelem] on the path of a file in the root directory. *)
Lemma skipelem_name nm :
  is_name nm -> exists buf, skipelem (SLASH :: nm) (replicate DIRSIZ 0) = Some ([], buf) /\ dname buf = dname nm.
Proof.
  intros (Hne & H0 & Hs). unfold skipelem. change (skip_slashes (SLASH :: nm)) with (skip_slashes nm).
  assert (skip_slashes nm = nm /\ hd 0 nm <> 0) as [-> Hh].
  { destruct nm as [|c nm]; [done|]. apply not_elem_of_cons in H0 as [H0 _]. apply not_elem_of_cons in Hs as [Hs _].
    cbn [skip_slashes hd]. by rewrite (proj2 (Z.eqb_neq _ _)) by congruence. }
  rewrite (proj2 (Z.eqb_neq _ _)) by done. rewrite skip_elem_name by done. cbn [skip_slashes].
  eexists. split; [reflexivity|]. unfold dname. destruct (Nat.leb_spec DIRSIZ (length nm)); [apply strncpy_take|].
  unfold splice. cbn [take app]. rewrite <- app_assoc. by apply strncpy_nul.
Qed.

(** ** The root directory *)

(** The entries of [entries] one by one. *)
Fixpoint entry_list (k : nat) (args : list (list Z)) : list (list Z) :=
  match args with
  | [] => []
  | arg :: args => dirent_bytes (Z.of_nat (S k)) (entry_name arg) :: entry_list (S k) args
  end.
Definition root_entries (args : list (list Z)) : list (list Z) := dirent_bytes 1 [46] :: dirent_bytes 1 [46; 46] :: entry_list 1 args.

Lemma de_strncpy_bytes i nm : 0 <= i < 2 ^ 16 -> de_strncpy i nm = dirent_bytes i nm.
Proof.
  intros Hi. unfold de_strncpy, dirent_bytes, xshort. rewrite le_value_bytes. by rewrite Z.mod_small.
Qed.

Lemma entry_list_ok k args : (k + length args < 1000)%nat -> concat (entry_list k args) = entries k args.
Proof.
  revert k. induction args as [|arg args IH]; intros k Hk; [done|]. cbn [entry_list entries concat length] in *.
  rewrite IH, de_strncpy_bytes by lia. done.
Qed.

Lemma root_entries_ok args : (length args <= 198)%nat -> concat (root_entries args) = dots ++ entries 1 args.
Proof. intros Hl. unfold root_entries. cbn [concat]. rewrite entry_list_ok by lia. unfold dots. by rewrite <- app_assoc. Qed.

Lemma length_root_entries args : length (root_entries args) = S (S (length args)).
Proof.
  unfold root_entries. cbn [length]. do 2 f_equal. generalize 1%nat. induction args as [|arg args IH]; intros k; [done|].
  cbn [entry_list length]. by rewrite IH.
Qed.

Lemma root_entries_16 args : Forall (fun de => length de = 16%nat) (root_entries args).
Proof.
  assert (forall k, Forall (fun de => length de = 16%nat) (entry_list k args)) as H.
  { induction args as [|arg args IH]; intros k; [done|]. constructor; [apply dirent_length|apply IH]. }
  unfold root_entries. by repeat (constructor; [apply dirent_length|]).
Qed.

Lemma lookup_concat (E : list (list Z)) k i :
  Forall (fun de => length de = 16%nat) E -> (i < 16)%nat -> concat E !! (16 * k + i)%nat = E !! k ≫= (fun de => de !! i).
Proof.
  revert k. induction E as [|de E IH]; intros k HE Hi; [by rewrite lookup_nil|]. apply list.Forall_cons in HE as [Hd HE]. cbn [concat].
  destruct k as [|k]; [by rewrite lookup_app_l by lia|]. rewrite lookup_app_r by lia. cbn [lookup list_lookup]. rewrite <- IH by done. f_equal. lia.
Qed.

(** The entry of a file is the first one with its name. *)
Lemma entry_found nm k args i arg :
  (k + length args < 1000)%nat -> args !! i = Some arg -> dname (entry_name arg) = dname nm ->
  (forall j b, (j < i)%nat -> args !! j = Some b -> dname (entry_name b) <> dname nm) ->
  dir_find nm (entry_list k args) = Some (i, dirent_bytes (Z.of_nat (S (k + i))) (entry_name arg)).
Proof.
  revert k i. induction args as [|b args IH]; intros k i Hk Hi Hn Hj; [done|]. cbn [length] in Hk. unfold dir_find. cbn [entry_list list_find].
  destruct i as [|i].
  - injection Hi as ->. rewrite decide_True by (apply entry_bytes; [lia|done]). by rewrite Nat.add_0_r.
  - rewrite decide_False by (rewrite entry_bytes by lia; by apply (Hj 0%nat); [lia|]).
    fold (dir_find nm (entry_list (S k) args)). rewrite (IH (S k) i); [|lia|done|done|].
    + cbn. by rewrite Nat.add_succ_r.
    + intros j c Hji Hc. by apply (Hj (S j)); [lia|].
Qed.

Lemma root_found nm args i arg :
  (length args <= 198)%nat -> args !! i = Some arg -> dname (entry_name arg) = dname nm -> dname nm <> dname [46] -> dname nm <> dname [46; 46] ->
  (forall j b, (j < i)%nat -> args !! j = Some b -> dname (entry_name b) <> dname nm) ->
  dir_find nm (root_entries args) = Some (S (S i), dirent_bytes (Z.of_nat (S (S i))) (entry_name arg)).
Proof.
  intros Hl Hi Hn H1 H2 Hj. unfold dir_find, root_entries. cbn [list_find].
  rewrite !decide_False by (rewrite entry_bytes by lia; congruence).
  fold (dir_find nm (entry_list 1 args)). by rewrite (entry_found nm 1 args i arg) by (done || lia).
Qed.

(** ** Opening a file *)
Section Open.
Context {S : Type} `{BlockStoreSpec S} `{Devsw S}.
Context (C : Z -> list Z) (args bs A : list (list Z)) (v : sview).
Let F := image_files args bs.
Context (HI : image C F A) (HM : mounted C v) (Hfew : nmeta + Z.of_nat (blocks F) < 4096) (Hargs : (length args <= 198)%nat).
Context (Hlen : length args = length bs) (Hhold : hold v = []) (Hroom : room the_sb 0 v).

Lemma files_fs_at (s : fsys S) : stands (fstore s) v -> fsb s = the_sb -> fs_at the_sb s v.
Proof. intros Hs Hsb. split; [done|done|exact (image_fs _ _ _ HI v HM Hfew)|done]. Qed.

(** The inode that [ilock] reads. *)
Lemma image_dinode x i f a :
  i_inum x = Z.of_nat (Datatypes.S i) -> F !! i = Some f -> A !! i = Some a ->
  get_dinode (cont v (iblock the_sb x)) (islot x) = mk_dinode f.1 0 0 1 (disk_size i f.2) a.
Proof.
  intros Ei Hf Ha. rewrite <- (im_inodes _ _ _ HI i f a Hf Ha). unfold dinode_at, iblock, islot. rewrite Ei.
  assert (i < 199)%nat as Hi.
  { apply lookup_lt_Some in Hf. unfold F, image_files in Hf. cbn [length] in Hf. rewrite length_fmap in Hf. lia. }
  pose proof (inode_block (Datatypes.S i) ltac:(lia)) as Hb. rewrite nmeta_eq in Hb.
  rewrite (Z.add_comm (sb_inodestart the_sb)), (mo_cont _ _ HM).
  - f_equal. change IPB with (Z.of_nat 8). rewrite <- Nat2Z.inj_mod. apply Nat2Z.id.
  - right. unfold IPB in *. pose proof (Z.div_pos (Z.of_nat (Datatypes.S i)) 8). unfold FSSIZE. lia.
Qed.

(** The entry of the inode cache for inode [i + 1], read and locked. *)
Definition loaded (i : nat) (f : Z * list Z) (a : list Z) (y : inode) : inode :=
  mk_inode 1 (Z.of_nat (Datatypes.S i)) (i_ref y) 1 1 f.1 0 0 1 (disk_size i f.2) a.

Lemma ilock_image (s : fsys S) ip y i f a :
  stands (fstore s) v -> fsb s = the_sb -> inodes s !! ip = Some y -> i_dev y = 1 -> i_inum y = Z.of_nat (Datatypes.S i) ->
  1 <= i_ref y -> i_lock y = 0 -> i_valid y = 0 -> F !! i = Some f -> A !! i = Some a -> f.1 <> 0 ->
  exists t, ilock ip s = Ok tt (mk_fsys t the_sb (<[ip := loaded i f a y]> (inodes s))) /\ stands t v
    /\ file_at the_sb (mk_fsys t the_sb (<[ip := loaded i f a y]> (inodes s))) v ip (loaded i f a y).
Proof.
  intros Hs Hsb Hy Hd Hi Hr Hl Hv Hf Ha Hty. pose proof (files_fs_at s Hs Hsb) as Hat.
  assert (valid_inum the_sb y) as Hval.
  { split; [done|]. rewrite Hi. change (sb_ninodes the_sb) with 200. apply lookup_lt_Some in Hf.
    unfold F, image_files in Hf. cbn [length] in Hf. rewrite length_fmap in Hf. lia. }
  pose proof (image_dinode y i f a Hi Hf Ha) as Ed.
  destruct (ilock_loads the_sb s v ip y Hat Hy Hval Hr Hl Hv Hroom) as (t & E & Ht); [by rewrite Ed|]. rewrite Ed, Hsb in E.
  assert ({ from_dinode (mk_dinode f.1 0 0 1 (disk_size i f.2) a) y with i_lock := 1; i_valid := 1 } = loaded i f a y) as El.
  { destruct y. cbn in *. by subst. }
  rewrite El in E. exists t. split_and!; [exact E|done|]. split; cbn [fstore fsb inodes]; try done.
  - exact (image_fs _ _ _ HI v HM Hfew).
  - apply list_lookup_insert_eq. by eapply lookup_lt_Some.
  - exact (image_tree _ _ _ HI v HM Hfew i a Ha).
Qed.

Definition root_bytes : list Z := dots ++ entries 1 args.

Lemma length_root : length root_bytes = (16 * length (root_entries args))%nat.
Proof.
  unfold root_bytes. rewrite <- root_entries_ok by done. pose proof (root_entries_16 args) as HE. induction HE as [|de E Hd _ IH]; [done|].
  cbn [concat length]. rewrite length_app, Hd, IH. lia.
Qed.

(** The root directory as the kernel sees it. *)
Lemma root_dir (s : fsys S) dp a y :
  A !! 0%nat = Some a -> file_at the_sb s v dp (loaded 0 (T_DIR, root_bytes) a y) ->
  dir_at the_sb s v dp (loaded 0 (T_DIR, root_bytes) a y) (root_entries args).
Proof.
  intros Ha Hf. pose proof length_root as Hlr. pose proof (length_root_entries args) as Hle. split; [done|done|..].
  - cbn [i_size loaded]. unfold disk_size. cbn [snd]. rewrite Hlr. set (n := Z.of_nat (16 * length (root_entries args))).
    pose proof (Z.div_mod n 512 ltac:(done)). pose proof (Z.mod_pos_bound n 512 ltac:(done)). change (Z.of_nat BSIZE) with 512.
    unfold maxbytes, MAXFILE, NTRIPINDIRECT, NDOUBINDIRECT, bsize, BSIZE. lia.
  - intros k de Hk. pose proof (lookup_lt_Some _ _ _ Hk). pose proof (Forall_lookup_1 _ _ _ _ (root_entries_16 args) Hk) as Hd. cbn beta in Hd.
    unfold dentry, frange. change (Z.to_nat 16) with 16%nat. apply list_eq_same_length with (n := 16%nat); [done|done|]. intros i b c Hi.
    rewrite list_lookup_fmap, lookup_seq_lt by done. cbn [fmap option_fmap option_map]. rewrite Nat.add_0_l. intros [= <-] Hc.
    replace (16 * Z.of_nat k + Z.of_nat i) with (Z.of_nat (16 * k + i)) by lia.
    apply (image_byte _ _ _ HI v HM Hfew 0 (T_DIR, root_bytes) a (16 * k + i)%nat c eq_refl Ha).
    cbn [snd]. unfold root_bytes. rewrite <- root_entries_ok by done. rewrite lookup_concat by (done || apply root_entries_16). by rewrite Hk.
  - pose proof (image_no_hole _ _ _ HI v HM Hfew 0 (T_DIR, root_bytes) a eq_refl Ha) as Hh. cbn [snd] in Hh. rewrite Hlr in Hh.
    by rewrite Nat2Z.inj_mul in Hh.
Qed.

(** An inode cache without entries in use. *)
Definition fresh_cache (l : list inode) : Prop := Forall (fun y => i_ref y = 0 /\ i_lock y = 0) l.

Lemma fresh_not_cached dev inum l : fresh_cache l -> forall z, z ∈ l -> ~ cached dev inum z.
Proof. intros Hl z Hz (Hr & _). destruct (proj1 (list.Forall_forall _ _) Hl z Hz). lia. Qed.

(** Finding a file of the root directory by its name. *)
Lemma namei_image (s : fsys S) y0 y1 l cwd nm i arg :
  stands (fstore s) v -> fsb s = the_sb -> inodes s = y0 :: y1 :: l -> fresh_cache (inodes s) -> is_name nm -> args !! i = Some arg ->
  dname (entry_name arg) = dname nm -> dname nm <> dname [46] -> dname nm <> dname [46; 46] ->
  (forall j b, (j < i)%nat -> args !! j = Some b -> dname (entry_name b) <> dname nm) ->
  exists t x0, namei cwd (SLASH :: nm) s
    = Ok (Some 1%nat) (mk_fsys t the_sb (x0 :: recycled 1 (Z.of_nat (Datatypes.S (Datatypes.S i))) y1 :: l)) /\ stands t v.
Proof.
  intros Hs Hsb Hin Hfresh Hnm Hi Hn H1' H2' Hj. destruct (skipelem_name nm Hnm) as (buf & Esk & Hbuf). rewrite <- Hbuf in *.
  destruct (lookup_lt_is_Some_2 A 0) as [a Ha]; [rewrite (im_len _ _ _ HI); unfold F, image_files; cbn; lia|].
  set (inum := Z.of_nat (Datatypes.S (Datatypes.S i))). pose proof (lookup_lt_Some _ _ _ Hi) as Hil.
  pose proof Hfresh as Hfr. rewrite Hin in Hfr. apply list.Forall_cons in Hfr as [[Hr0 Hl0] Hfr]. pose proof Hfr as Hfr'. apply list.Forall_cons in Hfr as [[Hr1 Hl1] Hfr].
  (* the root inode *)
  assert (iget ROOTDEV ROOTINO s = Ok 0%nat (with_ip s 0 (recycled 1 1 y0))) as E1.
  { apply iget_new; [by apply fresh_not_cached|]. rewrite Hin. cbn [list_find]. by rewrite decide_True. }
  set (s1 := with_ip s 0 (recycled 1 1 y0)) in *.
  assert (inodes s1 = recycled 1 1 y0 :: y1 :: l) as Hin1 by (unfold s1, with_ip; cbn [inodes]; by rewrite Hin).
  destruct (ilock_image s1 0 (recycled 1 1 y0) 0 (T_DIR, root_bytes) a) as (t2 & E2 & Ht2 & Hf2); try done; [by rewrite Hin1|].
  set (x0 := loaded 0 _ _ _) in *. set (s2 := mk_fsys t2 the_sb _) in *.
  assert (inodes s2 = x0 :: y1 :: l) as Hin2 by (unfold s2; cbn [inodes]; by rewrite Hin1).
  (* its entry for the name *)
  pose proof (dirlookup_ok the_sb s2 v 0 x0 (root_entries args) buf (root_dir s2 0 a _ Ha Hf2) Hroom) as HL.
  rewrite (root_found buf args i arg) in HL by done. fold inum in HL. rewrite de_inum_bytes in HL by lia. destruct HL as (t3 & Ht3 & HL).
  assert (iget 1 inum (with_store s2 t3) = Ok 1%nat (with_ip (with_store s2 t3) 1 (recycled 1 inum y1))) as E3.
  { apply iget_new.
    - change (inodes (with_store s2 t3)) with (inodes s2). rewrite Hin2. intros z [->|Hz]%elem_of_cons; [|by apply (fresh_not_cached _ _ _ Hfr')].
      intros (_ & _ & Hc). cbn in Hc. lia.
    - change (inodes (with_store s2 t3)) with (inodes s2). rewrite Hin2. cbn [list_find]. rewrite decide_False by (cbn; lia). by rewrite decide_True. }
  specialize (HL _ _ E3). set (s3 := with_ip _ 1 _) in *.
  assert (inodes s3 = x0 :: recycled 1 inum y1 :: l) as Hin3 by (unfold s3, with_ip; cbn [inodes with_store]; by rewrite Hin2).
  (* the root inode is put back *)
  assert (iunlock 0 s3 = Ok tt (with_ip s3 0 { x0 with i_lock := 0 })) as E4 by (apply iunlock_ok; [by rewrite Hin3|done|done]).
  assert (iput 0 (with_ip s3 0 { x0 with i_lock := 0 }) = Ok tt (with_ip (with_ip s3 0 { x0 with i_lock := 0 }) 0 (dropped { x0 with i_lock := 0 }))) as E5.
  { apply iput_ok; [|done|by right; left]. apply lookup_with_ip with (y := x0). by rewrite Hin3. }
  rewrite with_ip_twice in E5. set (x4 := dropped _) in *.
  exists t3, x4. split; [|done]. unfold namei. rewrite (bind_ok _ _ _ (Some (1%nat, buf)) (with_ip s3 0 x4)); [unfold with_ip; by rewrite Hin3|]. unfold namex. cbn [hd]. rewrite Z.eqb_refl.
  erewrite bind_ok by exact E1. cbn [namex_loop length]. rewrite Esk. erewrite bind_ok by exact E2.
  erewrite bind_ok by (apply getip_ok; rewrite Hin2; reflexivity). change (i_type x0 =? T_DIR) with true. cbn [negb andb].
  erewrite bind_ok by exact HL. cbv beta iota. unfold iunlockput. erewrite bind_ok by (erewrite bind_ok by exact E4; exact E5).
  reflexivity.
Qed.

(** Opening and reading it. *)
Lemma open_image (s : fsys S) y0 y1 l cwd nm i arg bytes :
  stands (fstore s) v -> fsb s = the_sb -> inodes s = y0 :: y1 :: l -> fresh_cache (inodes s) -> is_name nm ->
  args !! i = Some arg -> bs !! i = Some bytes ->
  dname (entry_name arg) = dname nm -> dname nm <> dname [46] -> dname nm <> dname [46; 46] ->
  (forall j b, (j < i)%nat -> args !! j = Some b -> dname (entry_name b) <> dname nm) ->
  exists ip s1 s2, namei cwd (SLASH :: nm) s = Ok (Some ip) s1
    /\ (ilock ip;; readi ip 0 (Z.of_nat (length bytes))) s1 = Ok (Z.of_nat (length bytes), bytes) s2.
Proof.
  intros Hs Hsb Hin Hfresh Hnm Hi Hbs Hn H1' H2' Hj.
  destruct (namei_image s y0 y1 l cwd nm i arg) as (t & x0 & E1 & Ht); try done. set (s1 := mk_fsys _ _ _) in *.
  rewrite Hin in Hfresh. apply list.Forall_cons in Hfresh as [_ Hfr]. apply list.Forall_cons in Hfr as [[_ Hl1] _].
  assert (F !! Datatypes.S i = Some (T_FILE, bytes)) as Hf
    by (change (F !! Datatypes.S i) with ((pair T_FILE <$> bs) !! i); by rewrite list_lookup_fmap, Hbs).
  destruct (lookup_lt_is_Some_2 A (Datatypes.S i)) as [a Ha]; [rewrite (im_len _ _ _ HI); by eapply lookup_lt_Some|].
  destruct (ilock_image s1 1 (recycled 1 (Z.of_nat (Datatypes.S (Datatypes.S i))) y1) (Datatypes.S i) (T_FILE, bytes) a) as (t2 & E2 & Ht2 & Hf2); try done.
  pose proof (Forall_lookup_1 _ _ _ _ (im_small _ _ _ HI) Hf) as Hsm. cbn [snd] in Hsm. unfold SMALL, NDIRECT, NINDIRECT in Hsm.
  destruct (readi_ok the_sb _ v 1 _ 0 (Z.of_nat (length bytes)) Hf2) as (t3 & E3 & _); try done; try lia.
  - cbn [loaded i_size]. unfold disk_size. cbn [snd]. unfold maxbytes, MAXFILE, NTRIPINDIRECT, NDOUBINDIRECT, bsize, BSIZE. lia.
  - exact (image_no_hole _ _ _ HI v HM Hfew (Datatypes.S i) (T_FILE, bytes) a Hf Ha).
  - cbn [i_addrs loaded] in E3. rewrite (image_bytes _ _ _ HI v HM Hfew (Datatypes.S i) (T_FILE, bytes) a Hf Ha : frange _ _ 0 (Z.of_nat (length bytes)) = bytes) in E3.
    eexists 1%nat, s1, _. split; [exact E1|]. erewrite bind_ok by exact E2. exact E3.
Qed.
End Open.

(** ** Booting from the image *)
Definition image_disk (s : mkfs) : list (list Z) := (fun n => img s (Z.of_nat n)) <$> seq 0 (Z.to_nat FSSIZE).

Lemma length_image_disk s : Z.of_nat (length (image_disk s)) = FSSIZE.
Proof. unfold image_disk. rewrite length_fmap, length_seq. apply Z2Nat.id. unfold FSSIZE. lia. Qed.

Lemma image_blk s n : 0 <= n < FSSIZE -> blk (image_disk s) n = img s n.
Proof.
  intros Hn. unfold blk, image_disk. apply list_lookup_total_correct. rewrite list_lookup_fmap, lookup_seq_lt by lia.
  cbn [fmap option_fmap option_map]. rewrite Nat.add_0_l, Z2Nat.id by lia. done.
Qed.

Lemma image_crash s F A : image (img s) F A -> crash_disk 2 nlog (image_disk s) /\ hdr_n (blk (image_disk s) 2) = 0.
Proof.
  intros HI. assert (blk (image_disk s) 1 = super_block) as E1 by (rewrite image_blk by (unfold FSSIZE; lia); apply HI).
  assert (blk (image_disk s) 2 = zeroes) as E2 by (rewrite image_blk by (unfold FSSIZE; lia); apply (im_log _ _ _ HI); done).
  assert (hdr_n zeroes = 0) as E3 by (vm_compute; reflexivity). assert (hdr_list zeroes = []) as E4 by (unfold hdr_list; by rewrite E3).
  split; [|by rewrite E2]. split; rewrite ?E1, ?E2, ?E3, ?E4, ?length_image_disk; try done.
  - apply list.Forall_forall. intros b (n & -> & Hn)%list_elem_of_fmap. apply (f_block _ _ _ _ (im_forest _ _ _ HI)).
    apply elem_of_seq in Hn. lia.
  - constructor.
Qed.

(** A booted kernel in its first transaction. *)
Lemma image_boot s F A :
  image (img s) F A ->
  exists r r' v, recover (image_disk s) = Ok tt r /\ st_begin_op r = Ok tt r' /\ stands r' v /\ mounted (img s) v /\ hold v = [] /\ room the_sb 0 v.
Proof.
  intros HI. destruct (image_crash s F A HI) as [Hd He]. destruct (recover_fresh 2 nlog _ Hd He) as (r & E & Hsz & Hr & Hc).
  rewrite length_image_disk in Hsz, Hc.
  pose proof (Hr : stands r (booted 2 nlog r)) as Hr'. destruct (law_begin_op r _ Hr') as (r1 & E1 & H1); [done|].
  exists r, r1. eexists. split_and!; [exact E|exact E1|exact H1| |done|].
  - split; cbn [nblk cont wr booted].
    + exact Hsz.
    + intros n Hn. change (sb_inodestart the_sb) with 32 in Hn.
      etrans; [apply (Hc n)|apply image_blk; unfold FSSIZE in *; lia].
      destruct Hn as [->|Hn]; [by left|]. right. unfold home_block. change nlog with 30. lia.
    + intros n Hn. change (sb_inodestart the_sb) with 32 in Hn. change (home_block 2 nlog (disksize (dbio r)) n). rewrite Hsz. unfold home_block. change nlog with 30. lia.
  - split; vm_compute; [reflexivity|discriminate].
Qed.

(** An entry of the inode cache at the start. *)
Definition no_inode : inode := mk_inode 0 0 0 0 0 0 0 0 0 0 (replicate 13 0).

Lemma fresh_start : fresh_cache (replicate NINODE no_inode).
Proof. by apply Forall_replicate. Qed.

(** C11: from mkfs to an open file.  mkfs writes an image from files of the host;
    a kernel boots from it, recovering the log, and starts a system call on the
    file system; then the path [/name] of every file, under the name that mkfs
    gave it, leads to an inode, and reading that inode returns the bytes that
    the file has on the host. *)
Theorem mkfs_boot_open `{Devsw dsys} host args bs i arg bytes nm cwd :
  Forall2 (on_host host) args bs -> (length args <= 198)%nat -> nmeta + Z.of_nat (blocks (image_files args bs)) < 4096 ->
  args !! i = Some arg -> bs !! i = Some bytes -> is_name nm -> dname (entry_name arg) = dname nm ->
  dname nm <> dname [46] -> dname nm <> dname [46; 46] ->
  (forall j b, (j < i)%nat -> args !! j = Some b -> dname (entry_name b) <> dname nm) ->
  exists s r r' ip fs1 fs2,
    mkfs_main host args mkfs_start = Ok tt s
    /\ recover (image_disk s) = Ok tt r /\ st_begin_op r = Ok tt r'
    /\ namei cwd (SLASH :: nm) (mk_fsys r' the_sb (replicate NINODE no_inode)) = Ok (Some ip) fs1
    /\ (ilock ip;; readi ip 0 (Z.of_nat (length bytes))) fs1 = Ok (Z.of_nat (length bytes), bytes) fs2.
Proof.
  intros Hargs Hl Hb Hi Hbs Hnm Hn H1 H2 Hj. destruct (mkfs_main_ok host args bs Hargs Hl Hb) as (s & A & E & HI).
  destruct (image_boot s _ A HI) as (r & r' & v & E1 & E2 & Hs & HM & Hh & Hr).
  destruct (open_image (img s) args bs A v HI HM Hb Hl (Forall2_length Hargs) Hh Hr (mk_fsys r' the_sb (replicate NINODE no_inode))
    no_inode no_inode (replicate 48 no_inode) cwd nm i arg bytes Hs eq_refl eq_refl fresh_start Hnm Hi Hbs Hn H1 H2 Hj) as (ip & fs1 & fs2 & E3 & E4).
  exists s, r, r', ip, fs1, fs2. exact (conj E (conj E1 (conj E2 (conj E3 E4)))).
Qed.

(** ** A host with one file *)
Definition one_host (name : list Z) : option (list Z) := if bool_decide (name = [95; 97]) then Some [7; 8; 9] else None.

Lemma one_on_host : Forall2 (on_host one_host) [[95; 97]] [[7; 8; 9]].
Proof.
  constructor; [|constructor]. split_and!; [reflexivity| |apply Nat.leb_le; vm_compute; reflexivity].
  rewrite !not_elem_of_cons. split_and!; [lia|lia|apply not_elem_of_nil].
Qed.

Lemma one_small : nmeta + Z.of_nat (blocks (image_files [[95; 97]] [[7; 8; 9]])) < 4096.
Proof. vm_compute. reflexivity. Qed.

Lemma mkfs_builds_witness : exists s, mkfs_main one_host [[95; 97]] mkfs_start = Ok tt s /\ img s 2 = zeroes.
Proof.
  destruct (mkfs_builds one_host [[95; 97]] [[7; 8; 9]] one_on_host ltac:(cbn; lia) one_small) as (s & A & E & _ & Hz & _).
  exists s. exact (conj E (Hz 2 (conj (Z.le_refl 2) (eq_refl : 2 < 2 + nlog)))).
Defined.

#[local] Instance boot_devices : Devsw dsys := {| devsw_read := fun _ => None; devsw_write := fun _ => None |}.

Lemma a_is_name : is_name [97].
Proof.
  split_and!; [discriminate|..]; rewrite not_elem_of_cons; (split; [unfold SLASH; lia|apply not_elem_of_nil]).
Qed.

Lemma mkfs_boot_open_witness :
  exists s r r' ip fs1 fs2, mkfs_main one_host [[95; 97]] mkfs_start = Ok tt s
    /\ recover (image_disk s) = Ok tt r /\ st_begin_op r = Ok tt r'
    /\ namei 0 [SLASH; 97] (mk_fsys r' the_sb (replicate NINODE no_inode)) = Ok (Some ip) fs1
    /\ (ilock ip;; readi ip 0 3) fs1 = Ok (3, [7; 8; 9]) fs2.
Proof.
  apply (mkfs_boot_open one_host [[95; 97]] [[7; 8; 9]] 0 [95; 97] [7; 8; 9] [97] 0 one_on_host ltac:(cbn; lia) one_small eq_refl eq_refl a_is_name);
    [reflexivity|vm_compute; discriminate|vm_compute; discriminate|]. intros j b Hj. lia.
Defined.
