(* ===== verification/Ide.v ===== *)
(** * The disk driver

    Models ide.c: the queue of requests, which is linked through the buffers,
    [idestart], which programs the disk controller through its ports, the
    interrupt handler and [iderw].

    The controller is hardware: [Controller] has the four port operations; what
    the driver relies on is stated in IdeTheory.v.  A process that sleeps in
    [iderw] goes on when it has been woken up, so the driver is a state machine:
    a process enters [iderw], the disk interrupts, a process that has been woken
    up looks at its buffer again, or a process changes a buffer it holds.  The
    sections under [idelock] are single steps.

    The theorems show that requests are served in the order in which they
    arrive. *)

From stdpp Require Import gmap.
From S2P Require Import Prelude Bio Mkfs.
Open Scope Z_scope.

Definition SECTOR_SIZE : Z := 512.
Definition IDE_BSY : Z := 128.
Definition IDE_DRDY : Z := 64.
Definition IDE_DF : Z := 32.
Definition IDE_ERR : Z := 1.
Definition IDE_CMD_READ : Z := 32.
Definition IDE_CMD_WRITE : Z := 48.
Definition IDE_CMD_RDMUL : Z := 196.
Definition IDE_CMD_WRMUL : Z := 197.

(** The ports.  [insl] and [outsl] pass 4 bytes for each of [cnt] words.  [spin]
    bounds how often the status has to be read until the controller is ready. *)
Class Controller (D : Type) := {
  outb : Z -> Z -> D -> D;
  inb : Z -> D -> Z * D;
  outsl : Z -> list Z -> D -> D;
  insl : Z -> nat -> D -> list Z * D;
  spin : nat;
}.

(** The process inside [iderw] of a buffer. *)
Inductive waiter := Asleep | Runnable.

Record ide (D : Type) := mk_ide {
  ibufs : list buf;
  qnext : nat -> option nat;       (* the field of the buffers *)
  idequeue : option nat;
  iprocs : gmap nat waiter;        (* by the buffer it sleeps on *)
  havedisk1 : Z;
  ctl : D;
}.
Arguments mk_ide {_} _ _ _ _ _ _.
Arguments ibufs {_} _.
Arguments qnext {_} _.
Arguments idequeue {_} _.
Arguments iprocs {_} _.
Arguments havedisk1 {_} _.
Arguments ctl {_} _.

Definition with_ctl {D} (s : ide D) (d : D) : ide D := mk_ide (ibufs s) (qnext s) (idequeue s) (iprocs s) (havedisk1 s) d.
Definition with_bufs {D} (s : ide D) (l : list buf) : ide D := mk_ide l (qnext s) (idequeue s) (iprocs s) (havedisk1 s) (ctl s).
Definition with_queue {D} (s : ide D) (h : option nat) (q : nat -> option nat) : ide D :=
  mk_ide (ibufs s) q h (iprocs s) (havedisk1 s) (ctl s).
Definition with_procs {D} (s : ide D) (p : gmap nat waiter) : ide D :=
  mk_ide (ibufs s) (qnext s) (idequeue s) p (havedisk1 s) (ctl s).

Section Ide.
Context {D : Type} `{Controller D}.

Definition get_buf (b : nat) : M (ide D) buf := s ← get; deref (ibufs s !! b).
Definition set_buf (b : nat) (f : buf -> buf) : M (ide D) unit :=
  s ← get;
  _ ← deref (ibufs s !! b);
  put (with_bufs s (alter f b (ibufs s))).
Definition out (port v : Z) : M (ide D) unit := modify (fun s => with_ctl s (outb port v (ctl s))).
Definition in_ (port : Z) : M (ide D) Z :=
  s ← get;
  let '(r, d) := inb port (ctl s) in
  put (with_ctl s d);;
  mret r.

(** [while(((r = inb(0x1f7)) & (IDE_BSY|IDE_DRDY)) != IDE_DRDY);]: the status. *)
Fixpoint idewait_loop (fuel : nat) : M (ide D) Z :=
  match fuel with
  | O => no_fuel
  | S fuel =>
      r ← in_ 503;
      if Z.land r (Z.lor IDE_BSY IDE_DRDY) =? IDE_DRDY then mret r else idewait_loop fuel
  end.
Definition idewait (checkerr : bool) : M (ide D) Z :=
  r ← idewait_loop spin;
  if checkerr && negb (Z.land r (Z.lor IDE_DF IDE_ERR) =? 0) then mret (-1) else mret 0.

(** [for(i=0; i<1000; i++){ if(inb(0x1f7) != 0){ havedisk1 = 1; break; } }] *)
Definition probe : M (ide D) unit :=
  r ← for_loop (seq 0 1000) (fun _ => r ← in_ 503; mret (if r =? 0 then None else Some tt));
  match r with
  | Some _ => modify (fun s => mk_ide (ibufs s) (qnext s) (idequeue s) (iprocs s) 1 (ctl s))
  | None => mret tt
  end.

(** [initlock] and [ioapicenable] are left out. *)
Definition ideinit : M (ide D) unit :=
  idewait false;;
  out 502 (Z.lor 224 (Z.shiftl 1 4));;
  probe;;
  out 502 (Z.lor 224 (Z.shiftl 0 4)).

(** [b] is never null: it is the head of a queue that is not empty. *)
Definition idestart (b : nat) : M (ide D) unit :=
  x ← get_buf b;
  if FSSIZE <=? b_blockno x then panic "incorrect blockno"
  else
    let sector_per_block := Z.of_nat BSIZE / SECTOR_SIZE in
    let sector := s32 (b_blockno x * sector_per_block) in
    let read_cmd := if sector_per_block =? 1 then IDE_CMD_READ else IDE_CMD_RDMUL in
    let write_cmd := if sector_per_block =? 1 then IDE_CMD_WRITE else IDE_CMD_WRMUL in
    if 7 <? sector_per_block then panic "idestart"
    else
      idewait false;;
      out 1014 0;;
      out 498 sector_per_block;;
      out 499 (Z.land sector 255);;
      out 500 (Z.land (Z.shiftr sector 8) 255);;
      out 501 (Z.land (Z.shiftr sector 16) 255);;
      out 502 (Z.lor (Z.lor 224 (Z.shiftl (Z.land (b_dev x) 1) 4)) (Z.land (Z.shiftr sector 24) 15));;
      if ctrue (Z.land (b_flags x) B_DIRTY) then
        out 503 write_cmd;;
        modify (fun s => with_ctl s (outsl 496 (b_data x) (ctl s)))
      else out 503 read_cmd.

(** [insl(0x1f0, b->data, BSIZE/4)] *)
Definition read_data (b : nat) : M (ide D) unit :=
  s ← get;
  let '(d, c) := insl 496 (BSIZE / 4) (ctl s) in
  put (with_ctl s c);;
  set_buf b (fun x => { x with b_data := d }).

(** [sleep(b, &idelock)] and [wakeup(b)], for the process in [iderw] of [b]. *)
Definition ide_sleep (b : nat) : M (ide D) unit := modify (fun s => with_procs s (<[b := Asleep]> (iprocs s))).
Definition ide_wakeup (b : nat) : M (ide D) unit :=
  modify (fun s => with_procs s (alter (fun _ => Runnable) b (iprocs s))).

Definition ideintr : M (ide D) unit :=
  s ← get;
  match idequeue s with
  | None => mret tt
  | Some b =>
      put (with_queue s (qnext s b) (qnext s));;
      x ← get_buf b;
      (if negb (ctrue (Z.land (b_flags x) B_DIRTY)) then
         r ← idewait true;
         when (0 <=? r) (read_data b)
       else mret tt);;
      set_buf b (fun x => { x with b_flags := Z.lor (b_flags x) B_VALID });;
      set_buf b (fun x => { x with b_flags := Z.ldiff (b_flags x) B_DIRTY });;
      ide_wakeup b;;
      s ← get;
      match idequeue s with
      | None => mret tt
      | Some b' => idestart b'
      end
  end.

(** The loop that goes through the queue with [pp], and [*pp = b;], where [pp] is
    the address of [idequeue] or of the field [qnext] of a buffer.  No buffer is in
    the queue twice, so there are at most as many rounds as buffers. *)
Definition load_pp (pp : option nat) (s : ide D) : option nat :=
  match pp with None => idequeue s | Some c => qnext s c end.
Definition store_pp (pp : option nat) (v : option nat) : M (ide D) unit :=
  modify (fun s => match pp with
                   | None => with_queue s v (qnext s)
                   | Some c => with_queue s (idequeue s) (<[c := v]> (qnext s))
                   end).
Fixpoint queue_append (pp : option nat) (b : nat) (fuel : nat) : M (ide D) unit :=
  s ← get;
  match load_pp pp s with
  | None => store_pp pp (Some b)
  | Some c => match fuel with O => no_fuel | S fuel => queue_append (Some c) b fuel end
  end.

(** [iderw] up to the loop in which it sleeps. *)
Definition iderw_enter (b : nat) : M (ide D) unit :=
  x ← get_buf b;
  s ← get;
  if negb (ctrue (b_lock x)) then panic "iderw: buf not locked"
  else if Z.land (b_flags x) (Z.lor B_VALID B_DIRTY) =? B_VALID then panic "iderw: nothing to do"
  else if negb (b_dev x =? 0) && negb (ctrue (havedisk1 s)) then panic "iderw: ide disk 1 not present"
  else
    store_pp (Some b) None;;
    queue_append None b (length (ibufs s));;
    s ← get;
    when (bool_decide (idequeue s = Some b)) (idestart b).

(** A round of [while((b->flags & (B_VALID|B_DIRTY)) != B_VALID) sleep(b, &idelock);]:
    whether [iderw] returns. *)
Definition iderw_check (b : nat) : M (ide D) bool :=
  x ← get_buf b;
  if Z.land (b_flags x) (Z.lor B_VALID B_DIRTY) =? B_VALID then
    modify (fun s => with_procs s (delete b (iprocs s)));;
    mret true
  else
    ide_sleep b;;
    mret false.
Definition ide_rw (b : nat) : M (ide D) bool := iderw_enter b;; iderw_check b.

(** The buffers that the rest of the kernel hands to the driver. *)
Record buf_ok (x : buf) : Prop := {
  bo_block : 0 <= b_blockno x < FSSIZE;
  bo_data : length (b_data x) = BSIZE;
}.

(** What can happen: a process calls [iderw] on a buffer that nobody waits for,
    the disk interrupts, a process that was woken up goes on, or a process
    changes a buffer that nobody waits for. *)
Inductive istep (s : ide D) : ide D -> Prop :=
| step_request b r s' : iprocs s !! b = None -> ide_rw b s = Ok r s' -> istep s s'
| step_interrupt s' : ideintr s = Ok tt s' -> istep s s'
| step_resume b r s' : iprocs s !! b = Some Runnable -> iderw_check b s = Ok r s' -> istep s s'
| step_change b x : iprocs s !! b = None -> (b < length (ibufs s))%nat -> buf_ok x ->
    istep s (with_bufs s (<[b := x]> (ibufs s))).
End Ide.
