(* ===== verification/IdeTheory.v ===== *)
(** * The disk driver serves its requests in order

    What the driver relies on of a disk controller, and the refinement proof for
    Ide.v. *)

From stdpp Require Import gmap.
From S2P Require Import Prelude Bio BioTheory Mkfs Ide.
Open Scope Z_scope.

(** ** The controller *)

(** The contents of the two disks, by drive and sector. *)
Definition sectors : Type := Z -> Z -> list Z.
Definition put_sector (drive n : Z) (data : list Z) (B : sectors) : sectors :=
  fun dr m => if decide (dr = drive /\ m = n) then data else B dr m.

(** The registers of the task file, by port, and the drive and the sector they
    select. *)
Abbreviation registers := (Z -> Z).
Definition sel_drive (R : registers) : Z := Z.land (Z.shiftr (R 502) 4) 1.
Definition sel_sector (R : registers) : Z :=
  R 499 + 2 ^ 8 * R 500 + 2 ^ 16 * R 501 + 2 ^ 24 * Z.land (R 502) 15.

(** What a busy controller will do next: wait for a command, or offer the data of
    a sector. *)
Inductive job := Settle | Fetch (drive n : Z).

(** The protocol of the ATA standard for a host that polls, as far as commands
    complete without an error.  [idle d B R]: the controller has shown that it is
    ready (BSY clear, DRDY set), its registers hold [R] and the disks [B].  Only
    then may registers be written.  After a command it is [busy]: nothing is said
    of it but that the status shows it, and that a read of the status, one of the
    next [patience d], shows the end.  [offers d B drive n]: the data of a sector
    can be read; afterwards it is busy again.  [accepts d B drive n]: it takes the
    data for a sector. *)
Class ControllerSpec (D : Type) `{Controller D} := {
  idle : D -> sectors -> registers -> Prop;
  busy : D -> sectors -> job -> Prop;
  offers : D -> sectors -> Z -> Z -> Prop;
  accepts : D -> sectors -> Z -> Z -> Prop;
  patience : D -> nat;
  law_spin : forall d, (patience d < spin)%nat;
  law_idle : forall d B R, idle d B R -> let '(r, d') := inb 503 d in Z.land r 225 = IDE_DRDY /\ idle d' B R;
  law_busy : forall d B j, busy d B j -> let '(r, d') := inb 503 d in
    (Z.land r (Z.lor IDE_BSY IDE_DRDY) <> IDE_DRDY /\ busy d' B j /\ (patience d' < patience d)%nat)
    \/ (Z.land r 225 = IDE_DRDY
        /\ match j with Settle => exists R, idle d' B R | Fetch drive n => offers d' B drive n end);
  law_register : forall d B R port v, idle d B R -> 498 <= port <= 502 -> 0 <= v < 256 ->
    idle (outb port v d) B (<[port := v]> R);
  law_control : forall d B R, idle d B R -> idle (outb 1014 0 d) B R;
  law_read : forall d B R, idle d B R -> R 498 = 1 -> Z.land (R 502) 224 = 224 ->
    busy (outb 503 IDE_CMD_READ d) B (Fetch (sel_drive R) (sel_sector R));
  law_data : forall d B drive n, offers d B drive n -> let '(data, d') := insl 496 (BSIZE / 4) d in
    data = B drive n /\ busy d' B Settle;
  law_store : forall d B drive n data, accepts d B drive n -> length data = BSIZE ->
    busy (outsl 496 data d) (put_sector drive n data B) Settle;
}.

(** After a command to write, the standard lets the controller be busy before it
    asks for the data (DRQ), and a host has to wait for that.  [idestart] does
    not: it needs a controller that takes the data right after the command, as
    emulated ones do. *)
Class PromptWrites (D : Type) `{ControllerSpec D} : Prop :=
  law_write : forall d B R, idle d B R -> R 498 = 1 -> Z.land (R 502) 224 = 224 ->
    accepts (outb 503 IDE_CMD_WRITE d) B (sel_drive R) (sel_sector R).

(** The bits of the status that matter. *)
Lemma status_ready r : Z.land r 225 = IDE_DRDY -> Z.land r (Z.lor IDE_BSY IDE_DRDY) = IDE_DRDY /\ Z.land r (Z.lor IDE_DF IDE_ERR) = 0.
Proof.
  intros E. change (Z.lor IDE_BSY IDE_DRDY) with (Z.land 225 192). change (Z.lor IDE_DF IDE_ERR) with (Z.land 225 33).
  rewrite !Z.land_assoc, E. done.
Qed.

(** The register that selects the drive. *)
Definition selector (drive t : Z) : Z := Z.lor (Z.lor 224 (Z.shiftl drive 4)) t.

Lemma select_bits drive t : 0 <= drive < 2 -> 0 <= t < 16 ->
  Z.land (Z.shiftr (selector drive t) 4) 1 = drive /\ Z.land (selector drive t) 15 = t
  /\ Z.land (selector drive t) 224 = 224 /\ 0 <= selector drive t < 256.
Proof.
  intros Hd Ht.
  assert (Forall (fun k => Forall (fun j =>
    Z.land (Z.shiftr (selector (Z.of_nat k) (Z.of_nat j)) 4) 1 = Z.of_nat k /\ Z.land (selector (Z.of_nat k) (Z.of_nat j)) 15 = Z.of_nat j
    /\ Z.land (selector (Z.of_nat k) (Z.of_nat j)) 224 = 224 /\ 0 <= selector (Z.of_nat k) (Z.of_nat j) < 256) (seq 0 16)) (seq 0 2)) as Hall.
  { apply (bool_decide_unpack _). vm_compute. exact I. }
  rewrite list.Forall_forall in Hall. specialize (Hall (Z.to_nat drive) ltac:(apply elem_of_seq; lia)).
  rewrite list.Forall_forall in Hall. specialize (Hall (Z.to_nat t) ltac:(apply elem_of_seq; lia)). by rewrite !Z2Nat.id in Hall by lia.
Qed.

Lemma sector_bytes n :
  0 <= n < 2 ^ 28 ->
  Z.land n 255 + 2 ^ 8 * Z.land (Z.shiftr n 8) 255 + 2 ^ 16 * Z.land (Z.shiftr n 16) 255 + 2 ^ 24 * Z.land (Z.shiftr n 24) 15 = n.
Proof.
  intros Hn. change 255 with (Z.ones 8). change 15 with (Z.ones 4). rewrite !Z.land_ones, !Z.shiftr_div_pow2 by lia.
  change (2 ^ 28) with 268435456 in Hn. change (2 ^ 8) with 256. change (2 ^ 16) with 65536. change (2 ^ 24) with 16777216. change (2 ^ 4) with 16.
  Z.div_mod_to_equations. lia.
Qed.

Section Polling.
Context {D : Type} `{ControllerSpec D}.

(** What there is at the end of a job. *)
Definition done_with (d : D) (B : sectors) (j : job) : Prop :=
  match j with Settle => exists R, idle d B R | Fetch drive n => offers d B drive n end.

(** The controller has finished, or will. *)
Definition coming (d : D) (B : sectors) (j : job) : Prop :=
  busy d B j \/ (j = Settle /\ exists R, idle d B R).

(** Reading the status of a controller. *)
Lemma poll d B j :
  coming d B j -> let '(r, d') := inb 503 d in
  (Z.land r (Z.lor IDE_BSY IDE_DRDY) <> IDE_DRDY /\ coming d' B j /\ (patience d' < patience d)%nat)
  \/ (Z.land r 225 = IDE_DRDY /\ done_with d' B j).
Proof.
  intros [Hb|(-> & R & Hi)].
  - pose proof (law_busy d B j Hb) as Hl. destruct (inb 503 d) as [r d']. destruct Hl as [(H1 & H2 & H3)|H1]; [left|by right].
    split_and!; [done|by left|done].
  - pose proof (law_idle d B R Hi) as Hl. destruct (inb 503 d) as [r d']. right. split; [apply Hl|]. exists R. apply Hl.
Qed.

(** The registers are written. *)
Definition issue (drive n : Z) (d : D) : D :=
  outb 502 (selector drive (Z.land (Z.shiftr n 24) 15))
    (outb 501 (Z.land (Z.shiftr n 16) 255)
      (outb 500 (Z.land (Z.shiftr n 8) 255)
        (outb 499 (Z.land n 255) (outb 498 1 d)))).

Lemma land_range x k : 0 <= k -> 0 <= Z.land x (Z.ones k) < 2 ^ k.
Proof. intros Hk. rewrite Z.land_ones by done. apply Z.mod_pos_bound. lia. Qed.

Lemma issue_ok d B R drive n :
  idle d B R -> 0 <= drive < 2 -> 0 <= n < 2 ^ 28 ->
  exists R', idle (issue drive n d) B R' /\ R' 498 = 1 /\ Z.land (R' 502) 224 = 224 /\ sel_drive R' = drive /\ sel_sector R' = n.
Proof.
  intros Hi Hd Hn. unfold issue. pose proof (land_range (Z.shiftr n 24) 4 ltac:(lia)) as Ht. change (Z.ones 4) with 15 in Ht.
  destruct (select_bits drive _ Hd Ht) as (E1 & E2 & E3 & E4). eexists. split.
  { repeat (apply law_register; [|lia|first [done | lia | apply (land_range _ 8); lia]]). exact Hi. }
  unfold sel_drive, sel_sector. repeat (rewrite fn_lookup_insert || rewrite fn_lookup_insert_ne by lia).
  split; [done|]. split; [done|]. split; [done|]. rewrite E2. by apply sector_bytes.
Qed.
End Polling.

Section Theory.
Context {D : Type} `{HS : ControllerSpec D} {HW : PromptWrites D}.

Lemma idewait_loop_ok fuel s B j :
  coming (ctl s) B j -> (patience (ctl s) < fuel)%nat ->
  exists r d, idewait_loop fuel s = Ok r (with_ctl s d) /\ done_with d B j /\ Z.land r 225 = IDE_DRDY.
Proof.
  revert s. induction fuel as [|fuel IH]; intros s Hs Hf; [lia|]. cbn [idewait_loop].
  pose proof (poll _ _ _ Hs) as Hin. destruct (inb 503 (ctl s)) as [r d'] eqn:Ei.
  assert (in_ 503 s = Ok r (with_ctl s d')) as E1 by (unfold in_; erewrite bind_ok by reflexivity; by rewrite Ei).
  erewrite bind_ok by exact E1. destruct Hin as [(Hr & Hb & Hp)|[Hr Hd]].
  - rewrite (proj2 (Z.eqb_neq _ _)) by done. destruct (IH (with_ctl s d')) as (r' & d'' & E & Hd' & Hr'); [done|cbn; lia|]. by exists r', d''.
  - destruct (status_ready r Hr) as [-> _]. rewrite Z.eqb_refl. by exists r, d'.
Qed.

Lemma idewait_ok c s B j :
  coming (ctl s) B j -> exists d, idewait c s = Ok 0 (with_ctl s d) /\ done_with d B j.
Proof.
  intros Hs. destruct (idewait_loop_ok spin s B j Hs (law_spin _)) as (r & d & E & Hd & Hr). exists d. split; [|done].
  unfold idewait. erewrite bind_ok by exact E. destruct (status_ready r Hr) as [_ ->]. by rewrite andb_false_r.
Qed.

(** ** Requests *)

(** What a request asks for, on the disk. *)
Definition is_write (x : buf) : bool := ctrue (Z.land (b_flags x) B_DIRTY).
Definition drive_of (x : buf) : Z := Z.land (b_dev x) 1.

(** When the request of buffer [x] is done the disks hold what [after] says; until
    then the controller is [working]. *)
Definition after (x : buf) (B : sectors) : sectors :=
  if is_write x then put_sector (drive_of x) (b_blockno x) (b_data x) B else B.
Definition working (d : D) (x : buf) (B : sectors) : Prop :=
  if is_write x then coming d (after x B) Settle else busy d B (Fetch (drive_of x) (b_blockno x)).

Lemma drive_range x : 0 <= drive_of x < 2.
Proof. apply (land_range (b_dev x) 1). lia. Qed.

Lemma idestart_ok s b x B :
  ibufs s !! b = Some x -> buf_ok x -> coming (ctl s) B Settle ->
  exists d, idestart b s = Ok tt (with_ctl s d) /\ working d x B.
Proof.
  intros Hx [Hb Hd] Hi. unfold FSSIZE in Hb. unfold idestart. erewrite bind_ok; [|unfold get_buf; erewrite bind_ok by reflexivity; by rewrite Hx].
  rewrite (proj2 (Z.leb_gt _ _)) by (unfold FSSIZE; lia). change (Z.of_nat BSIZE / SECTOR_SIZE) with 1. rewrite Z.mul_1_r, s32_small by lia.
  change (1 =? 1) with true. change (7 <? 1) with false. cbv zeta match.
  destruct (idewait_ok false s B Settle Hi) as (d & E & R & Hi').
  erewrite bind_ok by exact E. do 6 erewrite bind_ok by reflexivity.
  destruct (issue_ok (outb 1014 0 d) B R (drive_of x) (b_blockno x) (law_control _ _ _ Hi') (drive_range x) ltac:(lia)) as (R' & Hi2 & Hc & Hl & E1 & E2).
  unfold working, after. fold (is_write x). destruct (is_write x).
  - erewrite bind_ok by reflexivity. eexists. split; [reflexivity|]. left.
    pose proof (law_write _ _ _ Hi2 Hc Hl) as Hwr. rewrite E1, E2 in Hwr. by apply (law_store _ B).
  - pose proof (law_read _ _ _ Hi2 Hc Hl) as Hrd. rewrite E1, E2 in Hrd. eexists. split; [reflexivity|exact Hrd].
Qed.

(** ** The queue *)

(** [h] is the head of the list [q], linked by [next]. *)
Fixpoint linked (h : option nat) (q : list nat) (next : nat -> option nat) : Prop :=
  match q with
  | [] => h = None
  | b :: q => h = Some b /\ linked (next b) q next
  end.

Lemma linked_ext h q next next' : (forall b, b ∈ q -> next' b = next b) -> linked h q next -> linked h q next'.
Proof.
  revert h. induction q as [|b q IH]; intros h Hn; [done|]. intros [-> Hc]. split; [done|]. rewrite Hn by left.
  apply IH; [|done]. intros c Hc'. apply Hn. by right.
Qed.

(** The loop, from the field of the buffer [c] on. *)
Lemma queue_append_next q (s : ide D) b c fuel :
  NoDup (c :: q) -> linked (qnext s c) q (qnext s) -> (length q <= fuel)%nat -> b ∉ c :: q -> qnext s b = None ->
  exists next, queue_append (Some c) b fuel s = Ok tt (with_queue s (idequeue s) next)
    /\ linked (next c) (q ++ [b]) next /\ (forall a, a ∉ c :: q -> next a = qnext s a).
Proof.
  revert c fuel. induction q as [|c' q IH]; intros c fuel Hn Hc Hf Hb Hb0.
  - exists (<[c := Some b]> (qnext s)). cbn in Hc. split.
    + destruct fuel; cbn [queue_append]; erewrite bind_ok by reflexivity; unfold load_pp; by rewrite Hc.
    + split.
      * cbn. rewrite fn_lookup_insert, fn_lookup_insert_ne by set_solver. done.
      * intros a Ha. rewrite fn_lookup_insert_ne by set_solver. done.
  - destruct Hc as [Ec Hc]. destruct fuel as [|fuel]; [cbn in Hf; lia|]. apply list.NoDup_cons in Hn as [Hn1 Hn2].
    destruct (IH c' fuel Hn2 Hc) as (next & E & Hch & Hsame); [cbn in Hf; lia|set_solver|done|].
    exists next. split_and!.
    + cbn [queue_append]. erewrite bind_ok by reflexivity. unfold load_pp. rewrite Ec. exact E.
    + cbn. split; [|done]. rewrite Hsame by done. done.
    + intros a Ha. apply Hsame. set_solver.
Qed.

Lemma append_ok q (s : ide D) b fuel :
  NoDup q -> linked (idequeue s) q (qnext s) -> (length q <= fuel)%nat -> b ∉ q ->
  exists next, (store_pp (Some b) None;; queue_append None b fuel) s
      = Ok tt (with_queue s (if q is [] then Some b else idequeue s) next)
    /\ linked (if q is [] then Some b else idequeue s) (q ++ [b]) next.
Proof.
  intros Hn Hc Hf Hb. erewrite bind_ok by reflexivity. set (s0 := with_queue s (idequeue s) (<[b := None]> (qnext s))).
  assert (qnext s0 b = None) as Hb0 by (cbn; by rewrite fn_lookup_insert).
  destruct q as [|c q].
  - exists (qnext s0). split; [|done]. destruct fuel; cbn [queue_append]; erewrite bind_ok by reflexivity; unfold load_pp; cbn [idequeue s0 with_queue];
      by rewrite Hc.
  - destruct fuel as [|fuel]; [cbn in Hf; lia|]. destruct Hc as [Ec Hc].
    assert (linked (qnext s0 c) q (qnext s0)) as Hc0.
    { change (qnext s0) with (<[b := None]> (qnext s)). rewrite fn_lookup_insert_ne by set_solver.
      apply (linked_ext _ _ (qnext s)); [|done]. intros a Ha. rewrite fn_lookup_insert_ne; [done|]. set_solver. }
    destruct (queue_append_next q s0 b c fuel Hn Hc0) as (next & E & Hch & _); [cbn in Hf; lia|done|done|].
    exists next. split; [|cbn; split; [by rewrite Ec|done]]. cbn [queue_append]. erewrite bind_ok by reflexivity.
    unfold load_pp. cbn [idequeue s0 with_queue]. rewrite Ec, E. unfold s0, with_queue. cbn. by rewrite Ec.
Qed.

(** ** The specification

    Requests are served one after the other: a dirty buffer is written to its
    sector, another one gets the contents of its sector. *)
Record spec := mk_spec {
  sbufs : list buf;
  sectors_of : sectors;
  waiting : list nat;
}.

Definition synced (x : buf) (B : sectors) : buf :=
  { x with b_flags := Z.ldiff (Z.lor (b_flags x) B_VALID) B_DIRTY;
           b_data := if is_write x then b_data x else B (drive_of x) (b_blockno x) }.

Definition served (b : nat) (x : buf) (q : list nat) (A : spec) : spec :=
  mk_spec (<[b := synced x (sectors_of A)]> (sbufs A)) (after x (sectors_of A)) q.

(** A buffer that has to be synced, and one that is. *)
Definition valid (x : buf) : Prop := Z.land (b_flags x) (Z.lor B_VALID B_DIRTY) = B_VALID.
Definition asks (x : buf) : Prop := b_lock x <> 0 /\ ~ valid x.
Definition accepted (b : nat) (A : spec) : spec := mk_spec (sbufs A) (sectors_of A) (waiting A ++ [b]).

Inductive sstep (A : spec) : spec -> Prop :=
| spec_accept b x : sbufs A !! b = Some x -> b ∉ waiting A -> asks x -> sstep A (accepted b A)
| spec_serve b x q : waiting A = b :: q -> sbufs A !! b = Some x -> sstep A (served b x q A)
| spec_change b x : b ∉ waiting A -> buf_ok x -> sstep A (mk_spec (<[b := x]> (sbufs A)) (sectors_of A) (waiting A)).

(** The controller works on the first request. *)
Definition engaged (d : D) (A : spec) : Prop :=
  match waiting A with
  | [] => coming d (sectors_of A) Settle
  | b :: _ => exists x, sbufs A !! b = Some x /\ working d x (sectors_of A)
  end.

Record refines (s : ide D) (A : spec) : Prop := {
  rf_bufs : ibufs s = sbufs A;
  rf_queue : linked (idequeue s) (waiting A) (qnext s);
  rf_nodup : NoDup (waiting A);
  rf_there : Forall (fun b => (b < length (sbufs A))%nat) (waiting A);
  rf_ok : Forall buf_ok (sbufs A);
  rf_sectors : forall dr n, length (sectors_of A dr n) = BSIZE;
  rf_asleep : forall b, iprocs s !! b = Some Asleep <-> b ∈ waiting A;
  rf_woken : forall b, iprocs s !! b = Some Runnable -> exists x, sbufs A !! b = Some x /\ valid x;
  rf_ctl : engaged (ctl s) A;
}.

Lemma buf_of A b : Forall (fun b => (b < length (sbufs A))%nat) (waiting A) -> b ∈ waiting A -> exists x, sbufs A !! b = Some x.
Proof. intros Hf Hb. rewrite list.Forall_forall in Hf. by apply lookup_lt_is_Some_2, Hf. Qed.

(** The queue is not longer than the table of buffers. *)
Lemma queue_fits (q : list nat) n : NoDup q -> Forall (fun b => (b < n)%nat) q -> (length q <= n)%nat.
Proof.
  intros Hn Hf. rewrite <- (length_seq n 0). apply submseteq_length, NoDup_submseteq; [done|].
  intros b Hb. rewrite list.Forall_forall in Hf. apply elem_of_seq. specialize (Hf b Hb). lia.
Qed.

Lemma get_buf_ok (s : ide D) b x : ibufs s !! b = Some x -> get_buf b s = Ok x s.
Proof. intros E. unfold get_buf. erewrite bind_ok by reflexivity. by rewrite E. Qed.

Lemma set_buf_ok (s : ide D) b x f :
  ibufs s !! b = Some x -> set_buf b f s = Ok tt (with_bufs s (<[b := f x]> (ibufs s))).
Proof.
  intros E. unfold set_buf. erewrite bind_ok by reflexivity. rewrite E. erewrite bind_ok by reflexivity.
  unfold put. do 2 f_equal. apply list_eq. intros j. destruct (decide (j = b)) as [->|Hne].
  - rewrite list_lookup_alter, decide_True by done. rewrite E. by rewrite list_lookup_insert_eq by (by eapply lookup_lt_Some).
  - rewrite list_lookup_alter_ne, list_lookup_insert_ne by done. done.
Qed.

Lemma after_length x B dr n : buf_ok x -> (forall dr n, length (B dr n) = BSIZE) -> length (after x B dr n) = BSIZE.
Proof. intros [_ Hd] HB. unfold after, put_sector. destruct (is_write x); [|done]. by case_decide. Qed.

Lemma synced_ok x B : buf_ok x -> (forall dr n, length (B dr n) = BSIZE) -> buf_ok (synced x B).
Proof. intros [Hb Hd] HB. split; [done|]. cbn. by destruct (is_write x). Qed.

Lemma synced_valid x B : valid (synced x B).
Proof.
  unfold valid.  change (b_flags (synced x B)) with (Z.ldiff (Z.lor (b_flags x) B_VALID) B_DIRTY). apply Z.bits_inj'. intros n Hn. rewrite Z.land_spec, Z.ldiff_spec, !Z.lor_spec.
  change B_VALID with (2 ^ 1). change B_DIRTY with (2 ^ 2). rewrite !Z.pow2_bits_eqb by done.
  destruct (Z.testbit (b_flags x) n), (Z.eqb_spec 1 n), (Z.eqb_spec 2 n); done || lia.
Qed.

(** The interrupt that completes the request of [b]. *)
Definition complete (b : nat) : M (ide D) unit :=
  x ← get_buf b;
  (if negb (is_write x) then r ← idewait true; when (0 <=? r) (read_data b) else mret tt);;
  set_buf b (fun x => { x with b_flags := Z.lor (b_flags x) B_VALID });;
  set_buf b (fun x => { x with b_flags := Z.ldiff (b_flags x) B_DIRTY }).

Lemma complete_ok s b x B :
  ibufs s !! b = Some x -> working (ctl s) x B ->
  exists d, complete b s = Ok tt (with_ctl (with_bufs s (<[b := synced x B]> (ibufs s))) d) /\ coming d (after x B) Settle.
Proof.
  intros Hx Hw. unfold complete. erewrite bind_ok by (apply get_buf_ok; exact Hx). unfold working, after in *.
  assert (forall y (d : D), (set_buf b (fun x => { x with b_flags := Z.lor (b_flags x) B_VALID });;
    set_buf b (fun x => { x with b_flags := Z.ldiff (b_flags x) B_DIRTY })) (with_ctl (with_bufs s (<[b := y]> (ibufs s))) d)
    = Ok tt (with_ctl (with_bufs s (<[b := { y with b_flags := Z.ldiff (Z.lor (b_flags y) B_VALID) B_DIRTY }]> (ibufs s))) d)) as Hfl.
  { intros y d. assert (forall z, <[b := z]> (ibufs s) !! b = Some z) as Hl by (intros z; apply list_lookup_insert_eq; by eapply lookup_lt_Some).
    erewrite bind_ok by (apply set_buf_ok; apply Hl). unfold with_ctl, with_bufs. cbn [ibufs qnext idequeue iprocs havedisk1 ctl].
    rewrite list_insert_insert_eq. erewrite set_buf_ok by apply Hl. unfold with_bufs. cbn [ibufs qnext idequeue iprocs havedisk1 ctl].
    by rewrite list_insert_insert_eq. }
  destruct (is_write x) eqn:Ew; cbn [negb].
  - erewrite bind_ok by reflexivity. exists (ctl s). split; [|done]. specialize (Hfl x (ctl s)).
    rewrite list_insert_id in Hfl by done. destruct s as [u n q p h c]. unfold synced. rewrite Ew. exact Hfl.
  - destruct (idewait_ok true s B (Fetch (drive_of x) (b_blockno x)) (or_introl Hw)) as (d & E & Hr).
    pose proof (law_data d B (drive_of x) (b_blockno x) Hr) as Hd. destruct (insl 496 (BSIZE / 4) d) as [data d'] eqn:Ei. destruct Hd as [-> Hd].
    assert (read_data b (with_ctl s d) = Ok tt (with_ctl (with_bufs s (<[b := { x with b_data := B (drive_of x) (b_blockno x) }]> (ibufs s))) d')) as E2.
    { unfold read_data. erewrite bind_ok by reflexivity. cbn [ctl with_ctl]. rewrite Ei. erewrite bind_ok by reflexivity. by erewrite set_buf_ok by exact Hx. }
    erewrite bind_ok by (erewrite bind_ok by exact E; exact E2). rewrite Hfl. exists d'. split; [|by left]. unfold synced. by rewrite Ew.
Qed.

(** What is left when the first request is done: the next one is started. *)
Lemma next_ok s A :
  ibufs s = sbufs A -> linked (idequeue s) (waiting A) (qnext s) -> Forall (fun b => (b < length (sbufs A))%nat) (waiting A) -> Forall buf_ok (sbufs A) ->
  coming (ctl s) (sectors_of A) Settle ->
  exists d, match idequeue s with None => mret tt | Some b => idestart b end s = Ok tt (with_ctl s d) /\ engaged d A.
Proof.
  intros Eb Eq Hth Hok Hi. unfold engaged. destruct (waiting A) as [|b q] eqn:Ew.
  { cbn in Eq. rewrite Eq. exists (ctl s). split; [by destruct s|done]. }
  destruct Eq as [-> _]. destruct (buf_of A b) as [x Hx]; [by rewrite Ew|rewrite Ew; left|].
  destruct (idestart_ok s b x (sectors_of A)) as (d & E & Hw); [by rewrite Eb|by eapply Forall_lookup_1|done|]. exists d. split; [done|by exists x].
Qed.

Lemma woken_lookup (m : gmap nat waiter) b c :
  alter (fun _ => Runnable) b m !! c = if decide (c = b) then (fun _ => Runnable) <$> m !! c else m !! c.
Proof. case_decide as E; [subst; apply lookup_alter_eq|]. by rewrite lookup_alter_ne. Qed.

Lemma served_refines s b x q A d :
  refines s A -> waiting A = b :: q -> sbufs A !! b = Some x -> engaged d (served b x q A) ->
  refines (mk_ide (sbufs (served b x q A)) (qnext s) (qnext s b) (alter (fun _ => Runnable) b (iprocs s)) (havedisk1 s) d) (served b x q A).
Proof.
  intros [R1 R2 R3 R4 R5 R6 R7 R8 R9] Ew Hx He. rewrite Ew in R2, R3, R4. apply list.NoDup_cons in R3 as [R3' R3]. apply list.Forall_cons in R4 as [_ R4].
  pose proof (Forall_lookup_1 _ _ _ _ R5 Hx) as Hxo. split; try done; cbn [sbufs sectors_of waiting served iprocs qnext idequeue].
  - apply R2.
  - by rewrite length_insert.
  - apply Forall_insert; [done|by apply synced_ok].
  - intros dr n. by apply after_length.
  - intros c. rewrite woken_lookup. case_decide as E.
    + subst c. split; [by destruct (iprocs s !! b)|done].
    + rewrite R7, Ew, elem_of_cons. naive_solver.
  - intros c. rewrite woken_lookup. case_decide as E.
    + subst c. intros _. exists (synced x (sectors_of A)). split; [|apply synced_valid]. apply list_lookup_insert_eq. by eapply lookup_lt_Some.
    + intros Hc. destruct (R8 c Hc) as (y & Hy & Hv). exists y. by rewrite list_lookup_insert_ne.
Qed.

Lemma ideintr_ok s A :
  refines s A ->
  match waiting A with
  | [] => ideintr s = Ok tt s
  | b :: q => exists x s', sbufs A !! b = Some x /\ ideintr s = Ok tt s' /\ refines s' (served b x q A)
      /\ havedisk1 s' = havedisk1 s /\ iprocs s' = alter (fun _ => Runnable) b (iprocs s)
  end.
Proof.
  intros HR. pose proof HR as [R1 R2 R3 R4 R5 R6 R7 R8 R9]. destruct (waiting A) as [|b q] eqn:Ew.
  { unfold ideintr. erewrite bind_ok by reflexivity. cbn in R2. by rewrite R2. }
  unfold engaged in R9. rewrite Ew in R9. destruct R9 as (x & Hx & Hw). destruct R2 as [Eq R2].
  set (s1 := with_queue s (qnext s b) (qnext s)).
  destruct (complete_ok s1 b x (sectors_of A)) as (d & E1 & Hi); [by unfold s1; cbn [ibufs with_queue]; rewrite R1|done|].
  set (s2 := with_ctl _ d) in E1. apply list.Forall_cons in R4 as [_ R4'].
  set (s3 := with_procs s2 (alter (fun _ => Runnable) b (iprocs s))).
  destruct (next_ok s3 (served b x q A)) as (d' & E2 & He).
  { unfold s3, s2, s1, served. cbn [ibufs sbufs with_procs with_ctl with_bufs with_queue]. by rewrite R1. }
  { exact R2. }
  { cbn [waiting served sbufs]. rewrite length_insert. done. }
  { pose proof (Forall_lookup_1 _ _ _ _ R5 Hx). apply Forall_insert; [done|by apply synced_ok]. }
  { exact Hi. }
  exists x, (with_ctl s3 d'). split; [done|]. split_and!; [| |done|done].
  - unfold ideintr. erewrite bind_ok by reflexivity. rewrite Eq. cbv match. erewrite bind_ok by reflexivity. fold s1. unfold complete in E1.
    apply bind_inv_ok in E1 as (y & u1 & F1 & E1). erewrite bind_ok by exact F1. apply bind_inv_ok in E1 as ([] & u2 & F2 & E1).
    erewrite bind_ok by exact F2. apply bind_inv_ok in E1 as ([] & u3 & F3 & F4). do 2 erewrite bind_ok by eassumption.
    do 2 erewrite bind_ok by reflexivity. exact E2.
  - pose proof (served_refines s b x q A d' HR Ew Hx He) as HR'. unfold served in HR' at 1. cbn [sbufs] in HR'. rewrite <- R1 in HR'. exact HR'.
Qed.

Lemma iderw_enter_ok s A b x :
  refines s A -> sbufs A !! b = Some x -> b ∉ waiting A -> asks x -> b_dev x = 0 \/ havedisk1 s <> 0 ->
  exists h n d, let s' := with_ctl (with_queue s h n) d in
    iderw_enter b s = Ok tt s' /\ linked h (waiting A ++ [b]) n /\ engaged d (accepted b A).
Proof.
  intros HR Hx Hb [Hl Hf] Hdev. pose proof HR as [R1 R2 R3 R4 R5 R6 R7 R8 R9].
  destruct (append_ok (waiting A) s b (length (ibufs s)) R3 R2) as (next & Ea & Hch); [rewrite R1; by apply queue_fits|done|].
  set (h := match waiting A with [] => _ | _ => _ end) in *. set (s1 := with_queue s h next) in *.
  assert (iderw_enter b s = when (bool_decide (h = Some b)) (idestart b) s1) as E1.
  { unfold iderw_enter. erewrite bind_ok by (apply get_buf_ok; by rewrite R1). erewrite bind_ok by reflexivity.
    unfold valid in Hf. unfold ctrue. rewrite (proj2 (Z.eqb_neq _ _) Hl), (proj2 (Z.eqb_neq _ _) Hf). cbn [negb].
    assert (negb (b_dev x =? 0) && negb (negb (havedisk1 s =? 0)) = false) as ->.
    { destruct Hdev as [->|Hd]; [done|]. rewrite (proj2 (Z.eqb_neq _ _) Hd). by rewrite andb_false_r. }
    apply bind_inv_ok in Ea as ([] & u1 & F1 & F2). erewrite bind_ok by exact F1. erewrite bind_ok by exact F2. by erewrite bind_ok by reflexivity. }
  exists h, next. unfold engaged in R9. destruct (waiting A) as [|b0 q] eqn:Ew.
  - rewrite bool_decide_eq_true_2 in E1 by done. destruct (idestart_ok s1 b x (sectors_of A)) as (d & E & Hw); [cbn; by rewrite R1|by eapply Forall_lookup_1|done|].
    exists d. split_and!; [by rewrite E1|done|]. unfold engaged, accepted. cbn. rewrite Ew. by exists x.
  - destruct R2 as [Eq _]. rewrite bool_decide_eq_false_2 in E1 by (unfold h; rewrite Eq; set_solver).
    exists (ctl s). split_and!; [rewrite E1; by destruct s|done|]. unfold engaged, accepted. cbn. rewrite Ew. exact R9.
Qed.

(** [iderw] queues the buffer, and its process goes to sleep. *)
Lemma ide_rw_ok s A b x :
  refines s A -> iprocs s !! b = None -> sbufs A !! b = Some x -> asks x -> b_dev x = 0 \/ havedisk1 s <> 0 ->
  exists s', ide_rw b s = Ok false s' /\ refines s' (accepted b A) /\ havedisk1 s' = havedisk1 s /\ iprocs s' !! b = Some Asleep.
Proof.
  intros HR Hp Hx Ha Hdev. pose proof HR as [R1 R2 R3 R4 R5 R6 R7 R8 R9].
  assert (b ∉ waiting A) as Hb by (intros Hb; apply R7 in Hb; congruence).
  destruct (iderw_enter_ok s A b x HR Hx Hb Ha Hdev) as (h & n & d & E & Hch & He). set (s1 := with_ctl _ d) in E.
  exists (with_procs s1 (<[b := Asleep]> (iprocs s))). split_and!.
  - unfold ide_rw. erewrite bind_ok by exact E. unfold iderw_check. erewrite bind_ok by (apply get_buf_ok; cbn; by rewrite R1).
    destruct Ha as [_ Hf]. rewrite (proj2 (Z.eqb_neq _ _)) by exact Hf. done.
  - split; try done; cbn [waiting accepted sbufs iprocs with_procs].
    + apply list.NoDup_app. split_and!; [done| |apply NoDup_singleton]. intros y Hy ->%list_elem_of_singleton. done.
    + apply Forall_app_2; [done|]. apply Forall_singleton. by eapply lookup_lt_Some.
    + intros c. rewrite elem_of_app, list_elem_of_singleton, lookup_insert_Some, R7. naive_solver.
    + intros c [[_ ?]|[_ Hc]]%lookup_insert_Some; [done|]. by apply R8.
  - done.
  - cbn. by rewrite lookup_insert_eq.
Qed.

(** A process that was woken up returns. *)
Lemma resume_ok s A b :
  refines s A -> iprocs s !! b = Some Runnable ->
  iderw_check b s = Ok true (with_procs s (delete b (iprocs s))) /\ refines (with_procs s (delete b (iprocs s))) A.
Proof.
  intros HR Hp. pose proof HR as [R1 R2 R3 R4 R5 R6 R7 R8 R9]. destruct (R8 b Hp) as (x & Hx & Hv). split.
  - unfold iderw_check. erewrite bind_ok by (apply get_buf_ok; by rewrite R1). rewrite Hv, Z.eqb_refl. done.
  - split; try done; cbn [iprocs with_procs].
    + intros c. rewrite <- R7, lookup_delete_Some. split; [by intros [_ ?]|]. intros Hc. split; [|done]. congruence.
    + intros c [_ Hc]%lookup_delete_Some. by apply R8.
Qed.

(** ** Refinement *)
Lemma enter_asks s b r s' :
  ide_rw b s = Ok r s' -> exists x, ibufs s !! b = Some x /\ asks x /\ (b_dev x = 0 \/ havedisk1 s <> 0).
Proof.
  unfold ide_rw. intros ([] & u & E & _)%bind_inv_ok. unfold iderw_enter in E. destruct (ibufs s !! b) as [x|] eqn:Hx.
  2: { revert E. unfold get_buf. msimpl. by rewrite Hx. }
  erewrite bind_ok in E by (apply get_buf_ok; exact Hx). erewrite bind_ok in E by reflexivity. exists x. split; [done|]. unfold asks, valid, ctrue in *.
  destruct (Z.eqb_spec (b_lock x) 0) as [|Hl]; [done|]. cbn [negb] in E.
  destruct (Z.eqb_spec (Z.land (b_flags x) (Z.lor B_VALID B_DIRTY)) B_VALID) as [|Hf]; [done|]. split; [done|].
  destruct (Z.eqb_spec (b_dev x) 0); [by left|right]. by destruct (Z.eqb_spec (havedisk1 s) 0).
Qed.

Lemma change_refines s A b x :
  refines s A -> iprocs s !! b = None -> buf_ok x ->
  refines (with_bufs s (<[b := x]> (ibufs s))) (mk_spec (<[b := x]> (sbufs A)) (sectors_of A) (waiting A)).
Proof.
  intros [R1 R2 R3 R4 R5 R6 R7 R8 R9] Hp Hx.
  assert (b ∉ waiting A) as Hb by (intros Hb; apply R7 in Hb; congruence).
  split; try done; cbn [sbufs waiting sectors_of ibufs iprocs with_bufs].
  - by rewrite R1.
  - by rewrite length_insert.
  - by apply Forall_insert.
  - intros c Hc. destruct (R8 c Hc) as (y & Hy & Hv). exists y. rewrite list_lookup_insert_ne; [done|]. intros ->. congruence.
  - unfold engaged in *. cbn [waiting sbufs sectors_of]. destruct (waiting A) as [|c q]; [done|]. destruct R9 as (y & Hy & Hw).
    exists y. rewrite list_lookup_insert_ne by set_solver. done.
Qed.

Lemma step_refines s A s' : refines s A -> istep s s' -> exists A', rtc sstep A A' /\ refines s' A'.
Proof.
  intros HR [b r u Hb E|u E|b r u Hb E|b x Hb Hlt Hx].
  - destruct (enter_asks s b r u E) as (x & Hx & Ha & Hd). rewrite (rf_bufs s A HR) in Hx.
    destruct (ide_rw_ok s A b x HR Hb Hx Ha Hd) as (w & E' & HR' & _). assert (w = u) as -> by congruence.
    eexists. split; [|exact HR']. eapply rtc_once, spec_accept; [done| |done]. intros Hin. apply (rf_asleep s A HR) in Hin. congruence.
  - pose proof (ideintr_ok s A HR) as Hi. destruct (waiting A) as [|b q] eqn:Ew.
    + assert (u = s) as -> by congruence. by exists A.
    + destruct Hi as (x & w & Hx & E' & HR' & _). assert (w = u) as -> by congruence. eexists. split; [by eapply rtc_once, spec_serve|done].
  - destruct (resume_ok s A b HR Hb) as [E' HR']. exists A. split; [done|]. by assert (u = with_procs s (delete b (iprocs s))) as -> by congruence.
  - eexists. split; [|by apply change_refines]. apply rtc_once, spec_change; [|done]. intros Hin. apply (rf_asleep s A HR) in Hin. congruence.
Qed.

Lemma steps_refine s s' : rtc istep s s' -> forall A, refines s A -> exists A', rtc sstep A A' /\ refines s' A'.
Proof.
  induction 1 as [s|s u s' Hs _ IH]; intros A HR; [by exists A|].
  destruct (step_refines s A u HR Hs) as (A1 & H1 & HR1). destruct (IH A1 HR1) as (A2 & H2 & HR2). exists A2. split; [by etrans|done].
Qed.

(** The first [n] requests served in order. *)
Fixpoint serve (n : nat) (A : spec) : spec :=
  match n, waiting A with
  | S n, b :: q => match sbufs A !! b with Some x => serve n (served b x q A) | None => A end
  | _, _ => A
  end.
(** [n] interrupts. *)
Fixpoint interrupts (n : nat) : M (ide D) unit :=
  match n with O => mret tt | S n => ideintr;; interrupts n end.

Lemma interrupts_ok n s A :
  refines s A -> (n <= length (waiting A))%nat ->
  exists s', interrupts n s = Ok tt s' /\ refines s' (serve n A) /\ waiting (serve n A) = drop n (waiting A)
    /\ (forall b, iprocs s !! b = Some Runnable -> iprocs s' !! b = Some Runnable)
    /\ (forall b, b ∈ take n (waiting A) -> iprocs s' !! b = Some Runnable).
Proof.
  revert s A. induction n as [|n IH]; intros s A HR Hn.
  { exists s. split_and!; [done..|]. intros b Hb. by apply not_elem_of_nil in Hb. }
  pose proof (ideintr_ok s A HR) as Hi. cbn [interrupts serve]. destruct (waiting A) as [|b q] eqn:Ew; [cbn in Hn; lia|].
  destruct Hi as (x & s1 & Hx & E1 & HR1 & _ & Ep). rewrite Hx.
  destruct (IH s1 (served b x q A) HR1) as (s2 & E2 & HR2 & Hw & Hkeep & Hrun); [cbn in *; lia|].
  exists s2. erewrite bind_ok by exact E1. split_and!; [done..| |].
  - intros c Hc. apply Hkeep. rewrite Ep, woken_lookup, Hc. by case_decide.
  - cbn [take]. intros c [->|Hc]%elem_of_cons; [|by apply Hrun]. apply Hkeep. rewrite Ep, woken_lookup, decide_True by done.
    rewrite (proj2 (rf_asleep s A HR b)); [done|]. rewrite Ew. left.
Qed.

(** C14: the disk driver serves requests in order.  Whatever the order in which
    processes enter [iderw] and go on in it, the disk interrupts and buffers are
    changed by those who hold them, every state of the driver is one of a server
    that takes the requests in the order of their arrival and, one after the
    other, writes a dirty buffer to its sector or fills another one from its
    sector.  A process that calls [iderw] sleeps through as many interrupts as
    there were requests before it, which serve them; the next one serves its own
    request and wakes it up, and it returns.  The controller follows the protocol
    of the ATA standard, reports no errors, and takes the data of a write right
    after the command, as [idestart] does not wait for its request. *)
Theorem ide_serves_in_order s A b x :
  refines s A -> iprocs s !! b = None -> sbufs A !! b = Some x -> asks x -> b_dev x = 0 \/ havedisk1 s <> 0 ->
  (forall s', rtc istep s s' -> exists A', rtc sstep A A' /\ refines s' A')
  /\ exists s1, ide_rw b s = Ok false s1 /\ refines s1 (accepted b A)
     /\ (forall n, (n <= length (waiting A))%nat -> exists s', interrupts n s1 = Ok tt s'
            /\ refines s' (serve n (accepted b A)) /\ iprocs s' !! b = Some Asleep)
     /\ exists s2 s3, interrupts (S (length (waiting A))) s1 = Ok tt s2 /\ iprocs s2 !! b = Some Runnable
          /\ iderw_check b s2 = Ok true s3 /\ refines s3 (serve (S (length (waiting A))) (accepted b A)).
Proof.
  intros HR Hp Hx Ha Hd. split; [intros s' Hs; by eapply steps_refine|].
  destruct (ide_rw_ok s A b x HR Hp Hx Ha Hd) as (s1 & E1 & HR1 & _).
  assert (length (waiting (accepted b A)) = S (length (waiting A))) as El by (cbn; rewrite length_app; cbn; lia).
  exists s1. split_and!; [done..| |].
  - intros n Hn. destruct (interrupts_ok n s1 _ HR1) as (s' & E' & HR' & Hw & _ & _); [lia|]. exists s'. split_and!; [done..|].
    apply (rf_asleep s' _ HR'). rewrite Hw. cbn. rewrite drop_app_le by lia. apply elem_of_app. right. left.
  - destruct (interrupts_ok (S (length (waiting A))) s1 _ HR1) as (s2 & E2 & HR2 & _ & _ & Hrun); [lia|].
    assert (iprocs s2 !! b = Some Runnable) as Hb.
    { apply Hrun. rewrite take_ge by lia. cbn. apply elem_of_app. right. left. }
    destruct (resume_ok s2 _ b HR2 Hb) as [E3 HR3]. eexists s2, _. split_and!; [done|done|exact E3|exact HR3].
Qed.

(** ** memide.c *)

(** [iderw] of memide.c syncs the buffer in the same way, for the requests that
    bio.c makes: [bread] of a buffer without flags, [bwrite] of a valid one. *)
Lemma memide_syncs t b x (B : sectors) :
  bufs t !! b = Some x -> b_lock x = 1 -> b_flags x = 0 \/ b_flags x = 6 -> b_dev x = 1 -> 0 <= b_blockno x < disksize t ->
  (forall n, 0 <= n < disksize t -> disk t !! Z.to_nat n = Some (B 1 n)) ->
  exists t', Bio.iderw b t = Ok tt t' /\ bufs t' = <[b := synced x B]> (bufs t)
    /\ forall n, 0 <= n < disksize t -> disk t' !! Z.to_nat n = Some (after x B 1 n).
Proof.
  intros Hx Hl Hf Hdev Hb HB. assert (drive_of x = 1) as Hdr by (unfold drive_of; by rewrite Hdev). destruct Hf as [Hf|Hf].
  - rewrite (iderw_read t b x (B 1 (b_blockno x)) Hx Hl Hf Hdev Hb (HB _ Hb)). eexists. split; [reflexivity|].
    unfold after, synced, is_write. rewrite Hf, Hdr. split; [done|exact HB].
  - rewrite (iderw_write t b x Hx Hl Hf Hdev Hb). eexists. split; [reflexivity|]. unfold after, synced, is_write. rewrite Hf, Hdr. split; [|].
    + cbn [bufs]. done.
    + intros n Hn. change (disk _) with (<[Z.to_nat (b_blockno x) := b_data x]> (disk t)). change (ctrue (Z.land 6 B_DIRTY)) with true.
      cbv match. unfold put_sector. destruct (decide (n = b_blockno x)) as [->|Hne].
      * rewrite decide_True by done. rewrite list_lookup_insert_eq; [done|]. unfold disksize in Hb. lia.
      * rewrite decide_False by naive_solver. rewrite list_lookup_insert_ne by lia. by apply HB.
Qed.

(** A read that the controller reports as failed is taken as a success: the
    buffer becomes valid with the data it had before. *)
Theorem ideintr_hides_error (s : ide D) b x d r :
  idequeue s = Some b -> qnext s b = None -> ibufs s !! b = Some x -> is_write x = false -> (0 < spin)%nat ->
  inb 503 (ctl s) = (r, d) -> Z.land r (Z.lor IDE_BSY IDE_DRDY) = IDE_DRDY -> Z.land r (Z.lor IDE_DF IDE_ERR) <> 0 ->
  ideintr s = Ok tt (mk_ide (<[b := { x with b_flags := Z.ldiff (Z.lor (b_flags x) B_VALID) B_DIRTY }]> (ibufs s))
                       (qnext s) None (alter (fun _ => Runnable) b (iprocs s)) (havedisk1 s) d).
Proof.
  intros Hq Hqn Hx Hw Hsp Hin Hrdy Herr. unfold ideintr. erewrite bind_ok by reflexivity. rewrite Hq. erewrite bind_ok by reflexivity.
  rewrite Hqn. set (s1 := with_queue _ _ _). erewrite bind_ok by (by apply get_buf_ok). fold (is_write x). rewrite Hw. cbn [negb].
  assert (idewait true s1 = Ok (-1) (with_ctl s1 d)) as E1.
  { unfold idewait. destruct spin as [|fuel]; [lia|]. cbn [idewait_loop]. erewrite bind_ok.
    2: { erewrite bind_ok; [|unfold in_; erewrite bind_ok by reflexivity; change (ctl s1) with (ctl s); rewrite Hin; reflexivity].
         rewrite Hrdy, Z.eqb_refl. reflexivity. }
    by rewrite (proj2 (Z.eqb_neq _ _) Herr). }
  erewrite bind_ok by (erewrite bind_ok by exact E1; reflexivity).
  erewrite bind_ok by (apply set_buf_ok; exact Hx). erewrite bind_ok; [|apply set_buf_ok; apply list_lookup_insert_eq; by eapply lookup_lt_Some].
  do 2 erewrite bind_ok by reflexivity. cbn [ibufs idequeue with_procs with_bufs with_ctl with_queue s1].
  rewrite list_insert_insert_eq. reflexivity.
Qed.
End Theory.

(** ** A controller

    A controller with the registers of the task file that ignores its registers
    and has no data as long as it is busy, which it is for a few reads of the
    status after each command and each transfer. *)
Inductive phase := Waits | Fetches | Offers | Accepts.
Record sim := mk_sim {
  sregs : Z -> Z;
  sdata : sectors;
  sbusy : nat;
  sphase : phase;
}.

Definition sim_outb (port v : Z) (d : sim) : sim :=
  match sbusy d, sphase d with
  | O, Waits =>
      if port =? 503 then
        if v =? IDE_CMD_READ then mk_sim (sregs d) (sdata d) 2 Fetches
        else if v =? IDE_CMD_WRITE then mk_sim (sregs d) (sdata d) 0 Accepts
        else d
      else mk_sim (<[port := v]> (sregs d)) (sdata d) 0 Waits
  | _, _ => d
  end.
Definition sim_inb (d : sim) : Z * sim :=
  match sbusy d, sphase d with
  | S n, ph => (IDE_BSY, mk_sim (sregs d) (sdata d) n ph)
  | O, Fetches => (Z.lor IDE_DRDY 8, mk_sim (sregs d) (sdata d) 0 Offers)
  | O, Waits => (IDE_DRDY, d)
  | O, _ => (Z.lor IDE_DRDY 8, d)
  end.
#[export] Instance sim_controller : Controller sim := {|
  outb := sim_outb;
  inb port d := sim_inb d;
  outsl port data d :=
    match sbusy d, sphase d with
    | O, Accepts => mk_sim (sregs d) (put_sector (sel_drive (sregs d)) (sel_sector (sregs d)) data (sdata d)) 2 Waits
    | _, _ => d
    end;
  insl port cnt d :=
    match sbusy d, sphase d with
    | O, Offers => (sdata d (sel_drive (sregs d)) (sel_sector (sregs d)), mk_sim (sregs d) (sdata d) 1 Waits)
    | _, _ => (replicate (4 * cnt) 255, d)
    end;
  spin := 3%nat;
|}.

#[export] Program Instance sim_spec : ControllerSpec sim := {|
  idle d B R := d = mk_sim (sregs d) B 0 Waits /\ forall p, 498 <= p <= 502 -> sregs d p = R p;
  busy d B j := exists n, (n <= 2)%nat /\ match j with
    | Settle => d = mk_sim (sregs d) B n Waits
    | Fetch drive m => d = mk_sim (sregs d) B n Fetches /\ sel_drive (sregs d) = drive /\ sel_sector (sregs d) = m
    end;
  offers d B drive m := d = mk_sim (sregs d) B 0 Offers /\ sel_drive (sregs d) = drive /\ sel_sector (sregs d) = m;
  accepts d B drive m := d = mk_sim (sregs d) B 0 Accepts /\ sel_drive (sregs d) = drive /\ sel_sector (sregs d) = m;
  patience d := Nat.min (sbusy d) 2;
|}.
Next Obligation. intros d. cbn. lia. Qed.
Next Obligation. intros [r B' n ph] B R [[= -> -> ->] HR]. cbn. done. Qed.
Next Obligation.
  intros [r B' n ph] B j (k & Hk & Hj). destruct j as [|drive m]; [|destruct Hj as (Hj & Hd & Hm)]; injection Hj as -> -> ->; cbn in *; destruct k as [|k]; cbn.
  - right. split; [done|]. by exists r.
  - left. split; [done|]. split; [exists k; split; [lia|done]|lia].
  - right. done.
  - left. split; [done|]. split; [exists k; split; [lia|done]|lia].
Qed.
Next Obligation.
  intros [r B' n ph] B R port v [[= -> -> ->] HR] Hp Hv. cbn in *. unfold sim_outb. cbn. rewrite (proj2 (Z.eqb_neq port 503)) by lia. cbn. split; [done|].
  intros p Hpr. destruct (decide (p = port)) as [->|Hne]; [by rewrite !fn_lookup_insert|]. rewrite !fn_lookup_insert_ne by done. by apply HR.
Qed.
Next Obligation.
  intros [r B' n ph] B R [[= -> -> ->] HR]. cbn in *. split; [done|]. intros p Hp. rewrite fn_lookup_insert_ne by lia. by apply HR.
Qed.
Next Obligation.
  intros [r B' n ph] B R [[= -> -> ->] HR] Hc Hl. cbn in *. exists 2%nat. split; [lia|]. unfold sel_drive, sel_sector. by rewrite !HR by lia.
Qed.
Next Obligation. intros [r B' n ph] B drive m ([= -> -> ->] & Hd & Hm). cbn in *. rewrite Hd, Hm. split; [done|]. exists 1%nat. split; [lia|done]. Qed.
Next Obligation. intros [r B' n ph] B drive m data ([= -> -> ->] & Hd & Hm) Hlen. cbn in *. rewrite Hd, Hm. exists 2%nat. split; [lia|done]. Qed.

#[export] Instance sim_prompt : PromptWrites sim.
Proof. intros [r B' n ph] B R [[= -> -> ->] HR] Hc Hl. cbn in *. unfold sel_drive, sel_sector. by rewrite !HR by lia. Qed.

(** Two buffers: the first waits to be written to sector 5 of disk 1, the second
    is to be read from there. *)
Definition ide_data : list Z := replicate BSIZE 7.
Definition ide_bufs : list buf := [mk_buf 6 1 5 1 1 0 0 ide_data; mk_buf 0 1 5 1 1 0 0 (replicate BSIZE 0)].
Definition blank_disk : sectors := fun _ _ => replicate BSIZE 0.
Definition ide_spec : spec := mk_spec ide_bufs blank_disk [].

Lemma ide_start : refines (mk_ide ide_bufs (fun _ => None) None ∅ 1 (mk_sim (fun _ => 0) blank_disk 0 Waits)) ide_spec.
Proof.
  split; try done.
  - constructor.
  - repeat (constructor; [split; [cbn; unfold FSSIZE; lia|reflexivity]|]). constructor.
  - intros b. cbn. split; [done|]. by intros ?%not_elem_of_nil.
  - right. split; [done|]. by exists (fun _ => 0).
Qed.

Lemma ide_serves_in_order_witness :
  exists s s1 s2 s3 : ide sim, ide_rw 1 s = Ok false s1 /\ interrupts 2 s1 = Ok tt s2 /\ iderw_check 1 s2 = Ok true s3
    /\ b_data <$> (ibufs s3 !! 1%nat) = Some ide_data.
Proof.
  destruct (ide_rw_ok _ _ 0 (mk_buf 6 1 5 1 1 0 0 ide_data) ide_start eq_refl eq_refl) as (s & E0 & HR & Eh & Hp);
    [split; discriminate|by right|].
  destruct (ide_serves_in_order s (accepted 0 ide_spec) 1 (mk_buf 0 1 5 1 1 0 0 (replicate BSIZE 0)))
    as (_ & s1 & E1 & _ & _ & s2 & s3 & E2 & _ & E3 & HR3); [exact HR| |reflexivity|split; discriminate|right; rewrite Eh; discriminate|].
  - destruct (iprocs s !! 1%nat) as [[]|] eqn:E1; [| |done].
    + apply (rf_asleep _ _ HR) in E1. cbn in E1. apply list_elem_of_singleton in E1. discriminate.
    + destruct (rf_woken _ _ HR _ E1) as (x & [= <-] & Hv). discriminate Hv.
  - exists s, s1, s2, s3. split; [exact E1|]. split; [exact E2|]. split; [exact E3|]. rewrite (rf_bufs _ _ HR3). reflexivity.
Defined.
