(* ===== verification/Utils.v ===== *)
(** * The small user programs

    Models cat.c, wc.c, echo.c, rm.c, mkdir.c, ln.c, kill.c, ls.c, zombie.c, init.c
    and the [main] of grep.c over the system calls they make.  A string is the list of its characters.  A
    program sees its descriptors, each with the bytes that can still be read from
    it; what it does is the list of the calls that succeeded, in order.

    What the calls return depends on the rest of the system and is a parameter:
    [files], what [open] finds under a name; [stats], what [stat] says about it;
    and [res], the answer to call number [n].  A negative answer is a failure; the
    answer to a read is how many bytes are there at the moment, which for a pipe
    or the console can be fewer than the program asks for.  [exit] is the end of
    the program: where a function can call it in the middle, it returns whether
    it came back. *)

From S2P Require Import Prelude CString Fs Printf Programs Grep.
Open Scope Z_scope.

Inductive uevent :=
| Put (fd : Z) (text : list Z)
| Unlinked (path : list Z)
| Made (path : list Z)
| Linked (old new : list Z)
| Killed (pid : Z)
| Slept (ticks : Z)
| Started (path : list Z)
| Node (path : list Z) (major minor : Z)
| Duplicated (fd : Z).

Record user := mk_user {
  ufds : list (option (list Z));
  ncalls : nat;
  shown : list uevent;
}.

Section Utilities.
Context (files : list Z -> option (list Z)) (stats : list Z -> option stat) (res : nat -> Z).

(** ** The system calls *)

(** The answer to the next call. *)
Definition answer : M user Z :=
  s ← get;
  put { s with ncalls ::= S };;
  mret (res (ncalls s)).

Definition show (e : uevent) : M user unit := modify (fun s => { s with shown ::= fun l => l ++ [e] }).

(** [printf(fd, ...)] of a text; it does not look at what [write] returns. *)
Definition uprint (fd : Z) (text : list Z) : M user unit := show (Put fd text).

(** A call that shows [e] when it succeeds. *)
Definition act (e : uevent) : M user Z :=
  r ← answer;
  if r <? 0 then mret (-1) else show e;; mret 0.

Definition uwrite (fd : Z) (text : list Z) : M user Z :=
  r ← answer;
  if r <? 0 then mret (-1) else show (Put fd text);; mret (Z.of_nat (length text)).

(** Returns the result and the bytes in the buffer. *)
Definition uread (fd : Z) (n : nat) : M user (Z * list Z) :=
  r ← answer;
  s ← get;
  match slot (ufds s) fd with
  | None => mret (-1, [])
  | Some rest =>
      if r <? 0 then mret (-1, [])
      else
        let k := Nat.min n (Nat.max 1 (Z.to_nat r)) in
        put { s with ufds ::= <[Z.to_nat fd := Some (drop k rest)]> };;
        mret (Z.of_nat (length (take k rest)), take k rest)
  end.

Definition uopen (path : list Z) : M user Z :=
  s ← get;
  match files path, lowest (ufds s) with
  | Some bytes, Some i => put { s with ufds ::= <[i := Some bytes]> };; mret (Z.of_nat i)
  | _, _ => mret (-1)
  end.

Definition uclose (fd : Z) : M user unit := modify (fun s => { s with ufds ::= <[Z.to_nat fd := None]> }).

(** What is left to read from [fd]: a loop that reads at least a byte in each
    round ends after this many rounds. *)
Definition left_of (s : user) (fd : Z) : nat := match slot (ufds s) fd with Some l => length l | None => 0 end.

(** ** cat.c *)
Fixpoint cat_loop (fd : Z) (fuel : nat) : M user bool :=
  match fuel with
  | O => no_fuel
  | S fuel =>
      '(n, buf) ← uread fd 512;
      if 0 <? n then
        w ← uwrite 1 buf;
        if negb (w =? n) then uprint 1 (chars "cat: write error" ++ [10]);; mret false
        else cat_loop fd fuel
      else if n <? 0 then uprint 1 (chars "cat: read error" ++ [10]);; mret false
      else mret true
  end.
Definition cat (fd : Z) : M user bool := s ← get; cat_loop fd (S (left_of s fd)).

Fixpoint cat_files (args : list (list Z)) : M user unit :=
  match args with
  | [] => mret tt
  | arg :: args =>
      fd ← uopen arg;
      if fd <? 0 then uprint 1 (chars "cat: cannot open " ++ arg ++ [10])
      else
        back ← cat fd;
        if back : bool then uclose fd;; cat_files args else mret tt
  end.
Definition cat_main (args : list (list Z)) : M user unit :=
  match args with
  | [] => cat 0;; mret tt
  | _ => cat_files args
  end.

(** ** wc.c *)
Definition is_blank (c : Z) : bool := bool_decide (c ∈ [32; 13; 9; 10; 11]).

(** [l], [w], [c] and [inword] *)
Definition counts : Type := Z * Z * Z * bool.
Definition wc_byte (st : counts) (b : Z) : counts :=
  let '(l, w, c, inword) := st in
  let c := s32 (c + 1) in
  let l := if b =? 10 then s32 (l + 1) else l in
  if is_blank b then (l, w, c, false)
  else if negb inword then (l, s32 (w + 1), c, true)
  else (l, w, c, inword).

(** The loop; [None] when it could not read. *)
Fixpoint wc_loop (fd : Z) (st : counts) (fuel : nat) : M user (option counts) :=
  match fuel with
  | O => no_fuel
  | S fuel =>
      '(n, buf) ← uread fd 512;
      if 0 <? n then wc_loop fd (foldl wc_byte st buf) fuel
      else if n <? 0 then mret None
      else mret (Some st)
  end.

(** [printf(1, "%d %d %d %s\n", l, w, c, name)] *)
Definition wc_line (l w c : Z) (name : list Z) : list Z :=
  printint l 10 true ++ [32] ++ printint w 10 true ++ [32] ++ printint c 10 true ++ [32] ++ name ++ [10].

Definition wc (fd : Z) (name : list Z) : M user bool :=
  s ← get;
  r ← wc_loop fd (0, 0, 0, false) (S (left_of s fd));
  match r with
  | None => uprint 1 (chars "wc: read error" ++ [10]);; mret false
  | Some (l, w, c, _) => uprint 1 (wc_line l w c name);; mret true
  end.

Fixpoint wc_files (args : list (list Z)) : M user unit :=
  match args with
  | [] => mret tt
  | arg :: args =>
      fd ← uopen arg;
      if fd <? 0 then uprint 1 (chars "wc: cannot open " ++ arg ++ [10])
      else
        back ← wc fd arg;
        if back : bool then uclose fd;; wc_files args else mret tt
  end.
Definition wc_main (args : list (list Z)) : M user unit :=
  match args with
  | [] => wc 0 [];; mret tt
  | _ => wc_files args
  end.

(** ** echo.c *)
Fixpoint echo_loop (args : list (list Z)) : M user unit :=
  match args with
  | [] => mret tt
  | arg :: args => uprint 1 (arg ++ match args with [] => [10] | _ => [32] end);; echo_loop args
  end.
Definition echo_main (args : list (list Z)) : M user unit := echo_loop args.

(** ** rm.c and mkdir.c *)
Fixpoint rm_loop (args : list (list Z)) : M user unit :=
  match args with
  | [] => mret tt
  | arg :: args =>
      r ← act (Unlinked arg);
      if r <? 0 then uprint 2 (chars "rm: " ++ arg ++ chars " failed to delete" ++ [10])
      else rm_loop args
  end.
Definition rm_main (args : list (list Z)) : M user unit :=
  match args with
  | [] => uprint 2 (chars "Usage: rm files..." ++ [10])
  | _ => rm_loop args
  end.

Fixpoint mkdir_loop (args : list (list Z)) : M user unit :=
  match args with
  | [] => mret tt
  | arg :: args =>
      r ← act (Made arg);
      if r <? 0 then uprint 2 (chars "mkdir: " ++ arg ++ chars " failed to create" ++ [10])
      else mkdir_loop args
  end.
Definition mkdir_main (args : list (list Z)) : M user unit :=
  match args with
  | [] => uprint 2 (chars "Usage: mkdir files..." ++ [10])
  | _ => mkdir_loop args
  end.

(** ** ln.c and kill.c *)
Definition ln_main (args : list (list Z)) : M user unit :=
  match args with
  | [old; new] =>
      r ← act (Linked old new);
      if r <? 0 then uprint 2 (chars "link " ++ old ++ [32] ++ new ++ chars ": failed" ++ [10]) else mret tt
  | _ => uprint 2 (chars "Usage: ln old new" ++ [10])
  end.

(** [atoi] of a string of its own *)
Definition atoi_of (s : list Z) : Z := default 0 (Ulib.atoi (store_bytes (fun _ => 0) 0 s) 0 (S (length s))).

Definition kill_main (args : list (list Z)) : M user unit :=
  match args with
  | [] => uprint 2 (chars "usage: kill pid..." ++ [10])
  | _ => for_each args (fun arg => act (Killed (atoi_of arg));; mret tt)
  end.

(** ** zombie.c *)
Definition zombie_main : M user unit :=
  pid ← answer;                                         (* fork() *)
  if 0 <? pid then act (Slept 5);; mret tt else mret tt.

(** ** [main] of grep.c *)

(** [grep(pattern, fd)], where a read returns as many bytes as there are. *)
Definition grep_fd (pattern : list Z) (fd : Z) : M user unit :=
  s ← get;
  match slot (ufds s) fd with
  | None => mret tt
  | Some rest =>
      match grep pattern rest with
      | None => no_fuel
      | Some out => put { s with ufds ::= <[Z.to_nat fd := Some []]> };; uprint 1 out
      end
  end.

Fixpoint grep_files (pattern : list Z) (args : list (list Z)) : M user unit :=
  match args with
  | [] => mret tt
  | arg :: args =>
      fd ← uopen arg;
      if fd <? 0 then uprint 1 (chars "grep: cannot open " ++ arg ++ [10])
      else grep_fd pattern fd;; uclose fd;; grep_files pattern args
  end.
Definition grep_main (args : list (list Z)) : M user unit :=
  match args with
  | [] => uprint 2 (chars "usage: grep pattern [file ...]" ++ [10])
  | [pattern] => grep_fd pattern 0
  | pattern :: args => grep_files pattern args
  end.

(** ** ls.c *)

(** The part of a path after its last slash. *)
Fixpoint base_name (path : list Z) : list Z :=
  match path with
  | [] => []
  | c :: path' => if bool_decide (SLASH ∈ path') then base_name path' else if c =? SLASH then path' else path
  end.
Definition fmtname (path : list Z) : list Z :=
  let p := base_name path in
  if (DIRSIZ <=? length p)%nat then p else p ++ replicate (DIRSIZ - length p) 32.

(** [printf(1, "%s %d %d %d\n", fmtname(path), st.type, st.ino, st.size)] *)
Definition ls_line (path : list Z) (st : stat) : list Z :=
  fmtname path ++ [32] ++ printint (st_type st) 10 true ++ [32] ++ printint (s32 (st_ino st)) 10 true ++ [32]
  ++ printint (s32 (st_size st)) 10 true ++ [10].

(** The string in a buffer *)
Fixpoint cut_nul (s : list Z) : list Z :=
  match s with
  | c :: s => if c =? 0 then [] else c :: cut_nul s
  | [] => []
  end.

(** The loop over a directory. *)
Fixpoint ls_loop (fd : Z) (path : list Z) (fuel : nat) : M user unit :=
  match fuel with
  | O => no_fuel
  | S fuel =>
      '(n, de) ← uread fd DIRENT;
      if n =? Z.of_nat DIRENT then
        if de_inum de =? 0 then ls_loop fd path fuel
        else
          let buf := path ++ [SLASH] ++ cut_nul (de_name de) in
          match stats buf with
          | None => uprint 1 (chars "ls: cannot stat " ++ buf ++ [10])
          | Some st => uprint 1 (ls_line buf st)
          end;;
          ls_loop fd path fuel
      else mret tt
  end.

Definition ls (path : list Z) : M user unit :=
  fd ← uopen path;
  if fd <? 0 then uprint 2 (chars "ls: cannot open " ++ path ++ [10])
  else
    match stats path with
    | None => uprint 2 (chars "ls: cannot stat " ++ path ++ [10]);; uclose fd
    | Some st =>
        (if st_type st =? T_FILE then uprint 1 (ls_line path st)
         else if st_type st =? T_DIR then
           if (512 <? length path + 1 + DIRSIZ + 1)%nat then uprint 1 (chars "ls: path too long" ++ [10])
           else s ← get; ls_loop fd path (S (left_of s fd))
         else mret tt);;
        uclose fd
    end.
Definition ls_main (args : list (list Z)) : M user unit :=
  match args with
  | [] => ls [46]
  | _ => for_each args ls
  end.

(** ** init.c *)
Definition console_path : list Z := chars "console".

(** [while((wpid=wait()) >= 0 && wpid != pid) printf(1, "zombie!\n");] *)
Fixpoint init_wait (pid : Z) (fuel : nat) : M user unit :=
  match fuel with
  | O => no_fuel
  | S fuel =>
      wpid ← answer;
      if (0 <=? wpid) && negb (wpid =? pid) then uprint 1 (chars "zombie!" ++ [10]);; init_wait pid fuel
      else mret tt
  end.

(** The loop, for [fuel] shells. *)
Fixpoint init_loop (fuel : nat) (waits : nat) : M user unit :=
  match fuel with
  | O => mret tt
  | S fuel =>
      uprint 1 (chars "init: starting sh" ++ [10]);;
      pid ← answer;
      if pid <? 0 then uprint 1 (chars "init: fork failed" ++ [10])
      else if pid =? 0 then
        r ← act (Started (chars "sh"));
        if r <? 0 then uprint 1 (chars "init: exec sh failed" ++ [10]) else mret tt
      else
        init_wait pid waits;;
        init_loop fuel waits
  end.

Definition init_main (fuel waits : nat) : M user unit :=
  r ← answer;                                           (* open("console", O_RDWR) *)
  (if r <? 0 then
     act (Node console_path 1 1);;
     answer;;                                           (* open("console", O_RDWR) *)
     mret tt
   else mret tt);;
  act (Duplicated 0);;
  act (Duplicated 0);;
  init_loop fuel waits.
End Utilities.
