(* ===== verification/UtilsTheory.v ===== *)
(** * What the small user programs do

    cat writes the contents of its files one after the other and wc counts their
    lines, words and characters, in however many pieces they are read; ls lists
    the entries of a directory that are in use. *)

From S2P Require Import Prelude CString Fs Printf Programs Utils.
Open Scope Z_scope.

(** The text written to a descriptor. *)
Definition output (fd : Z) (l : list uevent) : list Z :=
  l ≫= (fun e => match e with Put fd' text => if fd' =? fd then text else [] | _ => [] end).

Lemma output_app fd l l' : output fd (l ++ l') = output fd l ++ output fd l'.
Proof. apply bind_app. Qed.
Lemma output_put fd l text : output fd (l ++ [Put fd text]) = output fd l ++ text.
Proof. rewrite output_app. cbn. by rewrite Z.eqb_refl, app_nil_r. Qed.

Lemma slot_insert {A} (F : list (option A)) fd x o : slot F fd = Some x -> slot (<[Z.to_nat fd := o]> F) fd = o.
Proof.
  unfold slot. destruct (fd <? 0); [done|]. intros E. destruct (F !! Z.to_nat fd) eqn:EF; [|done].
  rewrite list_lookup_insert_eq by (by eapply lookup_lt_Some). done.
Qed.

Section Theory.
Context (files : list Z -> option (list Z)) (stats : list Z -> option stat) (res : nat -> Z).

Lemma answer_ok s : answer res s = Ok (res (ncalls s)) (mk_user (ufds s) (S (ncalls s)) (shown s)).
Proof. by destruct s. Qed.
Lemma show_ok e s : show e s = Ok tt (mk_user (ufds s) (ncalls s) (shown s ++ [e])).
Proof. by destruct s. Qed.

(** A read of bytes that are there. *)
Lemma uread_ok s fd n rest :
  (forall k, 0 <= res k) -> (0 < n)%nat -> slot (ufds s) fd = Some rest ->
  exists k, (0 < k <= n)%nat /\ uread res fd n s
    = Ok (Z.of_nat (length (take k rest)), take k rest)
        (mk_user (<[Z.to_nat fd := Some (drop k rest)]> (ufds s)) (S (ncalls s)) (shown s)).
Proof.
  intros Hres Hn Hs. exists (Nat.min n (Nat.max 1 (Z.to_nat (res (ncalls s))))). split; [lia|].
  unfold uread. erewrite bind_ok by apply answer_ok. erewrite bind_ok by reflexivity. cbn [ufds]. rewrite Hs.
  by rewrite (proj2 (Z.ltb_ge _ _)) by apply Hres.
Qed.

Lemma uwrite_ok s fd text :
  (forall k, 0 <= res k) ->
  uwrite res fd text s = Ok (Z.of_nat (length text)) (mk_user (ufds s) (S (ncalls s)) (shown s ++ [Put fd text])).
Proof.
  intros Hres. unfold uwrite. erewrite bind_ok by apply answer_ok. rewrite (proj2 (Z.ltb_ge _ _)) by apply Hres.
  by erewrite bind_ok by apply show_ok.
Qed.

(** ** cat *)
Lemma cat_loop_ok fuel s fd rest :
  (forall k, 0 <= res k) -> slot (ufds s) fd = Some rest -> (length rest < fuel)%nat ->
  exists s', cat_loop res fd fuel s = Ok true s' /\ output 1 (shown s') = output 1 (shown s) ++ rest
    /\ ufds s' = <[Z.to_nat fd := Some []]> (ufds s).
Proof.
  intros Hres. revert s rest. induction fuel as [|fuel IH]; intros s rest Hs Hf; [lia|].
  destruct (uread_ok s fd 512 rest Hres ltac:(lia) Hs) as (k & Hk & E). cbn [cat_loop]. erewrite bind_ok by exact E. cbv beta iota.
  destruct rest as [|b rest].
  { rewrite take_nil, drop_nil. eexists. split; [reflexivity|]. split; [by rewrite app_nil_r|done]. }
  assert (length (take k (b :: rest)) > 0)%nat as Hpos by (rewrite length_take; cbn; lia).
  rewrite (proj2 (Z.ltb_lt _ _)) by lia. erewrite bind_ok by (apply uwrite_ok; exact Hres).
  rewrite Z.eqb_refl. cbn [negb ufds ncalls shown].
  match goal with |- exists s', cat_loop _ _ _ ?st = _ /\ _ => destruct (IH st (drop k (b :: rest))) as (s' & E' & Ho & Hu) end.
  - by eapply slot_insert.
  - rewrite length_drop. cbn in *. lia.
  - exists s'. split; [exact E'|]. split.
    + rewrite Ho. cbn [shown]. rewrite output_put, <- app_assoc. by rewrite take_drop.
    + rewrite Hu. cbn [ufds]. by rewrite list_insert_insert_eq.
Qed.

(** A file that is opened, read to its end and closed. *)
Lemma lowest_free {A} (F : list (option A)) i : lowest F = Some i -> F !! i = Some None.
Proof.
  unfold lowest. destruct (list_find _ F) as [[j o]|] eqn:E; [|done]. intros [= <-]. by apply list_find_Some in E as (E & -> & _).
Qed.

Lemma uopen_ok s path bytes i :
  files path = Some bytes -> lowest (ufds s) = Some i ->
  uopen files path s = Ok (Z.of_nat i) (mk_user (<[i := Some bytes]> (ufds s)) (ncalls s) (shown s))
  /\ slot (<[i := Some bytes]> (ufds s)) (Z.of_nat i) = Some bytes.
Proof.
  intros Hf Hi. split.
  - unfold uopen. erewrite bind_ok by reflexivity. rewrite Hf, Hi. by destruct s.
  - unfold slot. rewrite (proj2 (Z.ltb_ge _ _)), Nat2Z.id by lia. rewrite list_lookup_insert_eq; [done|].
    apply lowest_free in Hi. by eapply lookup_lt_Some.
Qed.

Lemma uclose_ok s i (F : list (option (list Z))) :
  F !! i = Some None -> (exists o, ufds s = <[i := o]> F) ->
  uclose (Z.of_nat i) s = Ok tt (mk_user F (ncalls s) (shown s)).
Proof.
  intros HF [o Ho]. unfold uclose. rewrite Nat2Z.id. destruct s as [u n l]. cbn in Ho. subst u. msimpl. cbn.
  by rewrite list_insert_insert_eq, list_insert_id.
Qed.

(** What cat writes: the files in front of the first that cannot be opened, and
    a message about that. *)
Fixpoint cat_text (args : list (list Z)) : list Z :=
  match args with
  | [] => []
  | arg :: args =>
      match files arg with
      | Some bytes => bytes ++ cat_text args
      | None => chars "cat: cannot open " ++ arg ++ [10]
      end
  end.

Lemma cat_ok s fd rest :
  (forall k, 0 <= res k) -> slot (ufds s) fd = Some rest ->
  exists s', cat res fd s = Ok true s' /\ output 1 (shown s') = output 1 (shown s) ++ rest
    /\ ufds s' = <[Z.to_nat fd := Some []]> (ufds s).
Proof.
  intros Hres Hs. unfold cat. erewrite bind_ok by reflexivity. apply cat_loop_ok; [done|done|]. unfold left_of. rewrite Hs. lia.
Qed.

Lemma cat_files_ok args s i :
  (forall k, 0 <= res k) -> lowest (ufds s) = Some i ->
  exists s', cat_files files res args s = Ok tt s' /\ output 1 (shown s') = output 1 (shown s) ++ cat_text args.
Proof.
  intros Hres. revert s. induction args as [|arg args IH]; intros s Hi; cbn [cat_files cat_text].
  { exists s. by rewrite app_nil_r. }
  destruct (files arg) as [bytes|] eqn:Hf.
  - destruct (uopen_ok s arg bytes i Hf Hi) as [E1 Hs]. erewrite bind_ok by exact E1. rewrite (proj2 (Z.ltb_ge _ _)) by lia.
    destruct (cat_ok (mk_user (<[i := Some bytes]> (ufds s)) (ncalls s) (shown s)) (Z.of_nat i) bytes Hres Hs) as (s1 & E2 & Ho & Hu).
    erewrite bind_ok by exact E2. cbv beta iota. rewrite Nat2Z.id in Hu. cbn [ufds shown] in Hu, Ho. rewrite list_insert_insert_eq in Hu.
    erewrite bind_ok by (apply (uclose_ok s1 i (ufds s)); [by apply lowest_free|by eexists]).
    destruct (IH (mk_user (ufds s) (ncalls s1) (shown s1)) Hi) as (s2 & E3 & Ho2). exists s2. split; [exact E3|].
    rewrite Ho2. cbn [shown]. rewrite Ho. by rewrite app_assoc.
  - assert (uopen files arg s = Ok (-1) s) as E1 by (unfold uopen; erewrite bind_ok by reflexivity; by rewrite Hf).
    erewrite bind_ok by exact E1. change (-1 <? 0) with true. cbv match. eexists. split; [apply show_ok|]. cbn [shown]. apply output_put.
Qed.

(** ** wc *)

Definition starts_word (bs : list Z) : bool := match bs with b :: _ => negb (is_blank b) | [] => false end.

(** The words of a text: the longest pieces without blanks. *)
Fixpoint words (bs : list Z) : list (list Z) :=
  match bs with
  | [] => []
  | b :: bs =>
      if is_blank b then words bs
      else if starts_word bs then match words bs with w :: ws => (b :: w) :: ws | [] => [[b]] end
      else [b] :: words bs
  end.

(** The words have no blanks, and together they are the text without them. *)
Lemma words_ok bs :
  Forall (fun w => w <> [] /\ Forall (fun b => is_blank b = false) w) (words bs)
  /\ concat (words bs) = filter (fun b => is_blank b = false) bs.
Proof.
  induction bs as [|b bs [IH1 IH2]]; [done|]. cbn [words]. rewrite filter_cons. destruct (is_blank b) eqn:Eb; [done|].
  rewrite decide_True by done. rewrite <- IH2. destruct (starts_word bs).
  - destruct (words bs) as [|w ws]; [split; [by repeat constructor|done]|]. apply list.Forall_cons in IH1 as [[_ Hw] Hws].
    split; [|done]. constructor; [|done]. split; [done|by constructor].
  - split; [|done]. constructor; [|done]. split; [done|by repeat constructor].
Qed.

Lemma words_start bs : starts_word bs = true -> words bs <> [].
Proof. destruct bs as [|b bs]; [done|]. cbn. destruct (is_blank b); [done|]. intros _. by destruct (starts_word bs), (words bs). Qed.

Lemma words_cons b bs :
  length (words (b :: bs)) = if is_blank b then length (words bs) else if starts_word bs then length (words bs) else S (length (words bs)).
Proof.
  cbn [words]. destruct (is_blank b); [done|]. destruct (starts_word bs) eqn:Es; [|done]. apply words_start in Es. by destruct (words bs).
Qed.

Definition lines (bs : list Z) : nat := length (filter (fun b => b = 10) bs).

Lemma counts_eq a b c a' b' c' i : a = a' -> b = b' -> c = c' -> ((a, b, c, i) : counts) = (a', b', c', i).
Proof. by intros -> -> ->. Qed.

(** The loop over the bytes counts them. *)
Lemma wc_bytes bs l w c inword :
  0 <= l <= c -> 0 <= w <= c -> c + Z.of_nat (length bs) < 2 ^ 31 ->
  exists inword', foldl wc_byte (l, w, c, inword) bs
    = (l + Z.of_nat (lines bs),
       w + Z.of_nat (length (words bs)) - (if inword && starts_word bs then 1 else 0),
       c + Z.of_nat (length bs), inword').
Proof.
  revert l w c inword. induction bs as [|b bs IH]; intros l w c inword Hl Hw Hc.
  { exists inword. cbn. rewrite andb_false_r. apply counts_eq; lia. }
  cbn [length] in Hc. cbn [foldl]. unfold wc_byte at 2. rewrite (s32_small (c + 1)) by lia.
  assert ((if b =? 10 then s32 (l + 1) else l) = l + Z.of_nat (if b =? 10 then 1 else 0)) as ->.
  { destruct (b =? 10); [rewrite s32_small by lia|]; lia. }
  assert (lines (b :: bs) = (if (b =? 10)%Z then 1 else 0) + lines bs)%nat as ->.
  { unfold lines. rewrite filter_cons. destruct (Z.eqb_spec b 10); by case_decide. }
  rewrite words_cons. cbn [starts_word length]. set (e := if b =? 10 then 1%nat else 0%nat). assert (e <= 1)%nat by (unfold e; destruct (b =? 10); lia).
  destruct (is_blank b); cbn [negb]; [|destruct inword; cbn [negb]].
  - destruct (IH (l + Z.of_nat e) w (c + 1) false) as [i' ->]; [lia..|]. exists i'. rewrite andb_false_r. cbn [andb]. apply counts_eq; lia.
  - destruct (IH (l + Z.of_nat e) w (c + 1) true) as [i' ->]; [lia..|]. exists i'. cbn [andb]. destruct (starts_word bs); apply counts_eq; lia.
  - rewrite s32_small by lia. destruct (IH (l + Z.of_nat e) (w + 1) (c + 1) true) as [i' ->]; [lia..|]. exists i'. cbn [andb].
    destruct (starts_word bs); apply counts_eq; lia.
Qed.

Lemma wc_loop_ok fuel s fd rest st :
  (forall k, 0 <= res k) -> slot (ufds s) fd = Some rest -> (length rest < fuel)%nat ->
  exists n, wc_loop res fd st fuel s = Ok (Some (foldl wc_byte st rest)) (mk_user (<[Z.to_nat fd := Some []]> (ufds s)) n (shown s)).
Proof.
  intros Hres. revert s rest st. induction fuel as [|fuel IH]; intros s rest st Hs Hf; [lia|].
  destruct (uread_ok s fd 512 rest Hres ltac:(lia) Hs) as (k & Hk & E). cbn [wc_loop]. erewrite bind_ok by exact E. cbv beta iota.
  destruct rest as [|b rest]; [rewrite take_nil, drop_nil; by eexists|].
  assert (length (take k (b :: rest)) > 0)%nat as Hpos by (rewrite length_take; cbn; lia). rewrite (proj2 (Z.ltb_lt _ _)) by lia.
  destruct (IH (mk_user (<[Z.to_nat fd := Some (drop k (b :: rest))]> (ufds s)) (S (ncalls s)) (shown s)) (drop k (b :: rest))
    (foldl wc_byte st (take k (b :: rest)))) as [n E'].
  - by eapply slot_insert.
  - rewrite length_drop. cbn in *. lia.
  - exists n. rewrite E'. cbn [ufds shown]. by rewrite <- foldl_app, take_drop, list_insert_insert_eq.
Qed.

(** What wc writes. *)
Definition wc_report (bytes name : list Z) : list Z :=
  wc_line (Z.of_nat (lines bytes)) (Z.of_nat (length (words bytes))) (Z.of_nat (length bytes)) name.
Fixpoint wc_text (args : list (list Z)) : list Z :=
  match args with
  | [] => []
  | arg :: args =>
      match files arg with
      | Some bytes => wc_report bytes arg ++ wc_text args
      | None => chars "wc: cannot open " ++ arg ++ [10]
      end
  end.

Lemma wc_ok s fd rest name :
  (forall k, 0 <= res k) -> slot (ufds s) fd = Some rest -> Z.of_nat (length rest) < 2 ^ 31 ->
  exists n, wc res fd name s = Ok true (mk_user (<[Z.to_nat fd := Some []]> (ufds s)) n (shown s ++ [Put 1 (wc_report rest name)])).
Proof.
  intros Hres Hs Hl. unfold wc. erewrite bind_ok by reflexivity.
  destruct (wc_loop_ok (S (left_of s fd)) s fd rest (0, 0, 0, false) Hres Hs) as [n E]; [unfold left_of; rewrite Hs; lia|].
  erewrite bind_ok by exact E. destruct (wc_bytes rest 0 0 0 false) as [i ->]; [lia..|]. cbn [andb]. cbv beta iota.
  erewrite bind_ok by apply show_ok. rewrite !Z.add_0_l, Z.sub_0_r. by eexists.
Qed.

Lemma wc_files_ok args s i :
  (forall k, 0 <= res k) -> (forall arg bytes, files arg = Some bytes -> Z.of_nat (length bytes) < 2 ^ 31) -> lowest (ufds s) = Some i ->
  exists s', wc_files files res args s = Ok tt s' /\ output 1 (shown s') = output 1 (shown s) ++ wc_text args.
Proof.
  intros Hres Hlen. revert s. induction args as [|arg args IH]; intros s Hi; cbn [wc_files wc_text].
  { exists s. by rewrite app_nil_r. }
  destruct (files arg) as [bytes|] eqn:Hf.
  - destruct (uopen_ok s arg bytes i Hf Hi) as [E1 Hs]. erewrite bind_ok by exact E1. rewrite (proj2 (Z.ltb_ge _ _)) by lia.
    destruct (wc_ok (mk_user (<[i := Some bytes]> (ufds s)) (ncalls s) (shown s)) (Z.of_nat i) bytes arg Hres Hs (Hlen _ _ Hf)) as (n & E2).
    erewrite bind_ok by exact E2. cbv beta iota. rewrite Nat2Z.id. cbn [ufds shown]. rewrite list_insert_insert_eq.
    erewrite bind_ok by (apply (uclose_ok _ i (ufds s)); [by apply lowest_free|by eexists]). cbn [ncalls shown].
    destruct (IH (mk_user (ufds s) n (shown s ++ [Put 1 (wc_report bytes arg)])) Hi) as (s2 & E3 & Ho2). exists s2. split; [exact E3|].
    rewrite Ho2. cbn [shown]. by rewrite output_put, app_assoc.
  - assert (uopen files arg s = Ok (-1) s) as E1 by (unfold uopen; erewrite bind_ok by reflexivity; by rewrite Hf).
    erewrite bind_ok by exact E1. change (-1 <? 0) with true. cbv match. eexists. split; [apply show_ok|]. cbn [shown]. apply output_put.
Qed.

(** ** ls *)
Definition ls_entry (path de : list Z) : list Z :=
  if de_inum de =? 0 then []
  else
    let buf := path ++ [SLASH] ++ cut_nul (de_name de) in
    match stats buf with Some st => ls_line buf st | None => chars "ls: cannot stat " ++ buf ++ [10] end.

(** A read that returns as much as is asked for. *)
Lemma uread_full s fd n rest :
  (forall k, Z.of_nat n <= res k) -> (0 < n)%nat -> slot (ufds s) fd = Some rest ->
  uread res fd n s = Ok (Z.of_nat (length (take n rest)), take n rest)
    (mk_user (<[Z.to_nat fd := Some (drop n rest)]> (ufds s)) (S (ncalls s)) (shown s)).
Proof.
  intros Hres Hn Hs. pose proof (Hres (ncalls s)). unfold uread. erewrite bind_ok by apply answer_ok. erewrite bind_ok by reflexivity.
  cbn [ufds]. rewrite Hs, (proj2 (Z.ltb_ge _ _)) by lia. by replace (Nat.min n (Nat.max 1 (Z.to_nat (res (ncalls s))))) with n by lia.
Qed.

Lemma ls_loop_ok E s fd path fuel :
  (forall k, 16 <= res k) -> Forall (fun de => length de = DIRENT) E -> slot (ufds s) fd = Some (concat E) -> (length E < fuel)%nat ->
  exists s', ls_loop stats res fd path fuel s = Ok tt s' /\ output 1 (shown s') = output 1 (shown s) ++ (E ≫= ls_entry path)
    /\ ufds s' = <[Z.to_nat fd := Some []]> (ufds s).
Proof.
  intros Hres HE. revert s fuel. induction HE as [|de E Hde HE IH]; intros s fuel Hs Hf; (destruct fuel as [|fuel]; [cbn in Hf; lia|]); cbn [ls_loop].
  { erewrite bind_ok by (apply uread_full; [exact Hres|unfold DIRENT; lia|exact Hs]). cbn [concat]. rewrite take_nil, drop_nil. cbv beta iota.
    eexists. split; [reflexivity|]. cbn [shown ufds mbind list_bind]. by rewrite app_nil_r. }
  erewrite bind_ok by (apply uread_full; [exact Hres|unfold DIRENT; lia|exact Hs]). cbn [concat length] in *.
  rewrite take_app_length', drop_app_length' by done. rewrite Hde, Z.eqb_refl. cbv beta iota.
  set (F := <[Z.to_nat fd := Some (concat E)]> (ufds s)).
  assert (slot F fd = Some (concat E)) as HF by (by eapply slot_insert).
  assert (<[Z.to_nat fd := Some []]> F = <[Z.to_nat fd := Some []]> (ufds s)) as EF by (unfold F; by rewrite list_insert_insert_eq).
  rewrite bind_cons. unfold ls_entry at 1. destruct (de_inum de =? 0).
  - destruct (IH (mk_user F (S (ncalls s)) (shown s)) fuel HF ltac:(lia)) as (s' & E' & Ho & Hu). exists s'. split; [exact E'|].
    cbn [ufds shown] in Ho, Hu. by rewrite Ho, Hu, EF.
  - set (buf := path ++ _). set (line := match stats buf with Some st => ls_line buf st | None => _ end).
    assert ((match stats buf with None => uprint 1 (chars "ls: cannot stat " ++ buf ++ [10]) | Some st => uprint 1 (ls_line buf st) end)
      = uprint 1 line) as -> by (unfold line; by destruct (stats buf)).
    erewrite bind_ok by apply show_ok. cbn [ufds ncalls shown].
    destruct (IH (mk_user F (S (ncalls s)) (shown s ++ [Put 1 line])) fuel HF ltac:(lia)) as (s' & E' & Ho & Hu). exists s'. split; [exact E'|].
    cbn [ufds shown] in Ho, Hu. rewrite output_put in Ho. by rewrite Ho, Hu, EF, app_assoc.
Qed.

(** ** The properties *)

(** cat concatenates.  Whatever pieces the reads return, cat writes the bytes
    of its files one after the other to descriptor 1, up to the first file that
    cannot be opened, for which it writes a message instead; without arguments it
    copies what it reads from descriptor 0. *)
Theorem cat_concatenates args s i rest :
  (forall k, 0 <= res k) -> lowest (ufds s) = Some i -> slot (ufds s) 0 = Some rest ->
  exists s', cat_main files res args s = Ok tt s'
    /\ output 1 (shown s') = output 1 (shown s) ++ match args with [] => rest | _ => cat_text args end.
Proof.
  intros Hres Hi H0. unfold cat_main. destruct args as [|arg args]; [|by eapply cat_files_ok].
  destruct (cat_ok s 0 rest Hres H0) as (s' & E & Ho & _). exists s'. split; [by erewrite bind_ok by exact E|done].
Qed.

(** C37: wc counts.  Whatever pieces the reads return, wc reports for every file
    the number of newlines, of words, which are the longest pieces without
    blanks, and of bytes. *)
Theorem wc_counts args s i rest :
  (forall k, 0 <= res k) -> (forall arg bytes, files arg = Some bytes -> Z.of_nat (length bytes) < 2 ^ 31) ->
  lowest (ufds s) = Some i -> slot (ufds s) 0 = Some rest -> Z.of_nat (length rest) < 2 ^ 31 ->
  exists s', wc_main files res args s = Ok tt s'
    /\ output 1 (shown s') = output 1 (shown s) ++ match args with [] => wc_report rest [] | _ => wc_text args end.
Proof.
  intros Hres Hlen Hi H0 Hl. unfold wc_main. destruct args as [|arg args]; [|by eapply wc_files_ok].
  destruct (wc_ok s 0 rest [] Hres H0 Hl) as (n & E). eexists. split; [by erewrite bind_ok by exact E|]. cbn [shown]. apply output_put.
Qed.

(** ls of a directory writes a line for every entry in use. *)
Theorem ls_lists path s i st E :
  (forall k, 16 <= res k) -> lowest (ufds s) = Some i -> stats path = Some st -> st_type st = T_DIR ->
  files path = Some (concat E) -> Forall (fun de => length de = DIRENT) E -> (length path + 1 + DIRSIZ + 1 <= 512)%nat ->
  exists s', ls files stats res path s = Ok tt s' /\ output 1 (shown s') = output 1 (shown s) ++ (E ≫= ls_entry path)
    /\ ufds s' = ufds s.
Proof.
  intros Hres Hi Hst Hty Hf HE Hl. unfold ls. destruct (uopen_ok s path (concat E) i Hf Hi) as [E1 Hs]. erewrite bind_ok by exact E1.
  rewrite (proj2 (Z.ltb_ge _ _)), Hst, Hty by lia. change (T_DIR =? T_FILE) with false. change (T_DIR =? T_DIR) with true. cbv match.
  rewrite (proj2 (Nat.ltb_ge _ _)) by done. set (s1 := mk_user _ _ _) in *. change (slot (ufds s1) (Z.of_nat i) = Some (concat E)) in Hs.
  destruct (ls_loop_ok E s1 (Z.of_nat i) path (S (left_of s1 (Z.of_nat i))) Hres HE Hs) as (s2 & E2 & Ho & Hu).
  { unfold left_of. rewrite Hs. clear -HE. induction HE as [|de E Hde _ IH]; [cbn; lia|]. cbn [concat length]. rewrite length_app, Hde. unfold DIRENT. lia. }
  erewrite bind_ok by (erewrite bind_ok by reflexivity; exact E2). rewrite Nat2Z.id in Hu. unfold s1 in Hu. cbn [ufds] in Hu.
  rewrite list_insert_insert_eq in Hu. eexists. split; [apply (uclose_ok s2 i (ufds s)); [by apply lowest_free|by eexists]|]. done.
Qed.

(** rm goes through its arguments until a file cannot be deleted. *)
Theorem rm_stops args s :
  args <> [] ->
  exists done rest s', args = done ++ rest /\ rm_main res args s = Ok tt s'
    /\ shown s' = shown s ++ (Unlinked <$> done) ++ match rest with [] => [] | arg :: _ => [Put 2 (chars "rm: " ++ arg ++ chars " failed to delete" ++ [10])] end
    /\ (forall k, (k < length done)%nat -> 0 <= res (ncalls s + k))
    /\ (rest <> [] -> res (ncalls s + length done) < 0).
Proof.
  intros Hne. assert (rm_main res args = rm_loop res args) as -> by (by destruct args). clear Hne. revert s.
  induction args as [|arg args IH]; intros s.
  { exists [], [], s. split_and!; [done|done|by rewrite !app_nil_r|cbn; lia|done]. }
  cbn [rm_loop]. unfold act. destruct (Z.ltb_spec (res (ncalls s)) 0) as [Hr|Hr].
  - exists [], (arg :: args). eexists. split; [done|]. split_and!.
    + erewrite bind_ok; [|erewrite bind_ok by apply answer_ok; rewrite (proj2 (Z.ltb_lt _ _)) by done; reflexivity]. apply show_ok.
    + done.
    + cbn. lia.
    + intros _. cbn. by rewrite Nat.add_0_r.
  - destruct (IH (mk_user (ufds s) (S (ncalls s)) (shown s ++ [Unlinked arg]))) as (don & rest & s' & -> & E & Hsh & Hok & Hbad).
    exists (arg :: don), rest, s'. split; [done|]. split_and!.
    + erewrite bind_ok; [|erewrite bind_ok by apply answer_ok; rewrite (proj2 (Z.ltb_ge _ _)) by done; erewrite bind_ok by apply show_ok; reflexivity].
      exact E.
    + rewrite Hsh. cbn [shown fmap list_fmap]. by rewrite <- app_assoc.
    + intros [|k] Hk; [by rewrite Nat.add_0_r|]. cbn [length] in Hk. rewrite Nat.add_succ_r. apply (Hok k). lia.
    + cbn [length]. rewrite Nat.add_succ_r. exact Hbad.
Qed.

(** init waits until the shell it started has ended, and reports the other
    processes that end in the meantime. *)
Theorem init_reports pid zombies s fuel :
  (length zombies < fuel)%nat -> (forall k z, zombies !! k = Some z -> res (ncalls s + k) = z /\ 0 <= z /\ z <> pid) ->
  res (ncalls s + length zombies) = pid \/ res (ncalls s + length zombies) < 0 ->
  init_wait res pid fuel s
  = Ok tt (mk_user (ufds s) (ncalls s + S (length zombies)) (shown s ++ replicate (length zombies) (Put 1 (chars "zombie!" ++ [10])))).
Proof.
  revert s fuel. induction zombies as [|z zs IH]; intros s fuel Hf Hz Hend; (destruct fuel as [|fuel]; [cbn in Hf; lia|]); cbn [init_wait length replicate] in *;
    erewrite bind_ok by apply answer_ok.
  - rewrite Nat.add_0_r in Hend. assert ((0 <=? res (ncalls s)) && negb (res (ncalls s) =? pid) = false) as ->.
    { destruct Hend as [->|]; [by rewrite Z.eqb_refl, andb_false_r|]. by rewrite (proj2 (Z.leb_gt _ _)) by done. }
    rewrite app_nil_r, Nat.add_1_r. done.
  - destruct (Hz 0%nat z eq_refl) as (Er & H0 & Hne). rewrite Nat.add_0_r in Er. rewrite Er.
    rewrite (proj2 (Z.leb_le _ _)), (proj2 (Z.eqb_neq _ _)) by done. cbn [andb negb]. erewrite bind_ok by apply show_ok. cbn [ufds ncalls shown].
    rewrite IH; cbn [ufds ncalls shown]; [|lia| |].
    + do 2 f_equal; [lia|by rewrite <- app_assoc].
    + intros k y Hk. rewrite Nat.add_succ_l, <- Nat.add_succ_r. by apply (Hz (S k)).
    + by rewrite Nat.add_succ_l, <- Nat.add_succ_r.
Qed.
End Theory.

(** Four bytes on descriptor 0, read one at a time. *)
Lemma wc_counts_witness :
  exists s', wc_main (fun _ => None) (fun _ => 1) [] (mk_user [Some [97; 32; 98; 10]; Some []; Some []; None] 0 []) = Ok tt s'
    /\ output 1 (shown s') = chars "1 2 4 " ++ [10].
Proof.
  apply (wc_counts (fun _ => None) (fun _ => 1) [] (mk_user [Some [97; 32; 98; 10]; Some []; Some []; None] 0 []) 3 [97; 32; 98; 10]);
    [lia|discriminate|reflexivity|reflexivity|cbn; lia].
Defined.
