(* ===== verification/Mp.v ===== *)
(** * Finding the processors

    Models mp.c, which searches the memory of the firmware for the table of the
    multiprocessor specification and counts the processors in it.  The memory is
    the physical one: [P2V] is left out. *)

From S2P Require Import Prelude CString.
Open Scope Z_scope.

Definition NCPU : nat := 8.

(** Offsets and sizes of the structures of mp.h. *)
Definition sizeof_mp : Z := 16.
Definition sizeof_mpconf : Z := 44.
Definition sizeof_mpproc : Z := 20.
Definition sizeof_mpioapic : Z := 8.

Definition MPPROC : Z := 0.
Definition MPBUS : Z := 1.
Definition MPIOAPIC : Z := 2.
Definition MPIOINTR : Z := 3.
Definition MPLINTR : Z := 4.

(** [apicids] are the fields [apicid] of [cpus[0]] to [cpus[ncpu-1]]; [port_writes] are
    the writes to ports. *)
Record machine := mk_machine {
  apicids : list Z;
  ioapicid : Z;
  lapic_addr : Z;
  port_writes : list (Z * Z);
}.

Definition word16 (m : mem) (a : Z) : Z := le_value (bytes_at m a 2).
Definition word32 (m : mem) (a : Z) : Z := le_value (bytes_at m a 4).

Definition sum (m : mem) (addr len : Z) : Z :=
  u8 (foldl (fun sum i => s32 (sum + m (addr + Z.of_nat i))) 0 (seq 0 (Z.to_nat len))).

(** The addresses of [for(p = addr; p < e; p += sizeof(struct mp))] *)
Definition mp_places (a len : Z) : list Z :=
  (fun k => a + Z.of_nat k * sizeof_mp) <$> seq 0 (Z.to_nat ((len + sizeof_mp - 1) / sizeof_mp)).
Definition mpsearch1 (m : mem) (a len : Z) : option Z :=
  snd <$> list_find (fun p => bytes_at m p 4 = chars "_MP_" /\ sum m p sizeof_mp = 0) (mp_places a len).

Definition mpsearch (m : mem) : option Z :=
  let bda := 1024 in
  let p := Z.shiftl (Z.lor (Z.shiftl (m (bda + 15)) 8) (m (bda + 14))) 4 in
  let found :=
    if negb (p =? 0) then mpsearch1 m p 1024
    else
      let p := Z.lor (Z.shiftl (m (bda + 20)) 8) (m (bda + 19)) * 1024 in
      mpsearch1 m (u32 (p - 1024)) 1024 in
  match found with
  | Some mp => Some mp
  | None => mpsearch1 m 983040 65536
  end.

(** The addresses of the two tables. *)
Definition mpconfig (m : mem) : option (Z * Z) :=
  match mpsearch m with
  | None => None
  | Some mp =>
      let conf := word32 m (mp + 4) in
      if conf =? 0 then None
      else if negb (bool_decide (bytes_at m conf 4 = chars "PCMP")) then None
      else if negb (m (conf + 6) =? 1) && negb (m (conf + 6) =? 4) then None
      else if negb (sum m conf (word16 m (conf + 4)) =? 0) then None
      else Some (mp, conf)
  end.

(** The loop over the entries from [p] to [e]; the result is [ismp].  After an
    entry of an unknown type [break] leaves the switch, and [p] stays as it is. *)
Fixpoint mp_loop (m : mem) (p e : Z) (ismp : bool) (fuel : nat) : M machine bool :=
  if negb (p <? e) then mret ismp
  else
    match fuel with
    | O => no_fuel
    | S fuel =>
        let type := m p in
        if type =? MPPROC then
          modify (fun s => if (length (apicids s) <? NCPU)%nat then { s with apicids ::= fun l => l ++ [m (p + 1)] } else s);;
          mp_loop m (p + sizeof_mpproc) e ismp fuel
        else if type =? MPIOAPIC then
          modify (fun s => { s with ioapicid := m (p + 1) });;
          mp_loop m (p + sizeof_mpioapic) e ismp fuel
        else if (type =? MPBUS) || (type =? MPIOINTR) || (type =? MPLINTR) then mp_loop m (p + 8) e ismp fuel
        else mp_loop m p e false fuel
    end.

(** [imcr] is what port 0x23 returns.  Every entry of a known type has at least 8
    bytes, so the length of the table bounds the number of rounds. *)
Definition mpinit (m : mem) (imcr : Z) : M machine unit :=
  match mpconfig m with
  | None => panic "Expect to run on an SMP"
  | Some (mp, conf) =>
      modify (fun s => { s with lapic_addr := word32 m (conf + 36) });;
      let len := word16 m (conf + 4) in
      ismp ← mp_loop m (conf + sizeof_mpconf) (conf + len) true (S (Z.to_nat len));
      if negb ismp then panic "Didn't find a suitable machine"
      else
        when (ctrue (m (mp + 12)))
          (modify (fun s => { s with port_writes ::= fun l => l ++ [(34, 112); (35, Z.lor imcr 1)] }))
  end.

(** ** The table *)

(** An entry: a processor or an I/O controller with its number, or a bus or an
    interrupt; the other fields of the entry are [rest]. *)
Inductive mpentry :=
| Processor (apicid : Z) (rest : list Z)
| IoApic (apicno : Z) (rest : list Z)
| Other (type : Z) (rest : list Z).

Definition entry_ok (x : mpentry) : Prop :=
  match x with
  | Processor _ rest => length rest = 18%nat
  | IoApic _ rest => length rest = 6%nat
  | Other type rest => (type = MPBUS \/ type = MPIOINTR \/ type = MPLINTR) /\ length rest = 7%nat
  end.
Definition entry_bytes_of (x : mpentry) : list Z :=
  match x with
  | Processor id rest => MPPROC :: id :: rest
  | IoApic id rest => MPIOAPIC :: id :: rest
  | Other type rest => type :: rest
  end.

Definition processors (E : list mpentry) : list Z := E ≫= (fun x => match x with Processor id _ => [id] | _ => [] end).
Definition last_ioapic (old : Z) (E : list mpentry) : Z :=
  foldl (fun id x => match x with IoApic id' _ => id' | _ => id end) old E.

Lemma bytes_at_app m a (l l' : list Z) :
  bytes_at m a (length (l ++ l')) = l ++ l' -> bytes_at m a (length l) = l /\ bytes_at m (a + Z.of_nat (length l)) (length l') = l'.
Proof.
  unfold bytes_at. rewrite length_app, seq_app, fmap_app. intros E. apply app_inj_1 in E as [E1 E2]; [|by rewrite length_fmap, length_seq].
  split; [done|]. rewrite <- E2 at 2. rewrite Nat.add_0_l, <- (Nat.add_0_r (length l)) at 1. rewrite <- fmap_add_seq, <- list_fmap_compose.
  apply list_fmap_ext. intros i x _. cbn. f_equal. lia.
Qed.

(** The loop ends at the end of a table of known entries. *)
Lemma mp_loop_ok m E s p fuel :
  Forall entry_ok E -> bytes_at m p (length (E ≫= entry_bytes_of)) = E ≫= entry_bytes_of -> (length E < fuel)%nat ->
  (length (apicids s) <= NCPU)%nat ->
  mp_loop m p (p + Z.of_nat (length (E ≫= entry_bytes_of))) true fuel s
  = Ok true (mk_machine (take NCPU (apicids s ++ processors E)) (last_ioapic (ioapicid s) E) (lapic_addr s) (port_writes s)).
Proof.
  intros HE. revert s p fuel. induction HE as [|x E Hx _ IH]; intros s p fuel Hm Hf Hl; (destruct fuel as [|fuel]; [cbn in Hf; lia|]).
  { cbn [mbind list_bind length]. rewrite Z.add_0_r. cbn [mp_loop]. rewrite Z.ltb_irrefl. cbn. rewrite app_nil_r, take_ge by done. by destruct s. }
  rewrite bind_cons in *. apply bytes_at_app in Hm as [H1 H2]. rewrite length_app, Nat2Z.inj_add, Z.add_assoc.
  cbn [length] in Hf. set (q := p + Z.of_nat (length (entry_bytes_of x))) in *. set (e := q + Z.of_nat (length (E ≫= entry_bytes_of))) in *.
  assert ((p <? e) = true) as Hpe by (apply Z.ltb_lt; unfold e, q; destruct x; cbn [entry_bytes_of length]; lia). cbn [mp_loop]. rewrite Hpe. cbn [negb].
  assert (forall b l, entry_bytes_of x = b :: l -> m p = b) as Hp.
  { intros b l El. rewrite El in H1. cbn in H1. injection H1 as H1 _. by rewrite Z.add_0_r in H1. }
  destruct x as [id rest|id rest|type rest]; cbn [entry_ok] in Hx; cbn [entry_bytes_of length] in *.
  - rewrite (Hp _ _ eq_refl). change (MPPROC =? MPPROC) with true. cbv match. erewrite bind_ok by reflexivity.
    assert (m (p + 1) = id) as -> by (cbn in H1; by injection H1 as _ H1 _).
    replace (p + sizeof_mpproc) with q by (unfold q, sizeof_mpproc; lia). rewrite IH; [|done|lia|].
    + f_equal. change (processors (Processor id rest :: E)) with (id :: processors E). change (last_ioapic _ (Processor id rest :: E)) with (last_ioapic (ioapicid s) E).
      destruct (Nat.ltb_spec (length (apicids s)) NCPU) as [Hlt|Hge]; cbn; [by rewrite <- app_assoc|].
      unfold NCPU in Hge, Hl. f_equal. by rewrite (take_app_le (apicids s) (processors E)), (take_app_le (apicids s) (id :: processors E)) by lia.
    + destruct (Nat.ltb_spec (length (apicids s)) NCPU); cbn; [rewrite length_app; cbn; lia|done].
  - rewrite (Hp _ _ eq_refl). change (MPIOAPIC =? MPPROC) with false. change (MPIOAPIC =? MPIOAPIC) with true. cbv match. erewrite bind_ok by reflexivity.
    assert (m (p + 1) = id) as -> by (cbn in H1; by injection H1 as _ H1 _).
    replace (p + sizeof_mpioapic) with q by (unfold q, sizeof_mpioapic; lia). by rewrite IH by (done || lia).
  - rewrite (Hp _ _ eq_refl). destruct Hx as [Ht Hlen]. replace (p + 8) with q by (unfold q; lia).
    assert ((type =? MPPROC) = false /\ (type =? MPIOAPIC) = false /\ ((type =? MPBUS) || (type =? MPIOINTR) || (type =? MPLINTR)) = true) as (-> & -> & ->)
      by (by destruct Ht as [->|[->| ->]]). by rewrite IH by (done || lia).
Qed.

(** An entry of an unknown type stops the search for good: [mpinit] does not panic,
    it never returns. *)
Theorem unknown_entry_hangs m p e ismp s fuel :
  p < e -> m p <> MPPROC -> m p <> MPIOAPIC -> m p <> MPBUS -> m p <> MPIOINTR -> m p <> MPLINTR ->
  mp_loop m p e ismp fuel s = NoFuel.
Proof.
  intros Hpe H1 H2 H3 H4 H5. revert ismp. induction fuel as [|fuel IH]; intros ismp; cbn [mp_loop];
    rewrite (proj2 (Z.ltb_lt _ _)) by done; cbn [negb]; [done|]. rewrite !(proj2 (Z.eqb_neq _ _)) by done. cbn [orb]. apply IH.
Qed.

(** On a machine whose tables are complete, [mpinit] finds the processors in the
    order of the table, as many as the kernel has room for, and the last of the I/O
    controllers. *)
Theorem mpinit_finds m imcr s mp conf E :
  mpconfig m = Some (mp, conf) -> Forall entry_ok E ->
  word16 m (conf + 4) = sizeof_mpconf + Z.of_nat (length (E ≫= entry_bytes_of)) ->
  bytes_at m (conf + sizeof_mpconf) (length (E ≫= entry_bytes_of)) = E ≫= entry_bytes_of -> (length (apicids s) <= NCPU)%nat ->
  exists s', mpinit m imcr s = Ok tt s'
    /\ apicids s' = take NCPU (apicids s ++ processors E)
    /\ ioapicid s' = last_ioapic (ioapicid s) E /\ lapic_addr s' = word32 m (conf + 36).
Proof.
  intros Hc HE Hlen Hm Hl. unfold mpinit. rewrite Hc. erewrite bind_ok by reflexivity. rewrite Hlen, Z.add_assoc.
  assert (length E <= length (E ≫= entry_bytes_of))%nat as Hle.
  { clear. induction E as [|x E IH]; [done|]. rewrite bind_cons, length_app. destruct x; cbn [entry_bytes_of length]; lia. }
  erewrite bind_ok by (apply mp_loop_ok; [done|done|unfold sizeof_mpconf; lia|done]). cbn [negb].
  destruct (ctrue (m (mp + 12))); eexists; (split; [reflexivity|]); done.
Qed.

(** ** A machine with two processors *)
Definition mp_table : list Z :=
  [95; 77; 80; 95] ++ le_bytes 4 0x90010 ++ [1; 4; 0; 0; 0; 0; 0; 0]
  ++ [80; 67; 77; 80] ++ le_bytes 2 92 ++ [4; 0] ++ replicate 28 0 ++ le_bytes 4 0xFEE00000 ++ replicate 4 0
  ++ (MPPROC :: 0 :: replicate 18 0) ++ (MPPROC :: 1 :: replicate 18 0) ++ (MPIOAPIC :: 2 :: replicate 6 0).
(** The table with its two checksums, at 0x90000, where the word at 0x40e points. *)
Definition mp_memory : mem :=
  let l := <[10%nat := u8 (- sum (store_bytes (fun _ => 0) 0 (take 16 mp_table)) 0 16)]>
             (<[23%nat := u8 (- sum (store_bytes (fun _ => 0) 0 (drop 16 mp_table)) 0 92)]> mp_table) in
  fun x => if x =? 0x40f then 0x90 else if inside 0x90000 (length l) x then l !!! Z.to_nat (x - 0x90000) else 0.

Lemma mp_example :
  exists s', mpinit mp_memory 0 (mk_machine [] 0 0 []) = Ok tt s' /\ apicids s' = [0; 1] /\ ioapicid s' = 2 /\ lapic_addr s' = 0xFEE00000.
Proof.
  destruct (mpinit_finds mp_memory 0 (mk_machine [] 0 0 []) 0x90000 0x90010
    [Processor 0 (replicate 18 0); Processor 1 (replicate 18 0); IoApic 2 (replicate 6 0)]) as (s' & E & Ea & Ei & El).
  1: vm_compute; reflexivity.
  1: repeat constructor.
  1-2: vm_compute; reflexivity.
  1: cbn; lia.
  exists s'. split; [exact E|]. split; [exact Ea|]. split; [exact Ei|]. rewrite El. vm_compute. reflexivity.
Qed.
