(* ===== verification/Boot.v ===== *)
(** * The boot loader

    Models bootmain.c, which reads the kernel from the disk, sector by sector
    through the ports of the controller, and loads the segments of its ELF image.
    The controller is the one of Ide.v; the loader works with physical memory,
    before there are page tables.

    The theorems show that [readseg] copies the bytes it is asked for, whatever
    the alignment, and that [bootmain] puts every byte of every segment in place
    when the segments are in increasing order, the condition its comment
    mentions. *)

From S2P Require Import Prelude CString Kalloc Exec Bio Ide IdeTheory.
Open Scope Z_scope.

Definition SECTSIZE : Z := 512.

Record loader (D : Type) := mk_loader { lmem : mem; lctl : D }.
Arguments mk_loader {_} _ _.
Arguments lmem {_} _.
Arguments lctl {_} _.

(** The fields of [struct proghdr] that the loader uses. *)
Record segment := mk_segment { sg_off : Z; sg_paddr : Z; sg_filesz : Z; sg_memsz : Z }.
Definition get_segment (d : list Z) : segment := mk_segment (get32 d 4) (get32 d 12) (get32 d 16) (get32 d 20).

(** The scratch space for the first page of the file. *)
Local Abbreviation boot_elf m := (get_elfhdr (bytes_at m 65536 (Z.to_nat ELFHDR))).

Section Boot.
Context {D : Type} `{Controller D}.

(** [outb] passes a byte. *)
Definition bout (port v : Z) : M (loader D) unit := modify (fun s => mk_loader (lmem s) (outb port (u8 v) (lctl s))).

Fixpoint waitdisk_loop (fuel : nat) : M (loader D) unit :=
  match fuel with
  | O => no_fuel
  | S fuel =>
      s ← get;
      let '(r, d) := inb 503 (lctl s) in
      put (mk_loader (lmem s) d);;
      if Z.land r 192 =? 64 then mret tt else waitdisk_loop fuel
  end.
Definition waitdisk : M (loader D) unit := waitdisk_loop spin.

Definition readsect (dst offset : Z) : M (loader D) unit :=
  waitdisk;;
  bout 498 1;;
  bout 499 offset;;
  bout 500 (Z.shiftr offset 8);;
  bout 501 (Z.shiftr offset 16);;
  bout 502 (Z.lor (Z.shiftr offset 24) 224);;
  bout 503 32;;
  waitdisk;;
  s ← get;
  let '(data, d) := insl 496 (Z.to_nat (SECTSIZE / 4)) (lctl s) in
  put (mk_loader (store_bytes (lmem s) dst data) d).

(** [for(; pa < epa; pa += SECTSIZE, offset++) readsect(pa, offset);] *)
Fixpoint readseg_loop (pa epa offset : Z) (fuel : nat) : M (loader D) unit :=
  if negb (pa <? epa) then mret tt
  else
    match fuel with
    | O => no_fuel
    | S fuel => readsect pa offset;; readseg_loop (u32 (pa + SECTSIZE)) epa (u32 (offset + 1)) fuel
    end.

(** The fuel is one more than the number of sectors that the bytes touch. *)
Definition readseg (pa count offset : Z) : M (loader D) unit :=
  let epa := u32 (pa + count) in
  let r := offset mod SECTSIZE in
  readseg_loop (u32 (pa - r)) epa (offset / SECTSIZE + 1) (S (Z.to_nat ((count + r + SECTSIZE - 1) / SECTSIZE))).

(** The body of the loop of [bootmain], with [ph] in memory, where it is read
    again after [readseg]. *)
Definition load_segment (ph : Z) : M (loader D) unit :=
  s ← get;
  let g := get_segment (bytes_at (lmem s) ph (Z.to_nat PROGHDR)) in
  let pa := sg_paddr g in
  readseg pa (sg_filesz g) (sg_off g);;
  s ← get;
  let g := get_segment (bytes_at (lmem s) ph (Z.to_nat PROGHDR)) in
  when (sg_filesz g <? sg_memsz g)
    (modify (fun s => mk_loader (stosb (lmem s) (u32 (pa + sg_filesz g)) 0 (Z.to_nat (sg_memsz g - sg_filesz g))) (lctl s))).

Fixpoint load_loop (ph eph : Z) (fuel : nat) : M (loader D) unit :=
  if negb (ph <? eph) then mret tt
  else
    match fuel with
    | O => no_fuel
    | S fuel => load_segment ph;; load_loop (u32 (ph + PROGHDR)) eph fuel
    end.

(** The entry point it jumps to, or [None] when it returns. *)
Definition bootmain : M (loader D) (option Z) :=
  readseg 65536 4096 0;;
  s ← get;
  let elf := boot_elf (lmem s) in
  if negb (e_magic elf =? ELF_MAGIC) then mret None
  else
    let ph := u32 (65536 + e_phoff elf) in
    load_loop ph (u32 (ph + e_phnum elf * PROGHDR)) (S (Z.to_nat (e_phnum elf)));;
    s ← get;
    mret (Some (e_entry (boot_elf (lmem s)))).
End Boot.

(** ** Sectors *)

(** The bytes of the file that starts at sector 1, as [mem] of its offsets. *)
Definition kernel_file (B : sectors) : mem := fun k => B 0 (k / SECTSIZE + 1) !!! Z.to_nat (k mod SECTSIZE).
Definition disk_ok (B : sectors) : Prop := forall n, length (B 0 n) = 512%nat /\ Forall is_byte (B 0 n).

Lemma kernel_byte B k : disk_ok B -> is_byte (kernel_file B k).
Proof.
  intros HB. destruct (HB (k / SECTSIZE + 1)) as [Hl Hb]. unfold kernel_file, SECTSIZE. pose proof (Z.mod_pos_bound k 512 ltac:(lia)).
  apply (Forall_lookup_total_1 _ _ _ Hb). lia.
Qed.

(** The registers that [readsect] writes: those of a read of drive 0. *)
Lemma boot_bytes n :
  0 <= n < 2 ^ 28 ->
  u8 1 = 1 /\ u8 n = Z.land n 255 /\ u8 (Z.shiftr n 8) = Z.land (Z.shiftr n 8) 255
  /\ u8 (Z.shiftr n 16) = Z.land (Z.shiftr n 16) 255 /\ u8 (Z.lor (Z.shiftr n 24) 224) = selector 0 (Z.land (Z.shiftr n 24) 15).
Proof.
  intros Hn. unfold u8. change 255 with (Z.ones 8). rewrite !Z.land_ones by lia. split_and!; [done..|].
  assert (0 <= Z.shiftr n 24 < 16) as Ht by (rewrite Z.shiftr_div_pow2 by lia; change (2 ^ 28) with (2 ^ 24 * 16) in Hn; split; [apply Z.div_pos|apply Z.div_lt_upper_bound]; lia).
  assert (Forall (fun j => Z.lor (Z.of_nat j) 224 mod 256 = selector 0 (Z.land (Z.of_nat j) 15)) (seq 0 16)) as Hall
    by (apply (bool_decide_unpack _); vm_compute; exact I).
  rewrite list.Forall_forall in Hall. specialize (Hall (Z.to_nat (Z.shiftr n 24)) ltac:(apply elem_of_seq; lia)). by rewrite Z2Nat.id in Hall by lia.
Qed.

Section Theory.
Context {D : Type} `{HS : ControllerSpec D}.

Lemma waitdisk_ok s B j :
  coming (lctl s) B j -> exists d, waitdisk s = Ok tt (mk_loader (lmem s) d) /\ done_with d B j.
Proof.
  intros Hs. unfold waitdisk. pose proof (law_spin (lctl s)) as Hf. revert s Hs Hf. induction spin as [|fuel IH]; intros s Hs Hf; [lia|].
  cbn [waitdisk_loop]. erewrite bind_ok by reflexivity. pose proof (poll _ _ _ Hs) as Hin. destruct (inb 503 (lctl s)) as [r d'] eqn:Ei.
  erewrite bind_ok by reflexivity. destruct Hin as [(Hr & Hb & Hp)|[Hr Hd]].
  - rewrite (proj2 (Z.eqb_neq _ _)) by done. apply (IH (mk_loader (lmem s) d')); cbn; [done|lia].
  - destruct (status_ready r Hr) as [E _]. change (Z.lor IDE_BSY IDE_DRDY) with 192 in E. change IDE_DRDY with 64 in E. rewrite E. by exists d'.
Qed.

Lemma readsect_ok s B dst n :
  coming (lctl s) B Settle -> 0 <= n < 2 ^ 28 ->
  exists d, readsect dst n s = Ok tt (mk_loader (store_bytes (lmem s) dst (B 0 n)) d) /\ coming d B Settle.
Proof.
  intros Hi Hn. unfold readsect. destruct (waitdisk_ok s B Settle Hi) as (d1 & E1 & R & H1).
  destruct (issue_ok d1 B R 0 n H1 ltac:(lia) Hn) as (R' & H2 & Hc & Hl & Ed & En).
  pose proof (law_read _ _ _ H2 Hc Hl) as H3. rewrite Ed, En in H3. unfold bout. destruct (boot_bytes n Hn) as (-> & -> & -> & -> & ->).
  erewrite bind_ok by exact E1. do 6 (erewrite bind_ok by reflexivity).
  destruct (waitdisk_ok (mk_loader (lmem s) (outb 503 32 (issue 0 n d1))) B (Fetch 0 n) (or_introl H3)) as (d2 & E2 & H4).
  erewrite bind_ok by exact E2. erewrite bind_ok by reflexivity. cbn [lmem lctl].
  pose proof (law_data _ _ _ _ H4) as Hd. change (Z.to_nat (SECTSIZE / 4)) with (BSIZE / 4)%nat.
  destruct (insl 496 (BSIZE / 4) d2) as [data d3]. destruct Hd as [-> Hd]. exists d3. split; [done|by left].
Qed.

(** What the loop leaves in memory: [k] sectors from [n] on at [pa]. *)
Definition with_sectors (m : mem) (B : sectors) (pa n : Z) (k : nat) : mem := fun x =>
  if inside pa (512 * k) x then B 0 (n + (x - pa) / 512) !!! Z.to_nat ((x - pa) mod 512) else m x.

Lemma with_sectors_S m B pa n k x :
  length (B 0 n) = 512%nat ->
  with_sectors (store_bytes m pa (B 0 n)) B (pa + 512) (n + 1) k x = with_sectors m B pa n (S k) x.
Proof.
  intros Hl. unfold with_sectors. rewrite store_bytes_at, Hl. destruct (decide (pa + 512 <= x < pa + 512 + Z.of_nat (512 * k))) as [Hx|Hx].
  - rewrite !inside_true by lia. replace (x - pa) with (x - (pa + 512) + 1 * 512) by lia. rewrite Z.div_add, Z.mod_add by lia.
    do 2 f_equal. lia.
  - rewrite (inside_false (pa + 512)) by lia. destruct (decide (pa <= x < pa + 512)).
    + rewrite !inside_true by lia. rewrite Z.div_small, Z.mod_small, Z.add_0_r by lia. done.
    + by rewrite !inside_false by lia.
Qed.

Lemma readseg_loop_ok B k s pa epa n fuel :
  disk_ok B -> coming (lctl s) B Settle -> 0 <= pa -> epa <= pa + 512 * Z.of_nat k -> (k <> O -> pa + 512 * Z.of_nat k < epa + 512) ->
  pa + 512 * Z.of_nat k < 2 ^ 32 -> 0 <= n -> n + Z.of_nat k < 2 ^ 28 -> (k < fuel)%nat ->
  exists s', readseg_loop pa epa n fuel s = Ok tt s' /\ coming (lctl s') B Settle /\ forall x, lmem s' x = with_sectors (lmem s) B pa n k x.
Proof.
  intros HB. revert s pa n fuel. induction k as [|k IH]; intros s pa n fuel Hi Hpa He Hk Hm Hn Hn' Hf; (destruct fuel as [|fuel]; [lia|]); cbn [readseg_loop].
  { rewrite (proj2 (Z.ltb_ge _ _)) by lia. exists s. split; [done|]. split; [done|]. intros x. unfold with_sectors. by rewrite inside_false by lia. }
  specialize (Hk ltac:(lia)). rewrite (proj2 (Z.ltb_lt _ _)) by lia. cbn [negb].
  destruct (readsect_ok s B pa n Hi ltac:(lia)) as (d & E & Hd). erewrite bind_ok by exact E. unfold SECTSIZE.
  rewrite !u32_small by lia. edestruct (IH (mk_loader (store_bytes (lmem s) pa (B 0 n)) d) (pa + 512) (n + 1) fuel) as (s' & E' & Hd' & Hx); try done; try lia.
  exists s'. split; [exact E'|]. split; [done|]. intros x. rewrite Hx. apply with_sectors_S, HB.
Qed.

(** [readseg] copies whole sectors around the bytes it is asked for. *)
Definition sectors_of (count off : Z) : nat := Z.to_nat ((count + off mod SECTSIZE + SECTSIZE - 1) / SECTSIZE).
Definition loaded (m K : mem) (pa count off : Z) : mem := fun x =>
  if inside (pa - off mod SECTSIZE) (512 * sectors_of count off) x then K (x - pa + off) else m x.

Lemma readseg_ok s B pa count off :
  disk_ok B -> coming (lctl s) B Settle -> 0 <= count < 2 ^ 32 -> 0 <= off < 2 ^ 32 -> off mod SECTSIZE <= pa -> pa + count + 512 <= 2 ^ 32 ->
  exists s', readseg pa count off s = Ok tt s' /\ coming (lctl s') B Settle /\ forall x, lmem s' x = loaded (lmem s) (kernel_file B) pa count off x.
Proof.
  intros HB Hi Hc Ho Hr Hp. pose proof (Z.mod_pos_bound off SECTSIZE ltac:(done)) as Hr'. unfold readseg, SECTSIZE in *.
  set (r := off mod 512) in *. set (k := sectors_of count off).
  assert (count + r <= 512 * Z.of_nat k < count + r + 512) as Hk.
  { unfold k, sectors_of, SECTSIZE. fold r. rewrite Z2Nat.id by (apply Z.div_pos; lia). Z.div_mod_to_equations. lia. }
  rewrite !u32_small by lia.
  destruct (readseg_loop_ok B k s (pa - r) (pa + count) (off / 512 + 1) (S k)) as (s' & E & Hd & Hx); try done; try lia.
  1,2: Z.div_mod_to_equations; lia.
  exists s'. split; [exact E|]. split; [done|]. intros x. rewrite Hx. unfold with_sectors, loaded, kernel_file, SECTSIZE. fold r k.
  destruct (inside (pa - r) (512 * k) x); [|done]. replace (x - pa + off) with (x - (pa - r) + off / 512 * 512) by (unfold r; pose proof (Z.div_mod off 512 ltac:(lia)); lia).
  rewrite Z.div_add, Z.mod_add by lia. do 2 f_equal. lia.
Qed.

(** ** Segments *)

(** An entry of the table that loads nothing. *)
Definition empty (g : segment) : Prop := sg_filesz g = 0 /\ sg_memsz g = 0 /\ sg_off g mod SECTSIZE = 0 /\ 0 <= sg_paddr g < 2 ^ 32.
(** The memory that is written for another one: the sectors around its bytes in
    the file, and its bytes that are not in the file. *)
Definition extent (g : segment) : Z := Z.max (sg_filesz g) (sg_memsz g).
Definition low (g : segment) : Z := sg_paddr g - sg_off g mod SECTSIZE.
Definition high (g : segment) : Z := Z.max (low g + 512 * Z.of_nat (sectors_of (sg_filesz g) (sg_off g))) (sg_paddr g + sg_memsz g).
Definition touches (g : segment) (x : Z) : Prop := ~ empty g /\ low g <= x < high g.

(** The entry is empty, or it lies in the address space and does not touch the
    scratch space. *)
Definition segment_ok (g : segment) : Prop :=
  empty g
  \/ (0 <= sg_off g < 2 ^ 32 /\ 0 <= sg_filesz g /\ 0 <= sg_memsz g /\ 0 <= low g /\ sg_paddr g + extent g + 512 <= 2 ^ 32
      /\ (high g <= 65536 \/ 69632 <= low g)).

(** The bytes of a segment, those that are not in the file zero. *)
Definition in_place (m K : mem) (g : segment) : Prop := forall i, 0 <= i < extent g ->
  m (sg_paddr g + i) = if i <? sg_filesz g then K (sg_off g + i) else 0.

(** The first page of the file is in the scratch space. *)
Definition scratch (m K : mem) : Prop := forall k, 0 <= k < 4096 -> m (65536 + k) = K k.

Lemma scratch_bytes m K k n : scratch m K -> 0 <= k -> k + Z.of_nat n <= 4096 -> bytes_at m (65536 + k) n = bytes_at K k n.
Proof.
  intros Hs Hk Hn. apply list_fmap_ext. intros i x Hi. apply lookup_seq in Hi. rewrite <- Z.add_assoc. apply Hs. lia.
Qed.

Lemma readseg_empty s pa off :
  off mod SECTSIZE = 0 -> 0 <= pa < 2 ^ 32 -> readseg pa 0 off s = Ok tt s.
Proof.
  intros Ho Hp. unfold readseg. rewrite Ho, Z.sub_0_r, Z.add_0_r, u32_small by lia. cbn [readseg_loop]. by rewrite Z.ltb_irrefl.
Qed.

(** The bytes around a segment, and the header of the segment itself. *)
Lemma segment_loaded s B g :
  disk_ok B -> coming (lctl s) B Settle -> segment_ok g -> ~ empty g ->
  exists s', readseg (sg_paddr g) (sg_filesz g) (sg_off g) s = Ok tt s' /\ coming (lctl s') B Settle
    /\ (forall i, 0 <= i < sg_filesz g -> lmem s' (sg_paddr g + i) = kernel_file B (sg_off g + i))
    /\ (forall x, ~ low g <= x < high g -> lmem s' x = lmem s x).
Proof.
  intros HB Hi [?|(Ho & Hf & Hm & Hlow & He & _)] Hne; [done|]. unfold high, low, extent in *.
  pose proof (Z.mod_pos_bound (sg_off g) SECTSIZE ltac:(done)) as Hr.
  destruct (readseg_ok s B (sg_paddr g) (sg_filesz g) (sg_off g)) as (s1 & E1 & Hi1 & Hx); try done; try lia.
  assert (sg_filesz g + sg_off g mod SECTSIZE <= 512 * Z.of_nat (sectors_of (sg_filesz g) (sg_off g))) as Hk.
  { unfold sectors_of, SECTSIZE in *. rewrite Z2Nat.id by (apply Z.div_pos; lia). set (r := sg_off g mod 512) in *. Z.div_mod_to_equations. lia. }
  exists s1. split_and!; [done..| |].
  - intros i Hi'. rewrite Hx. unfold loaded. rewrite inside_true by lia. f_equal. lia.
  - intros x Hout. rewrite Hx. unfold loaded. by rewrite inside_false by lia.
Qed.

Lemma load_segment_ok s B k g :
  let K := kernel_file B in
  disk_ok B -> coming (lctl s) B Settle -> scratch (lmem s) K -> 0 <= k -> k + PROGHDR <= 4096 ->
  g = get_segment (bytes_at K k 32) -> segment_ok g ->
  exists s', load_segment (65536 + k) s = Ok tt s' /\ coming (lctl s') B Settle /\ scratch (lmem s') K /\ in_place (lmem s') K g
    /\ forall x, ~ touches g x -> lmem s' x = lmem s x.
Proof.
  intros K HB Hi Hs Hk Hk' Hg Hok. unfold load_segment, PROGHDR in *. erewrite bind_ok by reflexivity. change (Z.to_nat 32) with 32%nat.
  rewrite (scratch_bytes _ K) by (done || lia). rewrite <- Hg. cbv zeta.
  destruct (decide (empty g)) as [He|Hne].
  { pose proof He as (Hf & Hm & Ho & Hp). exists s. rewrite Hf. erewrite bind_ok by (by apply readseg_empty). erewrite bind_ok by reflexivity.
    rewrite (scratch_bytes _ K) by (done || lia). rewrite <- Hg, Hf, Hm. split_and!; [done..| |done]. intros i Hi'. unfold extent in Hi'. lia. }
  destruct (segment_loaded s B g HB Hi Hok Hne) as (s1 & E1 & Hi1 & Hin & Hout). erewrite bind_ok by exact E1. erewrite bind_ok by reflexivity.
  destruct Hok as [?|(Ho & Hf & Hm & Hlow & He & Hsc)]; [done|]. pose proof (Z.mod_pos_bound (sg_off g) SECTSIZE ltac:(done)) as Hr.
  assert (scratch (lmem s1) K) as Hs1 by (intros j Hj; rewrite Hout by lia; by apply Hs).
  rewrite (scratch_bytes _ K) by (done || lia). rewrite <- Hg. unfold touches, in_place, extent in *.
  assert (low g <= sg_paddr g /\ sg_paddr g + sg_memsz g <= high g) as [Hl1 Hh1] by (unfold high, low; lia).
  destruct (Z.ltb_spec (sg_filesz g) (sg_memsz g)) as [Hlt|Hge]; cbn [when].
  - eexists. split; [reflexivity|]. cbn [lmem lctl]. split; [done|]. rewrite u32_small by lia. split_and!.
    + intros j Hj. rewrite stosb_at, inside_false by lia. by apply Hs1.
    + intros i Hi'. rewrite stosb_at. destruct (Z.ltb_spec i (sg_filesz g)); [rewrite inside_false by lia; apply Hin; lia|by rewrite inside_true by lia].
    + intros x Hx. assert (~ low g <= x < high g) as Hx' by tauto. rewrite stosb_at, inside_false by lia. by apply Hout.
  - exists s1. split_and!; [done..| |].
    + intros i Hi'. rewrite (proj2 (Z.ltb_lt _ _)) by lia. apply Hin. lia.
    + intros x Hx. apply Hout. tauto.
Qed.

(** The segments of the table, from its entry at [ph] of the file on. *)
Definition segments (K : mem) (ph : Z) (n : nat) : list segment :=
  (fun i => get_segment (bytes_at K (ph + Z.of_nat i * PROGHDR) 32)) <$> seq 0 n.

Lemma segments_S K ph n : segments K ph (S n) = get_segment (bytes_at K ph 32) :: segments K (ph + PROGHDR) n.
Proof.
  unfold segments. cbn [seq fmap list_fmap]. f_equal; [by rewrite Z.add_0_r|]. rewrite <- fmap_S_seq, <- list_fmap_compose.
  apply list_fmap_ext. intros i x _. cbn [compose]. do 2 f_equal. lia.
Qed.

(** In increasing order: a segment, and the sectors around it, start after the
    end of the one before. *)
Definition before (g g' : segment) : Prop := empty g \/ empty g' \/ sg_paddr g + extent g <= low g'.
Definition increasing (gs : list segment) : Prop := forall i j g g', (i < j)%nat -> gs !! i = Some g -> gs !! j = Some g' -> before g g'.

Lemma in_place_ext m m' K g : (forall i, 0 <= i < extent g -> m' (sg_paddr g + i) = m (sg_paddr g + i)) -> in_place m K g -> in_place m' K g.
Proof. intros Hm Hg i Hi. rewrite Hm by done. by apply Hg. Qed.

Lemma load_loop_ok B n s k fuel :
  let K := kernel_file B in
  disk_ok B -> coming (lctl s) B Settle -> scratch (lmem s) K -> 0 <= k -> k + Z.of_nat n * PROGHDR <= 4096 -> (n < fuel)%nat ->
  Forall segment_ok (segments K k n) -> increasing (segments K k n) ->
  exists s', load_loop (65536 + k) (65536 + k + Z.of_nat n * PROGHDR) fuel s = Ok tt s' /\ coming (lctl s') B Settle /\ scratch (lmem s') K
    /\ Forall (in_place (lmem s') K) (segments K k n)
    /\ forall x, Forall (fun g => ~ touches g x) (segments K k n) -> lmem s' x = lmem s x.
Proof.
  intros K HB. revert s k fuel. induction n as [|n IH]; intros s k fuel Hi Hs Hk Hn Hf Hok Hinc; (destruct fuel as [|fuel]; [lia|]); cbn [load_loop].
  { rewrite Z.add_0_r, Z.ltb_irrefl. exists s. by repeat split. }
  unfold PROGHDR in *. rewrite (proj2 (Z.ltb_lt _ _)) by lia. cbn [negb]. rewrite segments_S in *. apply Forall_cons_1 in Hok as [Hg Hok].
  set (g := get_segment (bytes_at K k 32)) in *.
  destruct (load_segment_ok s B k g HB Hi Hs Hk) as (s1 & E1 & Hi1 & Hs1 & Hp1 & Hx1); [unfold PROGHDR; lia|done|done|].
  erewrite bind_ok by exact E1. rewrite u32_small by lia. rewrite <- Z.add_assoc.
  destruct (IH s1 (k + 32) fuel) as (s2 & E2 & Hi2 & Hs2 & Hp2 & Hx2); try done; try lia.
  { intros i j a b Hij Ha Hb. apply (Hinc (S i) (S j)); [lia|done|done]. }
  exists s2. split; [rewrite <- E2; f_equal; lia|]. split_and!; [done..| |].
  - apply Forall_cons_2; [|done]. apply (in_place_ext (lmem s1)); [|done]. intros i Hi'. apply Hx2, Forall_lookup. intros j b Hb [Hnb Hlb].
    destruct (Hinc O (S j) g b ltac:(lia) eq_refl Hb) as [(Hf0 & Hm0 & _)|[?|Hbef]]; [unfold extent in Hi'; lia|done|lia].
  - intros x Hx. apply Forall_cons_1 in Hx as [Hx Hxs]. rewrite Hx2 by done. by apply Hx1.
Qed.

Lemma boot_elf_scratch m K : scratch m K -> boot_elf m = get_elfhdr (bytes_at K 0 52).
Proof. intros Hs. f_equal. exact (scratch_bytes m K 0 52 Hs ltac:(lia) ltac:(lia)). Qed.

Lemma boot_scratch s B :
  disk_ok B -> coming (lctl s) B Settle ->
  exists s', readseg 65536 4096 0 s = Ok tt s' /\ coming (lctl s') B Settle /\ scratch (lmem s') (kernel_file B).
Proof.
  intros HB Hi. destruct (readseg_ok s B 65536 4096 0) as (s' & E & Hi' & Hx); try done; try (change (0 mod SECTSIZE) with 0; lia).
  exists s'. split; [done|]. split; [done|]. intros k Hk. rewrite Hx. unfold loaded. change (0 mod SECTSIZE) with 0. change (sectors_of 4096 0) with 8%nat.
  rewrite inside_true by lia. f_equal. lia.
Qed.

(** A file that is no ELF file is left alone, and [bootmain] returns. *)
Theorem bootmain_rejects s B :
  disk_ok B -> coming (lctl s) B Settle -> e_magic (get_elfhdr (bytes_at (kernel_file B) 0 52)) <> ELF_MAGIC ->
  exists s', bootmain s = Ok None s' /\ forall x, ~ (65536 <= x < 65536 + 4096) -> lmem s' x = lmem s x.
Proof.
  intros HB Hi Hm. destruct (readseg_ok s B 65536 4096 0) as (s1 & E1 & Hi1 & Hx); try done; try (change (0 mod SECTSIZE) with 0; lia).
  destruct (boot_scratch s B HB Hi) as (s1' & E1' & _ & Hs). rewrite E1 in E1'. injection E1' as <-.
  exists s1. unfold bootmain. erewrite bind_ok by exact E1. erewrite bind_ok by reflexivity. rewrite (boot_elf_scratch _ _ Hs).
  rewrite (proj2 (Z.eqb_neq _ _)) by done. split; [done|]. intros x Hout. rewrite Hx. unfold loaded. change (0 mod SECTSIZE) with 0.
  change (sectors_of 4096 0) with 8%nat. by rewrite inside_false by lia.
Qed.

(** C36: [bootmain] loads a kernel whose program headers are in the first page of
    the file: it jumps to the entry point with every byte of every segment in
    place, those that are not in the file zero.  Every entry of the table is
    empty (both sizes 0, its offset at the start of a sector), or the memory that
    is written for it, whole sectors around the bytes in the file, lies in the
    address space outside the scratch space from [0x10000] to [0x11000]; and the
    segments are in increasing order, each starting, with the sector it starts
    in, behind the end of those before.  The controller follows the protocol of
    the ATA standard and reports no errors. *)
Theorem bootmain_loads s B :
  let K := kernel_file B in
  let elf := get_elfhdr (bytes_at K 0 52) in
  let gs := segments K (e_phoff elf) (Z.to_nat (e_phnum elf)) in
  disk_ok B -> coming (lctl s) B Settle -> e_magic elf = ELF_MAGIC -> 0 <= e_phoff elf -> 0 <= e_phnum elf ->
  e_phoff elf + e_phnum elf * PROGHDR <= 4096 -> Forall segment_ok gs -> increasing gs ->
  exists s', bootmain s = Ok (Some (e_entry elf)) s' /\ Forall (in_place (lmem s') K) gs /\ coming (lctl s') B Settle.
Proof.
  intros K elf gs HB Hi Hm Hoff Hnum Hfit Hok Hinc. destruct (boot_scratch s B HB Hi) as (s1 & E1 & Hi1 & Hs1).
  destruct (load_loop_ok B (Z.to_nat (e_phnum elf)) s1 (e_phoff elf) (S (Z.to_nat (e_phnum elf)))) as (s2 & E2 & Hi2 & Hs2 & Hp2 & _);
    try done; [rewrite Z2Nat.id by done; lia|lia|].
  rewrite Z2Nat.id in E2 by done. exists s2. unfold bootmain. erewrite bind_ok by exact E1. erewrite bind_ok by reflexivity.
  rewrite (boot_elf_scratch _ _ Hs1). fold K elf. rewrite Hm, Z.eqb_refl. cbn [negb]. unfold PROGHDR in *. rewrite !u32_small by (rewrite ?u32_small; lia).
  erewrite bind_ok by exact E2. erewrite bind_ok by reflexivity. rewrite (boot_elf_scratch _ _ Hs2). done.
Qed.
End Theory.

(** ** A kernel *)

(** A file with one segment of three bytes at offset 84, to be loaded at
    [0x100054] with two more bytes of memory. *)
Definition kernel_image : list Z :=
  le_bytes 4 ELF_MAGIC ++ replicate 20 0 ++ le_bytes 4 0x10000c ++ le_bytes 4 52 ++ replicate 12 0 ++ le_bytes 2 1 ++ replicate 6 0
  ++ le_bytes 4 1 ++ le_bytes 4 84 ++ le_bytes 4 0 ++ le_bytes 4 0x100054 ++ le_bytes 4 3 ++ le_bytes 4 5 ++ replicate 8 0
  ++ [1; 2; 3].
Definition kernel_disk : sectors := fun _ n => if n =? 1 then kernel_image ++ replicate (512 - length kernel_image) 9 else replicate 512 9.

Lemma kernel_disk_ok : disk_ok kernel_disk.
Proof. intros n. unfold kernel_disk. destruct (n =? 1); split; try done; apply (bool_decide_unpack _); vm_compute; exact I. Qed.

Lemma bootmain_loads_witness :
  exists s' : loader sim, bootmain (mk_loader (fun _ => 0) (mk_sim (fun _ => 0) kernel_disk 1 Waits)) = Ok (Some 0x10000c) s'
    /\ lmem s' 0x100056 = 3 /\ lmem s' 0x100058 = 0.
Proof.
  destruct (bootmain_loads (mk_loader (fun _ => 0) (mk_sim (fun _ => 0) kernel_disk 1 Waits)) kernel_disk kernel_disk_ok) as (s' & E & Hp & _).
  - left. exists 1%nat. split; [lia|done].
  - by vm_compute.
  - by vm_compute.
  - by vm_compute.
  - by vm_compute.
  - constructor; [|constructor]. right. split_and!; try (by vm_compute). right. by vm_compute.
  - intros [|i] [|j] g g' Hij Hg Hg'; [lia|discriminate Hg'|lia|discriminate Hg].
  - exists s'. apply Forall_cons_1 in Hp as [Hp _]. split; [exact E|].
    exact (conj (Hp 2 ltac:(vm_compute; by split)) (Hp 4 ltac:(vm_compute; by split))).
Defined.
