(* ===== verification/Apic.v ===== *)
(** * Interrupt controllers and the clock

    Models lapic.c, ioapic.c and picirq.c.  The devices are hardware: [Board] has
    the accesses to their registers and ports, and the classes further down what
    the code relies on, the documented behaviour of the I/O controller, of the
    local controller and of the clock.

    The theorems show that the table of the I/O controller holds the routing that
    the calls of [ioapicenable] ask for; that [lapicinit] leaves the timer running
    and the other sources masked; and that [cmostime] returns a time that the
    clock really showed, even if the clock moves on while it is read. *)

From S2P Require Import Prelude CString Trap.
Open Scope Z_scope.

Definition IRQ_ERROR : Z := 19.
Definition IRQ_SPURIOUS : Z := 31.
Definition IOAPIC : Z := 0xFEC00000.
Definition REG_ID : Z := 0.
Definition REG_VER : Z := 1.
Definition REG_TABLE : Z := 16.
Definition INT_DISABLED : Z := 0x10000.

(** The registers of the local controller that are used. *)
Inductive lapicreg := ID | VER | TPR | EOI | SVR | ESR | ICRLO | ICRHI | TIMER | PCINT | LINT0 | LINT1 | ERROR | TICR | TDCR.
#[export] Instance lapicreg_eq_dec : EqDecision lapicreg.
Proof. solve_decision. Defined.

(** Mapped registers of the local controller and, by address, of the I/O
    controller; ports.  [dspin] bounds how often a register has to be read until
    the device has done what was asked. *)
Class Board (D : Type) := {
  lapic_read : lapicreg -> D -> Z * D;
  lapic_write : lapicreg -> Z -> D -> D;
  mmio_read : Z -> D -> Z * D;
  mmio_write : Z -> Z -> D -> D;
  port_in : Z -> D -> Z * D;
  port_out : Z -> Z -> D -> D;
  dspin : nat;
}.

(** [haslapic] is [lapic != 0]; [ioid] is [ioapicid], which mp.c sets. *)
Record board (D : Type) := mk_board {
  haslapic : bool;
  ioid : Z;
  messages : list string;
  lowmem : mem;
  dev : D;
}.
Arguments mk_board {_} _ _ _ _ _.
Arguments haslapic {_} _.
Arguments ioid {_} _.
Arguments messages {_} _.
Arguments lowmem {_} _.
Arguments dev {_} _.

Record rtcdate := mk_rtcdate { second : Z; minute : Z; hour : Z; day : Z; month : Z; year : Z }.
#[export] Instance rtcdate_eq_dec : EqDecision rtcdate.
Proof. solve_decision. Defined.

Section Apic.
Context {D : Type} `{Board D}.

Definition with_dev (s : board D) (d : D) : board D := mk_board (haslapic s) (ioid s) (messages s) (lowmem s) d.
Definition dwrite (f : D -> D) : M (board D) unit := modify (fun s => with_dev s (f (dev s))).
Definition dread (f : D -> Z * D) : M (board D) Z :=
  s ← get;
  let '(v, d) := f (dev s) in
  put (with_dev s d);;
  mret v.

(** ** lapic.c *)
Definition lapicw (index : lapicreg) (value : Z) : M (board D) unit :=
  dwrite (lapic_write index (u32 value));;
  dread (lapic_read ID);;
  mret tt.

(** [while(lapic[ICRLO] & DELIVS);] *)
Fixpoint wait_delivered (fuel : nat) : M (board D) unit :=
  match fuel with
  | O => no_fuel
  | S fuel => v ← dread (lapic_read ICRLO); if ctrue (Z.land v 0x1000) then wait_delivered fuel else mret tt
  end.

Definition lapicinit : M (board D) unit :=
  s ← get;
  if negb (haslapic s) then mret tt
  else
    lapicw SVR (Z.lor 0x100 (T_IRQ0 + IRQ_SPURIOUS));;
    lapicw TDCR 0xB;;
    lapicw TIMER (Z.lor 0x20000 (T_IRQ0 + IRQ_TIMER));;
    lapicw TICR 10000000;;
    lapicw LINT0 0x10000;;
    lapicw LINT1 0x10000;;
    v ← dread (lapic_read VER);
    when (4 <=? Z.land (Z.shiftr v 16) 0xFF) (lapicw PCINT 0x10000);;
    lapicw ERROR (T_IRQ0 + IRQ_ERROR);;
    lapicw ESR 0;;
    lapicw ESR 0;;
    lapicw EOI 0;;
    lapicw ICRHI 0;;
    lapicw ICRLO (Z.lor (Z.lor 0x80000 0x500) 0x8000);;
    wait_delivered dspin;;
    lapicw TPR 0.

Definition lapicid : M (board D) Z :=
  s ← get;
  if negb (haslapic s) then mret 0
  else v ← dread (lapic_read ID); mret (Z.shiftr v 24).

Definition lapiceoi : M (board D) unit := s ← get; when (haslapic s) (lapicw EOI 0).

Definition microdelay (us : Z) : M (board D) unit := mret tt.

(** [wrv] is the vector at 40:67, two 16-bit words. *)
Definition lapicstartap (apicid addr : Z) : M (board D) unit :=
  dwrite (port_out 0x70 0xF);;
  dwrite (port_out 0x71 0x0A);;
  let wrv := Z.lor (Z.shiftl 0x40 4) 0x67 in
  modify (fun s => mk_board (haslapic s) (ioid s) (messages s)
    (store_bytes (store_bytes (lowmem s) wrv (le_bytes 2 0)) (wrv + 2) (le_bytes 2 (Z.shiftr addr 4))) (dev s));;
  lapicw ICRHI (Z.shiftl apicid 24);;
  lapicw ICRLO (Z.lor (Z.lor 0x500 0x8000) 0x4000);;
  microdelay 200;;
  lapicw ICRLO (Z.lor 0x500 0x8000);;
  microdelay 100;;
  for_each (seq 0 2) (fun _ =>
    lapicw ICRHI (Z.shiftl apicid 24);;
    lapicw ICRLO (Z.lor 0x600 (Z.shiftr addr 12));;
    microdelay 200).

Definition cmos_read (reg : Z) : M (board D) Z :=
  dwrite (port_out 0x70 reg);;
  microdelay 200;;
  dread (port_in 0x71).

Definition fill_rtcdate : M (board D) rtcdate :=
  a ← cmos_read 0;
  b ← cmos_read 2;
  c ← cmos_read 4;
  d ← cmos_read 7;
  e ← cmos_read 8;
  f ← cmos_read 9;
  mret (mk_rtcdate a b c d e f).

(** [for(;;)]: both readings must agree. *)
Fixpoint cmostime_loop (fuel : nat) : M (board D) rtcdate :=
  match fuel with
  | O => no_fuel
  | S fuel =>
      t1 ← fill_rtcdate;
      a ← cmos_read 0x0a;
      if ctrue (Z.land a (Z.shiftl 1 7)) then cmostime_loop fuel
      else
        t2 ← fill_rtcdate;
        if bool_decide (t1 = t2) then mret t1 else cmostime_loop fuel
  end.

Definition CONV (x : Z) : Z := u32 (u32 (Z.shiftr x 4 * 10) + Z.land x 0xf).
Definition cmostime : M (board D) rtcdate :=
  sb ← cmos_read 0x0b;
  let bcd := Z.land sb (Z.shiftl 1 2) =? 0 in
  t1 ← cmostime_loop dspin;
  let t1 := if bcd then mk_rtcdate (CONV (second t1)) (CONV (minute t1)) (CONV (hour t1)) (CONV (day t1)) (CONV (month t1)) (CONV (year t1)) else t1 in
  mret { t1 with year := u32 (year t1 + 2000) }.

(** ** ioapic.c *)
Definition ioapicread (reg : Z) : M (board D) Z :=
  dwrite (mmio_write IOAPIC (u32 reg));;
  dread (mmio_read (IOAPIC + 16)).
Definition ioapicwrite (reg data : Z) : M (board D) unit :=
  dwrite (mmio_write IOAPIC (u32 reg));;
  dwrite (mmio_write (IOAPIC + 16) (u32 data)).

Definition ioapicinit : M (board D) unit :=
  v ← ioapicread REG_VER;
  let maxintr := Z.land (Z.shiftr v 16) 0xFF in
  v ← ioapicread REG_ID;
  let id := Z.shiftr v 24 in
  s ← get;
  when (negb (id =? ioid s))
    (modify (fun s => mk_board (haslapic s) (ioid s) (messages s ++ ["ioapicinit: id isn't equal to ioapicid; not a MP"%string]) (lowmem s) (dev s)));;
  for_each (seq 0 (Z.to_nat (maxintr + 1))) (fun i =>
    ioapicwrite (REG_TABLE + 2 * Z.of_nat i) (Z.lor INT_DISABLED (T_IRQ0 + Z.of_nat i));;
    ioapicwrite (REG_TABLE + 2 * Z.of_nat i + 1) 0).

Definition ioapicenable (irq cpunum : Z) : M (board D) unit :=
  ioapicwrite (REG_TABLE + 2 * irq) (T_IRQ0 + irq);;
  ioapicwrite (REG_TABLE + 2 * irq + 1) (Z.shiftl cpunum 24).

(** ** picirq.c *)
Definition picinit : M (board D) unit :=
  dwrite (port_out 0x21 0xFF);;
  dwrite (port_out 0xA1 0xFF).
End Apic.

(** ** Routing *)

(** The I/O controller: a register is selected, then read or written.  The
    registers from [REG_TABLE] on hold what was written to them; a board has
    [io_max] + 1 pairs of them. *)
Class IoapicSpec (D : Type) `{Board D} := {
  io_sel : D -> Z;
  io_reg : D -> Z -> Z;
  io_max : nat;
  law_io_select : forall d r, io_sel (mmio_write IOAPIC r d) = r /\ io_reg (mmio_write IOAPIC r d) = io_reg d;
  law_io_write : forall d v, REG_TABLE <= io_sel d -> 0 <= v < 2 ^ 32 ->
    forall r, io_reg (mmio_write (IOAPIC + 16) v d) r = <[io_sel d := v]> (io_reg d) r;
  law_io_read : forall d, let '(v, d') := mmio_read (IOAPIC + 16) d in
    v = io_reg d (io_sel d) /\ io_reg d' = io_reg d;
  law_io_max : forall d, Z.land (Z.shiftr (io_reg d REG_VER) 16) 0xFF = Z.of_nat io_max;
}.

Section Routing.
Context {D : Type} `{HI : IoapicSpec D}.

(** [f irq] is the processor that serves an interrupt, if it is enabled. *)
Definition routes (d : D) (f : Z -> option Z) : Prop := forall irq, 0 <= irq <= Z.of_nat io_max ->
  (io_reg d (REG_TABLE + 2 * irq), io_reg d (REG_TABLE + 2 * irq + 1))
  = match f irq with Some c => (T_IRQ0 + irq, c * 2 ^ 24) | None => (Z.lor INT_DISABLED (T_IRQ0 + irq), 0) end.

Lemma ioapicread_ok s reg :
  0 <= reg < 2 ^ 32 -> exists d, ioapicread reg s = Ok (io_reg (dev s) reg) (with_dev s d) /\ io_reg d = io_reg (dev s).
Proof.
  intros Hr. unfold ioapicread. erewrite bind_ok by reflexivity. unfold dread. erewrite bind_ok by reflexivity. cbn [dev with_dev].
  rewrite u32_small by done. pose proof (law_io_read (mmio_write IOAPIC reg (dev s))) as Hl. destruct (law_io_select (dev s) reg) as [E1 E2].
  destruct (mmio_read _ _) as [v d]. destruct Hl as (-> & Hd). exists d. rewrite E1, E2 in *. done.
Qed.

Lemma ioapicwrite_ok s reg v :
  REG_TABLE <= reg < 2 ^ 32 -> exists d, ioapicwrite reg v s = Ok tt (with_dev s d) /\ forall r, io_reg d r = <[reg := u32 v]> (io_reg (dev s)) r.
Proof.
  intros Hr. unfold ioapicwrite. erewrite bind_ok by reflexivity. rewrite (u32_small reg) by (unfold REG_TABLE in *; lia). eexists. split; [reflexivity|].
  destruct (law_io_select (dev s) reg) as [E1 E2]. cbn [dev with_dev]. intros r. rewrite law_io_write by (apply u32_range || (rewrite E1; lia)). by rewrite E1, E2.
Qed.

(** The two registers of an interrupt. *)
Lemma iowrite_pair s irq lo hi :
  0 <= irq <= 255 -> exists d, (ioapicwrite (REG_TABLE + 2 * irq) lo;; ioapicwrite (REG_TABLE + 2 * irq + 1) hi) s = Ok tt (with_dev s d)
    /\ forall i, (io_reg d (REG_TABLE + 2 * i), io_reg d (REG_TABLE + 2 * i + 1))
         = if decide (i = irq) then (u32 lo, u32 hi) else (io_reg (dev s) (REG_TABLE + 2 * i), io_reg (dev s) (REG_TABLE + 2 * i + 1)).
Proof.
  intros Hi. unfold REG_TABLE. destruct (ioapicwrite_ok s (16 + 2 * irq) lo ltac:(unfold REG_TABLE; lia)) as (d1 & E1 & H1).
  destruct (ioapicwrite_ok (with_dev s d1) (16 + 2 * irq + 1) hi ltac:(unfold REG_TABLE; lia)) as (d2 & E2 & H2).
  exists d2. split; [erewrite bind_ok by exact E1; exact E2|]. intros i. rewrite !H2. cbn [dev with_dev]. case_decide as Hd.
  - subst i. rewrite fn_lookup_insert, fn_lookup_insert_ne, H1, fn_lookup_insert by lia. done.
  - rewrite !fn_lookup_insert_ne by lia. by rewrite !H1, !fn_lookup_insert_ne by lia.
Qed.

Lemma io_max_range (d : D) : (io_max <= 255)%nat.
Proof.
  pose proof (law_io_max d) as E. change 0xFF with (Z.ones 8) in E. rewrite Z.land_ones in E by lia.
  pose proof (Z.mod_pos_bound (Z.shiftr (io_reg d REG_VER) 16) (2 ^ 8) ltac:(lia)). lia.
Qed.

Lemma ioapic_clear n s :
  (n <= 256)%nat ->
  exists d, for_each (seq 0 n) (fun i =>
    ioapicwrite (REG_TABLE + 2 * Z.of_nat i) (Z.lor INT_DISABLED (T_IRQ0 + Z.of_nat i));;
    ioapicwrite (REG_TABLE + 2 * Z.of_nat i + 1) 0) s = Ok tt (with_dev s d)
    /\ forall i, 0 <= i < Z.of_nat n -> (io_reg d (REG_TABLE + 2 * i), io_reg d (REG_TABLE + 2 * i + 1)) = (Z.lor INT_DISABLED (T_IRQ0 + i), 0).
Proof.
  induction n as [|n IH]; intros Hn; [exists (dev s); split; [by destruct s|lia]|].
  destruct IH as (d1 & E1 & H1); [lia|]. rewrite seq_S. cbn [Nat.add].
  destruct (iowrite_pair (with_dev s d1) (Z.of_nat n) (Z.lor INT_DISABLED (T_IRQ0 + Z.of_nat n)) 0 ltac:(lia)) as (d2 & E2 & H2).
  exists d2. split; [rewrite (for_each_app _ _ _ _ _ E1); cbn [for_each]; by erewrite bind_ok by exact E2|].
  intros i Hi. rewrite H2. case_decide as Hd; [|apply H1; lia]. subst i. f_equal. apply u32_small. unfold INT_DISABLED, T_IRQ0.
  split; [apply Z.lor_nonneg; lia|]. apply (Z.log2_lt_cancel _ (2 ^ 32)). rewrite Z.log2_lor, Z.log2_pow2 by lia.
  apply Z.max_lub_lt; [by vm_compute|]. apply Z.log2_lt_pow2; lia.
Qed.

(** [ioapicinit] disables every interrupt, and says so if the number of the
    controller is not the one in the tables of the firmware. *)
Theorem ioapicinit_disables s :
  exists s', ioapicinit s = Ok tt s' /\ routes (dev s') (fun _ => None)
    /\ (messages s' = messages s <-> Z.shiftr (io_reg (dev s) REG_ID) 24 = ioid s).
Proof.
  unfold ioapicinit. destruct (ioapicread_ok s REG_VER ltac:(by vm_compute)) as (d1 & E1 & H1). erewrite bind_ok by exact E1.
  destruct (ioapicread_ok (with_dev s d1) REG_ID ltac:(by vm_compute)) as (d2 & E2 & H2). erewrite bind_ok by exact E2. erewrite bind_ok by reflexivity.
  rewrite law_io_max. cbn [dev with_dev ioid]. rewrite H1. pose proof (io_max_range (dev s)) as Hm.
  replace (Z.to_nat (Z.of_nat io_max + 1)) with (S io_max) by lia. set (c := Z.shiftr (io_reg (dev s) REG_ID) 24 =? ioid s).
  assert (exists ms, when (negb c) (modify (fun s => mk_board (haslapic s) (ioid s) (messages s ++ ["ioapicinit: id isn't equal to ioapicid; not a MP"%string]) (lowmem s) (dev s)))
    (with_dev s d2) = Ok tt (mk_board (haslapic s) (ioid s) ms (lowmem s) d2) /\ (ms = messages s <-> c = true)) as (ms & E3 & Hms).
  { destruct c; cbn [negb when]; eexists; (split; [reflexivity|]); split; try done. intros E. by apply (f_equal length) in E; rewrite length_app in E; cbn in E; lia. }
  erewrite bind_ok by exact E3. destruct (ioapic_clear (S io_max) (mk_board (haslapic s) (ioid s) ms (lowmem s) d2) ltac:(lia)) as (d3 & E4 & H3).
  eexists. split; [exact E4|]. split; [intros irq Hirq; apply H3; lia|]. cbn [messages with_dev]. rewrite Hms. unfold c. apply Z.eqb_eq.
Qed.

(** [ioapicenable] routes one interrupt and leaves the others as they are. *)
Theorem ioapicenable_routes s f irq c :
  routes (dev s) f -> 0 <= irq <= Z.of_nat io_max -> 0 <= c < 256 ->
  exists d, ioapicenable irq c s = Ok tt (with_dev s d) /\ routes d (<[irq := Some c]> f).
Proof.
  intros Hf Hi Hc. pose proof (io_max_range (dev s)). unfold ioapicenable.
  destruct (iowrite_pair s irq (T_IRQ0 + irq) (Z.shiftl c 24) ltac:(lia)) as (d & E & Hd). exists d. split; [exact E|].
  intros i Hi'. rewrite Hd. case_decide as Hii; [subst i; rewrite fn_lookup_insert|rewrite fn_lookup_insert_ne by done; by apply Hf].
  rewrite Z.shiftl_mul_pow2 by lia. unfold T_IRQ0. rewrite !u32_small by lia. done.
Qed.
End Routing.

(** ** The local controller *)

(** The registers that keep what is written to them. *)
Definition keeps (r : lapicreg) : bool :=
  match r with TPR | SVR | TIMER | PCINT | LINT0 | LINT1 | ERROR | TICR | TDCR => true | _ => false end.

Class LapicSpec (D : Type) `{Board D} := {
  lreg : D -> lapicreg -> Z;
  lver : Z;
  undelivered : D -> nat;
  law_lwrite : forall d r v r', keeps r' -> lreg (lapic_write r v d) r' = if decide (r' = r) then v else lreg d r';
  law_lread : forall d r r', keeps r' -> lreg (lapic_read r d).2 r' = lreg d r';
  law_lver : forall d, (lapic_read VER d).1 = lver;
  law_dspin : forall d, (undelivered d < dspin)%nat;
  law_deliver : forall d, let '(v, d') := lapic_read ICRLO d in ctrue (Z.land v 0x1000) -> (undelivered d' < undelivered d)%nat;
}.

Section Lapic.
Context {D : Type} `{HL : LapicSpec D}.

Definition holds (d : D) (T : lapicreg -> Z) : Prop := forall r, keeps r -> lreg d r = T r.

Lemma dread_ok s f : dread (D := D) f s = Ok (f (dev s)).1 (with_dev s (f (dev s)).2).
Proof. unfold dread. erewrite bind_ok by reflexivity. by destruct (f (dev s)). Qed.

(** The rest of a run ends with the devices changed, and [Q] of their registers. *)
Definition ends (s : board D) (Q : (lapicreg -> Z) -> Prop) (r : result (board D) unit) : Prop :=
  exists d T, r = Ok tt (with_dev s d) /\ holds d T /\ Q T.

Lemma lapicw_ok s d T r v : holds d T -> ends s (eq (<[r := u32 v]> T)) (lapicw r v (with_dev s d)).
Proof.
  intros HT. unfold lapicw. erewrite bind_ok by reflexivity. erewrite bind_ok by apply dread_ok. eexists _, _. split; [reflexivity|]. split; [|done].
  intros r' Hr. rewrite law_lread by done. cbn [dev with_dev]. rewrite law_lwrite by done. case_decide as Hd; [subst; by rewrite fn_lookup_insert|].
  rewrite fn_lookup_insert_ne by done. by apply HT.
Qed.

Lemma lapicw_then s d T r v (m : M (board D) unit) Q :
  holds d T -> (forall d', holds d' (<[r := u32 v]> T) -> ends s Q (m (with_dev s d'))) -> ends s Q ((lapicw r v;; m) (with_dev s d)).
Proof. intros HT Hm. destruct (lapicw_ok s d T r v HT) as (d' & T' & E & H' & <-). erewrite bind_ok by exact E. by apply Hm. Qed.

Lemma wait_delivered_ok s T fuel d :
  holds d T -> (undelivered d < fuel)%nat -> ends s (eq T) (wait_delivered fuel (with_dev s d)).
Proof.
  revert d. induction fuel as [|fuel IH]; intros d HT Hf; [lia|]. cbn [wait_delivered]. erewrite bind_ok by apply dread_ok. cbn [dev with_dev].
  pose proof (law_deliver d) as Hd. assert (holds (lapic_read ICRLO d).2 T) as HT' by (intros r Hr; rewrite law_lread by done; by apply HT).
  destruct (lapic_read ICRLO d) as [v d']. cbn [fst snd] in *. destruct (ctrue (Z.land v 4096)); [|by exists d', T].
  apply IH; [done|]. specialize (Hd I). lia.
Qed.

(** What [lapicinit] leaves in the registers. *)
Definition lapic_ready (T : lapicreg -> Z) : Prop :=
  T SVR = 0x13F /\ T TDCR = 0xB /\ T TIMER = 0x20020 /\ T TICR = 10000000 /\ T LINT0 = 0x10000 /\ T LINT1 = 0x10000
  /\ T ERROR = 51 /\ T TPR = 0 /\ (4 <= Z.land (Z.shiftr lver 16) 0xFF -> T PCINT = 0x10000).

(** [lapicinit] starts the timer, as a periodic source of the timer interrupt, and
    masks the other sources. *)
Theorem lapicinit_starts s : haslapic s = true -> ends s lapic_ready (lapicinit s).
Proof.
  intros Hs. unfold lapicinit. erewrite bind_ok by reflexivity. rewrite Hs. cbn [negb].
  replace s with (with_dev s (dev s)) at 2 by (by destruct s). assert (holds (dev s) (lreg (dev s))) as HT by done.
  do 6 (eapply lapicw_then; [exact HT|clear HT; intros ? HT]). erewrite bind_ok by apply dread_ok. cbn [dev with_dev]. rewrite law_lver.
  match type of HT with holds ?d ?T => set (T0 := T) in HT; set (d0 := (lapic_read VER d).2);
    assert (holds d0 T0) as HT' by (intros r Hr; unfold d0; rewrite law_lread by done; by apply HT) end.
  assert (ends s (fun T => forall r, T r = if bool_decide (r = PCINT) && (4 <=? Z.land (Z.shiftr lver 16) 255) then 0x10000 else T0 r)
    (when (4 <=? Z.land (Z.shiftr lver 16) 255) (lapicw PCINT 0x10000) (with_dev s d0))) as (d1 & T1 & E1 & HT1 & HQ).
  { destruct (4 <=? _); cbn [when].
    - destruct (lapicw_ok s d0 T0 PCINT 65536 HT') as (d1 & T1 & E & H1 & <-). exists d1, (<[PCINT := u32 65536]> T0). split; [done|]. split; [done|]. by intros [].
    - exists d0, T0. split; [done|]. split; [done|]. intros r. by rewrite andb_false_r. }
  erewrite bind_ok by exact E1. do 6 (eapply lapicw_then; [exact HT1|clear HT1; intros ? HT1]).
  destruct (wait_delivered_ok s _ dspin _ HT1 (law_dspin _)) as (d2 & T2 & E2 & HT2 & <-). erewrite bind_ok by exact E2.
  destruct (lapicw_ok s d2 _ TPR 0 HT2) as (d3 & T3 & E3 & HT3 & <-). eexists _, _. split; [exact E3|]. split; [exact HT3|].
  unfold lapic_ready. repeat split; try (intros Hv; apply Z.leb_le in Hv);
    repeat (rewrite fn_lookup_insert || rewrite fn_lookup_insert_ne by discriminate); rewrite ?HQ, ?Hv; reflexivity.
Qed.
End Lapic.

(** ** The clock *)

Definition date_regs : list Z := [0; 2; 4; 7; 8; 9].
Definition field (t : rtcdate) (reg : Z) : Z :=
  if reg =? 0 then second t else if reg =? 2 then minute t else if reg =? 4 then hour t
  else if reg =? 7 then day t else if reg =? 8 then month t else year t.
Definition date_of (vs : list Z) : rtcdate :=
  mk_rtcdate (vs !!! 0%nat) (vs !!! 1%nat) (vs !!! 2%nat) (vs !!! 3%nat) (vs !!! 4%nat) (vs !!! 5%nat).

(** The decimal digits of a number below 100, one in each half of a byte. *)
Definition to_bcd (x : Z) : Z := 16 * (x / 10) + x mod 10.

Section Reads.
Context {D : Type} `{Board D}.

(** Reading registers one after the other. *)
Definition cmos (reg : Z) (d : D) : Z * D := port_in 0x71 (port_out 0x70 reg d).
Fixpoint reads (regs : list Z) (d : D) : list Z * D :=
  match regs with
  | [] => ([], d)
  | r :: regs => let '(v, d) := cmos r d in let '(vs, d) := reads regs d in (v :: vs, d)
  end.
Definition after (regs : list Z) (d : D) : D := (reads regs d).2.
End Reads.

(** The clock counts [time d] in microseconds and updates its registers at the
    beginning of each second, which takes 1984 microseconds; from 244
    microseconds before that on and until it is done, bit 7 of status A is set.
    Outside of the update, the registers hold the date and time [clock q] of the
    second [q], in the encoding that status B tells, with the hours from 0 to
    23; during the update, nothing is known of them.  These are the figures of
    the data sheet of the MC146818.  Selecting a register and reading it takes up
    to 10 microseconds, so nothing else runs in between. *)
Definition SECOND : Z := 1000000.
Definition UPDATE : Z := 1984.
Definition NOTICE : Z := 244.
Definition announced (t : Z) : bool := (t mod SECOND <? UPDATE) || (SECOND - NOTICE <=? t mod SECOND).

Class RtcSpec (D : Type) `{Board D} := {
  time : D -> Z;
  clock : Z -> rtcdate;
  bcd_mode : bool;
  law_cmos : forall d reg, let '(v, d') := cmos reg d in
    time d < time d' <= time d + 10
    /\ (reg ∈ date_regs -> UPDATE <= time d' mod SECOND ->
         let x := field (clock (time d' / SECOND)) reg in v = if bcd_mode then to_bcd x else x)
    /\ (reg = 0x0a -> ctrue (Z.land v 128) = announced (time d'))
    /\ (reg = 0x0b -> (Z.land v 4 =? 0) = bcd_mode);
  law_digits : forall q reg, 0 <= field (clock q) reg < 100;
  law_rounds : (330 <= dspin)%nat;
}.

Section Rtc.
Context {D : Type} `{HR : RtcSpec D}.

Definition encode (x : Z) : Z := if bcd_mode then to_bcd x else x.
Definition shown (q : Z) : rtcdate := date_of ((fun r => encode (field (clock q) r)) <$> date_regs).

(** All of the time from [a] to [b] lies in second [q], behind the update. *)
Definition calm (q a b : Z) : Prop := q * SECOND + UPDATE <= a /\ b < (q + 1) * SECOND.

Lemma calm_at q a b t : calm q a b -> a <= t <= b -> t / SECOND = q /\ UPDATE <= t mod SECOND.
Proof.
  unfold calm, SECOND, UPDATE. intros [H1 H2] Ht. assert (t / 1000000 = q) as <- by (symmetry; apply (Z.div_unique t 1000000 q (t - q * 1000000)); lia).
  pose proof (Z.div_mod t 1000000 ltac:(lia)). lia.
Qed.

Lemma reads_time l d :
  time d + Z.of_nat (length l) <= time (after l d) <= time d + 10 * Z.of_nat (length l).
Proof.
  unfold after. revert d. induction l as [|r l IH]; intros d; cbn [reads]; [cbn; lia|].
  pose proof (law_cmos d r) as Hc. destruct (cmos r d) as [v d1]. destruct Hc as (Ht & _). specialize (IH d1).
  destruct (reads l d1) as [vs d2]. cbn [snd length] in *. lia.
Qed.

Lemma reads_ok l d q :
  Forall (.∈ date_regs) l -> calm q (time d) (time d + 10 * Z.of_nat (length l)) ->
  (reads l d).1 = (fun r => encode (field (clock q) r)) <$> l.
Proof.
  intros Hl. revert d. induction Hl as [|r l Hr _ IH]; intros d Hq; [done|]. cbn [reads].
  pose proof (law_cmos d r) as Hc. destruct (cmos r d) as [v d1]. destruct Hc as (Ht & Hv & _). cbn [length] in Hq.
  destruct (calm_at _ _ _ (time d1) Hq ltac:(lia)) as [E1 E2]. specialize (IH d1).
  destruct (reads l d1) as [vs d2]. cbn [fst fmap list_fmap] in *. f_equal; [rewrite Hv by done; cbn; by rewrite E1|].
  apply IH. unfold calm in *. lia.
Qed.

Lemma fill_shown d q : calm q (time d) (time d + 60) -> date_of (reads date_regs d).1 = shown q.
Proof. intros Hq. unfold shown. rewrite (reads_ok _ _ q); [done|apply (bool_decide_unpack _); vm_compute; exact I|exact Hq]. Qed.

Lemma cmos_read_ok s d reg : cmos_read reg (with_dev s d) = Ok (cmos reg d).1 (with_dev s (cmos reg d).2).
Proof. unfold cmos_read. erewrite bind_ok by reflexivity. erewrite bind_ok by reflexivity. by rewrite dread_ok. Qed.

Lemma fill_ok s d : fill_rtcdate (with_dev s d) = Ok (date_of (reads date_regs d).1) (with_dev s (after date_regs d)).
Proof.
  unfold fill_rtcdate. do 6 (erewrite bind_ok by apply cmos_read_ok). unfold after, date_regs. cbn [reads].
  repeat match goal with |- context [cmos ?r ?d] => destruct (cmos r d); cbn [fst snd] end. done.
Qed.

(** If no update is announced, there is time for six more reads. *)
Lemma quiet_calm t : announced t = false -> calm (t / SECOND) t (t + 60).
Proof.
  unfold announced, calm, SECOND, UPDATE, NOTICE. intros [H1 H2]%orb_false_iff. apply Z.ltb_ge in H1. apply Z.leb_gt in H2.
  pose proof (Z.div_mod t 1000000 ltac:(lia)). lia.
Qed.

(** A round that starts at [a] ends the loop if it is [good]; it is [bad] if it is
    too close to the update at the beginning of second [n]. *)
Definition good (a : Z) : Prop := exists q, calm q a (a + 70 + NOTICE).
Definition bad (n a : Z) : Prop := n * SECOND <= a + 70 + NOTICE /\ a < n * SECOND + UPDATE.

Lemma good_or_bad a : good a \/ exists n, bad n a.
Proof.
  unfold good, bad, calm, SECOND, UPDATE, NOTICE. set (q := a / 1000000). pose proof (Z.div_mod a 1000000 ltac:(lia)) as E. fold q in E.
  pose proof (Z.mod_pos_bound a 1000000 ltac:(lia)) as Hm.
  destruct (decide (a mod 1000000 < 1984)); [right; exists q; lia|].
  destruct (decide (a mod 1000000 < 1000000 - 314)); [left; exists q; lia|right; exists (q + 1); lia].
Qed.

(** A good round reads the same time twice. *)
Lemma good_round d :
  good (time d) ->
  let d2 := (cmos 0x0a (after date_regs d)).2 in
  announced (time d2) = false /\ date_of (reads date_regs d).1 = date_of (reads date_regs d2).1.
Proof.
  intros (q & Hq) d2. pose proof (reads_time date_regs d) as Ht. change (Z.of_nat (length date_regs)) with 6 in Ht.
  pose proof (law_cmos (after date_regs d) 0x0a) as Hc. unfold d2. destruct (cmos 0x0a (after date_regs d)) as [v dx]. cbn [snd]. destruct Hc as (Ht2 & _).
  assert (time d <= time dx <= time d + 70 + NOTICE) as Hr by (unfold NOTICE; lia).
  destruct (calm_at q _ _ _ Hq Hr) as [E1 E2]. unfold calm, NOTICE in Hq. split.
  - unfold announced, SECOND, UPDATE, NOTICE in *. pose proof (Z.div_mod (time dx) 1000000 ltac:(lia)) as E.
    apply orb_false_iff. split; [apply Z.ltb_ge; lia|apply Z.leb_gt]. lia.
  - rewrite !(fill_shown _ q); [done|unfold calm; lia..].
Qed.

Definition enough (fuel : nat) (a : Z) : Prop :=
  (good a /\ (1 <= fuel)%nat) \/ exists n, bad n a /\ n * SECOND + UPDATE - a <= 7 * (Z.of_nat fuel - 1).

(** A round takes from 7 to 130 microseconds. *)
Lemma enough_next fuel a a' : enough (S fuel) a -> ~ good a -> a + 7 <= a' <= a + 130 -> enough fuel a'.
Proof.
  intros [[? _]|(n & Hb & Hf)] Hg Ha; [done|]. unfold enough, bad, good, calm, SECOND, UPDATE, NOTICE in *.
  destruct (decide (a' < n * 1000000 + 1984)); [right; exists n; lia|left]. split; [exists n; lia|lia].
Qed.

Lemma cmostime_loop_ok s fuel d :
  enough fuel (time d) ->
  exists d' m, cmostime_loop fuel (with_dev s d) = Ok (shown (m / SECOND)) (with_dev s d')
    /\ time d <= m <= time d' /\ UPDATE <= m mod SECOND.
Proof.
  revert d. induction fuel as [|fuel IH]; intros d Hf.
  { exfalso. unfold enough, bad, SECOND, UPDATE in Hf. destruct Hf as [[_ ?]|(n & ? & ?)]; lia. }
  cbn [cmostime_loop]. erewrite bind_ok by apply fill_ok. erewrite bind_ok by apply cmos_read_ok. change (Z.shiftl 1 7) with 128.
  pose proof (reads_time date_regs d) as Ht. change (Z.of_nat (length date_regs)) with 6 in Ht. pose proof (good_round d) as Hgood.
  pose proof (law_cmos (after date_regs d) 0x0a) as Hc. destruct (cmos 0x0a (after date_regs d)) as [v d2]. cbn [fst snd] in *.
  destruct Hc as (Ht2 & _ & Hv & _). rewrite (Hv eq_refl). destruct (announced (time d2)) eqn:Ea.
  - destruct (IH d2) as (d' & m & E & Hm & Hu); [|exists d', m; split_and!; done || lia].
    apply (enough_next fuel (time d)); [done| |lia]. intros Hg. by destruct (Hgood Hg).
  - pose proof (quiet_calm _ Ea) as Hq. pose proof (reads_time date_regs d2) as Ht3. change (Z.of_nat (length date_regs)) with 6 in Ht3.
    erewrite bind_ok by apply fill_ok. case_bool_decide as Heq.
    + exists (after date_regs d2), (time d2). rewrite Heq, (fill_shown d2 (time d2 / SECOND)) by done. split_and!; [done|lia|lia|].
      by apply (calm_at _ _ _ (time d2) Hq); lia.
    + destruct (IH (after date_regs d2)) as (d' & m & E & Hm & Hu); [|exists d', m; split_and!; done || lia].
      apply (enough_next fuel (time d)); [done| |lia]. intros Hg. by destruct (Hgood Hg).
Qed.

Lemma conv_bcd x : 0 <= x < 100 -> CONV (to_bcd x) = x.
Proof.
  intros Hx. assert (Forall (fun k => CONV (to_bcd (Z.of_nat k)) = Z.of_nat k) (seq 0 100)) as Hall by (apply (bool_decide_unpack _); vm_compute; exact I).
  rewrite list.Forall_forall in Hall. specialize (Hall (Z.to_nat x) ltac:(apply elem_of_seq; lia)). by rewrite Z2Nat.id in Hall by lia.
Qed.

(** C40: [cmostime] returns, and the time it returns is the one that the clock
    showed at some moment [m] between the call and the return, outside of an
    update, with the century added: never a mixture of two times, although the
    registers hold anything during an update and the clock moves on while they
    are read.  The clock keeps the times of its data sheet, counts the hours from
    0 to 23, and a register is read in at most 10 microseconds. *)
Theorem cmostime_not_torn s :
  exists d' m, cmostime s = Ok { clock (m / SECOND) with year := year (clock (m / SECOND)) + 2000 } (with_dev s d')
    /\ time (dev s) <= m <= time d' /\ UPDATE <= m mod SECOND.
Proof.
  unfold cmostime. pose proof (cmos_read_ok s (dev s) 0x0b) as E0. replace (with_dev s (dev s)) with s in E0 by (by destruct s).
  erewrite bind_ok by exact E0. clear E0. pose proof (law_cmos (dev s) 0x0b) as Hc. destruct (cmos 0x0b (dev s)) as [v d1]. cbn [fst snd].
  destruct Hc as (Ht & _ & _ & Hb). change (Z.shiftl 1 2) with 4. rewrite (Hb eq_refl).
  destruct (cmostime_loop_ok s dspin d1) as (d' & m & E & Hm & Hu).
  { pose proof law_rounds as Hr. destruct (good_or_bad (time d1)) as [Hg|(n & Hn)]; [left; split; [done|lia]|right].
    exists n. split; [done|]. unfold bad, SECOND, UPDATE, NOTICE in *. lia. }
  erewrite bind_ok by exact E. exists d', m. split_and!; [|lia|lia|done].
  pose proof (law_digits (m / SECOND)) as Hf. pose proof (Hf 0) as F0. pose proof (Hf 2) as F1. pose proof (Hf 4) as F2. pose proof (Hf 7) as F3. pose proof (Hf 8) as F4.
  pose proof (Hf 9) as F5. cbn in F0, F1, F2, F3, F4, F5. unfold shown, encode. destruct (clock (m / SECOND)) as [a b c e f g]. cbn in *.
  destruct bcd_mode; cbn; rewrite ?conv_bcd by done; by rewrite u32_small by lia.
Qed.
End Rtc.

(** ** A board

    Devices that behave as the classes ask: a read of the clock takes 5
    microseconds, and its registers are 255 during the update. *)
Record bsim := mk_bsim {
  b_iosel : Z; b_ioreg : Z -> Z;
  b_lreg : lapicreg -> Z; b_sent : bool;
  b_csel : Z; b_time : Z;
}.
Definition bsim_clock (q : Z) : rtcdate := mk_rtcdate (q mod 60) 30 12 15 11 26.
Definition bsim_value (reg t : Z) : Z :=
  if reg =? 0x0a then (if announced t then 128 else 0)
  else if reg =? 0x0b then 0
  else if t mod SECOND <? UPDATE then 255 else to_bcd (field (bsim_clock (t / SECOND)) reg).
Definition bsim_io (d : bsim) (r : Z) : Z := if r =? REG_VER then 23 * 65536 else b_ioreg d r.

#[export] Instance bsim_board : Board bsim := {|
  lapic_read r d :=
    match r with
    | ICRLO => (if b_sent d then 0x1000 else 0, mk_bsim (b_iosel d) (b_ioreg d) (b_lreg d) false (b_csel d) (b_time d))
    | VER => (0x50014, d)
    | _ => (b_lreg d r, d)
    end;
  lapic_write r v d := mk_bsim (b_iosel d) (b_ioreg d) (<[r := v]> (b_lreg d)) (b_sent d || bool_decide (r = ICRLO)) (b_csel d) (b_time d);
  mmio_read a d := (bsim_io d (b_iosel d), d);
  mmio_write a v d :=
    if a =? IOAPIC then mk_bsim v (b_ioreg d) (b_lreg d) (b_sent d) (b_csel d) (b_time d)
    else mk_bsim (b_iosel d) (<[b_iosel d := v]> (b_ioreg d)) (b_lreg d) (b_sent d) (b_csel d) (b_time d);
  port_in p d := (bsim_value (b_csel d) (b_time d + 5), mk_bsim (b_iosel d) (b_ioreg d) (b_lreg d) (b_sent d) (b_csel d) (b_time d + 5));
  port_out p v d := mk_bsim (b_iosel d) (b_ioreg d) (b_lreg d) (b_sent d) v (b_time d);
  dspin := 400%nat;
|}.

#[export] Program Instance bsim_ioapic : IoapicSpec bsim := {| io_sel := b_iosel; io_reg := bsim_io; io_max := 23%nat |}.
Next Obligation. done. Qed.
Next Obligation.
  intros d v Hs _ r. unfold bsim_io. cbn [mmio_write bsim_board b_iosel b_ioreg]. change (IOAPIC + 16 =? IOAPIC) with false. cbn [b_iosel b_ioreg]. unfold REG_VER, REG_TABLE in *. destruct (Z.eqb_spec r 1) as [->|Hr].
  - by rewrite fn_lookup_insert_ne by lia.
  - destruct (decide (r = b_iosel d)) as [->|Hne]; [by rewrite !fn_lookup_insert|]. rewrite !fn_lookup_insert_ne by done.
    by rewrite (proj2 (Z.eqb_neq _ _)) by done.
Qed.
Next Obligation. done. Qed.
Next Obligation. done. Qed.

#[export] Program Instance bsim_lapic : LapicSpec bsim := {|
  lreg := b_lreg; lver := 0x50014; undelivered d := if b_sent d then 1%nat else 0%nat |}.
Next Obligation. intros d r v r' _. cbn. case_decide; [subst; by rewrite fn_lookup_insert|by rewrite fn_lookup_insert_ne]. Qed.
Next Obligation. by intros d [] r'. Qed.
Next Obligation. done. Qed.
Next Obligation. intros d. cbn. destruct (b_sent d); lia. Qed.
Next Obligation. intros d. cbn. destruct (b_sent d); cbn; [lia|done]. Qed.

#[export] Program Instance bsim_rtc : RtcSpec bsim := {| time := b_time; clock := bsim_clock; bcd_mode := true |}.
Next Obligation.
  intros d reg. cbn. unfold bsim_value. split_and!; [lia|lia| | |].
  - intros Hr Hu. rewrite !(proj2 (Z.eqb_neq reg _)) by (intros ->; apply (bool_decide_pack _) in Hr; by vm_compute in Hr).
    by rewrite (proj2 (Z.ltb_ge _ _)) by done.
  - intros ->. cbn. by destruct (announced _).
  - by intros ->.
Qed.
Next Obligation.
  intros q reg. unfold field, bsim_clock. pose proof (Z.mod_pos_bound q 60 ltac:(lia)). repeat case_match; cbn; lia.
Qed.
Next Obligation. cbn. lia. Qed.

(** A board whose clock moves on while it is read for the first time. *)
Definition bsim_start : board bsim := mk_board true 0 [] (fun _ => 0) (mk_bsim 0 (fun _ => 0) (fun _ => 0) false 0 59999960).

Lemma cmostime_not_torn_witness :
  exists d' m, cmostime bsim_start = Ok { clock (m / SECOND) with year := year (clock (m / SECOND)) + 2000 } (with_dev bsim_start d')
    /\ time (dev bsim_start) <= m <= time d' /\ UPDATE <= m mod SECOND.
Proof. exact (cmostime_not_torn bsim_start). Defined.

(** It waits until the update is over. *)
Lemma cmostime_waits :
  match cmostime bsim_start with Ok r s => r = mk_rtcdate 0 30 12 15 11 2026 /\ time (dev s) = 60002090 | _ => False end.
Proof. vm_compute. split; reflexivity. Qed.

(** Its controller after [ioapicinit] and one [ioapicenable]. *)
Lemma ioapic_enabled :
  exists s' d, ioapicinit bsim_start = Ok tt s' /\ ioapicenable IRQ_KBD 2 s' = Ok tt (with_dev s' d)
    /\ routes d (<[IRQ_KBD := Some 2]> (fun _ => None)).
Proof.
  destruct (ioapicinit_disables bsim_start) as (s' & E & Hr & _). destruct (ioapicenable_routes s' _ IRQ_KBD 2 Hr) as (d & E' & Hd);
    [by vm_compute|lia|]. by exists s', d.
Qed.
