(* ===== verification/UserWitness.v ===== *)
(** * A process with one page of memory

    A machine whose page directory maps one user page, on which the theorems
    about system calls and threads apply. *)

From S2P Require Import Prelude CString Kalloc Vm VmTheory VmAlloc VmUser Double Spinlock ProcState Sched SchedWitness Sleep Bio Log BlockStore Fs Kernel Pipe ProcWitness File Proc ProcTheory Syscall SyscallTheory Sysfile ForkTheory Programs Descriptors ConsoleWitness.
Open Scope Z_scope.

#[local] Instance tiny_linker : Linker := {| kend := KERNBASE + 0x115400; kdata := KERNBASE + 0x108000;
     kforkret := KERNBASE + 0x103a10; ktrapret := KERNBASE + 0x105c55 |}.
#[local] Instance tiny_linker_ok : LinkerOk.
Proof. split; try reflexivity; vm_compute; discriminate. Qed.

Definition DIR : Z := KERNBASE + 0x200000.
Definition TABLE : Z := KERNBASE + 0x201000.
Definition FRAME : Z := KERNBASE + 0x202000.
Definition STACK : Z := KERNBASE + 0x203000.

(** One table, with one page that the user may write. *)
Definition tiny_mem : mem :=
  store32 (store32 (fun _ => 0) DIR (V2P TABLE + 7)) TABLE (V2P FRAME + 7).
Definition tiny : kmem := mk_kmem tiny_mem 1 0.

Lemma tiny_valid : valid_page DIR /\ valid_page TABLE /\ valid_page FRAME /\ valid_page STACK.
Proof. split_and!; (split; [reflexivity|vm_compute; split; congruence]). Qed.

Lemma tiny_pde i : 0 <= i < 1024 -> pde tiny_mem DIR i = if i =? 0 then V2P TABLE + 7 else 0.
Proof.
  intros Hi. unfold pde, tiny_mem. rewrite load32_store32_other by (unfold DIR, TABLE; lia).
  destruct (Z.eqb_spec i 0) as [->|Hne]; [rewrite Z.mul_0_r, Z.add_0_r; by rewrite load32_store32|].
  rewrite load32_store32_other by lia. by apply load32_zero.
Qed.

Lemma tiny_entry va :
  0 <= va < 2 ^ 32 -> entry tiny_mem DIR va = if va <? PGSIZE then V2P FRAME + 7 else 0.
Proof.
  intros Hva. pose proof (PDX_range va) as Hd. pose proof (PTX_range va) as Ht. unfold entry, has_tab, tab.
  rewrite tiny_pde by done. rewrite PDX_eq, PTX_eq in * by done. unfold PGSIZE in *.
  destruct (Z.eqb_spec (va / 2 ^ 22) 0) as [E|E].
  - change (has (V2P TABLE + 7) PTE_P) with true. change (P2V (PTE_ADDR (V2P TABLE + 7))) with TABLE.
    apply Z.div_small_iff in E; [|lia]. pose proof (Z.div_mod va 4096 ltac:(lia)). pose proof (Z.mod_pos_bound va 4096 ltac:(lia)).
    unfold tiny_mem. assert (va / 4096 mod 1024 = va / 4096) as -> by (apply Z.mod_small; lia).
    destruct (Z.ltb_spec va 4096).
    + rewrite (Z.div_small va) by lia. rewrite Z.mul_0_r, Z.add_0_r. by rewrite load32_store32.
    + rewrite !load32_store32_other by (unfold DIR, TABLE; lia). by apply load32_zero.
  - rewrite (proj2 (Z.ltb_ge _ _)); [done|]. destruct (Z.lt_ge_cases va 4096); [|done]. rewrite Z.div_small in E; lia.
Qed.

Lemma tiny_present va : 0 <= va < 2 ^ 32 -> present tiny_mem DIR va = (va <? PGSIZE).
Proof. intros Hva. unfold present. rewrite tiny_entry by done. by destruct (va <? PGSIZE). Qed.

Lemma tiny_owns q : owns tiny_mem DIR q -> q = DIR \/ q = TABLE.
Proof.
  intros [->|(i & Hi & Hh & ->)]; [by left|right]. unfold has_tab, tab in *. rewrite tiny_pde in * by done.
  by destruct (i =? 0).
Qed.

Lemma tiny_frame va : 0 <= va < PGSIZE -> frame tiny_mem DIR va = FRAME.
Proof.
  intros Hva. unfold frame. rewrite tiny_entry by (unfold PGSIZE in *; lia).
  rewrite (proj2 (Z.ltb_lt _ _)) by lia. reflexivity.
Qed.

Lemma tiny_space : space_ok tiny DIR [].
Proof.
  assert (forall i, 0 <= i < 1024 -> has_tab tiny_mem DIR i = true -> i = 0) as Hz.
  { intros i Hi. unfold has_tab. rewrite tiny_pde by done. by destruct (Z.eqb_spec i 0). }
  pose proof user_range as HK. split; cbn [kmemory tiny].
  - split; [by split; [done|constructor|constructor]| |by intros q _ ?%not_elem_of_nil]. split; [apply tiny_valid| |].
    + intros i Hi Hh. rewrite (Hz i Hi Hh). split; [apply tiny_valid|done].
    + intros i j Hi Hj Hhi Hhj _. by rewrite (Hz i Hi Hhi), (Hz j Hj Hhj).
  - intros va Hva. rewrite tiny_present by lia. intros Hlt%Z.ltb_lt. rewrite tiny_frame by lia.
    split_and!; [apply tiny_valid| |apply not_elem_of_nil]. intros [E|E]%tiny_owns; discriminate E.
  - intros va va' Hva Hva'. rewrite !tiny_present by lia. intros H1%Z.ltb_lt H2%Z.ltb_lt _.
    rewrite !Z.div_small by lia. done.
Qed.

Lemma tiny_writable va : 0 <= va < PGSIZE -> uwritable tiny_mem DIR va.
Proof.
  intros Hva. assert (0 <= va < 2 ^ 32) as Hr by (unfold PGSIZE in *; lia). split.
  - unfold usable. rewrite tiny_present, tiny_entry by done. by rewrite (proj2 (Z.ltb_lt _ _)) by lia.
  - rewrite tiny_frame by done. unfold translate. fold (pde tiny_mem DIR (PDX va)).
    pose proof (tiny_entry va Hr) as He. rewrite (proj2 (Z.ltb_lt va PGSIZE)) in He by lia.
    assert (PDX va = 0) as Hd by (rewrite PDX_eq by done; apply Z.div_small; unfold PGSIZE in *; lia).
    unfold entry, has_tab, tab in He. rewrite Hd in *. rewrite tiny_pde in * by lia. cbn [Z.eqb] in *.
    change (has (V2P TABLE + 7) PTE_P) with true in He. change (Z.land (V2P TABLE + 7) (Z.lor PTE_P PTE_W) =? Z.lor PTE_P PTE_W) with true.
    cbv iota in He |- *. rewrite He. reflexivity.
Qed.

Lemma tiny_stack : private_page tiny DIR [] STACK.
Proof.
  pose proof user_range as HK. split; [apply tiny_valid|apply not_elem_of_nil| |]; cbn [kmemory tiny].
  - intros [E|E]%tiny_owns; discriminate E.
  - intros va Hva. rewrite tiny_present by lia. intros Hlt%Z.ltb_lt. rewrite tiny_frame by lia. discriminate.
Qed.

(** ** Threads

    A process, with one thread that has exited and one that is runnable. *)
Definition caller : proc :=
  { some_proc with state := RUNNING; pid := 7; pgdir := DIR; sz := PGSIZE; tf := { zero_trapframe with esp := 64 } }.
Definition thread_of (st : procstate) (t rv : Z) : proc :=
  { caller with state := st; tid := t; retval := rv; parent := Some 0%nat; kstack := STACK; isThread := 1; isMainThread := 0 }.
Definition threads (st : procstate) (t rv : Z) : kernel (World unit) :=
  kernel_of (machine_at (Some 0%nat) []) [caller; thread_of st t rv] (world_of tiny ∅).

Lemma threads_joins st t rv : joins (threads st t rv) 0 0 caller [] 100.
Proof.
  split.
  - apply on_machine_at; [apply NoDup_nil_2|cbn; lia].
  - reflexivity.
  - reflexivity.
  - apply tiny_space.
  - unfold KERNBASE. lia.
  - intros x Hx. apply tiny_writable. unfold PGSIZE. lia.
Qed.

Lemma threads_reapable st t rv : 0 <= t < 64 -> reapable (threads st t rv) 0 1 caller (thread_of st t rv) [].
Proof.
  intros Ht. split.
  - split_and!; [reflexivity|reflexivity|]. intros j' q Hj Hq. assert (j' = 0)%nat as -> by lia. by injection Hq as <-.
  - discriminate.
  - exact Ht.
  - apply tiny_stack.
Qed.

Lemma thread_join_returns_witness :
  let k := threads ZOMBIE 3 2018 in
  exists k', thread_join 3 100 1 k = Ok 0 k' /\ has_joined k k' 0 0 1 caller (thread_of ZOMBIE 3 2018) [] 100.
Proof.
  intros k. apply (thread_join_returns 3 100 1 k 0 0 1 caller (thread_of ZOMBIE 3 2018) []).
  - apply threads_joins.
  - apply threads_reapable. lia.
  - lia.
  - reflexivity.
  - reflexivity.
Defined.

Lemma thread_join_reaps_other_witness :
  let k := threads RUNNABLE 3 0 in
  exists k', thread_join 5 100 1 k = Ok 0 k' /\ has_joined k k' 0 0 1 caller (thread_of RUNNABLE 3 0) [] 100.
Proof.
  intros k. apply (thread_join_reaps_other 5 100 1 k 0 0 1 caller (thread_of RUNNABLE 3 0) []).
  - apply threads_joins.
  - apply threads_reapable. lia.
  - lia.
  - discriminate.
  - discriminate.
Defined.

(** ** Arguments of system calls *)
Lemma tiny_runs : runs (threads ZOMBIE 3 0) 0 0 caller.
Proof.
  split.
  - apply on_machine_at; [apply NoDup_nil_2|cbn; lia].
  - reflexivity.
  - vm_compute. split; discriminate.
  - intros x Hx. cbn. rewrite tiny_present; [apply Z.ltb_lt|]; cbn in Hx; unfold PGSIZE in *; lia.
Qed.

Lemma argptr_checks_witness :
  let k := threads ZOMBIE 3 0 in
  let memory := kmemory (wmem (world k)) in
  exists m', argptr 0 16 k
    = Ok (p ← user_int memory caller (arg_addr caller 0);
          if (0 <=? 16) && (u32 p <? sz caller) && (u32 p + 16 <=? sz caller) then Some (u32 p) else None)
        { k with mach := m' }
    /\ on m' 0 (Some 0%nat) []
    /\ forall p, p + 16 <= sz caller -> 0 <= p ->
         on_mem (uload_bytes (pgdir caller) p (Z.to_nat 16)) { k with mach := m' }
         = Ok (user_read memory (pgdir caller) p (Z.to_nat 16)) { k with mach := m' }.
Proof.
  intros k memory. apply (argptr_checks k 0 0 caller 0 16).
  - apply tiny_runs.
  - lia.
Defined.

Lemma argstr_checks_witness :
  let k := threads ZOMBIE 3 0 in
  let memory := kmemory (wmem (world k)) in
  exists m', argstr 1 k
    = Ok (a ← user_int memory caller (arg_addr caller 1);
          if u32 a <? sz caller
          then until_nul (user_read memory (pgdir caller) (u32 a) (Z.to_nat (sz caller - u32 a))) else None)
        { k with mach := m' }
    /\ on m' 0 (Some 0%nat) [].
Proof. intros k memory. apply (argstr_checks k 0 0 caller 1). apply tiny_runs. Defined.

(** ** Descriptors *)
#[local] Existing Instance no_store.

(** The same process with a file on descriptors 0 and 1, which calls [dup(0)]. *)
Definition duper : proc := { caller with ofile := [Some 0%nat; Some 0%nat] ++ replicate 14 None }.
Definition duper_kernel : kernel (World unit) :=
  kernel_of (machine_at (Some 0%nat) []) [duper]
    { (world_of tiny ∅) with ftab := [mk_file FD_INODE 2 1 1 0 (Some 0%nat) 0] }.

Lemma duper_runs : runs duper_kernel 0 0 duper.
Proof.
  split.
  - apply on_machine_at; [apply NoDup_nil_2|cbn; lia].
  - reflexivity.
  - vm_compute. split; discriminate.
  - intros x Hx. cbn. rewrite tiny_present; [apply Z.ltb_lt|]; cbn in Hx; unfold PGSIZE in *; lia.
Qed.

Lemma sys_dup_refines_witness :
  let obj _ := Opened [] 0 in
  exists r k' pr', sys_dup duper_kernel = Ok r k' /\ ptable k' !! 0%nat = Some pr'
    /\ (r, visible obj (ofile pr')) = (2, replicate 3 (Some (Opened [] 0)) ++ replicate 13 None)
    /\ ftab (world k') = [mk_file FD_INODE 3 1 1 0 (Some 0%nat) 0].
Proof.
  intros obj. destruct (sys_dup_refines duper_kernel 0 0 duper 0 obj (Build_env (fun _ => true) (fun _ => 1) (fun _ => [])) ([], 0%nat))
    as (r & k' & pr' & E & Hp & Hd & Hf).
  - apply duper_runs.
  - reflexivity.
  - intros f Hf. cbn in Hf. assert (f = 0)%nat as -> by set_solver. eexists. split_and!; [reflexivity|cbn; lia..].
  - vm_compute. reflexivity.
  - assert (forall e n, docall e n (dup 0) (visible obj (ofile duper)) = (2, replicate 3 (Some (Opened [] 0)) ++ replicate 13 None, [])) as Ed by reflexivity.
    rewrite Ed in Hd. injection Hd as <- Ht. exists 2, k', pr'. split_and!; [done|done| |by rewrite Hf].
    by rewrite <- Ht.
Defined.
